(* ===== verification/_CoqProject ===== *)
-Q . S2P
Prelude.v
GoFloat.v
Regex.v
GoTime.v
Latest.v
Retained.v
NetAddr.v
GatewayPlan.v
CheckBinding.v
RunControl.v
RunSpec.v
RunResult.v
GatewayRun.v
GatewayControl.v
Quality.v
ResolverQuality.v
ResolverWire.v
ResolverReply.v
ResolverPlan.v
ResolverRun.v
HTTPSQuality.v
HTTPSPlan.v
HTTPSRun.v
Corroborate.v
GoBytes.v
ICMPPacket.v
Effects.v
ICMPSender.v
ResolverSender.v
RouteMessage.v
RouteInspect.v
CheckRoute.v
GoJSON.v
ConsentSession.v
GoMarshal.v
NetText.v
Manifest.v
Capability.v
Lifecycle.v
Domain.v
Incident.v
Coverage.v
WatchScope.v
GatewaySession.v
AddrPortText.v
ResolverSession.v
HTTPSSession.v
HTTPSTransport.v
APIServer.v
StorageHealth.v
Ingest.v
WatchHealth.v
WatchCoverage.v
Neighbors.v
Collector.v
Reconcile.v
WatchDriver.v
WatchRuntime.v
