(* ===== verification/Prelude.v ===== *)
(** * Verification of the Cozy SOC controller

    Cozy SOC is a controller that watches a home network.  This development models the
    logic of the controller under [src/internal/controller]: the active network checks
    (the user reviews a plan of one bounded check, consents, and a controller-wide run
    control executes it at most once with a durable audit before and after), the
    evidence they leave and what is concluded from it, the passive Device Watch with its
    collection, reconciliation and ingestion, the coverage it may claim, capability
    manifests with their lifecycle, incidents, and the consent sessions by which a local
    client and the controller agree on one check.

    ** The parts and the files

    - Shared ground.  [Prelude]: results and their notations ([let?], [guard?],
      [check?], [for_each] for Go's loops with early return), lists, strings, the
      automation.  [GoFloat]: the [float64] of the reply loss.  [GoBytes]: byte
      slices and [encoding/binary].  [GoJSON]: the texts of [encoding/json].  [GoMarshal]: maps
      written as JSON and read back by the tags of a struct.  [Regex]: the regular expressions of the source
      as an executable matcher.  [GoTime]: [time.Time] with its wall and optional
      monotonic reading, [Duration] as a saturating 64-bit integer, [validTime].
      [NetAddr], [NetText], [AddrPortText]: [net/netip] and [net] addresses, prefixes,
      hardware addresses and endpoints, parsing and printing.  [Latest]: the loop that
      keeps the latest measurement of every key.  [Retained]: the loops that fold the
      retained events of a run, over the class [RetainedEvent].  [Effects]: programs as
      trees of effects, their runs as traces, a weakest precondition for them, and
      [drive], which runs one against a concrete world.
    - Plans.  [GatewayPlan]: [networkquality/gateway_plan.go].  [CheckBinding]:
      [checkbinding/binding.go].  [ResolverPlan]: [resolverplan/plan.go], on
      [CheckBinding] and [ResolverWire].  [HTTPSPlan]: [httpsplan/plan.go], on
      [CheckBinding].
    - The run control.  [RunControl]: [control.go] and [discard.go] of [gatewayrun],
      [resolverrun] and [httpsrun], which are one state machine over different data:
      the class [RunPackage] is what a package provides, [Control] is the mutable
      state, each section under the mutex is a state transformer ([prepare_begin],
      [prepare_commit], [run_reserve], [release], [fail_audit], [close_section],
      [discard_section], [clock]), and each call ([Prepare], [Run], [Close],
      [Discard], [Shutdown]) is a tree of effects.  [RunSpec]: the step relation that
      interleaves any number of calls, the abstract contract ([spec_step] over the
      trace) and the theorems about every package.  [RunResult]: what a run that ended
      has recorded and reports.
    - The packages' data.  [GatewayRun], [ResolverRun], [HTTPSRun]: [model.go],
      [measurement.go] and [history.go] of the three run packages: selections, audit
      events and their validators, sample validation, the description of a retained
      run, and the instance of [RunPackage].  [GatewayControl] runs the gateway
      instance on concrete schedules.
    - Packets and senders.  [ICMPPacket], [ICMPSender]: [gatewayicmp] and
      [gatewayrun/icmp.go].  [ResolverWire], [ResolverReply]: [resolverwire].
      [ResolverSender]: [resolverudp/sender.go].  A sender is a program of effects over
      a socket, a route lookup, a clock and a context that answer as they like.
    - Routes.  [RouteMessage]: the BSD routing messages of [gatewayroute].
      [RouteInspect]: [gatewayroute] and the preflight of the command.  [CheckRoute]:
      [checkroute], [resolverroute], [httpsroute].
    - Evidence.  [Quality]: [networkquality/model.go] and [assess.go].
      [ResolverQuality]: [resolver.go] and [resolver_assess.go].  [HTTPSQuality]:
      [https.go] and [https_assess.go].  [Corroborate]: [corroborate.go].
    - Consent.  [ConsentSession]: the exchange that [localapi/gateway_session.go],
      [resolver_session.go] and [https_session.go] and the three clients conduct, once,
      over the class [SessionPackage], with the strict frame decoder.  [GatewaySession],
      [ResolverSession], [HTTPSSession]: the wire types of [api], the projections and
      validators of [localapi/*_projection.go] and the instances.
    - Capabilities.  [Manifest], [Capability], [Lifecycle]: [capability], the manifest
      and its validator, registry, instances and configurations, and the lifecycle
      engine over arbitrary drivers.
    - Device Watch.  [WatchScope], [Neighbors], [Collector], [Reconcile], [WatchHealth],
      [WatchCoverage], [WatchDriver], [WatchRuntime]: [devicewatch]: enrolled scopes, the
      neighbor tables, one collection, the identity plan of an observation, health and
      coverage, the lifecycle driver, and the goroutine behind [Start] and [Stop].
    - Records.  [Domain]: [domain].  [Incident]: [incident].  [Coverage]: [coverage].
      [Ingest]: the queue of [storage/ingestion.go] as a concurrent step relation.
      [StorageHealth]: [storage/health.go] and the files beside it.
    - HTTPS transport and local API.  [HTTPSTransport]: [httpsexchange] and
      [httpstcp/candidate.go], [measurement.go]: the bounded connection, one TLS and HTTP
      exchange, and the executor that inspects the route before every write.
      [APIServer]: one connection of [localapi/server.go] with the handlers beside it,
      from the peer's identity to the one call and the one answer.

    ** What the theorems show

    - The control ([RunSpec]): it refines its contract under every interleaving
      ([refinement]); an execution needs a consumed review and a durable authorization
      and admission ([executor_gated]); reviews are single use, runs are an interval
      apart ([review_single_use], [cooldown_enforced]); once an audit is unconfirmed or the
      clock fails or runs backwards nothing is admitted again ([uncertainty_locks]);
      operations exclude each other ([exclusive_operations]), [Shutdown] joins all work
      ([shutdown_joins]) and nothing leaks a reservation ([returned_releases]).
    - Consent from end to end: the server runs a check only for an approval, in time,
      of the review it wrote on this very connection, and at most once
      ([consent_gated]); the client sends only what its user decided about a review it
      validated ([client_consents]); both together ([consent_end_to_end]).  What the
      run control hands out is never refused by the session around it
      ([gateway_review_delivered], [gateway_result_delivered], and their like for the
      two other checks).
    - The plans: exact characterizations of the accepted inputs ([preview_spec],
      [binding_spec], [resolver_plan_spec], [request_target_spec]), of what a repeated
      review compares ([resolver_same_selection], [https_same_selection]) and of the
      request that is sent ([https_request_exact]).
    - The local API: nothing is called before the peer, the secret and the version were
      checked, at most one call and one answer follow, and what reaches other systems
      needs a verified identity ([api_gated]).
    - The wire: the envelope pass decides an inductive grammar of DNS messages
      ([framing_spec]), is safe on hostile bytes ([framing_safe]), the classes of a reply
      mean what they say ([classify_spec]) and a matched reply answers the question asked
      ([match_response_sound]); echo requests and replies ([echo_roundtrip]), ancillary
      data ([control_spec]) and routing replies ([parse_reply_spec]) likewise.
    - The senders: whatever they are answered they end within their budget of packets,
      receive calls and time ([measure_bounded], [exchange_bounded],
      [https_exchange_bounded]).  Where the monotonic clock advances with the wall clock
      their samples pass the run control's own validation ([measure_accepted],
      [exchange_accepted], [https_exchange_accepted]).
    - The evidence: a success is reported for, and where stated exactly for, the latest
      fresh matching measurement ([succeeded_sound], [resolver_succeeded_iff],
      [https_succeeded_iff]); the snapshot validator is exact; reports do not depend on
      the order of the evidence, unless monotonic readings disagree with the wall clock
      ([assess_order_dependent_monotonic]); comparisons are sound and their conclusions
      supported by what they compared.
    - The audit: what an honest run reports always passes the audit's own validator
      ([gateway_audit_valid], [resolver_audit_valid], [https_audit_valid]), retained
      events are described in any order with the same result, and an accepted history
      is always described ([resolver_describe_total], [https_describe_total]).
    - Capabilities: validators are exact ([manifest_validate_spec],
      [validate_configuration_spec]); drivers act only after a preflight without blocking
      failures ([run_execute_gated]); errors leave the engine unchanged ([run_effect]);
      the engine's states agree with its configurations ([engine_invariant]) as long as no
      built-in capability asks for a process, which the validator does not exclude
      ([apply_configuration_torn]).
    - Device Watch: enrollment survives its encoding ([enrollment_roundtrip]); neighbor
      tables are read exactly, and the lines that make the parser panic are known
      ([parse_arp_spec], [arp_roundtrip]); a collection observes only usable neighbors of
      the enrolled network, once each ([collect_sound]), and what it writes is decoded and
      planned by the reconciler ([collected_reconciles]); links name stored claims and no
      write follows a refused one ([reconcile_links_resolved]); active coverage is claimed exactly when everything
      behind it is current ([active_limited_sound], [verify_verified]); at most one
      goroutine collects ([runtime_exclusive]).
    - Records: incidents do not depend on the order of findings or of map iteration
      ([correlate_order_independent], for confidences that are numbers) and group exactly what shares a confirmed device
      ([correlate_groups]); coverage reports are checked exactly
      ([coverage_report_spec]); the ingestion queue keeps its invariant under every
      interleaving ([ingest_invariant]) and always drains ([close_completes]).
    ** Modelling choices

    A pair of a value and an error is a [result]; an error keeps its text or its
    constructor where callers can tell it apart.  Integers are [Z]; where the source
    can overflow ([time.Time] arithmetic, [Duration], the bytes of a packet) the width
    is written out.  Reads outside a slice and nil dereferences are values ([Panic],
    [Panics], [None]) that theorems exclude or characterize.  Loops over slices are folds and need no fuel.

    Fuel is used where the source loops differently, and always suffices: the labels of a
    DNS name ([name_loop], one unit per byte up to the end of the packet, enough by
    [framing_safe]); aliases ([chase], nine names, the bound of the source itself); the
    records of a section ([section_fuel], thirty-three for at most thirty-two, enough for
    every parser that meets [Parses]); the groups of an IPv6 address ([parse6], at most
    eight); the digits of a printed number (forty, where a 128-bit number has at most
    thirty-nine); trimming white space and [strings.Fields] (the length of the text); the
    folding of a checksum (three rounds for a sum below 2^32); ancillary messages
    ([control_loop], one unit per byte); the receive loops of the senders ([await], one
    round more than the receive calls of the budget); JSON values ([2 * length + 2],
    enough by [parse_fuel]); the members of a consent frame and UTF-8 sequences (one unit
    per byte); lifecycle retries (the attempts the policy allows).

    The clock, the random source, [Preflight], [Executor], [Auditor], sockets, routes,
    stores, drivers, connections and the cancellation of a context are arbitrary answers
    of the environment, so that theorems hold for each of them; a panic of a collaborator
    is the answer its wrapper turns it into.  SHA-256, the [dnsmessage] package, the
    Unicode classes, the RFC 3339 text of a time, [http.ReadResponse] and the struct
    codecs of [encoding/json] are parameters (those of Device Watch's observations are
    written out in [GoMarshal]); what a theorem needs of them is a named hypothesis or
    a class ([Parses]), with an instance at hand.  Go's [sort.Slice] and [slices.Sort]
    are merge sorts by the same order, unique where ties are impossible, and the order in
    which Go ranges over a map is a parameter.

    ** Not modelled

    System calls and their macOS bindings (sockets, [x/net/route], peer credentials), the
    execution of system commands, SQLite, the decoding of most JSON into structs, TLS and the
    HTTP parser of the standard library, the handler behind the local API's methods, the
    clients of AdGuard Home and OPNsense, the command and its web server,
    and the TypeScript user interface.  They are either bindings whose behaviour lies in
    code that is not part of the repository, or glue that passes values between the parts
    above. *)

From Stdlib Require Export ZArith Lia Bool.
From stdpp Require Export base list strings gmap sorting.

Global Set Default Goal Selector "!".
#[export] Set Default Goal Selector "!".
Open Scope Z_scope.

(** ** Notations for the operators of the source language *)

Declare Scope go_scope.
Delimit Scope go_scope with go.

Notation "x == y" := (bool_decide (x = y)) (at level 70, no associativity) : go_scope.
Notation "x != y" := (negb (bool_decide (x = y))) (at level 70, no associativity) : go_scope.
Open Scope go_scope.

(** ** Fallible computations

    A function that returns a pair of a value and an [error] in the source is
    modelled by a function into [result]: [Ok] when the error is nil. *)

Inductive result (E A : Type) : Type :=
| Ok (a : A)
| Err (e : E).
Arguments Ok {E A} a.
Arguments Err {E A} e.

Definition res_bind {E A B} (r : result E A) (k : A → result E B) : result E B :=
  match r with
  | Ok a => k a
  | Err e => Err e
  end.

Definition is_ok {E A} (r : result E A) : bool :=
  match r with Ok _ => true | Err _ => false end.

Notation "'let?' x ':=' e 'in' k" := (res_bind e (fun x => k))
  (at level 10, x pattern, e at level 200, k at level 200) : go_scope.
Notation "'check?' e 'in' k" := (res_bind e (fun _ => k))
  (at level 10, e at level 200, k at level 200) : go_scope.
Notation "'guard?' b 'else' e 'in' k" := (if b then Err e else k)
  (at level 10, b at level 200, e at level 200, k at level 200) : go_scope.

Lemma res_bind_ok {E A B} (r : result E A) (k : A → result E B) b :
  res_bind r k = Ok b ↔ ∃ a, r = Ok a ∧ k a = Ok b.
Proof. destruct r; naive_solver. Qed.

Lemma is_ok_true {E A} (r : result E A) : is_ok r = true ↔ ∃ a, r = Ok a.
Proof. destruct r; naive_solver. Qed.

Lemma guard_ok {E A} (b : bool) (e : E) (k : result E A) a :
  (if b then Err e else k) = Ok a ↔ b = false ∧ k = Ok a.
Proof. destruct b; naive_solver. Qed.

(** A [for _, x := range xs] loop whose body updates the variables it closes over
    and may return an error early. *)
Fixpoint for_each {E S A} (body : S → A → result E S) (xs : list A) (s : S) : result E S :=
  match xs with
  | [] => Ok s
  | x :: rest => let? s' := body s x in for_each body rest s'
  end.

Lemma for_each_app {E S A} (body : S → A → result E S) xs ys s :
  for_each body (xs ++ ys) s = res_bind (for_each body xs s) (for_each body ys).
Proof.
  revert s. induction xs as [|x xs IH]; intros s; simpl; [done|].
  destruct (body s x); simpl; auto.
Qed.

(** The rule of a loop: an invariant on the state and the elements already seen,
    which the body preserves whenever it does not return. *)
Lemma for_each_inv {E S A} (body : S → A → result E S) (I : list A → S → Prop) xs s s' :
  I [] s →
  (∀ seen x t t', I seen t → body t x = Ok t' → I (seen ++ [x]) t') →
  for_each body xs s = Ok s' → I xs s'.
Proof.
  intros Hi Hstep.
  cut (∀ seen t, I seen t → for_each body xs t = Ok s' → I (seen ++ xs) s').
  { intros Hall. by apply (Hall []). }
  induction xs as [|x xs IH]; intros seen t Hs; simpl.
  - intros [= <-]. by rewrite app_nil_r.
  - intros (t' & Hb & Hf)%res_bind_ok.
    replace (seen ++ x :: xs) with ((seen ++ [x]) ++ xs) by by rewrite <- app_assoc.
    eauto.
Qed.

(** The converse: the loop does not return early when the body does not on any
    prefix that satisfies the invariant. *)
Lemma for_each_total {E S A} (body : S → A → result E S) (I : list A → S → Prop) xs s :
  I [] s →
  (∀ seen x rest t, xs = seen ++ x :: rest → I seen t →
     ∃ t', body t x = Ok t' ∧ I (seen ++ [x]) t') →
  ∃ s', for_each body xs s = Ok s' ∧ I xs s'.
Proof.
  intros Hi Hstep.
  cut (∀ ys seen t, xs = seen ++ ys → I seen t →
         ∃ s', for_each body ys t = Ok s' ∧ I xs s').
  { intros Hall. by apply (Hall xs [] s). }
  induction ys as [|y ys IH]; intros seen t Heq Hs; simpl.
  - exists t. split; [done|]. by rewrite Heq, app_nil_r.
  - destruct (Hstep seen y ys t Heq Hs) as (t' & Hb & Hs').
    rewrite Hb. simpl. apply (IH (seen ++ [y])); [|done].
    by rewrite <- app_assoc.
Qed.

(** ** Boolean conditions

    [go_bool] turns the boolean guards of the source into propositions, in every
    hypothesis and in the goal. *)

Lemma bool_decide_true_iff (P : Prop) `{!Decision P} : bool_decide P = true ↔ P.
Proof. apply bool_decide_eq_true. Qed.
Lemma bool_decide_false_iff (P : Prop) `{!Decision P} : bool_decide P = false ↔ ¬ P.
Proof. apply bool_decide_eq_false. Qed.

Create Rewrite HintDb go_rewrite.
#[export] Hint Rewrite
  andb_true_iff andb_false_iff orb_true_iff orb_false_iff
  negb_true_iff negb_false_iff
  Z.ltb_lt Z.ltb_ge Z.leb_le Z.leb_gt Z.eqb_eq Z.eqb_neq
  Nat.ltb_lt Nat.ltb_ge Nat.leb_le Nat.leb_gt Nat.eqb_eq Nat.eqb_neq
  : go_rewrite.

Ltac go_bool_once :=
  match goal with
  | H : bool_decide ?P = true |- _ => apply bool_decide_eq_true_1 in H
  | H : bool_decide ?P = false |- _ => apply bool_decide_eq_false_1 in H
  | |- bool_decide ?P = true => apply bool_decide_eq_true_2
  | |- bool_decide ?P = false => apply bool_decide_eq_false_2
  | H : _ ∧ _ |- _ => destruct H
  | H : ?b = true |- _ => progress (autorewrite with go_rewrite in H)
  | H : ?b = false |- _ => progress (autorewrite with go_rewrite in H)
  | |- ?b = true => progress (autorewrite with go_rewrite)
  | |- ?b = false => progress (autorewrite with go_rewrite)
  end.
Ltac go_bool := repeat go_bool_once.

(** [inv_ok H] unfolds a chain of guards and early returns that ended in [Ok]. *)
Ltac inv_ok H :=
  repeat first
    [ let H1 := fresh "Hg" in let H2 := fresh H in
      apply guard_ok in H; destruct H as [H1 H2]; rename H2 into H
    | let a := fresh "v" in let H1 := fresh "Hb" in let H2 := fresh H in
      apply res_bind_ok in H; destruct H as (a & H1 & H2); rename H2 into H ].

Create HintDb cozy.

(** The conjunction [H] without its first [n] parts. *)
Tactic Notation "skip" integer(n) "in" hyp(H) := do n (apply proj2 in H).

(** ** Lists *)

Lemma for_each_cons_ok {E S A} (body : S → A → result E S) x xs s s' :
  for_each body (x :: xs) s = Ok s' ↔ ∃ t, body s x = Ok t ∧ for_each body xs t = Ok s'.
Proof. simpl. apply res_bind_ok. Qed.

Lemma existsb_false_iff {A} (f : A → bool) l :
  existsb f l = false ↔ Forall (λ x, f x = false) l.
Proof.
  induction l as [|x l IH]; simpl; [by split; [constructor|]|].
  rewrite orb_false_iff, IH. split; [intros [??]; by constructor|by inversion 1].
Qed.

Lemma forallb_true_iff {A} (f : A → bool) l :
  forallb f l = true ↔ Forall (λ x, f x = true) l.
Proof.
  induction l as [|x l IH]; simpl; [by split; [constructor|]|].
  rewrite andb_true_iff, IH. split; [intros [??]; by constructor|by inversion 1].
Qed.

Lemma existsb_true_iff {A} (f : A → bool) l :
  existsb f l = true ↔ Exists (λ x, f x = true) l.
Proof.
  induction l as [|x l IH]; simpl; [split; [done|by inversion 1]|].
  rewrite orb_true_iff, IH, Exists_cons. done.
Qed.

Lemma elem_of_flat_map {A B} (f : A → list B) l y :
  y ∈ flat_map f l ↔ ∃ x, x ∈ l ∧ y ∈ f x.
Proof. rewrite list_elem_of_In, in_flat_map. by setoid_rewrite <- list_elem_of_In. Qed.

(** [String.compare]-based byte order on strings, the [<] of the source. *)
Definition string_ltb (a b : string) : bool := String.ltb a b.

(** [len(s)] of a string, in bytes. *)
Definition slen (s : string) : Z := Z.of_nat (String.length s).

(** [len(xs)] of a slice. *)
Definition llen {A} (xs : list A) : Z := Z.of_nat (length xs).

(** [x != nil] for an optional value. *)
Definition is_some {A} (x : option A) : bool := match x with Some _ => true | None => false end.

Lemma is_some_spec {A} (x : option A) : is_some x = true ↔ x ≠ None.
Proof. destruct x; naive_solver. Qed.

Lemma is_some_false {A} (x : option A) : is_some x = false ↔ x = None.
Proof. destruct x; naive_solver. Qed.

(** An early [return false]. *)
Lemma if_false_iff (b c : bool) : (if b then false else c) = true ↔ b = false ∧ c = true.
Proof. destruct b; naive_solver. Qed.

(** [sort.Strings]: equal results are permutations of each other, and conversely. *)
Lemma sort_strings_perm (l l' : list string) :
  merge_sort String.le l = merge_sort String.le l' ↔ l ≡ₚ l'.
Proof.
  split.
  - intros H. rewrite <- (merge_sort_Permutation String.le l), H. apply merge_sort_Permutation.
  - intros H. apply (Sorted_unique String.le); [apply (Sorted_merge_sort String.le)..|].
    by rewrite !merge_sort_Permutation.
Qed.
