(* ===== verification/GoFloat.v ===== *)
(** * Floating-point numbers

    [float64] arithmetic as the controller uses it for percentages: binary64 with
    round to nearest even, from the specification of floats of the Standard Library. *)

From Stdlib Require Import SpecFloat.
From S2P Require Import Prelude.

Definition float64 := spec_float.
Definition float_of_int (z : Z) : float64 := binary_normalize 53 1024 z 0 false.
Definition float_mul (x y : float64) : float64 := SFmul 53 1024 x y.
Definition float_div (x y : float64) : float64 := SFdiv 53 1024 x y.
Definition float_leb (x y : float64) : bool := SFleb x y.
Definition float_eqb (x y : float64) : bool := SFeqb x y.

(** [100 * float64(part) / float64(whole)] *)
Definition percent (part whole : Z) : float64 :=
  float_div (float_mul (float_of_int 100) (float_of_int part)) (float_of_int whole).

Example percent_third : float_leb (percent 1 3) (float_of_int 34) = true.
Proof. reflexivity. Qed.
