(* ===== verification/Regex.v ===== *)
(** * Regular expressions and string helpers

    The controller validates identifiers with [regexp.MatchString] on anchored
    patterns.  A pattern is an abstract syntax tree here, matched by derivatives;
    [matches_spec] shows the matcher decides the language the tree denotes, so a
    pattern of the source is transcribed literally.  The file also holds
    [strings.TrimSpace], [strings.ToLower] and [strings.ContainsAny] on the bytes
    of a string. *)

From S2P Require Import Prelude.
From Stdlib Require Import Ascii.

Definition byte_of (c : ascii) : Z := Z.of_N (N_of_ascii c).

Definition in_range (lo hi : ascii) (c : ascii) : bool :=
  (byte_of lo <=? byte_of c) && (byte_of c <=? byte_of hi).

Definition is_lower (c : ascii) : bool := in_range "a" "z" c.
Definition is_upper (c : ascii) : bool := in_range "A" "Z" c.
Definition is_digit (c : ascii) : bool := in_range "0" "9" c.
Definition one_of (s : string) (c : ascii) : bool :=
  existsb (λ d, bool_decide (c = d)) (String.list_ascii_of_string s).

(** ** Syntax and meaning *)

Inductive regex : Type :=
| RNone
| REps
| RSet (p : ascii → bool)
| RCat (r s : regex)
| RAlt (r s : regex)
| RStar (r : regex)
| RRep (r : regex) (lo hi : nat).

Definition RPlus (r : regex) : regex := RCat r (RStar r).

Definition lang := list ascii → Prop.

Definition lcat (L M : lang) : lang := λ w, ∃ u v, w = u ++ v ∧ L u ∧ M v.

Inductive lstar (L : lang) : lang :=
| lstar_nil : lstar L []
| lstar_app u v : L u → lstar L v → lstar L (u ++ v).

Fixpoint lpow (L : lang) (n : nat) : lang :=
  match n with
  | O => λ w, w = []
  | S n => lcat L (lpow L n)
  end.

Fixpoint denote (r : regex) : lang :=
  match r with
  | RNone => λ _, False
  | REps => λ w, w = []
  | RSet p => λ w, ∃ c, w = [c] ∧ p c = true
  | RCat r s => lcat (denote r) (denote s)
  | RAlt r s => λ w, denote r w ∨ denote s w
  | RStar r => lstar (denote r)
  | RRep r lo hi => λ w, ∃ n, (lo ≤ n ≤ hi)%nat ∧ lpow (denote r) n w
  end.

(** ** The matcher *)

Fixpoint nullable (r : regex) : bool :=
  match r with
  | RNone => false
  | REps => true
  | RSet _ => false
  | RCat r s => nullable r && nullable s
  | RAlt r s => nullable r || nullable s
  | RStar _ => true
  | RRep r lo hi => (lo <=? hi)%nat && ((lo =? 0)%nat || nullable r)
  end.

Definition cat (r s : regex) : regex :=
  match r with
  | RNone => RNone
  | REps => s
  | _ => RCat r s
  end.

Definition alt (r s : regex) : regex :=
  match r, s with
  | RNone, _ => s
  | _, RNone => r
  | _, _ => RAlt r s
  end.

Fixpoint deriv (c : ascii) (r : regex) : regex :=
  match r with
  | RNone => RNone
  | REps => RNone
  | RSet p => if p c then REps else RNone
  | RCat r s =>
      if nullable r then alt (cat (deriv c r) s) (deriv c s) else cat (deriv c r) s
  | RAlt r s => alt (deriv c r) (deriv c s)
  | RStar r => cat (deriv c r) (RStar r)
  | RRep r lo hi =>
      match hi with
      | O => RNone
      | S hi' => if (lo <=? hi)%nat then cat (deriv c r) (RRep r (pred lo) hi') else RNone
      end
  end.

Fixpoint matches_list (r : regex) (w : list ascii) : bool :=
  match w with
  | [] => nullable r
  | c :: w => matches_list (deriv c r) w
  end.

(** [regexp.MatchString] for a pattern anchored at both ends. *)
Definition MatchString (r : regex) (s : string) : bool :=
  matches_list r (String.list_ascii_of_string s).

(** ** The matcher decides the language *)

Lemma lpow_nil_iff L n : lpow L n [] ↔ n = O ∨ L [].
Proof.
  induction n as [|n IH]; simpl; [naive_solver|]. split.
  - intros (u & v & Heq & Hu & Hv). symmetry in Heq.
    apply app_eq_nil in Heq as [-> ->]. auto.
  - intros [?|HL]; [lia|]. exists [], []. naive_solver.
Qed.

Lemma lpow_pad L n k w : L [] → lpow L n w → lpow L (k + n) w.
Proof. intros HL Hw. induction k as [|k IH]; simpl; [done|]. exists [], w. auto. Qed.

Lemma nullable_spec r : nullable r = true ↔ denote r [].
Proof.
  induction r as [| |p|r IHr s IHs|r IHr s IHs|r IHr|r IHr lo hi]; simpl.
  - naive_solver.
  - naive_solver.
  - naive_solver.
  - rewrite andb_true_iff, IHr, IHs. split.
    + intros [??]. by exists [], [].
    + intros (u & v & Heq & ? & ?). symmetry in Heq.
      apply app_eq_nil in Heq as [-> ->]. done.
  - by rewrite orb_true_iff, IHr, IHs.
  - split; [constructor|done].
  - rewrite andb_true_iff, orb_true_iff, Nat.leb_le, Nat.eqb_eq, IHr. split.
    + intros [? [->|?]]; [exists O|exists lo]; rewrite lpow_nil_iff; auto with lia.
    + intros (n & ? & [->|?]%lpow_nil_iff); split; (lia || auto with lia).
Qed.

Lemma cat_spec r s w : denote (cat r s) w ↔ lcat (denote r) (denote s) w.
Proof.
  destruct r; simpl; try done.
  - split; [done|]. intros (?&?&?&?&?); done.
  - split; [intros; by exists [], w|]. intros (?&?&->&->&?). done.
Qed.

Lemma alt_spec r s w : denote (alt r s) w ↔ denote r w ∨ denote s w.
Proof. destruct r, s; simpl; naive_solver. Qed.

Lemma lstar_cons_iff L c w :
  lstar L (c :: w) ↔ ∃ u v, w = u ++ v ∧ L (c :: u) ∧ lstar L v.
Proof.
  split.
  - intros Hs. remember (c :: w) as x eqn:Hx. revert c w Hx.
    induction Hs as [|u v Hu Hv IH]; intros c w Hx; [done|].
    destruct u as [|d u]; simpl in Hx; [by apply IH|].
    injection Hx as -> <-. by exists u, v.
  - intros (u & v & -> & Hu & Hv). change (c :: u ++ v) with ((c :: u) ++ v).
    by constructor.
Qed.

Lemma lpow_cons_inv L n c w :
  lpow L n (c :: w) →
  ∃ k m u v, n = (k + S m)%nat ∧ (k = O ∨ L []) ∧ w = u ++ v ∧ L (c :: u) ∧ lpow L m v.
Proof.
  revert c w. induction n as [|n IH]; intros c w; simpl; [done|].
  intros (u & v & Heq & Hu & Hv). destruct u as [|d u]; simpl in Heq.
  - subst v. destruct (IH _ _ Hv) as (k & m & u' & v' & -> & Hk & -> & Hc & Hm).
    exists (S k), m, u', v'. naive_solver.
  - injection Heq as -> ->. exists O, n, u, v. naive_solver.
Qed.

Lemma deriv_rep_spec L lo hi c w :
  (∃ n, (lo ≤ n ≤ S hi)%nat ∧ lpow L n (c :: w)) ↔
  (lo ≤ S hi)%nat ∧
  ∃ u v, w = u ++ v ∧ L (c :: u) ∧ ∃ n, (pred lo ≤ n ≤ hi)%nat ∧ lpow L n v.
Proof.
  split.
  - intros (n & Hn & (k & m & u & v & -> & Hk & -> & Hc & Hm)%lpow_cons_inv).
    split; [lia|]. exists u, v. do 2 (split; [done|]).
    destruct Hk as [->|HL]; [exists m; split; [lia|done]|].
    exists (k + m)%nat. split; [lia|by apply lpow_pad].
  - intros (Hlo & u & v & -> & Hc & n & Hn & Hv). exists (S n). split; [lia|].
    exists (c :: u), v. done.
Qed.

Lemma deriv_spec r c w : denote (deriv c r) w ↔ denote r (c :: w).
Proof.
  revert w. induction r as [| |p|r IHr s IHs|r IHr s IHs|r IHr|r IHr lo hi]; intros w; simpl.
  - done.
  - done.
  - destruct (p c) eqn:Hp; simpl; split.
    + intros ->. by exists c.
    + by intros (d & [= -> ->] & ?).
    + done.
    + intros (d & [= -> ->] & ?). congruence.
  - assert (lcat (denote (deriv c r)) (denote s) w ↔
            ∃ u v, w = u ++ v ∧ denote r (c :: u) ∧ denote s v) as Hcat.
    { unfold lcat. by setoid_rewrite IHr. }
    destruct (nullable r) eqn:Hn.
    + rewrite alt_spec, cat_spec, Hcat, IHs. split.
      * intros [(u & v & -> & ? & ?)|?]; [by exists (c :: u), v|].
        exists [], (c :: w). by rewrite <- nullable_spec.
      * intros (u & v & Heq & Hu & Hv). destruct u as [|d u]; simpl in Heq.
        -- right. by subst.
        -- left. injection Heq as -> ->. by exists u, v.
    + rewrite cat_spec, Hcat. split.
      * intros (u & v & -> & ? & ?). by exists (c :: u), v.
      * intros (u & v & Heq & Hu & Hv). destruct u as [|d u]; simpl in Heq.
        -- apply nullable_spec in Hu. congruence.
        -- injection Heq as -> ->. by exists u, v.
  - by rewrite alt_spec, IHr, IHs.
  - rewrite cat_spec, lstar_cons_iff. unfold lcat. simpl. by setoid_rewrite IHr.
  - destruct hi as [|hi].
    + split; [done|]. intros (n & Hn & Hw). assert (n = O) as -> by lia. done.
    + destruct (Nat.leb_spec lo (S hi)).
      * rewrite cat_spec, deriv_rep_spec. unfold lcat. simpl. setoid_rewrite IHr.
        naive_solver.
      * split; [done|]. intros (n & ? & ?). lia.
Qed.

Lemma matches_list_spec r w : matches_list r w = true ↔ denote r w.
Proof.
  revert r. induction w as [|c w IH]; intros r; simpl; [apply nullable_spec|].
  by rewrite IH, deriv_spec.
Qed.

Lemma matches_spec r s :
  MatchString r s = true ↔ denote r (String.list_ascii_of_string s).
Proof. apply matches_list_spec. Qed.

(** ** Patterns used throughout the controller *)

Definition lower_digit (c : ascii) : bool := is_lower c || is_digit c.
Definition alnum (c : ascii) : bool := is_lower c || is_upper c || is_digit c.

(** [^[a-z0-9]+(?:[._-][a-z0-9]+)*$] *)
Definition token_regex : regex :=
  RCat (RPlus (RSet lower_digit)) (RStar (RCat (RSet (one_of "._-")) (RPlus (RSet lower_digit)))).

(** [^[a-z][a-z0-9._:-]{0,127}$] *)
Definition id_regex : regex :=
  RCat (RSet is_lower) (RRep (RSet (λ c, lower_digit c || one_of "._:-" c)) 0 127).

(** [^[A-Za-z0-9][A-Za-z0-9_.:-]{0,63}$] *)
Definition interface64_regex : regex :=
  RCat (RSet alnum) (RRep (RSet (λ c, alnum c || one_of "_.:-" c)) 0 63).

(** [^[A-Za-z0-9][A-Za-z0-9_.:-]*$] *)
Definition interface_regex : regex :=
  RCat (RSet alnum) (RStar (RSet (λ c, alnum c || one_of "_.:-" c))).

Definition hex_digit (c : ascii) : bool := is_digit c || in_range "a" "f" c.

(** [^[0-9a-f]{n}$] *)
Definition hex_regex (n : nat) : regex := RRep (RSet hex_digit) n n.

Lemma denote_rep_set p lo hi w :
  denote (RRep (RSet p) lo hi) w ↔ (lo ≤ length w ≤ hi)%nat ∧ Forall (λ c, p c = true) w.
Proof.
  simpl. assert (∀ n v, lpow (λ w, ∃ c, w = [c] ∧ p c = true) n v ↔
    length v = n ∧ Forall (λ c, p c = true) v) as Hpow.
  { induction n as [|n IH]; intros v; simpl.
    - split; [intros ->; split; [done|constructor]|]. intros [? _]. by destruct v.
    - unfold lcat. setoid_rewrite IH. split.
      + intros (u & v' & -> & (c & -> & ?) & <- & ?). simpl. split; [done|by constructor].
      + destruct v as [|c v]; simpl; [intros [? _]; done|].
        intros [[= <-] [??]%Forall_cons]. exists [c], v. naive_solver. }
  setoid_rewrite Hpow. naive_solver.
Qed.

Lemma hex_regex_spec n s :
  MatchString (hex_regex n) s = true ↔
  String.length s = n ∧ Forall (λ c, hex_digit c = true) (String.list_ascii_of_string s).
Proof.
  unfold hex_regex. rewrite matches_spec, denote_rep_set.
  assert (length (String.list_ascii_of_string s) = String.length s) as ->
    by (induction s; simpl; congruence).
  naive_solver lia.
Qed.

(** ** [strings.TrimSpace] *)

(** The UTF-8 encodings of the code points [unicode.IsSpace] accepts. *)
Definition b (n : N) : ascii := ascii_of_N n.
Definition space_encodings : list (list ascii) :=
  map (λ n, [b n]) [9; 10; 11; 12; 13; 32]%N ++
  [[b 194; b 133]; [b 194; b 160]; [b 225; b 154; b 128]] ++
  map (λ n, [b 226; b 128; b n])
    [128; 129; 130; 131; 132; 133; 134; 135; 136; 137; 138; 168; 169; 175]%N ++
  [[b 226; b 129; b 159]; [b 227; b 128; b 128]].

Fixpoint strip_prefix (p w : list ascii) : option (list ascii) :=
  match p, w with
  | [], _ => Some w
  | c :: p, d :: w => if bool_decide (c = d) then strip_prefix p w else None
  | _ :: _, [] => None
  end.

Fixpoint strip_any (ps : list (list ascii)) (w : list ascii) : option (list ascii) :=
  match ps with
  | [] => None
  | p :: ps => match strip_prefix p w with Some v => Some v | None => strip_any ps w end
  end.

Fixpoint trim_fuel (fuel : nat) (ps : list (list ascii)) (w : list ascii) : list ascii :=
  match fuel with
  | O => w
  | S fuel => match strip_any ps w with Some v => trim_fuel fuel ps v | None => w end
  end.

(** One byte at least is removed by each round, so the length of the input bounds
    the number of rounds. *)
Definition TrimSpace_list (w : list ascii) : list ascii :=
  let left := trim_fuel (length w) space_encodings w in
  rev (trim_fuel (length left) (map (@rev ascii) space_encodings) (rev left)).

Definition TrimSpace (s : string) : string :=
  String.string_of_list_ascii (TrimSpace_list (String.list_ascii_of_string s)).

(** [strings.ContainsAny] for a set of ASCII characters. *)
Definition ContainsAny (cs : list N) (s : string) : bool :=
  existsb (λ c, existsb (λ n, (N_of_ascii c =? n)%N) cs) (String.list_ascii_of_string s).

(** [strings.ToLower] on ASCII. *)
Definition lower_ascii (c : ascii) : ascii :=
  if is_upper c then ascii_of_N (N_of_ascii c + 32) else c.
Definition ToLower (s : string) : string :=
  String.string_of_list_ascii (map lower_ascii (String.list_ascii_of_string s)).

Example token_ok : MatchString token_regex "device-watch.local" = true.
Proof. vm_compute. reflexivity. Qed.
Example token_bad : MatchString token_regex "device-.local" = false.
Proof. vm_compute. reflexivity. Qed.
Example trim_ex : TrimSpace "  a b " = "a b"%string.
Proof. vm_compute. reflexivity. Qed.
