(* ===== verification/GoTime.v ===== *)
(** * Instants and durations

    [time.Time] and [time.Duration] as the controller uses them.  A [Time] has a
    wall reading, an optional monotonic reading and a location.  Comparison and
    subtraction use the monotonic readings when both operands carry one and the
    wall readings otherwise; [Round(0)] and [UTC] strip the monotonic reading;
    [Add] moves both; [Sub] saturates at the bounds of a [Duration].  A wall
    reading is an integer number of nanoseconds since the Unix epoch. *)

From S2P Require Import Prelude.

Definition Duration := Z.

Definition min_int64 : Z := - 2 ^ 63.
Definition max_int64 : Z := 2 ^ 63 - 1.
Definition int64_wrap (z : Z) : Z := (z + 2 ^ 63) mod 2 ^ 64 - 2 ^ 63.
Definition int64_saturate (z : Z) : Z := Z.max min_int64 (Z.min max_int64 z).
Definition in_int64 (z : Z) : bool := (min_int64 <=? z) && (z <=? max_int64).

Definition Millisecond : Duration := 1000000.
Definition Second : Duration := 1000000000.
Definition Minute : Duration := 60 * Second.
Definition Hour : Duration := 60 * Minute.

Record Time := mkTime {
  wall : Z;
  mono : option Z;
  loc : string;
}.

#[export] Instance Time_eq_dec : EqDecision Time.
Proof. solve_decision. Defined.

(** January 1, year 1, 00:00:00 UTC: the zero [time.Time]. *)
Definition zero_wall : Z := -62135596800 * Second.
Definition zeroTime : Time := mkTime zero_wall None "".

Definition IsZero (t : Time) : bool := wall t =? zero_wall.

Definition stripMono (t : Time) : Time := mkTime (wall t) None (loc t).

(** [t.Round(0)]: only the monotonic reading is removed. *)
Definition Round0 (t : Time) : Time := stripMono t.
(** [t.UTC()]: also strips the monotonic reading. *)
Definition UTC (t : Time) : Time := mkTime (wall t) None "".

(** The seconds a [Time] with a monotonic reading can hold: 33 bits from 1885. *)
Definition packed_wall (w : Z) : bool :=
  let sec := w / Second + 2682288000 in (0 <=? sec) && (sec <=? 2 ^ 33 - 1).

Definition Add (t : Time) (d : Duration) : Time :=
  let w := wall t + d in
  let m := match mono t with
           | Some m => if in_int64 (m + d) && packed_wall w then Some (m + d) else None
           | None => None
           end in
  mkTime w m (loc t).

(** The readings a comparison of two instants uses. *)
Definition readings (t u : Time) : Z * Z :=
  match mono t, mono u with
  | Some a, Some b => (a, b)
  | _, _ => (wall t, wall u)
  end.

Definition Before (t u : Time) : bool := let '(a, b) := readings t u in a <? b.
Definition After (t u : Time) : bool := let '(a, b) := readings t u in b <? a.
Definition Equal (t u : Time) : bool := let '(a, b) := readings t u in a =? b.
Definition Sub (t u : Time) : Duration :=
  let '(a, b) := readings t u in int64_saturate (a - b).

(** [time.Unix(0, n)]. *)
Definition Unix0 (n : Z) : Time := mkTime n None "Local".
Definition UnixNano (t : Time) : Z := int64_wrap (wall t).

(** [!t.IsZero() && time.Unix(0, t.UnixNano()).Equal(t)]: the instant survives a
    round trip through a signed 64-bit number of nanoseconds.  The function is
    declared, with this body, in several packages of the controller. *)
Definition validTime (t : Time) : bool :=
  negb (IsZero t) && Equal (Unix0 (UnixNano t)) t.

(** [t.Truncate(d)]: relative to the zero time; strips the monotonic reading. *)
Definition Truncate (t : Time) (d : Duration) : Time :=
  if d <=? 0 then stripMono t
  else mkTime (wall t - (wall t - zero_wall) mod d) None (loc t).

(** The civil year of an instant in UTC, by 400-year eras of 146097 days. *)
Definition Year (t : Time) : Z :=
  let z := wall t / (24 * Hour) + 719468 in
  let era := z / 146097 in
  let doe := z mod 146097 in
  let yoe := (doe - doe / 1460 + doe / 36524 - doe / 146096) / 365 in
  let doy := doe - (365 * yoe + yoe / 4 - yoe / 100) in
  let mp := (5 * doy + 2) / 153 in
  yoe + era * 400 + (if mp <? 10 then 0 else 1).

Example Year_epoch : Year (Unix0 0) = 1970.
Proof. reflexivity. Qed.
Example Year_zero : Year zeroTime = 1.
Proof. reflexivity. Qed.
Example Year_last : Year (Unix0 (253402300799 * Second)) = 9999.
Proof. reflexivity. Qed.
Example Year_leap : Year (Unix0 (951782400 * Second)) = 2000.
Proof. reflexivity. Qed.

(** ** Comparisons on canonical instants *)

(** Every instant the controller stores has been through [Round(0)] or [UTC]; on
    those, the comparisons are those of the wall readings. *)
Definition canonical (t : Time) : Prop := mono t = None.

Lemma readings_wall t u : canonical t ∨ canonical u → readings t u = (wall t, wall u).
Proof. unfold canonical, readings. destruct (mono t), (mono u); naive_solver. Qed.

Lemma readings_mono t u a b' : mono t = Some a → mono u = Some b' → readings t u = (a, b').
Proof. unfold readings. intros -> ->. done. Qed.

Lemma Before_wall t u : canonical t ∨ canonical u → Before t u = (wall t <? wall u).
Proof. intros H. unfold Before. by rewrite readings_wall. Qed.
Lemma After_wall t u : canonical t ∨ canonical u → After t u = (wall u <? wall t).
Proof. intros H. unfold After. by rewrite readings_wall. Qed.
Lemma Equal_wall t u : canonical t ∨ canonical u → Equal t u = (wall t =? wall u).
Proof. intros H. unfold Equal. by rewrite readings_wall. Qed.
Lemma Sub_wall t u : canonical t ∨ canonical u → Sub t u = int64_saturate (wall t - wall u).
Proof. intros H. unfold Sub. by rewrite readings_wall. Qed.

Lemma readings_swap t u : readings u t = (snd (readings t u), fst (readings t u)).
Proof. unfold readings. by destruct (mono t), (mono u). Qed.

Lemma After_Before t u : After t u = Before u t.
Proof. unfold After, Before. rewrite (readings_swap t u). by destruct (readings t u). Qed.

Lemma Before_irrefl t : Before t t = false.
Proof. unfold Before, readings. destruct (mono t); apply Z.ltb_irrefl. Qed.

Lemma Before_asym t u : Before t u = true → Before u t = false.
Proof.
  unfold Before. rewrite (readings_swap t u). destruct (readings t u); simpl.
  intros. go_bool. lia.
Qed.

Lemma Before_total t u : Before t u = false → Before u t = false → Equal t u = true.
Proof.
  unfold Before, Equal. rewrite (readings_swap t u). destruct (readings t u); simpl.
  intros. go_bool. lia.
Qed.

Lemma canonical_Round0 t : canonical (Round0 t).
Proof. done. Qed.
Lemma canonical_UTC t : canonical (UTC t).
Proof. done. Qed.
Lemma canonical_Add t d : canonical t → canonical (Add t d).
Proof. unfold canonical, Add. simpl. by intros ->. Qed.
Lemma wall_Add t d : wall (Add t d) = wall t + d.
Proof. done. Qed.
#[export] Hint Resolve canonical_Round0 canonical_UTC canonical_Add : cozy.

Lemma int64_wrap_id z : in_int64 z = true → int64_wrap z = z.
Proof.
  unfold in_int64, int64_wrap, min_int64, max_int64. intros. go_bool.
  rewrite Z.mod_small; lia.
Qed.

Lemma int64_wrap_range z : in_int64 (int64_wrap z) = true.
Proof.
  unfold in_int64, int64_wrap, min_int64, max_int64. go_bool.
  pose proof (Z.mod_pos_bound (z + 2 ^ 63) (2 ^ 64)). lia.
Qed.

(** The round-trip test of the controller accepts exactly the wall readings of a
    signed 64-bit nanosecond count; the zero time is not one of them. *)
Lemma validTime_spec t : validTime t = true ↔ in_int64 (wall t) = true.
Proof.
  unfold validTime, IsZero. rewrite Equal_wall by (left; done). simpl. unfold UnixNano. split.
  - intros. go_bool. rewrite <- H0. apply int64_wrap_range.
  - intros Hr. rewrite int64_wrap_id by done. rewrite Z.eqb_refl, andb_true_r.
    unfold in_int64, min_int64, zero_wall, Second in *. go_bool. lia.
Qed.

Lemma validTime_eq t : validTime t = in_int64 (wall t).
Proof. apply eq_bool_prop_intro. rewrite !Is_true_true. apply validTime_spec. Qed.

Lemma validTime_nonzero t : validTime t = true → IsZero t = false.
Proof. unfold validTime. intros. by go_bool. Qed.

Lemma saturate_lt_iff z d : min_int64 < d <= max_int64 → (int64_saturate z < d ↔ z < d).
Proof. unfold int64_saturate, min_int64, max_int64. lia. Qed.
Lemma saturate_gt_iff z d : min_int64 <= d < max_int64 → (d < int64_saturate z ↔ d < z).
Proof. unfold int64_saturate, min_int64, max_int64. lia. Qed.
Lemma saturate_ge_iff z d : min_int64 < d <= max_int64 → (d <= int64_saturate z ↔ d <= z).
Proof. unfold int64_saturate, min_int64, max_int64. lia. Qed.
Lemma saturate_le_iff z d : min_int64 <= d < max_int64 → (int64_saturate z <= d ↔ z <= d).
Proof. unfold int64_saturate, min_int64, max_int64. lia. Qed.
Lemma saturate_ltb z d : min_int64 < d <= max_int64 → (int64_saturate z <? d) = (z <? d).
Proof.
  intros H. apply eq_bool_prop_intro. rewrite !Is_true_true, !Z.ltb_lt. by apply saturate_lt_iff.
Qed.
Lemma saturate_geb z d : min_int64 < d <= max_int64 → (d <=? int64_saturate z) = (d <=? z).
Proof.
  intros H. apply eq_bool_prop_intro. rewrite !Is_true_true, !Z.leb_le. by apply saturate_ge_iff.
Qed.
Lemma saturate_mono x y : x <= y → int64_saturate x <= int64_saturate y.
Proof. unfold int64_saturate. lia. Qed.
Lemma saturate_le z : 0 <= z → int64_saturate z <= z.
Proof. unfold int64_saturate, min_int64, max_int64. lia. Qed.

(** [wall_cmp] rewrites the comparisons of canonical instants in the context. *)
Ltac wall_cmp :=
  repeat match goal with
  | H : context [Before ?t ?u] |- _ => rewrite (Before_wall t u) in H by auto with cozy
  | H : context [After ?t ?u] |- _ => rewrite (After_wall t u) in H by auto with cozy
  | H : context [Equal ?t ?u] |- _ => rewrite (Equal_wall t u) in H by auto with cozy
  | |- context [Before ?t ?u] => rewrite (Before_wall t u) by auto with cozy
  | |- context [After ?t ?u] => rewrite (After_wall t u) by auto with cozy
  | |- context [Equal ?t ?u] => rewrite (Equal_wall t u) by auto with cozy
  end.

(** ** Steady readings

    Readings of a clock whose wall time is not adjusted: the monotonic reading, where
    there is one, advances with the wall reading.  Their comparisons are those of the
    wall readings too. *)
Definition steady (boot : Z) (t : Time) : Prop := mono t = None ∨ mono t = Some (wall t - boot).

Lemma steady_canonical boot t : canonical t → steady boot t.
Proof. by left. Qed.
Lemma steady_Add boot t d : steady boot t → steady boot (Add t d).
Proof.
  unfold steady, Add. simpl. intros [->| ->]; [by left|].
  destruct (_ && _); [right; f_equal; lia|by left].
Qed.
#[export] Hint Resolve steady_canonical steady_Add : cozy.

Lemma Before_steady boot t u : steady boot t → steady boot u → Before t u = (wall t <? wall u).
Proof.
  unfold steady, Before, readings. intros [Ht|Ht] [Hu|Hu]; rewrite Ht, ?Hu; try done.
  apply eq_bool_prop_intro. rewrite !Is_true_true, !Z.ltb_lt. lia.
Qed.
Lemma Sub_steady boot t u : steady boot t → steady boot u → Sub t u = int64_saturate (wall t - wall u).
Proof.
  unfold steady, Sub, readings. intros [Ht|Ht] [Hu|Hu]; rewrite Ht, ?Hu; try done. f_equal. lia.
Qed.
