(* ===== verification/Latest.v ===== *)
(** * The latest evidence of every key

    The three assessors of [networkquality] keep, per selected check, the measurement
    that completed last: one loop, [latest], over any kind of measurement.  On instants
    without a monotonic reading the loop computes the maximum by completion time, so
    its result does not depend on the order of the measurements. *)

From S2P Require Import Prelude GoTime.

Section Latest.
Context {M : Type} (key : M → string) (ends_at : M → Time).

(** [previous, exists := latest[k]; if !exists || m.CompletedAt.After(previous.CompletedAt)
    then latest[k] = m] *)
Definition latest_step (acc : gmap string M) (m : M) : gmap string M :=
  match acc !! key m with
  | Some previous => if After (ends_at m) (ends_at previous) then <[key m := m]> acc else acc
  | None => <[key m := m]> acc
  end.

Definition latest (ms : list M) : gmap string M := foldl latest_step ∅ ms.

(** [m] is the measurement of [k] that completed last. *)
Definition is_latest (ms : list M) (k : string) (m : M) : Prop :=
  m ∈ ms ∧ key m = k ∧ ∀ m', m' ∈ ms → key m' = k → wall (ends_at m') <= wall (ends_at m).

(** No two measurements of one key completed at the same instant. *)
Definition unambiguous (ms : list M) : Prop :=
  NoDup (map (λ m, (key m, wall (ends_at m))) ms).

Definition all_canonical (ms : list M) : Prop := Forall (λ m, canonical (ends_at m)) ms.

Lemma latest_snoc ms m : latest (ms ++ [m]) = latest_step (latest ms) m.
Proof. unfold latest. by rewrite foldl_app. Qed.

Lemma latest_none ms k : latest ms !! k = None ↔ Forall (λ m, key m ≠ k) ms.
Proof.
  induction ms as [|m ms IH] using rev_ind.
  { unfold latest. simpl. rewrite lookup_empty. split; [constructor|done]. }
  rewrite latest_snoc, Forall_app, Forall_singleton, <- IH. clear IH. unfold latest_step.
  destruct (latest ms !! key m) as [p|] eqn:E; [destruct (After _ _)|];
    rewrite ?lookup_insert_None; naive_solver.
Qed.

(** Without any assumption on the instants, the result is a measurement of the key. *)
Lemma latest_in ms k m : latest ms !! k = Some m → m ∈ ms ∧ key m = k.
Proof.
  revert k m. induction ms as [|x ms IH] using rev_ind; intros k m.
  { unfold latest. simpl. by rewrite lookup_empty. }
  rewrite latest_snoc, elem_of_app, list_elem_of_singleton. unfold latest_step.
  destruct (latest ms !! key x); [destruct (After _ _)|]; rewrite ?lookup_insert_Some; naive_solver.
Qed.

Lemma is_latest_old ms x k y :
  is_latest ms k y → (key x = k → wall (ends_at x) <= wall (ends_at y)) → is_latest (ms ++ [x]) k y.
Proof.
  intros (? & ? & Hmax) Hle. split_and!; [set_solver|done|].
  intros m' [Hm'| ->%list_elem_of_singleton]%elem_of_app ?; auto.
Qed.

Lemma is_latest_new ms x :
  (∀ m', m' ∈ ms → key m' = key x → wall (ends_at m') <= wall (ends_at x)) →
  is_latest (ms ++ [x]) (key x) x.
Proof.
  intros Hmax. split_and!; [set_solver|done|].
  intros m' [Hm'| ->%list_elem_of_singleton]%elem_of_app ?; [auto|lia].
Qed.

Lemma latest_some ms k m : all_canonical ms → latest ms !! k = Some m → is_latest ms k m.
Proof.
  revert k m. induction ms as [|x ms IH] using rev_ind; intros k m Hc.
  { unfold latest. simpl. by rewrite lookup_empty. }
  apply Forall_app in Hc as [Hc Hx]. pose proof (Forall_inv Hx) as Hx0. simpl in Hx0. clear Hx. rename Hx0 into Hx.
  rewrite latest_snoc. unfold latest_step.
  destruct (latest ms !! key x) as [p|] eqn:E.
  - destruct (IH _ _ Hc E) as (Hp & Hk & Hmax).
    rewrite After_wall by (left; exact Hx). destruct (Z.ltb_spec (wall (ends_at p)) (wall (ends_at x))) as [Hlt|Hge].
    + intros [[<- <-]|[Hne Hm]]%lookup_insert_Some.
      * apply is_latest_new. intros m' Hm' Hk'. specialize (Hmax m' Hm' Hk'). lia.
      * apply is_latest_old; [by apply IH|naive_solver].
    + intros Hm. apply is_latest_old; [by apply IH|]. intros <-. congruence.
  - apply latest_none in E. rewrite Forall_forall in E.
    intros [[<- <-]|[Hne Hm]]%lookup_insert_Some.
    + apply is_latest_new. intros m' Hm' Hk'. by destruct (E m' Hm').
    + apply is_latest_old; [by apply IH|naive_solver].
Qed.

Lemma is_latest_unique ms k m m' : unambiguous ms → is_latest ms k m → is_latest ms k m' → m = m'.
Proof.
  intros Hu (Hin & Hk & Hmax) (Hin' & Hk' & Hmax').
  assert (Heq : (key m, wall (ends_at m)) = (key m', wall (ends_at m'))).
  { f_equal; [congruence|]. specialize (Hmax m' Hin' Hk'). specialize (Hmax' m Hin Hk). lia. }
  clear -Hu Hin Hin' Heq. unfold unambiguous in Hu. induction ms as [|x ms IH]; [set_solver|].
  simpl in Hu. apply NoDup_cons in Hu as [Hx Hu].
  assert (Hno : ∀ y, y ∈ ms → (key x, wall (ends_at x)) ≠ (key y, wall (ends_at y))).
  { intros y Hy Hxy. apply Hx. rewrite Hxy.
    by apply (list_elem_of_fmap_2 (λ m, (key m, wall (ends_at m)))). }
  apply elem_of_cons in Hin as [->|Hin]; apply elem_of_cons in Hin' as [->|Hin'].
  - done.
  - by destruct (Hno _ Hin').
  - by destruct (Hno _ Hin).
  - by apply IH.
Qed.

(** The loop computes exactly the latest measurement of every key. *)
Lemma latest_spec ms k m :
  all_canonical ms → unambiguous ms → latest ms !! k = Some m ↔ is_latest ms k m.
Proof.
  intros Hc Hu. split; [by apply latest_some|]. intros Hl.
  destruct (latest ms !! k) as [m'|] eqn:E.
  - f_equal. eapply is_latest_unique; [done|by apply latest_some|done].
  - apply latest_none in E. rewrite Forall_forall in E. destruct Hl as (Hin & Hk & _).
    by destruct (E m Hin).
Qed.

Lemma is_latest_perm ms ms' k m : ms ≡ₚ ms' → is_latest ms k m → is_latest ms' k m.
Proof.
  intros Hp (Hin & Hk & Hmax). split_and!; [by rewrite <- Hp|done|].
  intros m' Hm'. rewrite <- Hp in Hm'. auto.
Qed.

(** ... in whatever order it visits them. *)
Lemma latest_perm ms ms' :
  all_canonical ms → unambiguous ms → ms ≡ₚ ms' → latest ms = latest ms'.
Proof.
  intros Hc Hu Hp.
  assert (Hc' : all_canonical ms') by (unfold all_canonical; by rewrite <- Hp).
  assert (Hu' : unambiguous ms').
  { unfold unambiguous. by rewrite <- (Permutation_map (λ m, (key m, wall (ends_at m))) Hp). }
  apply map_eq. intros k. apply option_eq. intros m. rewrite !latest_spec by done.
  split; by apply is_latest_perm.
Qed.

End Latest.

(** ** The loops of the validators *)

Section Index.
Context {A : Type} (key : A → string).

(** [m[x.ID] = x] for every element. *)
Definition index (xs : list A) : gmap string A := foldl (λ m x, <[key x := x]> m) ∅ xs.

Lemma index_snoc xs x : index (xs ++ [x]) = <[key x := x]> (index xs).
Proof. unfold index. by rewrite foldl_app. Qed.

Lemma index_none xs k : index xs !! k = None ↔ k ∉ map key xs.
Proof.
  induction xs as [|x xs IH] using rev_ind.
  { unfold index. simpl. rewrite lookup_empty. set_solver. }
  rewrite index_snoc, lookup_insert_None, IH, map_app, not_elem_of_app. set_solver.
Qed.

Lemma index_some xs k x : NoDup (map key xs) → index xs !! k = Some x ↔ x ∈ xs ∧ key x = k.
Proof.
  induction xs as [|y xs IH] using rev_ind.
  { intros _. unfold index. simpl. rewrite lookup_empty. set_solver. }
  rewrite map_app, NoDup_app. intros (Hn & Hd & _).
  rewrite index_snoc, lookup_insert_Some, (IH Hn), elem_of_app, list_elem_of_singleton. split.
  - naive_solver.
  - intros [[He|He] Hk]; [|naive_solver]. right. split; [|done].
    intros Hk'. apply (Hd (key x)); [by apply list_elem_of_fmap_2|]. simpl. set_solver.
Qed.

(** A loop that rejects invalid elements and repeated keys builds the index of its
    input, exactly when every element is valid and no key repeats. *)
Lemma index_loop {E} (V : A → Prop) (step : gmap string A → A → result E (gmap string A)) :
  (∀ acc x acc', step acc x = Ok acc' ↔ V x ∧ acc !! key x = None ∧ acc' = <[key x := x]> acc) →
  ∀ xs m, for_each step xs ∅ = Ok m ↔ Forall V xs ∧ NoDup (map key xs) ∧ m = index xs.
Proof.
  intros Hstep xs. induction xs as [|x xs IH] using rev_ind; intros m.
  { simpl. split; [|naive_solver]. intros [= <-]. split_and!; constructor. }
  rewrite for_each_app, res_bind_ok. setoid_rewrite IH. clear IH.
  rewrite Forall_app, Forall_singleton, map_app, NoDup_app, index_snoc. simpl. split.
  - intros (m0 & (Hf & Hn & ->) & (m1 & (Hv & Hnone & ->)%Hstep & [= <-])%res_bind_ok).
    apply index_none in Hnone. split_and!; try done; [set_solver|apply NoDup_singleton].
  - intros ((Hf & Hv) & (Hn & Hd & _) & ->). eexists. split; [by split_and!|].
    apply res_bind_ok. eexists. split; [|done]. apply Hstep. split_and!; try done.
    apply index_none. intros Hin. apply (Hd _ Hin). set_solver.
Qed.

End Index.

Section Seen.
Context {M : Type} (id key : M → string) (ends_at : M → Time).

Definition end_key (m : M) : string * Time := (key m, UTC (Round0 (ends_at m))).

(** A loop that rejects invalid measurements, repeated identifiers and a second
    measurement of one key at the same instant. *)
Lemma seen_loop {E} (V : M → Prop)
    (step : list string * list (string * Time) → M → result E (list string * list (string * Time))) :
  (∀ seen ends m st', step (seen, ends) m = Ok st' ↔
     V m ∧ id m ∉ seen ∧ end_key m ∉ ends ∧ st' = (id m :: seen, end_key m :: ends)) →
  ∀ ms st, for_each step ms ([], []) = Ok st ↔
    Forall V ms ∧ NoDup (map id ms) ∧ NoDup (map end_key ms) ∧
    st = (reverse (map id ms), reverse (map end_key ms)).
Proof.
  intros Hstep ms. induction ms as [|m ms IH] using rev_ind; intros st.
  { simpl. split; [|naive_solver]. intros [= <-]. split_and!; constructor. }
  rewrite for_each_app, res_bind_ok. setoid_rewrite IH. clear IH.
  rewrite Forall_app, Forall_singleton, !map_app, !NoDup_app.
  cbn [for_each map]. rewrite !reverse_snoc. split.
  - intros (st0 & (Hf & Hn & He & ->) & (st1 & (Hv & Hid & Hend & ->)%Hstep & [= <-])%res_bind_ok).
    rewrite elem_of_reverse in Hid. rewrite elem_of_reverse in Hend.
    split_and!; try done; try apply NoDup_singleton;
      intros x Hx ->%list_elem_of_singleton; done.
  - intros ((Hf & Hv) & (Hn & Hd & _) & (He & Hd' & _) & ->).
    eexists. split; [by split_and!|]. apply res_bind_ok. eexists. split; [|done].
    apply Hstep. split_and!; try done.
    + rewrite elem_of_reverse. intros Hin. apply (Hd _ Hin), list_elem_of_here.
    + rewrite elem_of_reverse. intros Hin. apply (Hd' _ Hin), list_elem_of_here.
Qed.

Lemma end_keys_unambiguous ms : NoDup (map end_key ms) ↔ unambiguous key ends_at ms.
Proof.
  unfold unambiguous, end_key.
  assert (H : map (λ m, (key m, UTC (Round0 (ends_at m)))) ms =
    map (λ p, (fst p, mkTime (snd p) None EmptyString)) (map (λ m, (key m, wall (ends_at m))) ms)).
  { rewrite map_map. done. }
  rewrite H. apply NoDup_fmap. intros [a x] [b y]. naive_solver.
Qed.

End Seen.
