(* ===== verification/Retained.v ===== *)
(** * Retained runs

    The three run packages describe a run from the one to three audit events storage
    still holds, with the same two loops ([DescribeRetainedRun] of [gatewayrun], of
    [resolverrun] and of [httpsrun]): one collects the phases of the run and the latest
    time, one checks that the phases are in order.  The loops are modelled here over
    what a package accepts as an event of the same run; what the loops compute does not
    depend on the order in which storage returned the events. *)

From S2P Require Import Prelude GoTime.

(** What a package's event is to the loops: its phase, its time, and whether it belongs
    to the run of a first event as seen at a time. *)
Class RetainedEvent (E : Type) := {
  phase : E → string;
  at_time : E → Time;
  accepted : E → Time → E → bool;
  (** acceptance compares the same fields with the first event, whichever that is *)
  accepted_first : ∀ first first' asOf e,
    accepted first asOf first' = true → accepted first asOf e = true → accepted first' asOf e = true;
}.

Section Retained.
Context {E : Type} `{!RetainedEvent E}.

(** One event: [phases[e.State] = e; if e.At.After(latest) { latest = e.At }]. *)
Definition retain_step (first : E) (asOf : Time) (st : gmap string E * Time) (e : E)
  : result unit (gmap string E * Time) :=
  let '(phases, latest) := st in
  guard? negb (accepted first asOf e) else tt in
  guard? is_some (phases !! phase e) else tt in
  Ok (<[phase e := e]> phases, if After (at_time e) latest then at_time e else latest).

(** One name of the ordered phases. *)
Definition order_step (phases : gmap string E) (previous : Time) (name : string) : result unit Time :=
  match phases !! name with
  | Some e => guard? negb (IsZero previous) && Before (at_time e) previous else tt in Ok (at_time e)
  | None => Ok previous
  end.

(** The bounds check and both loops: the first event, the phases and the latest time. *)
Definition retain (events : list E) (asOf : Time) : result unit (E * gmap string E * Time) :=
  guard? (llen events <? 1) || (3 <? llen events) || negb (validTime asOf) else tt in
  match events with
  | [] => Err tt
  | first :: _ =>
      let? (phases, latest) := for_each (retain_step first asOf) events (∅, at_time first) in
      check? for_each (order_step phases) ["authorized"; "admitted"; "finished"] zeroTime in
      Ok (first, phases, latest)
  end.

Definition phases_of (events : list E) : gmap string E :=
  foldl (λ m e, <[phase e := e]> m) ∅ events.
Definition latest_of (l0 : Time) (events : list E) : Time :=
  foldl (λ l e, if After (at_time e) l then at_time e else l) l0 events.

Lemma phases_of_snoc events e : phases_of (events ++ [e]) = <[phase e := e]> (phases_of events).
Proof. unfold phases_of. by rewrite foldl_app. Qed.

Lemma phases_of_none events k : phases_of events !! k = None ↔ k ∉ map phase events.
Proof.
  induction events as [|e events IH] using rev_ind.
  { unfold phases_of. simpl. rewrite lookup_empty. set_solver. }
  rewrite phases_of_snoc, lookup_insert_None, IH, map_app, not_elem_of_app. set_solver.
Qed.

Lemma phases_of_some events k e :
  NoDup (map phase events) → phases_of events !! k = Some e ↔ e ∈ events ∧ phase e = k.
Proof.
  induction events as [|e' events IH] using rev_ind.
  { intros _. unfold phases_of. simpl. rewrite lookup_empty. set_solver. }
  rewrite map_app, NoDup_app. intros (Hn & Hd & _).
  rewrite phases_of_snoc, lookup_insert_Some, (IH Hn), elem_of_app, list_elem_of_singleton. split.
  - naive_solver.
  - intros [[He|He] Hk]; [|naive_solver]. right. split; [|done].
    intros Hk'. apply (Hd (phase e)); [by apply list_elem_of_fmap_2|]. simpl. set_solver.
Qed.

Lemma retain_step_ok first asOf phases latest e st :
  retain_step first asOf (phases, latest) e = Ok st ↔
  accepted first asOf e = true ∧ phases !! phase e = None ∧
  st = (<[phase e := e]> phases, if After (at_time e) latest then at_time e else latest).
Proof.
  unfold retain_step. rewrite !guard_ok, negb_false_iff, is_some_false. naive_solver.
Qed.

Lemma retain_loop first asOf l0 events st :
  for_each (retain_step first asOf) events (∅, l0) = Ok st ↔
  Forall (λ e, accepted first asOf e = true) events ∧ NoDup (map phase events) ∧
  st = (phases_of events, latest_of l0 events).
Proof.
  revert st. induction events as [|e events IH] using rev_ind; intros st.
  { simpl. split; [|naive_solver]. intros [= <-]. split_and!; constructor. }
  rewrite for_each_app, res_bind_ok. setoid_rewrite IH. clear IH.
  rewrite Forall_app, Forall_singleton, map_app, NoDup_app.
  unfold latest_of. rewrite foldl_app, phases_of_snoc. simpl. split.
  - intros (st0 & (Hf & Hn & ->) & (st1 & Hs & [= <-])%res_bind_ok).
    apply retain_step_ok in Hs as (Hsr & Hnone & ->). apply phases_of_none in Hnone.
    split_and!; try done; [set_solver|apply NoDup_singleton].
  - intros ((Hf & Hsr) & (Hn & Hd & _) & ->). eexists. split; [by split_and!|].
    apply res_bind_ok. eexists. split; [|done]. apply retain_step_ok. split_and!; try done.
    apply phases_of_none. intros Hin. apply (Hd _ Hin). set_solver.
Qed.

Lemma phases_of_perm events events' :
  NoDup (map phase events) → events ≡ₚ events' → phases_of events = phases_of events'.
Proof.
  intros Hn Hp. assert (NoDup (map phase events')) as Hn'.
  { by rewrite <- (Permutation_map phase Hp). }
  apply map_eq. intros k. apply option_eq. intros e.
  rewrite !phases_of_some by done. by rewrite Hp.
Qed.

Definition canonical_events (events : list E) : Prop := Forall (λ e, canonical (at_time e)) events.

Lemma foldr_max_out x y l : foldr Z.max (Z.max x y) l = Z.max x (foldr Z.max y l).
Proof. induction l as [|z l IHl]; simpl; [done|]. rewrite IHl. lia. Qed.

Lemma foldr_max_ge z w l : z ∈ l → z <= foldr Z.max w l.
Proof. induction l as [|a l IH]; intros Hz; [set_solver|]. simpl. set_unfold. naive_solver lia. Qed.

Lemma latest_of_wall l0 events :
  canonical l0 → canonical_events events →
  canonical (latest_of l0 events) ∧
  wall (latest_of l0 events) = foldr Z.max (wall l0) (map (λ e, wall (at_time e)) events).
Proof.
  revert l0. induction events as [|e events IH]; intros l0 Hc Hf; [done|].
  apply Forall_cons in Hf as [He Hf]. simpl. rewrite After_wall by auto.
  destruct (Z.ltb_spec (wall l0) (wall (at_time e))) as [Hlt|Hge].
  - destruct (IH (at_time e) He Hf) as [H1 H2]. split; [done|]. rewrite H2.
    replace (wall (at_time e)) with (Z.max (wall (at_time e)) (wall l0)) at 1 by lia. apply foldr_max_out.
  - destruct (IH l0 Hc Hf) as [H1 H2]. split; [done|]. rewrite H2.
    replace (wall l0) with (Z.max (wall (at_time e)) (wall l0)) at 1 by lia. apply foldr_max_out.
Qed.

Lemma foldr_max_perm x l l' : l ≡ₚ l' → foldr Z.max x l = foldr Z.max x l'.
Proof. induction 1; simpl; lia. Qed.

Lemma foldr_max_start x y l : x ∈ l → y ∈ l → foldr Z.max x l = foldr Z.max y l.
Proof.
  intros Hx Hy. pose proof (foldr_max_out x y l) as H1. pose proof (foldr_max_out y x l) as H2.
  rewrite Z.max_comm in H2. pose proof (foldr_max_ge x y l Hx). pose proof (foldr_max_ge y x l Hy). lia.
Qed.

Lemma retain_loop_perm first rest first' rest' asOf phases latest :
  canonical_events (first :: rest) → first :: rest ≡ₚ first' :: rest' →
  for_each (retain_step first asOf) (first :: rest) (∅, at_time first) = Ok (phases, latest) →
  accepted first asOf first' = true ∧
  ∃ latest', for_each (retain_step first' asOf) (first' :: rest') (∅, at_time first') = Ok (phases, latest') ∧
             UTC latest' = UTC latest.
Proof.
  intros Hc Hp Hl. apply retain_loop in Hl as (Hf & Hn & [= -> ->]).
  assert (Hc' : canonical_events (first' :: rest')) by (unfold canonical_events; by rewrite <- Hp).
  assert (Hf' : Forall (λ e, accepted first asOf e = true) (first' :: rest')) by by rewrite <- Hp.
  pose proof (Forall_inv Hf') as Hs. split; [done|].
  exists (latest_of (at_time first') (first' :: rest')). split.
  - apply retain_loop. split_and!.
    + eapply Forall_impl; [exact Hf'|]. intros e He. simpl in *. by apply (accepted_first first).
    + by rewrite <- (Permutation_map phase Hp).
    + f_equal. by apply phases_of_perm.
  - destruct (latest_of_wall (at_time first) (first :: rest)) as [_ H1]; [by inversion Hc|done|].
    destruct (latest_of_wall (at_time first') (first' :: rest')) as [_ H2]; [by inversion Hc'|done|].
    cut (wall (latest_of (at_time first') (first' :: rest')) = wall (latest_of (at_time first) (first :: rest))).
    { unfold UTC. by intros ->. }
    rewrite H1, H2. rewrite <- (foldr_max_perm _ _ _ (Permutation_map (λ e, wall (at_time e)) Hp)).
    apply foldr_max_start; apply (list_elem_of_fmap_2 (λ e, wall (at_time e))); [rewrite Hp|];
      apply list_elem_of_here.
Qed.

(** What the loops compute, up to the representation of the latest time and the choice
    of the first event, whose run fields are those of every event. *)
Lemma retain_perm events events' asOf first phases latest :
  canonical_events events → events ≡ₚ events' →
  retain events asOf = Ok (first, phases, latest) →
  ∃ first' latest', retain events' asOf = Ok (first', phases, latest') ∧
    accepted first asOf first' = true ∧ UTC latest' = UTC latest.
Proof.
  intros Hc Hp. unfold retain, llen. rewrite (Permutation_length Hp).
  destruct (_ || _ || _); [done|].
  destruct events as [|e rest]; [done|].
  destruct events' as [|first' rest']; [by apply Permutation_nil_r in Hp|].
  intros ([ph la] & E1 & ([] & E2 & [= <- <- <-])%res_bind_ok)%res_bind_ok.
  destruct (retain_loop_perm _ _ _ _ _ _ _ Hc Hp E1) as (Hs & latest' & E' & Hl). rewrite E'.
  exists first', latest'. split; [|done]. simpl in E2 |- *. by rewrite E2.
Qed.

(** A description computed from the phases, from fields the events of one run share and
    from the latest time is independent of the order of the events. *)
Lemma describe_perm {B} (describe : E → gmap string E → Time → result unit B) events events' asOf :
  (∀ first first' phases latest latest',
     accepted first asOf first' = true → UTC latest = UTC latest' →
     describe first phases latest = describe first' phases latest') →
  canonical_events events → events ≡ₚ events' →
  (let? (first, phases, latest) := retain events asOf in describe first phases latest) =
  (let? (first, phases, latest) := retain events' asOf in describe first phases latest).
Proof.
  intros Hd Hc Hp.
  assert (Hc' : canonical_events events') by (unfold canonical_events; by rewrite <- Hp).
  destruct (retain events asOf) as [[[first phases] latest]|[]] eqn:E1.
  - destruct (retain_perm _ _ _ _ _ _ Hc Hp E1) as (first' & latest' & -> & Ha & Hl). cbn [res_bind].
    by apply Hd.
  - destruct (retain events' asOf) as [[[first phases] latest]|[]] eqn:E2; [|done].
    symmetry in Hp. destruct (retain_perm _ _ _ _ _ _ Hc' Hp E2) as (? & ? & ? & _). congruence.
Qed.

(** Every event the loops accept is one of the run, and a phase is the event of that phase. *)
Lemma retain_inv events asOf first phases latest :
  retain events asOf = Ok (first, phases, latest) →
  first ∈ events ∧ Forall (λ e, accepted first asOf e = true) events ∧ NoDup (map phase events) ∧
  phases = phases_of events.
Proof.
  unfold retain. intros [_ H]%guard_ok. destruct events as [|e rest]; [done|].
  apply res_bind_ok in H as ([ph la] & (Hf & Hn & [= -> ->])%retain_loop & (? & _ & [= <- <- <-])%res_bind_ok).
  split_and!; try done. apply list_elem_of_here.
Qed.

End Retained.
