(* ===== verification/NetAddr.v ===== *)
(** * IP addresses and prefixes

    The values and operations of [net/netip] the controller uses: parsing and
    printing of addresses and prefixes, the address classes, masking and
    membership.  An IPv4 address is the number of its 32 bits, an IPv6 address
    the number of its 128 bits with a zone. *)

From S2P Require Import Prelude Regex.
From Stdlib Require Import Ascii.

Inductive Addr : Type :=
| AddrNone
| V4 (n : Z)
| V6 (n : Z) (zone : string).

#[export] Instance Addr_eq_dec : EqDecision Addr.
Proof. solve_decision. Defined.

Definition IsValid (a : Addr) : bool := match a with AddrNone => false | _ => true end.
Definition Is4 (a : Addr) : bool := match a with V4 _ => true | _ => false end.
Definition Is6 (a : Addr) : bool := match a with V6 _ _ => true | _ => false end.
Definition Zone (a : Addr) : string := match a with V6 _ z => z | _ => "" end.
Definition Is4In6 (a : Addr) : bool :=
  match a with V6 n _ => Z.shiftr n 32 =? 65535 | _ => false end.

(** [Unmap]: an IPv4-mapped IPv6 address as its IPv4 address. *)
Definition Unmap (a : Addr) : Addr :=
  match a with
  | V6 n z => if Is4In6 a then V4 (Z.land n (2 ^ 32 - 1)) else a
  | _ => a
  end.

Definition IsPrivate (a : Addr) : bool :=
  match Unmap a with
  | V4 n => (Z.shiftr n 24 =? 10) || (Z.shiftr n 20 =? 2753) || (Z.shiftr n 16 =? 49320)
  | V6 n _ => Z.shiftr n 121 =? 126
  | AddrNone => false
  end.

Definition IsLoopback (a : Addr) : bool :=
  match Unmap a with
  | V4 n => Z.shiftr n 24 =? 127
  | V6 n _ => n =? 1
  | AddrNone => false
  end.

Definition IsMulticast (a : Addr) : bool :=
  match Unmap a with
  | V4 n => Z.shiftr n 28 =? 14
  | V6 n _ => Z.shiftr n 120 =? 255
  | AddrNone => false
  end.

Definition IsLinkLocalUnicast (a : Addr) : bool :=
  match Unmap a with
  | V4 n => Z.shiftr n 16 =? 43518
  | V6 n _ => Z.shiftr n 118 =? 1018
  | AddrNone => false
  end.

Definition IsUnspecified (a : Addr) : bool :=
  match a with
  | V4 n => n =? 0
  | V6 n z => (n =? 0) && (z == "")
  | AddrNone => false
  end.

(** The bits of an address of each family. *)
Definition well_formed_addr (a : Addr) : Prop :=
  match a with
  | AddrNone => True
  | V4 n => 0 <= n < 2 ^ 32
  | V6 n _ => 0 <= n < 2 ^ 128
  end.

(** ** Printing *)

Definition digit_char (d : Z) : ascii := ascii_of_N (Z.to_N (d + 48)).
Definition hex_char (d : Z) : ascii :=
  if d <? 10 then digit_char d else ascii_of_N (Z.to_N (d + 87)).

Fixpoint digits_fuel (fuel : nat) (base : Z) (n : Z) (acc : list ascii) : list ascii :=
  match fuel with
  | O => acc
  | S fuel =>
      let acc := hex_char (n mod base) :: acc in
      if n / base =? 0 then acc else digits_fuel fuel base (n / base) acc
  end.

(** [base] is 10 or 16; 40 digits are enough for 128 bits in either. *)
Definition dec (n : Z) : list ascii := digits_fuel 40 10 n [].
Definition hex (n : Z) : list ascii := digits_fuel 40 16 n [].

Definition octet (n : Z) (i : Z) : Z := Z.land (Z.shiftr n (8 * (3 - i))) 255.

Definition string4 (n : Z) : list ascii :=
  dec (octet n 0) ++ "."%char :: dec (octet n 1) ++ "."%char ::
  dec (octet n 2) ++ "."%char :: dec (octet n 3).

Definition group (n : Z) (i : nat) : Z := Z.land (Z.shiftr n (16 * (7 - Z.of_nat i))) 65535.
Definition groups (n : Z) : list Z := map (group n) (seq 0 8).

Fixpoint zero_run (gs : list Z) : nat :=
  match gs with
  | g :: gs => if g =? 0 then S (zero_run gs) else O
  | [] => O
  end.

(** The leftmost longest run of at least two zero groups, as [(start, end)]. *)
Fixpoint best_run (i : nat) (gs : list Z) (best : nat * nat) : nat * nat :=
  match gs with
  | [] => best
  | _ :: rest =>
      let l := zero_run gs in
      let best := if (2 <=? l)%nat && (snd best - fst best <? l)%nat then (i, i + l)%nat else best in
      best_run (S i) rest best
  end.

Fixpoint print_groups (i : nat) (gs : list Z) (run : nat * nat) : list ascii :=
  match gs with
  | [] => []
  | g :: rest =>
      if (i <? snd run)%nat && (fst run <=? i)%nat then
        (if (i =? fst run)%nat then [":"; ":"]%char else []) ++ print_groups (S i) rest run
      else
        (if (0 <? i)%nat && negb (i =? snd run)%nat then [":"%char]
         else if (0 <? i)%nat && (snd run =? 0)%nat then [":"%char] else []) ++
        hex g ++ print_groups (S i) rest run
  end.

Definition zone_suffix (z : string) : list ascii :=
  if z == "" then [] else "%"%char :: String.list_ascii_of_string z.

Definition string6 (n : Z) (z : string) : list ascii :=
  (if Is4In6 (V6 n z) then
     String.list_ascii_of_string "::ffff:" ++ string4 (Z.land n (2 ^ 32 - 1))
   else print_groups 0 (groups n) (best_run 0 (groups n) (0, 0)%nat)) ++ zone_suffix z.

Definition addr_list (a : Addr) : list ascii :=
  match a with
  | AddrNone => String.list_ascii_of_string "invalid IP"
  | V4 n => string4 n
  | V6 n z => string6 n z
  end.

(** [Addr.String]. *)
Definition AddrString (a : Addr) : string := String.string_of_list_ascii (addr_list a).

(** ** Parsing *)

Definition digit_value (c : ascii) : option Z :=
  if is_digit c then Some (byte_of c - 48) else None.
Definition hex_value (c : ascii) : option Z :=
  if is_digit c then Some (byte_of c - 48)
  else if in_range "a" "f" c then Some (byte_of c - 87)
  else if in_range "A" "F" c then Some (byte_of c - 55)
  else None.

(** The loop of the IPv4 parser: the value and the number of digits of the current
    octet, and the octets before it, as one number and their count. *)
Fixpoint parse4 (w : list ascii) (val digits acc pos : Z) : option Z :=
  match w with
  | [] => if pos <? 3 then None else Some (acc * 256 + val)
  | c :: rest =>
      match digit_value c with
      | Some d =>
          if (digits =? 1) && (val =? 0) then None
          else if 255 <? val * 10 + d then None
          else parse4 rest (val * 10 + d) (digits + 1) acc pos
      | None =>
          if c == "."%char then
            if (digits =? 0) || (rest == []) then None
            else if pos =? 3 then None
            else parse4 rest 0 0 (acc * 256 + val) (pos + 1)
          else None
      end
  end.

Definition parseIPv4 (w : list ascii) : option Z := parse4 w 0 0 0 0.

(** The digits of one group of an IPv6 address: its value, the number of digits
    and the rest; [None] for more than four digits. *)
Fixpoint hex_group (w : list ascii) (acc : Z) (n : nat) : option (Z * nat * list ascii) :=
  match w with
  | [] => Some (acc, n, [])
  | c :: rest =>
      match hex_value c with
      | Some d => if (3 <? n)%nat then None else hex_group rest (acc * 16 + d) (S n)
      | None => Some (acc, n, w)
      end
  end.

(** The loop over the groups: [gs] are the groups read so far, in reverse order,
    and [ellipsis] the number of groups before the [::].  [fuel] bounds the number
    of groups by eight. *)
Fixpoint parse6 (fuel : nat) (w : list ascii) (gs : list Z) (ellipsis : option nat)
  : option (list Z * option nat * list ascii) :=
  match fuel with
  | O => Some (gs, ellipsis, w)
  | S fuel =>
      match hex_group w 0 0 with
      | None => None
      | Some (_, O, _) => None
      | Some (acc, _, rest) =>
          match rest with
          | "."%char :: _ =>
              if (bool_decide (ellipsis = None) && negb (length gs =? 6)%nat) || (6 <? length gs)%nat
              then None
              else match parseIPv4 w with
                   | Some n => Some (Z.land n 65535 :: Z.shiftr n 16 :: gs, ellipsis, [])
                   | None => None
                   end
          | [] => Some (acc :: gs, ellipsis, [])
          | ":"%char :: [] => None
          | ":"%char :: ":"%char :: more =>
              match ellipsis with
              | Some _ => None
              | None =>
                  match more with
                  | [] => Some (acc :: gs, Some (S (length gs)), [])
                  | _ => parse6 fuel more (acc :: gs) (Some (S (length gs)))
                  end
              end
          | ":"%char :: more => parse6 fuel more (acc :: gs) ellipsis
          | _ => None
          end
      end
  end.

Fixpoint number_of (gs : list Z) (acc : Z) : Z :=
  match gs with
  | [] => acc
  | g :: gs => number_of gs (acc * 65536 + g)
  end.

Fixpoint split_at (c : ascii) (w : list ascii) : list ascii * option (list ascii) :=
  match w with
  | [] => ([], None)
  | d :: rest =>
      if c == d then ([], Some rest)
      else let '(u, v) := split_at c rest in (d :: u, v)
  end.

Definition expand6 (gs : list Z) (ellipsis : option nat) : option Z :=
  let gs := rev gs in
  match ellipsis with
  | None => if (length gs =? 8)%nat then Some (number_of gs 0) else None
  | Some k =>
      if (length gs <? 8)%nat then
        Some (number_of (take k gs ++ replicate (8 - length gs)%nat 0 ++ drop k gs) 0)
      else None
  end.

Definition parseIPv6 (w : list ascii) : option Addr :=
  let '(s, z) := split_at "%" w in
  let zone := match z with Some z => String.string_of_list_ascii z | None => "" end in
  if bool_decide (z = Some []) then None
  else
    let start := match s with
                 | ":"%char :: ":"%char :: rest => (rest, Some O)
                 | _ => (s, None)
                 end in
    if (bool_decide (snd start = Some O)) && (fst start == []) then Some (V6 0 zone)
    else match parse6 8 (fst start) [] (snd start) with
         | Some (gs, ellipsis, []) =>
             match expand6 gs ellipsis with Some n => Some (V6 n zone) | None => None end
         | _ => None
         end.

Fixpoint parse_addr (w full : list ascii) : option Addr :=
  match w with
  | [] => None
  | c :: rest =>
      if c == "."%char then match parseIPv4 full with Some n => Some (V4 n) | None => None end
      else if c == ":"%char then parseIPv6 full
      else if c == "%"%char then None
      else parse_addr rest full
  end.

(** [netip.ParseAddr]. *)
Definition ParseAddr (s : string) : option Addr :=
  parse_addr (String.list_ascii_of_string s) (String.list_ascii_of_string s).

(** ** Prefixes *)

Record Prefix := mkPrefix { paddr : Addr; pbits : Z }.

#[export] Instance Prefix_eq_dec : EqDecision Prefix.
Proof. solve_decision. Defined.

Definition addr_bits (a : Addr) : Z :=
  match a with AddrNone => 0 | V4 _ => 32 | V6 _ _ => 128 end.

(** The index of the last slash splits a prefix into its address and its length. *)
Fixpoint last_slash (w : list ascii) : option (list ascii * list ascii) :=
  match w with
  | [] => None
  | c :: rest =>
      match last_slash rest with
      | Some (u, v) => Some (c :: u, v)
      | None => if c == "/"%char then Some ([], rest) else None
      end
  end.

Fixpoint decimal (w : list ascii) (acc : Z) : option Z :=
  match w with
  | [] => Some acc
  | c :: rest => match digit_value c with Some d => decimal rest (acc * 10 + d) | None => None end
  end.

Definition prefix_bits (w : list ascii) : option Z :=
  match w with
  | [] => None
  | [_] => decimal w 0
  | c :: _ => if in_range "1" "9" c then decimal w 0 else None
  end.

(** [netip.ParsePrefix]. *)
Definition ParsePrefix (s : string) : option Prefix :=
  match last_slash (String.list_ascii_of_string s) with
  | None => None
  | Some (u, v) =>
      match parse_addr u u with
      | None => None
      | Some a =>
          if Zone a != "" then None
          else match prefix_bits v with
               | None => None
               | Some n => if addr_bits a <? n then None else Some (mkPrefix a n)
               end
      end
  end.

Definition mask_low (width bits n : Z) : Z := Z.shiftl (Z.shiftr n (width - bits)) (width - bits).

Definition Masked (p : Prefix) : Prefix :=
  match paddr p with
  | V4 n => mkPrefix (V4 (mask_low 32 (pbits p) n)) (pbits p)
  | V6 n z => mkPrefix (V6 (mask_low 128 (pbits p) n) "") (pbits p)
  | AddrNone => p
  end.

Definition Contains (p : Prefix) (a : Addr) : bool :=
  match paddr p, a with
  | V4 n, V4 m => Z.shiftr (Z.lxor m n) (32 - pbits p) =? 0
  | V6 n _, V6 m z => (z == "") && (Z.shiftr (Z.lxor m n) (128 - pbits p) =? 0)
  | _, _ => false
  end.

Definition PrefixString (p : Prefix) : string :=
  String.string_of_list_ascii (addr_list (paddr p) ++ "/"%char :: dec (pbits p)).

Example parse_v4 : ParseAddr "192.168.1.20" = Some (V4 3232235796).
Proof. vm_compute. reflexivity. Qed.
Example parse_v4_zero : ParseAddr "192.168.01.20" = None.
Proof. vm_compute. reflexivity. Qed.
Example print_v4 : AddrString (V4 3232235796) = "192.168.1.20"%string.
Proof. vm_compute. reflexivity. Qed.
Example parse_v6 : ParseAddr "fe80::1%en0" = Some (V6 (Z.shiftl 65152 112 + 1) "en0").
Proof. vm_compute. reflexivity. Qed.
Example print_v6 : AddrString (V6 (Z.shiftl 65152 112 + 1) "en0") = "fe80::1%en0"%string.
Proof. vm_compute. reflexivity. Qed.
Example print_v6_full : option_map AddrString (ParseAddr "2001:db8:0:0:1:0:0:1") = Some "2001:db8::1:0:0:1"%string.
Proof. vm_compute. reflexivity. Qed.
Example print_v6_any : option_map AddrString (ParseAddr "::") = Some "::"%string.
Proof. vm_compute. reflexivity. Qed.
Example print_v6_tail : option_map AddrString (ParseAddr "1:2::") = Some "1:2::"%string.
Proof. vm_compute. reflexivity. Qed.
Example print_v6_plain : option_map AddrString (ParseAddr "1:2:3:4:5:6:7:0") = Some "1:2:3:4:5:6:7:0"%string.
Proof. vm_compute. reflexivity. Qed.
Example print_mapped : option_map AddrString (ParseAddr "::ffff:10.0.0.1") = Some "::ffff:10.0.0.1"%string.
Proof. vm_compute. reflexivity. Qed.
Example prefix_roundtrip : option_map PrefixString (ParsePrefix "192.168.1.0/24") = Some "192.168.1.0/24"%string.
Proof. vm_compute. reflexivity. Qed.
Example prefix_v6 : option_map PrefixString (ParsePrefix "2001:db8::/32") = Some "2001:db8::/32"%string.
Proof. vm_compute. reflexivity. Qed.

(** ** Printing and parsing IPv4 addresses are inverse *)

Lemma octet_cases (P : Z → Prop) :
  Forall P (map Z.of_nat (seq 0 256)) → ∀ o, 0 <= o < 256 → P o.
Proof.
  rewrite Forall_forall. intros HP o Ho. apply HP.
  apply list_elem_of_fmap. exists (Z.to_nat o). split; [lia|].
  apply elem_of_seq. lia.
Qed.

Lemma parse4_dec o rest acc pos :
  0 <= o < 256 →
  parse4 (dec o ++ rest) 0 0 acc pos = parse4 rest o (Z.of_nat (length (dec o))) acc pos.
Proof.
  intros Ho. revert rest acc pos. revert o Ho. refine (octet_cases _ _). vm_compute seq. simpl map.
  repeat constructor.
Qed.

Lemma parse_addr_dec o rest full :
  0 <= o < 256 → parse_addr (dec o ++ rest) full = parse_addr rest full.
Proof.
  intros Ho. revert rest full. revert o Ho. refine (octet_cases _ _). vm_compute seq. simpl map.
  repeat constructor.
Qed.

Lemma dec_length o : 0 <= o < 256 → (1 ≤ length (dec o) ≤ 3)%nat.
Proof.
  intros Ho. assert ((1 <=? length (dec o)) && (length (dec o) <=? 3) = true)%nat as H.
  { revert o Ho. refine (octet_cases _ _). vm_compute seq. simpl map. repeat constructor. }
  go_bool. lia.
Qed.

#[local] Arguments dec : simpl never.
#[local] Arguments octet : simpl never.
#[local] Arguments string4 : simpl never.
#[local] Arguments parseIPv4 : simpl never.

Lemma octet_range n i : 0 <= octet n i < 256.
Proof.
  unfold octet. change 255 with (Z.ones 8). rewrite Z.land_ones by lia.
  change 256 with (2 ^ 8). apply Z.mod_pos_bound. lia.
Qed.

Lemma octets_number n :
  0 <= n < 2 ^ 32 →
  ((octet n 0 * 256 + octet n 1) * 256 + octet n 2) * 256 + octet n 3 = n.
Proof.
  intros Hn. unfold octet. change 255 with (Z.ones 8).
  rewrite !Z.land_ones, !Z.shiftr_div_pow2 by lia.
  change (8 * (3 - 0)) with 24. change (8 * (3 - 1)) with 16.
  change (8 * (3 - 2)) with 8. change (8 * (3 - 3)) with 0.
  change (2 ^ 24) with 16777216. change (2 ^ 16) with 65536.
  change (2 ^ 8) with 256. change (2 ^ 0) with 1. change (2 ^ 32) with 4294967296 in Hn.
  Z.to_euclidean_division_equations. lia.
Qed.

Lemma dec_nonempty o rest : 0 <= o < 256 → dec o ++ rest ≠ [].
Proof. intros Ho. pose proof (dec_length o Ho). destruct (dec o); simpl in *; [lia|done]. Qed.

Lemma dec_nonempty' o : 0 <= o < 256 → dec o ≠ [].
Proof. intros Ho. rewrite <- (app_nil_r (dec o)). by apply dec_nonempty. Qed.

Lemma parse4_dot w val digits acc pos :
  0 < digits → w ≠ [] → pos < 3 →
  parse4 ("."%char :: w) val digits acc pos = parse4 w 0 0 (acc * 256 + val) (pos + 1).
Proof.
  intros Hd Hw Hp. simpl.
  rewrite (proj2 (Z.eqb_neq digits 0)) by lia.
  rewrite bool_decide_false by done. simpl.
  by rewrite (proj2 (Z.eqb_neq pos 3)) by lia.
Qed.

Lemma parseIPv4_string4 n : 0 <= n < 2 ^ 32 → parseIPv4 (string4 n) = Some n.
Proof.
  intros Hn. unfold parseIPv4, string4.
  pose proof (octet_range n) as Ho.
  assert (∀ o, 0 <= o < 256 → 0 < Z.of_nat (length (dec o))) as Hpos.
  { intros o H. pose proof (dec_length o H). lia. }
  do 3 (rewrite parse4_dec by apply Ho; rewrite parse4_dot;
        [|by apply Hpos, Ho|first [apply dec_nonempty, Ho|apply dec_nonempty', Ho]|lia]).
  rewrite <- (app_nil_r (dec (octet n 3))), parse4_dec by apply Ho.
  change (0 + 1 + 1 + 1) with 3. cbn [parse4 Z.ltb Z.compare Pos.compare Pos.compare_cont].
  f_equal. rewrite Z.mul_0_l, Z.add_0_l. by apply octets_number.
Qed.

Lemma AddrString_list a : String.list_ascii_of_string (AddrString a) = addr_list a.
Proof. apply String.list_ascii_of_string_of_list_ascii. Qed.

Lemma ParseAddr_V4 n : 0 <= n < 2 ^ 32 → ParseAddr (AddrString (V4 n)) = Some (V4 n).
Proof.
  intros Hn. unfold ParseAddr. rewrite AddrString_list. cbn [addr_list].
  unfold string4 at 1. rewrite parse_addr_dec by apply octet_range.
  cbn [parse_addr]. rewrite bool_decide_true by done. by rewrite parseIPv4_string4.
Qed.

Lemma AddrString_V4_inj n m :
  0 <= n < 2 ^ 32 → 0 <= m < 2 ^ 32 → AddrString (V4 n) = AddrString (V4 m) → n = m.
Proof.
  intros Hn Hm Heq. apply (f_equal ParseAddr) in Heq.
  rewrite !ParseAddr_V4 in Heq by done. congruence.
Qed.

Lemma list_ascii_length s : length (String.list_ascii_of_string s) = String.length s.
Proof. induction s; simpl; congruence. Qed.

Lemma AddrString_V4_length n : (String.length (AddrString (V4 n)) ≤ 15)%nat.
Proof.
  rewrite <- list_ascii_length, AddrString_list. cbn [addr_list]. unfold string4.
  pose proof (dec_length _ (octet_range n 0)). pose proof (dec_length _ (octet_range n 1)).
  pose proof (dec_length _ (octet_range n 2)). pose proof (dec_length _ (octet_range n 3)).
  repeat (rewrite length_app; cbn [length]). lia.
Qed.

(** What the IPv4 parser returns is an address of 32 bits. *)
Lemma parse4_range w val digits acc pos n :
  0 <= val <= 255 → 0 <= acc < 256 ^ pos → 0 <= pos <= 3 →
  parse4 w val digits acc pos = Some n → 0 <= n < 2 ^ 32.
Proof.
  revert val digits acc pos. induction w as [|c w IH]; intros val digits acc pos Hv Ha Hp; simpl.
  - destruct (Z.ltb_spec pos 3); [done|]. intros [= <-].
    assert (pos = 3) as -> by lia. change (256 ^ 3) with 16777216 in Ha.
    change (2 ^ 32) with 4294967296. lia.
  - destruct (digit_value c) as [d|] eqn:Hd.
    + destruct (_ && _); [done|]. destruct (Z.ltb_spec 255 (val * 10 + d)); [done|].
      assert (0 <= d).
      { unfold digit_value, is_digit, in_range in Hd.
        destruct (_ && _) eqn:Hb; [|done]. injection Hd as <-. go_bool.
        change (byte_of "0"%char) with 48 in *. lia. }
      apply IH; lia.
    + repeat case_match; try done. go_bool.
      apply IH; [lia| |lia].
      rewrite Z.pow_add_r by lia. change (256 ^ 1) with 256. nia.
Qed.

Lemma parseIPv6_Is6 w a : parseIPv6 w = Some a → Is6 a = true.
Proof. unfold parseIPv6. intros H. repeat case_match; by simplify_eq. Qed.

Lemma ParseAddr_V4_range s n : ParseAddr s = Some (V4 n) → 0 <= n < 2 ^ 32.
Proof.
  unfold ParseAddr. generalize (String.list_ascii_of_string s) at 2 as full.
  induction (String.list_ascii_of_string s) as [|c w IH]; intros full; [done|].
  cbn [parse_addr]. destruct (c == "."%char).
  - destruct (parseIPv4 full) as [m|] eqn:Hm; [|done]. intros [= ->].
    eapply parse4_range; [..|exact Hm]; lia.
  - destruct (c == ":"%char).
    + intros H%parseIPv6_Is6. done.
    + destruct (c == "%"%char); [done|]. apply IH.
Qed.

(** ** The text of an address of another family is not an IPv4 address *)

Lemma hex_char_skip d rest full : 0 <= d < 16 → parse_addr (hex_char d :: rest) full = parse_addr rest full.
Proof.
  intros Hd. assert (d ∈ map Z.of_nat (seq 0 16)) as Hin.
  { apply list_elem_of_fmap. exists (Z.to_nat d). split; [lia|]. apply elem_of_seq. lia. }
  revert d Hd Hin rest full. simpl. intros d _ Hin rest full.
  repeat (apply elem_of_cons in Hin as [->|Hin]; [done|]). by apply elem_of_nil in Hin.
Qed.

Lemma digits_skip fuel n acc rest full :
  parse_addr (digits_fuel fuel 16 n acc ++ rest) full = parse_addr (acc ++ rest) full.
Proof.
  revert n acc. induction fuel as [|fuel IH]; intros n acc; [done|]. cbn [digits_fuel].
  pose proof (Z.mod_pos_bound n 16 ltac:(lia)) as Hm.
  destruct (n / 16 =? 0); [|rewrite IH]; by apply hex_char_skip.
Qed.

Lemma best_run_end i gs best :
  (snd best = 0 ∨ 2 ≤ snd best)%nat → (snd (best_run i gs best) = 0 ∨ 2 ≤ snd (best_run i gs best))%nat.
Proof.
  revert i best. induction gs as [|g gs IH]; intros i best Hb; cbn [best_run]; [done|].
  apply IH. destruct (_ && _) eqn:E; [|done]. apply andb_true_iff in E as [E _].
  apply Nat.leb_le in E. cbn [snd]. lia.
Qed.

Lemma parse_addr_colon rest full : parse_addr (":"%char :: rest) full = parseIPv6 full.
Proof. done. Qed.

(** The first two groups of eight: digits, then a colon. *)
Lemma parse_groups g h gs a e rest full :
  (e = 0 ∨ 2 ≤ e)%nat →
  parse_addr (print_groups 0 (g :: h :: gs) (a, e) ++ rest) full = parseIPv6 full.
Proof.
  intros He.
  change (print_groups 0 (g :: h :: gs) (a, e)) with
    (if (0 <? e)%nat && (a <=? 0)%nat
     then (if (0 =? a)%nat then [":"; ":"]%char else []) ++ print_groups 1 (h :: gs) (a, e)
     else [] ++ hex g ++ print_groups 1 (h :: gs) (a, e)).
  assert (H1 : (0 <? e)%nat && (a <=? 0)%nat = false →
    parse_addr (print_groups 1 (h :: gs) (a, e) ++ rest) full = parseIPv6 full).
  { intros E0.
    change (print_groups 1 (h :: gs) (a, e)) with
      (if (1 <? e)%nat && (a <=? 1)%nat
       then (if (1 =? a)%nat then [":"; ":"]%char else []) ++ print_groups 2 gs (a, e)
       else (if true && negb (1 =? e)%nat then [":"%char]
             else if true && (e =? 0)%nat then [":"%char] else []) ++ hex h ++ print_groups 2 gs (a, e)).
    destruct ((1 <? e)%nat && (a <=? 1)%nat) eqn:E1.
    - apply andb_true_iff in E1 as [H1 Ha]. apply Nat.leb_le in Ha. apply Nat.ltb_lt in H1.
      assert (a = 1)%nat as ->; [|apply parse_addr_colon].
      apply andb_false_iff in E0 as [E0|E0]; [apply Nat.ltb_ge in E0; lia|].
      apply Nat.leb_gt in E0. lia.
    - assert ((1 =? e)%nat = false) as -> by (apply Nat.eqb_neq; lia). apply parse_addr_colon. }
  destruct ((0 <? e)%nat && (a <=? 0)%nat) eqn:E0.
  - apply andb_true_iff in E0 as [_ Ha]. apply Nat.leb_le in Ha.
    assert (a = 0)%nat as -> by lia. apply parse_addr_colon.
  - cbn [app]. rewrite <- app_assoc. unfold hex. rewrite digits_skip. by apply H1.
Qed.

Lemma parse_string6 n z rest full :
  parse_addr (string6 n z ++ rest) full = parseIPv6 full.
Proof.
  unfold string6. destruct (Is4In6 (V6 n z)); [apply parse_addr_colon|].
  pose proof (best_run_end 0 (groups n) (0, 0)%nat (or_introl eq_refl)) as Hrun.
  destruct (best_run 0 (groups n) (0, 0)%nat) as [a e]. cbn [snd] in Hrun.
  rewrite <- app_assoc. unfold groups. cbn [seq map]. by apply parse_groups.
Qed.

(** An address whose text parses as IPv4 is one. *)
Lemma AddrString_Is4 a b :
  ParseAddr (AddrString a) = Some b → Is4 b = true → Is4 a = true.
Proof.
  unfold ParseAddr. rewrite AddrString_list. destruct a as [|n|n z]; [done..|]. cbn [addr_list].
  rewrite <- (app_nil_r (string6 n z)) at 1. rewrite parse_string6.
  intros H%parseIPv6_Is6. by destruct b.
Qed.

(** ** Prefixes as ranges *)

(** [for bit := bits; bit < width; bit++ { b[bit/8] |= 1 << (7 - bit%8) }]: bit
    [7 - bit%8] of byte [bit/8] is bit [width - 1 - bit] of the number. *)
Definition set_host_bits (width bits n : Z) : Z :=
  fold_left (λ acc bit, Z.lor acc (Z.shiftl 1 (width - 1 - bit)))
    (map (λ i, bits + Z.of_nat i) (seq 0 (Z.to_nat (width - bits)))) n.

Lemma fold_lor_testbit (f : Z → Z) bs n i :
  (∀ x, In x bs → 0 <= f x) → 0 <= i →
  Z.testbit (fold_left (λ acc x, Z.lor acc (Z.shiftl 1 (f x))) bs n) i =
  Z.testbit n i || existsb (λ x, f x =? i) bs.
Proof.
  revert n. induction bs as [|x bs IH]; intros n Hf Hi; simpl; [by rewrite orb_false_r|].
  rewrite IH by (auto with datatypes). rewrite Z.lor_spec, orb_assoc. f_equal. f_equal.
  specialize (Hf x (or_introl eq_refl)). rewrite Z.shiftl_spec by done.
  destruct (Z.eqb_spec (f x) i) as [<-|Hne].
  - by rewrite Z.sub_diag.
  - destruct (Z.lt_ge_cases i (f x)).
    + apply Z.testbit_neg_r. lia.
    + replace 1 with (2 ^ 0) by done. rewrite Z.pow2_bits_eqb by lia.
      apply Z.eqb_neq. lia.
Qed.

Lemma lor_ones_masked q k : 0 <= k → Z.lor (Z.shiftl q k) (Z.ones k) = Z.shiftl q k + (2 ^ k - 1).
Proof.
  intros Hk. assert (Z.land (Z.shiftl q k) (Z.ones k) = 0) as Hland.
  { rewrite Z.land_ones, Z.shiftl_mul_pow2 by done. apply Z.mod_mul. lia. }
  replace (2 ^ k - 1) with (Z.ones k) by (rewrite Z.ones_equiv; lia).
  rewrite Z.add_nocarry_lxor by done.
  apply Z.bits_inj. intros i. rewrite Z.lor_spec, Z.lxor_spec.
  apply (f_equal (λ z, Z.testbit z i)) in Hland.
  rewrite Z.land_spec, Z.bits_0 in Hland.
  by destruct (Z.testbit (Z.shiftl q k) i), (Z.testbit (Z.ones k) i).
Qed.

Lemma set_host_bits_masked width n bits :
  0 <= bits <= width → n = mask_low width bits n →
  set_host_bits width bits n = n + (2 ^ (width - bits) - 1).
Proof.
  intros Hb Hn. unfold set_host_bits.
  transitivity (Z.lor n (Z.ones (width - bits))).
  - apply Z.bits_inj'. intros i Hi. rewrite (fold_lor_testbit (λ bit, width - 1 - bit)); [|intros x|done].
    + rewrite Z.lor_spec. f_equal. rewrite Z.testbit_ones_nonneg by lia.
      apply eq_true_iff_eq. rewrite existsb_true_iff, Exists_exists, Z.ltb_lt.
      setoid_rewrite Z.eqb_eq. setoid_rewrite list_elem_of_fmap.
      setoid_rewrite elem_of_seq. split.
      * intros (x & (j & -> & Hj) & Heq). lia.
      * intros Hlt. exists (width - 1 - i). split; [|lia].
        exists (Z.to_nat (width - 1 - i - bits)). lia.
    + intros (j & <- & Hj%in_seq)%in_map_iff. lia.
  - unfold mask_low in Hn. rewrite Hn. apply lor_ones_masked. lia.
Qed.

Lemma mask_range width n bits m :
  0 <= bits <= width → n = mask_low width bits n →
  Z.shiftr (Z.lxor m n) (width - bits) = 0 ↔ n <= m <= n + (2 ^ (width - bits) - 1).
Proof.
  intros Hb Hn. rewrite Z.shiftr_lxor, Z.lxor_eq_0_iff.
  unfold mask_low in Hn. rewrite Z.shiftl_mul_pow2 in Hn by lia.
  rewrite !Z.shiftr_div_pow2 in * by lia.
  assert (0 < 2 ^ (width - bits)) as Hpos by (apply Z.pow_pos_nonneg; lia).
  set (w := 2 ^ (width - bits)) in *. set (q := n / w) in *. split.
  - intros Heq. pose proof (Z.div_mod m w) as Hm. pose proof (Z.mod_pos_bound m w). nia.
  - intros Hm. symmetry. apply (Z.div_unique_pos m w q (m - q * w)); lia.
Qed.

Lemma Contains_V4_range n bits m :
  0 <= bits <= 32 → n = mask_low 32 bits n →
  Contains (mkPrefix (V4 n) bits) (V4 m) = true ↔ n <= m <= n + (2 ^ (32 - bits) - 1).
Proof. intros Hb Hn. unfold Contains. simpl. rewrite Z.eqb_eq. by apply mask_range. Qed.

Lemma decimal_nonneg w acc n : 0 <= acc → decimal w acc = Some n → 0 <= n.
Proof.
  revert acc. induction w as [|c w IH]; intros acc Ha Hd; simpl in Hd; [by simplify_eq|].
  destruct (digit_value c) as [d|] eqn:Hc; [|done]. apply (IH (acc * 10 + d)); [|done].
  unfold digit_value, is_digit, in_range in Hc. case_match; [|done].
  injection Hc as <-. go_bool. change (byte_of "0"%char) with 48 in *. lia.
Qed.

Lemma prefix_bits_nonneg w n : prefix_bits w = Some n → 0 <= n.
Proof.
  unfold prefix_bits. destruct w as [|c [|d w]]; [done| |].
  - apply decimal_nonneg. lia.
  - destruct (in_range _ _ c); [|done]. apply decimal_nonneg. lia.
Qed.

Lemma ParsePrefix_bits s p : ParsePrefix s = Some p → 0 <= pbits p <= addr_bits (paddr p).
Proof.
  unfold ParsePrefix. destruct (last_slash _) as [[u v]|]; [|done].
  destruct (parse_addr u u) as [a|]; [|done]. destruct (Zone a != ""); [done|].
  destruct (prefix_bits v) as [n|] eqn:Hn; [|done].
  destruct (Z.ltb_spec (addr_bits a) n); [done|]. intros [= <-]. simpl.
  apply prefix_bits_nonneg in Hn. lia.
Qed.

(** ** Parsed addresses have the bits of their family *)

Definition is_group (g : Z) : Prop := 0 <= g < 65536.

Lemma hex_value_range c d : hex_value c = Some d → 0 <= d < 16.
Proof.
  unfold hex_value, is_digit, in_range. intros H.
  change (byte_of "0"%char) with 48 in H. change (byte_of "9"%char) with 57 in H.
  change (byte_of "a"%char) with 97 in H. change (byte_of "f"%char) with 102 in H.
  change (byte_of "A"%char) with 65 in H. change (byte_of "F"%char) with 70 in H.
  destruct (_ && _) eqn:E1 in H; [go_bool; simplify_eq; lia|clear E1].
  destruct (_ && _) eqn:E1 in H; [go_bool; simplify_eq; lia|clear E1].
  destruct (_ && _) eqn:E1 in H; [go_bool; simplify_eq; lia|done].
Qed.

Lemma hex_group_range w acc n g k rest :
  (n ≤ 4)%nat → 0 <= acc < 16 ^ Z.of_nat n → hex_group w acc n = Some (g, k, rest) → is_group g.
Proof.
  assert (Hb : ∀ a m, (m ≤ 4)%nat → 0 <= a < 16 ^ Z.of_nat m → is_group a).
  { intros a m Hm Ha. unfold is_group. change 65536 with (16 ^ 4).
    pose proof (Z.pow_le_mono_r 16 (Z.of_nat m) 4). lia. }
  revert acc n. induction w as [|c w IH]; intros acc n Hn Ha; cbn [hex_group].
  { intros [= <- <- <-]. by eapply Hb. }
  destruct (hex_value c) as [d|] eqn:Hd; [|intros [= <- <- <-]; by eapply Hb].
  destruct (Nat.ltb_spec 3 n); [done|]. apply hex_value_range in Hd. apply IH; [lia|].
  rewrite Nat2Z.inj_succ, Z.pow_succ_r by lia. lia.
Qed.

Lemma parse6_range fuel w gs e gs' e' rest :
  Forall is_group gs → parse6 fuel w gs e = Some (gs', e', rest) → Forall is_group gs'.
Proof.
  revert w gs e. induction fuel as [|fuel IH]; intros w gs e Hg; cbn [parse6]; [by intros [= <- _ _]|].
  destruct (hex_group w 0 0) as [[[acc [|k]] r]|] eqn:Eh; [done| |done].
  apply hex_group_range in Eh; [|lia..].
  destruct r as [|c r]; [intros [= <- _ _]; by constructor|].
  intros H. repeat case_match; simplify_eq; try by eauto.
  unfold parseIPv4 in *. match goal with H : parse4 _ _ _ _ _ = Some _ |- _ => apply parse4_range in H; [|lia..] end.
  constructor; [|constructor; [|done]].
  - unfold is_group. change 65535 with (Z.ones 16). rewrite Z.land_ones by lia. by apply Z.mod_pos_bound.
  - unfold is_group. rewrite Z.shiftr_div_pow2 by lia. split; [apply Z.div_pos; lia|].
    apply Z.div_lt_upper_bound; lia.
Qed.

Lemma number_of_range gs acc k :
  Forall is_group gs → 0 <= acc < 65536 ^ k → 0 <= k →
  0 <= number_of gs acc < 65536 ^ (k + Z.of_nat (length gs)).
Proof.
  revert acc k. induction gs as [|g gs IH]; intros acc k Hg Ha Hk; cbn [number_of length].
  { by rewrite Z.add_0_r. }
  apply Forall_cons in Hg as [Hg1 Hg]. unfold is_group in Hg1.
  replace (k + Z.of_nat (S (length gs))) with ((k + 1) + Z.of_nat (length gs)) by lia.
  apply IH; [done| |lia]. rewrite Z.pow_add_r by lia. lia.
Qed.

Lemma expand6_range gs e n : Forall is_group gs → expand6 gs e = Some n → 0 <= n < 2 ^ 128.
Proof.
  intros Hg H. unfold expand6 in H. apply Forall_rev in Hg.
  assert (Hl : ∀ l, Forall is_group l → length l = 8%nat → 0 <= number_of l 0 < 2 ^ 128).
  { intros l Hf Hl. pose proof (number_of_range l 0 0 Hf) as Hr. rewrite Hl in Hr. apply Hr; lia. }
  destruct e as [k|].
  - destruct (Nat.ltb_spec (length (rev gs)) 8); [|done]. injection H as <-. apply Hl.
    + rewrite !Forall_app. split_and!; [by apply Forall_take| |by apply Forall_drop].
      apply Forall_replicate. unfold is_group. lia.
    + rewrite !length_app, length_replicate, length_take, length_drop. lia.
  - destruct (Nat.eqb_spec (length (rev gs)) 8); [|done]. injection H as <-. by apply Hl.
Qed.

Lemma parse_addr_wf w full a : parse_addr w full = Some a → a ≠ AddrNone ∧ well_formed_addr a.
Proof.
  induction w as [|c w IH]; cbn [parse_addr]; [done|].
  destruct (c == "."%char).
  { destruct (parseIPv4 full) as [m|] eqn:Hm; [|done]. intros [= <-].
    split; [done|]. eapply parse4_range; [..|exact Hm]; lia. }
  destruct (c == ":"%char); [|by destruct (c == "%"%char)].
  unfold parseIPv6. destruct (split_at _ _) as [s z]. destruct (bool_decide (z = Some [])); [done|].
  set (start := match s with _ => _ end). destruct (_ && _); [intros [= <-]; split; [done|simpl; lia]|].
  destruct (parse6 _ _ _ _) as [[[gs e] [|??]]|] eqn:E6; [|done..].
  destruct (expand6 gs e) as [n|] eqn:En; [|done]. intros [= <-]. split; [done|].
  eapply expand6_range; [|exact En]. by eapply parse6_range; [|exact E6].
Qed.

(** What [ParsePrefix] returns is valid. *)
Lemma ParsePrefix_wf s p :
  ParsePrefix s = Some p → paddr p ≠ AddrNone ∧ Zone (paddr p) = "" ∧ well_formed_addr (paddr p).
Proof.
  unfold ParsePrefix. destruct (last_slash _) as [[u v]|]; [|done].
  destruct (parse_addr u u) as [a|] eqn:E; [|done]. apply parse_addr_wf in E as [? ?].
  destruct (bool_decide (Zone a = "")) eqn:Ez; [|done]. go_bool. simpl.
  destruct (prefix_bits v) as [k|]; [|done]. destruct (_ <? _); [done|]. intros [= <-]. done.
Qed.
