(* ===== verification/GatewayPlan.v ===== *)
(** * Review plans of the gateway check

    [internal/controller/networkquality/gateway_plan.go]: the pure preview that
    turns an enrolled binding, a target and the time into a short-lived review plan.
    The theorems characterize exactly which targets a plan is built for and show
    that the bit loop computing the last address of a prefix is arithmetic. *)

From Stdlib Require Import Ascii.
From S2P Require Import Prelude Regex GoTime NetAddr.

Inductive plan_error : Type :=
| ErrGatewayPlanTarget
| ErrGatewayPlanBinding
| ErrGatewayPlanClock.

Definition GatewayReviewLifetime : Duration := 30 * Second.

Definition gatewayScopePattern : regex := id_regex.
Definition gatewayInterfacePattern : regex := interface64_regex.

Record GatewayPlanBinding := mkGatewayPlanBinding {
  ScopeID : string;
  InterfaceName : string;
  InterfaceIndex : Z;
  Prefixes : list string;
}.

Record GatewayProbeBudget := mkGatewayProbeBudget {
  MaxAttempts : Z;
  MinInterval : Duration;
  AttemptTimeout : Duration;
  TotalTimeout : Duration;
  PayloadBytes : Z;
  MaxICMPRequestBytes : Z;
  MaxConcurrentRuns : Z;
  MinRunInterval : Duration;
}.

Record GatewayCheckPlan := mkGatewayCheckPlan {
  Binding : GatewayPlanBinding;
  Target : Addr;
  CreatedAt : Time;
  ReviewExpiresAt : Time;
  Budget : GatewayProbeBudget;
}.

#[export] Instance GatewayPlanBinding_eq_dec : EqDecision GatewayPlanBinding.
Proof. solve_decision. Defined.
#[export] Instance GatewayProbeBudget_eq_dec : EqDecision GatewayProbeBudget.
Proof. solve_decision. Defined.
#[export] Instance GatewayCheckPlan_eq_dec : EqDecision GatewayCheckPlan.
Proof. solve_decision. Defined.

Definition ValidateGatewayPreviewTarget (raw : string) : result plan_error unit :=
  guard? 15 <? slen raw else ErrGatewayPlanTarget in
  match ParseAddr raw with
  | None => Err ErrGatewayPlanTarget
  | Some address =>
      guard? negb (Is4 address) || negb (IsPrivate address) || (AddrString address != raw)
      else ErrGatewayPlanTarget in
      Ok tt
  end.

(** The address with the host bits of the prefix set. *)
Definition gatewayLastIPv4 (prefix : Prefix) : Addr :=
  match paddr prefix with
  | V4 n => V4 (set_host_bits 32 (pbits prefix) n)
  | a => a
  end.

Definition gatewayBudget : GatewayProbeBudget :=
  mkGatewayProbeBudget 3 Second Second (5 * Second) 32 (3 * (8 + 32)) 1 Minute.

(** The variables the loop over the enrolled prefixes closes over: [seen],
    [prefixes] and [matched]. *)
Definition prefix_step (address : Addr)
    (st : list Prefix * list string * bool) (raw : string)
  : result plan_error (list Prefix * list string * bool) :=
  let '(seen, prefixes, matched) := st in
  guard? 64 <? slen raw else ErrGatewayPlanBinding in
  match ParsePrefix raw with
  | None => Err ErrGatewayPlanBinding
  | Some prefix =>
      guard? (prefix != Masked prefix) || Is4In6 (paddr prefix) || IsUnspecified (paddr prefix) ||
             IsLoopback (paddr prefix) || IsMulticast (paddr prefix)
      else ErrGatewayPlanBinding in
      guard? bool_decide (prefix ∈ seen) else ErrGatewayPlanBinding in
      let seen := prefix :: seen in
      let prefixes := prefixes ++ [PrefixString prefix] in
      if negb (Contains prefix address) then Ok (seen, prefixes, matched)
      else
        guard? (30 <? pbits prefix) || negb (IsPrivate (paddr prefix)) else ErrGatewayPlanTarget in
        let last := gatewayLastIPv4 prefix in
        guard? negb (IsPrivate last) || (address == paddr prefix) || (address == last)
        else ErrGatewayPlanTarget in
        Ok (seen, prefixes, true)
  end.

Definition PreviewGatewayCheck (binding : GatewayPlanBinding) (target : string) (now : Time)
  : result plan_error GatewayCheckPlan :=
  check? ValidateGatewayPreviewTarget target in
  guard? negb (MatchString gatewayScopePattern (ScopeID binding)) ||
         negb (MatchString gatewayInterfacePattern (InterfaceName binding)) ||
         (InterfaceIndex binding <? 1) || (2147483647 <? InterfaceIndex binding) ||
         (llen (Prefixes binding) =? 0) || (32 <? llen (Prefixes binding))
  else ErrGatewayPlanBinding in
  let now := UTC (Round0 now) in
  guard? IsZero now || (Year now <? 1) || (9999 <? Year now) ||
         (9999 <? Year (Add now GatewayReviewLifetime))
  else ErrGatewayPlanClock in
  let address := default AddrNone (ParseAddr target) in
  let? (_, prefixes, matched) :=
    for_each (prefix_step address) (Prefixes binding) ([], [], false) in
  guard? negb matched else ErrGatewayPlanTarget in
  let prefixes := merge_sort String.le prefixes in
  let binding := mkGatewayPlanBinding (ScopeID binding) (InterfaceName binding)
                   (InterfaceIndex binding) prefixes in
  Ok (mkGatewayCheckPlan binding address now (Add now GatewayReviewLifetime) gatewayBudget).

(** ** The last address of a prefix *)

Lemma gatewayLastIPv4_masked n bits :
  0 <= bits <= 32 → n = mask_low 32 bits n →
  gatewayLastIPv4 (mkPrefix (V4 n) bits) = V4 (n + (2 ^ (32 - bits) - 1)).
Proof. intros Hb Hn. unfold gatewayLastIPv4. simpl. f_equal. by apply set_host_bits_masked. Qed.

(** ** Which plans exist

    A prefix the plan accepts: canonical, of an ordinary unicast network. *)
Definition prefix_accepted (p : Prefix) : Prop :=
  p = Masked p ∧ Is4In6 (paddr p) = false ∧ IsUnspecified (paddr p) = false ∧
  IsLoopback (paddr p) = false ∧ IsMulticast (paddr p) = false.

(** The target is a host of every enrolled prefix that contains it: a private
    network of at most 30 bits whose first and last address it is not. *)
Definition host_of (m : Z) (p : Prefix) : Prop :=
  Contains p (V4 m) = true →
  ∃ n, paddr p = V4 n ∧ pbits p <= 30 ∧ n < m < n + (2 ^ (32 - pbits p) - 1) ∧
    IsPrivate (V4 n) = true ∧ IsPrivate (V4 (n + (2 ^ (32 - pbits p) - 1))) = true.

Definition binding_wf (b : GatewayPlanBinding) : Prop :=
  MatchString id_regex (ScopeID b) = true ∧
  MatchString interface64_regex (InterfaceName b) = true ∧
  1 <= InterfaceIndex b <= 2147483647 ∧ (1 ≤ length (Prefixes b) ≤ 32)%nat.

Definition clock_wf (now : Time) : Prop :=
  IsZero now = false ∧ 1 <= Year now <= 9999 ∧ Year (Add now GatewayReviewLifetime) <= 9999.

Lemma Masked_V4 n bits :
  mkPrefix (V4 n) bits = Masked (mkPrefix (V4 n) bits) → n = mask_low 32 bits n.
Proof. unfold Masked. simpl. by intros [= H]. Qed.

Lemma Contains_V4_addr p m :
  Contains p (V4 m) = true → ∃ n, paddr p = V4 n.
Proof. unfold Contains. destruct (paddr p); naive_solver. Qed.

(** One iteration of the loop, as a proposition. *)
Lemma prefix_step_ok m seen ps matched raw st :
  0 <= m →
  prefix_step (V4 m) (seen, ps, matched) raw = Ok st ↔
  ∃ p, slen raw <= 64 ∧ ParsePrefix raw = Some p ∧ prefix_accepted p ∧ p ∉ seen ∧ host_of m p ∧
    st = (p :: seen, ps ++ [PrefixString p], matched || Contains p (V4 m)).
Proof.
  intros Hm. unfold prefix_step. rewrite guard_ok.
  destruct (ParsePrefix raw) as [p|] eqn:Hp; [|split; [by intros []|naive_solver]].
  rewrite !guard_ok. pose proof (ParsePrefix_bits raw p Hp) as Hbits. split.
  - intros (Hlen & Hacc & Hseen & Hst). go_bool. exists p.
    assert (prefix_accepted p) as Hpa by (by repeat split).
    do 2 (split; [done|]). split; [done|]. split; [done|].
    destruct (Contains p (V4 m)) eqn:Hc; simpl in Hst.
    + destruct (Contains_V4_addr p m Hc) as [n Hn].
      destruct p as [pa bits]; cbn [paddr pbits] in *. subst pa. cbn [addr_bits] in *.
      rewrite !guard_ok in Hst. destruct Hst as (Ht1 & Ht2 & Hst).
      assert (n = mask_low 32 bits n) as Hmask by (by apply Masked_V4, Hpa).
      rewrite gatewayLastIPv4_masked in Ht2 by done. go_bool.
      rewrite Contains_V4_range in Hc by done. split.
      * intros _. exists n. repeat split; simpl; try done; try lia.
        -- assert (n ≠ m) by congruence. lia.
        -- assert (m ≠ n + (2 ^ (32 - bits) - 1)) by congruence. lia.
      * rewrite orb_true_r. congruence.
    + split; [intros Hf; congruence|]. rewrite orb_false_r. congruence.
  - intros (p' & Hlen & [= <-] & Hpa & Hseen & Hhost & ->). go_bool.
    split; [by go_bool|]. destruct Hpa as (Hmask & H1 & H2 & H3 & H4).
    split. { rewrite H1, H2, H3, H4, bool_decide_true by done. done. }
    split; [by go_bool|].
    destruct (Contains p (V4 m)) eqn:Hc; simpl; [|by rewrite orb_false_r].
    destruct (Hhost Hc) as (n & Hn & Hb & Hrange & Hp1 & Hp2).
    destruct p as [pa bits]; cbn [paddr pbits] in *. subst pa. cbn [addr_bits] in *.
    rewrite gatewayLastIPv4_masked by (done || by apply Masked_V4).
    rewrite !guard_ok, Hp1, Hp2, orb_true_r. repeat split; go_bool; repeat split; try lia; try done.
    all: go_bool; congruence || (intros [= ?]; lia).
Qed.

(** The loop over the enrolled prefixes, as a proposition. *)
Definition prefixes_accepted (m : Z) (raws : list string) (ps : list Prefix) : Prop :=
  Forall2 (λ raw p, slen raw <= 64 ∧ ParsePrefix raw = Some p ∧ prefix_accepted p ∧ host_of m p) raws ps ∧
  NoDup ps.

Lemma prefix_loop_ok m raws st :
  0 <= m →
  for_each (prefix_step (V4 m)) raws ([], [], false) = Ok st ↔
  ∃ ps, prefixes_accepted m raws ps ∧
    st = (rev ps, map PrefixString ps, existsb (λ p, Contains p (V4 m)) ps).
Proof.
  intros Hm. unfold prefixes_accepted.
  cut (∀ seen strs matched,
    for_each (prefix_step (V4 m)) raws (seen, strs, matched) = Ok st ↔
    ∃ ps, (Forall2 (λ raw p, slen raw <= 64 ∧ ParsePrefix raw = Some p ∧ prefix_accepted p ∧ host_of m p) raws ps ∧
           NoDup ps ∧ (∀ p, p ∈ ps → p ∉ seen)) ∧
      st = (rev ps ++ seen, strs ++ map PrefixString ps,
            matched || existsb (λ p, Contains p (V4 m)) ps)).
  { intros Hgen. rewrite Hgen. setoid_rewrite app_nil_r. setoid_rewrite orb_false_l.
    split; intros (ps & H); exists ps; [naive_solver|].
    destruct H as [[? ?] ?]. split; [|done]. repeat split; try done.
    intros p _ ?%not_elem_of_nil. done. }
  induction raws as [|raw raws IH]; intros seen strs matched.
  - simpl. split.
    + intros [= <-]. exists []. rewrite app_nil_r, orb_false_r. simpl.
      repeat split; try constructor. by intros p ?%not_elem_of_nil.
    + intros (ps & (Hf & _) & ->). apply Forall2_nil_inv_l in Hf as ->.
      simpl. by rewrite app_nil_r, orb_false_r.
  - rewrite for_each_cons_ok. split.
    + intros (t & (p & Hl & Hp & Ha & Hs & Hh & ->)%prefix_step_ok & Hrest); [|done].
      apply IH in Hrest as (ps & (Hf & Hnd & Hdis) & ->).
      exists (p :: ps). split.
      * split; [by constructor|]. split.
        -- constructor; [|done]. intros Hin. apply (Hdis p Hin). left.
        -- intros q [->|Hq]%elem_of_cons; [done|]. intros Hqs. apply (Hdis q Hq). by right.
      * simpl. rewrite <- !app_assoc, orb_assoc. done.
    + intros (ps & (Hf & Hnd & Hdis) & ->).
      apply Forall2_cons_inv_l in Hf as (p & ps' & (Hl & Hp & Ha & Hh) & Hf & ->).
      apply NoDup_cons in Hnd as [Hnin Hnd].
      eexists. split.
      * apply prefix_step_ok; [done|]. exists p. do 3 (split; [done|]).
        split; [apply Hdis; left|]. done.
      * apply IH. exists ps'. split.
        -- split; [done|]. split; [done|]. intros q Hq [->|Hqs]%elem_of_cons; [done|].
           apply (Hdis q); [by right|done].
        -- simpl. by rewrite <- !app_assoc, orb_assoc.
Qed.

Lemma ValidateGatewayPreviewTarget_ok t :
  ValidateGatewayPreviewTarget t = Ok tt ↔
  ∃ m, 0 <= m < 2 ^ 32 ∧ t = AddrString (V4 m) ∧ IsPrivate (V4 m) = true.
Proof.
  unfold ValidateGatewayPreviewTarget. rewrite guard_ok. split.
  - intros [_ H]. destruct (ParseAddr t) as [a|] eqn:Hp; [|done].
    apply guard_ok in H as [H _]. go_bool. destruct a as [|m|]; try done.
    exists m. split; [by eapply ParseAddr_V4_range|]. done.
  - intros (m & Hm & -> & Hpriv). rewrite ParseAddr_V4 by done. simpl Is4.
    rewrite Hpriv. rewrite bool_decide_true by done. split; [|done].
    unfold slen. pose proof (AddrString_V4_length m). go_bool. lia.
Qed.

Lemma preview_iff binding target now plan :
  PreviewGatewayCheck binding target now = Ok plan ↔
  ∃ m ps, 0 <= m < 2 ^ 32 ∧ target = AddrString (V4 m) ∧ IsPrivate (V4 m) = true ∧
    binding_wf binding ∧ clock_wf (UTC now) ∧
    prefixes_accepted m (Prefixes binding) ps ∧
    Exists (λ p, Contains p (V4 m) = true) ps ∧
    plan = mkGatewayCheckPlan
             (mkGatewayPlanBinding (ScopeID binding) (InterfaceName binding) (InterfaceIndex binding)
                (merge_sort String.le (map PrefixString ps)))
             (V4 m) (UTC now) (Add (UTC now) GatewayReviewLifetime) gatewayBudget.
Proof.
  unfold PreviewGatewayCheck. change (UTC (Round0 now)) with (UTC now).
  split.
  - intros H. apply res_bind_ok in H as ([] & (m & Hm & -> & Hpriv)%ValidateGatewayPreviewTarget_ok & H).
    apply guard_ok in H as [Hb H]. apply guard_ok in H as [Hc H].
    apply res_bind_ok in H as (st & Hloop & Hend).
    rewrite ParseAddr_V4 in Hloop, Hend by done. simpl default in *.
    apply prefix_loop_ok in Hloop as (ps & Hps & ->); [|lia].
    apply guard_ok in Hend as [Hmatch [= <-]].
    exists m, ps. apply negb_false_iff, existsb_true_iff in Hmatch.
    unfold binding_wf, clock_wf, llen in *. go_bool. repeat split; try done; (lia || apply Hps).
  - intros (m & ps & Hm & -> & Hpriv & Hb & Hc & Hps & Hex & ->).
    apply res_bind_ok. exists tt. split; [by apply ValidateGatewayPreviewTarget_ok; eauto|].
    unfold binding_wf, clock_wf, llen in *.
    destruct Hb as (Hb1 & Hb2 & Hb3 & Hb4), Hc as (Hc1 & Hc2 & Hc3).
    apply guard_ok. split.
    { unfold gatewayScopePattern, gatewayInterfacePattern. rewrite Hb1, Hb2. simpl. go_bool.
      repeat split; lia. }
    apply guard_ok. split.
    { rewrite Hc1. simpl. go_bool. repeat split; lia. }
    apply res_bind_ok. rewrite ParseAddr_V4 by done. simpl default.
    eexists. split.
    + apply prefix_loop_ok; [lia|]. eauto.
    + simpl. apply guard_ok. split; [|done].
      apply negb_false_iff, existsb_true_iff. done.
Qed.

(** C7: which gateway review plans exist.  [PreviewGatewayCheck] returns a plan exactly
    when the target is the canonical text of a private IPv4 address, the binding and
    the time are well formed, every enrolled prefix is canonical, of a unicast network
    and listed once, at least one of them contains the target, and in every one that
    does the target is neither the first nor the last address of a private network of
    at most 30 bits.  The plan then carries the sorted prefixes, the fixed budget and an
    expiry thirty seconds after the review was created. *)
Theorem preview_spec binding target now plan :
  PreviewGatewayCheck binding target now = Ok plan ↔
  ∃ m ps, 0 <= m < 2 ^ 32 ∧ target = AddrString (V4 m) ∧ IsPrivate (V4 m) = true ∧
    binding_wf binding ∧ clock_wf (UTC now) ∧
    prefixes_accepted m (Prefixes binding) ps ∧
    Exists (λ p, Contains p (V4 m) = true) ps ∧
    plan = mkGatewayCheckPlan
             (mkGatewayPlanBinding (ScopeID binding) (InterfaceName binding) (InterfaceIndex binding)
                (merge_sort String.le (map PrefixString ps)))
             (V4 m) (UTC now) (Add (UTC now) GatewayReviewLifetime) gatewayBudget.
Proof. apply preview_iff. Qed.

(** A home network of one private prefix, used by the witnesses. *)
Definition home_binding : GatewayPlanBinding :=
  mkGatewayPlanBinding "scope.home" "en0" 4 ["192.168.1.0/24"; "192.168.0.0/16"].
Definition home_time : Time := mkTime (1700000000 * Second) (Some 5000000000) "Local".

Example preview_home :
  is_ok (PreviewGatewayCheck home_binding "192.168.1.1" home_time) = true.
Proof. vm_compute. reflexivity. Qed.
Example preview_broadcast_veto :
  PreviewGatewayCheck home_binding "192.168.1.255" home_time = Err ErrGatewayPlanTarget.
Proof. vm_compute. reflexivity. Qed.
