(* ===== verification/CheckBinding.v ===== *)
(** * Source and target bindings

    [checkbinding/binding.go]: membership of a selected source and target in the
    enrolled prefixes.  The theorems give the exact condition under which a binding is
    accepted, and show that the three range checks of the code (both ends of a prefix
    and the nine excluded ranges) decide that every address of the prefix is an eligible
    host. *)

From S2P Require Import Prelude Regex NetAddr.

Module Binding.

(** [netip.Addr.IsGlobalUnicast] *)
Definition IsGlobalUnicast (a : Addr) : bool :=
  match Unmap a with
  | AddrNone => false
  | V4 n => negb (n =? 0) && negb (n =? 2 ^ 32 - 1) && negb (IsLoopback (V4 n)) &&
            negb (IsMulticast (V4 n)) && negb (IsLinkLocalUnicast (V4 n))
  | V6 n z => negb ((n =? 0) && (z == "")) && negb (IsLoopback (V6 n z)) &&
              negb (IsMulticast (V6 n z)) && negb (IsLinkLocalUnicast (V6 n z))
  end.

(** The first byte of an IPv4 address. *)
Definition first_byte (n : Z) : Z := Z.shiftr n 24.

Definition EligibleHost (a : Addr) : bool :=
  if match a with V4 n => (first_byte n =? 0) || (224 <=? first_byte n) | _ => false end then false
  else IsValid a && IsGlobalUnicast a && negb (IsLoopback a) && negb (Is4In6 a) && (Zone a == "") &&
       negb (IsLinkLocalUnicast a).

(** [netip.Prefix.Overlaps] on valid prefixes *)
Definition Overlaps (p o : Prefix) : bool :=
  if p == o then true
  else if negb (Bool.eqb (Is4 (paddr p)) (Is4 (paddr o))) then false
  else
    let minBits := Z.min (pbits p) (pbits o) in
    if minBits =? 0 then true
    else paddr (Masked (mkPrefix (paddr p) minBits)) == paddr (Masked (mkPrefix (paddr o) minBits)).

Definition excluded_ranges : list string :=
  ["0.0.0.0/8"; "127.0.0.0/8"; "169.254.0.0/16"; "224.0.0.0/3"; "::/128"; "::1/128"; "::ffff:0:0/96";
   "fe80::/10"; "ff00::/8"].

(** [MustParsePrefix] panics on a text that does not parse; none of the nine does. *)
Definition excludedRange (p : Prefix) : bool := existsb (Overlaps p) (omap ParsePrefix excluded_ranges).

Definition lastAddress (p : Prefix) : Addr :=
  match paddr p with
  | V4 n => V4 (set_host_bits 32 (pbits p) n)
  | V6 n _ => V6 (set_host_bits 128 (pbits p) n) ""
  | AddrNone => AddrNone
  end.

Definition subnetHost (p : Prefix) (a : Addr) : bool :=
  if Is6 a then (pbits p =? 128) || (a != paddr p)
  else if 31 <=? pbits p then true
  else (a != paddr p) && (a != lastAddress p).

(** The variables of the loop: [seen], [prefixes], [sourceMember], [targetMember]. *)
Definition binding_step (source target : Addr) (st : list Prefix * list string * bool * bool) (raw : string)
  : result unit (list Prefix * list string * bool * bool) :=
  let '(seen, prefixes, sourceMember, targetMember) := st in
  guard? 64 <? slen raw else tt in
  match ParsePrefix raw with
  | None => Err tt
  | Some prefix =>
      guard? (prefix != Masked prefix) || (PrefixString prefix != raw) || negb (EligibleHost (paddr prefix)) ||
             bool_decide (prefix ∈ seen)
      else tt in
      guard? negb (EligibleHost (lastAddress prefix)) || excludedRange prefix else tt in
      let member (a : Addr) (old : bool) : result unit bool :=
        if negb (Contains prefix a) then Ok old
        else guard? negb (subnetHost prefix a) else tt in Ok true in
      let? sourceMember := member source sourceMember in
      let? targetMember := member target targetMember in
      Ok (prefix :: seen, prefixes ++ [raw], sourceMember, targetMember)
  end.

Definition Validate (source target : Addr) (enrolled : list string) : result unit (list string * bool) :=
  guard? negb (EligibleHost target) else tt in
  guard? negb (EligibleHost source) || negb (Bool.eqb (Is4 source) (Is4 target)) || (source == target) ||
         (llen enrolled =? 0) || (32 <? llen enrolled)
  else tt in
  let? (_, prefixes, sourceMember, targetMember) :=
    for_each (binding_step source target) enrolled ([], [], false, false) in
  guard? negb sourceMember else tt in
  Ok (merge_sort String.le prefixes, targetMember).

(** ** Overlap is a common address *)

Definition width (a : Addr) : Z := addr_bits a.
Definition bits_of (a : Addr) : Z := match a with AddrNone => 0 | V4 n => n | V6 n _ => n end.

(** A prefix as [ParsePrefix] and [Masked] leave it. *)
Definition canonical_prefix (p : Prefix) : Prop :=
  paddr p ≠ AddrNone ∧ Zone (paddr p) = "" ∧ well_formed_addr (paddr p) ∧ p = Masked p ∧ 0 <= pbits p <= width (paddr p).

Definition excluded : list Prefix :=
  [mkPrefix (V4 0) 8; mkPrefix (V4 (127 * 2 ^ 24)) 8; mkPrefix (V4 (43518 * 2 ^ 16)) 16;
   mkPrefix (V4 (7 * 2 ^ 29)) 3; mkPrefix (V6 0 "") 128; mkPrefix (V6 1 "") 128;
   mkPrefix (V6 (65535 * 2 ^ 32) "") 96; mkPrefix (V6 (1018 * 2 ^ 118) "") 10; mkPrefix (V6 (255 * 2 ^ 120) "") 8].

Lemma excluded_parsed : omap ParsePrefix excluded_ranges = excluded.
Proof. vm_compute. reflexivity. Qed.

Lemma same_high a b w k j : 0 <= k <= j → j <= w →
  Z.shiftr (Z.lxor a b) (w - j) = 0 → Z.shiftr (Z.lxor a b) (w - k) = 0.
Proof.
  intros Hk Hj H. replace (w - k) with ((w - j) + (j - k)) by lia.
  rewrite <- Z.shiftr_shiftr by lia. by rewrite H, Z.shiftr_0_l.
Qed.

Lemma mask_low_same a b w k : 0 <= k <= w →
  mask_low w k a = mask_low w k b ↔ Z.shiftr (Z.lxor a b) (w - k) = 0.
Proof.
  intros Hk. unfold mask_low. rewrite Z.shiftr_lxor, Z.lxor_eq_0_iff. split; [|by intros ->].
  intros H%(f_equal (λ z, Z.shiftr z (w - k))). by rewrite !Z.shiftr_shiftl_l, !Z.sub_diag, !Z.shiftl_0_r in H by lia.
Qed.

Lemma same_high_trans a b c w k :
  Z.shiftr (Z.lxor a b) (w - k) = 0 → Z.shiftr (Z.lxor a c) (w - k) = 0 → Z.shiftr (Z.lxor b c) (w - k) = 0.
Proof. rewrite !Z.shiftr_lxor, !Z.lxor_eq_0_iff. congruence. Qed.

Lemma mask_low_zero w n : 0 <= n < 2 ^ w → 0 <= w → Z.shiftr n w = 0.
Proof. intros Hn Hw. rewrite Z.shiftr_div_pow2 by lia. by apply Z.div_small. Qed.

(** The condition [Overlaps] computes on two numbers of one family. *)
Lemma overlap_bits w n m i j :
  0 <= n < 2 ^ w → 0 <= m < 2 ^ w → 0 <= i <= w → 0 <= j <= w →
  n = mask_low w i n → m = mask_low w j m →
  Z.shiftr (Z.lxor n m) (w - Z.min i j) = 0 ↔
  ∃ a, 0 <= a < 2 ^ w ∧ Z.shiftr (Z.lxor a n) (w - i) = 0 ∧ Z.shiftr (Z.lxor a m) (w - j) = 0.
Proof.
  intros Hn Hm Hi Hj Hmn Hmm. split.
  - intros H. destruct (Z.le_ge_cases i j) as [Hle|Hle].
    + exists m. rewrite Z.lxor_nilpotent, Z.shiftr_0_l, (Z.lxor_comm m n).
      by rewrite Z.min_l in H by done.
    + exists n. rewrite Z.lxor_nilpotent, Z.shiftr_0_l. by rewrite Z.min_r in H by done.
  - intros (a & Ha & H1 & H2).
    apply (same_high_trans a); [apply (same_high _ _ _ _ i)|apply (same_high _ _ _ _ j)]; (done || lia).
Qed.

Lemma Overlaps_common p o :
  canonical_prefix p → canonical_prefix o →
  Overlaps p o = true ↔ ∃ a, well_formed_addr a ∧ Contains p a = true ∧ Contains o a = true.
Proof.
  destruct p as [pa i], o as [oa j]. unfold canonical_prefix, Masked, width. cbn [paddr pbits].
  intros (Hp & Hpz & Hpw & Hpm & Hpb) (Ho & Hoz & How & Hom & Hob). unfold Overlaps, Contains. cbn [paddr pbits].
  destruct pa as [|n|n z], oa as [|m|m z']; try done; cbn [Is4 addr_bits Zone well_formed_addr] in *; subst.
  - injection Hpm as Hpm. injection Hom as Hom.
    transitivity (Z.shiftr (Z.lxor n m) (32 - Z.min i j) = 0).
    + case_bool_decide as E. { injection E as -> ->. by rewrite Z.lxor_nilpotent, Z.shiftr_0_l. }
      simpl. destruct (Z.eqb_spec (Z.min i j) 0) as [E0|E0].
      * rewrite E0, Z.sub_0_r, Z.shiftr_lxor, !mask_low_zero by lia. done.
      * rewrite bool_decide_eq_true, <- mask_low_same by lia. split; [by intros [= ->]|by intros ->].
    + rewrite (overlap_bits 32) by (done || lia). split.
      * intros (a & ? & ? & ?). exists (V4 a). by rewrite !Z.eqb_eq.
      * intros ([|a|] & ? & ? & ?); try done. exists a. go_bool. done.
  - rewrite bool_decide_eq_false_2 by done. split; [done|]. intros ([|a|a z] & ? & ? & ?); done.
  - rewrite bool_decide_eq_false_2 by done. split; [done|]. intros ([|a|a z''] & ? & ? & ?); done.
  - injection Hpm as Hpm. injection Hom as Hom.
    transitivity (Z.shiftr (Z.lxor n m) (128 - Z.min i j) = 0).
    + case_bool_decide as E. { injection E as -> ->. by rewrite Z.lxor_nilpotent, Z.shiftr_0_l. }
      simpl. destruct (Z.eqb_spec (Z.min i j) 0) as [E0|E0].
      * rewrite E0, Z.sub_0_r, Z.shiftr_lxor, !mask_low_zero by lia. done.
      * rewrite bool_decide_eq_true, <- mask_low_same by lia. split; [by intros [= ->]|by intros ->].
    + rewrite (overlap_bits 128) by (done || lia). split.
      * intros (a & ? & ? & ?). exists (V6 a ""). by rewrite !andb_true_iff, !Z.eqb_eq.
      * intros ([|a|a z] & ? & ? & ?); try done. exists a. go_bool. done.
Qed.

(** ** The excluded ranges are what eligibility excludes *)

Lemma excluded_canonical : Forall canonical_prefix excluded.
Proof.
  unfold excluded, canonical_prefix.
  repeat (apply Forall_cons; split; [by split_and!; vm_compute|]). constructor.
Qed.

Lemma Contains_excluded_V4 m k n :
  0 <= k <= 32 → m = mask_low 32 k m →
  Contains (mkPrefix (V4 m) k) (V4 n) = false ↔ ¬ (m <= n <= m + (2 ^ (32 - k) - 1)).
Proof. intros Hk Hm. rewrite <- not_true_iff_false. by rewrite Contains_V4_range. Qed.

Lemma Contains_V6_range m k n :
  0 <= k <= 128 → m = mask_low 128 k m →
  Contains (mkPrefix (V6 m "") k) (V6 n "") = true ↔ m <= n <= m + (2 ^ (128 - k) - 1).
Proof. intros Hk Hm. unfold Contains. simpl. rewrite Z.eqb_eq. by apply mask_range. Qed.

Lemma Contains_excluded_V6 m k n :
  0 <= k <= 128 → m = mask_low 128 k m →
  Contains (mkPrefix (V6 m "") k) (V6 n "") = false ↔ ¬ (m <= n <= m + (2 ^ (128 - k) - 1)).
Proof. intros Hk Hm. rewrite <- not_true_iff_false. by rewrite Contains_V6_range. Qed.

Lemma shiftr_eq n k q : 0 <= k → Z.shiftr n k = q ↔ q * 2 ^ k <= n < (q + 1) * 2 ^ k.
Proof.
  intros Hk. rewrite Z.shiftr_div_pow2 by done. assert (0 < 2 ^ k) by (apply Z.pow_pos_nonneg; lia).
  split.
  - intros <-. pose proof (Z.div_mod n (2 ^ k)). pose proof (Z.mod_pos_bound n (2 ^ k)). nia.
  - intros ?. symmetry. apply (Z.div_unique_pos n (2 ^ k) q (n - q * 2 ^ k)); lia.
Qed.

Lemma eligible_V4 n :
  0 <= n < 2 ^ 32 →
  EligibleHost (V4 n) = true ↔ Forall (λ o, Contains o (V4 n) = false) excluded.
Proof.
  intros Hn. unfold excluded. rewrite !Forall_cons, Forall_nil.
  rewrite !Contains_excluded_V4 by (lia || by vm_compute).
  unfold EligibleHost, IsGlobalUnicast, first_byte. cbn [Unmap IsValid Is4In6 Zone].
  unfold IsLoopback, IsMulticast, IsLinkLocalUnicast. cbn [Unmap].
  rewrite if_false_iff, !andb_true_iff, !negb_true_iff, orb_false_iff, !Z.eqb_neq, Z.leb_gt, bool_decide_eq_true.
  rewrite !shiftr_eq by lia.
  assert (Z.shiftr n 24 < 224 ↔ n < 224 * 2 ^ 24) as ->.
  { rewrite Z.shiftr_div_pow2 by lia. split; intros H.
    - pose proof (Z.div_mod n (2 ^ 24)). pose proof (Z.mod_pos_bound n (2 ^ 24)). lia.
    - apply Z.div_lt_upper_bound; lia. }
  cbn [Contains paddr]. split; [intros; split_and!; (done || lia)|]. intros. split_and!; (done || lia).
Qed.

Lemma eligible_V6 n :
  0 <= n < 2 ^ 128 →
  EligibleHost (V6 n "") = true ↔ Forall (λ o, Contains o (V6 n "") = false) excluded.
Proof.
  intros Hn. unfold excluded. rewrite !Forall_cons, Forall_nil.
  rewrite !Contains_excluded_V6 by (lia || by vm_compute).
  unfold EligibleHost. destruct (Is4In6 (V6 n "")) eqn:E4.
  - cbn [Is4In6] in E4. apply Z.eqb_eq, shiftr_eq in E4; [|lia]. cbn [negb].
    rewrite andb_false_r, !andb_false_l. split; [done|]. intros. lia.
  - assert (H : ¬ (65535 * 2 ^ 32 <= n < (65535 + 1) * 2 ^ 32)).
    { rewrite <- shiftr_eq by lia. cbn [Is4In6] in E4. by apply Z.eqb_neq. }
    unfold IsGlobalUnicast, IsLoopback, IsMulticast, IsLinkLocalUnicast. unfold Unmap. rewrite !E4.
    cbn [IsValid Zone]. rewrite (bool_decide_eq_true_2 ("" = "")) by done.
    rewrite !andb_true_r, !andb_true_iff, !negb_true_iff, !Z.eqb_neq, !shiftr_eq by lia.
    cbn [Contains paddr]. split; [intros; split_and!; (done || lia)|]. intros. split_and!; (done || lia).
Qed.

Lemma eligible_excluded a :
  well_formed_addr a → Zone a = "" → a ≠ AddrNone →
  EligibleHost a = true ↔ Forall (λ o, Contains o a = false) excluded.
Proof.
  destruct a as [|n|n z]; intros Hw Hz Ha; [done|by apply eligible_V4|].
  simpl in Hz. subst z. by apply eligible_V6.
Qed.

Lemma Contains_valid p a : Contains p a = true → a ≠ AddrNone ∧ Zone a = "".
Proof. unfold Contains. destruct (paddr p), a; try done. intros. by go_bool. Qed.

Lemma last_in_range w n k :
  0 <= k <= w → 0 <= n < 2 ^ w → n = mask_low w k n →
  0 < 2 ^ (w - k) ∧ n + (2 ^ (w - k) - 1) < 2 ^ w.
Proof.
  intros Hk Hn Hm. assert (0 < 2 ^ (w - k)) as Hpos by (apply Z.pow_pos_nonneg; lia). split; [done|].
  unfold mask_low in Hm. rewrite Z.shiftl_mul_pow2, Z.shiftr_div_pow2 in Hm by lia.
  assert (2 ^ w = 2 ^ k * 2 ^ (w - k)) as Hw by (rewrite <- Z.pow_add_r by lia; f_equal; lia).
  rewrite Hw in *. set (W := 2 ^ (w - k)) in *. set (q := n / W) in *.
  assert (q < 2 ^ k) by nia. nia.
Qed.

Lemma Contains_ends p :
  canonical_prefix p →
  well_formed_addr (lastAddress p) ∧ Contains p (paddr p) = true ∧ Contains p (lastAddress p) = true.
Proof.
  destruct p as [[|n|n z] k]; unfold canonical_prefix, Masked, width, lastAddress;
    cbn [paddr pbits well_formed_addr addr_bits Zone]; intros (Hp & Hz & Hw & Hm & Hb); [done| |].
  - injection Hm as Hm. rewrite set_host_bits_masked by done.
    rewrite !Contains_V4_range by done. destruct (last_in_range 32 n k Hb Hw Hm). split_and!; lia.
  - subst z. injection Hm as Hm. rewrite set_host_bits_masked by done.
    rewrite !Contains_V6_range by done. destruct (last_in_range 128 n k Hb Hw Hm). split_and!; lia.
Qed.

(** The checks of both ends and of the excluded ranges decide that all of the prefix is
    eligible. *)
Definition all_eligible (p : Prefix) : Prop :=
  ∀ a, well_formed_addr a → Contains p a = true → EligibleHost a = true.

Lemma range_checks p :
  canonical_prefix p →
  (EligibleHost (paddr p) = true ∧ EligibleHost (lastAddress p) = true ∧ excludedRange p = false) ↔
  all_eligible p.
Proof.
  intros Hp. destruct (Contains_ends p Hp) as (Hlw & Hc1 & Hc2). pose proof Hp as (_ & _ & Hpw & _).
  unfold excludedRange. rewrite excluded_parsed, existsb_false_iff. split.
  - intros (_ & _ & Hex) a Hw Hc. destruct (Contains_valid p a Hc) as [Hn Hz].
    apply eligible_excluded; [done..|]. apply Forall_forall. intros o Ho.
    rewrite Forall_forall in Hex. specialize (Hex o Ho).
    assert (canonical_prefix o) by (by apply (proj1 (Forall_forall _ _) excluded_canonical)).
    apply not_true_iff_false. intros Hco. apply not_true_iff_false in Hex. apply Hex.
    apply Overlaps_common; eauto.
  - intros Hall. split_and!; [by apply Hall..|]. apply Forall_forall. intros o Ho.
    assert (canonical_prefix o) by (by apply (proj1 (Forall_forall _ _) excluded_canonical)).
    apply not_true_iff_false. intros (a & Hw & Hca & Hco)%Overlaps_common; [|done..].
    pose proof (Hall a Hw Hca) as He. destruct (Contains_valid p a Hca).
    apply eligible_excluded in He; [|done..]. rewrite Forall_forall in He. specialize (He o Ho). congruence.
Qed.

(** ** Which bindings are accepted *)

(** A host of the prefix: in IPv4 neither the first nor the last address of a network of
    at most thirty bits, in IPv6 not the first address unless it is the only one. *)
Definition host_in (p : Prefix) (a : Addr) : Prop :=
  match a with
  | V4 m => 31 <= pbits p ∨ bits_of (paddr p) < m < bits_of (paddr p) + (2 ^ (32 - pbits p) - 1)
  | V6 m _ => pbits p = 128 ∨ bits_of (paddr p) < m
  | AddrNone => False
  end.

Lemma subnetHost_spec p a :
  canonical_prefix p → Contains p a = true → subnetHost p a = true ↔ host_in p a.
Proof.
  destruct p as [pa k]. unfold canonical_prefix, Masked, width, subnetHost, host_in, lastAddress.
  cbn [paddr pbits]. intros (Hp & Hz & Hw & Hm & Hb) Hc. pose proof (Contains_valid _ _ Hc) as [Ha Haz].
  destruct pa as [|n|n z], a as [|m|m z']; try done; cbn [Is6 bits_of Zone addr_bits] in *; subst;
    injection Hm as Hm.
  - rewrite Contains_V4_range in Hc by done. rewrite set_host_bits_masked by done.
    destruct (Z.leb_spec 31 k); [naive_solver|].
    rewrite andb_true_iff, !negb_true_iff, !bool_decide_eq_false. split.
    + intros [H1 H2]. right. assert (m ≠ n) by congruence.
      assert (m ≠ n + (2 ^ (32 - k) - 1)) by congruence. lia.
    + intros [?|H1]; [lia|]. split; intros [= ->]; lia.
  - rewrite Contains_V6_range in Hc by done.
    rewrite orb_true_iff, Z.eqb_eq, negb_true_iff, bool_decide_eq_false. split; intros [H1|H1]; auto; right.
    + assert (m ≠ n) by congruence. lia.
    + intros [= ->]. lia.
Qed.

(** An enrolled prefix that a binding accepts. *)
Definition enrolled_ok (source target : Addr) (raw : string) (p : Prefix) : Prop :=
  slen raw <= 64 ∧ ParsePrefix raw = Some p ∧ p = Masked p ∧ PrefixString p = raw ∧ all_eligible p ∧
  (Contains p source = true → host_in p source) ∧ (Contains p target = true → host_in p target).

Lemma parsed_canonical raw p : ParsePrefix raw = Some p → p = Masked p → canonical_prefix p.
Proof.
  intros Hp Hm. destruct (ParsePrefix_wf _ _ Hp) as (? & ? & ?). pose proof (ParsePrefix_bits _ _ Hp).
  unfold canonical_prefix, width. split_and!; (done || lia).
Qed.

Lemma binding_step_ok source target seen ps sm tm raw st :
  binding_step source target (seen, ps, sm, tm) raw = Ok st ↔
  ∃ p, enrolled_ok source target raw p ∧ p ∉ seen ∧
    st = (p :: seen, ps ++ [raw], sm || Contains p source, tm || Contains p target).
Proof.
  unfold binding_step, enrolled_ok. rewrite guard_ok, Z.ltb_ge.
  destruct (ParsePrefix raw) as [p|] eqn:Hp; [|naive_solver].
  rewrite !guard_ok, !orb_false_iff, !negb_false_iff, !bool_decide_eq_true, bool_decide_eq_false.
  assert (Hm : ∀ a old new, p = Masked p →
    (if negb (Contains p a) then Ok old else guard? negb (subnetHost p a) else tt in Ok true) = Ok new ↔
    (Contains p a = true → host_in p a) ∧ new = old || Contains p a).
  { intros a old new Hmk. destruct (Contains p a) eqn:Hc; simpl.
    - rewrite guard_ok, negb_false_iff, subnetHost_spec, orb_true_r by (done || by eapply parsed_canonical).
      naive_solver.
    - rewrite orb_false_r. naive_solver. }
  split.
  - intros (Hl & (((Hmk & Hs) & He) & Hseen) & (He2 & Hex) & H).
    apply res_bind_ok in H as (x & Hx & (y & Hy & [= <-])%res_bind_ok).
    apply Hm in Hx as [Hx ->]; [|done]. apply Hm in Hy as [Hy ->]; [|done].
    exists p. split_and!; try done. apply range_checks; [by eapply parsed_canonical|]. done.
  - intros (p' & (Hl & [= <-] & Hmk & Hs & Hall & Hsrc & Htgt) & Hseen & ->).
    apply range_checks in Hall as (H1 & H2 & H3); [|by eapply parsed_canonical].
    split_and!; try done. apply res_bind_ok. exists (sm || Contains p source). split; [by apply Hm|].
    apply res_bind_ok. exists (tm || Contains p target). split; [by apply Hm|done].
Qed.

Lemma binding_loop_ok source target raws st :
  for_each (binding_step source target) raws ([], [], false, false) = Ok st ↔
  ∃ ps, Forall2 (enrolled_ok source target) raws ps ∧ NoDup ps ∧
    st = (reverse ps, raws, existsb (λ p, Contains p source) ps, existsb (λ p, Contains p target) ps).
Proof.
  revert st. induction raws as [|raw raws IH] using rev_ind; intros st.
  { simpl. split; [intros [= <-]; exists []; by split_and!; try constructor|].
    intros (ps & Hf & _ & ->). by apply Forall2_nil_inv_l in Hf as ->. }
  rewrite for_each_app, res_bind_ok. setoid_rewrite IH. clear IH. split.
  - intros (? & (ps & Hf & Hn & ->) & (? & (p & Hok & Hs & ->)%binding_step_ok & [= <-])%res_bind_ok).
    exists (ps ++ [p]). rewrite elem_of_reverse in Hs.
    split_and!; [by apply Forall2_app; [|constructor]| |].
    + apply NoDup_app. split_and!; [done| |apply NoDup_singleton]. intros q Hq ->%list_elem_of_singleton. done.
    + rewrite reverse_snoc, !existsb_app. simpl. by rewrite !orb_false_r.
  - intros (psp & Hf & Hn & ->). apply Forall2_app_inv_l in Hf as (ps & last & Hf & Hl & ->).
    apply Forall2_cons_inv_l in Hl as (p & tl & Hok & ->%Forall2_nil_inv_l & ->).
    apply NoDup_app in Hn as (Hn & Hd & _). eexists. split; [by exists ps|].
    apply res_bind_ok. eexists. split; [|done]. apply binding_step_ok. exists p. split_and!; [done| |].
    + rewrite elem_of_reverse. intros Hp. apply (Hd p Hp). by apply list_elem_of_singleton.
    + rewrite reverse_snoc, !existsb_app. simpl. by rewrite !orb_false_r.
Qed.

Lemma validate_binding source target enrolled sorted member :
  Validate source target enrolled = Ok (sorted, member) ↔
  ∃ ps, EligibleHost source = true ∧ EligibleHost target = true ∧ Is4 source = Is4 target ∧ source ≠ target ∧
    (1 ≤ length enrolled ≤ 32)%nat ∧
    Forall2 (enrolled_ok source target) enrolled ps ∧ NoDup ps ∧
    Exists (λ p, Contains p source = true) ps ∧
    sorted = merge_sort String.le enrolled ∧ member = existsb (λ p, Contains p target) ps.
Proof.
  unfold Validate, llen. rewrite !guard_ok, res_bind_ok, !orb_false_iff, !negb_false_iff, Bool.eqb_true_iff,
    bool_decide_eq_false, Z.eqb_neq, Z.ltb_ge.
  setoid_rewrite binding_loop_ok. split.
  - intros (Ht & ((((Hs & H4) & Hne) & Hl1) & Hl2) & (? & (ps & Hf & Hn & ->) & [Hex [= <- <-]]%guard_ok)).
    exists ps. apply negb_false_iff, existsb_true_iff in Hex. split_and!; (done || lia).
  - intros (ps & Hs & Ht & H4 & Hne & Hl & Hf & Hn & Hex & -> & ->). split_and!; try done; [lia..|].
    eexists. split; [by exists ps|]. apply existsb_true_iff in Hex. rewrite Hex. done.
Qed.

(** The prefixes an accepted binding was decided with are the parsed ones, so its answer
    does not depend on their order. *)
Lemma enrolled_parsed source target enrolled ps :
  Forall2 (enrolled_ok source target) enrolled ps → ps = omap ParsePrefix enrolled.
Proof. induction 1 as [|raw p l ps (_ & Hp & _) _ IH]; [done|]. cbn. rewrite Hp. by f_equal. Qed.

Lemma validate_member source target enrolled enrolled' sorted sorted' member member' :
  Validate source target enrolled = Ok (sorted, member) → Validate source target enrolled' = Ok (sorted', member') →
  enrolled ≡ₚ enrolled' → member = member'.
Proof.
  intros (ps & _ & _ & _ & _ & _ & Hf & _ & _ & _ & ->)%validate_binding
    (ps' & _ & _ & _ & _ & _ & Hf' & _ & _ & _ & ->)%validate_binding Hp.
  rewrite (enrolled_parsed _ _ _ _ Hf), (enrolled_parsed _ _ _ _ Hf').
  apply eq_true_iff_eq. rewrite !existsb_true_iff, !Exists_exists. by setoid_rewrite Hp.
Qed.

(** C10: which bindings are accepted.  [Validate] returns exactly when source and target are
    distinct eligible hosts of one family, the enrolled prefixes (one to thirty-two) are
    distinct, in canonical spelling, and contain eligible hosts only, the source is in one
    of them, and both addresses are hosts of every prefix they are in, so that a narrow
    prefix vetoes its network and broadcast address even when a broader one would accept
    it.  It returns the sorted prefixes and whether the target is in one. *)
Theorem binding_spec source target enrolled sorted member :
  Validate source target enrolled = Ok (sorted, member) ↔
  ∃ ps, EligibleHost source = true ∧ EligibleHost target = true ∧ Is4 source = Is4 target ∧ source ≠ target ∧
    (1 ≤ length enrolled ≤ 32)%nat ∧
    Forall2 (enrolled_ok source target) enrolled ps ∧ NoDup ps ∧
    Exists (λ p, Contains p source = true) ps ∧
    sorted = merge_sort String.le enrolled ∧ member = existsb (λ p, Contains p target) ps.
Proof. apply validate_binding. Qed.

Example binding_home :
  Validate (V4 3232235786) (V4 3232235777) ["192.168.1.0/24"; "192.168.0.0/16"] =
  Ok (["192.168.0.0/16"; "192.168.1.0/24"], true).
Proof. vm_compute. reflexivity. Qed.
Example binding_broadcast :
  Validate (V4 3232235786) (V4 3232236031) ["192.168.0.0/16"; "192.168.1.0/24"] = Err tt.
Proof. vm_compute. reflexivity. Qed.
Example binding_loopback_range :
  Validate (V4 2097152001) (V4 2097152002) ["124.0.0.0/6"] = Err tt.
Proof. vm_compute. reflexivity. Qed.

End Binding.
