(* ===== verification/RunControl.v ===== *)
(** * The one-shot run controls

    [gatewayrun/control.go], [resolverrun/control.go] and [httpsrun/control.go] are
    one design: a review is prepared, consumed once after explicit consent, audited
    before and after, executed at most once, and every uncertainty locks the control.
    The three files differ only in what a selection, a sample and an audit event
    are, so the control is modelled once, over the interface [RunPackage] each
    package implements.

    A call is a program of a free monad.  Its effects are the critical sections of
    the mutex, the calls of collaborators (preflight, random source, auditor,
    executor) and the reads of its context; a system is the shared control, a pool of
    calls and the trace of what happened, and the scheduler interleaves the effects of
    the calls in any order.  Clock readings, collaborator answers and cancellations
    are arbitrary. *)

From Stdlib Require Import Ascii.
From S2P Require Import Prelude Regex GoTime NetAddr.

Inductive ctx_err : Type := Canceled | DeadlineExceeded.

Inductive run_err : Type :=
| ErrUnavailable
| ErrBusy
| ErrCooldown
| ErrConsent
| ErrReview
| ErrPreflight
| ErrAudit
| ErrClock
| ErrExecution
| ErrCtx (e : ctx_err).

(** What [safeExecute] keeps of a collaborator's error. *)
Inductive exec_err : Type := ExecCanceled | ExecDeadline | ExecOther.

#[export] Instance ctx_err_eq_dec : EqDecision ctx_err.
Proof. solve_decision. Defined.
#[export] Instance run_err_eq_dec : EqDecision run_err.
Proof. solve_decision. Defined.
#[export] Instance exec_err_eq_dec : EqDecision exec_err.
Proof. solve_decision. Defined.

Definition RunInterval : Duration := Minute.

(** [hex.EncodeToString]: two lower-case digits per byte. *)
Definition EncodeToString (s : string) : string :=
  String.string_of_list_ascii
    (flat_map (λ c, [hex_char (byte_of c / 16); hex_char (byte_of c mod 16)]) (String.list_ascii_of_string s)).

Lemma hex_char_digit d : 0 <= d < 16 → hex_digit (hex_char d) = true.
Proof.
  intros Hd. assert (d ∈ map Z.of_nat (seq 0 16)) as Hin.
  { apply list_elem_of_fmap. exists (Z.to_nat d). split; [lia|]. apply elem_of_seq. lia. }
  revert d Hd Hin. simpl. intros d _ Hin.
  repeat (apply elem_of_cons in Hin as [->|Hin]; [done|]). by apply elem_of_nil in Hin.
Qed.

Lemma EncodeToString_hex s n :
  String.length s = n → MatchString (hex_regex (2 * n)) (EncodeToString s) = true.
Proof.
  intros <-. apply hex_regex_spec. unfold EncodeToString.
  rewrite <- list_ascii_length, String.list_ascii_of_string_of_list_ascii, <- (list_ascii_length s).
  assert (Hb : ∀ c, 0 <= byte_of c < 256).
  { intros c. unfold byte_of. pose proof (N_ascii_bounded c). lia. }
  induction (String.list_ascii_of_string s) as [|c w [IH1 IH2]]; [split; [done|constructor]|].
  cbn [flat_map app length]. split; [lia|]. specialize (Hb c).
  repeat constructor; [..|exact IH2]; apply hex_char_digit.
  - split; [apply Z.div_pos; lia|apply Z.div_lt_upper_bound; lia].
  - apply Z.mod_pos_bound. lia.
Qed.

(** The states, outcomes and reasons [Run] records without a measurement. *)
Definition plain_reports : list (string * string * string) :=
  [("authorized", "", ""); ("admitted", "", ""); ("finished", "canceled", "canceled");
   ("finished", "blocked", "preflight-unavailable"); ("finished", "blocked", "selection-changed");
   ("finished", "blocked", "review-expired"); ("finished", "indeterminate", "execution-panic");
   ("finished", "failed", "measurement-invalid")].

(** ** What a package provides *)

Class RunPackage := {
  Target : Type;
  Selection : Type;
  Sample : Type;
  Event : Type;
  Selection_eq :: EqDecision Selection;
  (** the argument check of [Prepare] *)
  target_ok : Target → bool;
  (** the reading [clockLocked] accepts *)
  clock_ok : Time → bool;
  (** [overlong(start, now)] *)
  overlong : Time → Time → bool;
  (** [normalize(selected, target, now)] *)
  normalize : Selection → Target → Time → option Selection;
  (** the evidence time compared with the start of the operation *)
  evidence_at : Selection → Time;
  plan_expires : Selection → Time;
  route_fresh_until : Selection → Time;
  (** the target revalidation asks for *)
  selection_target : Selection → Target;
  same_selection : Selection → Selection → bool;
  (** the event [record] builds: run id, selection, time, state, outcome, reason, sample *)
  make_event : string → Selection → Time → string → string → string → option Sample → Event;
  event_valid : Event → bool;
  event_state : Event → string;
  event_outcome : Event → string;
  event_run : Event → string;
  (** [validateSample]: sample, execution error, selection, run id, started, returned,
      expires; [None] for an error *)
  validate_sample : Sample → option exec_err → Selection → string → Time → Time → Time
                    → option (option Sample);
  (** a deadline the executor reported is itself a complete measurement *)
  deadline_is_evidence : option Sample → bool;
  event_state_make : ∀ rid s at_ st o r m, event_state (make_event rid s at_ st o r m) = st;
  event_outcome_make : ∀ rid s at_ st o r m, event_outcome (make_event rid s at_ st o r m) = o;
  event_run_make : ∀ rid s at_ st o r m, event_run (make_event rid s at_ st o r m) = rid;
}.

Section Control.
Context {P : RunPackage}.

(** A ticket is 32 random bytes. *)
Definition Ticket := string.
Definition zero_ticket : Ticket := String.string_of_list_ascii (replicate 32 Ascii.zero).

Record pendingReview := mkPending {
  ticket : Ticket;
  selection : Selection;
  expiresAt : Time;
  deadline : Time;
  runID : string;
}.

#[export] Instance pendingReview_eq_dec : EqDecision pendingReview.
Proof. solve_decision. Defined.

Record Review := mkReview {
  review_ticket : Ticket;
  review_selection : Selection;
  review_expires : Time;
}.

Record Result := mkResult {
  result_run : string;
  result_outcome : string;
  result_sample : option Sample;
}.

(** The fields of [Control] its mutex protects.  [collaborators] tells whether all of
    them are present; [activeCancel] is the call whose context it cancels; [drained]
    whether the channel is closed. *)
Record Control := mkControl {
  collaborators : bool;
  pending : option pendingReview;
  busy : bool;
  closed : bool;
  fault : option run_err;
  lastWall : Time;
  notBefore : Time;
  activeCancel : option nat;
  drained : bool;
}.

Definition with_pending (p : option pendingReview) (c : Control) : Control :=
  mkControl (collaborators c) p (busy c) (closed c) (fault c) (lastWall c) (notBefore c)
    (activeCancel c) (drained c).
Definition with_busy (b : bool) (a : option nat) (c : Control) : Control :=
  mkControl (collaborators c) (pending c) b (closed c) (fault c) (lastWall c) (notBefore c)
    a (drained c).
Definition with_closed (c : Control) : Control :=
  mkControl (collaborators c) (pending c) (busy c) true (fault c) (lastWall c) (notBefore c)
    (activeCancel c) (drained c).
Definition with_fault (e : run_err) (c : Control) : Control :=
  mkControl (collaborators c) (pending c) (busy c) (closed c) (Some e) (lastWall c) (notBefore c)
    (activeCancel c) (drained c).
Definition with_lastWall (t : Time) (c : Control) : Control :=
  mkControl (collaborators c) (pending c) (busy c) (closed c) (fault c) t (notBefore c)
    (activeCancel c) (drained c).
Definition with_notBefore (t : Time) (c : Control) : Control :=
  mkControl (collaborators c) (pending c) (busy c) (closed c) (fault c) (lastWall c) t
    (activeCancel c) (drained c).
Definition with_drained (c : Control) : Control :=
  mkControl (collaborators c) (pending c) (busy c) (closed c) (fault c) (lastWall c) (notBefore c)
    (activeCancel c) true.

(** What is observed of a system: the reservations and releases of the control, the
    calls of its collaborators and the cancellations it asks for. *)
Inductive event : Type :=
| EvBegin (i : nat)
| EvIssued (i : nat) (p : pendingReview)
| EvReserved (i : nat) (start : Time) (p : pendingReview)
| EvPreflight (i : nat) (t : Target)
| EvAudited (i : nat) (e : Event) (confirmed : bool)
| EvExecuted (i : nat) (s : Selection) (rid : string)
| EvReleased (i : nat)
| EvRevoked
| EvHalted
| EvCancel (i : nat)
| EvDrained.

(** ** Critical sections *)

(** The body of a critical section: from the clock reading it would take, the error
    of its context and the control to the new control, what is observed and what it
    returns. *)
Definition section (A : Type) := Time → option ctx_err → Control → Control * list event * A.

Definition cancel_active (c : Control) : list event :=
  match activeCancel c with Some i => [EvCancel i] | None => [] end.

Definition NewControl (present : bool) (now : Time) : result run_err Control :=
  if negb (validTime now) || negb (validTime (Add now RunInterval)) then Err ErrClock
  else Ok (mkControl present None false false None (UTC (Round0 now)) (Add now RunInterval) None false).

Definition clockLocked (now : Time) (c : Control) : Control * list event * result run_err Time :=
  match fault c with
  | Some e => (c, [], Err e)
  | None =>
      let wall := UTC (Round0 now) in
      if negb (clock_ok now) || Before wall (lastWall c) then
        (with_pending None (with_fault ErrClock c), EvHalted :: cancel_active c, Err ErrClock)
      else (with_lastWall wall c, [], Ok now)
  end.

Definition availableLocked (c : Control) : option run_err :=
  match fault c with
  | Some e => Some e
  | None => if closed c || negb (collaborators c) then Some ErrUnavailable else None
  end.

Definition signalDrainedLocked (c : Control) : Control * list event :=
  if closed c && negb (busy c) then
    if drained c then (c, []) else (with_drained c, [EvDrained])
  else (c, []).

Definition release (i : nat) : section unit := λ _ _ c,
  let c := with_busy false None c in
  let '(c, evs) := signalDrainedLocked c in
  (c, EvReleased i :: evs, tt).

Definition clock : section (result run_err Time) := λ now _ c, clockLocked now c.

Definition live (p : pendingReview) (now : Time) : bool :=
  Before (UTC (Round0 now)) (expiresAt p) && Before now (deadline p).

Definition pending_live (c : Control) (now : Time) : bool :=
  match pending c with Some p => live p now | None => false end.

(** The section that admits a preparation: lines up to the first unlock. *)
Definition prepare_begin (i : nat) : section (result run_err Time) := λ now _ c,
  match availableLocked c with
  | Some e => (c, [], Err e)
  | None =>
      let '(c, evs, r) := clockLocked now c in
      match r with
      | Err e => (c, evs, Err e)
      | Ok start =>
          if busy c then (c, evs, Err ErrBusy)
          else if Before start (notBefore c) then (c, evs, Err ErrCooldown)
          else if pending_live c start then (c, evs, Err ErrBusy)
          else (with_busy true (Some i) (with_pending None c), evs ++ [EvBegin i], Ok start)
      end
  end.

(** The section that publishes the review. *)
Definition prepare_commit (i : nat) (start : Time) (target : Target) (selected : Selection)
    (tk : Ticket) (run : string) : section (result run_err Review) := λ now ctx c,
  let '(c, evs, r) := clockLocked now c in
  match r with
  | Err e => (c, evs, Err e)
  | Ok now =>
      match availableLocked c with
      | Some e => (c, evs, Err e)
      | None =>
          match ctx with
          | Some e => (c, evs, Err (ErrCtx e))
          | None =>
              if overlong start now then (c, evs, Err ErrPreflight)
              else match normalize selected target (UTC (Round0 now)) with
                   | None => (c, evs, Err ErrPreflight)
                   | Some selected =>
                       if Before (evidence_at selected) (UTC (Round0 start)) then (c, evs, Err ErrPreflight)
                       else
                         let expires := plan_expires selected in
                         let expires := if Before (route_fresh_until selected) expires
                                        then route_fresh_until selected else expires in
                         let p := mkPending tk selected expires
                                    (Add now (Sub expires (UTC (Round0 now)))) (EncodeToString run) in
                         (with_pending (Some p) c, evs ++ [EvIssued i p], Ok (mkReview tk selected expires))
                   end
          end
      end
  end.

(** The section that consumes a review and reserves the control. *)
Definition run_reserve (i : nat) (tk : Ticket) : section (result run_err (Time * pendingReview)) :=
  λ now _ c,
  match availableLocked c with
  | Some e => (c, [], Err e)
  | None =>
      let '(c, evs, r) := clockLocked now c in
      match r with
      | Err e => (c, evs, Err e)
      | Ok start =>
          match pending c with
          | None => (c, evs, Err ErrReview)
          | Some approved =>
              if tk != ticket approved then (c, evs, Err ErrReview)
              else
                let c := with_pending None c in
                if negb (live approved start) then (c, evs ++ [EvRevoked], Err ErrReview)
                else if busy c || Before start (notBefore c) then (c, evs ++ [EvRevoked], Err ErrBusy)
                else (with_notBefore (Add start RunInterval) (with_busy true (Some i) c),
                      evs ++ [EvReserved i start approved], Ok (start, approved))
          end
      end
  end.

(** The section of [record] that locks the control after an unconfirmed audit. *)
Definition fail_audit : section unit := λ _ _ c,
  (with_pending None (with_fault ErrAudit c), EvHalted :: cancel_active c, tt).

Definition close_section : section unit := λ _ _ c,
  let c := with_pending None (with_closed c) in
  let '(c', evs) := signalDrainedLocked c in
  (c', EvHalted :: cancel_active c ++ evs, tt).

Definition discard_section (tk : Ticket) : section unit := λ _ _ c,
  match pending c with
  | Some p => if tk == ticket p then (with_pending None c, [EvRevoked], tt) else (c, [], tt)
  | None => (c, [], tt)
  end.

(** ** Calls as programs *)

Inductive exec_outcome : Type :=
| Executed (s : Sample) (e : option exec_err)
| Panicked.

(** One constructor per effect: a critical section, a collaborator call, a read of the
    context of the call or of the cleanup context of [finish], a poll of the drain
    channel and the blocking [select] of [Shutdown]. *)
Inductive prog (R : Type) : Type :=
| Ret (r : R)
| Locked {A : Type} (f : section A) (k : A → prog R)
| CallPreflight (t : Target) (k : option Selection → prog R)
| CallRandom (n : nat) (k : option string → prog R)
| CallAudit (e : Event) (k : bool → prog R)
| CallExecute (s : Selection) (rid : string) (k : exec_outcome → prog R)
| ReadCtx (k : option ctx_err → prog R)
| ReadCleanupCtx (k : option ctx_err → prog R)
| ReadDrained (k : bool → prog R)
| WaitDrained (k : option ctx_err → prog R).
Arguments Ret {R} r.
Arguments Locked {R A} f k.
Arguments CallPreflight {R} t k.
Arguments CallRandom {R} n k.
Arguments CallAudit {R} e k.
Arguments CallExecute {R} s rid k.
Arguments ReadCtx {R} k.
Arguments ReadCleanupCtx {R} k.
Arguments ReadDrained {R} k.
Arguments WaitDrained {R} k.

Fixpoint bind {R S : Type} (p : prog R) (f : R → prog S) : prog S :=
  match p with
  | Ret r => f r
  | Locked g k => Locked g (λ x, bind (k x) f)
  | CallPreflight t k => CallPreflight t (λ x, bind (k x) f)
  | CallRandom n k => CallRandom n (λ x, bind (k x) f)
  | CallAudit e k => CallAudit e (λ x, bind (k x) f)
  | CallExecute s rid k => CallExecute s rid (λ x, bind (k x) f)
  | ReadCtx k => ReadCtx (λ x, bind (k x) f)
  | ReadCleanupCtx k => ReadCleanupCtx (λ x, bind (k x) f)
  | ReadDrained k => ReadDrained (λ x, bind (k x) f)
  | WaitDrained k => WaitDrained (λ x, bind (k x) f)
  end.

(** [x <~ e ;; k] performs one effect, [x <== p ;; k] a whole program. *)
Local Notation "x <~ e ;; k" := (e (λ x, k)) (at level 60, e at next level, right associativity).
Local Notation "x <== p ;; k" := (bind p (λ x, k)) (at level 60, p at next level, right associativity).

(** The body of [Prepare] between its two critical sections; the deferred release
    follows every way out of it. *)
Definition prepare_body (i : nat) (target : Target) (start : Time) : prog (result run_err Review) :=
  selected <~ CallPreflight target ;;
  match selected with
  | None => Ret (Err ErrPreflight)
  | Some selected =>
      tk <~ CallRandom 32 ;;
      match tk with
      | None => Ret (Err ErrUnavailable)
      | Some tk =>
          run <~ CallRandom 16 ;;
          match run with
          | None => Ret (Err ErrUnavailable)
          | Some run =>
              if tk == zero_ticket then Ret (Err ErrUnavailable)
              else out <~ Locked (prepare_commit i start target selected tk run) ;; Ret out
          end
      end
  end.

Definition Prepare (i : nat) (target : Target) : prog (result run_err Review) :=
  ctx <~ ReadCtx ;;
  match ctx with
  | Some e => Ret (Err (ErrCtx e))
  | None =>
      if negb (target_ok target) then Ret (Err ErrPreflight)
      else
        r <~ Locked (prepare_begin i) ;;
        match r with
        | Err e => Ret (Err e)
        | Ok start =>
            out <== prepare_body i target start ;;
            u <~ Locked (release i) ;;
            Ret out
        end
  end.

(** [record]: the event carries a fresh clock reading; an invalid event, an
    unconfirmed write and an expired context all lock the control.  [cleanup] selects
    the separate deadline of the terminal audit. *)
Definition record (p : pendingReview) (state outcome reason : string) (sample : option Sample)
    (cleanup : bool) : prog (option run_err) :=
  now <~ Locked clock ;;
  match now with
  | Err e => Ret (Some e)
  | Ok now =>
      let e := make_event (runID p) (selection p) (UTC (Round0 now)) state outcome reason sample in
      confirmed <== (if event_valid e then (b <~ CallAudit e ;; Ret b) else Ret false) ;;
      if negb confirmed then (u <~ Locked fail_audit ;; Ret (Some ErrAudit))
      else
        ctx <~ (if cleanup then ReadCleanupCtx else ReadCtx) ;;
        match ctx with
        | Some _ => u <~ Locked fail_audit ;; Ret (Some ErrAudit)
        | None => Ret None
        end
  end.

Definition finish (p : pendingReview) (outcome reason : string) (measured : option Sample)
    (cause : option run_err) : prog (option Result * option run_err) :=
  r <== record p "finished" outcome reason measured true ;;
  match r with
  | Some e => Ret (None, Some e)
  | None => Ret (Some (mkResult (runID p) outcome measured), cause)
  end.

(** The last part of [Run]: what the executor returned is validated, then the outcome
    is decided by cancellation, expiry and the execution error, in this order. *)
Definition run_settle (i : nat) (approved : pendingReview) (start executionStarted : Time)
    (fresh : Selection) (sample : Sample) (executionErr : option exec_err)
  : prog (option Result * option run_err) :=
  now <~ Locked clock ;;
  match now with
  | Err e => Ret (None, Some e)
  | Ok now =>
      match validate_sample sample executionErr fresh (runID approved) executionStarted
              (UTC (Round0 now)) (expiresAt approved) with
      | None => finish approved "failed" "measurement-invalid" None (Some ErrExecution)
      | Some measured =>
          ctx <~ ReadCtx ;;
          match ctx with
          | Some e => finish approved "canceled" "canceled" measured (Some (ErrCtx e))
          | None =>
              if negb (live approved now) || overlong start now then
                finish approved "canceled" "canceled" measured (Some (ErrCtx DeadlineExceeded))
              else match executionErr with
                   | Some ExecCanceled =>
                       finish approved "canceled" "canceled" measured (Some (ErrCtx Canceled))
                   | Some ExecDeadline =>
                       if deadline_is_evidence measured then finish approved "completed" "" measured None
                       else finish approved "canceled" "canceled" measured (Some (ErrCtx DeadlineExceeded))
                   | Some ExecOther =>
                       finish approved "failed" "execution-error" measured (Some ErrExecution)
                   | None => finish approved "completed" "" measured None
                   end
          end
      end
  end.

(** From the durable admission to the executor. *)
Definition run_admitted (i : nat) (approved : pendingReview) (start : Time) (fresh : Selection)
  : prog (option Result * option run_err) :=
  r <== record approved "admitted" "" "" None false ;;
  match r with
  | Some e => Ret (None, Some e)
  | None =>
      now <~ Locked clock ;;
      match now with
      | Err e => Ret (None, Some e)
      | Ok now =>
          ctx <~ ReadCtx ;;
          match ctx with
          | Some e => finish approved "canceled" "canceled" None (Some (ErrCtx e))
          | None =>
              if negb (live approved now) || overlong start now then
                finish approved "blocked" "review-expired" None (Some ErrReview)
              else
                out <~ CallExecute fresh (runID approved) ;;
                match out with
                | Panicked => finish approved "indeterminate" "execution-panic" None (Some ErrExecution)
                | Executed sample executionErr =>
                    run_settle i approved start (UTC (Round0 now)) fresh sample executionErr
                end
          end
      end
  end.

(** Revalidation after the durable authorization. *)
Definition run_authorized (i : nat) (approved : pendingReview) (start : Time)
  : prog (option Result * option run_err) :=
  ctx <~ ReadCtx ;;
  match ctx with
  | Some e => finish approved "canceled" "canceled" None (Some (ErrCtx e))
  | None =>
      fresh <~ CallPreflight (selection_target (selection approved)) ;;
      ctx <~ ReadCtx ;;
      match ctx with
      | Some e => finish approved "canceled" "canceled" None (Some (ErrCtx e))
      | None =>
          match fresh with
          | None => finish approved "blocked" "preflight-unavailable" None (Some ErrPreflight)
          | Some fresh =>
              now <~ Locked clock ;;
              match now with
              | Err e => Ret (None, Some e)
              | Ok now =>
                  if negb (live approved now) || overlong start now then
                    finish approved "blocked" "review-expired" None (Some ErrReview)
                  else match normalize fresh (selection_target (selection approved)) (UTC (Round0 now)) with
                       | None => finish approved "blocked" "preflight-unavailable" None (Some ErrPreflight)
                       | Some fresh =>
                           if Before (evidence_at fresh) (UTC (Round0 start)) then
                             finish approved "blocked" "preflight-unavailable" None (Some ErrPreflight)
                           else if negb (same_selection (selection approved) fresh) then
                             finish approved "blocked" "selection-changed" None (Some ErrPreflight)
                           else run_admitted i approved start fresh
                       end
              end
          end
      end
  end.

Definition run_body (i : nat) (approved : pendingReview) (start : Time)
  : prog (option Result * option run_err) :=
  ctx <~ ReadCtx ;;
  match ctx with
  | Some e => Ret (None, Some (ErrCtx e))
  | None =>
      r <== record approved "authorized" "" "" None false ;;
      match r with
      | Some e => Ret (None, Some e)
      | None => run_authorized i approved start
      end
  end.

Definition Run (i : nat) (tk : Ticket) (consent : bool) : prog (option Result * option run_err) :=
  if negb consent then Ret (None, Some ErrConsent)
  else
    r <~ Locked (run_reserve i tk) ;;
    match r with
    | Err e => Ret (None, Some e)
    | Ok (start, approved) =>
        out <== run_body i approved start ;;
        u <~ Locked (release i) ;;
        Ret out
    end.

Definition Close : prog unit := r <~ Locked close_section ;; Ret r.

Definition Discard (tk : Ticket) : prog unit := r <~ Locked (discard_section tk) ;; Ret r.

(** [Shutdown] returns nil only when the drain channel is closed; an expired context
    only ends the wait. *)
Definition Shutdown : prog (option ctx_err) :=
  u <== Close ;;
  now <~ ReadDrained ;;
  if now then Ret None else (r <~ WaitDrained ;; Ret r).

End Control.

Arguments section {P} A.
Arguments prog {P} R.
Arguments Ret {P R} r.
Arguments Locked {P R A} f k.
Arguments CallPreflight {P R} t k.
Arguments CallRandom {P R} n k.
Arguments CallAudit {P R} e k.
Arguments CallExecute {P R} s rid k.
Arguments ReadCtx {P R} k.
Arguments ReadCleanupCtx {P R} k.
Arguments ReadDrained {P R} k.
Arguments WaitDrained {P R} k.
