(* ===== verification/RunSpec.v ===== *)
(** * What a run control promises

    The system of a control: the shared state, any number of concurrent calls, the
    cancelled contexts and the trace.  The contract is the automaton [spec_step] on the
    events of the trace; [refinement] shows, by a simulation, that every trace of every
    system is accepted by it.  The safety properties of the control are then read off
    the automaton. *)

From S2P Require Import Prelude GoTime RunControl.

Section RunSpec.
Context {P : RunPackage}.

(** ** The system *)

Inductive call : Type :=
| CPrepare (t : Target)
| CRun (tk : Ticket) (consent : bool)
| CClose
| CDiscard (tk : Ticket)
| CShutdown.

Inductive answer : Type :=
| AReview (r : result run_err Review)
| AResult (r : option Result * option run_err)
| AUnit
| AShutdown (r : option ctx_err).

Definition body (i : nat) (cl : call) : prog answer :=
  match cl with
  | CPrepare t => bind (Prepare i t) (λ r, Ret (AReview r))
  | CRun tk consent => bind (Run i tk consent) (λ r, Ret (AResult r))
  | CClose => bind Close (λ _, Ret AUnit)
  | CDiscard tk => bind (Discard tk) (λ _, Ret AUnit)
  | CShutdown => bind Shutdown (λ r, Ret (AShutdown r))
  end.

(** What the environment answers at one step: every effect reads its own field. *)
Record oracle := mkOracle {
  o_now : Time;
  o_preflight : option Selection;
  o_random : option string;
  o_audit : bool;
  o_execute : exec_outcome;
  o_cleanup : option ctx_err;
  o_pick : bool;
}.

(** [io.ReadFull] of [n] bytes: a short read is an error. *)
Definition read_full (n : nat) (r : option string) : option string :=
  match r with
  | Some s => if Nat.eqb (String.length s) n then Some s else None
  | None => None
  end.

(** One step of call [i], whose context has the error [ctx]; [None] while it blocks. *)
Definition run1 (i : nat) (o : oracle) (ctx : option ctx_err) (c : Control) (p : prog answer)
  : option (Control * list event * prog answer) :=
  match p with
  | Ret _ => None
  | Locked f k => let '(c, evs, a) := f (o_now o) ctx c in Some (c, evs, k a)
  | CallPreflight t k => Some (c, [EvPreflight i t], k (o_preflight o))
  | CallRandom n k => Some (c, [], k (read_full n (o_random o)))
  | CallAudit e k => Some (c, [EvAudited i e (o_audit o)], k (o_audit o))
  | CallExecute s rid k => Some (c, [EvExecuted i s rid], k (o_execute o))
  | ReadCtx k => Some (c, [], k ctx)
  | ReadCleanupCtx k => Some (c, [], k (o_cleanup o))
  | ReadDrained k => Some (c, [], k (drained c))
  | WaitDrained k =>
      match drained c, ctx with
      | true, None => Some (c, [], k None)
      | true, Some e => Some (c, [], k (if o_pick o then None else Some e))
      | false, Some e => Some (c, [], k (Some e))
      | false, None => None
      end
  end.

Record system := mkSystem {
  ctl : Control;
  calls : gmap nat (prog answer);
  canceled : gmap nat ctx_err;
  trace : list event;
}.

(** The contexts the control cancels: [context.CancelFunc] has no effect on a context
    that is done already. *)
Definition cancel_all (evs : list event) (m : gmap nat ctx_err) : gmap nat ctx_err :=
  foldl (λ m ev, match ev with
                 | EvCancel i => match m !! i with Some _ => m | None => <[i:=Canceled]> m end
                 | _ => m
                 end) m evs.

Inductive step : system → system → Prop :=
| step_spawn c m x tr i cl :
    m !! i = None →
    step (mkSystem c m x tr) (mkSystem c (<[i:=body i cl]> m) x tr)
| step_expire c m x tr i e :
    x !! i = None →
    step (mkSystem c m x tr) (mkSystem c m (<[i:=e]> x) tr)
| step_call c m x tr i p o c' evs p' :
    m !! i = Some p →
    run1 i o (x !! i) c p = Some (c', evs, p') →
    step (mkSystem c m x tr) (mkSystem c' (<[i:=p']> m) (cancel_all evs x) (tr ++ evs)).

(** A control is constructed once, then called. *)
Inductive reachable (present : bool) (start : Time) : system → Prop :=
| reach_init c :
    NewControl present start = Ok c →
    reachable present start (mkSystem c ∅ ∅ [])
| reach_step x y : reachable present start x → step x y → reachable present start y.

(** ** Schedules

    An executable scheduler: every schedule it accepts is a run of the system. *)
Inductive action : Type :=
| ASpawn (i : nat) (cl : call)
| AExpire (i : nat) (e : ctx_err)
| AStep (i : nat) (o : oracle).

Definition perform (x : system) (a : action) : option system :=
  match a with
  | ASpawn i cl =>
      match calls x !! i with
      | None => Some (mkSystem (ctl x) (<[i:=body i cl]> (calls x)) (canceled x) (trace x))
      | Some _ => None
      end
  | AExpire i e =>
      match canceled x !! i with
      | None => Some (mkSystem (ctl x) (calls x) (<[i:=e]> (canceled x)) (trace x))
      | Some _ => None
      end
  | AStep i o =>
      match calls x !! i with
      | Some p =>
          match run1 i o (canceled x !! i) (ctl x) p with
          | Some (c', evs, p') =>
              Some (mkSystem c' (<[i:=p']> (calls x)) (cancel_all evs (canceled x)) (trace x ++ evs))
          | None => None
          end
      | None => None
      end
  end.

Fixpoint schedule (acts : list action) (x : system) : option system :=
  match acts with
  | [] => Some x
  | a :: rest => match perform x a with Some y => schedule rest y | None => None end
  end.

Lemma perform_step x a y : perform x a = Some y → step x y.
Proof.
  destruct x as [c m k tr]. destruct a as [i cl|i e|i o]; simpl.
  - destruct (m !! i) eqn:E; [done|]. intros [= <-]. by apply step_spawn.
  - destruct (k !! i) eqn:E; [done|]. intros [= <-]. by apply step_expire.
  - destruct (m !! i) as [p|] eqn:E; [|done].
    destruct (run1 i o (k !! i) c p) as [[[c' evs] p']|] eqn:Er; [|done].
    intros [= <-]. by eapply step_call.
Qed.

Lemma schedule_steps acts x y : schedule acts x = Some y → rtc step x y.
Proof.
  revert x. induction acts as [|a acts IH]; simpl; intros x; [intros [= ->]; constructor|].
  destruct (perform x a) as [z|] eqn:E; [|done]. intros Hs.
  eapply rtc_l; [by eapply perform_step|eauto].
Qed.

Lemma reachable_steps present start x y :
  reachable present start x → rtc step x y → reachable present start y.
Proof. intros Hx Hs. induction Hs; eauto using reach_step. Qed.

(** The system a schedule leads to from construction. *)
Definition scheduled (present : bool) (start : Time) (acts : list action) : option system :=
  match NewControl present start with
  | Ok c => schedule acts (mkSystem c ∅ ∅ [])
  | Err _ => None
  end.

Lemma scheduled_reachable present start acts sys :
  scheduled present start acts = Some sys → reachable present start sys.
Proof.
  unfold scheduled. destruct (NewControl present start) as [c|] eqn:E; [|done]. intros Hs.
  eapply reachable_steps; [by apply reach_init|by eapply schedule_steps].
Qed.

(** ** The contract *)

(** How far the audited execution of a consumed review has come. *)
Inductive stage : Type := Reserved | Authorized | AdmittedRun | Performed | Ended.

Inductive phase : Type :=
| Free
| Preparing (i : nat) (issued : bool)
| Running (i : nat) (p : pendingReview) (st : stage).

Record spec := mkSpec {
  sp_phase : phase;
  sp_review : option pendingReview;
  sp_notBefore : Time;
  sp_halted : bool;
  sp_drained : bool;
}.

Definition sp_init (start : Time) : spec := mkSpec Free None (Add start RunInterval) false false.

Definition owner (ph : phase) : option nat :=
  match ph with Free => None | Preparing i _ => Some i | Running i _ _ => Some i end.

(** Where an audit event moves an execution; [None] for an event out of order.  A
    completed outcome needs an execution. *)
Definition audit_stage (st : stage) (state outcome : string) (confirmed : bool) : option stage :=
  let next s := Some (if confirmed then s else Ended) in
  if state == "authorized" then
    match st with Reserved => next Authorized | _ => None end
  else if state == "admitted" then
    match st with Authorized => next AdmittedRun | _ => None end
  else if state == "finished" then
    match st with
    | Authorized | AdmittedRun => if outcome == "completed" then None else Some Ended
    | Performed => Some Ended
    | _ => None
    end
  else None.

(** The collaborator calls the owner of the control may make. *)
Definition phase_step (ph : phase) (ev : event) : option phase :=
  match ph, ev with
  | Preparing i false, EvPreflight j _ => if i == j then Some ph else None
  | Running i p Authorized, EvPreflight j _ => if i == j then Some ph else None
  | Running i p st, EvAudited j e ok =>
      if (i == j) && event_valid e && (event_run e == runID p) then
        match audit_stage st (event_state e) (event_outcome e) ok with
        | Some st' => Some (Running i p st')
        | None => None
        end
      else None
  | Running i p AdmittedRun, EvExecuted j s rid =>
      if (i == j) && same_selection (selection p) s && (rid == runID p)
      then Some (Running i p Performed) else None
  | _, _ => None
  end.

Definition with_phase (ph : phase) (s : spec) : spec :=
  mkSpec ph (sp_review s) (sp_notBefore s) (sp_halted s) (sp_drained s).

Definition spec_step (s : spec) (ev : event) : option spec :=
  match ev with
  | EvBegin i =>
      match sp_phase s with
      | Free => if sp_halted s then None
                else Some (mkSpec (Preparing i false) None (sp_notBefore s) false (sp_drained s))
      | _ => None
      end
  | EvIssued i p =>
      match sp_phase s, sp_review s with
      | Preparing j false, None => if negb (sp_halted s) && (i == j)
                             then Some (mkSpec (Preparing j true) (Some p) (sp_notBefore s) false (sp_drained s))
                             else None
      | _, _ => None
      end
  | EvReserved i start p =>
      match sp_phase s, sp_review s with
      | Free, Some q =>
          if negb (sp_halted s) && bool_decide (q = p) && live p start
             && negb (Before start (sp_notBefore s))
          then Some (mkSpec (Running i p Reserved) None (Add start RunInterval) false (sp_drained s))
          else None
      | _, _ => None
      end
  | EvReleased i =>
      if bool_decide (owner (sp_phase s) = Some i) then Some (with_phase Free s) else None
  | EvRevoked => Some (mkSpec (sp_phase s) None (sp_notBefore s) (sp_halted s) (sp_drained s))
  | EvHalted => Some (mkSpec (sp_phase s) None (sp_notBefore s) true (sp_drained s))
  | EvCancel i => if bool_decide (owner (sp_phase s) = Some i) then Some s else None
  | EvDrained =>
      match sp_phase s with
      | Free => if sp_halted s then Some (mkSpec Free (sp_review s) (sp_notBefore s) true true) else None
      | _ => None
      end
  | _ =>
      match phase_step (sp_phase s) ev with
      | Some ph => Some (with_phase ph s)
      | None => None
      end
  end.

Fixpoint spec_run (s : spec) (evs : list event) : option spec :=
  match evs with
  | [] => Some s
  | ev :: rest => match spec_step s ev with Some s' => spec_run s' rest | None => None end
  end.

Lemma spec_run_app s xs ys s' :
  spec_run s xs = Some s' → spec_run s (xs ++ ys) = spec_run s' ys.
Proof.
  revert s. induction xs as [|x xs IH]; simpl; [by intros ? [= ->]|].
  intros s. destruct (spec_step s x); [apply IH|done].
Qed.

Lemma spec_run_app_inv s xs ys s' :
  spec_run s (xs ++ ys) = Some s' → ∃ t, spec_run s xs = Some t ∧ spec_run t ys = Some s'.
Proof.
  revert s. induction xs as [|x xs IH]; simpl; [by eauto|].
  intros s. destruct (spec_step s x); [apply IH|done].
Qed.

(** ** The simulation *)

(** The control implements a state of the contract. *)
Record sim (c : Control) (s : spec) : Prop := mkSim {
  sim_cancel : activeCancel c = owner (sp_phase s);
  sim_busy : busy c = bool_decide (is_Some (owner (sp_phase s)));
  sim_pending : pending c = sp_review s;
  sim_notBefore : notBefore c = sp_notBefore s;
  sim_halted : sp_halted s = closed c || bool_decide (is_Some (fault c));
  sim_drained : drained c = sp_drained s;
  sim_joined : drained c = true → closed c = true ∧ owner (sp_phase s) = None;
  sim_unissued : ∀ i, sp_phase s = Preparing i false → sp_review s = None;
}.

(** What call [i] knows of the phase: its own reservation. *)
Definition own (i : nat) (ph : phase) : phase :=
  if bool_decide (owner ph = Some i) then ph else Free.

Definition others (i : nat) (ph ph' : phase) : Prop := ∀ j, j ≠ i → own j ph' = own j ph.

(** A critical section of call [i] keeps the simulation, extends the accepted trace,
    leaves the reservation of the other calls alone and establishes [Q] of its own. *)
Definition sec_ok {A} (i : nat) (ph : phase) (f : section A) (Q : phase → A → Prop) : Prop :=
  ∀ now ctx c s, sim c s → own i (sp_phase s) = ph →
  match f now ctx c with
  | (c', evs, a) =>
      ∃ s', spec_run s evs = Some s' ∧ sim c' s' ∧ others i (sp_phase s) (sp_phase s') ∧
            (drained c = true → drained c' = true) ∧ Q (own i (sp_phase s')) a
  end.

(** The local part of the simulation: from reservation [ph] the program makes only the
    steps the contract allows, and ends in [Q].  [d] records that the drain channel was
    seen closed. *)
Fixpoint safe {R} (i : nat) (ph : phase) (d : bool) (p : prog R) (Q : phase → bool → R → Prop) : Prop :=
  match p with
  | Ret r => Q ph d r
  | Locked f k => sec_ok i ph f (λ ph' a, safe i ph' d (k a) Q)
  | CallPreflight t k =>
      ∃ ph', phase_step ph (EvPreflight i t) = Some ph' ∧ ∀ r, safe i ph' d (k r) Q
  | CallRandom n k => ∀ r, safe i ph d (k r) Q
  | CallAudit e k =>
      ∀ ok, ∃ ph', phase_step ph (EvAudited i e ok) = Some ph' ∧ safe i ph' d (k ok) Q
  | CallExecute s rid k =>
      ∃ ph', phase_step ph (EvExecuted i s rid) = Some ph' ∧ ∀ r, safe i ph' d (k r) Q
  | ReadCtx k => ∀ r, safe i ph d (k r) Q
  | ReadCleanupCtx k => ∀ r, safe i ph d (k r) Q
  | ReadDrained k => safe i ph true (k true) Q ∧ safe i ph d (k false) Q
  | WaitDrained k => safe i ph true (k None) Q ∧ ∀ e, safe i ph d (k (Some e)) Q
  end.

Lemma sec_ok_mono {A} i ph (f : section A) (Q Q' : phase → A → Prop) :
  sec_ok i ph f Q → (∀ ph' a, Q ph' a → Q' ph' a) → sec_ok i ph f Q'.
Proof.
  intros Hs HQ now ctx c s Hsim Hown. specialize (Hs now ctx c s Hsim Hown).
  destruct (f now ctx c) as [[c' evs] a].
  destruct Hs as (s' & ? & ? & ? & ? & ?). exists s'. eauto 10.
Qed.

Lemma safe_locked {R A} i ph d (f : section A) (k : A → prog R) Q Q' :
  sec_ok i ph f Q → (∀ ph' a, Q ph' a → safe i ph' d (k a) Q') → safe i ph d (Locked f k) Q'.
Proof. apply sec_ok_mono. Qed.

Lemma safe_bind {R S} i ph d (p : prog R) (f : R → prog S) Q Q' :
  safe i ph d p Q → (∀ ph' d' r, Q ph' d' r → safe i ph' d' (f r) Q') →
  safe i ph d (bind p f) Q'.
Proof.
  intros Hp Hf. revert ph d Hp.
  induction p as [r|A g k IH|t k IH|n k IH|e k IH|s rid k IH|k IH|k IH|k IH|k IH];
    intros ph d; cbn [safe bind]; try by eauto.
  - intros Hg. eapply sec_ok_mono; [exact Hg|]. simpl. eauto.
  - intros (ph' & ? & ?). eauto 10.
  - intros Hok ok. destruct (Hok ok) as (ph' & ? & ?). eauto 10.
  - intros (ph' & ? & ?). eauto 10.
  - intros [? ?]. eauto.
  - intros [? ?]. eauto.
Qed.

(** *** Critical sections *)

Lemma own_owner i ph ph' : own i ph = ph' → ph' ≠ Free → ph = ph' ∧ owner ph = Some i.
Proof. unfold own. case_bool_decide; naive_solver. Qed.

Lemma own_self i ph : owner ph = Some i → own i ph = ph.
Proof. unfold own. intros ->. by rewrite bool_decide_eq_true_2. Qed.

Lemma own_free i ph : owner ph = None → own i ph = Free.
Proof. unfold own. intros ->. by rewrite bool_decide_eq_false_2. Qed.

Definition held_by (i : nat) (ph : phase) : Prop := owner ph = Some i ∨ owner ph = None.

Lemma others_held i ph ph' : held_by i ph → held_by i ph' → others i ph ph'.
Proof.
  intros H H' j Hj. unfold own, held_by in *.
  repeat case_bool_decide; try done; naive_solver.
Qed.

Lemma fault_halts c s e : sim c s → fault c = Some e → sp_halted s = true.
Proof. intros H E. rewrite (sim_halted _ _ H), E. by destruct (closed c). Qed.

Lemma available_running c s : sim c s → availableLocked c = None → sp_halted s = false ∧ closed c = false ∧ fault c = None.
Proof.
  intros H. unfold availableLocked. rewrite (sim_halted _ _ H).
  destruct (fault c); [done|]. by destruct (closed c).
Qed.

(** Halting emits the halt and the cancellation of the active call. *)
Lemma halt_sim c s (c' : Control) :
  sim c s →
  activeCancel c' = activeCancel c → busy c' = busy c → pending c' = None →
  notBefore c' = notBefore c → closed c' || bool_decide (is_Some (fault c')) = true →
  drained c' = drained c → (closed c = true → closed c' = true) →
  let s' := mkSpec (sp_phase s) None (sp_notBefore s) true (sp_drained s) in
  spec_run s (EvHalted :: cancel_active c) = Some s' ∧ sim c' s'.
Proof.
  intros H Ha Hb Hp Hn Hh Hd Hc s'. split.
  - unfold cancel_active. rewrite (sim_cancel _ _ H). simpl.
    destruct (owner (sp_phase s)) as [j|] eqn:E; simpl; [|done].
    rewrite E, bool_decide_eq_true_2; done.
  - destruct H. constructor; simpl; try congruence; try done.
    rewrite Hd. intros D. destruct (sim_joined0 D). auto.
Qed.

Lemma clock_sim now c s :
  sim c s →
  match clockLocked now c with
  | (c', evs, r) =>
      ∃ s', spec_run s evs = Some s' ∧ sim c' s' ∧ sp_phase s' = sp_phase s ∧
            drained c' = drained c ∧
            (∀ t, r = Ok t → s' = s ∧ evs = [] ∧ t = now ∧ pending c' = pending c ∧
               fault c' = None ∧ closed c' = closed c ∧ notBefore c' = notBefore c ∧
               busy c' = busy c ∧ collaborators c' = collaborators c ∧ fault c = None)
  end.
Proof.
  intros H. unfold clockLocked. destruct (fault c) as [e|] eqn:Ef.
  { exists s. split_and!; try done. }
  destruct (negb (clock_ok now) || Before (UTC (Round0 now)) (lastWall c)).
  - edestruct (halt_sim c s (with_pending None (with_fault ErrClock c)) H) as [H1 H2];
      simpl; try done.
    { by destruct (closed c). }
    eexists. split; [exact H1|]. split; [exact H2|]. done.
  - exists s. split; [done|]. split; [by destruct H; constructor|].
    split; [done|]. split; [done|]. intros t [= <-]. done.
Qed.

Lemma clock_ok_sec i ph : sec_ok i ph clock (λ ph' _, ph' = ph).
Proof.
  intros now ctx c s H Hown. unfold clock. pose proof (clock_sim now c s H) as Hc.
  destruct (clockLocked now c) as [[c' evs] r].
  destruct Hc as (s' & Hr & Hs & Hp & Hd & _). exists s'.
  rewrite Hp. split_and!; try done; congruence.
Qed.

Lemma fail_audit_sec i ph : sec_ok i ph fail_audit (λ ph' _, ph' = ph).
Proof.
  intros now ctx c s H Hown. unfold fail_audit.
  edestruct (halt_sim c s (with_pending None (with_fault ErrAudit c)) H) as [H1 H2];
    simpl; try done.
  { by destruct (closed c). }
  eexists. split; [exact H1|]. split; [exact H2|]. split_and!; try done.
Qed.

Lemma discard_sec i ph tk : sec_ok i ph (discard_section tk) (λ ph' _, ph' = ph).
Proof.
  intros now ctx c s H Hown. unfold discard_section.
  destruct (pending c) as [p|] eqn:Ep; [destruct (tk == ticket p)|];
    (eexists; split; [reflexivity|]; split; [|split_and!; simpl; done]); [|done|done].
  destruct H; constructor; simpl; done.
Qed.

(** [signalDrainedLocked] on a control that is not reserved. *)
Lemma drain_sim c s :
  sim c s →
  match signalDrainedLocked c with
  | (c', evs) =>
      ∃ s', spec_run s evs = Some s' ∧ sim c' s' ∧ sp_phase s' = sp_phase s ∧
            (drained c = true → drained c' = true)
  end.
Proof.
  intros H. unfold signalDrainedLocked.
  destruct (closed c && negb (busy c)) eqn:E; [|by exists s].
  destruct (drained c) eqn:Ed; [by exists s|]. go_bool.
  assert (Hfree : sp_phase s = Free).
  { pose proof (sim_busy _ _ H) as Hb. rewrite H1 in Hb. symmetry in Hb.
    apply bool_decide_eq_false in Hb. destruct (sp_phase s); [done| |]; exfalso; apply Hb; eexists; reflexivity. }
  simpl. rewrite Hfree, (sim_halted _ _ H), H0. simpl.
  eexists. split; [reflexivity|]. simpl.
  destruct H. rewrite Hfree in *. split_and!; try done.
  constructor; simpl; try done. by rewrite H0.
Qed.

Lemma close_sec i ph : sec_ok i ph close_section (λ ph' _, ph' = ph).
Proof.
  intros now ctx c s H Hown. unfold close_section.
  set (c1 := with_pending None (with_closed c)).
  destruct (halt_sim c s c1 H) as [H1 H2]; try done.
  pose proof (drain_sim c1 _ H2) as Hd.
  destruct (signalDrainedLocked c1) as [c' evs].
  destruct Hd as (s' & Hr & Hs & Hp & Hdr). exists s'.
  change (cancel_active c1) with (cancel_active c). rewrite app_comm_cons.
  rewrite (spec_run_app _ _ _ _ H1). rewrite Hp. simpl.
  split_and!; done.
Qed.

Lemma release_sec i ph : owner ph = Some i → sec_ok i ph (release i) (λ ph' _, ph' = Free).
Proof.
  intros Ho now ctx c s H Hown. unfold release.
  assert (Hph : sp_phase s = ph ∧ owner (sp_phase s) = Some i).
  { apply own_owner; [done|]. by intros ->. }
  destruct Hph as [Hph Hos]. set (c1 := with_busy false None c).
  assert (H2 : sim c1 (with_phase Free s)).
  { destruct H. constructor; simpl; try done.
    intros D. destruct (sim_joined0 D). congruence. }
  pose proof (drain_sim c1 _ H2) as Hd.
  destruct (signalDrainedLocked c1) as [c' evs].
  destruct Hd as (s' & Hr & Hs & Hp & Hdr). exists s'. simpl in *.
  rewrite Hos, bool_decide_eq_true_2 by done.
  rewrite Hp. split_and!; try done.
  apply others_held; [by left|by right].
Qed.

Lemma not_busy_free c s : sim c s → busy c = false → sp_phase s = Free.
Proof.
  intros H Hb. rewrite (sim_busy _ _ H) in Hb. apply bool_decide_eq_false in Hb.
  destruct (sp_phase s); [done| |]; exfalso; apply Hb; eexists; reflexivity.
Qed.

(** The early returns of a section that only read the clock. *)
Ltac clock_only :=
  lazy beta iota;
  match goal with
  | H : sim ?c ?s, Hp : sp_phase ?s = sp_phase _ |- ∃ s', _ ∧ sim ?c s' ∧ _ =>
      exists s; rewrite ?Hp; split_and!; solve [done | congruence | eauto]
  end.

Lemma prepare_begin_sec i :
  sec_ok i Free (prepare_begin i)
    (λ ph' r, match r with Ok _ => ph' = Preparing i false | Err _ => ph' = Free end).
Proof.
  intros now ctx c s H Hown. unfold prepare_begin.
  destruct (availableLocked c) eqn:Ea.
  { exists s. by split_and!. }
  destruct (available_running c s H Ea) as (Hh & _).
  pose proof (clock_sim now c s H) as Hc.
  destruct (clockLocked now c) as [[c1 evs] [start|e]];
    destruct Hc as (s1 & Hr & Hs & Hp & Hd & Hok).
  2: clock_only.
  destruct (Hok start eq_refl) as (-> & -> & -> & _). clear Hok.
  destruct (busy c1) eqn:Eb; [clock_only|].
  destruct (Before now (notBefore c1)); [clock_only|].
  destruct (pending_live c1 now); [clock_only|].
  pose proof (not_busy_free _ _ Hs Eb) as Hfree. simpl. rewrite Hfree, Hh.
  eexists. split; [reflexivity|]. simpl. destruct Hs. rewrite Hfree, Hh in *. split_and!.
  - constructor; simpl; try done.
    intros D. by destruct (sim_joined0 D) as [E _]; rewrite E in sim_halted0.
  - apply others_held; [by right|by left].
  - congruence.
  - by apply own_self.
Qed.

Lemma prepare_commit_sec i start target selected tk run :
  sec_ok i (Preparing i false) (prepare_commit i start target selected tk run)
    (λ ph' r, ∃ b, ph' = Preparing i b).
Proof.
  intros now ctx c s H Hown. unfold prepare_commit.
  pose proof (clock_sim now c s H) as Hc.
  destruct (clockLocked now c) as [[c1 evs] [t|e]];
    destruct Hc as (s1 & Hr & Hs & Hp & Hd & Hok).
  2: clock_only.
  destruct (Hok t eq_refl) as (-> & -> & -> & _). clear Hok.
  destruct (availableLocked c1) eqn:Ea; [clock_only|].
  destruct (available_running c1 s Hs Ea) as (Hh & _).
  destruct ctx; [clock_only|].
  destruct (overlong start now); [clock_only|].
  destruct (normalize selected target (UTC (Round0 now))) as [sel|]; [|clock_only].
  destruct (Before (evidence_at sel) _); [clock_only|].
  apply own_owner in Hown as [Hph Ho]; [|done].
  pose proof (sim_unissued _ _ Hs i Hph) as Hrev.
  cbn [app spec_run spec_step]. rewrite Hph, Hrev, Hh, bool_decide_eq_true_2 by done. simpl.
  eexists. split; [reflexivity|]. simpl. destruct Hs. rewrite Hph, Hh in *. split_and!.
  - constructor; simpl; try done.
  - apply others_held; by left.
  - congruence.
  - exists true. by apply own_self.
Qed.

Lemma run_reserve_sec i tk :
  sec_ok i Free (run_reserve i tk)
    (λ ph' r, match r with Ok (_, p) => ph' = Running i p Reserved | Err _ => ph' = Free end).
Proof.
  intros now ctx c s H Hown. unfold run_reserve.
  destruct (availableLocked c) eqn:Ea; [by exists s|].
  destruct (available_running c s H Ea) as (Hh & _).
  pose proof (clock_sim now c s H) as Hc.
  destruct (clockLocked now c) as [[c1 evs] [start|e]];
    destruct Hc as (s1 & Hr & Hs & Hp & Hd & Hok).
  2: clock_only.
  destruct (Hok start eq_refl) as (-> & -> & -> & _). clear Hok.
  destruct (pending c1) as [p|] eqn:Epe; [|clock_only].
  destruct (tk != ticket p); [clock_only|].
  assert (Hrev : ∃ s', spec_run s ([] ++ [EvRevoked]) = Some s' ∧ sim (with_pending None c1) s' ∧
     others i (sp_phase s) (sp_phase s') ∧ (drained c = true → drained c1 = true) ∧
     own i (sp_phase s') = Free).
  { eexists. split; [reflexivity|]. simpl. destruct Hs. split_and!; try done; try congruence. }
  destruct (negb (live p now)) eqn:El; [exact Hrev|].
  destruct (busy (with_pending None c1) || _) eqn:Eb; [exact Hrev|]. clear Hrev.
  apply orb_false_iff in Eb as [Eb En]. apply negb_false_iff in El.
  pose proof (not_busy_free _ _ Hs Eb) as Hfree.
  destruct Hs. simpl in *. rewrite sim_notBefore0 in En.
  rewrite Hfree, <- sim_pending0, Epe, Hh, bool_decide_eq_true_2, El, En by done. simpl.
  eexists. split; [reflexivity|]. simpl. rewrite Hfree, Hh in *. split_and!.
  - constructor; simpl; try done.
    intros D. by destruct (sim_joined0 D) as [E _]; rewrite E in sim_halted0.
  - apply others_held; [by right|by left].
  - congruence.
  - by apply own_self.
Qed.

(** *** Calls *)

(** A call that still holds the reservation of review [p]. *)
Definition holds {R} (i : nat) (p : pendingReview) : phase → bool → R → Prop :=
  λ ph _ _, ∃ st, ph = Running i p st.

Lemma record_safe i p st d state outcome reason sample cleanup :
  (∀ ok, is_Some (audit_stage st state outcome ok)) →
  safe i (Running i p st) d (record p state outcome reason sample cleanup)
    (λ ph _ r, ∃ st', ph = Running i p st' ∧ (r = None → audit_stage st state outcome true = Some st')).
Proof.
  intros Hst. unfold record. cbn [safe].
  eapply sec_ok_mono; [apply clock_ok_sec|]. intros ph [now|e] ->; [|by exists st].
  assert (Hfail : ∀ st', safe i (Running i p st') d (Locked fail_audit (λ _, Ret (Some ErrAudit)))
    (λ ph _ r, ∃ st', ph = Running i p st' ∧ (r = None → audit_stage st state outcome true = Some st'))).
  { intros st'. simpl. eapply sec_ok_mono; [apply fail_audit_sec|]. simpl. naive_solver. }
  set (ev := make_event _ _ _ _ _ _ _). destruct (event_valid ev) eqn:Ev; cbn [safe bind].
  - intros ok. destruct (Hst ok) as [st' Hs]. exists (Running i p st'). split.
    { destruct st; simpl; rewrite Ev, !bool_decide_eq_true_2; simpl;
        subst ev; rewrite ?event_run_make, ?event_state_make, ?event_outcome_make; try done;
        by rewrite Hs. }
    destruct ok; cbn [negb]; [|apply Hfail].
    assert (Hctx : ∀ r : option ctx_err, safe i (Running i p st') d
      match r with Some _ => Locked fail_audit (λ _, Ret (Some ErrAudit)) | None => Ret None end
      (λ ph _ r, ∃ st', ph = Running i p st' ∧ (r = None → audit_stage st state outcome true = Some st'))).
    { intros [e|]; [apply Hfail|]. simpl. eauto. }
    destruct cleanup; exact Hctx.
  - apply Hfail.
Qed.

(** The terminal audit is in order from every stage between authorization and the end;
    a completed outcome needs an execution. *)
Definition may_finish (st : stage) (outcome : string) : Prop :=
  st = Performed ∨ ((st = Authorized ∨ st = AdmittedRun) ∧ outcome ≠ "completed").

Lemma finish_safe i p st d outcome reason measured cause :
  may_finish st outcome →
  safe i (Running i p st) d (finish p outcome reason measured cause) (holds i p).
Proof.
  intros Hf. unfold finish. eapply safe_bind.
  - apply record_safe. intros ok. unfold audit_stage. simpl.
    destruct Hf as [->|[[-> | ->] Ho]]; simpl; try (by eauto);
      rewrite (bool_decide_eq_false_2 (outcome = _)) by done; eauto.
  - intros ph d' [e|] (st' & -> & _); simpl; unfold holds; eauto.
Qed.

Lemma clock_safe {R} i ph d (k : result run_err Time → prog R) Q :
  (∀ r, safe i ph d (k r) Q) → safe i ph d (Locked clock k) Q.
Proof. intros H. simpl. eapply sec_ok_mono; [apply clock_ok_sec|]. simpl. by intros ? ? ->. Qed.

Ltac finish_tac :=
  match goal with
  | |- safe _ _ _ (finish _ _ _ _ _) _ => apply finish_safe; unfold may_finish; naive_solver
  | |- safe _ _ _ (Ret _) _ => by eexists
  end.

Lemma run_settle_safe i p d start started fresh sample err :
  safe i (Running i p Performed) d (run_settle i p start started fresh sample err) (holds i p).
Proof.
  unfold run_settle. apply clock_safe. intros [now|e]; [|finish_tac].
  destruct (validate_sample _ _ _ _ _ _ _) as [m|]; [|finish_tac].
  intros [e|]; [finish_tac|]. destruct (negb _ || _); [finish_tac|].
  destruct err as [[]|]; [finish_tac| |finish_tac|finish_tac].
  destruct (deadline_is_evidence m); finish_tac.
Qed.

Lemma run_admitted_safe i p d start fresh :
  same_selection (selection p) fresh = true →
  safe i (Running i p Authorized) d (run_admitted i p start fresh) (holds i p).
Proof.
  intros Hsame. unfold run_admitted. eapply safe_bind.
  { apply record_safe. intros []; by eexists. }
  intros ph d' [e|] (st & -> & Hst); [finish_tac|].
  specialize (Hst eq_refl). injection Hst as <-.
  apply clock_safe. intros [now|e]; [|finish_tac].
  intros [e|]; [finish_tac|]. destruct (negb _ || _); [finish_tac|].
  exists (Running i p Performed). split.
  { simpl. by rewrite !bool_decide_eq_true_2, Hsame. }
  intros [sample err|]; [apply run_settle_safe|finish_tac].
Qed.

Lemma run_authorized_safe i p d start :
  safe i (Running i p Authorized) d (run_authorized i p start) (holds i p).
Proof.
  unfold run_authorized. intros [e|]; [finish_tac|].
  exists (Running i p Authorized). split.
  { simpl. by rewrite !bool_decide_eq_true_2. }
  intros fresh [e|]; [finish_tac|]. destruct fresh as [fresh|]; [|finish_tac].
  apply clock_safe. intros [now|e]; [|finish_tac].
  destruct (negb _ || _); [finish_tac|].
  destruct (normalize _ _ _) as [sel|]; [|finish_tac].
  destruct (Before _ _); [finish_tac|].
  destruct (same_selection _ sel) eqn:Es; cbn [negb]; [|finish_tac].
  by apply run_admitted_safe.
Qed.

Lemma run_body_safe i p d start :
  safe i (Running i p Reserved) d (run_body i p start) (holds i p).
Proof.
  unfold run_body. intros [e|]; [finish_tac|]. eapply safe_bind.
  { apply record_safe. intros []; by eexists. }
  intros ph d' [e|] (st & -> & Hst); [finish_tac|].
  specialize (Hst eq_refl). injection Hst as <-. apply run_authorized_safe.
Qed.

(** A call that returned holds nothing, and a [Shutdown] that returned nil saw the
    drain channel closed. *)
Definition returned (ph : phase) (d : bool) (a : answer) : Prop :=
  ph = Free ∧ (a = AShutdown None → d = true).

Lemma Run_safe i d tk consent :
  safe i Free d (Run i tk consent) (λ ph _ _, ph = Free).
Proof.
  unfold Run. destruct consent; [|done]. cbn [negb].
  eapply safe_locked; [apply run_reserve_sec|]. intros ph [[start p]|e] Hq; subst ph; [|done].
  eapply safe_bind; [apply run_body_safe|]. intros ph d' out (st & ->).
  eapply safe_locked; [by apply release_sec|]. by simpl.
Qed.

Lemma Prepare_safe i d t : safe i Free d (Prepare i t) (λ ph _ _, ph = Free).
Proof.
  unfold Prepare. intros [e|]; [done|]. destruct (negb _); [done|].
  eapply safe_locked; [apply prepare_begin_sec|]. intros ph [start|e] ->; [|done].
  eapply (safe_bind _ _ _ _ _ (λ ph _ _, ∃ b, ph = Preparing i b)).
  - unfold prepare_body. exists (Preparing i false). split.
    { simpl. by rewrite bool_decide_eq_true_2. }
    intros [sel|]; [|by eexists]. intros [tk|]; [|by eexists]. intros [run|]; [|by eexists].
    destruct (bool_decide _); [by eexists|].
    eapply safe_locked; [apply prepare_commit_sec|]. by simpl.
  - intros ph d' out (b & ->).
    eapply safe_locked; [by apply release_sec|]. by simpl.
Qed.

Lemma body_safe i cl : safe i Free false (body i cl) returned.
Proof.
  destruct cl as [t|tk consent| |tk|]; unfold body.
  - eapply safe_bind; [apply Prepare_safe|]. by intros ? ? ? ->.
  - eapply safe_bind; [apply Run_safe|]. by intros ? ? ? ->.
  - eapply safe_locked; [apply close_sec|]. by intros ? ? ->.
  - eapply safe_locked; [apply discard_sec|]. by intros ? ? ->.
  - eapply safe_locked; [apply close_sec|]. intros ? ? ->. simpl. unfold returned. naive_solver.
Qed.

(** ** Refinement *)

(** The invariant of the system: the trace is accepted, the control simulates the
    contract and every call is locally safe for what it holds. *)
Record invariant (start : Time) (sys : system) (s : spec) : Prop := mkInv {
  inv_trace : spec_run (sp_init start) (trace sys) = Some s;
  inv_sim : sim (ctl sys) s;
  inv_calls : ∀ i p, calls sys !! i = Some p →
    ∃ d, (d = true → drained (ctl sys) = true) ∧ safe i (own i (sp_phase s)) d p returned;
  inv_fresh : ∀ i, calls sys !! i = None → own i (sp_phase s) = Free;
}.

Lemma phase_step_inv ph ev ph' :
  phase_step ph ev = Some ph' →
  owner ph' = owner ph ∧ (∀ i b, ph' = Preparing i b → ph = ph') ∧
  ∀ s, sp_phase s = ph → spec_step s ev = Some (with_phase ph' s).
Proof.
  intros Hs.
  assert (H : owner ph' = owner ph ∧ (∀ i b, ph' = Preparing i b → ph = ph')).
  { destruct ph as [|j []|j p []], ev; simpl in Hs; try done;
      repeat case_match; naive_solver. }
  destruct H as [Ho Hp]. split_and!; [done..|]. intros s <-.
  destruct ev; simpl; try (by rewrite Hs); by destruct (sp_phase s) as [|? []|? ? []].
Qed.

(** A collaborator call of the owner. *)
Lemma phase_step_spec i c s ev ph' :
  sim c s → phase_step (own i (sp_phase s)) ev = Some ph' →
  spec_step s ev = Some (with_phase ph' s) ∧ others i (sp_phase s) ph' ∧ own i ph' = ph' ∧
  sim c (with_phase ph' s).
Proof.
  intros H Hs.
  assert (Ho : owner (sp_phase s) = Some i).
  { revert Hs. unfold own. case_bool_decide; [done|]. by destruct ev. }
  rewrite (own_self _ _ Ho) in Hs.
  destruct (phase_step_inv _ _ _ Hs) as (Hp & Hpr & Hst). rewrite Ho in Hp. split_and!; auto.
  - apply others_held; by left.
  - by apply own_self.
  - destruct H. rewrite Ho in *. constructor; simpl; rewrite ?Hp; try done.
    intros j Hj. apply (sim_unissued0 j). rewrite <- Hj. eauto.
Qed.

Lemma call_step i o ctx c p s d c' evs p' :
  run1 i o ctx c p = Some (c', evs, p') → sim c s → (d = true → drained c = true) →
  safe i (own i (sp_phase s)) d p returned →
  ∃ s' d', spec_run s evs = Some s' ∧ sim c' s' ∧ others i (sp_phase s) (sp_phase s') ∧
    (drained c = true → drained c' = true) ∧ (d' = true → drained c' = true) ∧
    safe i (own i (sp_phase s')) d' p' returned.
Proof.
  intros Hr Hsim Hd Hs.
  assert (Hstay : ∀ d' q, (d' = true → drained c = true) →
    safe i (own i (sp_phase s)) d' q returned →
    ∃ s' d', spec_run s [] = Some s' ∧ sim c s' ∧ others i (sp_phase s) (sp_phase s') ∧
    (drained c = true → drained c = true) ∧ (d' = true → drained c = true) ∧
    safe i (own i (sp_phase s')) d' q returned).
  { intros d' q Hd' Hq. exists s, d'. by split_and!. }
  assert (Hcol : ∀ ev ph' q, phase_step (own i (sp_phase s)) ev = Some ph' →
    safe i ph' d q returned →
    ∃ s' d', spec_run s [ev] = Some s' ∧ sim c s' ∧ others i (sp_phase s) (sp_phase s') ∧
    (drained c = true → drained c = true) ∧ (d' = true → drained c = true) ∧
    safe i (own i (sp_phase s')) d' q returned).
  { intros ev ph' q Hp Hq. destruct (phase_step_spec i c s ev ph' Hsim Hp) as (Hst & Ho & Hown & Hs').
    exists (with_phase ph' s), d. cbn [spec_run]. rewrite Hst. simpl. rewrite Hown. by split_and!. }
  destruct p as [r|A f k|t k|n k|e k|sel rid k|k|k|k|k]; cbn [run1 safe] in *.
  - done.
  - specialize (Hs (o_now o) ctx c s Hsim eq_refl).
    destruct (f (o_now o) ctx c) as [[c1 evs1] a]. injection Hr as <- <- <-.
    destruct Hs as (s' & ? & ? & ? & ? & ?). exists s', d. split_and!; auto.
  - injection Hr as <- <- <-. destruct Hs as (ph' & Hp & Hs). eauto.
  - injection Hr as <- <- <-. eauto.
  - injection Hr as <- <- <-. destruct (Hs (o_audit o)) as (ph' & Hp & Hs'). eauto.
  - injection Hr as <- <- <-. destruct Hs as (ph' & Hp & Hs). eauto.
  - injection Hr as <- <- <-. eauto.
  - injection Hr as <- <- <-. eauto.
  - injection Hr as <- <- <-. destruct Hs as [Ht Hf].
    destruct (drained c) eqn:E; [apply (Hstay true)|apply (Hstay d)]; auto.
  - destruct Hs as [Ht Hf].
    destruct (drained c) eqn:E, ctx as [e|]; try done; injection Hr as <- <- <-;
      rewrite ?E; try destruct (o_pick o);
      first [apply (Hstay true); by auto | apply (Hstay d); by auto].
Qed.

Lemma step_invariant start x y s :
  invariant start x s → step x y → ∃ s', invariant start y s'.
Proof.
  intros [Ht Hs Hc Hf] Hstep.
  destruct Hstep as [c m x tr i cl Hi|c m x tr i e Hi|c m x tr i p o c' evs p' Hi Hr]; simpl in *.
  - exists s. constructor; simpl; try done.
    + intros j q [[-> <-]|[Hj Hq]]%lookup_insert_Some; [|eauto].
      exists false. split; [done|]. rewrite Hf by done. apply body_safe.
    + intros j [Hj Hne]%lookup_insert_None. auto.
  - exists s. by constructor.
  - destruct (Hc i p Hi) as (d & Hd & Hsafe).
    destruct (call_step i o _ c p s d c' evs p' Hr Hs Hd Hsafe)
      as (s' & d' & Hrun & Hsim & Hoth & Hmono & Hd' & Hsafe').
    exists s'. constructor; simpl; try done.
    + by rewrite (spec_run_app _ _ _ _ Ht).
    + intros j q [[-> <-]|[Hj Hq]]%lookup_insert_Some; [by eauto|].
      destruct (Hc j q Hq) as (dj & Hdj & Hsj). exists dj. rewrite (Hoth j) by done. auto.
    + intros j [Hj Hne]%lookup_insert_None. rewrite (Hoth j) by done. auto.
Qed.

Lemma reachable_invariant present start sys :
  reachable present start sys → ∃ s, invariant start sys s.
Proof.
  induction 1 as [c Hc|x y Hx [s IH] Hstep]; [|by eapply step_invariant].
  exists (sp_init start). unfold NewControl in Hc. apply guard_ok in Hc as [_ [= <-]].
  by constructor.
Qed.

(** C1: the control refines its contract.  Whatever the calls, their interleaving, the
    clock readings, the collaborators' answers and the cancellations, the trace of the
    control is one the contract [spec_step] accepts, and its state implements the
    contract's. *)
Theorem refinement present start sys :
  reachable present start sys →
  ∃ s, spec_run (sp_init start) (trace sys) = Some s ∧ sim (ctl sys) s.
Proof. intros [s []]%reachable_invariant. eauto. Qed.

(** ** What the contract guarantees *)

(** Induction along an accepted trace. *)
Lemma spec_run_hist (I : list event → spec → Prop) s0 tr s :
  I [] s0 → (∀ seen t ev t', I seen t → spec_step t ev = Some t' → I (seen ++ [ev]) t') →
  spec_run s0 tr = Some s → I tr s.
Proof.
  intros H0 Hstep. revert s. induction tr as [|ev tr IH] using rev_ind; intros s; simpl.
  - by intros [= <-].
  - intros (t & Ht & Hs)%spec_run_app_inv. simpl in Hs.
    destruct (spec_step t ev) as [t'|] eqn:E; [|done]. injection Hs as <-. eauto.
Qed.

(** The state of the contract before an event of the trace. *)
Lemma spec_at present start sys pre ev post :
  reachable present start sys → trace sys = pre ++ ev :: post →
  ∃ s s', spec_run (sp_init start) pre = Some s ∧ spec_step s ev = Some s' ∧
          is_Some (spec_run s' post).
Proof.
  intros [s [Hr _ _ _]]%reachable_invariant Ht. rewrite Ht in Hr.
  apply spec_run_app_inv in Hr as (t & Ht1 & Ht2). simpl in Ht2.
  destruct (spec_step t ev) as [t'|] eqn:E; [|done]. exists t, t'. eauto.
Qed.

(** An audit event of the run of [p] that call [i] wrote and saw confirmed. *)
Definition confirmed (i : nat) (p : pendingReview) (state : string) (ev : event) : Prop :=
  ∃ e, ev = EvAudited i e true ∧ event_state e = state ∧ event_run e = runID p ∧ event_valid e = true.

Definition authorized_in (i : nat) (p : pendingReview) (seg : list event) : Prop :=
  ∃ xs ev ys, seg = xs ++ ev :: ys ∧ confirmed i p "authorized" ev.

Definition admitted_in (i : nat) (p : pendingReview) (seg : list event) : Prop :=
  ∃ xs ev ys, seg = xs ++ ev :: ys ∧ authorized_in i p xs ∧ confirmed i p "admitted" ev.

Definition is_release (ev : event) : bool := match ev with EvReleased _ => true | _ => false end.
Definition is_execution (ev : event) : bool := match ev with EvExecuted _ _ _ => true | _ => false end.

(** What the trace shows of the reservation of a phase. *)
Definition phase_history (tr : list event) (ph : phase) : Prop :=
  match ph with
  | Running i p st =>
      ∃ pre start seg, tr = pre ++ EvReserved i start p :: seg ∧
        Forall (λ ev, is_release ev = false) seg ∧
        match st with
        | Reserved => Forall (λ ev, is_execution ev = false) seg
        | Authorized => Forall (λ ev, is_execution ev = false) seg ∧ authorized_in i p seg
        | AdmittedRun => Forall (λ ev, is_execution ev = false) seg ∧ admitted_in i p seg
        | Performed | Ended => True
        end
  | _ => True
  end.

Lemma authorized_in_snoc i p seg ev : authorized_in i p seg → authorized_in i p (seg ++ [ev]).
Proof. intros (xs & e & ys & -> & He). exists xs, e, (ys ++ [ev]). by rewrite <- app_assoc. Qed.

Lemma admitted_in_snoc i p seg ev : admitted_in i p seg → admitted_in i p (seg ++ [ev]).
Proof. intros (xs & e & ys & -> & He). exists xs, e, (ys ++ [ev]). by rewrite <- app_assoc. Qed.

(** An event that leaves the phase alone. *)
Lemma phase_history_snoc tr ph ev :
  is_release ev = false → is_execution ev = false →
  phase_history tr ph → phase_history (tr ++ [ev]) ph.
Proof.
  intros Hr He. destruct ph as [| |i p st]; [done..|].
  intros (pre & start & seg & -> & Hseg & Hst).
  exists pre, start, (seg ++ [ev]). rewrite <- app_assoc. split_and!; [done| |].
  - apply Forall_app; auto.
  - destruct st; rewrite ?Forall_app; naive_solver auto using authorized_in_snoc, admitted_in_snoc.
Qed.

Lemma audit_stage_inv st state outcome ok st' :
  audit_stage st state outcome ok = Some st' →
  (st' = Ended) ∨
  (ok = true ∧ st = Reserved ∧ st' = Authorized ∧ state = "authorized") ∨
  (ok = true ∧ st = Authorized ∧ st' = AdmittedRun ∧ state = "admitted").
Proof.
  unfold audit_stage.
  destruct (bool_decide (state = "authorized")) eqn:E1.
  { go_bool. destruct st, ok; naive_solver. }
  destruct (bool_decide (state = "admitted")) eqn:E2.
  { go_bool. destruct st, ok; naive_solver. }
  destruct (bool_decide (state = "finished")); [|done].
  destruct st; try done; destruct (bool_decide (outcome = "completed")); naive_solver.
Qed.

Lemma audited_history tr i p st e ok st' :
  event_valid e = true → event_run e = runID p →
  audit_stage st (event_state e) (event_outcome e) ok = Some st' →
  phase_history tr (Running i p st) → phase_history (tr ++ [EvAudited i e ok]) (Running i p st').
Proof.
  intros Hv Hr Ha (pre & start & seg & -> & Hseg & Hst).
  exists pre, start, (seg ++ [EvAudited i e ok]). rewrite <- app_assoc. split_and!; [done| |].
  { apply Forall_app; auto. }
  apply audit_stage_inv in Ha as [->|[(-> & -> & -> & Hs)|(-> & -> & -> & Hs)]]; [done| |].
  - split; [apply Forall_app; auto|]. exists seg, (EvAudited i e true), []. split; [done|]. by exists e.
  - destruct Hst as [Hne Hau]. split; [apply Forall_app; auto|].
    exists seg, (EvAudited i e true), []. split_and!; [done..|]. by exists e.
Qed.

Lemma phase_history_step tr s ev s' :
  phase_history tr (sp_phase s) → spec_step s ev = Some s' → phase_history (tr ++ [ev]) (sp_phase s').
Proof.
  intros Hh. destruct ev as [i|i p|i start p|i t|i e ok|i sel rid|i| | |i|]; simpl.
  - repeat case_match; naive_solver.
  - repeat case_match; naive_solver.
  - repeat case_match; try done. intros [= <-]. simpl. exists tr, start, []. by split_and!.
  - destruct (sp_phase s) as [|j []|j q []] eqn:Ep; simpl; try done;
      destruct (bool_decide _); try done; intros [= <-]; apply phase_history_snoc; done.
  - destruct (phase_step (sp_phase s) (EvAudited i e ok)) as [ph|] eqn:E; [|done]. intros [= <-]. simpl.
    destruct (sp_phase s) as [|j []|j q st]; try done. simpl in E.
    assert (E' : (if (j == i) && event_valid e && (event_run e == runID q)
                  then match audit_stage st (event_state e) (event_outcome e) ok with
                       | Some st' => Some (Running j q st') | None => None end
                  else None) = Some ph) by by destruct st.
    clear E. destruct ((j == i) && event_valid e && (event_run e == runID q)) eqn:Eg; [|done].
    destruct (audit_stage _ _ _ _) as [st'|] eqn:Ea; [|done]. injection E' as <-.
    go_bool. subst j. by eapply audited_history.
  - destruct (sp_phase s) as [|j []|j q []] eqn:Ep; simpl; try done.
    destruct (_ && _); [|done]. intros [= <-]. simpl.
    destruct Hh as (pre & start & seg & -> & Hseg & _).
    exists pre, start, (seg ++ [EvExecuted i sel rid]). rewrite <- app_assoc.
    split_and!; [done| |done]. apply Forall_app; auto.
  - destruct (bool_decide _); [|done]. by intros [= <-].
  - intros [= <-]. by apply phase_history_snoc.
  - intros [= <-]. by apply phase_history_snoc.
  - destruct (bool_decide _); [|done]. intros [= <-]. by apply phase_history_snoc.
  - destruct (sp_phase s); try done. destruct (sp_halted s); [|done]. by intros [= <-].
Qed.

(** C2: every execution is licensed.  When the executor is called, the call holds a
    reservation of a consumed review; since that reservation it neither released it nor
    executed anything, the authorization and then the admission of the same run were
    durably confirmed, and what is executed is the reviewed selection. *)
Theorem executor_gated present start sys pre i s rid post :
  reachable present start sys → trace sys = pre ++ EvExecuted i s rid :: post →
  ∃ before t p seg, pre = before ++ EvReserved i t p :: seg ∧
    Forall (λ ev, is_release ev = false) seg ∧ Forall (λ ev, is_execution ev = false) seg ∧
    admitted_in i p seg ∧ same_selection (selection p) s = true ∧ rid = runID p.
Proof.
  intros Hr Ht. destruct (spec_at _ _ _ _ _ _ Hr Ht) as (sp & sp' & Hpre & Hstep & _).
  apply (spec_run_hist (λ tr s, phase_history tr (sp_phase s))) in Hpre;
    [|done|intros; by eapply phase_history_step].
  simpl in Hstep. destruct (sp_phase sp) as [|j []|j p []]; try done. simpl in Hstep.
  destruct ((j == i) && same_selection (selection p) s && (rid == runID p)) eqn:E; [|done].
  go_bool. subst. destruct Hpre as (before & t & seg & -> & Hrel & Hex & Had).
  exists before, t, p, seg. by split_and!.
Qed.

(** The events that end the life of an outstanding review, and the one that starts it. *)
Definition ends_review (ev : event) : bool :=
  match ev with
  | EvIssued _ _ | EvReserved _ _ _ | EvRevoked | EvHalted | EvBegin _ => true
  | _ => false
  end.

Definition review_history (tr : list event) (r : option pendingReview) : Prop :=
  match r with
  | Some p => ∃ j pre mid, tr = pre ++ EvIssued j p :: mid ∧ Forall (λ ev, ends_review ev = false) mid
  | None => True
  end.

Lemma review_history_step tr s ev s' :
  review_history tr (sp_review s) → spec_step s ev = Some s' → review_history (tr ++ [ev]) (sp_review s').
Proof.
  intros Hh Hs.
  assert (Hsnoc : ends_review ev = false → sp_review s' = sp_review s →
                  review_history (tr ++ [ev]) (sp_review s')).
  { intros He ->. unfold review_history in *. destruct (sp_review s) as [p|]; [|done].
    destruct Hh as (j & pre & mid & -> & Hmid). exists j, pre, (mid ++ [ev]).
    rewrite <- app_assoc. split; [done|]. apply Forall_app; auto. }
  destruct ev as [i|i p|i start p|i t|i e ok|i sel rid|i| | |i|]; simpl in Hs.
  - repeat case_match; naive_solver.
  - repeat case_match; try done. injection Hs as <-. simpl. exists i, tr, []. done.
  - repeat case_match; try done. by injection Hs as <-.
  - apply Hsnoc; [done|]. case_match; naive_solver.
  - apply Hsnoc; [done|]. case_match; naive_solver.
  - apply Hsnoc; [done|]. case_match; naive_solver.
  - apply Hsnoc; [done|]. case_match; naive_solver.
  - by injection Hs as <-.
  - by injection Hs as <-.
  - apply Hsnoc; [done|]. case_match; naive_solver.
  - apply Hsnoc; [done|]. repeat case_match; naive_solver.
Qed.

(** C3: a review is consumed at most once.  Every reservation consumes the live review
    that was issued last: between the two no other review was issued, begun, consumed
    or revoked and the control was not halted.  A second reservation needs a second
    issue. *)
Theorem review_single_use present start sys pre i t p post :
  reachable present start sys → trace sys = pre ++ EvReserved i t p :: post →
  live p t = true ∧
  ∃ j before mid, pre = before ++ EvIssued j p :: mid ∧ Forall (λ ev, ends_review ev = false) mid.
Proof.
  intros Hr Ht. destruct (spec_at _ _ _ _ _ _ Hr Ht) as (sp & sp' & Hpre & Hstep & _).
  apply (spec_run_hist (λ tr s, review_history tr (sp_review s))) in Hpre;
    [|done|intros; by eapply review_history_step].
  simpl in Hstep. destruct (sp_phase sp); try done. destruct (sp_review sp) as [q|]; [|done].
  destruct (negb _ && _ && _ && _) eqn:E; [|done]. go_bool. by subst q.
Qed.

(** The earliest start the trace leaves to the next reservation: one interval after
    the previous one, or after construction. *)
Definition cooldown_after (start : Time) (tr : list event) : Time :=
  foldl (λ nb ev, match ev with EvReserved _ t _ => Add t RunInterval | _ => nb end)
    (Add start RunInterval) tr.

Lemma cooldown_step start tr s ev s' :
  sp_notBefore s = cooldown_after start tr → spec_step s ev = Some s' →
  sp_notBefore s' = cooldown_after start (tr ++ [ev]).
Proof.
  unfold cooldown_after. rewrite foldl_app. intros <- Hs.
  destruct ev; simpl in *; repeat case_match; naive_solver.
Qed.

(** C4: runs are at least one interval apart, also from the construction of the
    control, whatever happened to the runs in between. *)
Theorem cooldown_enforced present start sys pre i t p post :
  reachable present start sys → trace sys = pre ++ EvReserved i t p :: post →
  Before t (cooldown_after start pre) = false.
Proof.
  intros Hr Ht. destruct (spec_at _ _ _ _ _ _ Hr Ht) as (sp & sp' & Hpre & Hstep & _).
  apply (spec_run_hist (λ tr s, sp_notBefore s = cooldown_after start tr)) in Hpre;
    [|done|intros; by eapply cooldown_step].
  simpl in Hstep. destruct (sp_phase sp); try done. destruct (sp_review sp) as [q|]; [|done].
  destruct (negb _ && _ && _ && _) eqn:E; [|done]. go_bool. by rewrite <- Hpre.
Qed.

(** The call that acts in an event. *)
Definition actor (ev : event) : option nat :=
  match ev with
  | EvBegin i | EvIssued i _ | EvReserved i _ _ | EvPreflight i _ | EvAudited i _ _
  | EvExecuted i _ _ | EvReleased i => Some i
  | EvRevoked | EvHalted | EvCancel _ | EvDrained => None
  end.

Definition admits (ev : event) : bool :=
  match ev with EvBegin _ | EvIssued _ _ | EvReserved _ _ _ => true | _ => false end.

Lemma halted_step s ev s' :
  spec_step s ev = Some s' → sp_halted s = true → admits ev = false ∧ sp_halted s' = true.
Proof. intros Hs Hh. destruct ev; simpl in *; rewrite ?Hh in *; repeat case_match; naive_solver. Qed.

Lemma halted_run s tr s' :
  spec_run s tr = Some s' → sp_halted s = true →
  Forall (λ ev, admits ev = false) tr ∧ sp_halted s' = true.
Proof.
  revert s. induction tr as [|ev tr IH]; simpl; [naive_solver|].
  intros s Hr Hh. destruct (spec_step s ev) as [t|] eqn:E; [|done].
  destruct (halted_step _ _ _ E Hh) as [Ha Ht]. destruct (IH t Hr Ht) as [Hf ?].
  split; [by constructor|done].
Qed.

Lemma owner_step s ev s' i :
  spec_step s ev = Some s' → owner (sp_phase s) = Some i → is_release ev = false →
  (actor ev = None ∨ actor ev = Some i) ∧ owner (sp_phase s') = Some i.
Proof.
  intros Hs Ho Hr. destruct ev as [j|j p|j start p|j t|j e ok|j sel rid|j| | |j|]; simpl in *.
  1-3: destruct (sp_phase s) as [|k []|k q st]; simpl in *; try done.
  { destruct (sp_review s); [done|]. destruct (negb _ && (j == k)) eqn:E; [|done].
    injection Hs as <-. injection Ho as ->. go_bool. subst. auto. }
  1-3: destruct (phase_step _ _) as [ph|] eqn:E; [|done]; injection Hs as <-; simpl;
    destruct (phase_step_inv _ _ _ E) as (-> & _);
    destruct (sp_phase s) as [|k []|k q []]; simpl in *; repeat case_match; go_bool; naive_solver.
  - done.
  - naive_solver.
  - naive_solver.
  - case_match; naive_solver.
  - by destruct (sp_phase s).
Qed.

Lemma owner_run s tr s' i :
  spec_run s tr = Some s' → owner (sp_phase s) = Some i → Forall (λ ev, is_release ev = false) tr →
  Forall (λ ev, actor ev = None ∨ actor ev = Some i) tr ∧ owner (sp_phase s') = Some i.
Proof.
  revert s. induction tr as [|ev tr IH]; simpl; [naive_solver|].
  intros s Hr Ho [Hev Htr]%Forall_cons. destruct (spec_step s ev) as [t|] eqn:E; [|done].
  destruct (owner_step _ _ _ _ E Ho Hev) as [Ha Ht]. destruct (IH t Hr Ht Htr) as [Hf ?].
  split; [by constructor|done].
Qed.

(** Operations are mutually exclusive.  From the admission of a preparation or of a
    run until its release no other call prepares, reserves or reaches a collaborator. *)
Theorem exclusive_operations present start sys pre e0 i mid post :
  reachable present start sys → trace sys = pre ++ e0 :: mid ++ post →
  (e0 = EvBegin i ∨ ∃ t p, e0 = EvReserved i t p) →
  Forall (λ ev, is_release ev = false) mid →
  Forall (λ ev, actor ev = None ∨ actor ev = Some i) mid.
Proof.
  intros Hr Ht He Hm. destruct (spec_at _ _ _ _ _ _ Hr Ht) as (sp & sp' & _ & Hstep & [s2 Hpost]).
  apply spec_run_app_inv in Hpost as (s1 & Hmid & _).
  assert (Ho : owner (sp_phase sp') = Some i).
  { destruct He as [->|(t & p & ->)]; simpl in Hstep; repeat case_match; naive_solver. }
  by apply (owner_run _ _ _ _ Hmid Ho Hm).
Qed.

(** ** Shutdown *)

Lemma step_trace x y : step x y → ∃ evs, trace y = trace x ++ evs.
Proof. intros []; simpl; eauto using app_nil_r. Qed.

Lemma steps_trace x y : rtc step x y → ∃ evs, trace y = trace x ++ evs.
Proof.
  induction 1 as [x|x y z Hs _ (evs' & IH)]; [by exists []; rewrite app_nil_r|].
  destruct (step_trace _ _ Hs) as [evs Ht]. exists (evs ++ evs'). by rewrite IH, Ht, app_assoc.
Qed.

(** A halted control that nobody holds is quiet forever. *)
Lemma quiet_run s tr s' :
  spec_run s tr = Some s' → sp_halted s = true → sp_phase s = Free →
  Forall (λ ev, actor ev = None) tr ∧ sp_phase s' = Free.
Proof.
  revert s. induction tr as [|ev tr IH]; simpl; [naive_solver|].
  intros s Hr Hh Hf. destruct (spec_step s ev) as [t|] eqn:E; [|done].
  destruct (halted_step _ _ _ E Hh) as [Ha Ht].
  assert (actor ev = None ∧ sp_phase t = Free) as [Hac Hft].
  { destruct ev; simpl in *; try done; rewrite Hf in E; simpl in E; try done;
      repeat case_match; naive_solver. }
  destruct (IH t Hr Ht Hft) as [Hall ?]. split; [by constructor|done].
Qed.

(** C6: a [Shutdown] that returned nil has joined all work.  The control is closed and
    not busy, and in no later state has any call prepared, reserved, audited, executed
    or reached a collaborator since. *)
Theorem shutdown_joins present start x i y :
  reachable present start x → calls x !! i = Some (Ret (AShutdown None)) → rtc step x y →
  closed (ctl x) = true ∧ busy (ctl x) = false ∧
  ∃ evs, trace y = trace x ++ evs ∧ Forall (λ ev, actor ev = None) evs.
Proof.
  intros Hx Hi Hxy. destruct (reachable_invariant _ _ _ Hx) as [s [Ht Hs Hc _]].
  destruct (Hc _ _ Hi) as (d & Hd & [_ Hret]). specialize (Hd (Hret eq_refl)).
  destruct (sim_joined _ _ Hs Hd) as [Hcl Ho].
  assert (Hf : sp_phase s = Free) by by destruct (sp_phase s).
  split_and!; [done|by rewrite (sim_busy _ _ Hs), Ho|].
  destruct (steps_trace _ _ Hxy) as [evs He]. exists evs. split; [done|].
  destruct (reachable_invariant _ _ _ (reachable_steps _ _ _ _ Hx Hxy)) as [s' [Ht' _ _ _]].
  rewrite He, (spec_run_app _ _ _ _ Ht) in Ht'.
  eapply quiet_run; [exact Ht'| |done]. by rewrite (sim_halted _ _ Hs), Hcl.
Qed.

(** Nothing is leaked.  A call that returned holds no reservation, and a control
    whose calls have all returned is not busy. *)
Theorem returned_releases present start sys :
  reachable present start sys →
  (∀ i a, calls sys !! i = Some (Ret a) → activeCancel (ctl sys) ≠ Some i) ∧
  ((∀ i p, calls sys !! i = Some p → ∃ a, p = Ret a) → busy (ctl sys) = false).
Proof.
  intros Hx. destruct (reachable_invariant _ _ _ Hx) as [s [Ht Hs Hc Hf]].
  assert (Hret : ∀ i a, calls sys !! i = Some (Ret a) → owner (sp_phase s) ≠ Some i).
  { intros i a Hi Ho. destruct (Hc _ _ Hi) as (d & _ & [Hown _]).
    rewrite (own_self _ _ Ho) in Hown. by rewrite Hown in Ho. }
  split.
  - intros i a Hi. rewrite (sim_cancel _ _ Hs). eauto.
  - intros Hall. rewrite (sim_busy _ _ Hs). apply bool_decide_eq_false. intros [i Ho].
    destruct (calls sys !! i) as [p|] eqn:Ei.
    + destruct (Hall _ _ Ei) as [a ->]. by eapply Hret.
    + specialize (Hf i Ei). rewrite (own_self _ _ Ho) in Hf. by rewrite Hf in Ho.
Qed.

(** ** Uncertainty is final *)

(** A control that no call can use any more. *)
Definition locked (c : Control) : bool := closed c || bool_decide (is_Some (fault c)).

(** What a critical section of call [i] does to the locks and the clock of the control.  [u] tells that
    the call saw an audit that was not confirmed: then it releases the control only when it is locked. *)
Record keeps (i : nat) (u : bool) (c c' : Control) (evs : list event) : Prop := {
  k_locked : locked c = true → locked c' = true;
  k_clock : locked c' = true ∨ wall (lastWall c) <= wall (lastWall c');
  k_release : ∀ j, EvReleased j ∈ evs → j = i ∧ (u = true → locked c' = true) ∧ Forall (λ ev, admits ev = false) evs;
  k_audit : ∀ j e ok, EvAudited j e ok ∉ evs;
}.

(** [h] tells that the control was seen locked. *)
Definition sec_wary {A} (i : nat) (u h : bool) (f : section A) (Q : bool → A → Prop) : Prop :=
  ∀ now ctx c, (h = true → locked c = true) →
  match f now ctx c with (c', evs, a) => keeps i u c c' evs ∧ Q (locked c') a end.

Fixpoint wary {R} (i : nat) (u h : bool) (p : prog R) (Q : bool → bool → R → Prop) : Prop :=
  match p with
  | Ret r => Q u h r
  | Locked f k => sec_wary i u h f (λ h' a, wary i u h' (k a) Q)
  | CallPreflight _ k => ∀ r, wary i u h (k r) Q
  | CallRandom _ k => ∀ r, wary i u h (k r) Q
  | CallAudit _ k => wary i u h (k true) Q ∧ wary i true h (k false) Q
  | CallExecute _ _ k => ∀ r, wary i u h (k r) Q
  | ReadCtx k => ∀ r, wary i u h (k r) Q
  | ReadCleanupCtx k => ∀ r, wary i u h (k r) Q
  | ReadDrained k => ∀ r, wary i u h (k r) Q
  | WaitDrained k => ∀ r, wary i u h (k r) Q
  end.

Lemma sec_wary_mono {A} i u h (f : section A) (Q Q' : bool → A → Prop) :
  sec_wary i u h f Q → (∀ h' a, Q h' a → Q' h' a) → sec_wary i u h f Q'.
Proof. intros Hs HQ now ctx c Hc. specialize (Hs now ctx c Hc). destruct (f now ctx c) as [[c' evs] a]. naive_solver. Qed.

Lemma wary_bind {R S} i u h (p : prog R) (f : R → prog S) Q Q' :
  wary i u h p Q → (∀ u' h' r, Q u' h' r → wary i u' h' (f r) Q') → wary i u h (bind p f) Q'.
Proof.
  intros Hp Hf. revert u h Hp.
  induction p as [r|A g k IH|t k IH|n k IH|e k IH|s rid k IH|k IH|k IH|k IH|k IH]; intros u h; cbn [wary bind]; eauto.
  - intros Hg. eapply sec_wary_mono; [exact Hg|]. simpl. eauto.
  - intros [? ?]. eauto.
Qed.

Lemma wary_locked {R A} i u h (f : section A) (k : A → prog R) Q Q' :
  sec_wary i u h f Q → (∀ h' a, Q h' a → wary i u h' (k a) Q') → wary i u h (Locked f k) Q'.
Proof. apply sec_wary_mono. Qed.

Lemma wary_ctx {R} i u h (k : option ctx_err → prog R) Q : (∀ r, wary i u h (k r) Q) → wary i u h (ReadCtx k) Q.
Proof. done. Qed.

(** Errors that tell of a lost control. *)
Definition lost (e : run_err) : bool := match e with ErrClock | ErrAudit => true | _ => false end.

Lemma keeps_same i u c c' evs :
  locked c' = locked c → lastWall c' = lastWall c → (∀ j, EvReleased j ∉ evs) → (∀ j e ok, EvAudited j e ok ∉ evs) → keeps i u c c' evs.
Proof. intros Hl Hw Hr Ha. constructor; [by rewrite Hl|right; rewrite Hw; lia|naive_solver|done]. Qed.

Lemma cancel_quiet c : (∀ j, EvReleased j ∉ EvHalted :: cancel_active c) ∧ (∀ j e ok, EvAudited j e ok ∉ EvHalted :: cancel_active c).
Proof. unfold cancel_active. destruct (activeCancel c); split; intros; rewrite !elem_of_cons, elem_of_nil; naive_solver. Qed.

Lemma keeps_halted i u c c' : locked c' = true → keeps i u c c' (EvHalted :: cancel_active c).
Proof. intros Hl. destruct (cancel_quiet c) as [Hr Ha]. constructor; [done|by left|by intros j Hj%Hr|done]. Qed.

(** The clock: it fails only when the control is locked, and moves the last reading forward. *)
Lemma clock_keeps i u now c :
  match clockLocked now c with
  | (c', evs, r) => keeps i u c c' evs ∧ (∀ e, r = Err e → locked c' = true) ∧ (∀ t, r = Ok t → evs = []) ∧
      (locked c' = true ∨ clock_ok now = true ∧ wall now <= wall (lastWall c')) ∧ (wall now < wall (lastWall c) → locked c' = true)
  end.
Proof.
  unfold clockLocked. destruct (fault c) as [e|] eqn:Ef.
  { assert (Hl : locked c = true) by (unfold locked; rewrite Ef; by destruct (closed c)).
    split_and!; [apply keeps_same; set_solver|done|done|by left|done]. }
  rewrite (Before_wall (UTC (Round0 now)) (lastWall c)) by by left. change (wall (UTC (Round0 now))) with (wall now).
  destruct (negb (clock_ok now) || (wall now <? wall (lastWall c))) eqn:E.
  - assert (Hl : locked (with_pending None (with_fault ErrClock c)) = true) by (unfold locked; simpl; by destruct (closed c)).
    split_and!; [by apply keeps_halted|done|done|by left|done].
  - rewrite orb_false_iff, negb_false_iff, Z.ltb_ge in E. destruct E as [E1 E2].
    split_and!; [|done|done|right; by split|simpl; lia]. constructor; [done|right; done|set_solver|set_solver].
Qed.

Ltac no_event := intros; rewrite ?app_nil_l, ?elem_of_app, ?elem_of_cons, ?elem_of_nil; naive_solver.

(** The sections of a call. *)
Section Sections.
Context (i : nat) (u h : bool).

Lemma clock_wary : sec_wary i u h clock (λ h' r, (h = true → h' = true) ∧ ∀ e, r = Err e → h' = true).
Proof.
  intros now ctx c Hh. unfold clock. pose proof (clock_keeps i u now c) as H. destruct (clockLocked now c) as [[c' evs] r].
  destruct H as (Hk & He & _). split; [done|]. split; [|done]. intros Ht. by apply (k_locked _ _ _ _ _ Hk), Hh.
Qed.

Lemma fail_audit_wary : sec_wary i u h fail_audit (λ h' _, h' = true).
Proof.
  intros now ctx c Hh. unfold fail_audit. assert (Hl : locked (with_pending None (with_fault ErrAudit c)) = true) by (unfold locked; simpl; by destruct (closed c)).
  split; [by apply keeps_halted|done].
Qed.

Lemma drained_locked c : locked (signalDrainedLocked c).1 = locked c ∧ lastWall (signalDrainedLocked c).1 = lastWall c ∧
  ((signalDrainedLocked c).2 = [] ∨ (signalDrainedLocked c).2 = [EvDrained]).
Proof. unfold signalDrainedLocked. repeat case_match; simpl; auto. Qed.

Lemma close_wary : sec_wary i u h close_section (λ h' _, h' = true).
Proof.
  intros now ctx c Hh. unfold close_section. pose proof (drained_locked (with_pending None (with_closed c))) as (Hl & Hw & He).
  destruct (signalDrainedLocked _) as [c' evs]. simpl in *. rewrite Hl. split; [|done]. destruct (cancel_quiet c) as [Hr Ha].
  change (cancel_active (with_pending None (with_closed c))) with (cancel_active c).
  constructor; [by rewrite Hl|by left; rewrite Hl| |].
  - intros j Hj. exfalso. specialize (Hr j). destruct He as [-> | ->]; rewrite ?app_nil_r in Hj; [done|]. set_solver.
  - intros j e ok Hj. specialize (Ha j e ok). destruct He as [-> | ->]; rewrite ?app_nil_r in Hj; [done|]. set_solver.
Qed.

Lemma release_wary : (u = true → h = true) → sec_wary i u h (release i) (λ h' _, h = true → h' = true).
Proof.
  intros Hu now ctx c Hh. unfold release. pose proof (drained_locked (with_busy false None c)) as (Hl & Hw & He).
  destruct (signalDrainedLocked _) as [c' evs]. simpl in *. rewrite Hl. change (locked (with_busy false None c)) with (locked c). split; [|done].
  constructor; [by rewrite Hl|right; rewrite Hw; simpl; lia| |].
  - intros j Hj. split; [destruct He as [-> | ->]; set_solver|]. split; [rewrite Hl; auto|]. destruct He as [-> | ->]; repeat constructor.
  - intros j e ok Hj. destruct He as [-> | ->]; set_solver.
Qed.

Lemma discard_wary tk : sec_wary i u h (discard_section tk) (λ h' _, h = true → h' = true).
Proof.
  intros now ctx c Hh. unfold discard_section. destruct (pending c) as [p|]; [destruct (tk == ticket p)|]; (split; [|done]); apply keeps_same; done || no_event.
Qed.

Lemma available_lost c e : availableLocked c = Some e → lost e = true → locked c = true.
Proof. unfold availableLocked, locked. destruct (fault c); [by destruct (closed c)|]. destruct (closed c || _) eqn:E; [|done]. by intros [= <-]. Qed.

(** A section that starts with the clock and then changes neither the locks nor the clock. *)
Lemma keeps_after c c1 c2 evs more :
  keeps i u c c1 evs → locked c2 = locked c1 → lastWall c2 = lastWall c1 → (∀ j, EvReleased j ∉ evs) →
  (∀ j, EvReleased j ∉ more) → (∀ j e ok, EvAudited j e ok ∉ more) → keeps i u c c2 (evs ++ more).
Proof.
  intros [Hl Hc _ Ha] El Ew Hr Hr' Ha'. constructor; [by rewrite El|by rewrite El, Ew|..].
  - intros j [Hj|Hj]%elem_of_app; [by apply Hr in Hj|by apply Hr' in Hj].
  - intros j e ok [Hj|Hj]%elem_of_app; [by apply Ha in Hj|by apply Ha' in Hj].
Qed.

Definition told {A} : bool → result run_err A → Prop := λ h' r, (h = true → h' = true) ∧ ∀ e, r = Err e → lost e = true → h' = true.

Ltac told_tac := split; [done|by intros ? [= <-]].

Lemma prepare_begin_wary : sec_wary i u h (prepare_begin i) told.
Proof.
  intros now ctx c Hh. unfold prepare_begin. destruct (availableLocked c) as [e|] eqn:Ea.
  { split; [apply keeps_same; done || no_event|]. split; [done|]. intros e' [= <-]. by eapply available_lost. }
  pose proof (clock_keeps i u now c) as H. destruct (clockLocked now c) as [[c1 evs] [start|e]]; destruct H as (Hk & He & Hn & _).
  2:{ split; [done|]. split; [intros Ht; by apply (k_locked _ _ _ _ _ Hk), Hh|]. intros e' [= <-] _. by eapply He. }
  rewrite (Hn _ eq_refl) in *. assert (Hh' : h = true → locked c1 = true) by (intros Ht; by apply (k_locked _ _ _ _ _ Hk), Hh).
  destruct (busy c1); [by split; [|told_tac]|]. destruct (Before _ _); [by split; [|told_tac]|]. destruct (pending_live _ _); [by split; [|told_tac]|].
  split; [apply (keeps_after _ _ _ [] _ Hk); done || no_event|]. told_tac.
Qed.

Lemma prepare_commit_wary start target sel tk run : sec_wary i u h (prepare_commit i start target sel tk run) told.
Proof.
  intros now ctx c Hh. unfold prepare_commit.
  pose proof (clock_keeps i u now c) as H. destruct (clockLocked now c) as [[c1 evs] [now'|e]]; destruct H as (Hk & He & Hn & _).
  2:{ split; [done|]. split; [intros Ht; by apply (k_locked _ _ _ _ _ Hk), Hh|]. intros e' [= <-] _. by eapply He. }
  rewrite (Hn _ eq_refl) in *. assert (Hh' : h = true → locked c1 = true) by (intros Ht; by apply (k_locked _ _ _ _ _ Hk), Hh).
  destruct (availableLocked c1) as [e|] eqn:Ea; [split; [done|]; split; [done|]; intros e' [= <-]; by eapply available_lost|].
  destruct ctx; [by split; [|told_tac]|]. destruct (overlong _ _); [by split; [|told_tac]|]. destruct (normalize _ _ _); [|by split; [|told_tac]]. destruct (Before _ _); [by split; [|told_tac]|].
  split; [apply (keeps_after _ _ _ [] _ Hk); done || no_event|]. told_tac.
Qed.

Lemma run_reserve_wary tk : sec_wary i u h (run_reserve i tk) told.
Proof.
  intros now ctx c Hh. unfold run_reserve. destruct (availableLocked c) as [e|] eqn:Ea.
  { split; [apply keeps_same; done || no_event|]. split; [done|]. intros e' [= <-]. by eapply available_lost. }
  pose proof (clock_keeps i u now c) as H. destruct (clockLocked now c) as [[c1 evs] [start|e]]; destruct H as (Hk & He & Hn & _).
  2:{ split; [done|]. split; [intros Ht; by apply (k_locked _ _ _ _ _ Hk), Hh|]. intros e' [= <-] _. by eapply He. }
  rewrite (Hn _ eq_refl) in *. assert (Hh' : h = true → locked c1 = true) by (intros Ht; by apply (k_locked _ _ _ _ _ Hk), Hh).
  destruct (pending c1) as [p|]; [|by split; [|told_tac]]. destruct (tk != ticket p); [by split; [|told_tac]|]. cbv zeta.
  destruct (negb (live p start)); [|destruct (_ || _)]; (split; [apply (keeps_after _ _ _ [] _ Hk); done || no_event|told_tac]).
Qed.

End Sections.

(** What a call that comes to an end knows: an unconfirmed audit or an error that tells of a lost control was
    followed by the lock. *)
Definition settled (u h : bool) (e : option run_err) : Prop :=
  (u = true → h = true) ∧ ∀ e', e = Some e' → lost e' = true → h = true.

Definition run_settled (u h : bool) (out : option Result * option run_err) : Prop := settled u h out.2.

Lemma settled_none u h : (u = true → h = true) → settled u h None.
Proof. by split. Qed.

Lemma settled_locked u e : settled u true e.
Proof. by split. Qed.

Lemma settled_kept u h e : (u = true → h = true) → lost e = false → settled u h (Some e).
Proof. intros Hu He. split; [done|]. intros e' [= <-]. by rewrite He. Qed.

Lemma record_wary i u h p state outcome reason sample cleanup :
  (u = true → h = true) →
  wary i u h (record p state outcome reason sample cleanup) (λ u' h' r, (u' = true → h' = true) ∧ (is_Some r → h' = true)).
Proof.
  intros Hu. eapply wary_locked; [apply clock_wary|]. intros h' [now|e] [Hh He]; [|by cbn; rewrite (He _ eq_refl)].
  assert (Hf : ∀ u2 h2, wary i u2 h2 (Locked fail_audit (λ _, Ret (Some ErrAudit))) (λ u' h' r, (u' = true → h' = true) ∧ (is_Some r → h' = true))).
  { intros u2 h2. eapply wary_locked; [apply fail_audit_wary|]. by intros ? ? ->. }
  assert (Hctx : wary i u h' ((if cleanup then ReadCleanupCtx else ReadCtx) (λ ctx, match ctx with
      Some _ => Locked fail_audit (λ _, Ret (Some ErrAudit)) | None => Ret None end)) (λ u' h' r, (u' = true → h' = true) ∧ (is_Some r → h' = true))).
  { destruct cleanup; intros [c|]; try apply Hf; (split; [by auto|by intros [? ?]]). }
  cbv zeta. destruct (event_valid _); [split; [exact Hctx|apply Hf]|apply Hf].
Qed.

Lemma finish_wary i u h p outcome reason measured cause :
  (u = true → h = true) → (∀ e, cause = Some e → lost e = false) → wary i u h (finish p outcome reason measured cause) run_settled.
Proof.
  intros Hu Hc. unfold finish. eapply wary_bind; [by apply record_wary|]. intros u' h' [e|] [Hu' He].
  - rewrite (He (mk_is_Some _ _ eq_refl)). apply settled_locked.
  - split; [done|]. intros e ->%Hc. done.
Qed.

Ltac wary_end := cbv beta match;
  lazymatch goal with
  | |- wary _ _ _ (finish _ _ _ _ _) _ => apply finish_wary; [by auto|by intros ? [= <-]]
  | |- wary _ _ _ (Locked clock _) _ =>
      eapply wary_locked; [apply clock_wary|];
      let h' := fresh "h" in let Hm := fresh "Hm" in let He := fresh "He" in
      intros h' [now|e] [Hm He]; [|by cbn; rewrite (He _ eq_refl)]
  | |- wary _ _ _ (ReadCtx _) _ => apply wary_ctx; intros [?|]
  | |- wary _ _ _ (if ?b then _ else _) _ => destruct b
  end.

Lemma run_settle_wary i u h approved start began fresh sample err :
  (u = true → h = true) → wary i u h (run_settle i approved start began fresh sample err) run_settled.
Proof.
  intros Hu. unfold run_settle. wary_end. destruct (validate_sample _ _ _ _ _ _ _) as [measured|]; [|wary_end].
  wary_end; [wary_end|]. wary_end; [wary_end|]. destruct err as [[]|]; repeat wary_end.
Qed.

Lemma run_admitted_wary i u h approved start fresh :
  (u = true → h = true) → wary i u h (run_admitted i approved start fresh) run_settled.
Proof.
  intros Hu. unfold run_admitted. eapply wary_bind; [by apply record_wary|]. intros u' h' [e|] [Hu' He].
  { rewrite (He (mk_is_Some _ _ eq_refl)). apply settled_locked. }
  wary_end. wary_end; [wary_end|]. wary_end; [wary_end|]. intros [s e|]; [apply run_settle_wary; auto|wary_end].
Qed.

Lemma run_authorized_wary i u h approved start :
  (u = true → h = true) → wary i u h (run_authorized i approved start) run_settled.
Proof.
  intros Hu. unfold run_authorized. wary_end; [wary_end|]. intros fresh. wary_end; [wary_end|]. destruct fresh as [fresh|]; [|wary_end].
  wary_end. wary_end; [wary_end|]. destruct (normalize _ _ _); [|wary_end]. wary_end; [wary_end|]. wary_end; [wary_end|].
  apply run_admitted_wary; auto.
Qed.

Lemma run_body_wary i u h approved start :
  (u = true → h = true) → wary i u h (run_body i approved start) run_settled.
Proof.
  intros Hu. unfold run_body. wary_end; [by apply settled_kept|]. eapply wary_bind; [by apply record_wary|]. intros u' h' [e|] [Hu' He].
  { rewrite (He (mk_is_Some _ _ eq_refl)). apply settled_locked. }
  by apply run_authorized_wary.
Qed.

Lemma Run_wary i tk consent : wary i false false (Run i tk consent) run_settled.
Proof.
  unfold Run. destruct (negb consent); [by apply settled_kept|]. eapply wary_locked; [apply run_reserve_wary|].
  intros h [[start approved]|e] [_ He]; [|split; [done|]; intros e' [= <-]; by apply He].
  eapply wary_bind; [by apply run_body_wary|]. intros u' h' out [Hu' Ho].
  eapply wary_locked; [by apply release_wary|]. intros h2 r Hh. split; naive_solver.
Qed.

Definition review_err (r : result run_err Review) : option run_err := match r with Ok _ => None | Err e => Some e end.

Lemma Prepare_wary i t : wary i false false (Prepare i t) (λ u h r, settled u h (review_err r)).
Proof.
  unfold Prepare. intros [e|]; [by apply settled_kept|]. destruct (negb _); [by apply settled_kept|].
  eapply wary_locked; [apply prepare_begin_wary|]. intros h [start|e] [_ He]; [|split; [done|]; intros e' [= <-]; by apply He].
  eapply (wary_bind _ _ _ _ _ (λ u h r, settled u h (review_err r) ∧ u = false)).
  - unfold prepare_body. intros [sel|]; [|by split; [apply settled_kept|]]. intros [tk'|]; [|by split; [apply settled_kept|]].
    intros [run|]; [|by split; [apply settled_kept|]]. destruct (bool_decide _); [by split; [apply settled_kept|]|].
    eapply wary_locked; [apply prepare_commit_wary|]. intros h' [r|e] [_ He2]; (split; [|done]); (split; [done|]); [done|].
    intros e' [= <-]. by apply He2.
  - intros u' h' out [[Hu Ho] ->]. eapply wary_locked; [by apply release_wary|]. intros h2 r Hh. split; [done|]. naive_solver.
Qed.

(** The answers that tell of a lost control, and of one that was shut down. *)
Definition lost_answer (a : answer) : bool :=
  match a with
  | AReview (Err e) | AResult (_, Some e) => lost e
  | AShutdown _ => true
  | _ => false
  end.

Definition answered (u h : bool) (a : answer) : Prop := (u = true → h = true) ∧ (lost_answer a = true → h = true).

Lemma body_wary i cl : wary i false false (body i cl) answered.
Proof.
  destruct cl as [t|tk consent| |tk|]; unfold body.
  - eapply wary_bind; [apply Prepare_wary|]. intros u h [r|e] [Hu He]; split; cbn in *; naive_solver.
  - eapply wary_bind; [apply Run_wary|]. intros u h [r [e|]] [Hu He]; split; cbn in *; naive_solver.
  - eapply wary_locked; [apply close_wary|]. by intros h [] ->.
  - eapply wary_locked; [apply discard_wary|]. by intros h [] _.
  - eapply wary_locked; [apply close_wary|]. intros h [] ->. by intros []; [|intros r].
Qed.

(** One step of call [i]: a release comes after the lock when the call saw an unconfirmed audit, and an
    unconfirmed audit is seen. *)
Record advances (i : nat) (u u' : bool) (c c' : Control) (evs : list event) : Prop := {
  a_locked : locked c = true → locked c' = true;
  a_clock : locked c' = true ∨ wall (lastWall c) <= wall (lastWall c');
  a_release : ∀ j, EvReleased j ∈ evs → j = i ∧ (u = true → locked c' = true) ∧ Forall (λ ev, admits ev = false) evs;
  a_audit : ∀ j e ok, EvAudited j e ok ∈ evs → j = i ∧ evs = [EvAudited i e ok] ∧ (ok = false → u' = true);
  a_seen : u = true → u' = true;
}.

Lemma keeps_advances i u c c' evs : keeps i u c c' evs → advances i u u c c' evs.
Proof. intros [? ? ? Ha]. constructor; try done. by intros j e ok []%Ha. Qed.

Lemma advances_idle i u c evs :
  (∀ j, EvReleased j ∉ evs) → (∀ j e ok, EvAudited j e ok ∉ evs) → advances i u u c c evs.
Proof. intros. by apply keeps_advances, keeps_same. Qed.

Lemma run1_wary i o ctx c p c' evs p' u h :
  run1 i o ctx c p = Some (c', evs, p') → (h = true → locked c = true) → wary i u h p answered →
  ∃ u' h', advances i u u' c c' evs ∧ (h' = true → locked c' = true) ∧ wary i u' h' p' answered.
Proof.
  intros Hr Hh Hw.
  destruct p as [r|A f k|t k|n k|e k|sel rid k|k|k|k|k]; cbn [run1 wary] in *.
  - done.
  - specialize (Hw (o_now o) ctx c Hh). destruct (f (o_now o) ctx c) as [[c1 evs1] a].
    injection Hr as <- <- <-. destruct Hw as [Hk Hq]. exists u, (locked c1). eauto using keeps_advances.
  - injection Hr as <- <- <-. exists u, h. split_and!; [apply advances_idle; no_event|done|done].
  - injection Hr as <- <- <-. exists u, h. split_and!; [apply advances_idle; no_event|done|done].
  - injection Hr as <- <- <-. destruct Hw as [Ht Hf]. exists (if o_audit o then u else true), h.
    split_and!; [|done|by destruct (o_audit o)].
    constructor; [done|right; lia|by intros j Hj%list_elem_of_singleton| |by destruct (o_audit o)].
    intros j e' ok [= -> -> ->]%list_elem_of_singleton. split_and!; [done..|]. by intros ->.
  - injection Hr as <- <- <-. exists u, h. split_and!; [apply advances_idle; no_event|done|done].
  - injection Hr as <- <- <-. exists u, h. split_and!; [apply advances_idle; no_event|done|done].
  - injection Hr as <- <- <-. exists u, h. split_and!; [apply advances_idle; no_event|done|done].
  - injection Hr as <- <- <-. exists u, h. split_and!; [apply advances_idle; no_event|done|done].
  - exists u, h. destruct (drained c), ctx; try done; injection Hr as <- <- <-;
      (split_and!; [apply advances_idle; no_event|done|done]).
Qed.

(** Every call of the system is wary, and only calls of the system audit. *)
Record watched (x : system) : Prop := {
  w_calls : ∀ i p, calls x !! i = Some p →
    ∃ u h, (h = true → locked (ctl x) = true) ∧ wary i u h p answered ∧ (∀ e, EvAudited i e false ∈ trace x → u = true);
  w_audits : ∀ i e ok, EvAudited i e ok ∈ trace x → is_Some (calls x !! i);
}.

(** What a step of the system does to the locks, the clock and the trace. *)
Record moves (x y : system) (evs : list event) : Prop := {
  m_trace : trace y = trace x ++ evs;
  m_locked : locked (ctl x) = true → locked (ctl y) = true;
  m_clock : locked (ctl y) = true ∨ wall (lastWall (ctl x)) <= wall (lastWall (ctl y));
  m_release : ∀ j e, EvReleased j ∈ evs → EvAudited j e false ∈ trace x →
    locked (ctl y) = true ∧ Forall (λ ev, admits ev = false) evs;
  m_audit : ∀ j e ok, EvAudited j e ok ∈ evs → evs = [EvAudited j e ok];
}.

Lemma moves_idle x y : ctl y = ctl x → trace y = trace x → moves x y [].
Proof. intros Hc Ht. constructor; rewrite ?Hc, ?Ht, ?app_nil_r; auto with lia; set_solver. Qed.

Lemma watched_step x y : watched x → step x y → (∃ evs, moves x y evs) ∧ watched y.
Proof.
  intros [Hc Ha] Hstep.
  destruct Hstep as [c m x tr i cl Hi|c m x tr i e Hi|c m x tr i p o c' evs p' Hi Hr]; simpl in *.
  - split; [exists []; by apply moves_idle|]. constructor; simpl.
    + intros j q [[-> <-]|[Hj Hq]]%lookup_insert_Some; [|by apply Hc]. exists false, false.
      split_and!; [done|apply body_wary|]. intros e He. apply Ha in He as [q Hq]. by rewrite Hi in Hq.
    + intros j e ok He. apply Ha in He. rewrite lookup_insert_is_Some. destruct (decide (i = j)); auto.
  - split; [exists []; by apply moves_idle|]. by constructor.
  - destruct (Hc i p Hi) as (u & h & Hh & Hw & Hu).
    destruct (run1_wary _ _ _ _ _ _ _ _ _ _ Hr Hh Hw) as (u' & h' & Hadv & Hh' & Hw').
    destruct Hadv as [Hl Hck Hrel Haud Hseen]. split.
    + exists evs. constructor; simpl; try done.
      * intros j e [-> [Hlk Hq]]%Hrel He. eauto.
      * intros j e ok He. destruct (Haud _ _ _ He) as (-> & -> & _). done.
    + constructor; simpl.
      * intros j q [[-> <-]|[Hj Hq]]%lookup_insert_Some.
        -- exists u', h'. split_and!; [done..|]. intros e [He|He]%elem_of_app; [by eapply Hseen, Hu|].
           destruct (Haud _ _ _ He) as (_ & _ & Hf). by apply Hf.
        -- destruct (Hc j q Hq) as (uj & hj & Hhj & Hwj & Huj). exists uj, hj. split_and!; [auto|done|].
           intros e [He|He]%elem_of_app; [by eapply Huj|]. by destruct (Haud _ _ _ He) as (-> & _).
      * intros j e ok He. rewrite lookup_insert_is_Some. destruct (decide (i = j)) as [->|Hne]; [by left|right]. split; [done|].
        apply elem_of_app in He as [He|He]; [by eapply Ha|]. by destruct (Haud _ _ _ He) as (-> & _).
Qed.

Lemma reachable_watched present start x : reachable present start x → watched x.
Proof.
  induction 1 as [c Hc|x y Hx IH Hstep]; [|by eapply watched_step].
  constructor; simpl; [by intros i p|by intros ? ? ? ?%elem_of_nil].
Qed.

(** A control in doubt: it is locked, or the run whose audit was not confirmed still holds it. *)
Definition doubt (start : Time) (x : system) : Prop :=
  locked (ctl x) = true ∨
  ∃ i e p s, EvAudited i e false ∈ trace x ∧ spec_run (sp_init start) (trace x) = Some s ∧ sp_phase s = Running i p Ended.

Lemma ended_step s ev s' i p :
  spec_step s ev = Some s' → sp_phase s = Running i p Ended →
  ev = EvReleased i ∨ admits ev = false ∧ sp_phase s' = Running i p Ended.
Proof.
  intros Hs Hp. destruct ev as [j|j q|j start q|j t|j e ok|j sel rid|j| | |j|]; simpl in Hs; rewrite ?Hp in Hs; simpl in Hs; try done.
  - unfold audit_stage in Hs. repeat case_match; done.
  - case_bool_decide; [|done]. left. congruence.
  - right. by injection Hs as <-.
  - right. by injection Hs as <-.
  - case_bool_decide; [|done]. right. by injection Hs as <-.
Qed.

(** Until its release nothing is admitted after a run has ended. *)
Lemma ended_run s tr s' i p :
  spec_run s tr = Some s' → sp_phase s = Running i p Ended →
  EvReleased i ∈ tr ∨ Forall (λ ev, admits ev = false) tr ∧ sp_phase s' = Running i p Ended.
Proof.
  revert s. induction tr as [|ev tr IH]; simpl; [naive_solver|].
  intros s Hr Hp. destruct (spec_step s ev) as [t|] eqn:E; [|done].
  destruct (ended_step _ _ _ _ _ E Hp) as [->|[Ha Ht]]; [left; set_solver|].
  destruct (IH t Hr Ht) as [?|[? ?]]; [left; set_solver|right]. split; [by constructor|done].
Qed.

(** The new events of a step are accepted. *)
Lemma step_accepted present start x y evs :
  reachable present start x → step x y → trace y = trace x ++ evs →
  ∃ s s', spec_run (sp_init start) (trace x) = Some s ∧ sim (ctl x) s ∧ spec_run s evs = Some s' ∧
          spec_run (sp_init start) (trace y) = Some s'.
Proof.
  intros Hx Hs Ht. destruct (reachable_invariant _ _ _ Hx) as [s [Hr Hsim _ _]].
  destruct (reachable_invariant _ _ _ (reach_step _ _ _ _ Hx Hs)) as [s' [Hr' _ _ _]].
  exists s, s'. split_and!; try done. by rewrite Ht, (spec_run_app _ _ _ _ Hr) in Hr'.
Qed.

Lemma doubt_step present start x y :
  reachable present start x → doubt start x → step x y →
  doubt start y ∧ ∃ evs, trace y = trace x ++ evs ∧ Forall (λ ev, admits ev = false) evs.
Proof.
  intros Hx Hd Hs. destruct (watched_step _ _ (reachable_watched _ _ _ Hx) Hs) as [[evs [Ht Hl _ Hrel _]] _].
  destruct (step_accepted _ _ _ _ _ Hx Hs Ht) as (s & s' & Hr & Hsim & Hr' & Hy).
  destruct Hd as [Hd|(i & e & p & s0 & He & Hs0 & Hp)].
  - split; [left; auto|]. exists evs. split; [done|]. eapply halted_run; [exact Hr'|]. by rewrite (sim_halted _ _ Hsim).
  - assert (s0 = s) as -> by congruence. destruct (ended_run _ _ _ _ _ Hr' Hp) as [Hj|[Hq Hp']].
    + destruct (Hrel _ _ Hj He) as [Hlk Hq]. split; [by left|eauto].
    + split; [|eauto]. right. exists i, e, p, s'. split_and!; try done. rewrite Ht. set_solver.
Qed.

Lemma doubt_steps present start x y :
  reachable present start x → doubt start x → rtc step x y →
  ∃ post, trace y = trace x ++ post ∧ Forall (λ ev, admits ev = false) post.
Proof.
  intros Hx Hd Hxy. induction Hxy as [x|x z y Hxz _ IH]; [exists []; by rewrite app_nil_r|].
  destruct (doubt_step _ _ _ _ Hx Hd Hxz) as [Hz (evs & Ht & Hq)].
  destruct (IH (reach_step _ _ _ _ Hx Hxz) Hz) as (post & Hp & Hq').
  exists (evs ++ post). rewrite Hp, Ht, app_assoc. split; [done|]. by apply Forall_app.
Qed.

(** An unconfirmed audit leaves the control in doubt from that event on. *)
Lemma audit_doubt present start x i e :
  reachable present start x → EvAudited i e false ∈ trace x → doubt start x.
Proof.
  induction 1 as [c Hc|x y Hx IH Hs]; [by intros ?%elem_of_nil|]. intros He.
  destruct (watched_step _ _ (reachable_watched _ _ _ Hx) Hs) as [[evs [Ht _ _ _ Ha]] _].
  rewrite Ht in He. apply elem_of_app in He as [He|He]; [by apply (doubt_step _ _ _ _ Hx (IH He) Hs)|].
  rewrite (Ha _ _ _ He) in Ht. destruct (step_accepted _ _ _ _ _ Hx Hs Ht) as (s & s' & Hr & Hsim & Hr' & Hy).
  right. simpl in Hr'. destruct (phase_step (sp_phase s) (EvAudited i e false)) as [ph|] eqn:E; [|done]. injection Hr' as <-.
  destruct (sp_phase s) as [|j []|j p st]; try done. simpl in E.
  assert (E' : (if (j == i) && event_valid e && (event_run e == runID p)
                then match audit_stage st (event_state e) (event_outcome e) false with
                     | Some st' => Some (Running j p st') | None => None end
                else None) = Some ph) by by destruct st.
  destruct ((j == i) && event_valid e && (event_run e == runID p)) eqn:Eg; [|done]. go_bool. subst j.
  destruct (audit_stage _ _ _ _) as [st'|] eqn:Ea; [|done]. injection E' as <-.
  apply audit_stage_inv in Ea as [->|[(? & _)|(? & _)]]; [|done..].
  exists i, e, p, (with_phase (Running i p Ended) s). split_and!; [rewrite Ht; set_solver|done|done].
Qed.

(** *** Readings of the clock *)

(** The sections that read the clock, and when. *)
Inductive reads_clock (c : Control) : prog answer → Prop :=
| reads_now k : reads_clock c (Locked clock k)
| reads_begin i k : availableLocked c = None → reads_clock c (Locked (prepare_begin i) k)
| reads_commit i start target sel tk run k : reads_clock c (Locked (prepare_commit i start target sel tk run) k)
| reads_reserve i tk k : availableLocked c = None → reads_clock c (Locked (run_reserve i tk) k).

(** A step in which a call reads [t] from the clock. *)
Inductive takes_reading (t : Time) : system → system → Prop :=
| takes c m x tr i p o c' evs p' :
    m !! i = Some p → reads_clock c p → o_now o = t → run1 i o (x !! i) c p = Some (c', evs, p') →
    takes_reading t (mkSystem c m x tr) (mkSystem c' (<[i:=p']> m) (cancel_all evs x) (tr ++ evs)).

(** The readings the control has taken: the one it was constructed with, then those of its calls. *)
Inductive read_at (present : bool) (start : Time) : Time → system → Prop :=
| read_start c : NewControl present start = Ok c → read_at present start start (mkSystem c ∅ ∅ [])
| read_now t x y : reachable present start x → takes_reading t x y → read_at present start t y
| read_later t x y : read_at present start t x → step x y → read_at present start t y.

(** The ways a control comes to doubt its clock or its audit log. *)
Inductive uncertain (present : bool) (start : Time) : system → Prop :=
| unc_answer x i a : calls x !! i = Some (Ret a) → lost_answer a = true → uncertain present start x
| unc_audit x i e : EvAudited i e false ∈ trace x → uncertain present start x
| unc_reading x t y : reachable present start x → takes_reading t x y → clock_ok t = false → uncertain present start y
| unc_rollback x t t' y :
    read_at present start t x → takes_reading t' x y → wall t' < wall t → uncertain present start y.

Lemma takes_step t x y : takes_reading t x y → step x y.
Proof. intros []. by eapply step_call. Qed.

Lemma reading_locks t x y :
  takes_reading t x y →
  (locked (ctl y) = true ∨ clock_ok t = true ∧ wall t <= wall (lastWall (ctl y))) ∧
  (wall t < wall (lastWall (ctl x)) → locked (ctl y) = true).
Proof.
  intros [c m k tr i p o c' evs p' Hi Hp <- Hr]. simpl. pose proof (clock_keeps i false (o_now o) c) as Hk.
  destruct Hp as [?|? ? Ha|?|? ? ? Ha]; cbn [run1] in Hr;
    unfold clock, prepare_begin, prepare_commit, run_reserve in Hr; rewrite ?Ha in Hr;
    destruct (clockLocked (o_now o) c) as [[c1 evs1] r]; destruct Hk as (_ & _ & _ & Hk);
    repeat case_match; simplify_eq; exact Hk.
Qed.

(** A locked control aside, the last reading is not behind any reading taken before. *)
Lemma read_bounded present start t x :
  read_at present start t x → reachable present start x ∧ (locked (ctl x) = true ∨ wall t <= wall (lastWall (ctl x))).
Proof.
  induction 1 as [c Hc|t x y Hx Ht|t x y _ [Hx IH] Hs].
  - split; [by apply reach_init|]. unfold NewControl in Hc. apply guard_ok in Hc as [_ [= <-]]. by right.
  - split; [by eapply reach_step, takes_step|]. destruct (reading_locks _ _ _ Ht) as [[?|[_ ?]] _]; auto.
  - split; [by eapply reach_step|].
    destruct (watched_step _ _ (reachable_watched _ _ _ Hx) Hs) as [[evs [_ Hl Hc _ _]] _].
    destruct IH as [?|?]; [left; auto|]. destruct Hc; [by left|right; lia].
Qed.

Lemma uncertain_doubt present start x : reachable present start x → uncertain present start x → doubt start x.
Proof.
  intros Hx Hu. destruct Hu as [x i a Hi Ha|x i e He|x t y Hr Ht Hc|x t t' y Hr Ht Hlt].
  - destruct (w_calls _ (reachable_watched _ _ _ Hx) _ _ Hi) as (u & h & Hh & [_ Hl] & _). left. auto.
  - by eapply audit_doubt.
  - left. destruct (reading_locks _ _ _ Ht) as [[?|[Hok _]] _]; [done|by rewrite Hc in Hok].
  - left. destruct (read_bounded _ _ _ _ Hr) as [Hv [Hl|Hle]].
    + destruct (watched_step _ _ (reachable_watched _ _ _ Hv) (takes_step _ _ _ Ht)) as [[evs [_ Hm _ _ _]] _]. auto.
    + destruct (reading_locks _ _ _ Ht) as [_ Hb]. apply Hb. lia.
Qed.

(** C5: uncertainty is final.  Once an audit write was not confirmed, the clock gave a reading outside its
    range or behind a reading taken before, a call answered [ErrAudit] or [ErrClock], or a [Shutdown] returned,
    no later step of any call begins a preparation, issues a review or reserves a run. *)
Theorem uncertainty_locks present start x y :
  reachable present start x → uncertain present start x → rtc step x y →
  ∃ post, trace y = trace x ++ post ∧ Forall (λ ev, admits ev = false) post.
Proof. intros Hx Hu. apply (doubt_steps present start); [exact Hx|by eapply uncertain_doubt]. Qed.

End RunSpec.
