(* ===== verification/RunResult.v ===== *)
(** * What a run returns

    The result of [Run], for every control, clock, context and collaborator it may meet:
    the outcome and the error it comes with, the audit event that was accepted for it, and
    the sample, if there is one.  The clients of the control, such as the sessions of the
    local API, are verified against this. *)

From S2P Require Import Prelude Regex GoTime RunControl.

Section RunResult.
Context {P : RunPackage}.

(** The control never reads a time before [lower]; no reading is after [upper]. *)
Context (lower upper : Z).

(** [Q] holds of every result, whatever the effects answer. *)
Fixpoint post {R} (p : prog R) (Q : R → Prop) : Prop :=
  match p with
  | Ret r => Q r
  | Locked f k => ∀ now ctx c c' evs a, lower <= wall (lastWall c) → wall now <= upper → f now ctx c = (c', evs, a) → post (k a) Q
  | CallPreflight _ k => ∀ a, post (k a) Q
  | CallRandom _ k => ∀ a, post (k a) Q
  | CallAudit _ k => ∀ a, post (k a) Q
  | CallExecute _ _ k => ∀ a, post (k a) Q
  | ReadCtx k => ∀ a, post (k a) Q
  | ReadCleanupCtx k => ∀ a, post (k a) Q
  | ReadDrained k => ∀ a, post (k a) Q
  | WaitDrained k => ∀ a, post (k a) Q
  end.

Lemma post_mono {R} (p : prog R) (Q Q' : R → Prop) : post p Q → (∀ r, Q r → Q' r) → post p Q'.
Proof. induction p; simpl; eauto 10. Qed.

Lemma post_bind {R S} (p : prog R) (f : R → prog S) Q : post p (λ r, post (f r) Q) → post (bind p f) Q.
Proof. induction p; simpl; eauto 10. Qed.

(** A reading the control accepted. *)
Definition read (t : Time) : Prop := lower <= wall t <= upper.

Lemma clock_post {R} (k : result run_err Time → prog R) Q :
  (∀ e, post (k (Err e)) Q) → (∀ t, read t → post (k (Ok t)) Q) → post (Locked clock k) Q.
Proof.
  intros He Hk now ctx c c' evs a Hl Hu. unfold clock, clockLocked. destruct (fault c); [intros [= <- <- <-]; apply He|].
  destruct (_ || _) eqn:E; intros [= <- <- <-]; [apply He|]. apply Hk. apply orb_false_iff in E as [_ E].
  rewrite Before_wall in E by auto with cozy. simpl in E. go_bool. unfold read. lia.
Qed.

(** The event of a recorded step was valid at a reading. *)
Definition recorded (p : pendingReview) (state outcome reason : string) (sample : option Sample) : Prop :=
  ∃ t, read t ∧ event_valid (make_event (runID p) (selection p) (UTC (Round0 t)) state outcome reason sample) = true.

Lemma record_post p state outcome reason sample cleanup :
  post (record p state outcome reason sample cleanup) (λ e, e = None → recorded p state outcome reason sample).
Proof.
  unfold record. apply clock_post; [done|]. intros t Ht. apply post_bind.
  destruct (event_valid _) eqn:E; cbn [bind post]; [|by intros].
  intros []; cbn [negb bind post]; [|by intros]. destruct cleanup; cbn [post]; intros [e|]; cbn [bind post]; try by intros.
  all: intros _; by exists t.
Qed.

(** Which outcomes are reported for which reasons and errors, and which of them come
    without a sample. *)
Inductive reports : string → string → option run_err → bool → Prop :=
| reports_completed : reports "completed" "" None true
| reports_canceled e sampled : reports "canceled" "canceled" (Some (ErrCtx e)) sampled
| reports_expired : reports "blocked" "review-expired" (Some ErrReview) false
| reports_unavailable : reports "blocked" "preflight-unavailable" (Some ErrPreflight) false
| reports_changed : reports "blocked" "selection-changed" (Some ErrPreflight) false
| reports_panic : reports "indeterminate" "execution-panic" (Some ErrExecution) false
| reports_invalid : reports "failed" "measurement-invalid" (Some ErrExecution) false
| reports_failed : reports "failed" "execution-error" (Some ErrExecution) true.

(** The sample is what [validateSample] returned for an execution that started after the
    approval. *)
Definition sampled_by (p : pendingReview) (s : option Sample) : Prop :=
  ∃ sample err fresh started returned, validate_sample sample err fresh (runID p) started returned (expiresAt p) = Some s ∧
    lower <= wall started ∧ canonical started ∧ canonical returned.

Definition concluded (p : pendingReview) (x : option Result * option run_err) : Prop :=
  ∀ r, x.1 = Some r → ∃ reason sampled,
    result_run r = runID p ∧ reports (result_outcome r) reason x.2 sampled ∧
    recorded p "finished" (result_outcome r) reason (result_sample r) ∧
    (if sampled then sampled_by p (result_sample r) ∨ result_sample r = None else result_sample r = None).

Lemma finish_post p outcome reason measured cause sampled :
  reports outcome reason cause sampled → (if sampled then sampled_by p measured ∨ measured = None else measured = None) →
  post (finish p outcome reason measured cause) (concluded p).
Proof.
  intros Hr Hs. unfold finish. apply post_bind. eapply post_mono; [apply record_post|]. intros [e|] He; cbn [post]; [by intros ? [=]|].
  intros r [= <-]. exists reason, sampled. split_and!; try done. by apply He.
Qed.

Lemma unreported_post (p : pendingReview) e : post (Ret (None, e)) (concluded p).
Proof. by intros ? [=]. Qed.

Hint Resolve unreported_post reports_completed reports_canceled reports_expired reports_unavailable reports_changed reports_panic reports_invalid reports_failed : core.

Lemma run_settle_post i p start started fresh sample err :
  lower <= wall started → canonical started → post (run_settle i p start started fresh sample err) (concluded p).
Proof.
  intros Hl Hc. unfold run_settle. apply clock_post; [intros; apply unreported_post|]. intros t Ht.
  destruct (validate_sample _ _ _ _ _ _ _) as [measured|] eqn:Hv; [|by apply finish_post with (sampled := false)].
  assert (Hm : sampled_by p measured) by by eexists _, _, _, _, _.
  intros [e|]; cbn [post]; [by apply finish_post with (sampled := true); auto|].
  destruct (_ || _); [by apply finish_post with (sampled := true); auto|].
  destruct err as [[]|]; try (by apply finish_post with (sampled := true); auto).
  destruct (deadline_is_evidence measured); by apply finish_post with (sampled := true); auto.
Qed.

Lemma run_admitted_post i p start fresh : post (run_admitted i p start fresh) (concluded p).
Proof.
  unfold run_admitted. apply post_bind. eapply post_mono; [apply record_post|]. intros [e|] _; [apply unreported_post|].
  apply clock_post; [intros; apply unreported_post|]. intros t Ht [e|]; cbn [post]; [by apply finish_post with (sampled := false)|].
  destruct (_ || _); [by apply finish_post with (sampled := false)|].
  intros [sample err|]; [|by apply finish_post with (sampled := false)].
  apply run_settle_post; [apply Ht|done].
Qed.

Lemma run_authorized_post i p start : post (run_authorized i p start) (concluded p).
Proof.
  unfold run_authorized. intros [e|]; [by apply finish_post with (sampled := false)|]. intros fresh [e|]; [by apply finish_post with (sampled := false)|].
  destruct fresh as [fresh|]; [|by apply finish_post with (sampled := false)].
  apply clock_post; [intros; apply unreported_post|]. intros t Ht.
  destruct (_ || _); [by apply finish_post with (sampled := false)|]. destruct (normalize _ _ _) as [f|]; [|by apply finish_post with (sampled := false)].
  destruct (Before _ _); [by apply finish_post with (sampled := false)|].
  destruct (negb _); [by apply finish_post with (sampled := false)|]. apply run_admitted_post.
Qed.

Lemma run_body_post i p start : post (run_body i p start) (concluded p).
Proof.
  unfold run_body. intros [e|]; cbn [post]; [apply unreported_post|]. apply post_bind. eapply post_mono; [apply record_post|].
  intros [e|] _; [apply unreported_post|apply run_authorized_post].
Qed.

End RunResult.
