(* ===== verification/GatewayRun.v ===== *)
(** * The gateway run

    [gatewayrun/model.go], [measurement.go] and [history.go]: the selection a gateway
    run is reviewed for, the sample an executor returns, the audit event and its
    validator, and the description of a retained run.  The file ends with the
    instance of [RunPackage] that makes the run control of [RunControl] the one of
    [gatewayrun/control.go]. *)

From Stdlib Require Import Ascii.
From S2P Require Import Prelude GoFloat Regex GoTime NetAddr GatewayPlan RunControl Retained.

Module Gateway.

Definition Profile : string := "gateway-icmp-v1".
Definition EventSchemaVersion : Z := 2.
Definition OperationTimeout : Duration := 5 * Second.
Definition AuditTimeout : Duration := Second.

Record Selection := mkSelection {
  Plan : GatewayCheckPlan;
  Source : Addr;
  RouteObservedAt : Time;
  RouteFreshUntil : Time;
}.

(** [gatewayicmp.Sample] *)
Record Sample := mkSample {
  sampleScopeID : string;
  sampleInterfaceName : string;
  sampleInterfaceIndex : Z;
  sampleTarget : Addr;
  sampleSource : Addr;
  sampleStartedAt : Time;
  sampleCompletedAt : Time;
  sampleSendCalls : Z;
  sampleAcceptedRequests : Z;
  sampleReplies : Z;
  sampleTimeouts : Z;
  sampleComplete : bool;
  sampleMeanRTT : option Duration;
}.

Record Measurement := mkMeasurement {
  StartedAt : Time;
  CompletedAt : option Time;
  SendCalls : Z;
  AcceptedRequests : Z;
  Replies : Z;
  Timeouts : Z;
  Complete : bool;
  MeanRTTNanoseconds : option Z;
}.

Record Event := mkEvent {
  SchemaVersion : Z;
  EventMeasurement : option Measurement;
  RunID : string;
  State : string;
  Outcome : string;
  Reason : string;
  At : Time;
  EventProfile : string;
  SelectionDigest : string;
  EventScopeID : string;
  EventInterfaceName : string;
  EventInterfaceIndex : Z;
  EventTarget : string;
  EventSource : string;
}.

#[export] Instance Selection_eq_dec : EqDecision Selection.
Proof. solve_decision. Defined.
#[export] Instance Sample_eq_dec : EqDecision Sample.
Proof. solve_decision. Defined.
#[export] Instance Measurement_eq_dec : EqDecision Measurement.
Proof. solve_decision. Defined.

Definition zeroSample : Sample :=
  mkSample "" "" 0 AddrNone AddrNone zeroTime zeroTime 0 0 0 0 false None.

Definition hexID : regex := hex_regex 32.
Definition hexDigest : regex := hex_regex 64.

(** ** Measurements *)

Definition auditMeasurement (s : option Sample) : option Measurement :=
  match s with
  | None => None
  | Some s =>
      Some (mkMeasurement (UTC (Round0 (sampleStartedAt s)))
              (if IsZero (sampleCompletedAt s) then None else Some (UTC (Round0 (sampleCompletedAt s))))
              (sampleSendCalls s) (sampleAcceptedRequests s) (sampleReplies s) (sampleTimeouts s)
              (sampleComplete s) (sampleMeanRTT s))
  end.

Definition validateMeasurement (m : Measurement) (at_ : Time) : bool :=
  if negb (validTime at_) || negb (validTime (StartedAt m)) || After (StartedAt m) at_ ||
     (SendCalls m <? 0) || (3 <? SendCalls m) || (AcceptedRequests m <? 0) || (SendCalls m <? AcceptedRequests m) ||
     (1 <? SendCalls m - AcceptedRequests m) || (Replies m <? 0) || (3 <? Replies m) || (Timeouts m <? 0) || (3 <? Timeouts m)
  then false else
  let finished := Replies m + Timeouts m in
  if (AcceptedRequests m <? finished) || (1 <? AcceptedRequests m - finished) ||
     ((AcceptedRequests m <? SendCalls m) && negb (finished =? AcceptedRequests m))
  then false else
  if Complete m && (negb (SendCalls m =? 3) || negb (AcceptedRequests m =? 3) || negb (finished =? 3) ||
                    negb (is_some (CompletedAt m)))
  then false else
  let end_ := default at_ (CompletedAt m) in
  if is_some (CompletedAt m) &&
     (negb (validTime end_) || Before end_ (StartedAt m) || After end_ at_ || negb (finished =? 3) ||
      (OperationTimeout <=? Sub end_ (StartedAt m)))
  then false else
  let minimum := Z.max (Z.max 0 (SendCalls m - 1) * Second) (Timeouts m * Second) in
  if Sub end_ (StartedAt m) <? minimum then false else
  if (if negb (Complete m) then is_some (MeanRTTNanoseconds m)
      else negb (Bool.eqb (is_some (MeanRTTNanoseconds m)) (0 <? Replies m)))
  then false else
  match MeanRTTNanoseconds m with
  | Some ns => negb ((ns <? 0) || (Second <=? ns) || (Sub end_ (StartedAt m) <? ns))
  | None => true
  end.

Definition validateSample (s : Sample) (executionErr : option exec_err) (selection : Selection)
    (started returned expires : Time) : option (option Sample) :=
  if s == zeroSample then
    match executionErr with Some _ => Some None | None => None end
  else
    let b := Binding (Plan selection) in
    if (sampleScopeID s != ScopeID b) || (sampleInterfaceName s != InterfaceName b) ||
       negb (sampleInterfaceIndex s =? InterfaceIndex b) ||
       (sampleTarget s != GatewayPlan.Target (Plan selection)) || (sampleSource s != Source selection) ||
       Before (sampleStartedAt s) started ||
       Before (sampleStartedAt s) (RouteObservedAt selection) || negb (Before (sampleStartedAt s) expires) ||
       (negb (IsZero (sampleCompletedAt s)) && negb (Before (sampleCompletedAt s) expires)) ||
       negb (Bool.eqb (sampleComplete s) (bool_decide (executionErr = None))) ||
       negb (match auditMeasurement (Some s) with Some m => validateMeasurement m returned | None => false end)
    then None
    else Some (Some s).

(** ** Audit events *)

Definition is_some_complete (m : option Measurement) : bool :=
  match m with Some m => Complete m | None => false end.

Definition ValidateEvent (e : Event) : bool :=
  if (negb (SchemaVersion e =? 1) && negb (SchemaVersion e =? EventSchemaVersion)) ||
     negb (MatchString hexID (RunID e)) || negb (MatchString hexDigest (SelectionDigest e)) ||
     (EventProfile e != Profile) || negb (validTime (At e)) || negb (MatchString id_regex (EventScopeID e)) ||
     negb (MatchString interface64_regex (EventInterfaceName e)) ||
     (EventInterfaceIndex e <? 1) || (2147483647 <? EventInterfaceIndex e) ||
     negb (is_ok (ValidateGatewayPreviewTarget (EventTarget e))) ||
     negb (is_ok (ValidateGatewayPreviewTarget (EventSource e))) || (EventSource e == EventTarget e)
  then false else
  if (SchemaVersion e =? 1) && is_some (EventMeasurement e) then false else
  if match EventMeasurement e with
     | Some m =>
         (State e != "finished") ||
         ((Outcome e != "completed") && (Outcome e != "failed") && (Outcome e != "canceled")) ||
         negb (validateMeasurement m (At e)) || ((Outcome e == "failed") && Complete m)
     | None => false
     end
  then false else
  if (SchemaVersion e =? EventSchemaVersion) && (State e == "finished") && (Outcome e == "completed") &&
     negb (is_some_complete (EventMeasurement e))
  then false else
  if (State e == "authorized") || (State e == "admitted") then (Outcome e == "") && (Reason e == "")
  else if State e == "finished" then
    if Outcome e == "completed" then Reason e == ""
    else if Outcome e == "blocked" then
      (Reason e == "preflight-unavailable") || (Reason e == "selection-changed") ||
      (Reason e == "review-expired") || (Reason e == "clock-invalid")
    else if Outcome e == "canceled" then Reason e == "canceled"
    else if Outcome e == "failed" then
      (Reason e == "execution-error") ||
      ((SchemaVersion e =? EventSchemaVersion) && (Reason e == "measurement-invalid") &&
       negb (is_some (EventMeasurement e)))
    else if Outcome e == "indeterminate" then Reason e == "execution-panic"
    else false
  else false.

(** ** Selections *)

Definition normalize (s : Selection) (target : Addr) (now : Time) : option Selection :=
  let p := Plan s in
  if negb (validTime now) || negb (validTime (CreatedAt p)) || negb (validTime (RouteObservedAt s)) ||
     (GatewayPlan.Target p != target) || After (CreatedAt p) now || Before (RouteObservedAt s) (CreatedAt p) ||
     After (RouteObservedAt s) now ||
     negb (Equal (RouteFreshUntil s) (Add (RouteObservedAt s) GatewayReviewLifetime)) ||
     negb (After (RouteFreshUntil s) now) || (Source s == target)
  then None else
  match PreviewGatewayCheck (Binding p) (AddrString target) (CreatedAt p) with
  | Err _ => None
  | Ok plan =>
      if (Budget p != Budget plan) || negb (Equal (ReviewExpiresAt p) (ReviewExpiresAt plan)) ||
         negb (After (ReviewExpiresAt plan) now)
      then None else
      match PreviewGatewayCheck (Binding plan) (AddrString (Source s)) now with
      | Err _ => None
      | Ok _ => Some (mkSelection plan (Source s) (RouteObservedAt s) (RouteFreshUntil s))
      end
  end.

Definition sameSelection (a b : Selection) : bool :=
  let x := Binding (Plan a) in
  let y := Binding (Plan b) in
  (ScopeID x == ScopeID y) && (InterfaceName x == InterfaceName y) && (InterfaceIndex x =? InterfaceIndex y) &&
  (Prefixes x == Prefixes y) && (GatewayPlan.Target (Plan a) == GatewayPlan.Target (Plan b)) &&
  (Source a == Source b) && (Budget (Plan a) == Budget (Plan b)).

(** ** Retained runs *)

Record HistoricalAssessment := mkHistoricalAssessment {
  AssessmentState : string;
  Confidence : string;
  Summary : string;
  NextStep : string;
  ReplyLossPercent : option float64;
}.

Record RetainedRun := mkRetainedRun {
  retRunID : string;
  retScopeID : string;
  retProfile : string;
  retInterfaceName : string;
  retTarget : string;
  retSource : string;
  retInterfaceIndex : Z;
  retSchemaVersion : Z;
  LastAuditAt : Time;
  AuthorizationRetained : bool;
  AdmissionRetained : bool;
  TerminalRetained : bool;
  retOutcome : string;
  retReason : string;
  retMeasurement : option Measurement;
  Assessment : HistoricalAssessment;
}.

Definition no_assessment : HistoricalAssessment := mkHistoricalAssessment "" "" "" "" None.

Definition describeHistoricalSample (r : RetainedRun) : HistoricalAssessment :=
  if negb (TerminalRetained r) then
    mkHistoricalAssessment "unknown" "unknown"
      "No terminal audit is retained for this run; its outcome is unknown."
      "Inspect retained evidence later without repeating traffic. A missing record does not prove that nothing was sent."
      None
  else if retSchemaVersion r =? 1 then
    mkHistoricalAssessment "unknown" "unknown"
      "This legacy audit records execution only, not a connectivity measurement."
      "Do not interpret an execution-only completion as a reply or a successful network check." None
  else match retMeasurement r with
  | None =>
      mkHistoricalAssessment "unknown" "unknown"
        "This terminal audit contains no usable connectivity measurement."
        "Review the recorded execution outcome; missing evidence cannot establish connectivity or an outage." None
  | Some m =>
      if negb (Complete m) then
        mkHistoricalAssessment "incomplete" "unknown"
          "The retained sample is incomplete; partial counts do not establish reply loss or latency."
          "Unsent requests are not timeouts. Review the execution outcome before considering a separately authorized check."
          None
      else
        let loss := percent (Timeouts m) (AcceptedRequests m) in
        let next := "Compare other evidence from the same time. This historical ICMP sample proves neither current connectivity, gateway identity, an internet outage, nor security posture." in
        let '(state, summary) :=
          if Replies m =? 3 then ("all-replied", "The selected target answered all three requests during this recorded sample.")
          else if Replies m =? 0 then ("no-replies", "The selected target did not answer this recorded sample; ICMP filtering or target behavior may explain it.")
          else ("some-replies", "The selected target answered some requests during this recorded sample.") in
        mkHistoricalAssessment state "limited" summary next (Some loss)
  end.

(** An event of the same run as [first], valid and not from the future. *)
Definition same_run (first : Event) (asOf : Time) (e : Event) : bool :=
  negb (negb (ValidateEvent e) || After (At e) asOf || (RunID e != RunID first) ||
        (EventScopeID e != EventScopeID first) || negb (SchemaVersion e =? SchemaVersion first) ||
        (EventProfile e != EventProfile first) || (SelectionDigest e != SelectionDigest first) ||
        (EventInterfaceName e != EventInterfaceName first) ||
        negb (EventInterfaceIndex e =? EventInterfaceIndex first) || (EventSource e != EventSource first) ||
        (EventTarget e != EventTarget first)).

Lemma same_run_spec first asOf e :
  same_run first asOf e = true ↔
  ValidateEvent e = true ∧ After (At e) asOf = false ∧ RunID e = RunID first ∧
  EventScopeID e = EventScopeID first ∧ SchemaVersion e = SchemaVersion first ∧
  EventProfile e = EventProfile first ∧ SelectionDigest e = SelectionDigest first ∧
  EventInterfaceName e = EventInterfaceName first ∧ EventInterfaceIndex e = EventInterfaceIndex first ∧
  EventSource e = EventSource first ∧ EventTarget e = EventTarget first.
Proof.
  unfold same_run. rewrite negb_true_iff, !orb_false_iff, !negb_false_iff, !bool_decide_eq_true, !Z.eqb_eq.
  naive_solver.
Qed.

#[export] Instance gateway_retained : RetainedEvent Event.
Proof.
  refine {| phase := State; at_time := At; accepted := same_run |}.
  intros first first' asOf e. rewrite !same_run_spec. intuition congruence.
Defined.

Definition describeRun (first : Event) (phases : gmap string Event) (latest : Time)
  : result unit RetainedRun :=
  let authorized := phases !! "authorized" in
  let admission := phases !! "admitted" in
  let terminal := phases !! "finished" in
  let build outcome reason m :=
    let out a := mkRetainedRun (RunID first) (EventScopeID first) (EventProfile first)
      (EventInterfaceName first) (EventTarget first) (EventSource first) (EventInterfaceIndex first)
      (SchemaVersion first) (UTC (Round0 latest)) (is_some authorized) (is_some admission)
      (is_some terminal) outcome reason m a in
    out (describeHistoricalSample (out no_assessment)) in
  match terminal with
  | None => Ok (build "unknown" "" None)
  | Some t =>
      match EventMeasurement t with
      | None => Ok (build (Outcome t) (Reason t) None)
      | Some m =>
          guard? match admission with Some a => Before (StartedAt m) (At a) | None => false end ||
                 match authorized with Some a => Before (StartedAt m) (At a) | None => false end
          else tt in
          Ok (build (Outcome t) (Reason t) (Some m))
      end
  end.

(** The bounds, the loop over the events and the check of the order of the phases are
    [retain]; [describeRun] is what follows the loops. *)
Definition DescribeRetainedRun (events : list Event) (asOf : Time) : result unit RetainedRun :=
  let? (first, phases, latest) := retain events asOf in
  describeRun first phases latest.

(** ** What a measurement is *)

Definition span (m : Measurement) (at_ : Time) : Z :=
  wall (default at_ (CompletedAt m)) - wall (StartedAt m).

(** At most three paced requests, each accepted one answered or timed out, the last
    possibly still open or refused; a complete sample has all three outcomes and lasts
    at least two and less than five seconds. *)
Record measurement_ok (m : Measurement) (at_ : Time) : Prop := mkMeasurementOk {
  mo_at : in_int64 (wall at_) = true;
  mo_start : in_int64 (wall (StartedAt m)) = true;
  mo_order : wall (StartedAt m) <= wall at_;
  mo_sends : 0 <= SendCalls m <= 3;
  mo_accepted : 0 <= AcceptedRequests m <= SendCalls m ∧ SendCalls m <= AcceptedRequests m + 1;
  mo_answers : 0 <= Replies m ∧ 0 <= Timeouts m ∧
    Replies m + Timeouts m <= AcceptedRequests m <= Replies m + Timeouts m + 1;
  mo_refused : AcceptedRequests m < SendCalls m → Replies m + Timeouts m = AcceptedRequests m;
  mo_complete : Complete m = true → Replies m + Timeouts m = 3 ∧ CompletedAt m ≠ None;
  mo_completed : ∀ e, CompletedAt m = Some e →
    in_int64 (wall e) = true ∧ wall (StartedAt m) <= wall e <= wall at_ ∧
    Replies m + Timeouts m = 3 ∧ span m at_ < OperationTimeout;
  mo_paced : (SendCalls m - 1) * Second <= span m at_ ∧ Timeouts m * Second <= span m at_;
  mo_mean : MeanRTTNanoseconds m ≠ None ↔ Complete m = true ∧ 0 < Replies m;
  mo_mean_range : ∀ ns, MeanRTTNanoseconds m = Some ns → 0 <= ns < Second ∧ ns <= span m at_;
}.

Definition canonical_measurement (m : Measurement) : Prop :=
  canonical (StartedAt m) ∧ ∀ e, CompletedAt m = Some e → canonical e.

Lemma validateMeasurement_iff m at_ :
  canonical at_ → canonical_measurement m →
  validateMeasurement m at_ = true ↔ measurement_ok m at_.
Proof.
  intros Hat [Hst Hend]. unfold validateMeasurement. rewrite !if_false_iff.
  rewrite (After_wall (StartedAt m)) by auto.
  assert (Hc : canonical (default at_ (CompletedAt m))).
  { destruct (CompletedAt m) eqn:E; simpl; auto. }
  rewrite (Sub_wall (default _ _)) by auto. fold (span m at_).
  rewrite (Before_wall (default _ _)), (After_wall (default _ _)) by auto.
  rewrite !validTime_eq.
  assert (Hsat : ∀ d, 0 <= d <= OperationTimeout →
    (int64_saturate (span m at_) <? d) = (span m at_ <? d) ∧
    (d <=? int64_saturate (span m at_)) = (d <=? span m at_)).
  { intros d Hd. unfold OperationTimeout, Second in Hd.
    split; [apply saturate_ltb|apply saturate_geb]; unfold min_int64, max_int64; lia. }
  rewrite (proj2 (Hsat OperationTimeout ltac:(unfold OperationTimeout, Second; lia))).
  split.
  - intros (H1 & H2 & H3 & H4 & H5 & H6 & H7).
    assert (Hb : 0 <= SendCalls m <= 3 ∧ 0 <= Timeouts m <= 3) by (clear -H1; go_bool; lia).
    assert (Hmin : 0 <= Z.max (Z.max 0 (SendCalls m - 1) * Second) (Timeouts m * Second) <= OperationTimeout)
      by (unfold OperationTimeout, Second; lia).
    rewrite (proj1 (Hsat _ Hmin)) in H5.
    apply Z.ltb_ge in H5.
    constructor.
    all: try (go_bool; (assumption || lia)).
    + intros Hcm. rewrite Hcm in H3. simpl in H3. split; [clear -H3; go_bool; lia|].
      apply is_some_spec. destruct (is_some (CompletedAt m)); [done|]. by rewrite orb_true_r in H3.
    + intros e He. rewrite He in *. simpl in *. go_bool. repeat split; (assumption || lia).
    + unfold Second in *. lia.
    + rewrite <- is_some_spec. destruct (Complete m); simpl in H6.
      * apply negb_false_iff, Bool.eqb_prop in H6. rewrite H6, Z.ltb_lt. intuition.
      * rewrite H6. intuition done.
    + intros ns Hns. rewrite Hns in H7. apply negb_true_iff in H7.
      apply orb_false_iff in H7 as [H7 Hs].
      assert (Hr : 0 <= ns < Second) by (clear -H7; go_bool; lia).
      rewrite (proj1 (Hsat ns ltac:(unfold OperationTimeout, Second in *; lia))) in Hs.
      apply Z.ltb_ge in Hs. lia.
  - intros [Hat' Hst' Ho Hsd Hac Han Hre Hco Hcp [Hp1 Hp2] Hme Hmr]. split_and!.
    + rewrite Hat', Hst'. simpl. go_bool. lia.
    + go_bool. lia.
    + destruct (Complete m) eqn:Ecm; [|done]. destruct (Hco eq_refl) as [Hf Hn].
      apply is_some_spec in Hn. rewrite Hn. simpl. go_bool. lia.
    + destruct (CompletedAt m) as [e|] eqn:Ecp; [|done]. simpl in *.
      destruct (Hcp e eq_refl) as (Hv & He & Hf & Hs). rewrite Hv. simpl. go_bool. lia.
    + assert (Hmin : 0 <= Z.max (Z.max 0 (SendCalls m - 1) * Second) (Timeouts m * Second) <= OperationTimeout)
        by (unfold OperationTimeout, Second; lia).
      rewrite (proj1 (Hsat _ Hmin)). apply Z.ltb_ge. unfold Second in *. lia.
    + rewrite <- is_some_spec in Hme. destruct (Complete m); simpl.
      * apply negb_false_iff, eqb_true_iff.
        destruct (is_some (MeanRTTNanoseconds m)), (0 <? Replies m) eqn:E; go_bool; naive_solver lia.
      * destruct (is_some _); naive_solver.
    + destruct (MeanRTTNanoseconds m) as [ns|] eqn:E; [|done].
      destruct (Hmr ns eq_refl) as [Hn1 Hn2]. apply negb_true_iff.
      rewrite (proj1 (Hsat ns ltac:(unfold OperationTimeout, Second in *; lia))). go_bool. lia.
Qed.

(** A measurement stays valid at later times: the terminal audit, which reads the clock
    again, accepts what the return of the executor was accepted with. *)
Lemma measurement_later m at_ at' :
  measurement_ok m at_ → in_int64 (wall at') = true → wall at_ <= wall at' → measurement_ok m at'.
Proof.
  intros [Hat Hst Ho Hsd Hac Han Hre Hco Hcp [Hp1 Hp2] Hme Hmr] Hv Hle.
  assert (Hspan : span m at_ <= span m at' ∧ (CompletedAt m ≠ None → span m at' = span m at_)).
  { unfold span. destruct (CompletedAt m); simpl; split; naive_solver lia. }
  destruct Hspan as [Hs1 Hs2].
  constructor; try done; try lia.
  - intros e He. destruct (Hcp e He) as (? & ? & ? & ?). rewrite Hs2 by congruence. split_and!; lia || done.
  - intros ns Hns. destruct (Hmr ns Hns). split; [done|lia].
Qed.

Lemma auditMeasurement_canonical s m : auditMeasurement s = Some m → canonical_measurement m.
Proof.
  destruct s as [s|]; [|done]. intros [= <-]. split; [done|]. simpl.
  destruct (IsZero _); naive_solver.
Qed.

(** What an accepted sample is. *)
Lemma validateSample_inv s err sel started returned expires measured :
  canonical returned →
  validateSample s err sel started returned expires = Some measured →
  (measured = None ∧ err ≠ None) ∨
  (measured = Some s ∧ sampleComplete s = bool_decide (err = None) ∧
   Before (sampleStartedAt s) started = false ∧
   ∃ m, auditMeasurement (Some s) = Some m ∧ measurement_ok m returned).
Proof.
  intros Hret. unfold validateSample. destruct (bool_decide (s = zeroSample)).
  { destruct err; naive_solver. }
  match goal with |- (if ?b then _ else _) = _ → _ => destruct b eqn:E; [done|] end.
  intros [= <-]. right. rewrite !orb_false_iff, !negb_false_iff in E.
  destruct E as [[[[[[[[[[_ _] _] _] _] Hst] _] _] _] Hc] Hm].
  split_and!; [done|by apply Bool.eqb_prop|done|].
  destruct (auditMeasurement (Some s)) as [m|] eqn:Em; [|done]. exists m. split; [done|].
  apply validateMeasurement_iff; [done|by eapply auditMeasurement_canonical|done].
Qed.

(** What [normalize] accepts can be audited. *)
Lemma normalize_auditable s0 target now s :
  normalize s0 target now = Some s → well_formed_addr target → well_formed_addr (Source s0) →
  MatchString id_regex (ScopeID (Binding (Plan s))) = true ∧
  MatchString interface64_regex (InterfaceName (Binding (Plan s))) = true ∧
  1 <= InterfaceIndex (Binding (Plan s)) <= 2147483647 ∧
  GatewayPlan.Target (Plan s) = target ∧
  ValidateGatewayPreviewTarget (AddrString target) = Ok tt ∧
  ValidateGatewayPreviewTarget (AddrString (Source s)) = Ok tt ∧
  AddrString (Source s) ≠ AddrString target.
Proof.
  intros Hn Ht Hs. unfold normalize in Hn.
  match type of Hn with (if ?b then _ else _) = _ => destruct b eqn:E; [done|] end.
  apply orb_false_iff in E as [_ Hne]. apply bool_decide_eq_false in Hne.
  destruct (PreviewGatewayCheck _ (AddrString target) _) as [plan|] eqn:Ep; [|done].
  match type of Hn with (if ?b then _ else _) = _ => destruct b; [done|] end.
  destruct (PreviewGatewayCheck _ (AddrString (Source s0)) _) as [plan'|] eqn:Eq; [|done].
  injection Hn as <-. simpl.
  apply preview_iff in Ep as (m & ps & Hm & Hmt & Hpm & (Hb1 & Hb2 & Hb3 & _) & _ & _ & _ & ->).
  apply preview_iff in Eq as (m' & ps' & Hm' & Hmt' & Hpm' & _).
  assert (Htv : target = V4 m).
  { assert (Is4 target = true) as H4.
    { apply (AddrString_Is4 target (V4 m)); [|done]. rewrite Hmt. by apply ParseAddr_V4. }
    destruct target as [|n|]; try done. f_equal. simpl in Ht. by apply AddrString_V4_inj. }
  cbn [Binding ScopeID InterfaceName InterfaceIndex GatewayPlan.Target Plan Source].
  split_and!; try done; try lia.
  - apply ValidateGatewayPreviewTarget_ok. eauto.
  - apply ValidateGatewayPreviewTarget_ok. eauto.
  - intros Heq. apply Hne. rewrite Hmt' in Heq. subst target.
    apply AddrString_V4_inj in Heq; [|done..]. subst m'.
    assert (Is4 (Source s0) = true) as H4.
    { apply (AddrString_Is4 _ (V4 m)); [|done]. rewrite Hmt'. by apply ParseAddr_V4. }
    destruct (Source s0) as [|n|]; try done. f_equal. simpl in Hs. by apply AddrString_V4_inj.
Qed.

(** The description of a retained run does not depend on the order in which its
    events are read. *)
Theorem describe_order_independent events events' asOf :
  Forall (λ e, canonical (At e)) events → events ≡ₚ events' →
  DescribeRetainedRun events asOf = DescribeRetainedRun events' asOf.
Proof.
  intros Hc Hp. apply (describe_perm describeRun); [|done..].
  intros first first' phases latest latest' Hs Hl. apply same_run_spec in Hs.
  destruct Hs as (_ & _ & Hs). unfold describeRun.
  change (UTC (Round0 ?t)) with (UTC t). rewrite Hl.
  by destruct Hs as (-> & -> & -> & -> & _ & -> & -> & -> & ->).
Qed.

(** ** The package *)

Section Package.

(** SHA-256 of the JSON of what a selection is made of, without its timestamps. *)
Context (digest_bytes : Selection → string).

Definition selectionDigest (s : Selection) : string := EncodeToString (digest_bytes s).

(** The event [record] builds. *)
Definition makeEvent (rid : string) (s : Selection) (at_ : Time) (state outcome reason : string)
    (sample : option Sample) : Event :=
  mkEvent EventSchemaVersion (auditMeasurement sample) rid state outcome reason at_ Profile
    (selectionDigest s) (ScopeID (Binding (Plan s))) (InterfaceName (Binding (Plan s)))
    (InterfaceIndex (Binding (Plan s))) (AddrString (GatewayPlan.Target (Plan s))) (AddrString (Source s)).

Definition overlong (start now : Time) : bool :=
  (OperationTimeout <? Sub now start) || (OperationTimeout <? Sub (Round0 now) (Round0 start)).

Definition gatewayPackage : RunPackage := {|
  RunControl.Target := Addr;
  RunControl.Selection := Selection;
  RunControl.Sample := Sample;
  RunControl.Event := Event;
  RunControl.Selection_eq := Selection_eq_dec;
  RunControl.target_ok := λ t, Is4 t && IsPrivate t;
  RunControl.clock_ok := validTime;
  RunControl.overlong := overlong;
  RunControl.normalize := normalize;
  RunControl.evidence_at := λ s, CreatedAt (Plan s);
  RunControl.plan_expires := λ s, ReviewExpiresAt (Plan s);
  RunControl.route_fresh_until := RouteFreshUntil;
  RunControl.selection_target := λ s, GatewayPlan.Target (Plan s);
  RunControl.same_selection := sameSelection;
  RunControl.make_event := makeEvent;
  RunControl.event_valid := ValidateEvent;
  RunControl.event_state := State;
  RunControl.event_outcome := Outcome;
  RunControl.event_run := RunID;
  RunControl.validate_sample := λ s err sel _ started returned expires,
    validateSample s err sel started returned expires;
  RunControl.deadline_is_evidence := λ _, false;
  RunControl.event_state_make := λ _ _ _ _ _ _ _, eq_refl;
  RunControl.event_outcome_make := λ _ _ _ _ _ _ _, eq_refl;
  RunControl.event_run_make := λ _ _ _ _ _ _ _, eq_refl;
|}.

(** The arguments [Run] calls [record] with: the steps that carry no measurement, and
    the outcomes decided after an accepted sample. *)
Inductive reported (at_ : Time) : string → string → string → option Sample → Prop :=
| reported_plain st o r : (st, o, r) ∈ plain_reports → reported at_ st o r None
| reported_sample sample err fresh started returned expires measured o r :
    canonical returned → wall returned <= wall at_ →
    validateSample sample err fresh started returned expires = Some measured →
    (o = "canceled" ∧ r = "canceled") ∨ (o = "failed" ∧ r = "execution-error" ∧ err ≠ None) ∨
    (o = "completed" ∧ r = "" ∧ err = None) →
    reported at_ "finished" o r measured.

Lemma makeEvent_ok rid s at_ st o r m :
  MatchString hexID rid = true → MatchString hexDigest (selectionDigest s) = true →
  validTime at_ = true →
  MatchString id_regex (ScopeID (Binding (Plan s))) = true →
  MatchString interface64_regex (InterfaceName (Binding (Plan s))) = true →
  1 <= InterfaceIndex (Binding (Plan s)) <= 2147483647 →
  ValidateGatewayPreviewTarget (AddrString (GatewayPlan.Target (Plan s))) = Ok tt →
  ValidateGatewayPreviewTarget (AddrString (Source s)) = Ok tt →
  AddrString (Source s) ≠ AddrString (GatewayPlan.Target (Plan s)) →
  canonical at_ → reported at_ st o r m →
  ValidateEvent (makeEvent rid s at_ st o r m) = true.
Proof.
  intros H1 H2 H3 H4 H5 H6 H7 H8 H9 Hc Hrep. unfold ValidateEvent, makeEvent.
  cbn [SchemaVersion RunID SelectionDigest EventProfile At EventScopeID EventInterfaceName
       EventInterfaceIndex EventTarget EventSource EventMeasurement State Outcome Reason].
  rewrite H1, H2, H3, H4, H5, H7, H8. rewrite (bool_decide_eq_false_2 _ H9).
  assert ((InterfaceIndex (Binding (Plan s)) <? 1) = false) as -> by (apply Z.ltb_ge; lia).
  assert ((2147483647 <? InterfaceIndex (Binding (Plan s))) = false) as -> by (apply Z.ltb_ge; lia).
  rewrite (bool_decide_eq_true_2 (Profile = Profile)) by done.
  change (EventSchemaVersion =? 1) with false. change (EventSchemaVersion =? EventSchemaVersion) with true.
  cbn [negb orb andb is_ok].
  destruct Hrep as [st o r Hin|sample err fresh started returned expires measured o r Hr Hle Hv Ho].
  - unfold plain_reports in Hin.
    repeat (apply elem_of_cons in Hin as [[= -> -> ->]|Hin]; [reflexivity|]). by apply elem_of_nil in Hin.
  - apply validateSample_inv in Hv as [[-> Herr]|(-> & Hcm & _ & mm & Hmm & Hok)]; [|  |done].
    + destruct Ho as [[-> ->]|[(-> & -> & _)|(-> & -> & ->)]]; [reflexivity..|done].
    + rewrite Hmm.
      assert (Hval : validateMeasurement mm at_ = true).
      { apply validateMeasurement_iff; [done|by eapply auditMeasurement_canonical|].
        eapply measurement_later; [exact Hok| |done]. by apply validTime_spec. }
      assert (Complete mm = sampleComplete sample) as Hcc by by injection Hmm as <-.
      cbn [is_some is_some_complete]. rewrite Hval, Hcc, Hcm.
      destruct Ho as [[-> ->]|[(-> & -> & Hn)|(-> & -> & ->)]]; [reflexivity| |reflexivity].
      rewrite (bool_decide_eq_false_2 (err = None)) by done. reflexivity.
Qed.

(** What a gateway run reports is auditable.  Every event [Run] builds for a
    normalized selection, at a time not before the executor returned, passes the audit
    validator: an honest run is never locked by its own audit check. *)
Theorem gateway_audit_valid run s0 target now s at_ st o r m :
  (∀ s, String.length (digest_bytes s) = 32%nat) → String.length run = 16%nat →
  well_formed_addr target → well_formed_addr (Source s0) →
  normalize s0 target now = Some s →
  canonical at_ → validTime at_ = true → reported at_ st o r m →
  ValidateEvent (makeEvent (EncodeToString run) s at_ st o r m) = true.
Proof.
  intros Hd Hrun Ht Hs Hn Hc Hv Hrep.
  destruct (normalize_auditable _ _ _ _ Hn Ht Hs) as (Ha & Hb & Hi & Htg & Hvt & Hvs & Hne).
  apply makeEvent_ok; rewrite ?Htg; try done.
  - by apply (EncodeToString_hex run 16).
  - by apply (EncodeToString_hex _ 32).
Qed.

End Package.

End Gateway.
