(* ===== verification/GatewayControl.v ===== *)
(** * The gateway control at work

    The run control of [gatewayrun/control.go] is [RunControl] at the package of
    [GatewayRun].  This file runs it on a schedule: a review is prepared a minute after
    construction, consumed with consent, audited, executed and finished, a second call
    finds it consumed, and the control is shut down.  A second schedule has an unconfirmed
    audit.  The schedules are the witnesses of the theorems of [RunSpec]. *)

From S2P Require Import Prelude Regex GoTime NetAddr GatewayPlan RunControl RunSpec GatewayRun.

Module GatewayControl.
Import Gateway.

(** Any digest of 32 bytes. *)
Definition digest0 (s : Selection) : string := String.string_of_list_ascii (replicate 32 Ascii.zero).

#[local] Instance package : RunPackage := gatewayPackage digest0.

Definition t0 : Time := mkTime (1700000000 * Second) None "".
Definition at_ (s : Z) : Time := Add t0 (s * Second).

Definition target : Addr := V4 3232235777.
Definition source : Addr := V4 3232235796.

(** The preflight answer at a time. *)
Definition selected (s : Z) : Selection :=
  mkSelection
    (mkGatewayCheckPlan home_binding target (at_ s) (Add (at_ s) GatewayReviewLifetime) gatewayBudget)
    source (at_ s) (Add (at_ s) GatewayReviewLifetime).

Definition sample (s : Z) : Sample :=
  mkSample "scope.home" "en0" 4 target source (at_ s) (at_ (s + 3)) 3 3 2 1 true (Some 1500000).

Definition bytes (n : nat) : string := String.string_of_list_ascii (replicate n Ascii.one).

(** An environment at a time: everything answers, audits are confirmed. *)
Definition env (s : Z) (n : nat) : oracle :=
  mkOracle (at_ s) (Some (selected s)) (Some (bytes n)) true (Executed (sample s) None) None true.

Definition steps (i : nat) (s : Z) (n : nat) : list action := replicate n (AStep i (env s 32)).

Definition prepare_schedule : list action :=
  [ASpawn 0 (CPrepare target)] ++ steps 0 60 4 ++ [AStep 0 (env 60 16)] ++ steps 0 60 2.

(** Reservation, authorization, revalidation, admission and execution. *)
Definition run_schedule : list action :=
  [ASpawn 1 (CRun (bytes 32) true)] ++ steps 1 61 15.

(** The second attempt, the terminal audit and the shutdown. *)
Definition end_schedule : list action :=
  [ASpawn 2 (CRun (bytes 32) true)] ++ steps 2 61 1 ++ steps 1 64 6 ++
  [ASpawn 3 CShutdown] ++ steps 3 65 2.

Definition full : list action := prepare_schedule ++ run_schedule ++ end_schedule.

Definition blank : system :=
  mkSystem (mkControl true None false false None t0 t0 None false) ∅ ∅ [].

(** The system after the whole schedule. *)
Definition final : system := default blank (scheduled true t0 full).

Lemma final_scheduled : scheduled true t0 full = Some final.
Proof.
  unfold final. assert (H : is_some (scheduled true t0 full) = true) by (vm_compute; reflexivity).
  by destruct (scheduled true t0 full).
Qed.

Lemma final_reachable : reachable true t0 final.
Proof. exact (scheduled_reachable _ _ _ _ final_scheduled). Qed.

Definition review : pendingReview :=
  mkPending (bytes 32)
    (mkSelection
       (mkGatewayCheckPlan
          (mkGatewayPlanBinding "scope.home" "en0" 4 (merge_sort String.le (Prefixes home_binding)))
          target (at_ 60) (Add (at_ 60) GatewayReviewLifetime) gatewayBudget)
       source (at_ 60) (Add (at_ 60) GatewayReviewLifetime))
    (at_ 90) (at_ 90) (EncodeToString (bytes 16)).

Definition fresh_selection : Selection :=
  mkSelection
    (mkGatewayCheckPlan
       (mkGatewayPlanBinding "scope.home" "en0" 4 (merge_sort String.le (Prefixes home_binding)))
       target (at_ 61) (Add (at_ 61) GatewayReviewLifetime) gatewayBudget)
    source (at_ 61) (Add (at_ 61) GatewayReviewLifetime).

(** The three events of the run as history reads them back. *)
Definition recorded (st o : string) (s : Z) (m : option Sample) : Event :=
  makeEvent digest0 (EncodeToString (bytes 16)) (selection review) (at_ s) st o "" m.
Definition history : list Event :=
  [recorded "authorized" "" 61 None; recorded "admitted" "" 61 None;
   recorded "finished" "completed" 64 (Some (sample 61))].

(** What the schedule observes: up to the reservation, up to the execution, and after. *)
Definition observed_review : list event :=
  [EvBegin 0; EvPreflight 0 target; EvIssued 0 review; EvReleased 0].
Definition observed_audit : list event :=
  [EvAudited 1 (recorded "authorized" "" 61 None) true; EvPreflight 1 target;
   EvAudited 1 (recorded "admitted" "" 61 None) true].
Definition observed_end : list event :=
  [EvAudited 1 (recorded "finished" "completed" 64 (Some (sample 61))) true; EvReleased 1].
Definition executed : event := EvExecuted 1 fresh_selection (EncodeToString (bytes 16)).

Definition observed : list event :=
  [EvBegin 0; EvPreflight 0 target; EvIssued 0 review; EvReleased 0;
   EvReserved 1 (at_ 61) review;
   EvAudited 1 (recorded "authorized" "" 61 None) true; EvPreflight 1 target;
   EvAudited 1 (recorded "admitted" "" 61 None) true; executed;
   EvAudited 1 (recorded "finished" "completed" 64 (Some (sample 61))) true; EvReleased 1;
   EvHalted; EvDrained].

Lemma final_observed : trace final = observed.
Proof. vm_cast_no_check (eq_refl observed). Qed.

Lemma final_trace :
  trace final = observed_review ++ EvReserved 1 (at_ 61) review ::
                observed_audit ++ executed :: observed_end ++ [EvHalted; EvDrained].
Proof. exact final_observed. Qed.

Lemma final_shutdown : calls final !! 3%nat = Some (Ret (AShutdown None)).
Proof. vm_cast_no_check (eq_refl (Some (@Ret package answer (AShutdown None)))). Qed.

(** A run whose authorization is not confirmed, and the calls that come after it: its own way out and another
    preparation long after the cooldown. *)
Definition unaudited : oracle :=
  mkOracle (at_ 61) (Some (selected 61)) (Some (bytes 32)) false (Executed (sample 61) None) None true.
Definition doubtful_schedule : list action :=
  prepare_schedule ++ [ASpawn 1 (CRun (bytes 32) true)] ++ steps 1 61 3 ++ [AStep 1 unaudited].
Definition recovery_schedule : list action := steps 1 62 2 ++ [ASpawn 4 (CPrepare target)] ++ steps 4 400 2.
Definition doubtful : system := default blank (scheduled true t0 doubtful_schedule).
Definition recovered : system := default blank (schedule recovery_schedule doubtful).

Lemma doubtful_reachable : reachable true t0 doubtful.
Proof.
  apply (scheduled_reachable _ _ doubtful_schedule). unfold doubtful.
  assert (H : is_some (scheduled true t0 doubtful_schedule) = true) by (vm_compute; reflexivity).
  by destruct (scheduled true t0 doubtful_schedule).
Qed.

Lemma doubtful_recovered : rtc step doubtful recovered.
Proof.
  apply (schedule_steps recovery_schedule). unfold recovered.
  assert (H : is_some (schedule recovery_schedule doubtful) = true) by (vm_compute; reflexivity).
  by destruct (schedule recovery_schedule doubtful).
Qed.

Lemma doubtful_trace :
  trace doubtful = observed_review ++ [EvReserved 1 (at_ 61) review; EvAudited 1 (recorded "authorized" "" 61 None) false].
Proof.
  vm_cast_no_check (eq_refl (observed_review ++ [EvReserved 1 (at_ 61) review; EvAudited 1 (recorded "authorized" "" 61 None) false])).
Qed.

Lemma doubtful_audit : EvAudited 1 (recorded "authorized" "" 61 None) false ∈ trace doubtful.
Proof. rewrite doubtful_trace. apply elem_of_app. right. apply elem_of_cons. right. by apply list_elem_of_singleton. Qed.

(** The way out locks the control and releases it; the preparation is refused. *)
Example recovered_refused :
  trace recovered = trace doubtful ++ [EvHalted; EvCancel 1; EvReleased 1] ∧
  calls recovered !! 4%nat = Some (Ret (AReview (Err ErrAudit))).
Proof.
  split.
  - rewrite doubtful_trace. vm_cast_no_check (eq_refl ((observed_review ++ [EvReserved 1 (at_ 61) review; EvAudited 1 (recorded "authorized" "" 61 None) false]) ++ [EvHalted; EvCancel 1; EvReleased 1])).
  - vm_cast_no_check (eq_refl (Some (@Ret package answer (AReview (Err ErrAudit))))).
Qed.

(** *** Witnesses of the theorems of [RunSpec] *)

Lemma refinement_witness :
  ∃ s, spec_run (sp_init t0) (trace final) = Some s ∧ sim (ctl final) s.
Proof. exact (refinement true t0 final final_reachable). Defined.

Lemma executor_gated_witness : ∃ before t p seg,
  observed_review ++ EvReserved 1 (at_ 61) review :: observed_audit = before ++ EvReserved 1 t p :: seg ∧
  admitted_in 1 p seg.
Proof.
  destruct (executor_gated true t0 final (observed_review ++ EvReserved 1 (at_ 61) review :: observed_audit)
              _ _ _ (observed_end ++ [EvHalted; EvDrained]) final_reachable final_trace)
    as (before & t & p & seg & Hpre & _ & _ & Had & _).
  by exists before, t, p, seg.
Defined.

Lemma review_single_use_witness :
  live review (at_ 61) = true ∧ ∃ j before mid, observed_review = before ++ EvIssued j review :: mid.
Proof.
  destruct (review_single_use true t0 final _ _ _ _ _ final_reachable final_trace)
    as (Hl & j & before & mid & Hp & _).
  split; [exact Hl|]. by exists j, before, mid.
Defined.

Lemma cooldown_enforced_witness : Before (at_ 61) (cooldown_after t0 observed_review) = false.
Proof. exact (cooldown_enforced true t0 final _ _ _ _ _ final_reachable final_trace). Defined.

Lemma uncertainty_locks_witness :
  ∃ post, trace recovered = trace doubtful ++ post ∧ Forall (λ ev, admits ev = false) post.
Proof.
  exact (uncertainty_locks true t0 doubtful recovered doubtful_reachable
           (unc_audit _ _ _ 1%nat _ doubtful_audit) doubtful_recovered).
Defined.

Lemma exclusive_operations_witness :
  Forall (λ ev, actor ev = None ∨ actor ev = Some 1%nat) observed_audit.
Proof.
  assert (Hr : Forall (λ ev, is_release ev = false) observed_audit) by (repeat constructor).
  exact (exclusive_operations true t0 final _ _ 1%nat _ _ final_reachable final_trace
           (or_intror (ex_intro _ _ (ex_intro _ _ eq_refl))) Hr).
Defined.

Lemma shutdown_joins_witness : closed (ctl final) = true ∧ busy (ctl final) = false.
Proof.
  destruct (shutdown_joins true t0 final 3 final final_reachable final_shutdown (rtc_refl step final))
    as (H1 & H2 & _).
  exact (conj H1 H2).
Defined.

Lemma returned_releases_witness : activeCancel (ctl final) ≠ Some 3%nat.
Proof. exact (proj1 (returned_releases true t0 final final_reachable) _ _ final_shutdown). Defined.

Lemma gateway_audit_valid_witness :
  ValidateEvent (makeEvent digest0 (EncodeToString (bytes 16)) (selection review) (at_ 65)
    "finished" "completed" "" (Some (sample 61))) = true.
Proof.
  apply (gateway_audit_valid digest0 (bytes 16) (selected 60) target (at_ 60)).
  - intros s. reflexivity.
  - reflexivity.
  - split; [discriminate|reflexivity].
  - split; [discriminate|reflexivity].
  - vm_cast_no_check (eq_refl (Some (selection review))).
  - reflexivity.
  - reflexivity.
  - apply (reported_sample (at_ 65) (sample 61) None fresh_selection (at_ 61) (at_ 64) (at_ 90)).
    + reflexivity.
    + apply Z.leb_le. reflexivity.
    + vm_cast_no_check (eq_refl (Some (Some (sample 61)))).
    + right. right. split; [reflexivity|split; reflexivity].
Defined.

Example history_described :
  match DescribeRetainedRun history (at_ 100) with
  | Ok r => (AssessmentState (Assessment r), TerminalRetained r, retOutcome r) = ("some-replies", true, "completed")
  | Err _ => False
  end.
Proof. vm_compute. reflexivity. Qed.

Lemma describe_order_independent_witness :
  DescribeRetainedRun history (at_ 100) = DescribeRetainedRun (reverse history) (at_ 100).
Proof.
  apply (describe_order_independent history (reverse history) (at_ 100)).
  - repeat constructor.
  - symmetry. apply reverse_Permutation.
Defined.

End GatewayControl.
