(* ===== verification/Quality.v ===== *)
(** * Quality snapshots and their assessment

    [networkquality/model.go] and [networkquality/assess.go]: bounded snapshots of
    already collected evidence, their validator, and the assessor that describes every
    selected check by its latest measurement. *)

From Stdlib Require Import Ascii.
From S2P Require Import Prelude GoFloat Regex GoTime Latest.

Module Quality.

Definition MaxTargets : Z := 16.
Definition MaxMeasurements : Z := 128.
Definition MaxWindow : Duration := 24 * Hour.
Definition MaxFreshness : Duration := 15 * Minute.
Definition MaxCheckTime : Duration := 30 * Second.
Definition MaxAttempts : Z := 10.

(** The enumerations are strings in the source, and are decoded and validated as such. *)
Definition Layer := string.
Definition LayerLink : Layer := "local-link".
Definition LayerGateway : Layer := "gateway".
Definition LayerDNS : Layer := "dns".
Definition LayerExternal : Layer := "external-target".

Definition Method := string.
Definition MethodInterface : Method := "interface-state".
Definition MethodICMP : Method := "icmp-echo".
Definition MethodDNS : Method := "dns-query".
Definition MethodHTTPS : Method := "https-request".

Definition AddressFamily := string.
Definition FamilyNone : AddressFamily := "not-applicable".
Definition FamilyIPv4 : AddressFamily := "ipv4".
Definition FamilyIPv6 : AddressFamily := "ipv6".

Record Observer := mkObserver {
  ScopeID : string;
  SensorID : string;
  InterfaceName : string;
  InterfaceIndex : Z;
}.

Record Target := mkTarget {
  TargetID : string;
  TargetLayer : Layer;
  TargetMethod : Method;
  TargetFamily : AddressFamily;
}.

Definition Outcome := string.
Definition OutcomeSucceeded : Outcome := "succeeded".
Definition OutcomePartial : Outcome := "partial".
Definition OutcomeFailed : Outcome := "failed".
Definition OutcomeUnavailable : Outcome := "unavailable".
Definition OutcomeNotRun : Outcome := "not-run".

Definition GapReason := string.
Definition GapNone : GapReason := "".
Definition GapPermission : GapReason := "permission-required".
Definition GapUnsupported : GapReason := "unsupported".
Definition GapSourceUnavailable : GapReason := "source-unavailable".
Definition GapDisabled : GapReason := "disabled".
Definition GapNotConfigured : GapReason := "not-configured".
Definition GapSleep : GapReason := "controller-sleep".
Definition GapOffline : GapReason := "controller-offline".
Definition GapNetworkChanged : GapReason := "network-changed".

Record Measurement := mkMeasurement {
  ID : string;
  MeasuredTarget : string;
  MeasuredBy : Observer;
  StartedAt : Time;
  CompletedAt : Time;
  MeasuredOutcome : Outcome;
  Gap : GapReason;
  Attempts : Z;
  Successes : Z;
  MeanLatency : option Duration;
}.

Record Snapshot := mkSnapshot {
  SnapshotObserver : Observer;
  AsOf : Time;
  WindowStart : Time;
  Freshness : Duration;
  Targets : list Target;
  Measurements : list Measurement;
}.

#[export] Instance Observer_eq_dec : EqDecision Observer.
Proof. solve_decision. Defined.
#[export] Instance Target_eq_dec : EqDecision Target.
Proof. solve_decision. Defined.
#[export] Instance Measurement_eq_dec : EqDecision Measurement.
Proof. solve_decision. Defined.

Definition tokenPattern : regex := token_regex.
Definition interfacePattern : regex := interface_regex.

Definition validToken (value : string) : bool :=
  (0 <? slen value) && (slen value <=? 128) && MatchString tokenPattern value.

Definition validObserver (o : Observer) : bool :=
  validToken (ScopeID o) && validToken (SensorID o) &&
  (0 <? slen (InterfaceName o)) && (slen (InterfaceName o) <=? 64) &&
  MatchString interfacePattern (InterfaceName o) && (0 <? InterfaceIndex o).

(** A run identifier, which is 32 hexadecimal digits, is a token. *)
Lemma hex_token s : MatchString (hex_regex 32) s = true → validToken s = true.
Proof.
  intros [Hl Hf]%hex_regex_spec. unfold validToken, slen. rewrite Hl.
  cbn [andb Z.of_nat Z.ltb Z.leb]. apply matches_spec.
  destruct s as [|c s]; [done|]. simpl in Hf |- *. apply Forall_cons in Hf as [Hc Hw].
  assert (Hd : ∀ x, hex_digit x = true → lower_digit x = true).
  { intros x. unfold hex_digit, lower_digit, is_lower, in_range. rewrite !orb_true_iff, !andb_true_iff, !Z.leb_le.
    change (byte_of "a"%char) with 97. change (byte_of "f"%char) with 102. change (byte_of "z"%char) with 122.
    intros [?|?]; [by right|left]. lia. }
  exists (c :: String.list_ascii_of_string s), []. rewrite app_nil_r. split; [done|]. split; [|constructor].
  exists [c], (String.list_ascii_of_string s). split; [done|]. split; [by exists c; auto|].
  clear Hl Hc. induction Hw as [|x w Hx Hw IH]; [constructor|].
  change (x :: w) with ([x] ++ w). constructor; [by exists x; auto|done].
Qed.

(** An observer the assessors accept. *)
Definition observer_ok (o : Observer) : Prop :=
  validObserver o = true ∧ InterfaceIndex o <= 2147483647.

(** The instants of a measurement of at most a day as seen at a time. *)
Definition window_ok (start end_ now : Time) : Prop :=
  in_int64 (wall start) = true ∧ in_int64 (wall now + Second) = true ∧
  wall start <= wall end_ <= wall now ∧ wall now - wall start <= MaxWindow.

Lemma window_int64 start end_ now :
  window_ok start end_ now → in_int64 (wall end_) = true ∧ in_int64 (wall now) = true.
Proof. unfold window_ok, in_int64, Second. intros (H1 & H2 & H3 & H4). go_bool. split; go_bool; lia. Qed.

Lemma window_later start end_ now now' :
  window_ok start end_ now → wall now <= wall now' → in_int64 (wall now' + Second) = true →
  wall now' - wall start <= MaxWindow → window_ok start end_ now'.
Proof. unfold window_ok. intros (? & ? & ? & ?) ? ? ?. split_and!; (done || lia). Qed.

Definition validateTarget (t : Target) : result string unit :=
  guard? negb (validToken (TargetID t)) else "quality target id is invalid" in
  if TargetLayer t == LayerLink then
    if (TargetMethod t == MethodInterface) && (TargetFamily t == FamilyNone) then Ok tt
    else Err "local link requires interface-state with no address family"
  else
    guard? (TargetFamily t != FamilyIPv4) && (TargetFamily t != FamilyIPv6)
    else "quality target address family is invalid" in
    if ((TargetLayer t == LayerGateway) && (TargetMethod t == MethodICMP)) ||
       ((TargetLayer t == LayerDNS) && (TargetMethod t == MethodDNS)) ||
       ((TargetLayer t == LayerExternal) &&
        ((TargetMethod t == MethodICMP) || (TargetMethod t == MethodHTTPS)))
    then Ok tt
    else Err "quality layer and method combination is invalid".

Definition unavailable_gap (g : GapReason) : bool :=
  (g == GapPermission) || (g == GapUnsupported) || (g == GapSourceUnavailable).
Definition not_run_gap (g : GapReason) : bool :=
  (g == GapDisabled) || (g == GapNotConfigured) || (g == GapSleep) || (g == GapOffline) ||
  (g == GapNetworkChanged).


(** The check counts of a measured probe. *)
Definition validateCounts (m : Measurement) : result string unit :=
  guard? (Attempts m <? 1) || (MaxAttempts <? Attempts m) || (Successes m <? 0) || (Attempts m <? Successes m)
  else "quality check counts are invalid" in
  guard? ((MeasuredOutcome m == OutcomeSucceeded) && negb (Successes m =? Attempts m)) ||
         ((MeasuredOutcome m == OutcomePartial) && ((Successes m =? 0) || (Successes m =? Attempts m))) ||
         ((MeasuredOutcome m == OutcomeFailed) && negb (Successes m =? 0))
  else "quality outcome contradicts check counts" in
  match MeanLatency m with
  | Some l =>
      guard? (Successes m =? 0) || (l <? 0) || (Sub (CompletedAt m) (StartedAt m) <? l)
      else "quality latency is inconsistent with successful checks" in
      Ok tt
  | None => Ok tt
  end.

Definition validateMeasurement (t : Target) (m : Measurement) : result string unit :=
  if (MeasuredOutcome m == OutcomeUnavailable) || (MeasuredOutcome m == OutcomeNotRun) then
    guard? negb (Attempts m =? 0) || negb (Successes m =? 0) || is_some (MeanLatency m)
    else "unmeasured quality check cannot carry metrics" in
    if (if MeasuredOutcome m == OutcomeUnavailable then unavailable_gap (Gap m) else not_run_gap (Gap m))
    then Ok tt
    else Err "unmeasured quality check requires a matching gap reason"
  else if (MeasuredOutcome m == OutcomeSucceeded) || (MeasuredOutcome m == OutcomePartial) ||
          (MeasuredOutcome m == OutcomeFailed) then
    guard? MaxCheckTime <? Sub (CompletedAt m) (StartedAt m) else "quality check exceeds duration bound" in
    guard? Gap m != GapNone else "measured quality check cannot carry a gap reason" in
    if TargetMethod t == MethodInterface then
      guard? (MeasuredOutcome m == OutcomePartial) || negb (Attempts m =? 0) || negb (Successes m =? 0) ||
             is_some (MeanLatency m)
      else "interface-state cannot carry probe metrics or a partial outcome" in
      Ok tt
    else validateCounts m
  else Err "quality measurement outcome is invalid".

(** The loop over the targets. *)
Definition target_step (targets : gmap string Target) (t : Target) : result string (gmap string Target) :=
  check? validateTarget t in
  guard? is_some (targets !! TargetID t) else "duplicate quality target" in
  Ok (<[TargetID t := t]> targets).

(** The loop over the measurements: the identifiers seen and, per target, the
    completion times seen. *)
Definition measurement_step (s : Snapshot) (targets : gmap string Target)
    (st : list string * list (string * Time)) (m : Measurement)
  : result string (list string * list (string * Time)) :=
  let '(seen, ends) := st in
  guard? negb (validToken (ID m)) else "quality measurement id is invalid" in
  guard? bool_decide (ID m ∈ seen) else "duplicate quality measurement" in
  let seen := ID m :: seen in
  match targets !! MeasuredTarget m with
  | None => Err "quality measurement is outside the selected context"
  | Some target =>
      guard? MeasuredBy m != SnapshotObserver s else "quality measurement is outside the selected context" in
      guard? IsZero (StartedAt m) || IsZero (CompletedAt m) || Before (StartedAt m) (WindowStart s) ||
             After (CompletedAt m) (AsOf s) || Before (CompletedAt m) (StartedAt m)
      else "quality measurement timestamps are invalid" in
      let end_ := (TargetID target, UTC (Round0 (CompletedAt m))) in
      guard? bool_decide (end_ ∈ ends) else "quality target has ambiguous simultaneous measurements" in
      check? validateMeasurement target m in
      Ok (seen, end_ :: ends)
  end.

Definition ValidateSnapshot (s : Snapshot) : result string unit :=
  guard? negb (validObserver (SnapshotObserver s)) else "quality observer is invalid" in
  guard? IsZero (AsOf s) || IsZero (WindowStart s) || After (WindowStart s) (AsOf s) ||
         (MaxWindow <? Sub (AsOf s) (WindowStart s))
  else "quality assessment window is invalid" in
  guard? (Freshness s <? Second) || (MaxFreshness <? Freshness s)
  else "quality freshness must be between one second and fifteen minutes" in
  guard? (MaxTargets <? llen (Targets s)) || (MaxMeasurements <? llen (Measurements s))
  else "quality input exceeds collection bounds" in
  let? targets := for_each target_step (Targets s) ∅ in
  check? for_each (measurement_step s targets) (Measurements s) ([], []) in
  Ok tt.

(** ** Assessment *)

Definition State := string.
Definition StateUnknown : State := "unknown".
Definition StateNotMeasured : State := "not-measured".
Definition StateStale : State := "stale".
Definition StateSucceeded : State := "check-succeeded".
Definition StateIssueObserved : State := "issue-observed".

Definition Confidence := string.
Definition ConfidenceUnknown : Confidence := "unknown".
Definition ConfidenceLimited : Confidence := "limited".

Record CheckAssessment := mkCheckAssessment {
  CheckTarget : Target;
  CheckState : State;
  CheckConfidence : Confidence;
  EvidenceID : string;
  CheckStartedAt : Time;
  CheckCompletedAt : Time;
  FreshUntil : Time;
  CheckGap : GapReason;
  CheckAttempts : Z;
  CheckSuccesses : Z;
  CheckMeanLatency : option Duration;
  ReplyLossPercent : option float64;
  Summary : string;
  NextStep : string;
}.

Record Report := mkReport {
  ReportObserver : Observer;
  ReportAsOf : Time;
  ReportWindowStart : Time;
  Checks : list CheckAssessment;
  Limitations : list string;
}.

Definition gapCopy (reason : GapReason) : string * string :=
  if reason == GapPermission then
    ("This check could not run with the available permissions.",
     "Review the permission requirement; no network failure was measured.")
  else if reason == GapUnsupported then
    ("This measurement is unavailable on the current platform.",
     "Use a supported measurement source; do not interpret missing support as poor connectivity.")
  else if reason == GapSourceUnavailable then
    ("The measurement source was unavailable.",
     "Check the measurement source and retry without changing network configuration.")
  else if reason == GapDisabled then
    ("This check is disabled.",
     "Leave it disabled, or review its scope and privacy impact before enabling it.")
  else if reason == GapNotConfigured then
    ("This check has no configured destination.",
     "Select an authorized destination only when this measurement is needed.")
  else if reason == GapSleep then
    ("No measurement was taken during the recorded controller sleep gap.",
     "Collect fresh evidence after resume; the gap is not a measured outage.")
  else if reason == GapOffline then
    ("No measurement was taken during the recorded controller offline gap.",
     "Restore the controller and collect fresh evidence; network connectivity during the gap is unknown.")
  else if reason == GapNetworkChanged then
    ("The network binding changed, so this check did not run.",
     "Review network enrollment before collecting more evidence.")
  else
    ("This check was not measured.", "Review the measurement source before retrying.").

Definition measurementCopy (t : Target) (outcome : Outcome) : string * string :=
  if TargetLayer t == LayerLink then
    if outcome == OutcomeSucceeded then
      ("The local interface reported up.",
       "Interface state alone does not establish gateway, DNS, or internet reachability.")
    else
      ("The local interface reported down.",
       "Review this device's local connection; other devices and paths were not assessed.")
  else if outcome == OutcomePartial then
    if TargetMethod t == MethodICMP then
      ("Some ICMP probes were unanswered.",
       "Compare a later bounded sample; filtering or target load can affect probe replies.")
    else if TargetMethod t == MethodDNS then
      ("Some DNS checks to the selected resolver failed.",
       "Review resolver evidence; failed DNS checks are not a packet-loss measurement.")
    else
      ("Some HTTPS checks to the selected target failed.",
       "Compare other authorized evidence before inferring a wider connectivity problem.")
  else if TargetLayer t == LayerGateway then
    if outcome == OutcomeSucceeded then
      ("The selected gateway answered the ICMP check.",
       "This result does not establish DNS or external connectivity.")
    else
      ("The selected gateway did not answer this ICMP check.",
       "Review the gateway and local connection; ICMP may be filtered.")
  else if TargetLayer t == LayerDNS then
    if outcome == OutcomeSucceeded then
      ("The selected resolver completed the DNS check.",
       "This result is limited to the selected resolver and query, not all DNS or internet traffic.")
    else
      ("The DNS check to the selected resolver failed.",
       "Review resolver settings and corroborating evidence before changing DNS configuration.")
  else
    if outcome == OutcomeSucceeded then
      ("The selected external target passed this check.",
       "This result is limited to this target, protocol, address family, and observation point.")
    else
      ("The selected external target did not pass this check.",
       "Compare other authorized evidence before concluding there is a wider internet problem.").

Definition assessMeasurement (t : Target) (m : Measurement) (asOf : Time) (freshness : Duration)
  : CheckAssessment :=
  let freshUntil := Add (CompletedAt m) freshness in
  let check state confidence latency loss copy :=
    mkCheckAssessment t state confidence (ID m) (StartedAt m) (CompletedAt m) freshUntil (Gap m)
      (Attempts m) (Successes m) latency loss (fst copy) (snd copy) in
  if negb (After freshUntil asOf) then
    check StateStale ConfidenceUnknown None None
      ("This check has only historical evidence.",
       "Collect a fresh authorized measurement; a gap does not establish a network outage.")
  else if (MeasuredOutcome m == OutcomeUnavailable) || (MeasuredOutcome m == OutcomeNotRun) then
    check StateNotMeasured ConfidenceUnknown None None (gapCopy (Gap m))
  else
    check (if MeasuredOutcome m != OutcomeSucceeded then StateIssueObserved else StateSucceeded)
      ConfidenceLimited (MeanLatency m)
      (if TargetMethod t == MethodICMP then Some (percent (Attempts m - Successes m) (Attempts m)) else None)
      (measurementCopy t (MeasuredOutcome m)).

Definition no_measurement (t : Target) : CheckAssessment :=
  mkCheckAssessment t StateUnknown ConfidenceUnknown "" zeroTime zeroTime zeroTime "" 0 0 None None
    "No measurement is available for this check."
    "Review setup before collecting a fresh, explicitly authorized measurement.".

Definition limitations : list string :=
  ["These measurements describe one observing device and interface, not the whole home.";
   "Network quality is separate from security findings and monitoring coverage.";
   "One failed check does not establish an internet outage; targets or protocols may be unavailable or filtered."].

Definition Assess (s : Snapshot) : result string Report :=
  check? ValidateSnapshot s in
  let latest := latest MeasuredTarget CompletedAt (Measurements s) in
  Ok (mkReport (SnapshotObserver s) (AsOf s) (WindowStart s)
        (map (λ t, match latest !! TargetID t with
                   | Some m => assessMeasurement t m (AsOf s) (Freshness s)
                   | None => no_measurement t
                   end) (Targets s))
        limitations).

(** ** Which snapshots are valid *)

(** A measurement of a selected target, by the observer of the snapshot, inside the
    window and consistent with its outcome. *)
Definition evidence_ok (s : Snapshot) (m : Measurement) : Prop :=
  validToken (ID m) = true ∧
  (∃ t, t ∈ Targets s ∧ TargetID t = MeasuredTarget m ∧ validateMeasurement t m = Ok tt) ∧
  MeasuredBy m = SnapshotObserver s ∧
  IsZero (StartedAt m) = false ∧ IsZero (CompletedAt m) = false ∧
  Before (StartedAt m) (WindowStart s) = false ∧ After (CompletedAt m) (AsOf s) = false ∧
  Before (CompletedAt m) (StartedAt m) = false.

Record snapshot_ok (s : Snapshot) : Prop := mkSnapshotOk {
  so_observer : validObserver (SnapshotObserver s) = true;
  so_asof : IsZero (AsOf s) = false;
  so_start : IsZero (WindowStart s) = false;
  so_order : After (WindowStart s) (AsOf s) = false;
  so_window : Sub (AsOf s) (WindowStart s) <= MaxWindow;
  so_fresh : Second <= Freshness s <= MaxFreshness;
  so_targets_bound : llen (Targets s) <= MaxTargets;
  so_bound : llen (Measurements s) <= MaxMeasurements;
  so_targets : Forall (λ t, validateTarget t = Ok tt) (Targets s);
  so_target_ids : NoDup (map TargetID (Targets s));
  so_evidence : Forall (evidence_ok s) (Measurements s);
  so_ids : NoDup (map ID (Measurements s));
  so_unambiguous : unambiguous MeasuredTarget CompletedAt (Measurements s);
}.

Lemma target_step_ok acc t acc' :
  target_step acc t = Ok acc' ↔
  validateTarget t = Ok tt ∧ acc !! TargetID t = None ∧ acc' = <[TargetID t := t]> acc.
Proof.
  unfold target_step. rewrite res_bind_ok. setoid_rewrite guard_ok. setoid_rewrite is_some_false.
  split; [intros ([] & ? & ? & [= <-]); done|]. intros (? & ? & ->). by exists tt.
Qed.

Lemma quality_measurement_step_ok s seen ends m st :
  NoDup (map TargetID (Targets s)) →
  measurement_step s (index TargetID (Targets s)) (seen, ends) m = Ok st ↔
  evidence_ok s m ∧ ID m ∉ seen ∧ end_key MeasuredTarget CompletedAt m ∉ ends ∧
  st = (ID m :: seen, end_key MeasuredTarget CompletedAt m :: ends).
Proof.
  intros Hn. unfold measurement_step, evidence_ok, end_key. rewrite !guard_ok.
  rewrite negb_false_iff, bool_decide_eq_false.
  destruct (index TargetID (Targets s) !! MeasuredTarget m) as [t|] eqn:E.
  - destruct (proj1 (index_some TargetID (Targets s) _ _ Hn) E) as [Hin Hid]. rewrite <- Hid.
    rewrite !guard_ok, res_bind_ok, negb_false_iff, bool_decide_eq_true, bool_decide_eq_false.
    rewrite !orb_false_iff. split.
    + intros (Ht & Hs & Ho & Htm & He & ([] & Hv & [= <-])). naive_solver.
    + intros ((Ht & (t' & Hin' & Hid' & Hv) & Ho & Htm) & Hs & He & ->).
      assert (t' = t) as ->.
      { rewrite <- Hid' in Hid.
        assert (index TargetID (Targets s) !! TargetID t' = Some t') as H1 by by apply index_some.
        assert (index TargetID (Targets s) !! TargetID t' = Some t) as H2 by by apply index_some.
        congruence. }
      naive_solver.
  - apply index_none in E. split; [naive_solver|].
    intros ((_ & (t & Hin & Hid & _) & _) & _). exfalso. apply E. rewrite <- Hid.
    by apply list_elem_of_fmap_2.
Qed.

(** [ValidateSnapshot] accepts exactly the snapshots with a valid observer and window,
    bounded and distinct targets, and distinct, bounded measurements of selected targets
    inside the window, no two of one target at the same instant. *)
Lemma validate_snapshot_iff s : ValidateSnapshot s = Ok tt ↔ snapshot_ok s.
Proof.
  unfold ValidateSnapshot. rewrite !guard_ok, res_bind_ok.
  setoid_rewrite (index_loop TargetID _ target_step target_step_ok). setoid_rewrite res_bind_ok.
  rewrite !orb_false_iff, negb_false_iff, !Z.ltb_ge. split.
  - intros (Ho & (((Ha & Hw) & Hord) & Hwin) & [Hf1 Hf2] & [Hb1 Hb2] & (tm & (Ht & Hn & ->) & st & Hl & _)).
    apply (seen_loop ID MeasuredTarget CompletedAt (evidence_ok s)) in Hl as (He & Hids & Hends & _);
      [|intros; by apply quality_measurement_step_ok].
    apply end_keys_unambiguous in Hends. by constructor.
  - intros []. split_and!; try lia; try done.
    eexists. split; [by split_and!|]. eexists. split; [|done].
    apply (seen_loop ID MeasuredTarget CompletedAt (evidence_ok s));
      [intros; by apply quality_measurement_step_ok|].
    split_and!; try done. by apply end_keys_unambiguous.
Qed.

(** [ValidateSnapshot] accepts exactly the snapshots with a valid observer and window,
    bounded and distinct targets, and distinct, bounded measurements of selected targets
    inside the window, no two of one target at the same instant. *)
Theorem validate_snapshot_spec s : ValidateSnapshot s = Ok tt ↔ snapshot_ok s.
Proof. apply validate_snapshot_iff. Qed.

(** ** What a report says *)

Definition with_measurements (s : Snapshot) (ms : list Measurement) : Snapshot :=
  mkSnapshot (SnapshotObserver s) (AsOf s) (WindowStart s) (Freshness s) (Targets s) ms.

Definition canonical_evidence (s : Snapshot) : Prop := all_canonical CompletedAt (Measurements s).

Lemma snapshot_ok_perm s ms :
  Measurements s ≡ₚ ms → snapshot_ok s → snapshot_ok (with_measurements s ms).
Proof.
  intros Hp []. constructor; simpl; try done.
  - unfold llen in *. by rewrite <- (Permutation_length Hp).
  - change (Forall (evidence_ok s) ms). by rewrite <- Hp.
  - by rewrite <- (Permutation_map ID Hp).
  - unfold unambiguous in *. by rewrite <- (Permutation_map _ Hp).
Qed.

Lemma Assess_ok s r :
  Assess s = Ok r ↔
  snapshot_ok s ∧
  r = mkReport (SnapshotObserver s) (AsOf s) (WindowStart s)
        (map (λ t, match latest MeasuredTarget CompletedAt (Measurements s) !! TargetID t with
                   | Some m => assessMeasurement t m (AsOf s) (Freshness s)
                   | None => no_measurement t
                   end) (Targets s))
        limitations.
Proof.
  unfold Assess. rewrite res_bind_ok, <- validate_snapshot_iff. split.
  - intros ([] & Hv & [= <-]). done.
  - intros [Hv ->]. by exists tt.
Qed.

(** The assessment does not depend on the order of the measurements, when they carry
    no monotonic readings: a permutation is accepted as well, with the same report. *)
Theorem assess_order_independent s ms r :
  canonical_evidence s → Measurements s ≡ₚ ms →
  Assess s = Ok r → Assess (with_measurements s ms) = Ok r.
Proof.
  intros Hc Hp (Hok & ->)%Assess_ok. apply Assess_ok. split; [by apply snapshot_ok_perm|].
  simpl. by rewrite <- (latest_perm MeasuredTarget CompletedAt _ _ Hc (so_unambiguous s Hok) Hp).
Qed.

(** Every check of a report describes its target by the latest measurement of it. *)
Lemma report_checks s r c :
  canonical_evidence s → Assess s = Ok r → c ∈ Checks r →
  ∃ t, t ∈ Targets s ∧ CheckTarget c = t ∧
    ((c = no_measurement t ∧ Forall (λ m, MeasuredTarget m ≠ TargetID t) (Measurements s)) ∨
     ∃ m, is_latest MeasuredTarget CompletedAt (Measurements s) (TargetID t) m ∧
          c = assessMeasurement t m (AsOf s) (Freshness s)).
Proof.
  intros Hc (Hok & ->)%Assess_ok. simpl. intros (t & -> & Ht)%list_elem_of_fmap.
  exists t. split; [done|].
  destruct (latest MeasuredTarget CompletedAt (Measurements s) !! TargetID t) as [m|] eqn:E.
  - apply latest_some in E; [|done]. split; [|by eauto].
    unfold assessMeasurement. by repeat case_match.
  - apply latest_none in E. auto.
Qed.

Lemma evidence_of s t m :
  snapshot_ok s → t ∈ Targets s → m ∈ Measurements s → MeasuredTarget m = TargetID t →
  validateMeasurement t m = Ok tt.
Proof.
  intros Hok Ht Hm Hk. pose proof (so_evidence s Hok) as He. rewrite Forall_forall in He.
  destruct (He m Hm) as (_ & (t' & Ht' & Hid & Hv) & _).
  assert (t' = t) as ->; [|done].
  assert (index TargetID (Targets s) !! TargetID t' = Some t') as H1
    by (apply index_some; [apply Hok|done]).
  assert (index TargetID (Targets s) !! TargetID t' = Some t) as H2
    by (apply index_some; [apply Hok|split; [done|congruence]]).
  congruence.
Qed.

(** C11: a check is reported as succeeded only by its latest evidence.  The measurement
    that completed last for the target was a success, is still fresh, records no gap, and
    a probe had between one and ten attempts, all answered: a newer gap or failure always
    supersedes an older success.  The completion times carry no monotonic reading, as those of
    decoded evidence do not. *)
Theorem succeeded_sound s r c :
  canonical_evidence s → Assess s = Ok r → c ∈ Checks r → CheckState c = StateSucceeded →
  ∃ m, is_latest MeasuredTarget CompletedAt (Measurements s) (TargetID (CheckTarget c)) m ∧
    EvidenceID c = ID m ∧ MeasuredOutcome m = OutcomeSucceeded ∧ Gap m = GapNone ∧
    wall (AsOf s) < wall (CompletedAt m) + Freshness s ∧
    (TargetMethod (CheckTarget c) ≠ MethodInterface → 1 <= Attempts m <= 10 ∧ Successes m = Attempts m).
Proof.
  intros Hc Ha Hin Hs. pose proof Ha as [Hok _]%Assess_ok.
  destruct (report_checks s r c Hc Ha Hin) as (t & Ht & Hct & [[-> _]|(m & Hl & ->)]); [done|].
  exists m. rewrite Hct. split; [done|].
  destruct Hl as (Hm & Hk & _). pose proof (evidence_of s t m Hok Ht Hm Hk) as Hv.
  unfold canonical_evidence, all_canonical in Hc. rewrite Forall_forall in Hc. specialize (Hc m Hm).
  unfold assessMeasurement in Hs |- *.
  rewrite After_wall in Hs |- * by (left; by apply canonical_Add). rewrite wall_Add in Hs |- *.
  destruct (Z.ltb_spec (wall (AsOf s)) (wall (CompletedAt m) + Freshness s)) as [Hlt|]; [|done].
  cbn [negb] in Hs |- *.
  destruct ((MeasuredOutcome m == OutcomeUnavailable) || (MeasuredOutcome m == OutcomeNotRun)) eqn:Eo; [done|].
  destruct (bool_decide (MeasuredOutcome m = OutcomeSucceeded)) eqn:Es; [|done].
  apply bool_decide_eq_true in Es. cbn [EvidenceID CheckTarget].
  unfold validateMeasurement in Hv. rewrite Eo, Es in Hv. cbn [orb] in Hv.
  rewrite (bool_decide_eq_true_2 (OutcomeSucceeded = OutcomeSucceeded)) in Hv by done. cbn [orb] in Hv.
  apply guard_ok in Hv as [_ Hv]. apply guard_ok in Hv as [Hg Hv].
  apply negb_false_iff, bool_decide_eq_true in Hg. split_and!; try done.
  intros Hmeth. rewrite (bool_decide_eq_false_2 _ Hmeth) in Hv. unfold validateCounts in Hv.
  apply guard_ok in Hv as [Hb Hv]. apply guard_ok in Hv as [Hn _]. rewrite Es in Hn.
  unfold MaxAttempts in Hb. simpl in Hn. go_bool. lia.
Qed.

(** ** Reply loss *)

(** The percentages of at most ten attempts, all of them computed. *)
Definition loss_ok (a n : nat) : bool :=
  let x := percent (Z.of_nat n) (Z.of_nat a) in
  float_leb (float_of_int 0) x && float_leb x (float_of_int 100) &&
  Bool.eqb (float_eqb x (float_of_int 0)) (n =? 0)%nat &&
  Bool.eqb (float_eqb x (float_of_int 100)) (n =? a)%nat.

Lemma loss_table : forallb (λ a, forallb (loss_ok a) (seq 0 (S a))) (seq 1 10) = true.
Proof. vm_compute. reflexivity. Qed.

Lemma percent_range a n :
  1 <= a <= 10 → 0 <= n <= a →
  float_leb (float_of_int 0) (percent n a) = true ∧ float_leb (percent n a) (float_of_int 100) = true ∧
  (float_eqb (percent n a) (float_of_int 0) = true ↔ n = 0) ∧
  (float_eqb (percent n a) (float_of_int 100) = true ↔ n = a).
Proof.
  intros Ha Hn. pose proof loss_table as H. rewrite forallb_true_iff, Forall_forall in H.
  specialize (H (Z.to_nat a) ltac:(apply elem_of_seq; lia)).
  rewrite forallb_true_iff, Forall_forall in H.
  specialize (H (Z.to_nat n) ltac:(apply elem_of_seq; lia)). unfold loss_ok in H.
  rewrite !Z2Nat.id in H by lia. rewrite !andb_true_iff, !eqb_true_iff in H.
  destruct H as (((H1 & H2) & H3) & H4). rewrite H3, H4, !Nat.eqb_eq. split_and!; [done..| |]; lia.
Qed.

(** A reply loss is reported only for a fresh, measured ICMP check, lies between 0
    and 100 percent, is 0 exactly when every request of the sample was answered and 100
    exactly when none was. *)
Theorem reply_loss_range s r c x :
  canonical_evidence s → Assess s = Ok r → c ∈ Checks r → ReplyLossPercent c = Some x →
  TargetMethod (CheckTarget c) = MethodICMP ∧
  (CheckState c = StateSucceeded ∨ CheckState c = StateIssueObserved) ∧
  float_leb (float_of_int 0) x = true ∧ float_leb x (float_of_int 100) = true ∧
  (float_eqb x (float_of_int 0) = true ↔ CheckState c = StateSucceeded) ∧
  (float_eqb x (float_of_int 100) = true ↔ CheckSuccesses c = 0).
Proof.
  intros Hc Ha Hin Hx. pose proof Ha as [Hok _]%Assess_ok.
  destruct (report_checks s r c Hc Ha Hin) as (t & Ht & Hct & [[-> _]|(m & Hl & ->)]); [done|].
  rewrite Hct. destruct Hl as (Hm & Hk & _). pose proof (evidence_of s t m Hok Ht Hm Hk) as Hv.
  unfold assessMeasurement in Hx |- *. destruct (negb (After _ _)); [done|].
  unfold validateMeasurement in Hv.
  destruct ((MeasuredOutcome m == OutcomeUnavailable) || (MeasuredOutcome m == OutcomeNotRun)); [done|].
  cbn [ReplyLossPercent CheckState CheckSuccesses] in Hx |- *.
  destruct (bool_decide_reflect (TargetMethod t = MethodICMP)) as [Hmeth|]; [|done]. injection Hx as <-.
  destruct ((MeasuredOutcome m == OutcomeSucceeded) || (MeasuredOutcome m == OutcomePartial) ||
            (MeasuredOutcome m == OutcomeFailed)) eqn:Eo; [|done].
  apply guard_ok in Hv as [_ Hv]. apply guard_ok in Hv as [_ Hv]. rewrite Hmeth in Hv.
  change (bool_decide (MethodICMP = MethodInterface)) with false in Hv. unfold validateCounts in Hv.
  apply guard_ok in Hv as [Hb Hv]. apply guard_ok in Hv as [Hn _].
  assert (Hr : 1 <= Attempts m <= 10 ∧ 0 <= Successes m <= Attempts m)
    by (clear -Hb; unfold MaxAttempts in Hb; go_bool; lia).
  destruct (percent_range (Attempts m) (Attempts m - Successes m)) as (H1 & H2 & H3 & H4); [lia..|].
  assert (Hs : MeasuredOutcome m = OutcomeSucceeded ↔ Attempts m - Successes m = 0).
  { apply orb_true_iff in Eo as [[E|E]%orb_true_iff|E]; apply bool_decide_eq_true in E;
      rewrite E in *; simpl in Hn; go_bool; (split; [try discriminate|]; intros; try done; lia). }
  split_and!; try done.
  - destruct (bool_decide_reflect (MeasuredOutcome m = OutcomeSucceeded)); simpl; auto.
  - rewrite H3, <- Hs.
    destruct (bool_decide_reflect (MeasuredOutcome m = OutcomeSucceeded)); simpl; [done|].
    split; [done|discriminate].
  - rewrite H4. lia.
Qed.

(** ** Examples *)

Definition clock (sec : Z) : Time := mkTime ((1700000000 + sec) * Second) None "".
Definition sensor : Observer := mkObserver "scope.home" "sensor-1" "en0" 4.
Definition gateway_target : Target := mkTarget "gateway" LayerGateway MethodICMP FamilyIPv4.
Definition probe (id : string) (start end_ : Time) (outcome : Outcome) (successes : Z) : Measurement :=
  mkMeasurement id "gateway" sensor start end_ outcome GapNone 3 successes None.
Definition home (ms : list Measurement) : Snapshot :=
  mkSnapshot sensor (clock 600) (clock 0) (15 * Minute) [gateway_target] ms.

(** A failure, then a success. *)
Definition two_probes : Snapshot :=
  home [probe "m1" (clock 100) (clock 103) OutcomeFailed 0; probe "m2" (clock 200) (clock 203) OutcomeSucceeded 3].

Definition report_of (s : Snapshot) : Report :=
  match Assess s with Ok r => r | Err _ => mkReport sensor zeroTime zeroTime [] [] end.

Lemma two_probes_assessed : Assess two_probes = Ok (report_of two_probes).
Proof. vm_compute. reflexivity. Qed.

Definition the_check : CheckAssessment := nth 0 (Checks (report_of two_probes)) (no_measurement gateway_target).

Lemma assess_order_independent_witness :
  Assess (with_measurements two_probes (reverse (Measurements two_probes))) = Ok (report_of two_probes).
Proof.
  apply (assess_order_independent two_probes).
  - repeat constructor.
  - symmetry. apply reverse_Permutation.
  - exact two_probes_assessed.
Defined.

Lemma succeeded_sound_witness : ∃ m,
  is_latest MeasuredTarget CompletedAt (Measurements two_probes) (TargetID (CheckTarget the_check)) m ∧
  MeasuredOutcome m = OutcomeSucceeded.
Proof.
  destruct (succeeded_sound two_probes (report_of two_probes) the_check) as (m & Hl & _ & Ho & _).
  - repeat constructor.
  - exact two_probes_assessed.
  - apply list_elem_of_here.
  - vm_compute. reflexivity.
  - exact (ex_intro _ m (conj Hl Ho)).
Defined.

Lemma reply_loss_range_witness :
  float_leb (percent 0 3) (float_of_int 100) = true.
Proof.
  destruct (reply_loss_range two_probes (report_of two_probes) the_check (percent 0 3)) as (_ & _ & _ & H & _).
  - repeat constructor.
  - exact two_probes_assessed.
  - apply list_elem_of_here.
  - vm_compute. reflexivity.
  - exact H.
Defined.

(** Two probes whose completion times carry the same monotonic reading while the wall
    clock was stepped between them. *)
Definition stepped (wall_sec : Z) : Time := mkTime ((1700000000 + wall_sec) * Second) (Some (5 * Second)) "".
Definition stepped_probes : list Measurement :=
  [probe "m1" (stepped 100) (stepped 100) OutcomeFailed 0; probe "m2" (stepped 200) (stepped 200) OutcomeSucceeded 3].

(** With monotonic readings the assessment does depend on the order of the
    measurements.  Simultaneous evidence is rejected by wall time but the latest is
    selected by [time.Time.After], which prefers monotonic readings: the same two
    measurements are reported as a problem in one order and as a success in the other. *)
Theorem assess_order_dependent_monotonic :
  CheckState <$> Checks (report_of (home stepped_probes)) = [StateIssueObserved] ∧
  CheckState <$> Checks (report_of (home (reverse stepped_probes))) = [StateSucceeded].
Proof. vm_compute. done. Qed.

End Quality.
