(* ===== verification/ResolverQuality.v ===== *)
(** * Resolver evidence

    [networkquality/resolver.go] and [networkquality/resolver_assess.go]: normalized
    evidence of DNS exchanges with explicitly selected resolvers, its validator, the
    interpretation of a reply and the assessor. *)

From S2P Require Import Prelude Regex GoTime Latest Quality.

Module Resolver.
Import Quality.

Definition DNSTransport := string.
Definition DNSUDP : DNSTransport := "udp".
Definition DNSTCP : DNSTransport := "tcp".

Definition DNSQueryType := string.
Definition DNSQueryA : DNSQueryType := "A".
Definition DNSQueryAAAA : DNSQueryType := "AAAA".

Definition DNSExpectation := string.
Definition DNSExpectAnswer : DNSExpectation := "answer".
Definition DNSExpectNXDOMAIN : DNSExpectation := "nxdomain".
Definition DNSExpectNoData : DNSExpectation := "no-data".

Definition DNSExchangeState := string.
Definition DNSResponseReceived : DNSExchangeState := "response-received".
Definition DNSTimeout : DNSExchangeState := "timeout".
Definition DNSTransportError : DNSExchangeState := "transport-error".
Definition DNSIncomplete : DNSExchangeState := "incomplete".
Definition DNSNotMeasured : DNSExchangeState := "not-measured".

Definition DNSRequestState := string.
Definition DNSRequestNotSent : DNSRequestState := "not-sent".
Definition DNSRequestAccepted : DNSRequestState := "accepted".
Definition DNSRequestUncertain : DNSRequestState := "uncertain".

Definition DNSAnswerKind := string.
Definition DNSAnswerPresent : DNSAnswerKind := "answer".
Definition DNSAnswerNoData : DNSAnswerKind := "no-data".
Definition DNSAnswerReferral : DNSAnswerKind := "referral".
Definition DNSAnswerUnclassified : DNSAnswerKind := "unclassified".

Record ResolverSelection := mkResolverSelection {
  SelectionID : string;
  ResolverID : string;
  QueryID : string;
  SelectionFamily : AddressFamily;
  Transport : DNSTransport;
  QueryType : DNSQueryType;
  Expect : DNSExpectation;
}.

Record DNSReply := mkDNSReply {
  RCode : Z;
  Truncated : bool;
  Answer : DNSAnswerKind;
}.

Record ResolverMeasurement := mkResolverMeasurement {
  ID : string;
  Selection : ResolverSelection;
  MeasuredBy : Observer;
  StartedAt : Time;
  CompletedAt : Time;
  Exchange : DNSExchangeState;
  Request : DNSRequestState;
  Gap : GapReason;
  Reply : option DNSReply;
  ResponseTime : option Duration;
}.

Record ResolverSnapshot := mkResolverSnapshot {
  SnapshotObserver : Observer;
  AsOf : Time;
  WindowStart : Time;
  Freshness : Duration;
  Selections : list ResolverSelection;
  Measurements : list ResolverMeasurement;
}.

#[export] Instance ResolverSelection_eq_dec : EqDecision ResolverSelection.
Proof. solve_decision. Defined.
#[export] Instance DNSReply_eq_dec : EqDecision DNSReply.
Proof. solve_decision. Defined.
#[export] Instance ResolverMeasurement_eq_dec : EqDecision ResolverMeasurement.
Proof. solve_decision. Defined.

Definition resolverTime (t : Time) : bool := validTime t.

Definition validResolverSelection (s : ResolverSelection) : bool :=
  validToken (SelectionID s) && validToken (ResolverID s) && validToken (QueryID s) &&
  ((SelectionFamily s == FamilyIPv4) || (SelectionFamily s == FamilyIPv6)) &&
  ((Transport s == DNSUDP) || (Transport s == DNSTCP)) &&
  ((QueryType s == DNSQueryA) || (QueryType s == DNSQueryAAAA)) &&
  ((Expect s == DNSExpectAnswer) || (Expect s == DNSExpectNXDOMAIN) || (Expect s == DNSExpectNoData)).

Definition ValidateResolverSelection (s : ResolverSelection) : result string unit :=
  guard? negb (validResolverSelection s) else "resolver selection is invalid" in Ok tt.

Definition any_gap (g : GapReason) : bool := unavailable_gap g || not_run_gap g.

Definition inconsistent : string := "resolver exchange evidence is inconsistent".

Definition validateResolverMeasurement (m : ResolverMeasurement) : result string unit :=
  guard? (Request m != DNSRequestNotSent) && (Request m != DNSRequestAccepted) && (Request m != DNSRequestUncertain)
  else inconsistent in
  if Exchange m == DNSNotMeasured then
    guard? (Request m != DNSRequestNotSent) || is_some (Reply m) || is_some (ResponseTime m) else inconsistent in
    if any_gap (Gap m) then Ok tt else Err inconsistent
  else
    guard? (Gap m != GapNone) || (MaxCheckTime <? Sub (CompletedAt m) (StartedAt m)) else inconsistent in
    if Exchange m != DNSResponseReceived then
      guard? is_some (Reply m) || is_some (ResponseTime m) else inconsistent in
      if Exchange m == DNSTimeout then
        guard? (Request m != DNSRequestAccepted) || negb (After (CompletedAt m) (StartedAt m)) else inconsistent in
        Ok tt
      else if (Exchange m == DNSTransportError) || (Exchange m == DNSIncomplete) then Ok tt
      else Err inconsistent
    else
      guard? Request m != DNSRequestAccepted else inconsistent in
      match Reply m with
      | None => Err inconsistent
      | Some reply =>
          guard? (RCode reply <? 0) || (4095 <? RCode reply) else inconsistent in
          guard? (if Truncated reply || negb (RCode reply =? 0) then Answer reply != ""
                  else negb ((Answer reply == DNSAnswerPresent) || (Answer reply == DNSAnswerNoData) ||
                             (Answer reply == DNSAnswerReferral) || (Answer reply == DNSAnswerUnclassified)))
          else inconsistent in
          match ResponseTime m with
          | Some l => guard? (l <? 0) || (Sub (CompletedAt m) (StartedAt m) <? l) else inconsistent in Ok tt
          | None => Ok tt
          end
      end.

Definition selection_step (acc : gmap string ResolverSelection) (s : ResolverSelection)
  : result string (gmap string ResolverSelection) :=
  guard? negb (validResolverSelection s) else "resolver selection is invalid" in
  guard? is_some (acc !! SelectionID s) else "duplicate resolver selection" in
  Ok (<[SelectionID s := s]> acc).

Definition measurement_step (s : ResolverSnapshot) (selections : gmap string ResolverSelection)
    (st : list string * list (string * Time)) (m : ResolverMeasurement)
  : result string (list string * list (string * Time)) :=
  let '(seen, ends) := st in
  let identity := "resolver evidence identity or context is invalid" in
  match selections !! SelectionID (Selection m) with
  | None => Err identity
  | Some selection =>
      guard? (selection != Selection m) || (MeasuredBy m != SnapshotObserver s) || negb (validToken (ID m)) ||
             bool_decide (ID m ∈ seen)
      else identity in
      let seen := ID m :: seen in
      guard? negb (resolverTime (StartedAt m)) || negb (resolverTime (CompletedAt m)) ||
             Before (StartedAt m) (WindowStart s) || Before (CompletedAt m) (StartedAt m) ||
             After (CompletedAt m) (AsOf s)
      else "resolver evidence timestamps are invalid" in
      let end_ := (SelectionID selection, UTC (Round0 (CompletedAt m))) in
      guard? bool_decide (end_ ∈ ends) else "resolver evidence has ambiguous simultaneous results" in
      check? validateResolverMeasurement m in
      Ok (seen, end_ :: ends)
  end.

Definition ValidateResolverSnapshot (s : ResolverSnapshot) : result string unit :=
  guard? negb (validObserver (SnapshotObserver s)) || (2147483647 <? InterfaceIndex (SnapshotObserver s)) ||
         negb (resolverTime (AsOf s)) || negb (resolverTime (WindowStart s)) ||
         After (WindowStart s) (AsOf s) || (MaxWindow <? Sub (AsOf s) (WindowStart s)) ||
         (Freshness s <? Second) || (MaxFreshness <? Freshness s) || negb (resolverTime (Add (AsOf s) (Freshness s))) ||
         (MaxTargets <? llen (Selections s)) || (MaxMeasurements <? llen (Measurements s))
  else "resolver assessment context or bounds are invalid" in
  let? selections := for_each selection_step (Selections s) ∅ in
  check? for_each (measurement_step s selections) (Measurements s) ([], []) in
  Ok tt.

(** ** Assessment *)

Definition ResolverResult := string.
Definition ResolverUnknown : ResolverResult := "unknown".
Definition ResolverNotMeasured : ResolverResult := "not-measured".
Definition ResolverIncomplete : ResolverResult := "incomplete".
Definition ResolverTimeout : ResolverResult := "timeout".
Definition ResolverTransportFailure : ResolverResult := "transport-failure".
Definition ResolverAnswer : ResolverResult := "answer".
Definition ResolverNXDOMAIN : ResolverResult := "nxdomain".
Definition ResolverNoData : ResolverResult := "no-data".
Definition ResolverRefused : ResolverResult := "refused".
Definition ResolverServerFailure : ResolverResult := "server-failure".
Definition ResolverFormatError : ResolverResult := "format-error".
Definition ResolverNotImplemented : ResolverResult := "not-implemented".
Definition ResolverOtherError : ResolverResult := "other-response-error".
Definition ResolverReferral : ResolverResult := "referral".
Definition ResolverTruncated : ResolverResult := "truncated".
Definition ResolverUnclassified : ResolverResult := "unclassified-response".

Record ResolverAssessment := mkResolverAssessment {
  CheckSelection : ResolverSelection;
  CheckState : State;
  CheckConfidence : Confidence;
  CheckResult : ResolverResult;
  Evidence : option ResolverMeasurement;
  FreshUntil : Time;
  CheckResponseTime : option Duration;
  Summary : string;
  NextStep : string;
}.

Record ResolverReport := mkResolverReport {
  ReportObserver : Observer;
  ReportAsOf : Time;
  ReportWindowStart : Time;
  Checks : list ResolverAssessment;
  Limitations : list string;
}.

(** [resolverResult] dereferences the reply of a received response; [None] is the nil
    dereference, which validation excludes. *)
Definition resolverResult (m : ResolverMeasurement) : option ResolverResult :=
  if Exchange m == DNSNotMeasured then Some ResolverNotMeasured
  else if Exchange m == DNSIncomplete then Some ResolverIncomplete
  else if Exchange m == DNSTimeout then Some ResolverTimeout
  else if Exchange m == DNSTransportError then Some ResolverTransportFailure
  else match Reply m with
  | None => None
  | Some reply =>
      Some (if Truncated reply then ResolverTruncated
            else if RCode reply =? 1 then ResolverFormatError
            else if RCode reply =? 2 then ResolverServerFailure
            else if RCode reply =? 3 then ResolverNXDOMAIN
            else if RCode reply =? 4 then ResolverNotImplemented
            else if RCode reply =? 5 then ResolverRefused
            else if RCode reply =? 0 then
              if Answer reply == DNSAnswerPresent then ResolverAnswer
              else if Answer reply == DNSAnswerNoData then ResolverNoData
              else if Answer reply == DNSAnswerReferral then ResolverReferral
              else ResolverUnclassified
            else ResolverOtherError)
  end.

Definition resolverResultCopy (r : ResolverResult) : string * string :=
  if r == ResolverAnswer then
    ("The selected resolver returned an answer for the selected question.",
     "This response is limited to that query; it does not establish all-DNS health, address reachability or security.")
  else if r == ResolverNXDOMAIN then
    ("The selected resolver reported that the queried name does not exist (NXDOMAIN).",
     "A negative reply is still a response. Review the query expectation and resolver policy before treating it as a problem.")
  else if r == ResolverNoData then
    ("The selected resolver returned no data of the requested type (NODATA).",
     "This is distinct from NXDOMAIN and a timeout. Review the requested record type and query expectation.")
  else if r == ResolverRefused then
    ("The selected resolver refused this query (REFUSED).",
     "Review that resolver's access policy and the selected query; do not infer that the internet is down.")
  else if r == ResolverServerFailure then
    ("The selected resolver reported a server failure for this query (SERVFAIL).",
     "Corroborate with other evidence. The response alone does not identify upstream, validation or connectivity as the cause.")
  else if r == ResolverFormatError then
    ("The selected resolver reported a query format error (FORMERR).",
     "Review collector/query compatibility; a format error is not a connectivity diagnosis.")
  else if r == ResolverNotImplemented then
    ("The selected resolver reported that this query operation is not implemented (NOTIMP).",
     "Review support for the selected query before considering another authorized measurement.")
  else if r == ResolverOtherError then
    ("The selected resolver returned another DNS error code.",
     "Inspect the retained response code and collector support; it is not a packet-loss measurement.")
  else if r == ResolverTimeout then
    ("No matched DNS reply was observed before this accepted request's timeout.",
     "Compare the selected resolver, transport and local-path evidence. One timeout does not prove an internet outage.")
  else if r == ResolverTransportFailure then
    ("The DNS exchange encountered a transport error.",
     "Review the recorded request state and local-path evidence. Transport failure is distinct from a DNS refusal response.")
  else if r == ResolverIncomplete then
    ("The DNS exchange is incomplete; no final query result is available.",
     "An unsent or uncertain request is not a timeout. Do not automatically retry uncertain work.")
  else if r == ResolverTruncated then
    ("A matched DNS response was truncated; the lookup result remains unknown.",
     "This contract does not retry over TCP. Any fallback must be explicitly bounded and authorized.")
  else if r == ResolverReferral then
    ("The selected resolver returned a referral rather than a final answer.",
     "No referral is followed here. Review resolver/query configuration without contacting additional servers automatically.")
  else
    ("A matched DNS response could not be classified as a final answer.",
     "Preserve the response as incomplete lookup evidence; do not infer NODATA from an empty answer section alone.").

Definition assessResolverMeasurement (m : ResolverMeasurement) (asOf : Time) (freshness : Duration)
  : option ResolverAssessment :=
  match resolverResult m with
  | None => None
  | Some r =>
      let freshUntil := Add (CompletedAt m) freshness in
      let out state confidence latency copy :=
        Some (mkResolverAssessment (Selection m) state confidence r (Some m) freshUntil latency (fst copy) (snd copy)) in
      if negb (After freshUntil asOf) then
        out StateStale ConfidenceUnknown None
          ("This resolver query has only historical evidence.",
           "Compare evidence from the same time; any new query needs separate authorization.")
      else if Exchange m == DNSNotMeasured then
        out StateNotMeasured ConfidenceUnknown None (gapCopy (Gap m))
      else
        let state := if (r == ResolverIncomplete) || (r == ResolverUnclassified) || (r == ResolverTruncated) ||
                        (r == ResolverReferral) then StateUnknown else StateIssueObserved in
        let confidence := if r == ResolverIncomplete then ConfidenceUnknown else ConfidenceLimited in
        let copy := resolverResultCopy r in
        if (r == ResolverAnswer) || (r == ResolverNXDOMAIN) || (r == ResolverNoData) then
          let expected :=
            ((r == ResolverAnswer) && (Expect (Selection m) == DNSExpectAnswer)) ||
            ((r == ResolverNXDOMAIN) && (Expect (Selection m) == DNSExpectNXDOMAIN)) ||
            ((r == ResolverNoData) && (Expect (Selection m) == DNSExpectNoData)) in
          if expected then
            out StateSucceeded confidence (ResponseTime m)
              (fst copy +:+ " This matches the selected query expectation.", snd copy)
          else
            out state confidence (ResponseTime m)
              (fst copy +:+ " This differs from the selected query expectation.",
               "Review the expected query result and resolver policy. A differing answer does not prove a broken resolver or an internet outage.")
        else out state confidence (ResponseTime m) copy
  end.

Definition no_measurement (s : ResolverSelection) : ResolverAssessment :=
  mkResolverAssessment s StateUnknown ConfidenceUnknown ResolverUnknown None zeroTime None
    "No measurement is available for this selected resolver query."
    "Review the selected resolver and query before collecting separately authorized evidence.".

Definition limitations : list string :=
  ["Results describe only the selected resolver, query, transport, address family and observing interface at measurement time.";
   "A DNS error reply is a response, not packet loss. A timeout or one resolver failure does not establish an internet outage or all-DNS failure.";
   "Answers may reflect cache, split DNS, filtering or resolver policy; neither positive nor negative replies prove DNSSEC validation or data correctness.";
   "This evidence is separate from security findings and monitoring coverage. Configuration references and evidence do not authorize traffic or network changes."].

(** [None] for the nil dereference. *)
Definition AssessResolvers (s : ResolverSnapshot) : option (result string ResolverReport) :=
  match ValidateResolverSnapshot s with
  | Err e => Some (Err e)
  | Ok _ =>
      let latest := latest (λ m, SelectionID (Selection m)) CompletedAt (Measurements s) in
      match mapM (λ sel, match latest !! SelectionID sel with
                         | Some m => assessResolverMeasurement m (AsOf s) (Freshness s)
                         | None => Some (no_measurement sel)
                         end) (Selections s) with
      | None => None
      | Some checks => Some (Ok (mkResolverReport (SnapshotObserver s) (AsOf s) (WindowStart s) checks limitations))
      end
  end.

(** ** Valid snapshots *)

Definition sel_key (m : ResolverMeasurement) : string := SelectionID (Selection m).

Definition evidence_ok (s : ResolverSnapshot) (m : ResolverMeasurement) : Prop :=
  Selection m ∈ Selections s ∧ MeasuredBy m = SnapshotObserver s ∧ validToken (ID m) = true ∧
  resolverTime (StartedAt m) = true ∧ resolverTime (CompletedAt m) = true ∧
  Before (StartedAt m) (WindowStart s) = false ∧ Before (CompletedAt m) (StartedAt m) = false ∧
  After (CompletedAt m) (AsOf s) = false ∧ validateResolverMeasurement m = Ok tt.

(** The bounds the validator checks before its loops. *)
Definition context_ok (s : ResolverSnapshot) : bool :=
  negb (negb (validObserver (SnapshotObserver s)) || (2147483647 <? InterfaceIndex (SnapshotObserver s)) ||
        negb (resolverTime (AsOf s)) || negb (resolverTime (WindowStart s)) ||
        After (WindowStart s) (AsOf s) || (MaxWindow <? Sub (AsOf s) (WindowStart s)) ||
        (Freshness s <? Second) || (MaxFreshness <? Freshness s) || negb (resolverTime (Add (AsOf s) (Freshness s))) ||
        (MaxTargets <? llen (Selections s)) || (MaxMeasurements <? llen (Measurements s))).

Record snapshot_ok (s : ResolverSnapshot) : Prop := mkSnapshotOk {
  rs_context : context_ok s = true;
  rs_selections : Forall (λ x, validResolverSelection x = true) (Selections s);
  rs_selection_ids : NoDup (map SelectionID (Selections s));
  rs_evidence : Forall (evidence_ok s) (Measurements s);
  rs_ids : NoDup (map ID (Measurements s));
  rs_unambiguous : unambiguous sel_key CompletedAt (Measurements s);
}.

Lemma selection_step_ok acc x acc' :
  selection_step acc x = Ok acc' ↔
  validResolverSelection x = true ∧ acc !! SelectionID x = None ∧ acc' = <[SelectionID x := x]> acc.
Proof.
  unfold selection_step. rewrite !guard_ok, is_some_false, negb_false_iff. naive_solver.
Qed.

Lemma measurement_step_ok s seen ends m st :
  NoDup (map SelectionID (Selections s)) →
  measurement_step s (index SelectionID (Selections s)) (seen, ends) m = Ok st ↔
  evidence_ok s m ∧ ID m ∉ seen ∧ end_key sel_key CompletedAt m ∉ ends ∧
  st = (ID m :: seen, end_key sel_key CompletedAt m :: ends).
Proof.
  intros Hn. unfold measurement_step, evidence_ok, end_key, sel_key.
  destruct (index SelectionID (Selections s) !! SelectionID (Selection m)) as [x|] eqn:E.
  - destruct (proj1 (index_some SelectionID (Selections s) _ _ Hn) E) as [Hin Hid].
    rewrite !guard_ok, res_bind_ok, !orb_false_iff, !negb_false_iff, !bool_decide_eq_true, !bool_decide_eq_false.
    split.
    + intros ((((-> & Ho) & Ht) & Hs) & Htm & He & ([] & Hv & [= <-])). naive_solver.
    + intros ((Hx & Ho & Ht & Htm) & Hs & He & ->).
      assert (x = Selection m) as ->.
      { assert (index SelectionID (Selections s) !! SelectionID (Selection m) = Some (Selection m))
          by by apply index_some. congruence. }
      naive_solver.
  - apply index_none in E. split; [done|]. intros ((Hx & _) & _). exfalso. apply E.
    by apply list_elem_of_fmap_2.
Qed.

Lemma validate_iff s : ValidateResolverSnapshot s = Ok tt ↔ snapshot_ok s.
Proof.
  unfold ValidateResolverSnapshot. rewrite guard_ok, res_bind_ok.
  setoid_rewrite (index_loop SelectionID _ selection_step selection_step_ok). setoid_rewrite res_bind_ok.
  rewrite <- negb_true_iff. fold (context_ok s). split.
  - intros (Hctx & (sm & (Hv & Hn & ->) & st & Hl & _)).
    apply (seen_loop ID sel_key CompletedAt (evidence_ok s)) in Hl as (He & Hids & Hends & _);
      [|intros; by apply measurement_step_ok].
    apply end_keys_unambiguous in Hends. by constructor.
  - intros []. split; [done|]. eexists. split; [by split_and!|]. eexists. split; [|done].
    apply (seen_loop ID sel_key CompletedAt (evidence_ok s)); [intros; by apply measurement_step_ok|].
    split_and!; try done. by apply end_keys_unambiguous.
Qed.

(** A received response was validated with its reply. *)
Lemma validated_reply m :
  validateResolverMeasurement m = Ok tt → resolverResult m ≠ None.
Proof.
  unfold validateResolverMeasurement, resolverResult. rewrite guard_ok. intros [_ H].
  destruct (bool_decide (Exchange m = DNSNotMeasured)); [done|].
  apply guard_ok in H as [_ H].
  destruct (bool_decide (Exchange m = DNSIncomplete)) eqn:E1; [done|].
  destruct (bool_decide (Exchange m = DNSTimeout)) eqn:E2; [done|].
  destruct (bool_decide (Exchange m = DNSTransportError)) eqn:E3; [done|].
  destruct (negb (bool_decide (Exchange m = DNSResponseReceived))).
  - apply guard_ok in H as [_ H]. done.
  - apply guard_ok in H as [_ H]. by destruct (Reply m).
Qed.

Lemma mapM_total {A B} (f : A → option B) l : (∀ x, x ∈ l → f x ≠ None) → mapM f l ≠ None.
Proof.
  induction l as [|x l IH]; intros H; simpl; [done|].
  pose proof (H x (list_elem_of_here _ _)). destruct (f x); [|done]. simpl.
  destruct (mapM f l); [done|]. intros _. apply IH; [|done].
  intros y Hy. apply H. by apply elem_of_cons; right.
Qed.

Lemma mapM_elem {A B} (f : A → option B) l k y :
  mapM f l = Some k → y ∈ k → ∃ x, x ∈ l ∧ f x = Some y.
Proof.
  intros H%mapM_Some (i & Hi)%list_elem_of_lookup.
  destruct (Forall2_lookup_r _ _ _ _ _ H Hi) as (x & Hx & Hf).
  exists x. split; [by eapply list_elem_of_lookup_2|done].
Qed.

Lemma assess_resolvers_defined s : AssessResolvers s ≠ None.
Proof.
  unfold AssessResolvers. destruct (ValidateResolverSnapshot s) as [[]|] eqn:Hv; [|done].
  apply validate_iff in Hv.
  match goal with |- match ?x with _ => _ end ≠ None => assert (Hm : x ≠ None); [|by destruct x] end.
  apply mapM_total. intros sel _.
  destruct (latest _ _ _ !! SelectionID sel) as [m|] eqn:E; [|done].
  assert (Hin : m ∈ Measurements s).
  { by apply latest_in in E as [? _]. }
  pose proof (rs_evidence s Hv) as He. rewrite Forall_forall in He. pose proof (He m Hin) as Hr. skip 8 in Hr.
  apply validated_reply in Hr. unfold assessResolverMeasurement.
  destruct (resolverResult m); [|done]. by repeat case_match.
Qed.

(** The resolver assessment never dereferences a missing reply: every input yields a
    report or an error. *)
Theorem assess_resolvers_total s : AssessResolvers s ≠ None.
Proof. apply assess_resolvers_defined. Qed.

(** ** What a resolver report says *)

Definition canonical_evidence (s : ResolverSnapshot) : Prop := all_canonical CompletedAt (Measurements s).

Definition with_measurements (s : ResolverSnapshot) (ms : list ResolverMeasurement) : ResolverSnapshot :=
  mkResolverSnapshot (SnapshotObserver s) (AsOf s) (WindowStart s) (Freshness s) (Selections s) ms.

Definition check_of (s : ResolverSnapshot) (sel : ResolverSelection) : option ResolverAssessment :=
  match latest sel_key CompletedAt (Measurements s) !! SelectionID sel with
  | Some m => assessResolverMeasurement m (AsOf s) (Freshness s)
  | None => Some (no_measurement sel)
  end.

Lemma AssessResolvers_ok s r :
  AssessResolvers s = Some (Ok r) ↔
  snapshot_ok s ∧ ∃ checks, mapM (check_of s) (Selections s) = Some checks ∧
    r = mkResolverReport (SnapshotObserver s) (AsOf s) (WindowStart s) checks limitations.
Proof.
  unfold AssessResolvers. rewrite <- validate_iff. fold sel_key. fold (check_of s).
  destruct (ValidateResolverSnapshot s) as [[]|]; [|naive_solver].
  destruct (mapM (check_of s) (Selections s)); naive_solver.
Qed.

(** The resolver assessment does not depend on the order of the evidence, when it
    carries no monotonic readings. *)
Theorem assess_resolvers_order_independent s ms r :
  canonical_evidence s → Measurements s ≡ₚ ms →
  AssessResolvers s = Some (Ok r) → AssessResolvers (with_measurements s ms) = Some (Ok r).
Proof.
  intros Hc Hp (Hok & checks & Hm & ->)%AssessResolvers_ok. apply AssessResolvers_ok.
  assert (Hl := latest_perm sel_key CompletedAt _ _ Hc (rs_unambiguous s Hok) Hp).
  split.
  - destruct Hok. constructor; simpl; try done.
    + unfold context_ok, llen in *. simpl. by rewrite <- (Permutation_length Hp).
    + change (Forall (evidence_ok s) ms). by rewrite <- Hp.
    + by rewrite <- (Permutation_map ID Hp).
    + unfold unambiguous in *. by rewrite <- (Permutation_map _ Hp).
  - exists checks. split; [|done]. rewrite <- Hm. unfold check_of. simpl. by rewrite Hl.
Qed.

(** The reply is the one the selection expects. *)
Definition reply_matches (e : DNSExpectation) (r : DNSReply) : Prop :=
  Truncated r = false ∧
  ((e = DNSExpectAnswer ∧ RCode r = 0 ∧ Answer r = DNSAnswerPresent) ∨
   (e = DNSExpectNXDOMAIN ∧ RCode r = 3) ∨
   (e = DNSExpectNoData ∧ RCode r = 0 ∧ Answer r = DNSAnswerNoData)).

Lemma received_state m :
  validateResolverMeasurement m = Ok tt → Exchange m = DNSResponseReceived →
  Request m = DNSRequestAccepted ∧ ∃ r, Reply m = Some r.
Proof.
  unfold validateResolverMeasurement. rewrite guard_ok. intros [_ H] He. rewrite He in H.
  change (bool_decide (DNSResponseReceived = DNSNotMeasured)) with false in H.
  change (negb (bool_decide (DNSResponseReceived = DNSResponseReceived))) with false in H. cbn iota in H.
  apply guard_ok in H as [_ H]. apply guard_ok in H as [Hr H].
  apply negb_false_iff, bool_decide_eq_true in Hr. split; [done|]. destruct (Reply m); eauto. done.
Qed.

(** Which exchanges read as a definite result. *)
Lemma result_received m r :
  validateResolverMeasurement m = Ok tt → resolverResult m = Some r →
  r = ResolverAnswer ∨ r = ResolverNXDOMAIN ∨ r = ResolverNoData →
  Exchange m = DNSResponseReceived.
Proof.
  unfold validateResolverMeasurement, resolverResult. rewrite guard_ok. intros [_ H] Hr Hd.
  destruct (bool_decide (Exchange m = DNSNotMeasured)); [naive_solver|].
  apply guard_ok in H as [_ H].
  destruct (bool_decide (Exchange m = DNSIncomplete)) eqn:E1; [naive_solver|].
  destruct (bool_decide (Exchange m = DNSTimeout)) eqn:E2; [naive_solver|].
  destruct (bool_decide (Exchange m = DNSTransportError)) eqn:E3; [naive_solver|].
  destruct (bool_decide_reflect (Exchange m = DNSResponseReceived)); [done|].
  simpl in H. by apply guard_ok in H as [_ H].
Qed.

Lemma result_matches reply e m :
  Exchange m = DNSResponseReceived → Reply m = Some reply →
  reply_matches e reply ↔
  (e = DNSExpectAnswer ∧ resolverResult m = Some ResolverAnswer) ∨
  (e = DNSExpectNXDOMAIN ∧ resolverResult m = Some ResolverNXDOMAIN) ∨
  (e = DNSExpectNoData ∧ resolverResult m = Some ResolverNoData).
Proof.
  intros He Hr. unfold resolverResult, reply_matches. rewrite He, Hr.
  change (bool_decide (DNSResponseReceived = DNSNotMeasured)) with false.
  change (bool_decide (DNSResponseReceived = DNSIncomplete)) with false.
  change (bool_decide (DNSResponseReceived = DNSTimeout)) with false.
  change (bool_decide (DNSResponseReceived = DNSTransportError)) with false. cbn iota.
  destruct (Truncated reply); [naive_solver|].
  destruct (Z.eqb_spec (RCode reply) 1); [naive_solver lia|].
  destruct (Z.eqb_spec (RCode reply) 2); [naive_solver lia|].
  destruct (Z.eqb_spec (RCode reply) 3); [naive_solver lia|].
  destruct (Z.eqb_spec (RCode reply) 4); [naive_solver lia|].
  destruct (Z.eqb_spec (RCode reply) 5); [naive_solver lia|].
  destruct (Z.eqb_spec (RCode reply) 0); [|naive_solver lia].
  destruct (bool_decide_reflect (Answer reply = DNSAnswerPresent)) as [->|]; [naive_solver|].
  destruct (bool_decide_reflect (Answer reply = DNSAnswerNoData)) as [->|]; [naive_solver|].
  destruct (bool_decide _); naive_solver.
Qed.

Lemma assess_inv m asOf freshness c :
  assessResolverMeasurement m asOf freshness = Some c →
  CheckSelection c = Selection m ∧ Evidence c = Some m ∧ resolverResult m = Some (CheckResult c).
Proof.
  unfold assessResolverMeasurement. destruct (resolverResult m) as [r|]; [|done].
  repeat case_match; intros [= <-]; done.
Qed.

Lemma assess_succeeded m asOf freshness c :
  validateResolverMeasurement m = Ok tt → assessResolverMeasurement m asOf freshness = Some c →
  CheckState c = StateSucceeded ↔
  After (Add (CompletedAt m) freshness) asOf = true ∧ Exchange m = DNSResponseReceived ∧
  ∃ reply, Reply m = Some reply ∧ reply_matches (Expect (Selection m)) reply.
Proof.
  intros Hv. unfold assessResolverMeasurement. destruct (resolverResult m) as [r|] eqn:Er; [|done].
  destruct (After (Add (CompletedAt m) freshness) asOf); cbn [negb]; [|intros [= <-]; simpl; naive_solver].
  destruct (bool_decide_reflect (Exchange m = DNSNotMeasured)) as [->|Hnm].
  { intros [= <-]. simpl. naive_solver. }
  set (expected := _ || (_ && _) || (_ && _)).
  assert (Hexp : (∃ reply, Exchange m = DNSResponseReceived ∧ Reply m = Some reply ∧
                    reply_matches (Expect (Selection m)) reply) ↔ expected = true).
  { unfold expected. rewrite !orb_true_iff, !andb_true_iff, !bool_decide_eq_true. split.
    - intros (reply & He & Hrp & Hm). apply (result_matches reply _ m He Hrp) in Hm. rewrite Er in Hm. naive_solver.
    - intros Hx. assert (He : Exchange m = DNSResponseReceived).
      { apply (result_received m r Hv Er). naive_solver. }
      destruct (received_state m Hv He) as [_ [reply Hrp]]. exists reply. split_and!; [done..|].
      apply (result_matches reply _ m He Hrp). rewrite Er. naive_solver. }
  destruct ((r == ResolverAnswer) || (r == ResolverNXDOMAIN) || (r == ResolverNoData)) eqn:Ed.
  - destruct expected.
    + intros [= <-]. simpl. naive_solver.
    + intros [= <-]. simpl.
      assert (Hne : (if (r == ResolverIncomplete) || (r == ResolverUnclassified) || (r == ResolverTruncated) ||
                (r == ResolverReferral) then StateUnknown else StateIssueObserved) ≠ StateSucceeded) by by case_match.
      naive_solver.
  - intros [= <-]. simpl.
    assert (Hne : (if (r == ResolverIncomplete) || (r == ResolverUnclassified) || (r == ResolverTruncated) ||
              (r == ResolverReferral) then StateUnknown else StateIssueObserved) ≠ StateSucceeded) by by case_match.
    assert (expected = false) as Hf.
    { unfold expected. apply orb_false_iff in Ed as [[E1 E2]%orb_false_iff E3]. by rewrite E1, E2, E3. }
    rewrite Hf in Hexp. naive_solver.
Qed.

(** The evidence a report refers to is in the snapshot. *)
Lemma report_evidence s r :
  AssessResolvers s = Some (Ok r) → ∀ c m, c ∈ Checks r → Evidence c = Some m → m ∈ Measurements s.
Proof.
  intros (_ & checks & Hm & ->)%AssessResolvers_ok c m Hin Hev. simpl in Hin.
  destruct (mapM_elem _ _ _ _ Hm Hin) as (sel & _ & Hck). unfold check_of in Hck.
  destruct (latest _ _ _ !! SelectionID sel) as [m'|] eqn:E; [|by injection Hck as <-].
  destruct (assess_inv _ _ _ _ Hck) as (_ & Hev' & _). rewrite Hev in Hev'. injection Hev' as ->.
  by apply latest_in in E as [? _].
Qed.

Lemma report_no_evidence s r :
  AssessResolvers s = Some (Ok r) → ∀ c, c ∈ Checks r → Evidence c = None → CheckState c = StateUnknown.
Proof.
  intros (_ & checks & Hm & ->)%AssessResolvers_ok c Hin Hev. simpl in Hin.
  destruct (mapM_elem _ _ _ _ Hm Hin) as (sel & _ & Hck). unfold check_of in Hck.
  destruct (latest _ _ _ !! SelectionID sel) as [m'|] eqn:E; [|by injection Hck as <-].
  destruct (assess_inv _ _ _ _ Hck) as (_ & Hev' & _). congruence.
Qed.

(** C12: a resolver check is reported as succeeded exactly when its latest evidence is
    still fresh and is an accepted request whose complete reply is the one the selection
    expects; refusals, truncated replies, referrals, timeouts and gaps never are.  The
    completion times carry no monotonic reading, as those of decoded evidence do not. *)
Theorem resolver_succeeded_iff s r c :
  canonical_evidence s → AssessResolvers s = Some (Ok r) → c ∈ Checks r →
  CheckState c = StateSucceeded ↔
  ∃ m reply, Evidence c = Some m ∧ is_latest sel_key CompletedAt (Measurements s) (SelectionID (CheckSelection c)) m ∧
    wall (AsOf s) < wall (CompletedAt m) + Freshness s ∧
    Exchange m = DNSResponseReceived ∧ Request m = DNSRequestAccepted ∧
    Reply m = Some reply ∧ reply_matches (Expect (CheckSelection c)) reply.
Proof.
  intros Hc (Hok & checks & Hm & ->)%AssessResolvers_ok Hin. simpl in Hin.
  destruct (mapM_elem _ _ _ _ Hm Hin) as (sel & Hsel & Hck).
  unfold check_of in Hck.
  destruct (latest sel_key CompletedAt (Measurements s) !! SelectionID sel) as [m|] eqn:E.
  2: { injection Hck as <-. simpl. naive_solver. }
  pose proof (latest_some _ _ _ _ _ Hc E) as Hl. destruct Hl as (Hmem & Hk & Hmax).
  pose proof (rs_evidence s Hok) as He. rewrite Forall_forall in He. pose proof (He m Hmem) as Hv. skip 8 in Hv.
  destruct (assess_inv _ _ _ _ Hck) as (Hcs & Hev & _).
  rewrite (assess_succeeded _ _ _ _ Hv Hck), Hcs.
  unfold canonical_evidence, all_canonical in Hc. rewrite Forall_forall in Hc.
  rewrite After_wall by (left; by apply canonical_Add, Hc). rewrite wall_Add, Z.ltb_lt. split.
  - intros (Hf & Hx & reply & Hr & Hma). exists m, reply. split_and!; try done.
    + by rewrite <- Hk in Hmax.
    + by apply (received_state m Hv Hx).
  - intros (m' & reply & Hev' & _ & Hf & Hx & _ & Hr & Hma). rewrite Hev in Hev'. injection Hev' as <-. eauto 10.
Qed.

(** ** Examples *)

Definition selection : ResolverSelection :=
  mkResolverSelection "sel" "resolver" "query" FamilyIPv4 DNSUDP DNSQueryA DNSExpectAnswer.
Definition exchange (id : string) (sec : Z) (reply : DNSReply) : ResolverMeasurement :=
  mkResolverMeasurement id selection sensor (clock sec) (clock (sec + 1)) DNSResponseReceived
    DNSRequestAccepted GapNone (Some reply) (Some 20000000).
Definition lookups : ResolverSnapshot :=
  mkResolverSnapshot sensor (clock 600) (clock 0) (15 * Minute) [selection]
    [exchange "m1" 100 (mkDNSReply 5 false ""); exchange "m2" 200 (mkDNSReply 0 false DNSAnswerPresent)].
Definition lookups_report : ResolverReport :=
  match AssessResolvers lookups with
  | Some (Ok r) => r
  | _ => mkResolverReport sensor zeroTime zeroTime [] []
  end.

Lemma lookups_assessed : AssessResolvers lookups = Some (Ok lookups_report).
Proof. vm_compute. reflexivity. Qed.

Lemma assess_resolvers_order_independent_witness :
  AssessResolvers (with_measurements lookups (reverse (Measurements lookups))) = Some (Ok lookups_report).
Proof.
  apply (assess_resolvers_order_independent lookups).
  - repeat constructor.
  - symmetry. apply reverse_Permutation.
  - exact lookups_assessed.
Defined.

Lemma resolver_succeeded_iff_witness :
  ∃ m reply, m ∈ Measurements lookups ∧ Reply m = Some reply ∧ reply_matches DNSExpectAnswer reply.
Proof.
  destruct (proj1 (resolver_succeeded_iff lookups lookups_report
    (nth 0 (Checks lookups_report) (no_measurement selection))
    ltac:(repeat constructor) lookups_assessed (list_elem_of_here _ _)) eq_refl)
    as (m & reply & _ & (Hm & _) & _ & _ & _ & Hr & Hma).
  exact (ex_intro _ m (ex_intro _ reply (conj Hm (conj Hr Hma)))).
Defined.

End Resolver.
