(* ===== verification/ResolverWire.v ===== *)
(** * DNS messages of the resolver check

    [resolverwire/query.go], [framing.go] and [classify.go]: the one question a check
    sends, the envelope pass over a reply, and the classification of its records.  A
    packet is a list of bytes; reading outside it is an error of its own, [Panic], so
    that the absence of such reads is a theorem.  The DNS library
    ([golang.org/x/net/dns/dnsmessage]) is a parameter: its names and its packing of a
    question. *)

From Stdlib Require Import Ascii.
From S2P Require Import Prelude Regex NetAddr Quality ResolverQuality.

Module Wire.
Import Resolver.

Definition MaxReplyBytes : Z := 512.
Definition MaxRecords : Z := 32.
Definition MaxAliases : nat := 8.

Definition TypeA : Z := 1.
Definition TypeNS : Z := 2.
Definition TypeCNAME : Z := 5.
Definition TypeSOA : Z := 6.
Definition TypeAAAA : Z := 28.
Definition TypeOPT : Z := 41.

(** [netip.AddrPort] *)
Record AddrPort := mkAddrPort { ap_addr : Addr; ap_port : Z }.

#[export] Instance AddrPort_eq_dec : EqDecision AddrPort.
Proof. solve_decision. Defined.

(** ** Questions *)

(** [strings.Split(s, ".")]: never empty. *)
Fixpoint split_dots (w : list ascii) : list (list ascii) :=
  match w with
  | [] => [[]]
  | c :: rest =>
      if c == "."%char then [] :: split_dots rest
      else match split_dots rest with
           | label :: more => (c :: label) :: more
           | [] => [[c]]
           end
  end.

Definition label_char (c : ascii) : bool := is_lower c || is_upper c || is_digit c || (c == "-"%char).

(** The body of the loops over labels: [label[0]] and [label[len(label)-1]] are read
    after the length check. *)
Definition valid_label (label : list ascii) : bool :=
  negb ((llen label <? 1) || (63 <? llen label) || bool_decide (head label = Some "-"%char) ||
        bool_decide (last label = Some "-"%char)) && forallb label_char label.

Definition validHostname (name : string) : bool :=
  let w := String.list_ascii_of_string name in
  if (slen name <? 2) || (254 <? slen name) || negb (bool_decide (last w = Some "."%char)) then false
  else forallb valid_label (split_dots (removelast w)).

Section Question.
(** [dnsmessage.Name], [NewName] and the packing of a message with one question. *)
Context {Name : Type} (NewName : string → option Name) (Pack : Z → Name → Z → option (list Z)).

Record Query := mkQuery {
  endpoint : AddrPort;
  name : Name;
  kind : Z;
  id : Z;
  packet : list Z;
}.

Definition NewQuery (e : AddrPort) (n : string) (k : DNSQueryType) (i : Z) : option Query :=
  let a := ap_addr e in
  if negb (IsValid a) || negb (ap_port e =? 53) || IsUnspecified a || IsMulticast a || Is4In6 a ||
     (Zone a != "") || IsLinkLocalUnicast a || negb (validHostname n)
  then None else
  match (if k == DNSQueryA then Some TypeA else if k == DNSQueryAAAA then Some TypeAAAA else None) with
  | None => None
  | Some typ =>
      match NewName (ToLower n) with
      | None => None
      | Some nm =>
          match Pack i nm typ with
          | None => None
          | Some p => if MaxReplyBytes <? llen p then None else Some (mkQuery e nm typ i p)
          end
      end
  end.

End Question.

(** ** Framing *)

Inductive frame_err : Type := ErrResponse | Panic | OutOfFuel.

Definition byte_at (p : list Z) (i : Z) : result frame_err Z :=
  if i <? 0 then Err Panic else match p !! Z.to_nat i with Some b => Ok b | None => Err Panic end.

(** [binary.BigEndian.Uint16(packet[i:i+2])] *)
Definition u16_at (p : list Z) (i : Z) : result frame_err Z :=
  let? hi := byte_at p i in
  let? lo := byte_at p (i + 1) in
  Ok (Z.lor (Z.shiftl hi 8) lo).

(** The loop of [nameEnd]; [names] is the shared map it records label starts in. *)
Fixpoint name_loop (fuel : nat) (p : list Z) (offset end_ : Z) (names : gset Z)
  : result frame_err (Z * gset Z) :=
  match fuel with
  | O => Err OutOfFuel
  | S fuel =>
      if negb (offset <? end_) then Err ErrResponse
      else
        let start := offset in
        let? size := byte_at p offset in
        let offset := offset + 1 in
        let tag := Z.land size 192 in
        if tag =? 0 then
          let names := {[start]} ∪ names in
          if size =? 0 then Ok (offset, names)
          else guard? end_ <? offset + size else ErrResponse in
               name_loop fuel p (offset + size) end_ names
        else if tag =? 192 then
          guard? end_ <=? offset else ErrResponse in
          let? low := byte_at p offset in
          let target := Z.lor (Z.shiftl (Z.land size 63) 8) low in
          guard? (start <=? target) || negb (bool_decide (target ∈ names)) else ErrResponse in
          Ok (offset + 1, {[start]} ∪ names)
        else Err ErrResponse
  end.

(** Every iteration reads at least one byte before [end_]. *)
Definition nameEnd (p : list Z) (offset end_ : Z) (names : gset Z) : result frame_err (Z * gset Z) :=
  name_loop (S (Z.to_nat (end_ - offset))) p offset end_ names.

(** The [switch] over the type of a record. *)
Definition frame_rdata (p : list Z) (names : gset Z) (offset end_ size kind : Z) : result frame_err (gset Z) :=
  if kind =? TypeA then guard? negb (size =? 4) else ErrResponse in Ok names
  else if kind =? TypeAAAA then guard? negb (size =? 16) else ErrResponse in Ok names
  else if (kind =? TypeCNAME) || (kind =? TypeNS) then
    let? (after, names) := nameEnd p offset end_ names in
    guard? negb (after =? end_) else ErrResponse in Ok names
  else if kind =? TypeSOA then
    let? (after, names) := nameEnd p offset end_ names in
    let? (after, names) := nameEnd p after end_ names in
    guard? negb (after + 20 =? end_) else ErrResponse in Ok names
  else if kind =? TypeOPT then Err ErrResponse
  else Ok names.

(** One resource record of the loop of [validateFraming]. *)
Definition frame_record (p : list Z) (st : Z * gset Z) (_ : nat) : result frame_err (Z * gset Z) :=
  let '(offset, names) := st in
  let? (offset, names) := nameEnd p offset (llen p) names in
  guard? llen p <? offset + 10 else ErrResponse in
  let? kind := u16_at p offset in
  let? size := u16_at p (offset + 8) in
  let offset := offset + 10 in
  let end_ := offset + size in
  guard? llen p <? end_ else ErrResponse in
  let? names := frame_rdata p names offset end_ size kind in
  Ok (end_, names).

Definition validateFraming (p : list Z) (total : nat) : result frame_err unit :=
  let? (offset, names) := nameEnd p 12 (llen p) ∅ in
  let offset := offset + 4 in
  guard? llen p <? offset else ErrResponse in
  let? (offset, _) := for_each (frame_record p) (seq 0 total) (offset, names) in
  guard? negb (offset =? llen p) else ErrResponse in
  Ok tt.

(** ** Classification of the records *)

(** A parsed record: its owner, its type and, for a CNAME, its target. *)
Record Resource := mkResource { rr_name : string; rr_type : Z; rr_cname : option string }.

Section Classify.
(** [strings.ToLower], on names of any bytes. *)
Context (lower : string → string).

(** One answer, for the name under [current]: the variables [target] and [found]. *)
Definition alias_step (kind : Z) (current : string) (st : string * bool) (rr : Resource)
  : result unit (string * bool) :=
  let '(target, found) := st in
  if lower (rr_name rr) != current then Ok (target, found)
  else
    let found := if rr_type rr =? kind then true else found in
    match rr_cname rr with
    | Some alias =>
        let next := lower alias in
        guard? (target != "") && (target != next) else tt in Ok (next, found)
    | None => Ok (target, found)
    end.

(** How the outer loop ends: a returned kind, the [break] with the variables that are
    read after it, or its bound. *)
Inductive chased : Type :=
| Returned (k : DNSAnswerKind)
| Broke (current : string) (visited : list string) (aliases : nat)
| Unfinished.

Fixpoint chase (fuel : nat) (kind : Z) (answers : list Resource) (current : string)
    (visited : list string) (aliases : nat) : chased :=
  match fuel with
  | O => Unfinished
  | S fuel =>
      if bool_decide (current ∈ visited) then Returned DNSAnswerUnclassified
      else
        let visited := current :: visited in
        match for_each (alias_step kind current) answers ("", false) with
        | Err _ => Returned DNSAnswerUnclassified
        | Ok (target, found) =>
            if found then
              if target != "" then Returned DNSAnswerUnclassified else Returned DNSAnswerPresent
            else if target == "" then Broke current visited aliases
            else
              let aliases := S aliases in
              if (MaxAliases <? aliases)%nat then Returned DNSAnswerUnclassified
              else chase fuel kind answers target visited aliases
        end
  end.

Definition HasSuffix (s suffix : list ascii) : bool :=
  bool_decide (drop (length s - length suffix) s = suffix) && (length suffix <=? length s)%nat.

Definition inZone (name zone : string) : bool :=
  (zone == ".") || (name == zone) ||
  HasSuffix (String.list_ascii_of_string name) ("."%char :: String.list_ascii_of_string zone).

(** The variables [soa], [ns], [anySOA] and [anyNS] of the loop over the authorities. *)
Definition authority_step (current : string) (st : bool * bool * bool * bool) (rr : Resource)
  : bool * bool * bool * bool :=
  let '(soa, ns, anySOA, anyNS) := st in
  let relevant := inZone current (lower (rr_name rr)) in
  if rr_type rr =? TypeSOA then (soa || relevant, ns, true, anyNS)
  else if rr_type rr =? TypeNS then (soa, ns || relevant, anySOA, true)
  else st.

(** [None] when the bound of the chase is not enough. *)
Definition classify (qname : string) (kind : Z) (answers authorities : list Resource) : option DNSAnswerKind :=
  match chase (S MaxAliases) kind answers (lower qname) [] 0 with
  | Unfinished => None
  | Returned k => Some k
  | Broke current visited aliases =>
      if existsb (λ rr, negb (rr_type rr =? TypeCNAME) || negb (bool_decide (lower (rr_name rr) ∈ visited))) answers
      then Some DNSAnswerUnclassified
      else
        let '(soa, ns, anySOA, anyNS) := foldl (authority_step current) (false, false, false, false) authorities in
        Some (if soa then DNSAnswerNoData
              else if anySOA then DNSAnswerUnclassified
              else if ns then DNSAnswerReferral
              else if anyNS || (0 <? aliases)%nat then DNSAnswerUnclassified
              else DNSAnswerNoData)
  end.

End Classify.

(** ** The grammar of an encoded name and of a message body

    [name_enc p end_ names i names' j]: an encoded name occupies the bytes from [i] up to
    [j], within [end_]: labels of one to sixty-three bytes, then the root or a pointer to
    an earlier label start in [names]; [names'] adds its label starts. *)

Definition has_byte (p : list Z) (i b : Z) : Prop := 0 <= i ∧ p !! Z.to_nat i = Some b.

Inductive name_enc (p : list Z) (end_ : Z) : gset Z → Z → gset Z → Z → Prop :=
| enc_root names i :
    i < end_ → has_byte p i 0 → name_enc p end_ names i ({[i]} ∪ names) (i + 1)
| enc_label names i size names' j :
    i < end_ → has_byte p i size → 1 <= size <= 63 → i + 1 + size <= end_ →
    name_enc p end_ ({[i]} ∪ names) (i + 1 + size) names' j →
    name_enc p end_ names i names' j
| enc_pointer names i hi lo :
    i + 1 < end_ → has_byte p i hi → 192 <= hi → has_byte p (i + 1) lo →
    (hi - 192) * 256 + lo < i → (hi - 192) * 256 + lo ∈ names →
    name_enc p end_ names i ({[i]} ∪ names) (i + 2).

Definition has_u16 (p : list Z) (i n : Z) : Prop :=
  ∃ hi lo, has_byte p i hi ∧ has_byte p (i + 1) lo ∧ n = hi * 256 + lo.

(** The data of a record of a type occupies [i] up to [j]. *)
Inductive rdata_enc (p : list Z) (names : gset Z) (i j : Z) : Z → gset Z → Prop :=
| rdata_a : j = i + 4 → rdata_enc p names i j TypeA names
| rdata_aaaa : j = i + 16 → rdata_enc p names i j TypeAAAA names
| rdata_name kind names' :
    kind = TypeCNAME ∨ kind = TypeNS → name_enc p j names i names' j → rdata_enc p names i j kind names'
| rdata_soa names1 k names2 :
    name_enc p j names i names1 k → name_enc p j names1 k names2 (j - 20) →
    rdata_enc p names i j TypeSOA names2
| rdata_opaque kind :
    kind ∉ [TypeA; TypeAAAA; TypeCNAME; TypeNS; TypeSOA; TypeOPT] → rdata_enc p names i j kind names.

(** [n] records occupy [i] up to [j]. *)
Inductive records_enc (p : list Z) : nat → Z * gset Z → Z * gset Z → Prop :=
| records_none st : records_enc p 0 st st
| record_more n i names k names1 kind size names2 st :
    name_enc p (llen p) names i names1 k → has_u16 p k kind → has_u16 p (k + 8) size →
    k + 10 + size <= llen p → rdata_enc p names1 (k + 10) (k + 10 + size) kind names2 →
    records_enc p n (k + 10 + size, names2) st →
    records_enc p (S n) (i, names) st.

(** A question and [total] records fill the packet after its header. *)
Definition message_enc (p : list Z) (total : nat) : Prop :=
  ∃ k names names',
    name_enc p (llen p) ∅ 12 names k ∧ k + 4 <= llen p ∧
    records_enc p total (k + 4, names) (llen p, names').

(** ** The envelope pass decides the grammar *)

Definition bytes (p : list Z) : Prop := Forall (λ b, 0 <= b < 256) p.

Lemma byte_at_ok p i b : byte_at p i = Ok b ↔ has_byte p i b.
Proof.
  unfold byte_at, has_byte. destruct (Z.ltb_spec i 0); [split; [done|lia]|].
  destruct (p !! Z.to_nat i); naive_solver.
Qed.

Lemma byte_at_defined p i : bytes p → 0 <= i < llen p → ∃ b, byte_at p i = Ok b ∧ 0 <= b < 256.
Proof.
  unfold byte_at, llen. intros Hp Hi. rewrite (proj2 (Z.ltb_ge i 0)) by lia.
  destruct (lookup_lt_is_Some_2 p (Z.to_nat i)) as [b Hb]; [lia|]. rewrite Hb. exists b. split; [done|].
  exact (Forall_lookup_1 _ _ _ _ Hp Hb).
Qed.

Lemma has_byte_range p i b : bytes p → has_byte p i b → 0 <= b < 256 ∧ i < llen p.
Proof.
  intros Hp [Hi Hb]. split; [exact (Forall_lookup_1 _ _ _ _ Hp Hb)|]. apply lookup_lt_Some in Hb. unfold llen. lia.
Qed.

Lemma tags b : 0 <= b < 256 → (Z.land b 192 =? 0) = (b <=? 63) ∧ (Z.land b 192 =? 192) = (192 <=? b).
Proof. revert b. apply octet_cases. vm_compute. repeat constructor. Qed.
Lemma pointer_high b : 192 <= b < 256 → Z.land b 63 = b - 192.
Proof.
  intros Hb. change 63 with (Z.ones 6). rewrite Z.land_ones by lia. symmetry.
  apply (Z.mod_unique_pos _ _ 3); lia.
Qed.

Lemma lor_low a b : 0 <= a → 0 <= b < 256 → Z.lor (Z.shiftl a 8) b = a * 256 + b.
Proof.
  intros Ha Hb. rewrite <- Z.lxor_lor, <- Z.add_nocarry_lxor.
  1: by rewrite Z.shiftl_mul_pow2 by lia.
  all: apply Z.bits_inj'; intros i Hi; rewrite Z.land_spec, Z.bits_0;
    (destruct (Z.lt_ge_cases i 8) as [Hl|Hg];
     [by rewrite Z.shiftl_spec_low by lia
     |rewrite (Z.bits_above_log2 b), andb_false_r; [done|lia|]]);
    (destruct (Z.eq_dec b 0) as [->|]; [simpl; lia|]; apply Z.log2_lt_pow2; [lia|];
     apply Z.lt_le_trans with (2 ^ 8); [lia|apply Z.pow_le_mono_r; lia]).
Qed.

(** [r] succeeds exactly on [R], and its only failure is the documented one. *)
Definition decides {A} (r : result frame_err A) (R : A → Prop) : Prop :=
  (∀ v, r = Ok v ↔ R v) ∧ (∀ e, r = Err e → e = ErrResponse).

Lemma decides_iff {A} (r : result frame_err A) (R R' : A → Prop) :
  decides r R → (∀ v, R v ↔ R' v) → decides r R'.
Proof. intros [H1 H2] H. split; [|done]. intros v. by rewrite H1, H. Qed.

Lemma decides_bind {A B} (r : result frame_err A) (k : A → result frame_err B) (R : A → Prop) (S : A → B → Prop) :
  decides r R → (∀ a, R a → decides (k a) (S a)) →
  decides (res_bind r k) (λ b, ∃ a, R a ∧ S a b).
Proof.
  intros [H1 H2] Hk. split.
  - intros b. rewrite res_bind_ok. split.
    + intros (a & Ha & Hb). apply H1 in Ha. exists a. split; [done|]. by apply (Hk a).
    + intros (a & Ha & Hb). exists a. split; [by apply H1|]. by apply (Hk a).
  - intros e. destruct r as [a|e']; simpl; [|intros [= ->]; by apply H2].
    apply Hk. by apply H1.
Qed.

Lemma decides_bind_pair {A B C} (r : result frame_err (A * B)) (k : A * B → result frame_err C)
    (R : A * B → Prop) (S : A → B → C → Prop) :
  decides r R → (∀ a b, R (a, b) → decides (k (a, b)) (S a b)) →
  decides (res_bind r k) (λ c, ∃ a b, R (a, b) ∧ S a b c).
Proof.
  intros Hr Hk. eapply decides_iff.
  - apply (decides_bind r k R (λ ab, S (fst ab) (snd ab))); [done|]. intros [a b]. apply Hk.
  - intros c. split; [intros ([a b] & ?); eauto|intros (a & b & ?); by exists (a, b)].
Qed.

Lemma decides_guard {A} (b : bool) (k : result frame_err A) (R : A → Prop) :
  (b = false → decides k R) → decides (if b then Err ErrResponse else k) (λ v, b = false ∧ R v).
Proof. intros H. destruct b; [split; naive_solver|]. destruct (H eq_refl) as [H1 H2]. split; naive_solver. Qed.

Lemma decides_ok {A} (v : A) : decides (Ok v) (λ v', v' = v).
Proof. split; naive_solver. Qed.

Lemma decides_err {A} : decides (Err ErrResponse : result _ A) (λ _, False).
Proof. split; naive_solver. Qed.

Lemma decides_byte p i : bytes p → 0 <= i < llen p → decides (byte_at p i) (has_byte p i).
Proof.
  intros Hp Hi. split; [intros; apply byte_at_ok|]. destruct (byte_at_defined p i Hp Hi) as (b & -> & _). done.
Qed.

Lemma decides_u16 p i : bytes p → 0 <= i → i + 2 <= llen p → decides (u16_at p i) (has_u16 p i).
Proof.
  intros Hp Hi Hl. unfold u16_at.
  eapply decides_iff.
  - apply decides_bind; [apply decides_byte; [done|lia]|]. intros hi _.
    apply decides_bind; [apply decides_byte; [done|lia]|]. intros lo _. apply decides_ok.
  - intros n. unfold has_u16. split.
    + intros (hi & H1 & lo & H2 & ->). exists hi, lo. split_and!; try done.
      destruct (has_byte_range _ _ _ Hp H1), (has_byte_range _ _ _ Hp H2). apply lor_low; lia.
    + intros (hi & lo & H1 & H2 & ->). exists hi. split; [done|]. exists lo. split; [done|].
      destruct (has_byte_range _ _ _ Hp H1), (has_byte_range _ _ _ Hp H2). symmetry. apply lor_low; lia.
Qed.

Definition enc (p : list Z) (end_ : Z) (names : gset Z) (i : Z) : Z * gset Z → Prop :=
  λ '(j, names'), name_enc p end_ names i names' j.

Lemma name_enc_range p end_ names i names' j :
  name_enc p end_ names i names' j → i < j <= end_ ∧ 0 <= i.
Proof. induction 1; unfold has_byte in *; lia. Qed.

Lemma name_loop_decides fuel p i end_ names :
  bytes p → 0 <= i → end_ <= llen p → (Z.to_nat (end_ - i) < fuel)%nat →
  decides (name_loop fuel p i end_ names) (enc p end_ names i).
Proof.
  intros Hp. revert i names. induction fuel as [|fuel IH]; intros i names Hi He Hf; [lia|].
  cbn [name_loop]. destruct (Z.ltb_spec i end_) as [Hlt|Hge]; cbn [negb].
  2:{ eapply decides_iff; [apply decides_err|]. intros [j names']. split; [done|].
      intros H%name_enc_range. lia. }
  destruct (byte_at_defined p i Hp ltac:(lia)) as (size & Hb & Hs). rewrite Hb. cbn [res_bind].
  apply byte_at_ok in Hb. destruct (tags size Hs) as [-> ->].
  assert (Huniq : ∀ b, has_byte p i b → b = size) by (unfold has_byte in *; naive_solver).
  destruct (Z.leb_spec size 63) as [H63|H63].
  { destruct (Z.eqb_spec size 0) as [->|Hne].
    - eapply decides_iff; [apply decides_ok|]. intros [j names']. split.
      + intros [= -> ->]. by constructor.
      + inversion 1 as [| ???? ? ? Hb'|? ? ? ? ? Hb']; subst; [done|..]; apply Huniq in Hb'; lia.
    - eapply decides_iff.
      + apply decides_guard. intros Hg%Z.ltb_ge. apply IH; lia.
      + intros [j names']. rewrite Z.ltb_ge. simpl. split.
        * intros [Hg He']. apply (enc_label _ _ _ _ size); (done || lia).
        * inversion 1 as [? ? ? Hb'| ???? ? ? Hb'|? ? ? ? ? Hb']; subst; apply Huniq in Hb'; subst;
            [lia|done|lia]. }
  destruct (Z.leb_spec 192 size) as [H192|H192].
  2:{ eapply decides_iff; [apply decides_err|]. intros [j names']. split; [done|].
      inversion 1 as [? ? ? Hb'| ???? ? ? Hb'|? ? ? ? ? Hb']; subst; apply Huniq in Hb'; subst; lia. }
  eapply decides_iff.
  - apply decides_guard. intros Hg%Z.leb_gt.
    apply decides_bind; [apply decides_byte; [done|lia]|]. intros lo _.
    apply decides_guard. intros _. apply decides_ok.
  - intros [j names']. rewrite Z.leb_gt. split.
    + intros (Hg & lo & Hlo & Ht & [= -> ->]). destruct (has_byte_range _ _ _ Hp Hlo).
      rewrite pointer_high, lor_low in Ht by lia. go_bool.
      replace (i + 1 + 1) with (i + 2) by lia. by eapply enc_pointer.
    + inversion 1 as [? ? ? Hb'| ???? ? ? Hb'|? ? ? lo ? Hb' ? Hlo]; subst; apply Huniq in Hb'; subst; [lia..|].
      destruct (has_byte_range _ _ _ Hp Hlo). split; [done|]. exists lo. split; [done|].
      rewrite pointer_high, lor_low by lia. split; [|f_equal; lia].
      apply orb_false_iff. split; [by apply Z.leb_gt|]. by rewrite bool_decide_eq_true_2.
Qed.

Lemma nameEnd_decides p i end_ names :
  bytes p → 0 <= i → end_ <= llen p → decides (nameEnd p i end_ names) (enc p end_ names i).
Proof. intros. apply name_loop_decides; (done || lia). Qed.

Lemma frame_rdata_decides p names i size kind :
  bytes p → 0 <= i → i + size <= llen p →
  decides (frame_rdata p names i (i + size) size kind) (rdata_enc p names i (i + size) kind).
Proof.
  intros Hp Hi Hl. unfold frame_rdata.
  destruct (Z.eqb_spec kind TypeA) as [->|NA].
  { eapply decides_iff; [apply decides_guard; intros _; apply decides_ok|]. intros v.
    cbv beta. rewrite negb_false_iff, Z.eqb_eq. split; [intros [-> ->]; by constructor|].
    inversion 1; subst; try naive_solver lia. set_solver. }
  destruct (Z.eqb_spec kind TypeAAAA) as [->|NAAAA].
  { eapply decides_iff; [apply decides_guard; intros _; apply decides_ok|]. intros v.
    cbv beta. rewrite negb_false_iff, Z.eqb_eq. split; [intros [-> ->]; by constructor|].
    inversion 1; subst; try naive_solver lia. set_solver. }
  destruct ((kind =? TypeCNAME) || (kind =? TypeNS)) eqn:Ename.
  { rewrite orb_true_iff, !Z.eqb_eq in Ename. eapply decides_iff.
    - apply decides_bind_pair; [by apply nameEnd_decides|]. intros after names' _.
      apply decides_guard. intros _. apply decides_ok.
    - intros v. split.
      + intros (after & names' & He & Hg & ->). rewrite negb_false_iff, Z.eqb_eq in Hg. subst after.
        by constructor.
      + inversion 1; subst; [done..| |naive_solver|set_solver].
        exists (i + size), v. split; [done|]. by rewrite Z.eqb_refl. }
  rewrite orb_false_iff, !Z.eqb_neq in Ename.
  destruct (Z.eqb_spec kind TypeSOA) as [->|NSOA].
  { eapply decides_iff.
    - apply decides_bind_pair; [by apply nameEnd_decides|]. intros k names1 Hk%name_enc_range.
      apply decides_bind_pair; [apply nameEnd_decides; (done || lia)|]. intros after names2 _.
      apply decides_guard. intros _. apply decides_ok.
    - intros v. split.
      + intros (k & names1 & He & after & names2 & He2 & Hg & ->). rewrite negb_false_iff, Z.eqb_eq in Hg.
        eapply rdata_soa; [exact He|]. replace (i + size - 20) with after by lia. done.
      + inversion 1 as [| |? ? [|] ?|names1 k names2 He He2|]; subst; try done; [|set_solver].
        exists k, names1. split; [done|]. exists (i + size - 20), v. split; [done|].
        split; [|done]. rewrite negb_false_iff, Z.eqb_eq. lia. }
  destruct (Z.eqb_spec kind TypeOPT) as [->|NOPT].
  { eapply decides_iff; [apply decides_err|]. intros v. split; [done|].
    inversion 1 as [| |? ? [|] ?| |]; subst; try done. set_solver. }
  eapply decides_iff; [apply decides_ok|]. intros v. split.
  - intros ->. apply rdata_opaque. rewrite !not_elem_of_cons. destruct Ename. split_and!; try done. apply not_elem_of_nil.
  - inversion 1; subst; naive_solver.
Qed.

(** One record of [records_enc]. *)
Definition record_enc (p : list Z) (st st' : Z * gset Z) : Prop :=
  let '(i, names) := st in
  ∃ k names1 kind size names2,
    name_enc p (llen p) names i names1 k ∧ has_u16 p k kind ∧ has_u16 p (k + 8) size ∧
    k + 10 + size <= llen p ∧ rdata_enc p names1 (k + 10) (k + 10 + size) kind names2 ∧
    st' = (k + 10 + size, names2).

Lemma has_u16_range p i n : bytes p → has_u16 p i n → 0 <= n < 65536.
Proof.
  intros Hp (hi & lo & H1 & H2 & ->). destruct (has_byte_range _ _ _ Hp H1), (has_byte_range _ _ _ Hp H2). lia.
Qed.

Lemma frame_record_decides p st x :
  bytes p → 0 <= fst st → decides (frame_record p st x) (record_enc p st).
Proof.
  destruct st as [i names]. simpl. intros Hp Hi. unfold frame_record. eapply decides_iff.
  - apply decides_bind_pair; [by apply nameEnd_decides|]. intros k names1 Hk%name_enc_range.
    apply decides_guard. intros Hg%Z.ltb_ge.
    apply decides_bind; [apply decides_u16; (done || lia)|]. intros kind _.
    apply decides_bind; [apply decides_u16; (done || lia)|]. intros size Hs%has_u16_range; [|done].
    apply decides_guard. intros Hg2%Z.ltb_ge.
    apply decides_bind; [apply frame_rdata_decides; (done || lia)|]. intros names2 _. apply decides_ok.
  - intros v. split.
    + intros (k & names1 & He & Hg & kind & Hk & size & Hs & Hg2 & names2 & Hr & ->).
      apply Z.ltb_ge in Hg2. exists k, names1, kind, size, names2. done.
    + intros (k & names1 & kind & size & names2 & He & Hk & Hs & Hl & Hr & ->).
      pose proof (has_u16_range _ _ _ Hp Hs).
      exists k, names1. split; [done|]. split; [apply Z.ltb_ge; lia|].
      exists kind. split; [done|]. exists size. split; [done|]. split; [apply Z.ltb_ge; lia|].
      exists names2. done.
Qed.

Lemma record_enc_progress p st st' : bytes p → record_enc p st st' → 0 <= fst st'.
Proof.
  destruct st as [i names]. intros Hp (k & names1 & kind & size & names2 & He%name_enc_range & _ & Hs & _ & _ & ->).
  apply has_u16_range in Hs; [|done]. simpl. lia.
Qed.

Lemma records_enc_step p n st st' :
  records_enc p (S n) st st' ↔ ∃ st1, record_enc p st st1 ∧ records_enc p n st1 st'.
Proof.
  destruct st as [i names]. split.
  - inversion 1; subst. eexists. split; [|done]. do 5 eexists. by split_and!.
  - intros (st1 & (k & names1 & kind & size & names2 & ? & ? & ? & ? & ? & ->) & ?). by econstructor.
Qed.

Lemma frame_records_decide p n st xs :
  bytes p → 0 <= fst st → length xs = n → decides (for_each (frame_record p) xs st) (records_enc p n st).
Proof.
  intros Hp. revert st xs. induction n as [|n IH]; intros st xs Hi Hl.
  - destruct xs; [|done]. eapply decides_iff; [apply decides_ok|]. intros v.
    split; [intros ->; constructor|by inversion 1].
  - destruct xs as [|x xs]; [done|]. eapply decides_iff.
    + apply decides_bind; [by apply frame_record_decides|]. intros st1 H1%record_enc_progress; [|done].
      apply IH; [done|]. by injection Hl.
    + intros v. by rewrite records_enc_step.
Qed.

Lemma framing_decides p total :
  bytes p → decides (validateFraming p total) (λ _, message_enc p total).
Proof.
  intros Hp. unfold validateFraming, message_enc. eapply decides_iff.
  - apply decides_bind_pair; [apply nameEnd_decides; (done || lia)|]. intros k names Hk%name_enc_range.
    apply decides_guard. intros Hg%Z.ltb_ge.
    apply decides_bind_pair; [apply (frame_records_decide p total); [done|simpl; lia|apply length_seq]|].
    intros j names' _. apply decides_guard. intros _. apply decides_ok.
  - intros []. split.
    + intros (k & names & He & Hg & j & names' & Hr & Hj & _). apply Z.ltb_ge in Hg.
      apply negb_false_iff, Z.eqb_eq in Hj. subst j. by exists k, names, names'.
    + intros (k & names & names' & He & Hg & Hr). exists k, names. split; [done|].
      split; [by apply Z.ltb_ge|]. exists (llen p), names'. split; [done|]. by rewrite Z.eqb_refl.
Qed.

(** C8: the envelope pass decides the message grammar.  On any bytes, for any number of
    records, [validateFraming] accepts exactly the packets that are a question and that
    many records, each name within its bounds and pointing backward to a known label
    start, each record's data of the exact length of its type, with no byte left over. *)
Theorem framing_spec p total :
  bytes p → validateFraming p total = Ok tt ↔ message_enc p total.
Proof. intros Hp. apply (framing_decides p total Hp). Qed.

(** The envelope pass is safe on hostile bytes: it never reads outside the packet
    and never runs out of its bound, so its only failure is the documented error. *)
Theorem framing_safe p total e :
  bytes p → validateFraming p total = Err e → e = ErrResponse.
Proof. intros Hp. apply (framing_decides p total Hp). Qed.

(** ** What the classification means *)

Section Meaning.
Context (lower : string → string) (kind : Z) (answers : list Resource).

Definition owned (n : string) (rr : Resource) : Prop := rr ∈ answers ∧ lower (rr_name rr) = n.
(** a record of the asked type at the name *)
Definition answered (n : string) : Prop := ∃ rr, owned n rr ∧ rr_type rr = kind.
Definition alias_of (n t : string) : Prop := ∃ rr c, owned n rr ∧ rr_cname rr = Some c ∧ lower c = t.
(** the one alias of the name *)
Definition aliases_to (n t : string) : Prop := alias_of n t ∧ ∀ t', alias_of n t' → t' = t.
Definition unaliased (n : string) : Prop := ∀ t, ¬ alias_of n t.

(** From [n], following unanswered names along their only aliases without repetition, one
    arrives at [m]; the names visited, the latest first, are added to [vis]. *)
Inductive chain : list string → string → list string → string → Prop :=
| chain_here vis n : n ∉ vis → chain vis n (n :: vis) n
| chain_alias vis n t vis' m :
    n ∉ vis → ¬ answered n → aliases_to n t → chain (n :: vis) t vis' m → chain vis n vis' m.

(** The library's names are never empty: they end in a dot. *)
Hypothesis names_nonempty : ∀ rr c, rr ∈ answers → rr_cname rr = Some c → lower c ≠ "".

(** The record is an alias of [n] to [t]. *)
Definition points (n t : string) (rr : Resource) : Prop :=
  lower (rr_name rr) = n ∧ ∃ c, rr_cname rr = Some c ∧ lower c = t.

(** What one pass over the answers finds. *)
Definition scanned (l : list Resource) (n : string) (r : result unit (string * bool)) : Prop :=
  match r with
  | Ok (t, found) =>
      (found = true ↔ Exists (λ rr, lower (rr_name rr) = n ∧ rr_type rr = kind) l) ∧
      ((t = "" ∧ Forall (λ rr, ∀ t', ¬ points n t' rr) l) ∨
       (t ≠ "" ∧ Exists (points n t) l ∧ Forall (λ rr, ∀ t', points n t' rr → t' = t) l))
  | Err _ => ∃ t t', t ≠ t' ∧ Exists (points n t) l ∧ Exists (points n t') l
  end.

Lemma scan_spec l n :
  l ⊆ answers → scanned l n (for_each (alias_step lower kind n) l ("", false)).
Proof.
  induction l as [|rr l IH] using rev_ind; intros Hsub.
  { simpl. rewrite Exists_nil. split; [done|left; split; [done|constructor]]. }
  assert (Hl : l ⊆ answers) by set_solver. specialize (IH Hl). rewrite for_each_app.
  destruct (for_each _ l _) as [[t found]|[]] eqn:E; cbn [res_bind].
  2:{ simpl in *. destruct IH as (t & t' & ? & ? & ?). exists t, t'. rewrite !Exists_app. auto. }
  simpl in IH. destruct IH as [Hf Ht]. cbn [for_each]. unfold alias_step at 1.
  assert (Hrr : rr ∈ answers) by set_solver.
  destruct (bool_decide (lower (rr_name rr) = n)) eqn:En; cbn [negb]; go_bool.
  2:{ assert (Hp : ∀ t', ¬ points n t' rr) by (unfold points; naive_solver).
      cbn [res_bind scanned]. rewrite !Exists_app, !Forall_app, !Exists_cons, !Exists_nil, !Forall_singleton.
      split; [naive_solver|]. destruct Ht as [[-> Hn]|(Hn & He & Hall)]; [left; auto|right].
      split_and!; auto. intros t' H. by apply Hp in H. }
  assert (Hf' : (if rr_type rr =? kind then true else found) = true ↔
    Exists (λ rr, lower (rr_name rr) = n ∧ rr_type rr = kind) (l ++ [rr])).
  { rewrite Exists_app, Exists_cons, Exists_nil. destruct (Z.eqb_spec (rr_type rr) kind); [tauto|].
    rewrite Hf. naive_solver. }
  destruct (rr_cname rr) as [c|] eqn:Ec.
  - assert (Hp : ∀ t', points n t' rr ↔ t' = lower c) by (unfold points; naive_solver).
    assert (Hc : lower c ≠ "") by by eapply names_nonempty.
    destruct (bool_decide (t = "")) eqn:Et; cbn [negb andb]; go_bool.
    + cbn [res_bind scanned]. split; [done|]. right. subst t. destruct Ht as [[_ Hn]|[? _]]; [|done].
      rewrite Exists_app, Exists_cons, Forall_app, Forall_singleton, Hp. split_and!; auto.
      * eapply Forall_impl; [exact Hn|]. intros x Hx t' H. by apply Hx in H.
      * intros t'. by rewrite Hp.
    + destruct Ht as [[? _]|(_ & He & Hall)]; [done|].
      destruct (bool_decide (t = lower c)) eqn:Etc; cbn [negb]; go_bool.
      * cbn [res_bind scanned]. split; [done|]. right. subst t.
        rewrite Exists_app, Forall_app, Forall_singleton. split_and!; auto. intros t'. by rewrite Hp.
      * cbn [res_bind scanned]. exists t, (lower c). rewrite !Exists_app, !Exists_cons, !Hp. auto.
  - assert (Hp : ∀ t', ¬ points n t' rr) by (unfold points; naive_solver).
    cbn [res_bind scanned]. split; [done|]. rewrite Exists_app, !Forall_app, !Forall_singleton.
    destruct Ht as [[-> Hn]|(Hn & He & Hall)]; [left; auto|right]. split_and!; auto.
    intros t' H. by apply Hp in H.
Qed.

Lemma alias_of_points n t : alias_of n t ↔ Exists (points n t) answers.
Proof.
  unfold alias_of, owned, points. rewrite Exists_exists. split.
  - intros (rr & c & [? ?] & ? & ?). eauto 10.
  - intros (rr & ? & ? & c & ? & ?). by exists rr, c.
Qed.

Lemma unaliased_points n : unaliased n ↔ Forall (λ rr, ∀ t, ¬ points n t rr) answers.
Proof.
  unfold unaliased. setoid_rewrite alias_of_points. setoid_rewrite Exists_exists.
  rewrite Forall_forall. split.
  - intros H rr Hrr t Hp. apply (H t). by exists rr.
  - intros H t (rr & Hrr & Hp). by apply (H rr Hrr t).
Qed.

Lemma aliases_to_points n t :
  aliases_to n t ↔ Exists (points n t) answers ∧ Forall (λ rr, ∀ t', points n t' rr → t' = t) answers.
Proof.
  unfold aliases_to. rewrite alias_of_points. apply and_iff_compat_l.
  setoid_rewrite alias_of_points. setoid_rewrite Exists_exists. rewrite Forall_forall. split.
  - intros H rr Hrr t' Hp. apply H. by exists rr.
  - intros H t' (rr & Hrr & Hp). by apply (H rr Hrr).
Qed.

(** The three ways a pass over all answers ends. *)
Lemma scan_cases n :
  match for_each (alias_step lower kind n) answers ("", false) with
  | Ok (t, found) =>
      (found = true ↔ answered n) ∧ ((t = "" ∧ unaliased n) ∨ (t ≠ "" ∧ aliases_to n t))
  | Err _ => ¬ unaliased n ∧ ∀ t, ¬ aliases_to n t
  end.
Proof.
  pose proof (scan_spec answers n ltac:(done)) as H. unfold scanned in H.
  destruct (for_each _ _ _) as [[t found]|[]].
  - rewrite unaliased_points, aliases_to_points. destruct H as [Hf Ht]. split; [|done].
    rewrite Hf, Exists_exists. unfold answered, owned. naive_solver.
  - destruct H as (t & t' & Hne & H1 & H2). rewrite <- alias_of_points in H1. rewrite <- alias_of_points in H2. split.
    + intros Hu. by apply (Hu t).
    + intros u [_ Hall]. apply Hne. by rewrite (Hall t H1), (Hall t' H2).
Qed.

Lemma chain_visited vis n vis' m : chain vis n vis' m → (length vis < length vis')%nat.
Proof. induction 1; simpl in *; lia. Qed.

Lemma unaliased_not n t : unaliased n → ¬ aliases_to n t.
Proof. intros Hu [Ha _]. by apply (Hu t). Qed.

Lemma chain_step_iff vis n t vis' m :
  n ∉ vis → ¬ answered n → aliases_to n t → unaliased m →
  chain vis n vis' m ↔ chain (n :: vis) t vis' m.
Proof.
  intros Hn Ha Ht Hu. split; [|by econstructor].
  inversion 1 as [|? ? t' ? ? ? ? Ht' Hc]; subst; [by apply unaliased_not in Ht|].
  assert (t' = t) as ->; [|done]. apply Ht. apply Ht'.
Qed.

(** The end of a chain at an unaliased name, where nothing can be followed. *)
Lemma chain_end_iff vis n vis' m :
  n ∉ vis → (answered n ∨ ∀ t, ¬ aliases_to n t) → chain vis n vis' m ↔ vis' = n :: vis ∧ m = n.
Proof.
  intros Hn Ha. split; [|intros [-> ->]; by constructor].
  inversion 1; subst; naive_solver.
Qed.

(** The chase finishes within its bound, on an answer or on the unanswered end of a chain. *)
Lemma chase_spec fuel n vis :
  (fuel + length vis = S MaxAliases)%nat → (length vis ≤ MaxAliases)%nat →
  let r := chase lower fuel kind answers n vis (length vis) in
  let at_end vis' m := chain vis n vis' m ∧ (length vis' ≤ S MaxAliases)%nat ∧ unaliased m in
  r ≠ Unfinished ∧
  (r = Returned DNSAnswerPresent ↔ ∃ vis' m, at_end vis' m ∧ answered m) ∧
  (∀ k, r = Returned k → k = DNSAnswerPresent ∨ k = DNSAnswerUnclassified) ∧
  (∀ m vis' a, r = Broke m vis' a ↔ at_end vis' m ∧ ¬ answered m ∧ length vis' = S a).
Proof.
  cbv zeta. revert n vis. induction fuel as [|fuel IH]; intros n vis Hf Hv; [lia|].
  cbn [chase].
  assert (Hnone : (∀ vis' m, chain vis n vis' m → (length vis' ≤ S MaxAliases)%nat → unaliased m → False) →
    Returned DNSAnswerUnclassified ≠ Unfinished ∧
    (Returned DNSAnswerUnclassified = Returned DNSAnswerPresent ↔
     ∃ vis' m, (chain vis n vis' m ∧ (length vis' ≤ S MaxAliases)%nat ∧ unaliased m) ∧ answered m) ∧
    (∀ k, Returned DNSAnswerUnclassified = Returned k → k = DNSAnswerPresent ∨ k = DNSAnswerUnclassified) ∧
    (∀ m vis' a, Returned DNSAnswerUnclassified = Broke m vis' a ↔
     (chain vis n vis' m ∧ (length vis' ≤ S MaxAliases)%nat ∧ unaliased m) ∧ ¬ answered m ∧ length vis' = S a)).
  { intros Hno. split_and!; [done| |by intros k [= <-]; right|]; naive_solver. }
  case_bool_decide as Hin; [apply Hnone; intros vis' m Hc _ _; inversion Hc; subst; done|].
  pose proof (scan_cases n) as Hscan. destruct (for_each _ _ _) as [[t found]|[]].
  2:{ destruct Hscan as [Hu Ht]. apply Hnone. intros vis' m Hc _ Hum.
      apply chain_end_iff in Hc as [-> ->]; auto. }
  destruct Hscan as [Hfound Ht]. destruct found.
  - assert (Ha : answered n) by by apply Hfound.
    destruct Ht as [[-> Hu]|[Hne Ht]].
    + rewrite bool_decide_eq_true_2 by done. cbn [negb]. split_and!; [done| |by intros k [= <-]; left|].
      * split; [|done]. intros _. exists (n :: vis), n. split; [|done]. split_and!; [by constructor|simpl; lia|done].
      * intros m vis' a. split; [done|]. intros ((Hc & _) & Hna & _).
        apply chain_end_iff in Hc as [-> ->]; auto. done.
    + rewrite bool_decide_eq_false_2 by done. cbn [negb]. apply Hnone. intros vis' m Hc _ Hum.
      apply chain_end_iff in Hc as [-> ->]; auto. by apply (unaliased_not n t).
  - assert (Ha : ¬ answered n) by (rewrite <- Hfound; done).
    destruct Ht as [[-> Hu]|[Hne Ht]].
    + rewrite bool_decide_eq_true_2 by done.
      assert (Hend : ∀ vis' m, chain vis n vis' m ↔ vis' = n :: vis ∧ m = n).
      { intros. apply chain_end_iff; [done|]. right. intros t. by apply unaliased_not. }
      split_and!; [done| |done|].
      * split; [done|]. intros (vis' & m & ([-> ->]%Hend & _) & Hm). done.
      * intros m vis' a. rewrite Hend. split.
        -- intros [= <- <- <-]. split_and!; simpl; (done || lia).
        -- intros (([-> ->] & _) & _ & [= <-]). done.
    + rewrite bool_decide_eq_false_2 by done.
      assert (Hstep : ∀ vis' m, unaliased m → chain vis n vis' m ↔ chain (n :: vis) t vis' m).
      { intros vis' m Hum. by apply chain_step_iff. }
      destruct (Nat.ltb_spec MaxAliases (S (length vis))) as [Hlt|Hge].
      * apply Hnone. intros vis' m Hc Hl Hum. apply Hstep in Hc; [|done].
        apply chain_visited in Hc. simpl in Hc. lia.
      * destruct (IH t (n :: vis)) as (H1 & H2 & H3 & H4); [simpl; lia|simpl; lia|].
        cbn [length] in *. split_and!; [done| |done|].
        -- rewrite H2. split; intros (vis' & m & (Hc & Hl & Hum) & Hm); exists vis', m;
             (split; [|done]); split_and!; try done; by apply Hstep.
        -- intros m vis' a. rewrite H4. split; intros ((Hc & Hl & Hum) & Hm & Hlen);
             (split; [|done]); split_and!; try done; by apply Hstep.
Qed.

(** The name reached from the question when nothing is left to follow. *)
Definition reached (qname : string) (vis : list string) (m : string) : Prop :=
  chain [] (lower qname) vis m ∧ (length vis ≤ S MaxAliases)%nat ∧ unaliased m.

(** All that was answered is the chain itself: negative evidence about its end. *)
Definition only_chain (vis : list string) (m : string) : Prop :=
  ¬ answered m ∧ ∀ rr, rr ∈ answers → rr_type rr = TypeCNAME ∧ lower (rr_name rr) ∈ vis.

Definition authority (authorities : list Resource) (t : Z) : Prop := ∃ rr, rr ∈ authorities ∧ rr_type rr = t.
Definition zone_authority (authorities : list Resource) (t : Z) (m : string) : Prop :=
  ∃ rr, rr ∈ authorities ∧ rr_type rr = t ∧ inZone m (lower (rr_name rr)) = true.

Lemma authority_fold m authorities :
  foldl (authority_step lower m) (false, false, false, false) authorities =
  (existsb (λ rr, (rr_type rr =? TypeSOA) && inZone m (lower (rr_name rr))) authorities,
   existsb (λ rr, (rr_type rr =? TypeNS) && inZone m (lower (rr_name rr))) authorities,
   existsb (λ rr, rr_type rr =? TypeSOA) authorities, existsb (λ rr, rr_type rr =? TypeNS) authorities).
Proof.
  induction authorities as [|rr l IH] using rev_ind; [done|].
  rewrite foldl_app, IH, !existsb_app. cbn [foldl existsb authority_step].
  destruct (Z.eqb_spec (rr_type rr) TypeSOA) as [->|]; [|destruct (Z.eqb_spec (rr_type rr) TypeNS)];
    cbn [andb orb Z.eqb TypeSOA TypeNS]; by rewrite ?orb_false_r, ?orb_true_r.
Qed.

Lemma authority_exists authorities t :
  existsb (λ rr, rr_type rr =? t) authorities = true ↔ authority authorities t.
Proof. rewrite existsb_true_iff, Exists_exists. unfold authority. by setoid_rewrite Z.eqb_eq. Qed.

Lemma zone_authority_exists authorities t m :
  existsb (λ rr, (rr_type rr =? t) && inZone m (lower (rr_name rr))) authorities = true ↔
  zone_authority authorities t m.
Proof.
  rewrite existsb_true_iff, Exists_exists. unfold zone_authority.
  setoid_rewrite andb_true_iff. by setoid_rewrite Z.eqb_eq.
Qed.

Lemma zone_is_authority authorities t m : zone_authority authorities t m → authority authorities t.
Proof. intros (rr & ? & ? & _). by exists rr. Qed.

Lemma existsb_alien (vis : list string) :
  existsb (λ rr, negb (rr_type rr =? TypeCNAME) || negb (bool_decide (lower (rr_name rr) ∈ vis))) answers = false ↔
  ∀ rr, rr ∈ answers → rr_type rr = TypeCNAME ∧ lower (rr_name rr) ∈ vis.
Proof.
  rewrite existsb_false_iff, Forall_forall. setoid_rewrite orb_false_iff.
  setoid_rewrite negb_false_iff. setoid_rewrite Z.eqb_eq. by setoid_rewrite bool_decide_eq_true.
Qed.

(** The kind decided by the authorities once the chain is all there is. *)
Definition negative_kind (authorities : list Resource) (m : string) (vis : list string) (k : DNSAnswerKind) : Prop :=
  (k = DNSAnswerNoData ∧
     (zone_authority authorities TypeSOA m ∨
      ¬ authority authorities TypeSOA ∧ ¬ authority authorities TypeNS ∧ length vis = 1%nat)) ∨
  (k = DNSAnswerReferral ∧ ¬ authority authorities TypeSOA ∧ zone_authority authorities TypeNS m) ∨
  (k = DNSAnswerUnclassified ∧ ¬ zone_authority authorities TypeSOA m ∧
     (authority authorities TypeSOA ∨ ¬ zone_authority authorities TypeNS m ∧
        (authority authorities TypeNS ∨ length vis ≠ 1%nat))).

Lemma classify_broke qname authorities m vis a :
  chase lower (S MaxAliases) kind answers (lower qname) [] 0 = Broke m vis a → length vis = S a →
  (∀ rr, rr ∈ answers → rr_type rr = TypeCNAME ∧ lower (rr_name rr) ∈ vis) →
  ∃ k, classify lower qname kind answers authorities = Some k ∧ negative_kind authorities m vis k.
Proof.
  intros Hc Hlen Hal. unfold classify. rewrite Hc, (proj2 (existsb_alien vis) Hal), authority_fold.
  eexists. split; [done|]. unfold negative_kind.
  rewrite <- !authority_exists, <- !zone_authority_exists.
  assert (Ha : (0 <? a)%nat = false ↔ length vis = 1%nat) by (rewrite Nat.ltb_ge; lia).
  rewrite <- Ha. clear.
  destruct (existsb (λ rr, (rr_type rr =? TypeSOA) && _) _); [left; tauto|].
  destruct (existsb (λ rr, rr_type rr =? TypeSOA) _); [right; right; split_and!; auto|].
  destruct (existsb (λ rr, (rr_type rr =? TypeNS) && _) _); [right; left; split_and!; auto|].
  destruct (existsb (λ rr, rr_type rr =? TypeNS) _); [right; right; split_and!; auto|].
  destruct (0 <? a)%nat; [right; right; split_and!; auto|left; split_and!; auto].
Qed.

Lemma classify_cases qname authorities :
  ∃ k, classify lower qname kind answers authorities = Some k ∧
  (k = DNSAnswerPresent ∧ (∃ vis m, reached qname vis m ∧ answered m) ∨
   (∃ vis m, reached qname vis m ∧ only_chain vis m ∧ negative_kind authorities m vis k) ∨
   k = DNSAnswerUnclassified ∧ ∀ vis m, reached qname vis m → ¬ answered m ∧ ¬ only_chain vis m).
Proof.
  destruct (chase_spec (S MaxAliases) (lower qname) []) as (Hfin & Hpres & Hkinds & Hbroke);
    [done|simpl; lia|]. cbn [length] in *. fold (reached qname) in *.
  destruct (chase lower (S MaxAliases) kind answers (lower qname) [] 0) as [k|m vis a|] eqn:Ec; [| |done].
  - exists k. split; [unfold classify; by rewrite Ec|].
    destruct (Hkinds k eq_refl) as [->| ->]; [left; split; [done|by apply Hpres]|].
    right. right. split; [done|]. intros vis m Hr.
    assert (Hna : ¬ answered m) by (intros Ha; assert (H : Returned DNSAnswerUnclassified = Returned DNSAnswerPresent)
      by (apply Hpres; eauto); done).
    split; [done|]. intros _. destruct vis as [|x vis].
    { destruct Hr as (H%chain_visited & _). simpl in H. lia. }
    assert (H : Returned DNSAnswerUnclassified = Broke m (x :: vis) (length vis)) by by apply Hbroke. done.
  - destruct (proj1 (Hbroke m vis a) eq_refl) as (Hr & Hna & Hlen).
    destruct (existsb (λ rr, negb (rr_type rr =? TypeCNAME) || negb (bool_decide (lower (rr_name rr) ∈ vis))) answers) eqn:Eal.
    + exists DNSAnswerUnclassified. split; [unfold classify; by rewrite Ec, Eal|].
      right. right. split; [done|]. intros vis' m' Hr'.
      assert (Hna' : ¬ answered m') by (intros Ha; assert (H : Broke m vis a = Returned DNSAnswerPresent)
        by (apply Hpres; eauto); done).
      split; [done|]. intros [_ Hal]. destruct vis' as [|x vis'].
      { destruct Hr' as (H%chain_visited & _). simpl in H. lia. }
      assert (H : Broke m vis a = Broke m' (x :: vis') (length vis')) by by apply Hbroke.
      injection H as -> -> _. apply existsb_alien in Hal. congruence.
    + pose proof (proj1 (existsb_alien vis) Eal) as Hal. destruct (classify_broke qname authorities m vis a Ec Hlen Hal) as (k & Hk & Hn).
      exists k. split; [done|]. right. left. by exists vis, m.
Qed.

Lemma chain_det vis n v1 m1 v2 m2 :
  chain vis n v1 m1 → unaliased m1 → chain vis n v2 m2 → unaliased m2 → v1 = v2 ∧ m1 = m2.
Proof.
  intros H1 Hu1. revert v2 m2. induction H1 as [vis n Hn|vis n t v1 m1 Hn Ha Ht H1 IH]; intros v2 m2 H2 Hu2.
  - apply chain_end_iff in H2 as [-> ->]; [done|done|]. right. intros t. by apply unaliased_not.
  - apply (chain_step_iff vis n t) in H2; auto.
Qed.

Lemma reached_unique qname vis m vis' m' :
  reached qname vis m → reached qname vis' m' → vis = vis' ∧ m = m'.
Proof. intros (H1 & _ & Hu1) (H2 & _ & Hu2). by eapply chain_det. Qed.

(** C9: what the class of a reply means.  For any records, the classification finishes
    within its bound of nine names.  It is [answer] exactly when following at most eight
    aliases from the question, each the only alias of an unanswered name and none visited
    twice, ends at a name with a record of the asked type and no alias; [no-data] exactly
    when it ends at an unanswered name, every answer record is one of the aliases
    followed, and either an SOA record of a zone of that name is present, or there is
    neither an SOA nor an NS record and no alias was followed; [referral] exactly when
    it so ends without SOA records but with an NS record of a zone of that name. *)
Theorem classify_spec qname authorities :
  ∃ k, classify lower qname kind answers authorities = Some k ∧
  (k = DNSAnswerPresent ↔ ∃ vis m, reached qname vis m ∧ answered m) ∧
  (k = DNSAnswerNoData ↔ ∃ vis m, reached qname vis m ∧ only_chain vis m ∧
     (zone_authority authorities TypeSOA m ∨
      ¬ authority authorities TypeSOA ∧ ¬ authority authorities TypeNS ∧ length vis = 1%nat)) ∧
  (k = DNSAnswerReferral ↔ ∃ vis m, reached qname vis m ∧ only_chain vis m ∧
     ¬ authority authorities TypeSOA ∧ zone_authority authorities TypeNS m).
Proof.
  destruct (classify_cases qname authorities) as (k & Hk & Hc). exists k. split; [done|].
  destruct Hc as [(-> & vis & m & Hr & Ha)|[(vis & m & Hr & Ho & Hn)|(-> & Hno)]].
  - split_and!; [split; eauto|..]; (split; [done|]); intros (vis' & m' & Hr' & [Hna _] & _);
      destruct (reached_unique _ _ _ _ _ Hr Hr') as [-> ->]; done.
  - assert (Hu : ∀ vis' m', reached qname vis' m' → vis' = vis ∧ m' = m).
    { intros vis' m' Hr'. by eapply reached_unique. }
    pose proof (zone_is_authority authorities TypeSOA m). pose proof (zone_is_authority authorities TypeNS m).
    split_and!.
    + split; [intros ->; by destruct Hn as [[? _]|[[? _]|[? _]]]|].
      intros (vis' & m' & Hr' & Ha). destruct (Hu _ _ Hr') as [-> ->]. by destruct Ho.
    + split.
      * intros ->. exists vis, m. split_and!; [done|done|]. by destruct Hn as [[_ Hn]|[[? _]|[? _]]].
      * intros (vis' & m' & Hr' & _ & Hz). destruct (Hu _ _ Hr') as [-> ->].
        destruct Hn as [[? _]|[(_ & ? & ?)|(_ & ? & Hn)]]; [done|tauto|tauto].
    + split.
      * intros ->. exists vis, m. split_and!; [done|done|..]; destruct Hn as [[? _]|[(_ & ? & ?)|[? _]]]; done.
      * intros (vis' & m' & Hr' & _ & Hz). destruct (Hu _ _ Hr') as [-> ->].
        destruct Hn as [[_ Hn]|[(? & _)|(_ & ? & Hn)]]; [tauto|done|tauto].
  - split_and!; (split; [done|]).
    + intros (vis & m & Hr & Ha). by destruct (Hno _ _ Hr).
    + intros (vis & m & Hr & Ho & _). by destruct (Hno _ _ Hr).
    + intros (vis & m & Hr & Ho & _). by destruct (Hno _ _ Hr).
Qed.

End Meaning.

(** ** Concrete messages *)

(** A packing of one question: identifier, recursion desired, the labels, type and class. *)
Definition pack_label (l : list ascii) : list Z := Z.of_nat (length l) :: map byte_of l.
Definition pack_name (n : string) : list Z :=
  flat_map pack_label (split_dots (removelast (String.list_ascii_of_string n))) ++ [0].
Definition pack_question (i : Z) (n : string) (k : Z) : option (list Z) :=
  Some ([Z.shiftr i 8; Z.land i 255; 1; 0; 0; 1; 0; 0; 0; 0; 0; 0] ++ pack_name n ++ [0; k; 0; 1]).
Definition checked_name (n : string) : option string := if 255 <? slen n then None else Some n.

Example packed_query :
  option_map packet (NewQuery checked_name pack_question (mkAddrPort (V4 3232235777) 53) "Ab.c." DNSQueryAAAA 258) =
  Some [1; 2; 1; 0; 0; 1; 0; 0; 0; 0; 0; 0; 2; 97; 98; 1; 99; 0; 0; 28; 0; 1].
Proof. vm_compute. reflexivity. Qed.

(** A reply to a question for [a.] with one A record whose name is a pointer. *)
Definition reply_packet : list Z :=
  [0; 1; 129; 128; 0; 1; 0; 1; 0; 0; 0; 0; 1; 97; 0; 0; 1; 0; 1;
   192; 12; 0; 1; 0; 1; 0; 0; 0; 60; 0; 4; 192; 0; 2; 1].

Lemma reply_bytes : bytes reply_packet.
Proof. unfold bytes, reply_packet. repeat (constructor; [lia|]). constructor. Qed.

Lemma framing_spec_witness : message_enc reply_packet 1.
Proof. apply (framing_spec reply_packet 1 reply_bytes). vm_compute. reflexivity. Defined.

(** With one byte missing the record is refused, and not by a read past the end. *)
Lemma framing_safe_witness :
  ∃ e, validateFraming (take 34 reply_packet) 1 = Err e ∧ e = ErrResponse.
Proof.
  eexists. split; [vm_compute; reflexivity|].
  apply (framing_safe (take 34 reply_packet) 1).
  - unfold bytes. apply Forall_take, reply_bytes.
  - vm_compute. reflexivity.
Defined.

(** A chain of one alias with an address at its end. *)
Definition aliased : list Resource :=
  [mkResource "www.example." TypeCNAME (Some "host.example."); mkResource "host.example." TypeA None].

Lemma classify_spec_witness :
  ∃ k, classify ToLower "www.example." TypeA aliased [] = Some k ∧ k = DNSAnswerPresent.
Proof.
  destruct (classify_spec ToLower TypeA aliased) with (qname := "www.example.") (authorities := @nil Resource)
    as (k & Hk & Hp & _).
  { unfold aliased. intros rr c [->|[->|[]%elem_of_nil]%elem_of_cons]%elem_of_cons; [|done].
    intros [= <-]. vm_compute. discriminate. }
  exists k. split; [exact Hk|]. vm_compute in Hk. injection Hk as <-. reflexivity.
Defined.

Example classify_loop :
  classify ToLower "a." TypeA [mkResource "a." TypeCNAME (Some "b."); mkResource "b." TypeCNAME (Some "A.")] [] =
  Some DNSAnswerUnclassified.
Proof. vm_compute. reflexivity. Qed.

End Wire.
