(* ===== verification/ResolverReply.v ===== *)
(** * Matching a DNS reply

    [Query.MatchResponse] of [resolverwire/query.go].  The parser of
    [golang.org/x/net/dns/dnsmessage] is a parameter: a state that is read question by
    question and record by record.  What the code relies on is the class [Parses]: the
    header's response code and truncation are bits of the message, and a section has no
    more records than its count says. *)

From S2P Require Import Prelude Regex NetAddr ResolverQuality ResolverWire.

Module Reply.
Import Resolver Wire.

(** ** The library's parser *)

Record Header := mkHeader { hRCode : Z; hTruncated : bool }.
Record Question (Name : Type) := mkQuestion { qnName : Name; qnType : Z; qnClass : Z }.
Record ResourceHeader (Name : Type) := mkResourceHeader { rhName : Name; rhType : Z; rhClass : Z }.
Arguments mkQuestion {Name}. Arguments qnName {Name}. Arguments qnType {Name}. Arguments qnClass {Name}.
Arguments mkResourceHeader {Name}. Arguments rhName {Name}. Arguments rhType {Name}. Arguments rhClass {Name}.

Inductive parsed (A : Type) : Type := Parsed (a : A) | SectionDone | ParseError.
Arguments Parsed {A} a. Arguments SectionDone {A}. Arguments ParseError {A}.

(** [ReadBody] stands for the five typed readers: the alias of a CNAME, else nothing. *)
Record Parser (Name P : Type) := mkParser {
  Start : list Z → option (Header * P);
  ReadQuestion : P → parsed (Question Name) * P;
  ReadHeader : nat → P → parsed (ResourceHeader Name) * P;
  ReadBody : Z → P → option (option Name) * P;
  Skip : nat → P → bool * P;
}.
Arguments mkParser {Name P}. Arguments Start {Name P}. Arguments ReadQuestion {Name P}.
Arguments ReadHeader {Name P}. Arguments ReadBody {Name P}. Arguments Skip {Name P}.

Definition ClassINET : Z := 1.

Section Match.
Context {Name P : Type} (parser : Parser Name P) (NameString : Name → string).
(** [strings.ToLower] and [strings.EqualFold], on names of any bytes. *)
Context (lower : string → string) (EqualFold : string → string → bool).

(** The types with a reader of their own. *)
Definition typed (kind : Z) : bool :=
  (kind =? TypeA) || (kind =? TypeAAAA) || (kind =? TypeCNAME) || (kind =? TypeNS) || (kind =? TypeSOA).

(** The body of a record, and the record as the classification reads it. *)
Definition read_resource (section : nat) (hdr : ResourceHeader Name) (p : P) : option Resource * P :=
  let name := NameString (rhName hdr) in
  if typed (rhType hdr) then
    match ReadBody parser (rhType hdr) p with
    | (Some alias, p) =>
        (Some (mkResource name (rhType hdr) (if rhType hdr =? TypeCNAME then option_map NameString alias else None)), p)
    | (None, p) => (None, p)
    end
  else
    match Skip parser section p with
    | (true, p) => (Some (mkResource name (rhType hdr) None), p)
    | (false, p) => (None, p)
    end.

(** The loop over one section. *)
Fixpoint read_section (fuel section : nat) (p : P) (resources : list Resource) : result frame_err (list Resource * P) :=
  match fuel with
  | O => Err OutOfFuel
  | S fuel =>
      match ReadHeader parser section p with
      | (SectionDone, p) => Ok (resources, p)
      | (ParseError, _) => Err ErrResponse
      | (Parsed hdr, p) =>
          guard? negb (rhClass hdr =? ClassINET) || (rhType hdr =? TypeOPT) else ErrResponse in
          match read_resource section hdr p with
          | (None, _) => Err ErrResponse
          | (Some r, p) => read_section fuel section p (resources ++ [r])
          end
      end
  end.

(** One record more than the message may announce. *)
Definition section_fuel : nat := S (Z.to_nat MaxRecords).

Definition MatchResponse (q : Query (Name := Name)) (peer : AddrPort) (packet : list Z) : result frame_err DNSReply :=
  guard? (llen (Wire.packet q) =? 0) || (peer != endpoint q) || (llen packet <? 12) || (MaxReplyBytes <? llen packet)
  else ErrResponse in
  let? flags := u16_at packet 2 in
  let? i := u16_at packet 0 in
  let? questions := u16_at packet 4 in
  guard? negb (i =? id q) || (Z.land flags 32768 =? 0) || negb (Z.land flags 30720 =? 0) || negb (Z.land flags 64 =? 0) ||
         (Z.land flags 256 =? 0) || negb (questions =? 1)
  else ErrResponse in
  let? answers := u16_at packet 6 in
  let? authorities := u16_at packet 8 in
  let? additionals := u16_at packet 10 in
  let total := answers + authorities + additionals in
  guard? MaxRecords <? total else ErrResponse in
  match nameEnd packet 12 (llen packet) ∅ with
  | Err Panic => Err Panic
  | Err OutOfFuel => Err OutOfFuel
  | Err ErrResponse => Err ErrResponse
  | Ok (questionEnd, _) =>
      guard? llen packet <? questionEnd + 4 else ErrResponse in
      match Start parser packet with
      | None => Err ErrResponse
      | Some (header, p) =>
          match ReadQuestion parser p with
          | (Parsed question, p) =>
              guard? negb (qnType question =? kind q) || negb (qnClass question =? ClassINET) ||
                     negb (EqualFold (NameString (qnName question)) (NameString (name q)))
              else ErrResponse in
              match ReadQuestion parser p with
              | (SectionDone, p) =>
                  if hTruncated header then Ok (mkDNSReply (hRCode header) true "")
                  else
                    check? validateFraming packet (Z.to_nat total) in
                    let? (first, p) := read_section section_fuel 0 p [] in
                    let? (second, p) := read_section section_fuel 1 p [] in
                    let? (third, p) := read_section section_fuel 2 p [] in
                    if hRCode header =? 0 then
                      match classify lower (NameString (name q)) (kind q) first second with
                      | Some k => Ok (mkDNSReply 0 false k)
                      | None => Err OutOfFuel
                      end
                    else Ok (mkDNSReply (hRCode header) false "")
              | _ => Err ErrResponse
              end
          | _ => Err ErrResponse
          end
      end
  end.

End Match.

(** ** What the code relies on *)

(** [left p i]: the records of section [i] the parser has still to give. *)
Class Parses {Name P : Type} (parser : Parser Name P) (left : P → nat → nat) := {
  start_bits packet h p flags :
    Start parser packet = Some (h, p) → u16_at packet 2 = Ok flags → hRCode h = Z.land flags 15 ∧ hTruncated h = Z.testbit flags 9;
  start_counts packet h p i n :
    bytes packet → Start parser packet = Some (h, p) → (i < 3)%nat → u16_at packet (6 + 2 * Z.of_nat i) = Ok n → Z.of_nat (left p i) <= n;
  question_left p r p' : ReadQuestion parser p = (r, p') → ∀ j, left p' j = left p j;
  done_left i p p' : ReadHeader parser i p = (SectionDone, p') → ∀ j, left p' j = left p j;
  body_left i p h p' k b p'' :
    ReadHeader parser i p = (Parsed h, p') → ReadBody parser k p' = (Some b, p'') →
    (left p'' i < left p i)%nat ∧ ∀ j, j ≠ i → left p'' j = left p j;
  skip_left i p h p' p'' :
    ReadHeader parser i p = (Parsed h, p') → Skip parser i p' = (true, p'') →
    (left p'' i < left p i)%nat ∧ ∀ j, j ≠ i → left p'' j = left p j;
}.

(** ** Replies that are accepted *)

(** The only failure is the documented one, and a result is as stated. *)
Definition yields {A} (r : result frame_err A) (R : A → Prop) : Prop :=
  match r with Ok v => R v | Err e => e = ErrResponse end.

Lemma yields_bind {A B} (r : result frame_err A) (k : A → result frame_err B) (R : A → Prop) (S : B → Prop) :
  yields r R → (∀ a, R a → r = Ok a → yields (k a) S) → yields (res_bind r k) S.
Proof. destruct r; simpl; naive_solver. Qed.

Lemma yields_guard {A} (b : bool) (k : result frame_err A) (R : A → Prop) :
  (b = false → yields k R) → yields (if b then Err ErrResponse else k) R.
Proof. destruct b; simpl; naive_solver. Qed.

Lemma yields_mono {A} (r : result frame_err A) (R R' : A → Prop) : yields r R → (∀ a, R a → R' a) → yields r R'.
Proof. destruct r; simpl; naive_solver. Qed.

Lemma decides_yields {A} (r : result frame_err A) (R : A → Prop) : decides r R → yields r R.
Proof. intros [H1 H2]. destruct r; simpl; naive_solver. Qed.

Lemma chase_finishes lower fuel kind answers current visited aliases :
  (fuel + aliases = S MaxAliases)%nat → (aliases <= MaxAliases)%nat → chase lower fuel kind answers current visited aliases ≠ Unfinished.
Proof.
  revert current visited aliases. induction fuel as [|fuel IH]; intros current visited aliases Hf Ha; cbn [chase]; [lia|].
  case_match; [done|]. destruct (for_each _ _ _) as [[target found]|]; [|done]. destruct found; [by destruct (negb _)|].
  case_match; [done|]. destruct (_ <? _)%nat eqn:E; [done|]. apply Nat.ltb_ge in E. apply IH; lia.
Qed.

Definition answer_kinds : list DNSAnswerKind := [DNSAnswerPresent; DNSAnswerNoData; DNSAnswerReferral; DNSAnswerUnclassified].

Lemma chase_kinds lower fuel kind answers current visited aliases k :
  chase lower fuel kind answers current visited aliases = Returned k → k ∈ answer_kinds.
Proof.
  revert current visited aliases. induction fuel as [|fuel IH]; intros current visited aliases; cbn [chase]; [done|].
  unfold answer_kinds in *. case_match; [intros [= <-]; set_solver|].
  destruct (for_each _ _ _) as [[target found]|]; [|intros [= <-]; set_solver].
  destruct found; [case_match; intros [= <-]; set_solver|]. case_match; [done|].
  case_match; [intros [= <-]; set_solver|]. apply IH.
Qed.

Lemma classify_kind lower qname kind answers authorities :
  ∃ k, classify lower qname kind answers authorities = Some k ∧ k ∈ answer_kinds.
Proof.
  unfold classify. destruct (chase _ _ _ _ _ _ _) as [k|current visited aliases|] eqn:E.
  - exists k. split; [done|]. by eapply chase_kinds.
  - unfold answer_kinds. case_match; [eexists; split; [done|set_solver]|].
    destruct (foldl _ _ _) as [[[soa ns] anySOA] anyNS]. eexists. split; [done|]. repeat case_match; set_solver.
  - by apply chase_finishes in E; unfold MaxAliases; [|lia..].
Qed.

(** A reply the evidence model takes: a code of four bits, and a kind exactly for a complete reply without error. *)
Definition reply_ok (r : DNSReply) : Prop :=
  0 <= RCode r <= 15 ∧ if Truncated r || negb (RCode r =? 0) then Answer r = "" else Answer r ∈ answer_kinds.

Section Sound.
Context {Name P : Type} (parser : Parser Name P) (left : P → nat → nat) `{!Parses parser left}.
Context (NameString : Name → string) (lower : string → string) (EqualFold : string → string → bool).

Lemma read_section_yields fuel section p resources :
  (left p section < fuel)%nat →
  yields (read_section parser NameString fuel section p resources) (λ '(_, p'), ∀ j, (j > section)%nat → left p' j = left p j).
Proof.
  revert p resources. induction fuel as [|fuel IH]; intros p resources Hf; cbn [read_section]; [lia|].
  destruct (ReadHeader parser section p) as [[h| |] p'] eqn:Eh; simpl; [|intros j _; by eapply done_left|done].
  apply yields_guard. intros _. unfold read_resource.
  assert (Hnext : ∀ p'' r, (left p'' section < left p section)%nat ∧ (∀ j, j ≠ section → left p'' j = left p j) →
    yields (read_section parser NameString fuel section p'' r) (λ '(_, p'), ∀ j, (j > section)%nat → left p' j = left p j)).
  { intros p'' r [Hlt Hsame]. eapply yields_mono; [apply IH; lia|]. intros [rs q] Hq j Hj. rewrite Hq, Hsame by lia. done. }
  destruct (typed (rhType h)).
  - destruct (ReadBody parser (rhType h) p') as [[b|] p''] eqn:Eb; [|done]. apply Hnext. by eapply body_left.
  - destruct (Skip parser section p') as [[|] p''] eqn:Es; [|done]. apply Hnext. by eapply skip_left.
Qed.

Lemma u16_yields packet i : bytes packet → 0 <= i → i + 2 <= llen packet → yields (u16_at packet i) (has_u16 packet i).
Proof. intros. by apply decides_yields, decides_u16. Qed.

(** What an accepted reply is. *)
Record matched (q : Query (Name := Name)) (peer : AddrPort) (packet : list Z) (r : DNSReply) : Prop := {
  m_peer : peer = endpoint q;
  m_size : 12 <= llen packet <= MaxReplyBytes;
  m_id : has_u16 packet 0 (id q);
  m_flags : ∃ flags, has_u16 packet 2 flags ∧ Z.land flags 32768 ≠ 0 ∧ Z.land flags 30720 = 0 ∧ RCode r = Z.land flags 15 ∧
    Truncated r = Z.testbit flags 9;
  m_question : has_u16 packet 4 1;
  m_framed : Truncated r = false → ∃ n, Z.of_nat n <= MaxRecords ∧ message_enc packet n;
  m_reply : reply_ok r;
}.

Lemma land_15 flags : 0 <= Z.land flags 15 <= 15.
Proof. change (Z.land flags 15) with (Z.land flags (Z.ones 4)). rewrite Z.land_ones by lia. pose proof (Z.mod_pos_bound flags (2 ^ 4)). lia. Qed.

Lemma match_yields q peer packet :
  bytes packet → yields (MatchResponse parser NameString lower EqualFold q peer packet) (matched q peer packet).
Proof.
  intros Hb. unfold MatchResponse. apply yields_guard. intros Hg. rewrite !orb_false_iff in Hg. destruct Hg as [[[_ Hpeer] Hmin] Hmax].
  apply Z.ltb_ge in Hmin, Hmax. apply negb_false_iff, bool_decide_eq_true in Hpeer.
  eapply yields_bind; [apply (u16_yields packet 2); (done || lia)|]. intros flags Hflags Eflags.
  eapply yields_bind; [apply (u16_yields packet 0); (done || lia)|]. intros i Hi _.
  eapply yields_bind; [apply (u16_yields packet 4); (done || lia)|]. intros questions Hq _.
  apply yields_guard. intros Hg. rewrite !orb_false_iff, !negb_false_iff in Hg. destruct Hg as [[[[[Hid Hresp] Hop] _] _] Hone].
  apply Z.eqb_eq in Hid, Hop, Hone. apply Z.eqb_neq in Hresp. subst i questions.
  eapply yields_bind; [apply (u16_yields packet 6); (done || lia)|]. intros an Han Ean.
  eapply yields_bind; [apply (u16_yields packet 8); (done || lia)|]. intros au Hau Eau.
  eapply yields_bind; [apply (u16_yields packet 10); (done || lia)|]. intros ad Had Ead.
  apply yields_guard. intros Htotal%Z.ltb_ge.
  apply has_u16_range in Han, Hau, Had; [|done..].
  pose proof (decides_yields _ _ (nameEnd_decides packet 12 (llen packet) ∅ Hb ltac:(lia) ltac:(lia))) as Hname.
  destruct (nameEnd packet 12 (llen packet) ∅) as [[questionEnd names]|e]; simpl in Hname; [|by subst e].
  apply yields_guard. intros _. destruct (Start parser packet) as [[h p]|] eqn:Es; [|done].
  destruct (start_bits _ _ _ _ Es Eflags) as [Hrc Htc].
  destruct (ReadQuestion parser p) as [[question| |] p1] eqn:Eq1; [|done..]. apply yields_guard. intros _.
  destruct (ReadQuestion parser p1) as [[| |] p2] eqn:Eq2; [done| |done].
  assert (Hleft : ∀ j, left p2 j = left p j) by (intros j; by rewrite (question_left _ _ _ Eq2), (question_left _ _ _ Eq1)).
  assert (Hdone : ∀ r, RCode r = hRCode h → Truncated r = hTruncated h → reply_ok r →
    (Truncated r = false → ∃ n, Z.of_nat n <= MaxRecords ∧ message_enc packet n) → matched q peer packet r).
  { intros r H1 H2 Hr Hf. constructor; try done. exists flags. rewrite H1, H2. done. }
  destruct (hTruncated h) eqn:Et.
  { apply Hdone; [done|done| |done]. split; [simpl; rewrite Hrc; apply land_15|done]. }
  eapply yields_bind; [apply decides_yields, framing_decides, Hb|]. intros u Hmsg _.
  assert (Hfuel : ∀ k n, (k < 3)%nat → u16_at packet (6 + 2 * Z.of_nat k) = Ok n → n <= MaxRecords → (left p k < section_fuel)%nat).
  { intros k n Hk En Hn. pose proof (start_counts _ _ _ _ _ Hb Es Hk En). unfold section_fuel, MaxRecords in *. lia. }
  eapply yields_bind; [apply read_section_yields; rewrite Hleft; eapply (Hfuel 0%nat); [lia|exact Ean|lia]|]. intros [first p3] H3 _.
  eapply yields_bind; [apply read_section_yields; rewrite H3, Hleft by lia; eapply (Hfuel 1%nat); [lia|exact Eau|lia]|]. intros [second p4] H4 _.
  eapply yields_bind; [apply read_section_yields; rewrite H4, H3, Hleft by lia; eapply (Hfuel 2%nat); [lia|exact Ead|lia]|]. intros [third p5] _ _.
  assert (Hf : ∃ n, Z.of_nat n <= MaxRecords ∧ message_enc packet n) by (exists (Z.to_nat (an + au + ad)); split; [lia|done]).
  destruct (Z.eqb_spec (hRCode h) 0) as [E0|E0].
  - destruct (classify_kind lower (NameString (name q)) (kind q) first second) as (k & -> & Hk). by apply Hdone.
  - apply Hdone; try done. split; simpl; [rewrite Hrc; apply land_15|]. by rewrite (proj2 (Z.eqb_neq _ _) E0).
Qed.

(** Which datagrams count as the answer.  On any bytes the matching of a reply ends, reads only inside
    the datagram and fails in no other way than as unmatched; an accepted reply came from the selected
    endpoint, carries the identifier of the query, is a response to one question, has a four-bit code, and,
    unless truncated, is completely framed with at most 32 records; and it has a classification exactly
    when it is complete and without error. *)
Theorem match_response_sound q peer packet :
  bytes packet →
  (∀ e, MatchResponse parser NameString lower EqualFold q peer packet = Err e → e = ErrResponse) ∧
  (∀ r, MatchResponse parser NameString lower EqualFold q peer packet = Ok r → matched q peer packet r).
Proof.
  intros Hb. pose proof (match_yields q peer packet Hb) as Hy. split; intros x Hx; by rewrite Hx in Hy.
Qed.

End Sound.

(** ** A parser for one question and its answers *)

(** It trusts the question and gives each announced answer as an address of the root. *)
Definition toy_parser : Parser string (bool * nat) := {|
  Start packet := match u16_at packet 2, u16_at packet 6 with
                  | Ok flags, Ok n => Some (mkHeader (Z.land flags 15) (Z.testbit flags 9), (true, Z.to_nat n))
                  | _, _ => None
                  end;
  ReadQuestion p := if p.1 then (Parsed (mkQuestion "a." TypeA ClassINET), (false, p.2)) else (SectionDone, p);
  ReadHeader i p := match i, p.2 with O, S _ => (Parsed (mkResourceHeader "a." TypeA ClassINET), p) | _, _ => (SectionDone, p) end;
  ReadBody _ p := (Some None, (p.1, pred p.2));
  Skip _ p := (false, p);
|}.
Definition toy_left (p : bool * nat) (i : nat) : nat := match i with O => p.2 | _ => O end.

#[export] Instance toy_parses : Parses toy_parser toy_left.
Proof.
  split; unfold toy_parser, toy_left; simpl.
  - intros packet h p flags. destruct (u16_at packet 2); [|done]. destruct (u16_at packet 6); [|done]. intros [= <- <-] [= <-]. done.
  - intros packet h p i n Hb. destruct (u16_at packet 2); [|done]. destruct (u16_at packet 6) as [m|] eqn:E; [|done].
    intros [= <- <-] Hi En. assert (Hn : 0 <= n).
    { unfold u16_at in En. apply res_bind_ok in En as (hi & Hhi & En). apply res_bind_ok in En as (lo & Hlo & [= <-]).
      apply byte_at_ok in Hhi, Hlo. apply has_byte_range in Hhi, Hlo; [|done..]. apply Z.lor_nonneg. rewrite Z.shiftl_nonneg. lia. }
    destruct i as [|i]; simpl; [|done]. assert (m = n) as -> by (change (u16_at packet 6 = Ok n) in En; congruence). lia.
  - intros [b n] r p'. destruct b; intros [= <- <-] [|]; done.
  - intros [|i] [b [|n]] p'; simpl; by intros [= <-].
  - intros [|i] [b [|n]] h p' k b' p''; simpl; try done. intros [= <- <-] [= <- <-]. simpl. split; [lia|]. by intros [|].
  - done.
Qed.

Definition toy_query : Query (Name := string) := mkQuery (mkAddrPort (V4 3232235777) 53) "a." TypeA 1 [0].

Lemma match_response_sound_witness :
  MatchResponse toy_parser (λ n, n) ToLower String.eqb toy_query (mkAddrPort (V4 3232235777) 53) reply_packet =
    Ok (mkDNSReply 0 false DNSAnswerPresent) ∧
  matched toy_query (mkAddrPort (V4 3232235777) 53) reply_packet (mkDNSReply 0 false DNSAnswerPresent).
Proof.
  assert (H : MatchResponse toy_parser (λ n, n) ToLower String.eqb toy_query (mkAddrPort (V4 3232235777) 53) reply_packet =
    Ok (mkDNSReply 0 false DNSAnswerPresent)) by (vm_compute; reflexivity).
  split; [exact H|].
  apply (match_response_sound toy_parser toy_left (λ n, n) ToLower String.eqb toy_query _ reply_packet reply_bytes). exact H.
Defined.

End Reply.
