(* ===== verification/ResolverPlan.v ===== *)
(** * Review plans of the resolver check

    [resolverplan/plan.go]: the immutable plan of one explicitly reviewed DNS exchange.
    The theorems say which plans exist, how long one is current, and what comparing two
    plans for the same selection means. *)

From S2P Require Import Prelude Regex GoTime NetAddr CheckBinding Quality ResolverQuality ResolverWire.

Module ResolverPlan.
Import Quality.
Import Resolver Wire.

Definition Profile : string := "resolver-udp-v1".
Definition ReviewLifetime : Duration := 30 * Second.

Inductive plan_err : Type := ErrConfiguration | ErrBinding | ErrClock.

Definition DestinationScope := string.
Definition EnrolledPrefix : DestinationScope := "enrolled-prefix".
Definition ExactEndpoint : DestinationScope := "exact-endpoint".

Record Binding := mkBinding {
  bObserver : Observer;
  Prefixes : list string;
  Source : Addr;
}.

Record Configuration := mkConfiguration {
  cSelection : ResolverSelection;
  Endpoint : AddrPort;
  cName : string;
  Scope : DestinationScope;
}.

Record Budget := mkBudget {
  MaxSendCalls : Z;
  MaxRequestBytes : Z;
  MaxReplyBytes : Z;
  MaxReceivedDatagrams : Z;
  MaxReceiveCalls : Z;
  ExchangeTimeout : Duration;
  TotalTimeout : Duration;
  MaxConcurrentRuns : Z;
  MinRunInterval : Duration;
}.

Record Disclosure := mkDisclosure {
  dProfile : string;
  dBinding : Binding;
  dConfiguration : Configuration;
  OutsideEnrolledPrefixes : bool;
  MayForwardUpstream : bool;
  dBudget : Budget;
  CreatedAt : Time;
  ExpiresAt : Time;
}.

(** [Plan] holds its review privately; [Disclosure()] copies it out. *)
Record Plan := mkPlan { review : Disclosure }.

#[export] Instance Binding_eq_dec : EqDecision Binding.
Proof. solve_decision. Defined.
#[export] Instance Configuration_eq_dec : EqDecision Configuration.
Proof. solve_decision. Defined.
#[export] Instance Budget_eq_dec : EqDecision Budget.
Proof. solve_decision. Defined.
#[export] Instance Disclosure_eq_dec : EqDecision Disclosure.
Proof. solve_decision. Defined.
#[export] Instance Plan_eq_dec : EqDecision Plan.
Proof. solve_decision. Defined.

(** [New] and [ValidateConfiguration] depend on the DNS library through [NewQuery]. *)
Section Plans.
Context {Name : Type} (NewName : string → option Name) (Pack : Z → Name → Z → option (list Z)).

Definition question (config : Configuration) : option (Query (Name:=Name)) :=
  NewQuery NewName Pack (Endpoint config) (cName config) (QueryType (cSelection config)) 0.

Definition ValidateConfiguration (config : Configuration) : result plan_err unit :=
  guard? negb (is_ok (ValidateResolverSelection (cSelection config))) ||
         (Transport (cSelection config) != DNSUDP) ||
         ((Scope config != EnrolledPrefix) && (Scope config != ExactEndpoint))
  else ErrConfiguration in
  match question config with
  | None => Err ErrConfiguration
  | Some _ =>
      let target := ap_addr (Endpoint config) in
      guard? negb (CheckBinding.Binding.EligibleHost target) ||
             (Is4 target && (SelectionFamily (cSelection config) != FamilyIPv4)) ||
             (Is6 target && (SelectionFamily (cSelection config) != FamilyIPv6))
      else ErrConfiguration in
      Ok tt
  end.

(** [len(query.Bytes())], of the zero query when there is none. *)
Definition request_bytes (config : Configuration) : Z :=
  match question config with Some q => llen (packet q) | None => 0 end.

Definition planBudget (bytes : Z) : Budget :=
  mkBudget 1 bytes Wire.MaxReplyBytes 16 512 (2 * Second) (5 * Second) 1 Minute.

Definition New (binding : Binding) (config : Configuration) (now : Time) : result plan_err Plan :=
  let now := UTC (Round0 now) in
  guard? negb (validTime now) || negb (validTime (Add now ReviewLifetime)) else ErrClock in
  check? ValidateConfiguration config in
  let snapshot := mkResolverSnapshot (bObserver binding) now now Second [] [] in
  guard? negb (is_ok (ValidateResolverSnapshot snapshot)) else ErrBinding in
  let target := ap_addr (Endpoint config) in
  match CheckBinding.Binding.Validate (Source binding) target (Prefixes binding) with
  | Err _ => Err ErrBinding
  | Ok (prefixes, targetMember) =>
      guard? (Scope config == EnrolledPrefix) && negb targetMember else ErrBinding in
      let budget := planBudget (request_bytes config) in
      let binding := mkBinding (bObserver binding) prefixes (Source binding) in
      let config := mkConfiguration (cSelection config) (Endpoint config) (ToLower (cName config)) (Scope config) in
      Ok (mkPlan (mkDisclosure Profile binding config (negb targetMember) true budget now (Add now ReviewLifetime)))
  end.

End Plans.

Definition Current (p : Plan) (now : Time) : bool :=
  (dProfile (review p) == Profile) && validTime now && negb (Before now (CreatedAt (review p))) &&
  Before now (ExpiresAt (review p)).

Definition SameSelection (p other : Plan) : bool :=
  if (dProfile (review p) != Profile) || (dProfile (review other) != Profile) then false
  else
    let a := review p in
    let b := review other in
    (dProfile a == dProfile b) && (dConfiguration a == dConfiguration b) &&
    (bObserver (dBinding a) == bObserver (dBinding b)) && (Source (dBinding a) == Source (dBinding b)) &&
    (Prefixes (dBinding a) == Prefixes (dBinding b)) && (dBudget a == dBudget b) &&
    Bool.eqb (OutsideEnrolledPrefixes a) (OutsideEnrolledPrefixes b) &&
    Bool.eqb (MayForwardUpstream a) (MayForwardUpstream b).

(** ** Which plans exist *)

Section Theorems.
Context {Name : Type} (NewName : string → option Name) (Pack : Z → Name → Z → option (list Z)).

(** A supported question to a numeric endpoint of the selected family. *)
Record configuration_ok (c : Configuration) : Prop := mkConfigurationOk {
  co_selection : validResolverSelection (cSelection c) = true;
  co_transport : Transport (cSelection c) = DNSUDP;
  co_scope : Scope c = EnrolledPrefix ∨ Scope c = ExactEndpoint;
  co_question : ∃ q, question NewName Pack c = Some q;
  co_eligible : CheckBinding.Binding.EligibleHost (ap_addr (Endpoint c)) = true;
  co_family : SelectionFamily (cSelection c) = if Is4 (ap_addr (Endpoint c)) then FamilyIPv4 else FamilyIPv6;
}.

Lemma eligible_family a : CheckBinding.Binding.EligibleHost a = true → Is6 a = negb (Is4 a).
Proof. by destruct a. Qed.

Lemma ValidateConfiguration_iff c : ValidateConfiguration NewName Pack c = Ok tt ↔ configuration_ok c.
Proof.
  unfold ValidateConfiguration, ValidateResolverSelection. rewrite guard_ok. split.
  - intros [Hg H]. destruct (question NewName Pack c) as [q|] eqn:Eq; [|done].
    apply guard_ok in H as [H _]. rewrite !orb_false_iff in Hg. destruct Hg as [[H1 H2] H3].
    rewrite !orb_false_iff in H. destruct H as [[H4 H5] H6].
    apply negb_false_iff in H4. rewrite (eligible_family _ H4) in H6. constructor; try done; [..|by eexists|].
    + destruct (validResolverSelection (cSelection c)); done.
    + by go_bool.
    + apply andb_false_iff in H3 as [H3|H3]; go_bool; auto.
    + destruct (Is4 _); cbn [negb andb] in *; by go_bool.
  - intros [H1 H2 H3 [q Hq] H4 H5]. rewrite Hq, guard_ok, H1, H2, H4, H5, (eligible_family _ H4).
    rewrite (bool_decide_eq_true_2 (DNSUDP = DNSUDP)) by done. split_and!; [| |done].
    + destruct H3 as [-> | ->]; done.
    + by destruct (Is4 _).
Qed.

Lemma empty_snapshot_ok o now :
  validTime now = true → validTime (Add now ReviewLifetime) = true → canonical now →
  ValidateResolverSnapshot (mkResolverSnapshot o now now Second [] []) = Ok tt ↔ observer_ok o.
Proof.
  intros Hv Hl Hc. unfold ValidateResolverSnapshot. cbn [for_each Selections Measurements res_bind].
  cbn [SnapshotObserver AsOf WindowStart Freshness]. rewrite guard_ok.
  assert (Hs : resolverTime (Add now Second) = true).
  { unfold resolverTime. rewrite validTime_eq in *. rewrite wall_Add in *. unfold in_int64 in *.
    unfold ReviewLifetime, Second in *. go_bool. lia. }
  rewrite Hs. unfold resolverTime. rewrite Hv, After_wall, Z.ltb_irrefl, Sub_wall, Z.sub_diag by auto.
  unfold observer_ok. destruct (Quality.validObserver o); cbn [negb orb]; [|naive_solver].
  rewrite !orb_false_r. vm_compute (_ || _). rewrite Z.ltb_ge. naive_solver.
Qed.

(** The plan built from an accepted binding. *)
Definition built (binding : Binding) (config : Configuration) (now : Time) (prefixes : list string) (member : bool) : Plan :=
  mkPlan (mkDisclosure Profile (mkBinding (bObserver binding) prefixes (Source binding))
    (mkConfiguration (cSelection config) (Endpoint config) (ToLower (cName config)) (Scope config))
    (negb member) true (planBudget (request_bytes NewName Pack config)) (UTC now) (Add (UTC now) ReviewLifetime)).

Lemma new_iff binding config now plan :
  New NewName Pack binding config now = Ok plan ↔
  ∃ prefixes member,
    in_int64 (wall now) = true ∧ in_int64 (wall now + ReviewLifetime) = true ∧
    configuration_ok config ∧ observer_ok (bObserver binding) ∧
    CheckBinding.Binding.Validate (Source binding) (ap_addr (Endpoint config)) (Prefixes binding) = Ok (prefixes, member) ∧
    (Scope config = EnrolledPrefix → member = true) ∧
    plan = built binding config now prefixes member.
Proof.
  unfold New. change (UTC (Round0 now)) with (UTC now).
  rewrite guard_ok, orb_false_iff, !negb_false_iff, res_bind_ok, !validTime_eq, wall_Add. split.
  - intros ([Hv Hl] & [] & Hc%ValidateConfiguration_iff & H). apply guard_ok in H as [Ho H].
    apply negb_false_iff, is_ok_true in Ho as [[] Ho].
    apply empty_snapshot_ok in Ho; [|by rewrite validTime_eq, ?wall_Add..|done].
    destruct (CheckBinding.Binding.Validate _ _ _) as [[prefixes member]|] eqn:Ev; [|done].
    apply guard_ok in H as [Hs [= <-]]. exists prefixes, member. split_and!; try done.
    intros Hsc. rewrite bool_decide_eq_true_2 in Hs by done. by destruct member.
  - intros (prefixes & member & Hv & Hl & Hc & Ho & Hb & Hs & ->). split; [done|]. exists tt.
    split; [by apply ValidateConfiguration_iff|]. rewrite guard_ok, negb_false_iff, is_ok_true. split.
    { exists tt. apply empty_snapshot_ok; [by rewrite validTime_eq, ?wall_Add..|done|done]. }
    rewrite Hb, guard_ok. split; [|done].
    case_bool_decide as Es; [|done]. by rewrite (Hs Es).
Qed.

(** Which resolver review plans exist.  [New] returns a plan exactly when the time and
    its expiry are representable, the configuration is a supported UDP question to an
    eligible numeric endpoint of the selected family, the observer and the binding are
    valid, and the endpoint is in an enrolled prefix whenever the scope policy asks for
    it.  The plan carries the sorted prefixes, the lower-cased name, the fixed budget and
    an expiry thirty seconds after its creation. *)
Theorem resolver_plan_spec binding config now plan :
  New NewName Pack binding config now = Ok plan ↔
  ∃ prefixes member,
    in_int64 (wall now) = true ∧ in_int64 (wall now + ReviewLifetime) = true ∧
    configuration_ok config ∧ observer_ok (bObserver binding) ∧
    CheckBinding.Binding.Validate (Source binding) (ap_addr (Endpoint config)) (Prefixes binding) = Ok (prefixes, member) ∧
    (Scope config = EnrolledPrefix → member = true) ∧
    plan = built binding config now prefixes member.
Proof. apply new_iff. Qed.

(** ** How long a plan is current *)

Lemma built_current binding config t prefixes member now :
  Current (built binding config t prefixes member) now = true ↔
  in_int64 (wall now) = true ∧ wall t <= wall now < wall t + ReviewLifetime.
Proof.
  unfold Current, built. cbn [review dProfile CreatedAt ExpiresAt].
  rewrite bool_decide_eq_true_2, !Before_wall, validTime_eq by (done || right; done).
  rewrite wall_Add, !andb_true_iff, negb_true_iff, Z.ltb_ge, Z.ltb_lt. naive_solver lia.
Qed.

(** ** The same selection *)

Lemma request_bytes_same c c' :
  configuration_ok c → configuration_ok c' →
  cSelection c = cSelection c' → Endpoint c = Endpoint c' → ToLower (cName c) = ToLower (cName c') →
  request_bytes NewName Pack c = request_bytes NewName Pack c'.
Proof.
  intros [_ _ _ [q Hq] _ _] [_ _ _ [q' Hq'] _ _] Hs He Hn. unfold request_bytes. rewrite Hq, Hq'.
  unfold question, NewQuery in *. rewrite <- Hs, <- He, <- Hn in Hq'.
  destruct (_ || negb (validHostname (cName c))); [done|].
  destruct (_ || negb (validHostname (cName c'))); [done|].
  destruct (if bool_decide (QueryType (cSelection c) = DNSQueryA) then _ else _) as [typ|]; [|done].
  destruct (NewName _) as [nm|]; [|done]. destruct (Pack 0 nm typ) as [p|]; [|done].
  destruct (_ <? _); [done|]. congruence.
Qed.

(** What re-review compares.  For two plans [New] built, at any two times, the
    comparison accepts exactly when selection, endpoint, scope policy, observer and source
    are equal, the names are equal up to case, and the enrolled prefixes are the same up
    to order: the remaining pinned values (membership, budget, forwarding caveat) follow,
    and no change of a reviewed value goes unnoticed. *)
Theorem resolver_same_selection b c t p b' c' t' p' :
  New NewName Pack b c t = Ok p → New NewName Pack b' c' t' = Ok p' →
  SameSelection p p' = true ↔
  cSelection c = cSelection c' ∧ Endpoint c = Endpoint c' ∧ ToLower (cName c) = ToLower (cName c') ∧
  Scope c = Scope c' ∧ bObserver b = bObserver b' ∧ Source b = Source b' ∧ Prefixes b ≡ₚ Prefixes b'.
Proof.
  intros (ps & member & _ & _ & Hc & _ & Hv & _ & ->)%new_iff (ps' & member' & _ & _ & Hc' & _ & Hv' & _ & ->)%new_iff.
  assert (ps = merge_sort String.le (Prefixes b)) as Eps by (by apply CheckBinding.Binding.validate_binding in Hv; naive_solver).
  assert (ps' = merge_sort String.le (Prefixes b')) as Eps' by (by apply CheckBinding.Binding.validate_binding in Hv'; naive_solver).
  unfold SameSelection, built. cbn [review dProfile dConfiguration dBinding bObserver Source Prefixes dBudget
    OutsideEnrolledPrefixes MayForwardUpstream].
  rewrite (bool_decide_eq_true_2 (Profile = Profile)) by done. cbn [negb orb andb].
  rewrite !andb_true_iff, !bool_decide_eq_true, Bool.eqb_true_iff. rewrite Eps, Eps', sort_strings_perm. split.
  - intros ((((((Hcfg & Ho) & Hs) & Hp) & _) & _) & _). injection Hcfg as ? ? ? ?. by split_and!.
  - intros (H1 & H2 & H3 & H4 & H5 & H6 & H7). split_and!; try done; [congruence|..].
    + by rewrite (request_bytes_same c c').
    + rewrite <- H2, <- H6 in Hv'. by rewrite (CheckBinding.Binding.validate_member _ _ _ _ _ _ _ _ Hv Hv' H7).
Qed.

End Theorems.

(** ** Examples *)

Definition home_binding (prefixes : list string) : Binding := mkBinding Quality.sensor prefixes (V4 3232235786).
Definition home_question (n : string) : Configuration :=
  mkConfiguration Resolver.selection (mkAddrPort (V4 3232235777) 53) n EnrolledPrefix.
Definition home_prefixes : list string := ["192.168.1.0/24"; "192.168.0.0/16"].

Definition home_plan (prefixes : list string) (n : string) (now : Time) : result plan_err Plan :=
  New checked_name pack_question (home_binding prefixes) (home_question n) now.
Definition plan_of (r : result plan_err Plan) : Plan :=
  match r with
  | Ok p => p
  | Err _ => mkPlan (mkDisclosure "" (home_binding []) (home_question "") false false (planBudget 0) zeroTime zeroTime)
  end.

Lemma home_plan_new : home_plan home_prefixes "host.example." (Quality.clock 100) =
  Ok (plan_of (home_plan home_prefixes "host.example." (Quality.clock 100))).
Proof. vm_compute. reflexivity. Qed.

Lemma resolver_same_selection_witness :
  SameSelection (plan_of (home_plan home_prefixes "host.example." (Quality.clock 100)))
    (plan_of (home_plan (reverse home_prefixes) "Host.Example." (Quality.clock 200))) = true.
Proof.
  apply (resolver_same_selection checked_name pack_question
    (home_binding home_prefixes) (home_question "host.example.") (Quality.clock 100) _
    (home_binding (reverse home_prefixes)) (home_question "Host.Example.") (Quality.clock 200)).
  - vm_compute. reflexivity.
  - vm_compute. reflexivity.
  - split_and!; try (vm_compute; reflexivity). symmetry. apply reverse_Permutation.
Defined.

Example outside_prefix :
  New checked_name pack_question (home_binding ["10.0.0.0/8"; "192.168.1.8/29"]) (home_question "host.example.") (Quality.clock 100) =
  Err ErrBinding.
Proof. vm_compute. reflexivity. Qed.

End ResolverPlan.
