(* ===== verification/HTTPSQuality.v ===== *)
(** * HTTPS evidence

    [networkquality/https.go] and [networkquality/https_assess.go]: normalized evidence
    of one connection and at most one request to an explicitly selected endpoint, its
    validator and its assessor. *)

From S2P Require Import Prelude Regex GoTime Latest Quality ResolverQuality.

Module HTTPS.
Import Quality.
Import Resolver (resolverTime, any_gap).

Record HTTPSSelection := mkHTTPSSelection {
  SelectionID : string;
  EndpointID : string;
  RequestID : string;
  SelectionFamily : AddressFamily;
  SelectionMethod : string;
  ExpectedStatus : Z;
}.

Definition HTTPSStage := string.
Definition HTTPSConnect : HTTPSStage := "connect".
Definition HTTPSTLS : HTTPSStage := "tls".
Definition HTTPSRequest : HTTPSStage := "request".

Definition HTTPSExchange := string.
Definition HTTPSResponseReceived : HTTPSExchange := "response-received".
Definition HTTPSConnectError : HTTPSExchange := "connect-error".
Definition HTTPSTransportError : HTTPSExchange := "transport-error".
Definition HTTPSTLSError : HTTPSExchange := "tls-error".
Definition HTTPSProtocolError : HTTPSExchange := "protocol-error".
Definition HTTPSTimeout : HTTPSExchange := "timeout".
Definition HTTPSIncomplete : HTTPSExchange := "incomplete".
Definition HTTPSNotMeasured : HTTPSExchange := "not-measured".

Definition HTTPSRequestState := string.
Definition HTTPSRequestNotSent : HTTPSRequestState := "not-sent".
Definition HTTPSRequestAccepted : HTTPSRequestState := "accepted".
Definition HTTPSRequestUncertain : HTTPSRequestState := "uncertain".

Record HTTPSMeasurement := mkHTTPSMeasurement {
  ID : string;
  Selection : HTTPSSelection;
  MeasuredBy : Observer;
  StartedAt : Time;
  CompletedAt : Time;
  Stage : HTTPSStage;
  Exchange : HTTPSExchange;
  Request : HTTPSRequestState;
  Gap : GapReason;
  StatusCode : Z;
  ResponseTime : option Duration;
}.

Record HTTPSSnapshot := mkHTTPSSnapshot {
  SnapshotObserver : Observer;
  AsOf : Time;
  WindowStart : Time;
  Freshness : Duration;
  Selections : list HTTPSSelection;
  Measurements : list HTTPSMeasurement;
}.

#[export] Instance HTTPSSelection_eq_dec : EqDecision HTTPSSelection.
Proof. solve_decision. Defined.
#[export] Instance HTTPSMeasurement_eq_dec : EqDecision HTTPSMeasurement.
Proof. solve_decision. Defined.

Definition ValidateHTTPSSelection (s : HTTPSSelection) : result string unit :=
  guard? negb (validToken (SelectionID s)) || negb (validToken (EndpointID s)) || negb (validToken (RequestID s)) ||
         ((SelectionFamily s != FamilyIPv4) && (SelectionFamily s != FamilyIPv6)) ||
         ((SelectionMethod s != "GET") && (SelectionMethod s != "HEAD")) ||
         (ExpectedStatus s <? 200) || (599 <? ExpectedStatus s)
  else "HTTPS selection is invalid" in Ok tt.

Definition inconsistent : string := "HTTPS exchange evidence is inconsistent".

(** The stage each failed exchange may be reported from. *)
Definition failure_stage (m : HTTPSMeasurement) : bool :=
  if Exchange m == HTTPSConnectError then Stage m == HTTPSConnect
  else if Exchange m == HTTPSTLSError then Stage m == HTTPSTLS
  else if Exchange m == HTTPSTransportError then Stage m != HTTPSConnect
  else if Exchange m == HTTPSProtocolError then (Stage m == HTTPSRequest) && (Request m == HTTPSRequestAccepted)
  else if Exchange m == HTTPSTimeout then After (CompletedAt m) (StartedAt m)
  else Exchange m == HTTPSIncomplete.

Definition validateHTTPSMeasurement (m : HTTPSMeasurement) : result string unit :=
  guard? (Request m != HTTPSRequestNotSent) && (Request m != HTTPSRequestAccepted) &&
         (Request m != HTTPSRequestUncertain)
  else inconsistent in
  if Exchange m == HTTPSNotMeasured then
    guard? (Stage m != "") || (Request m != HTTPSRequestNotSent) || negb (StatusCode m =? 0) ||
           is_some (ResponseTime m)
    else inconsistent in
    if any_gap (Gap m) then Ok tt else Err inconsistent
  else
    guard? (Gap m != GapNone) || (MaxCheckTime <? Sub (CompletedAt m) (StartedAt m)) else inconsistent in
    guard? (if (Stage m == HTTPSConnect) || (Stage m == HTTPSTLS) then Request m != HTTPSRequestNotSent
            else Stage m != HTTPSRequest)
    else inconsistent in
    if Exchange m == HTTPSResponseReceived then
      guard? (Stage m != HTTPSRequest) || (Request m != HTTPSRequestAccepted) || (StatusCode m <? 200) ||
             (599 <? StatusCode m)
      else inconsistent in
      match ResponseTime m with
      | Some l => guard? (l <? 0) || (Sub (CompletedAt m) (StartedAt m) <? l) else inconsistent in Ok tt
      | None => Ok tt
      end
    else
      guard? negb (StatusCode m =? 0) || is_some (ResponseTime m) else inconsistent in
      guard? negb (failure_stage m) else inconsistent in
      Ok tt.

Definition selection_step (acc : gmap string HTTPSSelection) (s : HTTPSSelection)
  : result string (gmap string HTTPSSelection) :=
  guard? negb (is_ok (ValidateHTTPSSelection s)) else "HTTPS selection is invalid" in
  guard? is_some (acc !! SelectionID s) else "duplicate HTTPS selection" in
  Ok (<[SelectionID s := s]> acc).

Definition measurement_step (s : HTTPSSnapshot) (selections : gmap string HTTPSSelection)
    (st : list string * list (string * Time)) (m : HTTPSMeasurement)
  : result string (list string * list (string * Time)) :=
  let '(seen, ends) := st in
  let identity := "HTTPS evidence identity or context is invalid" in
  match selections !! SelectionID (Selection m) with
  | None => Err identity
  | Some selection =>
      guard? (selection != Selection m) || (MeasuredBy m != SnapshotObserver s) || negb (validToken (ID m)) ||
             bool_decide (ID m ∈ seen)
      else identity in
      let seen := ID m :: seen in
      guard? negb (resolverTime (StartedAt m)) || negb (resolverTime (CompletedAt m)) ||
             Before (StartedAt m) (WindowStart s) || Before (CompletedAt m) (StartedAt m) ||
             After (CompletedAt m) (AsOf s)
      else "HTTPS evidence timestamps are invalid" in
      let end_ := (SelectionID selection, UTC (Round0 (CompletedAt m))) in
      guard? bool_decide (end_ ∈ ends) else "HTTPS evidence has ambiguous simultaneous results" in
      check? validateHTTPSMeasurement m in
      Ok (seen, end_ :: ends)
  end.

Definition ValidateHTTPSSnapshot (s : HTTPSSnapshot) : result string unit :=
  guard? negb (validObserver (SnapshotObserver s)) || (2147483647 <? InterfaceIndex (SnapshotObserver s)) ||
         negb (resolverTime (AsOf s)) || negb (resolverTime (WindowStart s)) ||
         After (WindowStart s) (AsOf s) || (MaxWindow <? Sub (AsOf s) (WindowStart s)) ||
         (Freshness s <? Second) || (MaxFreshness <? Freshness s) || negb (resolverTime (Add (AsOf s) (Freshness s))) ||
         (MaxTargets <? llen (Selections s)) || (MaxMeasurements <? llen (Measurements s))
  else "HTTPS assessment context or bounds are invalid" in
  let? selections := for_each selection_step (Selections s) ∅ in
  check? for_each (measurement_step s selections) (Measurements s) ([], []) in
  Ok tt.

(** ** Assessment *)

Definition HTTPSResult := string.
Definition HTTPSUnknown : HTTPSResult := "unknown".
Definition HTTPSUnmeasured : HTTPSResult := "not-measured".
Definition HTTPSUnfinished : HTTPSResult := "incomplete".
Definition HTTPSConnectionFailure : HTTPSResult := "connection-failure".
Definition HTTPSTransportFailure : HTTPSResult := "transport-failure".
Definition HTTPSTLSFailure : HTTPSResult := "tls-failure".
Definition HTTPSProtocolFailure : HTTPSResult := "protocol-failure".
Definition HTTPSTimedOut : HTTPSResult := "timeout".
Definition HTTPSStatusResponse : HTTPSResult := "status-response".
Definition HTTPSRedirectResponse : HTTPSResult := "redirect-response".

Record HTTPSAssessment := mkHTTPSAssessment {
  CheckSelection : HTTPSSelection;
  CheckState : State;
  CheckConfidence : Confidence;
  CheckResult : HTTPSResult;
  Evidence : option HTTPSMeasurement;
  FreshUntil : Time;
  ExpectationMatched : option bool;
  CheckResponseTime : option Duration;
  Summary : string;
  NextStep : string;
}.

Record HTTPSReport := mkHTTPSReport {
  ReportObserver : Observer;
  ReportAsOf : Time;
  ReportWindowStart : Time;
  Checks : list HTTPSAssessment;
  Limitations : list string;
}.

Definition httpsResult (m : HTTPSMeasurement) : HTTPSResult :=
  if Exchange m == HTTPSNotMeasured then HTTPSUnmeasured
  else if Exchange m == HTTPSIncomplete then HTTPSUnfinished
  else if Exchange m == HTTPSConnectError then HTTPSConnectionFailure
  else if Exchange m == HTTPSTransportError then HTTPSTransportFailure
  else if Exchange m == HTTPSTLSError then HTTPSTLSFailure
  else if Exchange m == HTTPSProtocolError then HTTPSProtocolFailure
  else if Exchange m == HTTPSTimeout then HTTPSTimedOut
  else if bool_decide (StatusCode m ∈ [301; 302; 303; 307; 308]) then HTTPSRedirectResponse
  else HTTPSStatusResponse.

Definition httpsResultCopy (r : HTTPSResult) (stage : HTTPSStage) : string * string :=
  if r == HTTPSConnectionFailure then
    ("The selected endpoint connection failed before an HTTP request.",
     "Review the selected address and local-path evidence. This does not prove that the internet or the endpoint is generally unavailable.")
  else if r == HTTPSTransportFailure then
    ("The selected exchange encountered a transport error after connecting.",
     "Inspect the recorded stage and HTTP request state. A connection reset is distinct from a TLS verification failure or an HTTP error response; uncertain work must not be retried automatically.")
  else if r == HTTPSTLSFailure then
    ("The selected endpoint's TLS exchange failed before an HTTP request.",
     "Review the TLS identity, local clock and protocol compatibility. Do not bypass certificate verification or infer interception or a captive portal from this result alone.")
  else if r == HTTPSProtocolFailure then
    ("The selected exchange did not produce a usable final HTTP response header.",
     "Review collector limits and server compatibility. Invalid or oversized response metadata does not establish an internet outage.")
  else if r == HTTPSTimedOut then
    if stage == HTTPSConnect then
      ("The selected endpoint connection timed out.",
       "Compare the original address and local-path evidence. One timeout is not an internet-outage verdict.")
    else if stage == HTTPSTLS then
      ("The selected endpoint's TLS exchange timed out.",
       "Review the recorded stage before inferring a cause. No HTTP request was sent, but connection and TLS traffic may have been sent.")
    else
      ("The selected HTTPS request stage timed out without a final response header.",
       "Inspect the recorded HTTP request state. An uncertain write must not be automatically retried; this timeout is not packet loss.")
  else if r == HTTPSUnfinished then
    ("The HTTPS check ended without a final result.",
     "Preserve the stage and request state. Cancellation or uncertain work is not a completed timeout and does not authorize a retry.")
  else if r == HTTPSRedirectResponse then
    ("The selected HTTPS exchange returned a redirect status.",
     "No redirect is followed. Review the selected expectation; a redirect alone does not prove a captive portal or authorize contact with another destination.")
  else
    ("The selected HTTPS exchange returned a final status.",
     "Compare the recorded status with the selected expectation. Error statuses are still responses; header receipt does not establish body correctness or general connectivity.").

Definition assessHTTPSMeasurement (m : HTTPSMeasurement) (asOf : Time) (freshness : Duration)
  : HTTPSAssessment :=
  let freshUntil := Add (CompletedAt m) freshness in
  let matched := if Exchange m == HTTPSResponseReceived
                 then Some (StatusCode m =? ExpectedStatus (Selection m)) else None in
  let out state confidence latency copy :=
    mkHTTPSAssessment (Selection m) state confidence (httpsResult m) (Some m) freshUntil matched latency
      (fst copy) (snd copy) in
  if negb (After freshUntil asOf) then
    out StateStale ConfidenceUnknown None
      ("This HTTPS check has only historical evidence.",
       "Compare observations from the same time; any new external request needs separate authorization.")
  else if Exchange m == HTTPSNotMeasured then
    out StateNotMeasured ConfidenceUnknown None
      (fst (gapCopy (Gap m)),
       "Review the recorded gap and current enrollment. Any external check still needs explicit destination disclosure and separate approval.")
  else
    let copy := httpsResultCopy (httpsResult m) (Stage m) in
    let '(state, confidence) :=
      if Exchange m == HTTPSIncomplete then (StateUnknown, ConfidenceUnknown)
      else (StateIssueObserved, ConfidenceLimited) in
    match matched with
    | Some true => out StateSucceeded confidence (ResponseTime m)
                     (fst copy +:+ " This matches the selected status expectation.", snd copy)
    | Some false => out state confidence (ResponseTime m)
                      (fst copy +:+ " This differs from the selected status expectation.", snd copy)
    | None => out state confidence (ResponseTime m) copy
    end.

Definition no_measurement (s : HTTPSSelection) : HTTPSAssessment :=
  mkHTTPSAssessment s StateUnknown ConfidenceUnknown HTTPSUnknown None zeroTime None None
    "No measurement is available for this selected HTTPS check."
    "Review the explicit target and privacy disclosure before collecting separately authorized evidence.".

Definition limitations : list string :=
  ["Evidence describes one selected HTTPS endpoint, request, address family and observing interface at the original time. A matching status does not prove body correctness or general internet availability.";
   "An HTTP error or redirect is a response, not packet loss. A TLS failure or redirect alone does not establish a captive portal, interception, an ISP outage or a security finding.";
   "No DNS resolution, redirect, retry or alternate destination is performed here. HTTP request not-sent does not mean no connection or TLS traffic was sent.";
   "Configuration references are not consent. A collector must separately disclose the exact destination, TLS identity, request, data budget and privacy impact, and verify the enrolled binding before an explicitly approved check."].

Definition sel_key (m : HTTPSMeasurement) : string := SelectionID (Selection m).

Definition AssessHTTPS (s : HTTPSSnapshot) : result string HTTPSReport :=
  check? ValidateHTTPSSnapshot s in
  let latest := latest sel_key CompletedAt (Measurements s) in
  Ok (mkHTTPSReport (SnapshotObserver s) (AsOf s) (WindowStart s)
        (map (λ sel, match latest !! SelectionID sel with
                     | Some m => assessHTTPSMeasurement m (AsOf s) (Freshness s)
                     | None => no_measurement sel
                     end) (Selections s))
        limitations).

(** ** Valid snapshots *)

Definition evidence_ok (s : HTTPSSnapshot) (m : HTTPSMeasurement) : Prop :=
  Selection m ∈ Selections s ∧ MeasuredBy m = SnapshotObserver s ∧ validToken (ID m) = true ∧
  resolverTime (StartedAt m) = true ∧ resolverTime (CompletedAt m) = true ∧
  Before (StartedAt m) (WindowStart s) = false ∧ Before (CompletedAt m) (StartedAt m) = false ∧
  After (CompletedAt m) (AsOf s) = false ∧ validateHTTPSMeasurement m = Ok tt.

Definition context_ok (s : HTTPSSnapshot) : bool :=
  negb (negb (validObserver (SnapshotObserver s)) || (2147483647 <? InterfaceIndex (SnapshotObserver s)) ||
        negb (resolverTime (AsOf s)) || negb (resolverTime (WindowStart s)) ||
        After (WindowStart s) (AsOf s) || (MaxWindow <? Sub (AsOf s) (WindowStart s)) ||
        (Freshness s <? Second) || (MaxFreshness <? Freshness s) || negb (resolverTime (Add (AsOf s) (Freshness s))) ||
        (MaxTargets <? llen (Selections s)) || (MaxMeasurements <? llen (Measurements s))).

Record snapshot_ok (s : HTTPSSnapshot) : Prop := mkSnapshotOk {
  hs_context : context_ok s = true;
  hs_selections : Forall (λ x, is_ok (ValidateHTTPSSelection x) = true) (Selections s);
  hs_selection_ids : NoDup (map SelectionID (Selections s));
  hs_evidence : Forall (evidence_ok s) (Measurements s);
  hs_ids : NoDup (map ID (Measurements s));
  hs_unambiguous : unambiguous sel_key CompletedAt (Measurements s);
}.

Lemma https_selection_step_ok acc x acc' :
  selection_step acc x = Ok acc' ↔
  is_ok (ValidateHTTPSSelection x) = true ∧ acc !! SelectionID x = None ∧ acc' = <[SelectionID x := x]> acc.
Proof.
  unfold selection_step. rewrite !guard_ok, is_some_false, negb_false_iff. naive_solver.
Qed.

Lemma https_measurement_step_ok s seen ends m st :
  NoDup (map SelectionID (Selections s)) →
  measurement_step s (index SelectionID (Selections s)) (seen, ends) m = Ok st ↔
  evidence_ok s m ∧ ID m ∉ seen ∧ end_key sel_key CompletedAt m ∉ ends ∧
  st = (ID m :: seen, end_key sel_key CompletedAt m :: ends).
Proof.
  intros Hn. unfold measurement_step, evidence_ok, end_key, sel_key.
  destruct (index SelectionID (Selections s) !! SelectionID (Selection m)) as [x|] eqn:E.
  - destruct (proj1 (index_some SelectionID (Selections s) _ _ Hn) E) as [Hin Hid].
    rewrite !guard_ok, res_bind_ok, !orb_false_iff, !negb_false_iff, !bool_decide_eq_true, !bool_decide_eq_false.
    split.
    + intros ((((-> & Ho) & Ht) & Hs) & Htm & He & ([] & Hv & [= <-])). naive_solver.
    + intros ((Hx & Ho & Ht & Htm) & Hs & He & ->).
      assert (x = Selection m) as ->.
      { assert (index SelectionID (Selections s) !! SelectionID (Selection m) = Some (Selection m))
          by by apply index_some. congruence. }
      naive_solver.
  - apply index_none in E. split; [done|]. intros ((Hx & _) & _). exfalso. apply E.
    by apply list_elem_of_fmap_2.
Qed.

Lemma https_validate_iff s : ValidateHTTPSSnapshot s = Ok tt ↔ snapshot_ok s.
Proof.
  unfold ValidateHTTPSSnapshot. rewrite guard_ok, res_bind_ok.
  setoid_rewrite (index_loop SelectionID _ selection_step https_selection_step_ok). setoid_rewrite res_bind_ok.
  rewrite <- negb_true_iff. fold (context_ok s). split.
  - intros (Hctx & (sm & (Hv & Hn & ->) & st & Hl & _)).
    apply (seen_loop ID sel_key CompletedAt (evidence_ok s)) in Hl as (He & Hids & Hends & _);
      [|intros; by apply https_measurement_step_ok].
    apply end_keys_unambiguous in Hends. by constructor.
  - intros []. split; [done|]. eexists. split; [by split_and!|]. eexists. split; [|done].
    apply (seen_loop ID sel_key CompletedAt (evidence_ok s)); [intros; by apply https_measurement_step_ok|].
    split_and!; try done. by apply end_keys_unambiguous.
Qed.

(** ** What an HTTPS report says *)

Definition canonical_evidence (s : HTTPSSnapshot) : Prop := all_canonical CompletedAt (Measurements s).

Definition with_measurements (s : HTTPSSnapshot) (ms : list HTTPSMeasurement) : HTTPSSnapshot :=
  mkHTTPSSnapshot (SnapshotObserver s) (AsOf s) (WindowStart s) (Freshness s) (Selections s) ms.

Definition check_of (s : HTTPSSnapshot) (sel : HTTPSSelection) : HTTPSAssessment :=
  match latest sel_key CompletedAt (Measurements s) !! SelectionID sel with
  | Some m => assessHTTPSMeasurement m (AsOf s) (Freshness s)
  | None => no_measurement sel
  end.

Lemma AssessHTTPS_ok s r :
  AssessHTTPS s = Ok r ↔
  snapshot_ok s ∧
  r = mkHTTPSReport (SnapshotObserver s) (AsOf s) (WindowStart s) (map (check_of s) (Selections s)) limitations.
Proof.
  unfold AssessHTTPS. rewrite res_bind_ok, <- https_validate_iff. split.
  - intros ([] & Hv & [= <-]). done.
  - intros [Hv ->]. by exists tt.
Qed.

(** The HTTPS assessment does not depend on the order of the evidence, when it
    carries no monotonic readings. *)
Theorem assess_https_order_independent s ms r :
  canonical_evidence s → Measurements s ≡ₚ ms →
  AssessHTTPS s = Ok r → AssessHTTPS (with_measurements s ms) = Ok r.
Proof.
  intros Hc Hp (Hok & ->)%AssessHTTPS_ok. apply AssessHTTPS_ok.
  assert (Hl := latest_perm sel_key CompletedAt _ _ Hc (hs_unambiguous s Hok) Hp).
  split.
  - destruct Hok. constructor; simpl; try done.
    + unfold context_ok, llen in *. simpl. by rewrite <- (Permutation_length Hp).
    + change (Forall (evidence_ok s) ms). by rewrite <- Hp.
    + by rewrite <- (Permutation_map ID Hp).
    + unfold unambiguous in *. by rewrite <- (Permutation_map _ Hp).
  - unfold check_of. simpl. by rewrite Hl.
Qed.

Lemma https_received_state m :
  validateHTTPSMeasurement m = Ok tt → Exchange m = HTTPSResponseReceived →
  Stage m = HTTPSRequest ∧ Request m = HTTPSRequestAccepted ∧ 200 <= StatusCode m <= 599.
Proof.
  unfold validateHTTPSMeasurement. rewrite guard_ok. intros [_ H] He. rewrite He in H.
  change (bool_decide (HTTPSResponseReceived = HTTPSNotMeasured)) with false in H.
  change (bool_decide (HTTPSResponseReceived = HTTPSResponseReceived)) with true in H. cbn iota in H.
  apply guard_ok in H as [_ H]. apply guard_ok in H as [_ H]. apply guard_ok in H as [Hr _].
  rewrite !orb_false_iff, !negb_false_iff, !bool_decide_eq_true, !Z.ltb_ge in Hr. naive_solver lia.
Qed.

Lemma https_assess_succeeded m asOf freshness :
  CheckState (assessHTTPSMeasurement m asOf freshness) = StateSucceeded ↔
  After (Add (CompletedAt m) freshness) asOf = true ∧ Exchange m = HTTPSResponseReceived ∧
  StatusCode m = ExpectedStatus (Selection m).
Proof.
  unfold assessHTTPSMeasurement.
  destruct (After (Add (CompletedAt m) freshness) asOf); cbn [negb]; [|simpl; naive_solver].
  destruct (bool_decide_reflect (Exchange m = HTTPSNotMeasured)) as [->|Hn]; [simpl; naive_solver|].
  destruct (bool_decide_reflect (Exchange m = HTTPSResponseReceived)) as [->|Hr].
  - change (bool_decide (HTTPSResponseReceived = HTTPSIncomplete)) with false. cbn iota.
    destruct (Z.eqb_spec (StatusCode m) (ExpectedStatus (Selection m))); simpl; naive_solver.
  - destruct (bool_decide _); simpl; naive_solver.
Qed.

(** C13: an HTTPS check is reported as succeeded exactly when its latest evidence is still
    fresh and is a final response, received on an accepted request after the TLS identity
    was verified, with the status the selection expects.  The completion times carry no
    monotonic reading, as those of decoded evidence do not. *)
Theorem https_succeeded_iff s r c :
  canonical_evidence s → AssessHTTPS s = Ok r → c ∈ Checks r →
  CheckState c = StateSucceeded ↔
  ∃ m, Evidence c = Some m ∧ is_latest sel_key CompletedAt (Measurements s) (SelectionID (CheckSelection c)) m ∧
    wall (AsOf s) < wall (CompletedAt m) + Freshness s ∧
    Exchange m = HTTPSResponseReceived ∧ Stage m = HTTPSRequest ∧ Request m = HTTPSRequestAccepted ∧
    200 <= StatusCode m <= 599 ∧ StatusCode m = ExpectedStatus (CheckSelection c).
Proof.
  intros Hc (Hok & ->)%AssessHTTPS_ok. simpl. intros (sel & -> & Hsel)%list_elem_of_fmap.
  unfold check_of.
  destruct (latest sel_key CompletedAt (Measurements s) !! SelectionID sel) as [m|] eqn:E;
    [|simpl; naive_solver].
  pose proof (latest_some _ _ _ _ _ Hc E) as Hl. pose proof Hl as (Hmem & Hk & _).
  pose proof (hs_evidence s Hok) as He. rewrite Forall_forall in He.
  pose proof (He m Hmem) as Hv. skip 8 in Hv.
  assert (CheckSelection (assessHTTPSMeasurement m (AsOf s) (Freshness s)) = Selection m ∧
          Evidence (assessHTTPSMeasurement m (AsOf s) (Freshness s)) = Some m) as [Hcs Hev].
  { unfold assessHTTPSMeasurement. by repeat case_match. }
  rewrite https_assess_succeeded, Hcs.
  unfold canonical_evidence, all_canonical in Hc. rewrite Forall_forall in Hc.
  rewrite After_wall by (left; by apply canonical_Add, Hc). rewrite wall_Add, Z.ltb_lt. split.
  - intros (Hf & Hx & Hst). exists m. destruct (https_received_state m Hv Hx) as (? & ? & ?).
    split_and!; try done; try lia. change (is_latest sel_key CompletedAt (Measurements s) (sel_key m) m).
    by rewrite Hk.
  - intros (m' & Hev' & _ & Hf & Hx & _ & _ & _ & Hst). rewrite Hev in Hev'. injection Hev' as <-. done.
Qed.

(** ** Examples *)

Definition selection : HTTPSSelection := mkHTTPSSelection "sel" "endpoint" "request" FamilyIPv4 "GET" 204.
Definition exchange (id : string) (sec : Z) (status : Z) : HTTPSMeasurement :=
  mkHTTPSMeasurement id selection sensor (clock sec) (clock (sec + 1)) HTTPSRequest HTTPSResponseReceived
    HTTPSRequestAccepted GapNone status (Some 20000000).
Definition requests : HTTPSSnapshot :=
  mkHTTPSSnapshot sensor (clock 600) (clock 0) (15 * Minute) [selection] [exchange "m1" 100 302; exchange "m2" 200 204].
Definition requests_report : HTTPSReport :=
  match AssessHTTPS requests with Ok r => r | Err _ => mkHTTPSReport sensor zeroTime zeroTime [] [] end.

Lemma requests_assessed : AssessHTTPS requests = Ok requests_report.
Proof. vm_compute. reflexivity. Qed.

Lemma assess_https_order_independent_witness :
  AssessHTTPS (with_measurements requests (reverse (Measurements requests))) = Ok requests_report.
Proof.
  apply (assess_https_order_independent requests).
  - repeat constructor.
  - symmetry. apply reverse_Permutation.
  - exact requests_assessed.
Defined.

Lemma https_succeeded_iff_witness : ∃ m, m ∈ Measurements requests ∧ StatusCode m = 204.
Proof.
  destruct (proj1 (https_succeeded_iff requests requests_report
    (nth 0 (Checks requests_report) (no_measurement selection))
    ltac:(repeat constructor) requests_assessed (list_elem_of_here _ _)) eq_refl)
    as (m & _ & (Hm & _) & _ & _ & _ & _ & _ & Hst).
  exact (ex_intro _ m (conj Hm Hst)).
Defined.

End HTTPS.
