(* ===== verification/HTTPSPlan.v ===== *)
(** * Review plans of the HTTPS check

    [httpsplan/plan.go]: the immutable plan of one explicitly reviewed HTTPS exchange,
    with the parts of [net/url] and [net/http] it uses: the escapes of a request target
    and the bytes of a request.  The theorems say which request targets and which plans
    are accepted, that the standard library cannot rewrite an accepted target, and what
    comparing two plans means. *)

From Stdlib Require Import Ascii.
From S2P Require Import Prelude Regex GoTime NetAddr CheckBinding.
From S2P Require Import Quality ResolverQuality ResolverWire HTTPSQuality.

Module HTTPSPlan.
Import Quality HTTPS.
Import ResolverWire.Wire (AddrPort, ap_addr, ap_port, AddrPort_eq_dec, split_dots, valid_label).
#[local] Existing Instance ResolverWire.Wire.AddrPort_eq_dec.

Definition Profile : string := "selected-https-v1".
Definition ReviewLifetime : Duration := 30 * Second.
Definition MaxRequestTargetBytes : Z := 1024.
Definition ExactEndpoint : string := "exact-endpoint".
Definition UserAgent : string := "CozySOC-Network-Check/1".

Inductive plan_err : Type := ErrConfiguration | ErrBinding | ErrClock | ErrPlan.

Record Binding := mkBinding {
  bObserver : Observer;
  Prefixes : list string;
  Source : Addr;
}.

Record Configuration := mkConfiguration {
  cSelection : HTTPSSelection;
  Endpoint : AddrPort;
  ServerName : string;
  RequestTarget : string;
  DestinationPolicy : string;
}.

Record Policy := mkPolicy {
  ALPN : string;
  TrustStore : string;
  ClientAuthentication : bool;
  HTTPVersion : string;
  MinTLSVersion : Z;
  MaxTLSVersion : Z;
  VerifyServerIdentity : bool;
  FreshConnection : bool;
  SessionResumption : bool;
  EarlyData : bool;
  UseProxy : bool;
  ResolveNames : bool;
  FollowRedirects : bool;
  ReadResponseBody : bool;
}.

Record Budget := mkBudget {
  MaxConnections : Z;
  MaxRequests : Z;
  MaxRetries : Z;
  MaxRequestBytes : Z;
  MaxResponseHeaderBytes : Z;
  MaxTransportReadBytes : Z;
  MaxTransportWriteBytes : Z;
  MaxTransportReadCalls : Z;
  MaxTransportWriteCalls : Z;
  ConnectTimeout : Duration;
  TLSHandshakeTimeout : Duration;
  ResponseHeaderTimeout : Duration;
  TotalTimeout : Duration;
  MaxConcurrentRuns : Z;
  MinRunInterval : Duration;
}.

Record Disclosure := mkDisclosure {
  dProfile : string;
  dBinding : Binding;
  dConfiguration : Configuration;
  OutsideEnrolledPrefixes : bool;
  dPolicy : Policy;
  dBudget : Budget;
  CreatedAt : Time;
  ExpiresAt : Time;
  Privacy : list string;
}.

Record Plan := mkPlan { review : Disclosure }.

#[export] Instance HTTPSBinding_eq_dec : EqDecision Binding.
Proof. solve_decision. Defined.
#[export] Instance HTTPSConfiguration_eq_dec : EqDecision Configuration.
Proof. solve_decision. Defined.
#[export] Instance HTTPSPolicy_eq_dec : EqDecision Policy.
Proof. solve_decision. Defined.
#[export] Instance HTTPSBudget_eq_dec : EqDecision Budget.
Proof. solve_decision. Defined.
#[export] Instance HTTPSDisclosure_eq_dec : EqDecision Disclosure.
Proof. solve_decision. Defined.
#[export] Instance HTTPSPlan_eq_dec : EqDecision Plan.
Proof. solve_decision. Defined.

(** ** The escapes of a URL *)

(** [url.unescape] in the path modes: only [%] has a meaning, and it needs two
    hexadecimal digits. *)
Fixpoint unescape (w : list ascii) : option (list ascii) :=
  match w with
  | [] => Some []
  | c :: rest =>
      if c == "%"%char then
        match rest with
        | h :: l :: rest =>
            match hex_value h, hex_value l with
            | Some a, Some b => option_map (cons (ascii_of_N (Z.to_N (a * 16 + b)))) (unescape rest)
            | _, _ => None
            end
        | _ => None
        end
      else option_map (cons c) (unescape rest)
  end.

(** [url.shouldEscape] in the path mode *)
Definition shouldEscape (c : ascii) : bool := negb (alnum c || one_of "-_.~$&+,/:;=@" c).

Definition upper_hex (d : Z) : ascii := if d <? 10 then digit_char d else ascii_of_N (Z.to_N (d + 55)).

(** [url.escape] in the path mode *)
Definition escape (w : list ascii) : list ascii :=
  flat_map (λ c, if shouldEscape c then ["%"%char; upper_hex (byte_of c / 16); upper_hex (byte_of c mod 16)] else [c]) w.

(** [url.validEncoded] in the path mode *)
Definition validEncoded (w : list ascii) : bool :=
  forallb (λ c, one_of "!$&'()*+,;=:@[]%" c || negb (shouldEscape c)) w.

(** The fields [url.ParseRequestURI] sets for a text that starts with a slash. *)
Record URL := mkURL { uPath : list ascii; RawPath : list ascii; RawQuery : list ascii; ForceQuery : bool }.

Definition setPath (p : list ascii) : option (list ascii * list ascii) :=
  match unescape p with
  | None => None
  | Some path => Some (path, if escape path == p then [] else p)
  end.

(** A text that starts with a slash has no scheme, host, user or opaque part, and no
    fragment is split off a request URI. *)
Definition ParseRequestURI (w : list ascii) : option URL :=
  let '(before, after) := split_at "?" w in
  let force := bool_decide (after = Some []) in
  match setPath before with
  | None => None
  | Some (path, raw) => Some (mkURL path raw (default [] after) force)
  end.

Definition EscapedPath (u : URL) : list ascii :=
  if (RawPath u != []) && validEncoded (RawPath u) && bool_decide (unescape (RawPath u) = Some (uPath u)) then RawPath u
  else if uPath u == ["*"%char] then ["%"%char; "2"%char; "A"%char]
  else escape (uPath u).

Definition RequestURI (u : URL) : list ascii :=
  let path := EscapedPath u in
  let path := if path == [] then ["/"%char] else path in
  if ForceQuery u || (RawQuery u != []) then path ++ "?"%char :: RawQuery u else path.

(** ** Configurations *)

Definition target_char (c : ascii) : bool := alnum c || one_of "-._~!$&'()*+,;=:@/?%" c.

Definition validServerName (name : string) : bool :=
  let w := String.list_ascii_of_string name in
  if (253 <? slen name) || negb (bool_decide ("."%char ∈ w)) then false
  else if is_some (ParseAddr name) then false
  else forallb valid_label (split_dots w).

Definition validRequestTarget (target : string) : bool :=
  let w := String.list_ascii_of_string target in
  if (slen target =? 0) || (MaxRequestTargetBytes <? slen target) || negb (bool_decide (head w = Some "/"%char)) ||
     bool_decide (take 2 w = ["/"%char; "/"%char])
  then false
  else if negb (forallb target_char w) then false
  else match ParseRequestURI w with
       | None => false
       | Some parsed =>
           if RequestURI parsed != w then false
           else match unescape w with
                | None => false
                | Some decoded =>
                    forallb (λ c, negb ((byte_of c <? 32) || (byte_of c =? 127) || (byte_of c =? 92))) decoded
                end
       end.

Definition ValidateConfiguration (c : Configuration) : result plan_err unit :=
  let a := ap_addr (Endpoint c) in
  guard? negb (is_ok (ValidateHTTPSSelection (cSelection c))) || (DestinationPolicy c != ExactEndpoint) ||
         negb (IsValid a) || negb (ap_port (Endpoint c) =? 443) || negb (CheckBinding.Binding.EligibleHost a) ||
         (Is4 a && (SelectionFamily (cSelection c) != FamilyIPv4)) ||
         (Is6 a && (SelectionFamily (cSelection c) != FamilyIPv6)) ||
         negb (validServerName (ServerName c)) || negb (validRequestTarget (RequestTarget c))
  else ErrConfiguration in
  Ok tt.

(** ** The request *)

Definition crlf : string := String.string_of_list_ascii ["013"%char; "010"%char].

(** What [net/http] writes for a request without a body that closes its connection: the
    request line, the host, the user agent, the connection header and the other headers
    in the order of their names. *)
Definition requestBytes (c : Configuration) : string :=
  SelectionMethod (cSelection c) +:+ " " +:+ RequestTarget c +:+ " HTTP/1.1" +:+ crlf +:+
  "Host: " +:+ ServerName c +:+ crlf +:+ "User-Agent: " +:+ UserAgent +:+ crlf +:+
  "Connection: close" +:+ crlf +:+ "Accept: */*" +:+ crlf +:+ "Accept-Encoding: identity" +:+ crlf +:+
  "Cache-Control: no-store" +:+ crlf +:+ crlf.

(** ** Plans *)

Definition fixedPolicy : Policy :=
  mkPolicy "http/1.1" "system" false "HTTP/1.1" 771 772 true true false false false false false false.

Definition planBudget (bytes : Z) : Budget :=
  mkBudget 1 1 0 bytes 16384 131072 32768 512 64 (2 * Second) (3 * Second) (2 * Second) (8 * Second) 1 Minute.

Definition privacyNotes : list string :=
  ["The selected operator can observe the connecting network address, timing, TLS identity and exact HTTP request. The TLS name may also be visible to network observers; encrypted ClientHello is not part of this profile.";
   "The fixed request discloses the CozySOC-Network-Check/1 user agent. No cookies, authorization headers, request body or device identifier are supplied.";
   "TLS-stream byte ceilings include handshake and buffered response data but exclude TCP retransmissions and IP/link overhead. A server may send body bytes even though this profile does not read a response body; these can consume network data.";
   "Prefix membership does not verify an external target, gateway, route or actual egress interface. A VPN, proxy interception, metered connection or changed network needs fresh binding review before separate one-shot consent."].

Definition New (binding : Binding) (c : Configuration) (now : Time) : result plan_err Plan :=
  let now := UTC (Round0 now) in
  guard? negb (validTime now) || negb (validTime (Add now ReviewLifetime)) else ErrClock in
  check? ValidateConfiguration c in
  guard? negb (is_ok (ValidateHTTPSSnapshot (mkHTTPSSnapshot (bObserver binding) now now Second [] [])))
  else ErrBinding in
  match CheckBinding.Binding.Validate (Source binding) (ap_addr (Endpoint c)) (Prefixes binding) with
  | Err _ => Err ErrBinding
  | Ok (prefixes, member) =>
      let binding := mkBinding (bObserver binding) prefixes (Source binding) in
      let c := mkConfiguration (cSelection c) (Endpoint c) (ToLower (ServerName c)) (RequestTarget c)
                 (DestinationPolicy c) in
      let request := requestBytes c in
      Ok (mkPlan (mkDisclosure Profile binding c (negb member) fixedPolicy (planBudget (slen request)) now
                    (Add now ReviewLifetime) privacyNotes))
  end.

Definition RequestBytes (p : Plan) : result plan_err string :=
  if dProfile (review p) != Profile then Err ErrPlan else Ok (requestBytes (dConfiguration (review p))).

Definition Current (p : Plan) (now : Time) : bool :=
  (dProfile (review p) == Profile) && validTime now && negb (Before now (CreatedAt (review p))) &&
  Before now (ExpiresAt (review p)).

Definition SameSelection (p other : Plan) : bool :=
  if (dProfile (review p) != Profile) || (dProfile (review other) != Profile) then false
  else
    let a := review p in
    let b := review other in
    (dProfile a == dProfile b) && (dConfiguration a == dConfiguration b) &&
    (bObserver (dBinding a) == bObserver (dBinding b)) && (Source (dBinding a) == Source (dBinding b)) &&
    (Prefixes (dBinding a) == Prefixes (dBinding b)) &&
    Bool.eqb (OutsideEnrolledPrefixes a) (OutsideEnrolledPrefixes b) && (dPolicy a == dPolicy b) &&
    (dBudget a == dBudget b).

(** ** Which request targets are accepted *)

Lemma ascii_cases (f : ascii → bool) :
  forallb f (map ascii_of_nat (seq 0 256)) = true → ∀ c, f c = true.
Proof.
  intros H c. apply forallb_true_iff in H. rewrite Forall_forall in H. apply H.
  apply list_elem_of_fmap. exists (nat_of_ascii c). split; [by rewrite ascii_nat_embedding|].
  apply elem_of_seq. pose proof (nat_ascii_bounded c). lia.
Qed.

Definition encoded_check (c : ascii) : bool :=
  negb (target_char c) || (c == "?"%char) || (one_of "!$&'()*+,;=:@[]%" c || negb (shouldEscape c)).

Lemma target_char_encoded c :
  target_char c = true → c ≠ "?"%char → one_of "!$&'()*+,;=:@[]%" c || negb (shouldEscape c) = true.
Proof.
  assert (H : encoded_check c = true) by (apply ascii_cases; vm_compute; reflexivity).
  unfold encoded_check in H. intros Ht Hq. rewrite Ht, (bool_decide_eq_false_2 _ Hq) in H. done.
Qed.

Lemma split_at_spec c w u v :
  split_at c w = (u, v) →
  c ∉ u ∧ w = match v with Some v => u ++ c :: v | None => u end.
Proof.
  revert u v. induction w as [|d w IH]; intros u v; cbn [split_at].
  { intros [= <- <-]. split; [apply not_elem_of_nil|done]. }
  case_bool_decide as E; [intros [= <- <-]; subst; split; [apply not_elem_of_nil|done]|].
  destruct (split_at c w) as [u' v'] eqn:Es. intros [= <- <-]. destruct (IH u' v' eq_refl) as [H1 H2]. split.
  - by rewrite not_elem_of_cons.
  - rewrite H2 at 1. by destruct v'.
Qed.

(** The escapes of a prefix that ends before a question mark are complete. *)
Lemma unescape_prefix u v d :
  unescape (u ++ "?"%char :: v) = Some d → unescape u ≠ None.
Proof.
  remember (length u) as n eqn:Hn. revert u d Hn. induction (lt_wf n) as [n _ IH]; intros u d Hn H.
  destruct u as [|c u]; [done|]. cbn [app unescape] in H |- *.
  case_bool_decide as Ec.
  - destruct u as [|h u]; [cbn in H; by destruct v|]. destruct u as [|l u].
    + cbn in H. by destruct (hex_value h).
    + cbn [app] in H. destruct (hex_value h), (hex_value l); try done.
      destruct (unescape (u ++ _)) as [d'|] eqn:E; [|done]. simpl in Hn.
      pose proof (IH (length u) ltac:(lia) u d' eq_refl E). by destruct (unescape u).
  - destruct (unescape (u ++ _)) as [d'|] eqn:E; [|done]. simpl in Hn.
    pose proof (IH (length u) ltac:(lia) u d' eq_refl E). by destruct (unescape u).
Qed.

(** The standard library writes back an accepted target unchanged. *)
Lemma RequestURI_target w d :
  head w = Some "/"%char → Forall (λ c, target_char c = true) w → unescape w = Some d →
  ∃ u, ParseRequestURI w = Some u ∧ RequestURI u = w.
Proof.
  intros Hh Hf Hd. unfold ParseRequestURI. destruct (split_at "?" w) as [p after] eqn:Es.
  destruct (split_at_spec _ _ _ _ Es) as [Hq Hw].
  assert (Hp : head p = Some "/"%char).
  { rewrite Hw in Hh. destruct p; [|by destruct after]. by destruct after. }
  assert (Hun : unescape p ≠ None).
  { rewrite Hw in Hd. destruct after as [v|]; [by eapply unescape_prefix|congruence]. }
  assert (Henc : validEncoded p = true).
  { unfold validEncoded. apply forallb_true_iff, Forall_forall. intros c Hc. apply target_char_encoded.
    - rewrite Forall_forall in Hf. apply Hf. rewrite Hw. destruct after; [apply elem_of_app; by left|done].
    - intros ->. done. }
  unfold setPath. destruct (unescape p) as [path|] eqn:Ep; [|done]. eexists. split; [done|].
  assert (Hpe : p ≠ []) by (by intros ->).
  assert (Hesc : ∀ raw q f, raw = (if bool_decide (escape path = p) then [] else p) →
    EscapedPath (mkURL path raw q f) = p).
  { intros raw q f ->. unfold EscapedPath. cbn [RawPath uPath].
    destruct (decide (escape path = p)) as [Ee|Ee].
    - rewrite (bool_decide_eq_true_2 _ Ee). cbn [bool_decide decide_rel negb andb].
      rewrite (bool_decide_eq_true_2 ([] = [])) by done. cbn [negb andb].
      case_bool_decide as Estar; [|done]. rewrite Estar in Ee. vm_compute in Ee. by subst p.
    - rewrite (bool_decide_eq_false_2 _ Ee). rewrite (bool_decide_eq_false_2 (p = [])), Henc, Ep by done. cbn [negb andb].
      by rewrite bool_decide_eq_true_2. }
  unfold RequestURI. rewrite Hesc by done. cbn [ForceQuery RawQuery].
  rewrite (bool_decide_eq_false_2 (p = [])) by done. destruct after as [v|]; cbn [default].
  - destruct v as [|x v].
    + by rewrite bool_decide_eq_true_2.
    + rewrite (bool_decide_eq_false_2 (Some (x :: v) = Some [])), (bool_decide_eq_false_2 (x :: v = [])) by done.
      by rewrite Hw.
  - by rewrite bool_decide_eq_false_2, bool_decide_eq_true_2 by done.
Qed.

(** Bytes a decoded target may hold: no control character, no backslash. *)
Definition printable (c : ascii) : Prop := 32 <= byte_of c ∧ byte_of c ≠ 127 ∧ byte_of c ≠ 92.

Lemma request_target_iff t :
  let w := String.list_ascii_of_string t in
  validRequestTarget t = true ↔
  1 <= slen t <= MaxRequestTargetBytes ∧ head w = Some "/"%char ∧ take 2 w ≠ ["/"%char; "/"%char] ∧
  Forall (λ c, target_char c = true) w ∧ ∃ d, unescape w = Some d ∧ Forall printable d.
Proof.
  cbv zeta. unfold validRequestTarget. set (w := String.list_ascii_of_string t).
  assert (Hlen : 0 <= slen t) by (unfold slen; lia).
  assert (Hpr : ∀ d, forallb (λ c, negb ((byte_of c <? 32) || (byte_of c =? 127) || (byte_of c =? 92))) d = true ↔
    Forall printable d).
  { intros d. rewrite forallb_true_iff. apply Forall_proper; [|done]. intros c. unfold printable.
    rewrite negb_true_iff, !orb_false_iff, Z.ltb_ge, !Z.eqb_neq. tauto. }
  rewrite !if_false_iff, !orb_false_iff, !negb_false_iff, Z.eqb_neq, Z.ltb_ge, forallb_true_iff.
  rewrite bool_decide_eq_true, bool_decide_eq_false. split.
  - intros ((((Hl1 & Hl2) & Hh) & Hs) & Hf & H). split_and!; try (done || lia).
    destruct (ParseRequestURI w) as [u|]; [|done]. apply if_false_iff in H as [_ H].
    destruct (unescape w) as [d|]; [|done]. exists d. split; [done|]. by apply Hpr.
  - intros (Hl & Hh & Hs & Hf & d & Hd & Hp). split_and!; try (done || lia).
    destruct (RequestURI_target w d Hh Hf Hd) as (u & -> & Hu). rewrite Hd, Hu.
    rewrite bool_decide_eq_true_2 by done. by apply Hpr.
Qed.

(** Which request targets are accepted.  A target is accepted exactly when it is an
    origin-form path of one to 1024 bytes that does not start with two slashes, is made of
    the allowed characters, and decodes, escapes included, to text without control
    characters and backslashes; parsing and printing it with the standard library never
    rejects or rewrites such a target. *)
Theorem request_target_spec t :
  let w := String.list_ascii_of_string t in
  validRequestTarget t = true ↔
  1 <= slen t <= MaxRequestTargetBytes ∧ head w = Some "/"%char ∧ take 2 w ≠ ["/"%char; "/"%char] ∧
  Forall (λ c, target_char c = true) w ∧ ∃ d, unescape w = Some d ∧ Forall printable d.
Proof. apply request_target_iff. Qed.

(** ** Which plans exist *)

(** A supported request to a numeric endpoint of the selected family. *)
Record configuration_ok (c : Configuration) : Prop := mkConfigurationOk {
  hc_selection : ValidateHTTPSSelection (cSelection c) = Ok tt;
  hc_policy : DestinationPolicy c = ExactEndpoint;
  hc_port : ap_port (Endpoint c) = 443;
  hc_eligible : CheckBinding.Binding.EligibleHost (ap_addr (Endpoint c)) = true;
  hc_family : SelectionFamily (cSelection c) = if Is4 (ap_addr (Endpoint c)) then FamilyIPv4 else FamilyIPv6;
  hc_server : validServerName (ServerName c) = true;
  hc_target : validRequestTarget (RequestTarget c) = true;
}.

Lemma eligible_is6 a : CheckBinding.Binding.EligibleHost a = true → IsValid a = true ∧ Is6 a = negb (Is4 a).
Proof. by destruct a. Qed.

Lemma https_configuration_iff c : ValidateConfiguration c = Ok tt ↔ configuration_ok c.
Proof.
  unfold ValidateConfiguration. rewrite guard_ok, !orb_false_iff, !negb_false_iff, Z.eqb_eq, bool_decide_eq_true, is_ok_true.
  split.
  - intros (((((((((H1 & H2) & H3) & H4) & H5) & H6) & H7) & H8) & H9) & _). destruct (eligible_is6 _ H5) as [_ E6].
    rewrite E6 in H7. constructor; try done; [by destruct H1 as [[] ?]|].
    destruct (Is4 _); cbn [negb andb] in *; by go_bool.
  - intros [H1 H2 H3 H4 H5 H6 H7]. destruct (eligible_is6 _ H4) as [E1 E6]. rewrite E6, H5, H1.
    split_and!; try done; [by exists tt|..]; by destruct (Is4 _).
Qed.

Lemma https_empty_snapshot o now :
  validTime now = true → validTime (Add now ReviewLifetime) = true → canonical now →
  ValidateHTTPSSnapshot (mkHTTPSSnapshot o now now Second [] []) = Ok tt ↔ observer_ok o.
Proof.
  intros Hv Hl Hc. unfold ValidateHTTPSSnapshot. cbn [for_each Selections Measurements res_bind].
  cbn [SnapshotObserver AsOf WindowStart Freshness]. rewrite guard_ok.
  assert (Hs : Resolver.resolverTime (Add now Second) = true).
  { unfold Resolver.resolverTime. rewrite validTime_eq in *. rewrite wall_Add in *. unfold in_int64 in *.
    unfold ReviewLifetime, Second in *. go_bool. lia. }
  rewrite Hs. unfold Resolver.resolverTime. rewrite Hv, After_wall, Z.ltb_irrefl, Sub_wall, Z.sub_diag by auto.
  unfold observer_ok. destruct (validObserver o); cbn [negb orb]; [|naive_solver].
  rewrite !orb_false_r. vm_compute (_ || _). rewrite Z.ltb_ge. naive_solver.
Qed.

Definition pinned (c : Configuration) : Configuration :=
  mkConfiguration (cSelection c) (Endpoint c) (ToLower (ServerName c)) (RequestTarget c) (DestinationPolicy c).

(** The plan built from an accepted binding. *)
Definition built (binding : Binding) (c : Configuration) (now : Time) (prefixes : list string) (member : bool) : Plan :=
  mkPlan (mkDisclosure Profile (mkBinding (bObserver binding) prefixes (Source binding)) (pinned c) (negb member)
    fixedPolicy (planBudget (slen (requestBytes (pinned c)))) (UTC now) (Add (UTC now) ReviewLifetime) privacyNotes).

Lemma https_new_iff binding c now plan :
  New binding c now = Ok plan ↔
  ∃ prefixes member,
    in_int64 (wall now) = true ∧ in_int64 (wall now + ReviewLifetime) = true ∧
    configuration_ok c ∧ observer_ok (bObserver binding) ∧
    CheckBinding.Binding.Validate (Source binding) (ap_addr (Endpoint c)) (Prefixes binding) = Ok (prefixes, member) ∧
    plan = built binding c now prefixes member.
Proof.
  unfold New. change (UTC (Round0 now)) with (UTC now).
  rewrite guard_ok, orb_false_iff, !negb_false_iff, res_bind_ok, !validTime_eq, wall_Add. split.
  - intros ([Hv Hl] & [] & Hc%https_configuration_iff & H). apply guard_ok in H as [Ho H].
    apply negb_false_iff, is_ok_true in Ho as [[] Ho].
    apply https_empty_snapshot in Ho; [|by rewrite validTime_eq, ?wall_Add..|done].
    destruct (CheckBinding.Binding.Validate _ _ _) as [[prefixes member]|] eqn:Ev; [|done].
    injection H as <-. by exists prefixes, member.
  - intros (prefixes & member & Hv & Hl & Hc & Ho & Hb & ->). split; [done|]. exists tt.
    split; [by apply https_configuration_iff|]. rewrite guard_ok, negb_false_iff, is_ok_true. split.
    { exists tt. apply https_empty_snapshot; [by rewrite validTime_eq, ?wall_Add..|done|done]. }
    by rewrite Hb.
Qed.

(** What HTTPS re-review compares.  For two plans [New] built, at any two times, the
    comparison accepts exactly when selection, endpoint, request target, policy, observer
    and source are equal, the server names are equal up to case and the enrolled prefixes
    the same up to order; membership, budget and the fixed policy then agree too. *)
Theorem https_same_selection b c t p b' c' t' p' :
  New b c t = Ok p → New b' c' t' = Ok p' →
  SameSelection p p' = true ↔
  cSelection c = cSelection c' ∧ Endpoint c = Endpoint c' ∧ ToLower (ServerName c) = ToLower (ServerName c') ∧
  RequestTarget c = RequestTarget c' ∧ bObserver b = bObserver b' ∧ Source b = Source b' ∧ Prefixes b ≡ₚ Prefixes b'.
Proof.
  intros (ps & member & _ & _ & Hc & _ & Hv & ->)%https_new_iff (ps' & member' & _ & _ & Hc' & _ & Hv' & ->)%https_new_iff.
  assert (ps = merge_sort String.le (Prefixes b)) as Eps by (by apply CheckBinding.Binding.validate_binding in Hv; naive_solver).
  assert (ps' = merge_sort String.le (Prefixes b')) as Eps' by (by apply CheckBinding.Binding.validate_binding in Hv'; naive_solver).
  unfold SameSelection, built. cbn [review dProfile dConfiguration dBinding bObserver Source Prefixes dBudget
    OutsideEnrolledPrefixes dPolicy].
  rewrite (bool_decide_eq_true_2 (Profile = Profile)), (bool_decide_eq_true_2 (fixedPolicy = fixedPolicy)) by done.
  cbn [negb orb andb].
  rewrite !andb_true_iff, !bool_decide_eq_true, Bool.eqb_true_iff. rewrite Eps, Eps', sort_strings_perm.
  assert (Hpin : pinned c = pinned c' ↔ cSelection c = cSelection c' ∧ Endpoint c = Endpoint c' ∧
    ToLower (ServerName c) = ToLower (ServerName c') ∧ RequestTarget c = RequestTarget c').
  { unfold pinned. rewrite (hc_policy _ Hc), (hc_policy _ Hc'). split; [by intros [= ? ? ? ?]|].
    by intros (-> & -> & -> & ->). }
  split.
  - intros ((((((H1 & H2) & H3) & H4) & _) & _) & _). apply Hpin in H1 as (? & ? & ? & ?). by split_and!.
  - intros (H1 & H2 & H3 & H4 & H5 & H6 & H7). assert (Hp : pinned c = pinned c') by by apply Hpin.
    split_and!; try done; [|by rewrite Hp].
    rewrite <- H2, <- H6 in Hv'. by rewrite (CheckBinding.Binding.validate_member _ _ _ _ _ _ _ _ Hv Hv' H7).
Qed.

(** ** The request is the reviewed one *)

Definition is_break (c : ascii) : bool := (c == "013"%char) || (c == "010"%char).

(** The carriage returns and line feeds of a text. *)
Fixpoint breaks (w : list ascii) : Z :=
  match w with [] => 0 | c :: w => (if is_break c then 1 else 0) + breaks w end.

Lemma breaks_app u v : breaks (u ++ v) = breaks u + breaks v.
Proof. induction u as [|c u IH]; simpl; lia. Qed.

Lemma breaks_none w : Forall (λ c, is_break c = false) w → breaks w = 0.
Proof. induction 1 as [|c w H _ IH]; [done|]. simpl. by rewrite H, IH. Qed.

Lemma list_ascii_app s t :
  String.list_ascii_of_string (s +:+ t) = String.list_ascii_of_string s ++ String.list_ascii_of_string t.
Proof. induction s as [|c s IH]; [done|]. simpl. by rewrite IH. Qed.

Lemma split_dots_elem c w : c ∈ w → c = "."%char ∨ ∃ l, l ∈ split_dots w ∧ c ∈ l.
Proof.
  induction w as [|d w IH]; intros Hc; [by apply elem_of_nil in Hc|]. cbn [split_dots].
  case_bool_decide as Ed.
  - apply elem_of_cons in Hc as [->|Hc]; [by left|]. destruct (IH Hc) as [?|(l & Hl & Hcl)]; [by left|].
    right. exists l. split; [by apply elem_of_cons; right|done].
  - assert (Hne : split_dots w ≠ []).
    { destruct w as [|e w]; [done|]. cbn [split_dots]. case_bool_decide; [done|]. by destruct (split_dots w). }
    destruct (split_dots w) as [|l0 ls]; [done|].
    apply elem_of_cons in Hc as [->|Hc]; [right; exists (d :: l0); split; apply list_elem_of_here|].
    destruct (IH Hc) as [?|(l & Hl & Hcl)]; [by left|]. right.
    apply elem_of_cons in Hl as [->|Hl]; [exists (d :: l0)|exists l]; set_solver.
Qed.

Definition break_check (c : ascii) : bool :=
  (negb (target_char c) || negb (is_break c)) &&
  (negb (ResolverWire.Wire.label_char c || (c == "."%char)) || negb (is_break (lower_ascii c))).

Lemma break_check_all c : break_check c = true.
Proof. revert c. apply ascii_cases. vm_compute. reflexivity. Qed.

Lemma target_breaks t : validRequestTarget t = true → breaks (String.list_ascii_of_string t) = 0.
Proof.
  intros (_ & _ & _ & Hf & _)%request_target_iff. apply breaks_none. eapply Forall_impl; [exact Hf|].
  intros c Hc. pose proof (break_check_all c) as H. unfold break_check in H. rewrite Hc in H. by destruct (is_break c).
Qed.

Lemma server_breaks n : validServerName n = true → breaks (String.list_ascii_of_string (ToLower n)) = 0.
Proof.
  unfold validServerName, ToLower. rewrite !if_false_iff. intros (_ & _ & Hl).
  rewrite String.list_ascii_of_string_of_list_ascii. apply breaks_none, Forall_map, Forall_forall. intros c Hc.
  pose proof (break_check_all c) as H. unfold break_check in H. apply andb_true_iff in H as [_ H].
  assert (ResolverWire.Wire.label_char c || (c == "."%char) = true) as Hlc.
  { destruct (split_dots_elem c _ Hc) as [->|(l & Hin & Hcl)]; [by rewrite orb_true_r|].
    apply forallb_true_iff in Hl. rewrite Forall_forall in Hl. specialize (Hl l Hin). unfold valid_label in Hl.
    apply andb_true_iff in Hl as [_ Hl]. apply forallb_true_iff in Hl. rewrite Forall_forall in Hl. by rewrite (Hl c Hcl). }
  rewrite Hlc in H. by destruct (is_break (lower_ascii c)).
Qed.

(** The reviewed request cannot be extended.  The bytes of an accepted plan are
    exactly as many as its disclosed budget, start with the reviewed method and target,
    and hold the sixteen line-break bytes of the fixed seven lines and nothing more: no
    configured name or target can add a header or a second request. *)
Theorem https_request_exact b c t p :
  New b c t = Ok p →
  ∃ r, RequestBytes p = Ok r ∧ slen r = MaxRequestBytes (dBudget (review p)) ∧
    breaks (String.list_ascii_of_string r) = 16 ∧
    ∃ rest, r = SelectionMethod (cSelection c) +:+ " " +:+ RequestTarget c +:+ " HTTP/1.1" +:+ crlf +:+ rest.
Proof.
  intros (ps & member & _ & _ & Hc & _ & _ & ->)%https_new_iff. exists (requestBytes (pinned c)).
  split; [|split; [done|split]].
  - unfold RequestBytes. cbn [built review dProfile]. by rewrite bool_decide_eq_true_2.
  - unfold requestBytes. cbn [pinned cSelection RequestTarget ServerName].
    rewrite !list_ascii_app, !breaks_app, (target_breaks _ (hc_target _ Hc)), (server_breaks _ (hc_server _ Hc)).
    assert (Hm : breaks (String.list_ascii_of_string (SelectionMethod (cSelection c))) = 0).
    { pose proof (hc_selection _ Hc) as Hs. unfold ValidateHTTPSSelection in Hs. apply guard_ok in Hs as [Hs _].
      rewrite !orb_false_iff, !andb_false_iff in Hs. destruct Hs as (((_ & [Hm|Hm]) & _) & _);
        apply negb_false_iff, bool_decide_eq_true in Hm; by rewrite Hm. }
    rewrite Hm. vm_compute. reflexivity.
  - eexists. reflexivity.
Qed.

Example targets :
  map validRequestTarget
    ["/"; "/a%20b/%2f?key=%23value&x=one+two"; "/check?"; "/caf%C3%A9"; "//elsewhere.test/"; "/x#fragment"; "/x y";
     "/x%0d%0aHeader:bad"; "/%5C"; "/x?bad=%xx"; "/%"] =
  [true; true; true; true; false; false; false; false; false; false; false].
Proof. vm_compute. reflexivity. Qed.

Definition home_binding (prefixes : list string) : Binding := mkBinding sensor prefixes (V4 3232235786).
Definition home_check (name : string) : Configuration :=
  mkConfiguration (mkHTTPSSelection "web" "endpoint" "request" FamilyIPv4 "HEAD" 204)
    (ResolverWire.Wire.mkAddrPort (V4 3325256724) 443) name "/check?mode=1" ExactEndpoint.
Definition home_prefixes : list string := ["192.168.1.0/24"; "192.168.0.0/16"].
Definition plan_of (r : result plan_err Plan) : Plan :=
  match r with
  | Ok p => p
  | Err _ => mkPlan (mkDisclosure "" (home_binding []) (home_check "") false fixedPolicy (planBudget 0) zeroTime zeroTime [])
  end.

Lemma https_home_plan_new :
  New (home_binding home_prefixes) (home_check "status.example") (Quality.clock 100) =
  Ok (plan_of (New (home_binding home_prefixes) (home_check "status.example") (Quality.clock 100))).
Proof. vm_compute. reflexivity. Qed.

Lemma https_same_selection_witness :
  SameSelection (plan_of (New (home_binding home_prefixes) (home_check "status.example") (Quality.clock 100)))
    (plan_of (New (home_binding (reverse home_prefixes)) (home_check "Status.Example") (Quality.clock 300))) = true.
Proof.
  apply (https_same_selection (home_binding home_prefixes) (home_check "status.example") (Quality.clock 100) _
    (home_binding (reverse home_prefixes)) (home_check "Status.Example") (Quality.clock 300)).
  - vm_compute. reflexivity.
  - vm_compute. reflexivity.
  - split_and!; try (vm_compute; reflexivity). symmetry. apply reverse_Permutation.
Defined.

Lemma https_request_exact_witness :
  ∃ r, RequestBytes (plan_of (New (home_binding home_prefixes) (home_check "status.example") (Quality.clock 100))) = Ok r ∧
    breaks (String.list_ascii_of_string r) = 16.
Proof.
  destruct (https_request_exact _ _ _ _ https_home_plan_new) as (r & Hr & _ & Hb & _). exists r. split; [exact Hr|exact Hb].
Defined.

(** The request of the unit test, byte by byte. *)
Example request_bytes :
  requestBytes (home_check "status.example") =
  "HEAD /check?mode=1 HTTP/1.1" +:+ crlf +:+ "Host: status.example" +:+ crlf +:+
  "User-Agent: CozySOC-Network-Check/1" +:+ crlf +:+ "Connection: close" +:+ crlf +:+ "Accept: */*" +:+ crlf +:+
  "Accept-Encoding: identity" +:+ crlf +:+ "Cache-Control: no-store" +:+ crlf +:+ crlf.
Proof. vm_compute. reflexivity. Qed.

End HTTPSPlan.
