(* ===== verification/HTTPSRun.v ===== *)
(** * The HTTPS run

    [httpsrun/model.go], [measurement.go] and [history.go], and the instance of
    [RunPackage] that makes the run control of [RunControl] the one of
    [httpsrun/control.go], where a timeout the executor measured is evidence and not a
    cancellation.  The theorems are those of the resolver run: an honest run is never
    locked by its own audit check, and what was audited can always be described. *)

From Stdlib Require Import Ascii.
From S2P Require Import Prelude Regex GoTime Latest Retained NetAddr.
From S2P Require Import RunControl Quality ResolverQuality HTTPSQuality HTTPSPlan.

Module HTTPSRun.
Import Quality HTTPS.

Definition Profile : string := HTTPSPlan.Profile.
Definition EventSchemaVersion : Z := 1.
Definition OperationTimeout : Duration := 8 * Second.
Definition AuditTimeout : Duration := Second.

Definition runPattern : regex := hex_regex 32.

Definition validID (s : string) : bool :=
  (0 <? slen s) && (slen s <=? 128) && MatchString token_regex s.

Record Selection := mkSelection {
  sPlan : HTTPSPlan.Plan;
  RouteObservedAt : Time;
  RouteFreshUntil : Time;
}.

Record Measurement := mkMeasurement {
  aStartedAt : Time;
  aCompletedAt : Time;
  aExchange : HTTPSExchange;
  aRequest : HTTPSRequestState;
  aGap : GapReason;
  aStage : HTTPSStage;
  aStatusCode : Z;
  ResponseTimeNanoseconds : option Z;
}.

Record Event := mkEvent {
  SchemaVersion : Z;
  RunID : string;
  State : string;
  Outcome : string;
  Reason : string;
  At : Time;
  eProfile : string;
  eSelection : HTTPSSelection;
  eObserver : Observer;
  eMeasurement : option Measurement;
}.

#[local] Existing Instance HTTPSPlan.HTTPSPlan_eq_dec.
#[export] Instance HTTPSRun_Selection_eq_dec : EqDecision Selection.
Proof. solve_decision. Defined.

(** ** Measurements *)

(** [copySample] makes the pointers of a sample its own; the values are the same. *)
Definition copySample (s : option HTTPSMeasurement) : option HTTPSMeasurement := s.

Definition auditMeasurement (s : option HTTPSMeasurement) : option Measurement :=
  match copySample s with
  | None => None
  | Some s =>
      Some (mkMeasurement (UTC (Round0 (StartedAt s))) (UTC (Round0 (CompletedAt s))) (Exchange s) (Request s)
              (Gap s) (Stage s) (StatusCode s) (ResponseTime s))
  end.

(** [Measurement.sample] *)
Definition sample (m : Measurement) (id : string) (s : HTTPSSelection) (o : Observer) : HTTPSMeasurement :=
  mkHTTPSMeasurement id s o (aStartedAt m) (aCompletedAt m) (aStage m) (aExchange m) (aRequest m) (aGap m)
    (aStatusCode m) (ResponseTimeNanoseconds m).

Definition complete (m : HTTPSMeasurement) : bool :=
  (Exchange m == HTTPSResponseReceived) || (Exchange m == HTTPSTimeout).

(** The snapshot of one measurement as seen at a time. *)
Definition single (m : HTTPSMeasurement) (now : Time) : HTTPSSnapshot :=
  mkHTTPSSnapshot (MeasuredBy m) now (StartedAt m) Second [HTTPS.Selection m] [m].

Definition validateMeasurement (m : HTTPSMeasurement) (now : Time) : bool :=
  if negb (validTime (StartedAt m)) || negb (validTime (CompletedAt m)) ||
     (MaxCheckTime <? Sub (CompletedAt m) (StartedAt m))
  then false else
  if (Exchange m == HTTPSResponseReceived) &&
     match ResponseTime m with None => true | Some l => OperationTimeout <=? l end
  then false else
  is_ok (ValidateHTTPSSnapshot (single m now)).

Definition zeroMeasurement : HTTPSMeasurement :=
  mkHTTPSMeasurement "" (mkHTTPSSelection "" "" "" "" "" 0) (mkObserver "" "" "" 0) zeroTime zeroTime "" "" "" "" 0 None.

Definition validateSample (s : HTTPSMeasurement) (executionErr : option exec_err) (selection : Selection)
    (id : string) (started returned expires : Time) : option (option HTTPSMeasurement) :=
  if s == zeroMeasurement then
    match executionErr with Some _ => Some None | None => None end
  else
    let d := HTTPSPlan.review (sPlan selection) in
    if (ID s != id) || (HTTPS.Selection s != HTTPSPlan.cSelection (HTTPSPlan.dConfiguration d)) ||
       (MeasuredBy s != HTTPSPlan.bObserver (HTTPSPlan.dBinding d)) || Before (StartedAt s) started ||
       Before (StartedAt s) (RouteObservedAt selection) || negb (Before (StartedAt s) expires) ||
       (complete s && negb (Before (CompletedAt s) expires)) ||
       (bool_decide (executionErr = None) && negb (complete s)) || negb (validateMeasurement s returned)
    then None
    else Some (copySample (Some s)).

(** ** Audit events *)

Definition event_sample (e : Event) (m : Measurement) : HTTPSMeasurement :=
  sample m (RunID e) (eSelection e) (eObserver e).

Definition ValidateEvent (e : Event) : bool :=
  if negb (SchemaVersion e =? EventSchemaVersion) || negb (MatchString runPattern (RunID e)) ||
     (eProfile e != Profile) || negb (validTime (At e))
  then false else
  if match eMeasurement e with
     | Some m =>
         let m := event_sample e m in
         (State e != "finished") ||
         ((Outcome e != "completed") && (Outcome e != "failed") && (Outcome e != "canceled")) ||
         negb (validateMeasurement m (At e)) || ((Outcome e == "completed") && negb (complete m))
     | None => false
     end
  then false else
  let snapshot :=
    match eMeasurement e with
    | Some m =>
        let m := event_sample e m in
        mkHTTPSSnapshot (eObserver e) (At e) (StartedAt m) Second [eSelection e] [m]
    | None => mkHTTPSSnapshot (eObserver e) (At e) (At e) Second [eSelection e] []
    end in
  if negb (is_ok (ValidateHTTPSSnapshot snapshot)) then false else
  if (State e == "authorized") || (State e == "admitted") then
    (Outcome e == "") && (Reason e == "") && negb (is_some (eMeasurement e))
  else if State e == "finished" then
    if Outcome e == "completed" then (Reason e == "") && is_some (eMeasurement e)
    else if Outcome e == "blocked" then
      negb (is_some (eMeasurement e)) &&
      ((Reason e == "preflight-unavailable") || (Reason e == "selection-changed") || (Reason e == "review-expired"))
    else if Outcome e == "canceled" then Reason e == "canceled"
    else if Outcome e == "failed" then
      (Reason e == "execution-error") || ((Reason e == "measurement-invalid") && negb (is_some (eMeasurement e)))
    else if Outcome e == "indeterminate" then (Reason e == "execution-panic") && negb (is_some (eMeasurement e))
    else false
  else false.

Definition normalize (s : Selection) (id : string) (now : Time) : option Selection :=
  let d := HTTPSPlan.review (sPlan s) in
  if negb (HTTPSPlan.Current (sPlan s) now) ||
     (SelectionID (HTTPSPlan.cSelection (HTTPSPlan.dConfiguration d)) != id) ||
     negb (validTime (RouteObservedAt s)) || After (RouteObservedAt s) (HTTPSPlan.CreatedAt d) ||
     negb (Equal (RouteFreshUntil s) (Add (RouteObservedAt s) HTTPSPlan.ReviewLifetime)) ||
     negb (After (RouteFreshUntil s) now)
  then None else Some s.

(** ** Retained runs *)

Record HistoricalAssessment := mkHistoricalAssessment {
  hState : string;
  hConfidence : string;
  hSummary : string;
  hNextStep : string;
  hExpectationMatched : option bool;
}.

Record RetainedRun := mkRetainedRun {
  rRunID : string;
  rProfile : string;
  rSchemaVersion : Z;
  rSelection : HTTPSSelection;
  rObserver : Observer;
  LastAuditAt : Time;
  AuthorizationRetained : bool;
  AdmissionRetained : bool;
  TerminalRetained : bool;
  rOutcome : string;
  rReason : string;
  rMeasurement : option Measurement;
  Assessment : HistoricalAssessment;
}.

(** An event of the same run as [first], valid and not from the future. *)
Definition same_run (first : Event) (asOf : Time) (e : Event) : bool :=
  negb (negb (ValidateEvent e) || After (At e) asOf || (RunID e != RunID first) ||
        negb (SchemaVersion e =? SchemaVersion first) || (eProfile e != eProfile first) ||
        (eSelection e != eSelection first) || (eObserver e != eObserver first)).

Lemma https_same_run first asOf e :
  same_run first asOf e = true ↔
  ValidateEvent e = true ∧ After (At e) asOf = false ∧ RunID e = RunID first ∧
  SchemaVersion e = SchemaVersion first ∧ eProfile e = eProfile first ∧ eSelection e = eSelection first ∧
  eObserver e = eObserver first.
Proof.
  unfold same_run. rewrite negb_true_iff, !orb_false_iff, !negb_false_iff, !bool_decide_eq_true, !Z.eqb_eq.
  naive_solver.
Qed.

#[export] Instance https_retained : RetainedEvent Event.
Proof.
  refine {| phase := State; at_time := At; accepted := same_run |}.
  intros first first' asOf e. rewrite !https_same_run. intuition congruence.
Defined.

Definition unknown_assessment (summary : string) : HistoricalAssessment :=
  mkHistoricalAssessment "unknown" "unknown" summary
    "Inspect retained evidence without repeating traffic. Missing records do not prove that nothing was sent." None.

(** The assessment of a measurement, at the end of the original sample. *)
Definition assess_sample (m : HTTPSMeasurement) : result unit HistoricalAssessment :=
  match AssessHTTPS (single m (CompletedAt m)) with
  | Ok report =>
      match Checks report with
      | [c] =>
          Ok (mkHistoricalAssessment (CheckResult c) (CheckConfidence c) ("Recorded sample: " +:+ Summary c)
                ("Compare evidence from the same time; this does not establish current connectivity or security. "
                 +:+ NextStep c) (ExpectationMatched c))
      | _ => Err tt
      end
  | Err _ => Err tt
  end.

(** What follows the two loops. *)
Definition describeRun (first : Event) (phases : gmap string Event) (latest : Time) : result unit RetainedRun :=
  let auth := phases !! "authorized" in
  let admission := phases !! "admitted" in
  let terminal := phases !! "finished" in
  let out outcome reason m a :=
    mkRetainedRun (RunID first) (eProfile first) (SchemaVersion first) (eSelection first) (eObserver first)
      (UTC (Round0 latest)) (is_some auth) (is_some admission) (is_some terminal) outcome reason m a in
  match terminal with
  | None =>
      Ok (out "unknown" "" None
            (unknown_assessment "No terminal audit is retained for this run; its outcome is unknown."))
  | Some t =>
      match eMeasurement t with
      | None =>
          Ok (out (Outcome t) (Reason t) None
                (unknown_assessment "The retained terminal audit contains no usable HTTPS measurement."))
      | Some tm =>
          let m := sample tm (RunID first) (eSelection first) (eObserver first) in
          guard? match auth with Some a => Before (StartedAt m) (At a) | None => false end ||
                 match admission with Some a => Before (StartedAt m) (At a) | None => false end
          else tt in
          match auditMeasurement (Some m) with
          | None => Err tt
          | Some am =>
              let? a := assess_sample (sample am (RunID first) (eSelection first) (eObserver first)) in
              Ok (out (Outcome t) (Reason t) (Some am) a)
          end
      end
  end.

Definition DescribeRetainedRun (events : list Event) (asOf : Time) : result unit RetainedRun :=
  let? (first, phases, latest) := retain events asOf in
  describeRun first phases latest.

(** ** The package *)

(** The event [record] builds. *)
Definition makeEvent (rid : string) (s : Selection) (at_ : Time) (state outcome reason : string)
    (measured : option HTTPSMeasurement) : Event :=
  let d := HTTPSPlan.review (sPlan s) in
  mkEvent EventSchemaVersion rid state outcome reason at_ Profile
    (HTTPSPlan.cSelection (HTTPSPlan.dConfiguration d)) (HTTPSPlan.bObserver (HTTPSPlan.dBinding d))
    (auditMeasurement measured).

Definition overlong (start now : Time) : bool :=
  (OperationTimeout <=? Sub now start) || (OperationTimeout <=? Sub (Round0 now) (Round0 start)).

(** A phase timeout is evidence: a deadline the executor reported with a measured timeout
    completes the run. *)
Definition deadlineIsEvidence (measured : option HTTPSMeasurement) : bool :=
  match measured with Some m => Exchange m == HTTPSTimeout | None => false end.

Definition httpsPackage : RunPackage := {|
  RunControl.Target := string;
  RunControl.Selection := Selection;
  RunControl.Sample := HTTPSMeasurement;
  RunControl.Event := Event;
  RunControl.Selection_eq := HTTPSRun_Selection_eq_dec;
  RunControl.target_ok := validID;
  RunControl.clock_ok := λ now, validTime now && validTime (Add now RunInterval);
  RunControl.overlong := overlong;
  RunControl.normalize := normalize;
  RunControl.evidence_at := RouteObservedAt;
  RunControl.plan_expires := λ s, HTTPSPlan.ExpiresAt (HTTPSPlan.review (sPlan s));
  RunControl.route_fresh_until := RouteFreshUntil;
  RunControl.selection_target := λ s,
    SelectionID (HTTPSPlan.cSelection (HTTPSPlan.dConfiguration (HTTPSPlan.review (sPlan s))));
  RunControl.same_selection := λ a b, HTTPSPlan.SameSelection (sPlan a) (sPlan b);
  RunControl.make_event := makeEvent;
  RunControl.event_valid := ValidateEvent;
  RunControl.event_state := State;
  RunControl.event_outcome := Outcome;
  RunControl.event_run := RunID;
  RunControl.validate_sample := validateSample;
  RunControl.deadline_is_evidence := deadlineIsEvidence;
  RunControl.event_state_make := λ _ _ _ _ _ _ _, eq_refl;
  RunControl.event_outcome_make := λ _ _ _ _ _ _ _, eq_refl;
  RunControl.event_run_make := λ _ _ _ _ _ _ _, eq_refl;
|}.

(** The operations of [httpsrun/control.go]. *)
Definition NewControl := @RunControl.NewControl httpsPackage.
Definition Prepare := @RunControl.Prepare httpsPackage.
Definition Run := @RunControl.Run httpsPackage.
Definition record := @RunControl.record httpsPackage.
Definition Close := @RunControl.Close httpsPackage.
Definition Shutdown := @RunControl.Shutdown httpsPackage.
Definition Discard := @RunControl.Discard httpsPackage.

(** ** What a snapshot of one measurement asserts *)

Lemma https_single_valid obs sel m now :
  canonical now → canonical (StartedAt m) → canonical (CompletedAt m) →
  ValidateHTTPSSnapshot (mkHTTPSSnapshot obs now (StartedAt m) Second [sel] [m]) = Ok tt ↔
  observer_ok obs ∧ is_ok (ValidateHTTPSSelection sel) = true ∧ HTTPS.Selection m = sel ∧
  MeasuredBy m = obs ∧ validToken (ID m) = true ∧ window_ok (StartedAt m) (CompletedAt m) now ∧
  validateHTTPSMeasurement m = Ok tt.
Proof.
  intros Hn Hs Hc. rewrite https_validate_iff. split.
  - intros [Hctx Hsel _ Hev _ _]. apply Forall_inv in Hsel. apply Forall_inv in Hev. unfold context_ok in Hctx.
    unfold evidence_ok in Hev. cbn [SnapshotObserver AsOf WindowStart Freshness Selections Measurements] in *.
    destruct Hev as (Hin & Hby & Hid & H1 & H2 & H3 & H4 & H5 & Hv). apply list_elem_of_singleton in Hin.
    rewrite Before_wall in H3 by auto. rewrite Before_wall in H4 by auto.
    rewrite After_wall in H5 by auto. unfold Resolver.resolverTime in *. rewrite validTime_eq in H1.
    rewrite validTime_eq in H2.
    apply negb_true_iff in Hctx. rewrite Sub_wall, After_wall, !validTime_eq, wall_Add in Hctx by auto.
    unfold observer_ok, window_ok. go_bool. split_and!; try done; try lia.
    apply (saturate_le_iff _ MaxWindow); [split; by vm_compute|done].
  - intros ([Ho Hi] & Hsel & Heq & Hby & Hid & Hw & Hv). destruct (window_int64 _ _ _ Hw) as [Hw1 Hw2].
    destruct Hw as (Hw3 & Hw4 & Hw5 & Hw6).
    constructor; cbn [SnapshotObserver AsOf WindowStart Freshness Selections Measurements].
    + unfold context_ok, Resolver.resolverTime. cbn [SnapshotObserver AsOf WindowStart Freshness Selections Measurements].
      rewrite Sub_wall, After_wall, !validTime_eq, wall_Add, Ho, Hw2, Hw3, Hw4 by auto.
      assert (int64_saturate (wall now - wall (StartedAt m)) <= MaxWindow).
      { apply saturate_le_iff; [split; by vm_compute|lia]. }
      rewrite (proj2 (Z.ltb_ge 2147483647 _)) by done.
      rewrite (proj2 (Z.ltb_ge (wall now) _)) by lia. rewrite (proj2 (Z.ltb_ge MaxWindow _)) by done. done.
    + by apply Forall_singleton.
    + apply NoDup_singleton.
    + apply Forall_singleton. unfold evidence_ok, Resolver.resolverTime.
      cbn [SnapshotObserver AsOf WindowStart Freshness Selections Measurements].
      rewrite !Before_wall, After_wall, !validTime_eq by auto. rewrite Heq.
      split_and!; try done; try (apply Z.ltb_ge; lia). apply list_elem_of_here.
    + apply NoDup_singleton.
    + apply NoDup_singleton.
Qed.

(** ** Audited samples stay valid *)

(** The limits [validateMeasurement] checks before the snapshot. *)
Definition bounds (m : HTTPSMeasurement) : bool :=
  negb (negb (validTime (StartedAt m)) || negb (validTime (CompletedAt m)) ||
        (MaxCheckTime <? Sub (CompletedAt m) (StartedAt m))) &&
  negb ((Exchange m == HTTPSResponseReceived) &&
        match ResponseTime m with None => true | Some l => OperationTimeout <=? l end).

Lemma https_validateMeasurement_split m now :
  validateMeasurement m now = true ↔ bounds m = true ∧ ValidateHTTPSSnapshot (single m now) = Ok tt.
Proof.
  unfold validateMeasurement, bounds. rewrite !if_false_iff, is_ok_true, !andb_true_iff, !negb_true_iff.
  assert ((∃ u, ValidateHTTPSSnapshot (single m now) = Ok u) ↔ ValidateHTTPSSnapshot (single m now) = Ok tt) as ->.
  { split; [intros [[] ?]; done|eauto]. }
  tauto.
Qed.

(** A sample as the audit carries it: under the identity of the event, without
    monotonic readings. *)
Definition restamp (s : HTTPSMeasurement) (id : string) (sel : HTTPSSelection) (o : Observer) : HTTPSMeasurement :=
  mkHTTPSMeasurement id sel o (UTC (StartedAt s)) (UTC (CompletedAt s)) (Stage s) (Exchange s) (Request s)
    (Gap s) (StatusCode s) (ResponseTime s).

Lemma https_restamp_measurement s id sel o :
  canonical (StartedAt s) → canonical (CompletedAt s) →
  validateHTTPSMeasurement (restamp s id sel o) = validateHTTPSMeasurement s.
Proof.
  intros H1 H2. unfold validateHTTPSMeasurement, failure_stage, restamp.
  cbn [Request Exchange Stage StatusCode ResponseTime Gap StartedAt CompletedAt].
  rewrite !Sub_wall, !After_wall by auto using canonical_UTC. done.
Qed.

Lemma https_restamp_bounds s id sel o :
  canonical (StartedAt s) → canonical (CompletedAt s) →
  bounds s = true → bounds (restamp s id sel o) = true.
Proof.
  intros H1 H2. unfold bounds, restamp.
  cbn [Request Exchange Stage StatusCode ResponseTime Gap StartedAt CompletedAt HTTPS.Selection].
  rewrite !Sub_wall, !validTime_eq by auto using canonical_UTC.
  rewrite !andb_true_iff, !negb_true_iff, !orb_false_iff. cbn [wall UTC]. naive_solver.
Qed.

Lemma https_restamp_single s now :
  canonical (StartedAt s) → canonical (CompletedAt s) → canonical now →
  ValidateHTTPSSnapshot (single s now) = Ok tt →
  ValidateHTTPSSnapshot (single (restamp s (ID s) (HTTPS.Selection s) (MeasuredBy s)) now) = Ok tt.
Proof.
  intros H1 H2 H3 Hs. apply https_single_valid in Hs as (? & ? & _ & _ & ? & Hw & Hv); [|done..].
  apply https_single_valid; [done..|]. split_and!; try done. by rewrite https_restamp_measurement.
Qed.

(** What the executor's return was accepted with is accepted again by the terminal
    audit, at its own clock reading and under the identity of the event. *)
Lemma https_restamp_valid s id sel o returned at_ :
  canonical (StartedAt s) → canonical (CompletedAt s) → canonical returned → canonical at_ →
  validateMeasurement s returned = true → wall returned <= wall at_ → in_int64 (wall at_ + Second) = true →
  wall at_ - wall (StartedAt s) <= MaxWindow →
  observer_ok o → is_ok (ValidateHTTPSSelection sel) = true → validToken id = true →
  validateMeasurement (restamp s id sel o) at_ = true.
Proof.
  intros H1 H2 H3 H4 (Hb & Hs)%https_validateMeasurement_split Hle Hat Hwin Ho Hsel Hid.
  apply https_validateMeasurement_split. split; [by apply https_restamp_bounds|].
  apply https_single_valid in Hs as (_ & _ & _ & _ & _ & Hw & Hv); [|done..].
  apply https_single_valid; [done..|]. split_and!; try done; [|by rewrite https_restamp_measurement].
  by apply (window_later _ _ returned).
Qed.

(** What an accepted sample is. *)
Lemma https_sample_inv s err sel id started returned expires measured :
  validateSample s err sel id started returned expires = Some measured →
  (measured = None ∧ err ≠ None) ∨
  (measured = Some s ∧ (err = None → complete s = true) ∧ validateMeasurement s returned = true).
Proof.
  unfold validateSample. destruct (bool_decide (s = zeroMeasurement)); [destruct err; naive_solver|].
  match goal with |- (if ?b then _ else _) = _ → _ => destruct b eqn:E; [done|] end.
  intros [= <-]. right. apply orb_false_iff in E as [E Hv]. apply orb_false_iff in E as [_ Hc].
  split_and!; [done| |by apply negb_false_iff].
  intros ->. by rewrite bool_decide_eq_true_2, andb_true_l, negb_false_iff in Hc by done.
Qed.

(** The arguments [Run] calls [record] with: the steps that carry no measurement, and
    the outcomes decided after an accepted sample of an executor that reports wall-clock
    times, audited within a day of the start of the sample. *)
Inductive reported (at_ : Time) : string → string → string → option HTTPSMeasurement → Prop :=
| reported_plain st o r : (st, o, r) ∈ plain_reports → reported at_ st o r None
| reported_sample s err fresh id started returned expires measured o r :
    canonical (StartedAt s) → canonical (CompletedAt s) → canonical returned →
    wall returned <= wall at_ → wall at_ - wall (StartedAt s) <= MaxWindow →
    validateSample s err fresh id started returned expires = Some measured →
    (o = "canceled" ∧ r = "canceled") ∨ (o = "failed" ∧ r = "execution-error" ∧ err ≠ None) ∨
    (o = "completed" ∧ r = "" ∧ (err = None ∨ deadlineIsEvidence measured = true)) →
    reported at_ "finished" o r measured.

Lemma https_empty_single o now sel :
  validTime now = true → in_int64 (wall now + Second) = true → canonical now →
  observer_ok o → is_ok (ValidateHTTPSSelection sel) = true →
  ValidateHTTPSSnapshot (mkHTTPSSnapshot o now now Second [sel] []) = Ok tt.
Proof.
  intros Hv Hl Hc [Ho Hi] Hs. apply https_validate_iff.
  constructor; cbn [SnapshotObserver AsOf WindowStart Freshness Selections Measurements].
  - unfold context_ok, Resolver.resolverTime. cbn [SnapshotObserver AsOf WindowStart Freshness Selections Measurements].
    rewrite Hv, Ho, After_wall, Sub_wall, Z.ltb_irrefl, Z.sub_diag, validTime_eq, wall_Add, Hl by auto.
    by rewrite (proj2 (Z.ltb_ge 2147483647 _)) by done.
  - by apply Forall_singleton.
  - apply NoDup_singleton.
  - constructor.
  - constructor.
  - constructor.
Qed.

(** What a plan built by [New] gives the audit. *)
Lemma https_built_auditable b c t p :
  HTTPSPlan.New b c t = Ok p →
  let d := HTTPSPlan.review p in
  is_ok (ValidateHTTPSSelection (HTTPSPlan.cSelection (HTTPSPlan.dConfiguration d))) = true ∧
  observer_ok (HTTPSPlan.bObserver (HTTPSPlan.dBinding d)).
Proof.
  intros (ps & member & _ & _ & Hc & Ho & _ & ->)%HTTPSPlan.https_new_iff. cbn. destruct Hc as [->]. done.
Qed.

(** What a HTTPS run reports is auditable.  Every event [Run] builds for a plan
    made by [New], at an accepted clock reading not before the executor returned, passes
    the audit validator: an honest run is never locked by its own audit check. *)
Theorem https_audit_valid b c t s run at_ st o r m :
  HTTPSPlan.New b c t = Ok (sPlan s) → String.length run = 16%nat →
  canonical at_ → RunControl.clock_ok (RunPackage:=httpsPackage) at_ = true → reported at_ st o r m →
  ValidateEvent (makeEvent (EncodeToString run) s at_ st o r m) = true.
Proof.
  intros (Hsel & Ho)%https_built_auditable Hrun Hc Hclock Hrep.
  cbn in Hclock. apply andb_true_iff in Hclock as [Hv Hv2].
  assert (Hs : in_int64 (wall at_ + Second) = true).
  { rewrite validTime_eq in Hv. rewrite validTime_eq, wall_Add in Hv2.
    unfold in_int64, RunInterval, Minute, Second in *. go_bool. lia. }
  assert (Hid : MatchString runPattern (EncodeToString run) = true) by by apply (EncodeToString_hex run 16).
  unfold ValidateEvent, makeEvent.
  cbn [SchemaVersion RunID eProfile At eSelection eObserver eMeasurement State Outcome Reason].
  rewrite Hid, Hv. rewrite (bool_decide_eq_true_2 (Profile = Profile)) by done.
  cbn [negb orb Z.eqb EventSchemaVersion].
  destruct Hrep as [st o r Hin|sm err fresh id started returned expires measured o r H1 H2 H3 Hle Hwin Hval Hor].
  - cbn [auditMeasurement copySample is_some].
    rewrite (https_empty_single _ _ _ Hv Hs Hc Ho Hsel). cbn [is_ok negb]. unfold plain_reports in Hin.
    repeat (apply elem_of_cons in Hin as [[= -> -> ->]|Hin]; [reflexivity|]). by apply elem_of_nil in Hin.
  - apply https_sample_inv in Hval as [[-> Herr]|(-> & Hcomp & Hval)].
    + cbn [auditMeasurement copySample is_some]. rewrite (https_empty_single _ _ _ Hv Hs Hc Ho Hsel). cbn [is_ok negb].
      destruct Hor as [[-> ->]|[(-> & -> & _)|(-> & -> & [->|Hd])]]; [reflexivity..|done|done].
    + cbn [auditMeasurement copySample is_some]. unfold event_sample, sample.
      cbn [RunID eSelection eObserver aStartedAt aCompletedAt aExchange aRequest aGap aStage aStatusCode ResponseTimeNanoseconds].
      change (UTC (Round0 ?t)) with (UTC t).
      match goal with |- context [mkHTTPSMeasurement ?i ?sl ?ob _ _ _ _ _ _ _ _] => fold (restamp sm i sl ob) end.
      pose proof (https_restamp_valid sm _ _ _ returned at_ H1 H2 H3 Hc Hval Hle Hs Hwin Ho Hsel (hex_token _ Hid)) as Hre.
      rewrite Hre. apply https_validateMeasurement_split in Hre as [_ Hre]. unfold single in Hre. cbn [MeasuredBy HTTPS.Selection restamp] in Hre.
      fold (restamp sm (EncodeToString run) (HTTPSPlan.cSelection (HTTPSPlan.dConfiguration (HTTPSPlan.review (sPlan s))))
        (HTTPSPlan.bObserver (HTTPSPlan.dBinding (HTTPSPlan.review (sPlan s))))) in Hre.
      assert (Hcm : complete (restamp sm (EncodeToString run) (HTTPSPlan.cSelection (HTTPSPlan.dConfiguration (HTTPSPlan.review (sPlan s))))
        (HTTPSPlan.bObserver (HTTPSPlan.dBinding (HTTPSPlan.review (sPlan s))))) = complete sm) by done.
      rewrite Hre, Hcm. cbn [is_ok negb].
      destruct Hor as [[-> ->]|[(-> & -> & Hn)|(-> & -> & Hd)]]; [reflexivity..|].
      assert (complete sm = true) as ->; [|reflexivity].
      destruct Hd as [Hn|Hd]; [by apply Hcomp|]. unfold complete. simpl in Hd. by rewrite Hd, orb_true_r.
Qed.

(** ** Retained runs *)

(** The description of a retained HTTPS run does not depend on the order in which
    its events are read. *)
Theorem https_describe_order_independent events events' asOf :
  Forall (λ e, canonical (At e)) events → events ≡ₚ events' →
  DescribeRetainedRun events asOf = DescribeRetainedRun events' asOf.
Proof.
  intros Hc Hp. apply (describe_perm describeRun); [|done..].
  intros first first' phases latest latest' Hs Hl. apply https_same_run in Hs as (_ & _ & Hs).
  unfold describeRun. change (UTC (Round0 ?t)) with (UTC t). rewrite Hl.
  by destruct Hs as (-> & -> & -> & -> & ->).
Qed.

(** A response with the status the selection expects. *)
Definition matched_reply (m : HTTPSMeasurement) : Prop :=
  Exchange m = HTTPSResponseReceived ∧ StatusCode m = ExpectedStatus (HTTPS.Selection m).

(** Assessed at its own end, a valid measurement always has an assessment, which claims
    a match only for a matching status. *)
Lemma https_assess_sample_valid m now :
  canonical now → canonical (StartedAt m) → canonical (CompletedAt m) →
  ValidateHTTPSSnapshot (single m now) = Ok tt → in_int64 (wall (CompletedAt m) + Second) = true →
  ∃ a, assess_sample m = Ok a ∧ (hExpectationMatched a = Some true ↔ matched_reply m).
Proof.
  intros Hn H1 H2 Hs Hi. apply https_single_valid in Hs as (Ho & Hsel & _ & _ & Hid & Hw & Hv); [|done..].
  assert (Hs : ValidateHTTPSSnapshot (single m (CompletedAt m)) = Ok tt).
  { apply https_single_valid; [done..|]. split_and!; try done. destruct Hw as (? & ? & ? & ?).
    unfold window_ok. split_and!; (done || lia). }
  unfold assess_sample. apply https_validate_iff in Hs as Hok.
  assert (Ea : AssessHTTPS (single m (CompletedAt m)) = Ok (mkHTTPSReport (MeasuredBy m) (CompletedAt m) (StartedAt m)
    (map (check_of (single m (CompletedAt m))) [HTTPS.Selection m]) limitations)) by by apply AssessHTTPS_ok.
  rewrite Ea. cbn [Checks map]. eexists. split; [done|]. cbn [hExpectationMatched].
  unfold check_of, single, latest. cbn [Measurements foldl AsOf Freshness]. unfold latest_step. rewrite lookup_empty.
  unfold sel_key. rewrite lookup_insert_eq.
  assert (ExpectationMatched (assessHTTPSMeasurement m (CompletedAt m) Second) =
    if Exchange m == HTTPSResponseReceived then Some (StatusCode m =? ExpectedStatus (HTTPS.Selection m)) else None) as ->.
  { unfold assessHTTPSMeasurement. destruct (negb (After _ _)); [done|]. destruct (Exchange m == HTTPSNotMeasured); [done|].
    destruct (Exchange m == HTTPSIncomplete), (Exchange m == HTTPSResponseReceived); try done;
      by destruct (StatusCode m =? _). }
  unfold matched_reply. destruct (bool_decide_reflect (Exchange m = HTTPSResponseReceived)).
  - split; [by intros [= ?%Z.eqb_eq]|]. intros [_ ->]. by rewrite Z.eqb_refl.
  - naive_solver.
Qed.

(** Events as they are decoded from storage, without monotonic readings. *)
Definition stored_event (e : Event) : Prop :=
  canonical (At e) ∧ ∀ m, eMeasurement e = Some m → canonical (aStartedAt m) ∧ canonical (aCompletedAt m).

(** What a valid event says of its measurement. *)
Lemma https_valid_event_measurement e m :
  ValidateEvent e = true → eMeasurement e = Some m → stored_event e →
  let s := event_sample e m in
  ValidateHTTPSSnapshot (single s (At e)) = Ok tt ∧ in_int64 (wall (CompletedAt s) + Second) = true.
Proof.
  intros Hv Hm [Hc Hcm]. destruct (Hcm m Hm) as [H1 H2]. unfold ValidateEvent in Hv. rewrite Hm in Hv.
  rewrite !if_false_iff in Hv. destruct Hv as (_ & Hv & _). rewrite !orb_false_iff in Hv.
  destruct Hv as ((_ & Hv) & _). apply negb_false_iff, https_validateMeasurement_split in Hv as [_ Hv].
  split; [done|]. apply https_single_valid in Hv as (_ & _ & _ & _ & _ & Hw & _); [|done..].
  destruct Hw as (Hw1 & Hw2 & Hw3 & _). unfold in_int64, Second in *. go_bool. split_and!; lia.
Qed.

(** The sample started after the phases that precede it. *)
Definition starts_after (phases : gmap string Event) (name : string) (m : Measurement) : Prop :=
  ∀ e, phases !! name = Some e → Before (aStartedAt m) (At e) = false.

(** What the audit accepted can be described.  For stored events of one run, in phase
    order and with the measurement not before its admission, the description always
    succeeds (assessing the sample at its original end never fails); its outcome is the
    terminal one, or unknown without a terminal event; and it claims that the expectation
    was matched exactly when the retained measurement holds a matching status. *)
Theorem https_describe_total events asOf first phases latest :
  Forall stored_event events → retain events asOf = Ok (first, phases, latest) →
  (∀ t m, phases !! "finished" = Some t → eMeasurement t = Some m →
     starts_after phases "authorized" m ∧ starts_after phases "admitted" m) →
  ∃ run, DescribeRetainedRun events asOf = Ok run ∧
    rOutcome run = match phases !! "finished" with Some t => Outcome t | None => "unknown" end ∧
    (hExpectationMatched (Assessment run) = Some true ↔
     ∃ t m, phases !! "finished" = Some t ∧ eMeasurement t = Some m ∧ matched_reply (event_sample t m)).
Proof.
  intros Hst Hret Hord. unfold DescribeRetainedRun. rewrite Hret. cbn [res_bind]. unfold describeRun.
  destruct (retain_inv _ _ _ _ _ Hret) as (_ & Hacc & Hnd & Hph).
  destruct (phases !! "finished") as [t|] eqn:Et.
  2:{ eexists. split; [done|]. split; [done|]. cbn. naive_solver. }
  destruct (eMeasurement t) as [tm|] eqn:Em.
  2:{ eexists. split; [done|]. split; [done|]. cbn. naive_solver. }
  destruct (Hord t tm eq_refl Em) as [Ha Had].
  assert (Hg : ∀ name, starts_after phases name tm →
    match phases !! name with
    | Some a => Before (StartedAt (sample tm (RunID first) (eSelection first) (eObserver first))) (At a)
    | None => false end = false).
  { intros name Hs. destruct (phases !! name) as [a|] eqn:E; [|done]. by apply Hs. }
  rewrite (Hg "authorized" Ha), (Hg "admitted" Had). cbn [orb auditMeasurement copySample].
  rewrite Hph in Et. apply phases_of_some in Et as [Hin _]; [|done].
  rewrite Forall_forall in Hst, Hacc. pose proof (Hst t Hin) as Hs. pose proof (Hacc t Hin) as Hsr.
  apply https_same_run in Hsr as (Hv & _ & H1 & _ & _ & H2 & H3).
  destruct (https_valid_event_measurement t tm Hv Em Hs) as [Hval Hint]. destruct Hs as [Hc Hcm].
  destruct (Hcm tm Em) as [Hc1 Hc2].
  destruct (https_assess_sample_valid (restamp (event_sample t tm) (RunID t) (eSelection t) (eObserver t)) (At t))
    as (a & Hass & Hmatch); [done..|by apply https_restamp_single|done|].
  match goal with |- context [assess_sample ?s] =>
    replace s with (restamp (event_sample t tm) (RunID t) (eSelection t) (eObserver t)) end.
  2:{ unfold event_sample, sample, restamp. rewrite H1, H2, H3. done. }
  rewrite Hass. cbn [res_bind]. eexists. split; [done|]. split; [done|]. cbn [Assessment]. rewrite Hmatch.
  split; [intros Hm; by exists t, tm|]. intros (t' & tm' & [= <-] & Hm' & Hm). rewrite Em in Hm'. by injection Hm' as <-.
Qed.

(** ** Examples *)

Definition example_selection : Selection :=
  mkSelection (HTTPSPlan.plan_of (HTTPSPlan.New (HTTPSPlan.home_binding HTTPSPlan.home_prefixes)
      (HTTPSPlan.home_check "status.example") (Quality.clock 100)))
    (Quality.clock 100) (Quality.clock 130).
Definition example_run : string := String.string_of_list_ascii (replicate 16 "k"%char).
Definition example_id : string := EncodeToString example_run.
Definition example_sample : HTTPSMeasurement :=
  mkHTTPSMeasurement example_id (HTTPSPlan.cSelection (HTTPSPlan.home_check "")) Quality.sensor
    (Quality.clock 102) (Quality.clock 104) HTTPSRequest HTTPSTimeout HTTPSRequestAccepted GapNone 0 None.

Definition example_event (at_ : Time) (st o r : string) (m : option HTTPSMeasurement) : Event :=
  makeEvent example_id example_selection at_ st o r m.
Definition example_events : list Event :=
  [example_event (Quality.clock 101) "authorized" "" "" None; example_event (Quality.clock 102) "admitted" "" "" None;
   example_event (Quality.clock 105) "finished" "completed" "" (Some example_sample)].

Lemma https_audit_valid_witness :
  ValidateEvent (example_event (Quality.clock 105) "finished" "completed" "" (Some example_sample)) = true.
Proof.
  apply (https_audit_valid (HTTPSPlan.home_binding HTTPSPlan.home_prefixes) (HTTPSPlan.home_check "status.example")
    (Quality.clock 100)).
  - exact HTTPSPlan.https_home_plan_new.
  - reflexivity.
  - reflexivity.
  - vm_compute. reflexivity.
  - apply (reported_sample _ example_sample (Some ExecDeadline) example_selection example_id (Quality.clock 102) (Quality.clock 104)
      (Quality.clock 130)); try reflexivity.
    + vm_compute. discriminate.
    + vm_compute. discriminate.
    + right. right. split_and!; [reflexivity..|]. right. reflexivity.
Defined.

Lemma https_describe_order_independent_witness :
  DescribeRetainedRun example_events (Quality.clock 200) = DescribeRetainedRun (reverse example_events) (Quality.clock 200).
Proof.
  apply https_describe_order_independent.
  - repeat constructor.
  - symmetry. apply reverse_Permutation.
Defined.

Definition example_phases : gmap string Event := phases_of example_events.

Lemma https_example_stored : Forall stored_event example_events.
Proof.
  unfold example_events. rewrite !Forall_cons, Forall_nil. unfold stored_event.
  split_and!; try reflexivity; try done; intros m [= <-]; split; reflexivity.
Qed.

Lemma https_describe_total_witness :
  ∃ run, DescribeRetainedRun example_events (Quality.clock 200) = Ok run ∧ rOutcome run = "completed".
Proof.
  destruct (https_describe_total example_events (Quality.clock 200)
    (example_event (Quality.clock 101) "authorized" "" "" None) example_phases (Quality.clock 105)) as (run & Hr & Ho & _).
  - exact https_example_stored.
  - vm_compute. reflexivity.
  - intros t m Ht Hm. vm_compute in Ht. injection Ht as <-. vm_compute in Hm. injection Hm as <-.
    split; intros e He; vm_compute in He; injection He as <-; vm_compute; reflexivity.
  - exists run. split; [exact Hr|]. rewrite Ho. vm_compute. reflexivity.
Defined.

End HTTPSRun.
