(* ===== verification/Corroborate.v ===== *)
(** * Corroboration across layers

    [networkquality/corroborate.go]: evidence of the interface, the gateway, resolvers
    and HTTPS endpoints is compared when it comes from one device, interface and
    address family, is fresh, lies after the last recorded discontinuity and completed
    close together.  A conclusion describes what the compared checks show, nothing
    else. *)

From S2P Require Import Prelude Regex GoTime Latest Quality ResolverQuality HTTPSQuality.

Module Corroborate.
Import Quality.
Import Resolver (ResolverResult, ResolverAnswer, ResolverNXDOMAIN, ResolverNoData, ResolverRefused,
  ResolverServerFailure, ResolverFormatError, ResolverNotImplemented, ResolverOtherError, ResolverReferral,
  ResolverTruncated, ResolverUnclassified, resolverTime).

Definition MaxCorroborationSkew : Duration := 30 * Second.

Record CorroborationInput := mkInput {
  HTTPSDeviceID : string;
  HTTPSInput : option HTTPS.HTTPSSnapshot;
  NetworkDeviceID : string;
  ResolverDeviceID : string;
  Network : Snapshot;
  Resolvers : Resolver.ResolverSnapshot;
  Family : AddressFamily;
  MaxCompletionSkew : Duration;
}.

Record CorroborationEvidence := mkEvidence {
  HTTPSSelected : option HTTPS.HTTPSSelection;
  HTTPSOutcome : HTTPS.HTTPSResult;
  HTTPSAt : HTTPS.HTTPSStage;
  HTTPSSent : HTTPS.HTTPSRequestState;
  HTTPStatus : Z;
  DNSSelected : option Resolver.ResolverSelection;
  EvidenceLayer : Layer;
  Reference : string;
  MeasurementID : string;
  EvidenceObserver : Observer;
  EvidenceFamily : AddressFamily;
  EvidenceMethod : Method;
  EvidenceStartedAt : Time;
  EvidenceCompletedAt : Time;
  EvidenceState : State;
  EvidenceGap : GapReason;
  EvidenceAttempts : Z;
  EvidenceSuccesses : Z;
  DNSResult : ResolverResult;
  ExpectationMatched : option bool;
}.

Record Corroboration := mkCorroboration {
  DiscontinuityID : string;
  DiscontinuityAt : Time;
  DiscontinuityGap : GapReason;
  DeviceID : string;
  OutScopeID : string;
  OutInterfaceName : string;
  OutInterfaceIndex : Z;
  OutFamily : AddressFamily;
  OutAsOf : Time;
  OutSkew : Duration;
  Evidence : list CorroborationEvidence;
  Compared : list string;
  EvidenceStart : Time;
  EvidenceEnd : Time;
  Conclusion : string;
  OutConfidence : Confidence;
  OutSummary : string;
  OutNextStep : string;
  OutLimitations : list string;
}.

(** ** Validation *)

Definition invalid : string := "quality comparison context is invalid".

(** The loop over the network targets: the references of external targets. *)
Definition target_step (externalRefs : list string) (t : Target) : result string (list string) :=
  let externalRefs := if TargetLayer t == LayerExternal then TargetID t :: externalRefs else externalRefs in
  guard? (TargetLayer t == LayerDNS) || (TargetMethod t == MethodHTTPS) else invalid in
  Ok externalRefs.

Definition network_step (ids : list string) (m : Measurement) : result string (list string) :=
  guard? negb (resolverTime (StartedAt m)) || negb (resolverTime (CompletedAt m)) else invalid in
  Ok (ID m :: ids).

(** The loops over specialized evidence: an identifier must be new. *)
Definition fresh_id (ids : list string) (id : string) : result string (list string) :=
  guard? bool_decide (id ∈ ids) else invalid in Ok (id :: ids).

Definition https_context (i : CorroborationInput) : bool :=
  let a := Network i in
  let b := Resolvers i in
  match HTTPSInput i with
  | None => HTTPSDeviceID i == ""
  | Some h =>
      negb ((HTTPSDeviceID i != NetworkDeviceID i) ||
        (ScopeID (HTTPS.SnapshotObserver h) != ScopeID (SnapshotObserver a)) ||
        (InterfaceName (HTTPS.SnapshotObserver h) != InterfaceName (SnapshotObserver a)) ||
        negb (InterfaceIndex (HTTPS.SnapshotObserver h) =? InterfaceIndex (SnapshotObserver a)) ||
        negb (Equal (HTTPS.AsOf h) (AsOf a)) || negb (Equal (HTTPS.WindowStart h) (WindowStart a)) ||
        negb (HTTPS.Freshness h =? Freshness a) ||
        (MaxTargets <? llen (Targets a) + llen (Resolver.Selections b) + llen (HTTPS.Selections h)) ||
        (MaxMeasurements <? llen (Measurements a) + llen (Resolver.Measurements b) + llen (HTTPS.Measurements h)) ||
        negb (is_ok (HTTPS.ValidateHTTPSSnapshot h)))
  end.

Definition https_selections (i : CorroborationInput) : list HTTPS.HTTPSSelection :=
  match HTTPSInput i with Some h => HTTPS.Selections h | None => [] end.
Definition https_measurements (i : CorroborationInput) : list HTTPS.HTTPSMeasurement :=
  match HTTPSInput i with Some h => HTTPS.Measurements h | None => [] end.

Definition validateCorroboration (i : CorroborationInput) : result string unit :=
  let a := Network i in
  let b := Resolvers i in
  guard? negb (validToken (NetworkDeviceID i)) || (NetworkDeviceID i != ResolverDeviceID i) ||
         (ScopeID (SnapshotObserver a) != ScopeID (Resolver.SnapshotObserver b)) ||
         (InterfaceName (SnapshotObserver a) != InterfaceName (Resolver.SnapshotObserver b)) ||
         negb (InterfaceIndex (SnapshotObserver a) =? InterfaceIndex (Resolver.SnapshotObserver b)) ||
         negb (Equal (AsOf a) (Resolver.AsOf b)) || negb (Equal (WindowStart a) (Resolver.WindowStart b)) ||
         negb (Freshness a =? Resolver.Freshness b) ||
         ((Family i != FamilyIPv4) && (Family i != FamilyIPv6)) ||
         (MaxCompletionSkew i <? Second) || (MaxCorroborationSkew <? MaxCompletionSkew i) ||
         (MaxTargets <? llen (Targets a) + llen (Resolver.Selections b)) ||
         (MaxMeasurements <? llen (Measurements a) + llen (Resolver.Measurements b))
  else invalid in
  guard? negb (resolverTime (AsOf a)) || negb (resolverTime (WindowStart a)) else invalid in
  guard? negb (is_ok (ValidateSnapshot a)) else invalid in
  guard? negb (is_ok (Resolver.ValidateResolverSnapshot b)) else invalid in
  guard? negb (https_context i) else invalid in
  let? externalRefs := for_each target_step (Targets a) [] in
  guard? existsb (λ s, bool_decide (HTTPS.SelectionID s ∈ externalRefs)) (https_selections i) else invalid in
  let? ids := for_each network_step (Measurements a) [] in
  let? ids := for_each (λ ids m, fresh_id ids (Resolver.ID m)) (Resolver.Measurements b) ids in
  check? for_each (λ ids m, fresh_id ids (HTTPS.ID m)) (https_measurements i) ids in
  Ok tt.

(** ** Discontinuities *)

Definition consider (acc : string * Time * GapReason) (g : string * Time * GapReason) : string * Time * GapReason :=
  let '(id, at_, gap) := acc in
  let '(mid, end_, reason) := g in
  if (reason != GapSleep) && (reason != GapOffline) && (reason != GapNetworkChanged) then acc
  else if After end_ at_ || (Equal end_ at_ && string_ltb mid id) then g else acc.

Definition recorded_gaps (i : CorroborationInput) : list (string * Time * GapReason) :=
  map (λ m, (ID m, CompletedAt m, Gap m)) (Measurements (Network i)) ++
  map (λ m, (Resolver.ID m, Resolver.CompletedAt m, Resolver.Gap m)) (Resolver.Measurements (Resolvers i)) ++
  map (λ m, (HTTPS.ID m, HTTPS.CompletedAt m, HTTPS.Gap m)) (https_measurements i).

Definition latestDiscontinuity (i : CorroborationInput) : string * Time * GapReason :=
  foldl consider ("", zeroTime, "") (recorded_gaps i).

(** ** The evidence of an input *)

(** The entry of one check: none for another address family. *)
Definition network_item (family : AddressFamily) (o : Observer) (c : CheckAssessment) : list CorroborationEvidence :=
  if (TargetFamily (CheckTarget c) != family) && (TargetLayer (CheckTarget c) != LayerLink) then []
  else [mkEvidence None "" "" "" 0 None (TargetLayer (CheckTarget c)) (TargetID (CheckTarget c)) (EvidenceID c)
          o (TargetFamily (CheckTarget c)) (TargetMethod (CheckTarget c)) (CheckStartedAt c)
          (CheckCompletedAt c) (CheckState c) (CheckGap c) (CheckAttempts c) (CheckSuccesses c) "" None].

Definition network_evidence (family : AddressFamily) (r : Report) : list CorroborationEvidence :=
  flat_map (network_item family (ReportObserver r)) (Checks r).

Definition dns_item (family : AddressFamily) (o : Observer) (c : Resolver.ResolverAssessment) : list CorroborationEvidence :=
  let sel := Resolver.CheckSelection c in
  if Resolver.SelectionFamily sel != family then []
  else
    let e mid start end_ gap matched :=
      mkEvidence None "" "" "" 0 (Some sel) LayerDNS (Resolver.SelectionID sel) mid o
        (Resolver.SelectionFamily sel) MethodDNS start end_ (Resolver.CheckState c) gap 0 0
        (Resolver.CheckResult c) matched in
    match Resolver.Evidence c with
    | None => [e "" zeroTime zeroTime "" None]
    | Some m =>
        [e (Resolver.ID m) (Resolver.StartedAt m) (Resolver.CompletedAt m) (Resolver.Gap m)
           (if (Resolver.CheckResult c == ResolverAnswer) || (Resolver.CheckResult c == ResolverNXDOMAIN) ||
               (Resolver.CheckResult c == ResolverNoData)
            then Some (Resolver.CheckResult c == Resolver.Expect sel) else None)]
    end.

Definition dns_evidence (family : AddressFamily) (r : Resolver.ResolverReport) : list CorroborationEvidence :=
  flat_map (dns_item family (Resolver.ReportObserver r)) (Resolver.Checks r).

Definition https_item (family : AddressFamily) (o : Observer) (c : HTTPS.HTTPSAssessment) : list CorroborationEvidence :=
  let sel := HTTPS.CheckSelection c in
  if HTTPS.SelectionFamily sel != family then []
  else
    let e mid start end_ gap stage request status :=
      mkEvidence (Some sel) (HTTPS.CheckResult c) stage request status None LayerExternal (HTTPS.SelectionID sel) mid
        o (HTTPS.SelectionFamily sel) MethodHTTPS start end_ (HTTPS.CheckState c) gap 0 0 ""
        (HTTPS.ExpectationMatched c) in
    match HTTPS.Evidence c with
    | None => [e "" zeroTime zeroTime "" "" "" 0]
    | Some m => [e (HTTPS.ID m) (HTTPS.StartedAt m) (HTTPS.CompletedAt m) (HTTPS.Gap m) (HTTPS.Stage m)
                   (HTTPS.Request m) (HTTPS.StatusCode m)]
    end.

Definition https_evidence (family : AddressFamily) (r : HTTPS.HTTPSReport) : list CorroborationEvidence :=
  flat_map (https_item family (HTTPS.ReportObserver r)) (HTTPS.Checks r).

(** The order of [sort.Slice]. *)
Definition less (a b : CorroborationEvidence) : bool :=
  if EvidenceLayer a != EvidenceLayer b then string_ltb (EvidenceLayer a) (EvidenceLayer b)
  else string_ltb (Reference a) (Reference b).

Definition not_after (a b : CorroborationEvidence) : Prop := less b a = false.

#[export] Instance not_after_dec : RelDecision not_after.
Proof. intros a b. unfold not_after. apply _. Defined.

(** ** Comparison *)

Definition comparable (e : CorroborationEvidence) : bool :=
  (EvidenceState e == StateSucceeded) || (EvidenceState e == StateIssueObserved) ||
  ((EvidenceLayer e == LayerDNS) && (EvidenceState e == StateUnknown) && (MeasurementID e != "") &&
   ((DNSResult e == ResolverTruncated) || (DNSResult e == ResolverReferral) || (DNSResult e == ResolverUnclassified))).

(** The loop that selects the candidates. *)
Record selected := mkSelected {
  candidates : list CorroborationEvidence;
  firstEnd : Time;
  lastEnd : Time;
  layers : gset string;
}.

Definition select_step (s : selected) (e : CorroborationEvidence) : selected :=
  if negb (comparable e) then s
  else mkSelected (candidates s ++ [e])
         (if IsZero (firstEnd s) || Before (EvidenceCompletedAt e) (firstEnd s) then EvidenceCompletedAt e else firstEnd s)
         (if After (EvidenceCompletedAt e) (lastEnd s) then EvidenceCompletedAt e else lastEnd s)
         ({[EvidenceLayer e]} ∪ layers s).

Definition select (es : list CorroborationEvidence) : selected :=
  foldl select_step (mkSelected [] zeroTime zeroTime ∅) es.

(** The loop over the candidates: what the compared checks show. *)
Record facts := mkFacts {
  compared : list string;
  evidenceStart : Time;
  evidenceEnd : Time;
  linkDown : bool;
  reply : bool;
  icmpMiss : bool;
  dnsIssue : bool;
  externalMiss : bool;
  dnsReply : bool;
  icmpReply : bool;
  externalReply : bool;
  failureLayers : gset string;
  allPassed : bool;
}.

Definition no_facts : facts :=
  mkFacts [] zeroTime zeroTime false false false false false false false false ∅ true.

Definition dns_responded (e : CorroborationEvidence) : bool :=
  bool_decide (DNSResult e ∈ [ResolverAnswer; ResolverNXDOMAIN; ResolverNoData; ResolverRefused; ResolverServerFailure;
    ResolverFormatError; ResolverNotImplemented; ResolverOtherError; ResolverReferral; ResolverTruncated;
    ResolverUnclassified]).

Definition other_responded (e : CorroborationEvidence) : bool :=
  if EvidenceMethod e == MethodHTTPS then negb (HTTPStatus e =? 0) else 0 <? EvidenceSuccesses e.

Definition fact_step (f : facts) (e : CorroborationEvidence) : facts :=
  let passed := EvidenceState e == StateSucceeded in
  let issue := EvidenceState e == StateIssueObserved in
  let layer := EvidenceLayer e in
  let link := layer == LayerLink in
  let dns := layer == LayerDNS in
  let other := negb link && negb dns in
  let gateway := other && (layer == LayerGateway) in
  let external := other && (layer == LayerExternal) in
  let responded := if dns then dns_responded e else other && other_responded e in
  mkFacts (compared f ++ [MeasurementID e])
    (if IsZero (evidenceStart f) || Before (EvidenceStartedAt e) (evidenceStart f) then EvidenceStartedAt e else evidenceStart f)
    (if After (EvidenceCompletedAt e) (evidenceEnd f) then EvidenceCompletedAt e else evidenceEnd f)
    (linkDown f || (link && negb passed))
    (reply f || responded)
    (icmpMiss f || (gateway && negb passed))
    (dnsIssue f || (dns && issue))
    (externalMiss f || (external && negb passed))
    (dnsReply f || (dns && responded))
    (icmpReply f || (gateway && (0 <? EvidenceSuccesses e)))
    (externalReply f || (external && responded))
    (if issue then {[layer]} ∪ failureLayers f else failureLayers f)
    (if negb passed then false else allPassed f).

Definition facts_of (es : list CorroborationEvidence) : facts := foldl fact_step no_facts es.

Definition conclude (f : facts) : string * string * string :=
  let failures := (1 <? size (failureLayers f))%nat in
  if linkDown f && reply f then
    ("mixed-link-evidence", "The interface reported down while nearby selected checks recorded responses.",
     "Review the original timestamps and collection sources for a transition or path difference. Do not choose one observation as proof of the whole connection.")
  else if linkDown f && failures then
    ("local-link-issue-with-other-failures",
     "The interface reported down and another selected check also recorded a problem nearby in time.",
     "Inspect this device's local connection first, then compare separately authorized evidence. The observations do not prove the same cause or another device's state.")
  else if dnsIssue f && (icmpReply f || externalReply f) then
    ("dns-query-issue-with-responses",
     "A selected DNS query differed from its expectation or failed, while another layer recorded responses nearby in time.",
     "Inspect the recorded DNS result and query expectation. Resolver policy, filtering or upstream behavior remain possible, not proven causes; other replies do not prove the resolver path worked.")
  else if icmpMiss f && (dnsReply f || externalReply f) then
    ("icmp-misses-with-responses",
     "The selected ICMP target missed replies while another selected check recorded a response nearby in time.",
     "Review target and protocol behavior, including ICMP filtering, before inferring a wider connectivity failure. The target's gateway role is unverified.")
  else if externalMiss f && (dnsReply f || icmpReply f) then
    ("external-check-issue-with-responses",
     "An external target check had a problem while another selected check recorded responses nearby in time.",
     "Review that target and protocol, then corroborate with other authorized evidence. This does not diagnose an ISP outage or captive portal.")
  else if failures then
    ("problems-across-selected-layers", "Checks in more than one selected layer recorded problems nearby in time.",
     "Inspect each original result and local binding. Shared dependencies, target behavior and collection differences prevent an internet-outage or root-cause verdict.")
  else if allPassed f then
    ("selected-checks-matched", "The compared checks met their selected expectations during this evidence window.",
     "Keep the conclusion limited to these checks and their original times. This is not proof of general internet availability, security or coverage.")
  else
    ("mixed-or-limited-evidence",
     "Comparable checks provide mixed or limited evidence without a supported explanation for a wider problem.",
     "Inspect individual observations, including incomplete DNS classifications, before collecting any separately authorized follow-up.").

Definition limitations : list string :=
  ["Comparisons describe selected checks on one observing device, enrolled scope, interface and address family at the supplied assessment time.";
   "Nearby completion times do not prove simultaneous observations, the same route, independent failures or a common root cause.";
   "The ICMP target's gateway role is unverified. DNS replies, including errors, are responses rather than packet loss.";
   "No conclusion establishes internet availability, captive-portal status, DNSSEC validation, whole-home quality, security or monitoring coverage."].

(** The comparison of sorted evidence: from the candidates to the conclusion. *)
Definition compare_evidence (i : CorroborationInput) (n : Report) (es : list CorroborationEvidence) : Corroboration :=
  let out disc at_ gap cmp start end_ conclusion confidence summary next :=
    mkCorroboration disc at_ gap (NetworkDeviceID i) (ScopeID (ReportObserver n)) (InterfaceName (ReportObserver n))
      (InterfaceIndex (ReportObserver n)) (Family i) (AsOf (Network i)) (MaxCompletionSkew i) es cmp start end_
      conclusion confidence summary next limitations in
  let s := select es in
  let '(barrierID, barrier, barrierGap) := latestDiscontinuity i in
  if (size (layers s) <? 2)%nat then
    out "" zeroTime "" [] zeroTime zeroTime "insufficient-evidence" ConfidenceUnknown
      "There is not enough comparable evidence from different check layers."
      "Review the missing, stale or unmeasured checks. Any new measurement needs separate authorization."
  else if existsb (λ e, negb (IsZero barrier) && negb (After (EvidenceStartedAt e) barrier)) (candidates s) then
    out barrierID barrier barrierGap [] zeroTime zeroTime "collection-discontinuity" ConfidenceUnknown
      "A recorded sleep, offline or network-change gap separates the selected evidence."
      "Compare evidence collected after the recorded gap. Do not interpret the gap as a measured network outage."
  else if MaxCompletionSkew i <? Sub (lastEnd s) (firstEnd s) then
    out "" zeroTime "" [] zeroTime zeroTime "observations-too-far-apart" ConfidenceUnknown
      "The latest selected measurements ended too far apart for this comparison."
      "Use evidence from a comparable time window; do not substitute older successes or repeat traffic automatically."
  else
    let f := facts_of (candidates s) in
    let '(conclusion, summary, next) := conclude f in
    out "" zeroTime "" (compared f) (evidenceStart f) (evidenceEnd f) conclusion ConfidenceLimited summary next.

(** [None] is the nil dereference the resolver assessment excludes. *)
Definition Corroborate (i : CorroborationInput) : option (result string Corroboration) :=
  match validateCorroboration i with
  | Err e => Some (Err e)
  | Ok _ =>
      match Assess (Network i), Resolver.AssessResolvers (Resolvers i) with
      | Err e, _ => Some (Err e)
      | Ok _, None => None
      | Ok _, Some (Err e) => Some (Err e)
      | Ok n, Some (Ok d) =>
          let network := network_evidence (Family i) n ++ dns_evidence (Family i) d in
          match HTTPSInput i with
          | None => Some (Ok (compare_evidence i n (merge_sort not_after network)))
          | Some h =>
              match HTTPS.AssessHTTPS h with
              | Err e => Some (Err e)
              | Ok hr => Some (Ok (compare_evidence i n (merge_sort not_after (network ++ https_evidence (Family i) hr))))
              end
          end
      end
  end.

(** ** What the comparison shows *)

(** The facts are those of the compared evidence. *)
Definition link_down (e : CorroborationEvidence) : Prop :=
  EvidenceLayer e = LayerLink ∧ EvidenceState e ≠ StateSucceeded.
Definition dns_issue (e : CorroborationEvidence) : Prop :=
  EvidenceLayer e = LayerDNS ∧ EvidenceState e = StateIssueObserved.
Definition dns_reply (e : CorroborationEvidence) : Prop :=
  EvidenceLayer e = LayerDNS ∧ dns_responded e = true.
Definition icmp_miss (e : CorroborationEvidence) : Prop :=
  EvidenceLayer e = LayerGateway ∧ EvidenceState e ≠ StateSucceeded.
Definition icmp_reply (e : CorroborationEvidence) : Prop :=
  EvidenceLayer e = LayerGateway ∧ 0 < EvidenceSuccesses e.
Definition external_miss (e : CorroborationEvidence) : Prop :=
  EvidenceLayer e = LayerExternal ∧ EvidenceState e ≠ StateSucceeded.
Definition external_reply (e : CorroborationEvidence) : Prop :=
  EvidenceLayer e = LayerExternal ∧ other_responded e = true.
Definition any_reply (e : CorroborationEvidence) : Prop :=
  dns_reply e ∨ (EvidenceLayer e ≠ LayerLink ∧ EvidenceLayer e ≠ LayerDNS ∧ other_responded e = true).

Definition shows (es : list CorroborationEvidence) (P : CorroborationEvidence → Prop) : Prop := ∃ e, e ∈ es ∧ P e.

Lemma shows_snoc es e P : shows (es ++ [e]) P ↔ shows es P ∨ P e.
Proof. unfold shows. setoid_rewrite elem_of_app. setoid_rewrite list_elem_of_singleton. naive_solver. Qed.

Lemma shows_nil P : shows [] P ↔ False.
Proof. unfold shows. split; [|done]. by intros (e & []%not_elem_of_nil & _). Qed.

Record facts_ok (es : list CorroborationEvidence) (f : facts) : Prop := mkFactsOk {
  fo_compared : compared f = map MeasurementID es;
  fo_link : linkDown f = true ↔ shows es link_down;
  fo_reply : reply f = true ↔ shows es any_reply;
  fo_icmp : icmpMiss f = true ↔ shows es icmp_miss;
  fo_dns : dnsIssue f = true ↔ shows es dns_issue;
  fo_ext : externalMiss f = true ↔ shows es external_miss;
  fo_dns_reply : dnsReply f = true ↔ shows es dns_reply;
  fo_icmp_reply : icmpReply f = true ↔ shows es icmp_reply;
  fo_ext_reply : externalReply f = true ↔ shows es external_reply;
  fo_failures : ∀ l, l ∈ failureLayers f ↔ shows es (λ e, EvidenceLayer e = l ∧ EvidenceState e = StateIssueObserved);
  fo_passed : allPassed f = true ↔ Forall (λ e, EvidenceState e = StateSucceeded) es;
}.

Lemma fact_step_ok es f e : facts_ok es f → facts_ok (es ++ [e]) (fact_step f e).
Proof.
  intros []. unfold fact_step.
  assert (Hlayers : LayerLink ≠ LayerDNS ∧ LayerGateway ≠ LayerLink ∧ LayerGateway ≠ LayerDNS ∧
                    LayerExternal ≠ LayerLink ∧ LayerExternal ≠ LayerDNS) by by vm_compute.
  constructor; cbn [compared linkDown reply icmpMiss dnsIssue externalMiss dnsReply icmpReply externalReply
                    failureLayers allPassed];
    rewrite ?shows_snoc, ?orb_true_iff, ?andb_true_iff, ?negb_true_iff, ?bool_decide_eq_true,
      ?bool_decide_eq_false, ?Z.ltb_lt.
  - by rewrite map_app, fo_compared0.
  - rewrite fo_link0. done.
  - rewrite fo_reply0. unfold any_reply, dns_reply.
    destruct (bool_decide_reflect (EvidenceLayer e = LayerDNS)); [naive_solver|].
    rewrite !andb_true_iff, !negb_true_iff, bool_decide_eq_false. naive_solver.
  - rewrite fo_icmp0. unfold icmp_miss. intuition congruence.
  - rewrite fo_dns0. done.
  - rewrite fo_ext0. unfold external_miss. intuition congruence.
  - rewrite fo_dns_reply0. unfold dns_reply.
    destruct (bool_decide_reflect (EvidenceLayer e = LayerDNS)); naive_solver.
  - rewrite fo_icmp_reply0. unfold icmp_reply. intuition congruence.
  - rewrite fo_ext_reply0. unfold external_reply.
    destruct (bool_decide_reflect (EvidenceLayer e = LayerDNS)) as [E|E]; [intuition congruence|].
    rewrite !andb_true_iff, !negb_true_iff, bool_decide_eq_false. intuition congruence.
  - intros l. rewrite shows_snoc, <- fo_failures0.
    destruct (bool_decide_reflect (EvidenceState e = StateIssueObserved)); set_solver.
  - rewrite Forall_app, Forall_singleton, <- fo_passed0.
    destruct (bool_decide_reflect (EvidenceState e = StateSucceeded)); naive_solver.
Qed.

Lemma facts_of_ok es : facts_ok es (facts_of es).
Proof.
  induction es as [|e es IH] using rev_ind.
  { constructor; simpl; rewrite ?shows_nil; try done.
    intros l. rewrite shows_nil. set_solver. }
  unfold facts_of in *. rewrite foldl_app. by apply fact_step_ok.
Qed.

Lemma size_two (X : gset string) : (1 < size X)%nat → ∃ x y, x ∈ X ∧ y ∈ X ∧ x ≠ y.
Proof.
  intros Hs. destruct (set_choose_L X) as [x Hx]; [intros ->; rewrite size_empty in Hs; lia|].
  destruct (set_choose_L (X ∖ {[x]})) as [y Hy].
  { intros He. assert (X ⊆ {[x]}) as Hsub%subseteq_size.
    { intros z Hz. destruct (decide (z = x)) as [->|Hne]; [by apply elem_of_singleton|].
      assert (z ∈ X ∖ {[x]}) as Hd by (apply elem_of_difference; by rewrite elem_of_singleton).
      rewrite He in Hd. by apply not_elem_of_empty in Hd. }
    rewrite size_singleton in Hsub. lia. }
  apply elem_of_difference in Hy as [Hy Hn]. rewrite elem_of_singleton in Hn.
  exists x, y. split_and!; congruence.
Qed.

(** Two checks of different layers recorded problems. *)
Definition problems_across (es : list CorroborationEvidence) : Prop :=
  ∃ e e', e ∈ es ∧ e' ∈ es ∧ EvidenceLayer e ≠ EvidenceLayer e' ∧
    EvidenceState e = StateIssueObserved ∧ EvidenceState e' = StateIssueObserved.

(** What each conclusion says of the compared evidence. *)
Definition supported (conclusion : string) (es : list CorroborationEvidence) : Prop :=
  (conclusion = "mixed-link-evidence" ∧ shows es link_down ∧ shows es any_reply) ∨
  (conclusion = "local-link-issue-with-other-failures" ∧ shows es link_down ∧ problems_across es ∧ ¬ shows es any_reply) ∨
  (conclusion = "dns-query-issue-with-responses" ∧ shows es dns_issue ∧ (shows es icmp_reply ∨ shows es external_reply)) ∨
  (conclusion = "icmp-misses-with-responses" ∧ shows es icmp_miss ∧ (shows es dns_reply ∨ shows es external_reply)) ∨
  (conclusion = "external-check-issue-with-responses" ∧ shows es external_miss ∧ (shows es dns_reply ∨ shows es icmp_reply)) ∨
  (conclusion = "problems-across-selected-layers" ∧ problems_across es) ∨
  (conclusion = "selected-checks-matched" ∧ Forall (λ e, EvidenceState e = StateSucceeded) es) ∨
  (conclusion = "mixed-or-limited-evidence" ∧ ¬ Forall (λ e, EvidenceState e = StateSucceeded) es).

Lemma failures_across es f : facts_ok es f → (1 <? size (failureLayers f))%nat = true → problems_across es.
Proof.
  intros Hf Hs%Nat.ltb_lt. destruct (size_two _ Hs) as (x & y & Hx & Hy & Hne).
  apply (fo_failures _ _ Hf) in Hx as (e & He & <- & Hi). apply (fo_failures _ _ Hf) in Hy as (e' & He' & <- & Hi').
  exists e, e'. by split_and!.
Qed.

Lemma conclude_supported es f : facts_ok es f → supported (fst (fst (conclude f))) es.
Proof.
  intros Hf. pose proof (failures_across es f Hf) as Hp. destruct Hf. unfold conclude, supported.
  rewrite <- fo_link0, <- fo_reply0, <- fo_icmp0, <- fo_dns0, <- fo_ext0, <- fo_dns_reply0, <- fo_icmp_reply0,
    <- fo_ext_reply0, <- fo_passed0.
  destruct (linkDown f && reply f) eqn:E1; [apply andb_true_iff in E1; auto|].
  destruct (linkDown f && (1 <? size (failureLayers f))%nat) eqn:E2.
  { apply andb_true_iff in E2 as [E2 E3]. rewrite E2 in E1. simpl in E1. right. left. split_and!; auto; congruence. }
  destruct (dnsIssue f && _) eqn:E3; [apply andb_true_iff in E3 as [? ?%orb_true_iff]; auto 10|].
  destruct (icmpMiss f && _) eqn:E4; [apply andb_true_iff in E4 as [? ?%orb_true_iff]; auto 10|].
  destruct (externalMiss f && _) eqn:E5; [apply andb_true_iff in E5 as [? ?%orb_true_iff]; auto 10|].
  destruct (1 <? size (failureLayers f))%nat; [auto 10|].
  destruct (allPassed f); [auto 10|]. do 7 right. split; [done|discriminate].
Qed.

(** *** Selection of candidates *)

Record selection_ok (es : list CorroborationEvidence) (s : selected) : Prop := mkSelectionOk {
  sl_candidates : candidates s = filter (λ e, comparable e = true) es;
  sl_layers : ∀ l, l ∈ layers s ↔ shows (candidates s) (λ e, EvidenceLayer e = l);
  sl_first : candidates s ≠ [] → canonical (firstEnd s) ∧ IsZero (firstEnd s) = false;
  sl_last : canonical (lastEnd s);
  sl_bounds : ∀ e, e ∈ candidates s →
    wall (firstEnd s) <= wall (EvidenceCompletedAt e) <= wall (lastEnd s);
  sl_init : candidates s = [] → firstEnd s = zeroTime ∧ lastEnd s = zeroTime;
}.

Definition timed (e : CorroborationEvidence) : Prop :=
  comparable e = true → canonical (EvidenceCompletedAt e) ∧ validTime (EvidenceCompletedAt e) = true.

Lemma valid_after_zero t : validTime t = true → zero_wall < wall t.
Proof.
  rewrite validTime_spec. unfold in_int64, min_int64, zero_wall, Second. intros. go_bool. lia.
Qed.

Lemma select_ok es : Forall timed es → selection_ok es (select es).
Proof.
  induction es as [|e es IH] using rev_ind; intros Ht.
  { constructor; simpl; try done; try (intros l; rewrite shows_nil; set_solver); intros e He; by apply elem_of_nil in He. }
  apply Forall_app in Ht as [Ht He]. pose proof (Forall_inv He) as Hte. clear He. specialize (IH Ht).
  unfold select in *. rewrite foldl_app. cbn [foldl]. generalize dependent (foldl select_step (mkSelected [] zeroTime zeroTime ∅) es).
  intros s IH. unfold select_step. destruct (comparable e) eqn:Ec; cbn [negb].
  2: { destruct IH. constructor; try done. rewrite filter_app, filter_cons, filter_nil, Ec. simpl. by rewrite app_nil_r. }
  destruct (Hte Ec) as [Hc Hv]. pose proof (valid_after_zero _ Hv) as Hz. pose proof (validTime_nonzero _ Hv) as Hnz.
  destruct IH. constructor; cbn [candidates firstEnd lastEnd layers].
  - rewrite sl_candidates0, filter_app, filter_cons, filter_nil, Ec. done.
  - intros l. rewrite shows_snoc, <- sl_layers0. set_solver.
  - intros _. destruct (IsZero (firstEnd s) || Before _ _) eqn:E; [done|].
    apply orb_false_iff in E as [E _]. split; [|done].
    apply sl_first0. intros Hn. apply sl_init0 in Hn as [Hn _]. rewrite Hn in E. done.
  - destruct (After _ _); done.
  - assert (Hold : ∀ x, x ∈ candidates s →
      wall (if IsZero (firstEnd s) || Before (EvidenceCompletedAt e) (firstEnd s) then EvidenceCompletedAt e else firstEnd s)
        <= wall (firstEnd s)).
    { intros x Hx. assert (candidates s ≠ []) as Hn by (intros Hn; rewrite Hn in Hx; by apply elem_of_nil in Hx).
      destruct (sl_first0 Hn) as [Hcf Hzf]. rewrite Hzf. cbn [orb]. rewrite Before_wall by auto.
      destruct (Z.ltb_spec (wall (EvidenceCompletedAt e)) (wall (firstEnd s))); lia. }
    assert (Hlast : wall (lastEnd s) <= wall (if After (EvidenceCompletedAt e) (lastEnd s) then EvidenceCompletedAt e else lastEnd s)
      ∧ wall (EvidenceCompletedAt e) <= wall (if After (EvidenceCompletedAt e) (lastEnd s) then EvidenceCompletedAt e else lastEnd s)).
    { rewrite After_wall by auto. destruct (Z.ltb_spec (wall (lastEnd s)) (wall (EvidenceCompletedAt e))); lia. }
    intros x [Hx| ->%list_elem_of_singleton]%elem_of_app.
    + specialize (sl_bounds0 x Hx). specialize (Hold x Hx). lia.
    + split; [|lia]. destruct (IsZero (firstEnd s)) eqn:Ez; cbn [orb]; [lia|]. rewrite Before_wall by auto.
      destruct (Z.ltb_spec (wall (EvidenceCompletedAt e)) (wall (firstEnd s))); lia.
  - intros H%app_eq_nil. naive_solver.
Qed.

(** *** Discontinuities *)

Definition discontinuity (reason : GapReason) : Prop :=
  reason = GapSleep ∨ reason = GapOffline ∨ reason = GapNetworkChanged.

Definition barrier_ok (gs : list (string * Time * GapReason)) (acc : string * Time * GapReason) : Prop :=
  canonical (snd (fst acc)) ∧ zero_wall <= wall (snd (fst acc)) ∧
  ∀ g, g ∈ gs → discontinuity (snd g) → wall (snd (fst g)) <= wall (snd (fst acc)).

(** The barrier is not before any recorded discontinuity. *)
Lemma barrier_fold gs :
  Forall (λ g, canonical (snd (fst g)) ∧ validTime (snd (fst g)) = true) gs →
  barrier_ok gs (foldl consider ("", zeroTime, "") gs).
Proof.
  induction gs as [|[[mid end_] reason] gs IH] using rev_ind; intros Hf.
  { split_and!; [done..|]. intros g Hg. by apply elem_of_nil in Hg. }
  apply Forall_app in Hf as [Hf Hg]. pose proof (Forall_inv Hg) as [Hc Hv]. clear Hg. simpl in Hc, Hv.
  apply valid_after_zero in Hv. rewrite foldl_app. cbn [foldl].
  destruct (IH Hf) as (Hca & Hza & Hmax).
  destruct (foldl consider ("", zeroTime, "") gs) as [[id at_] gap]. simpl in *.
  assert (Hkeep : (discontinuity reason → wall end_ <= wall at_) → barrier_ok (gs ++ [(mid, end_, reason)]) (id, at_, gap)).
  { intros Hle. split_and!; [done..|]. intros g [Hg| ->%list_elem_of_singleton]%elem_of_app; auto. }
  destruct ((reason != GapSleep) && (reason != GapOffline) && (reason != GapNetworkChanged)) eqn:Er.
  { apply Hkeep. rewrite !andb_true_iff, !negb_true_iff, !bool_decide_eq_false in Er. unfold discontinuity. naive_solver. }
  rewrite After_wall, Equal_wall by auto.
  destruct ((wall at_ <? wall end_) || _) eqn:Ea.
  - assert (Hle : wall at_ <= wall end_).
    { apply orb_true_iff in Ea as [Ea%Z.ltb_lt|[Ea%Z.eqb_eq _]%andb_true_iff]; lia. }
    split_and!; simpl; [done|lia|]. intros g [Hg| ->%list_elem_of_singleton]%elem_of_app Hd; [|simpl; lia].
    specialize (Hmax g Hg Hd). lia.
  - apply Hkeep. intros _. apply orb_false_iff in Ea as [Ea%Z.ltb_ge _]. done.
Qed.

(** ** The evidence of a valid input *)

(** No instant of the evidence carries a monotonic reading. *)
Definition canonical_input (i : CorroborationInput) : Prop :=
  canonical_evidence (Network i) ∧ Resolver.canonical_evidence (Resolvers i) ∧
  all_canonical HTTPS.CompletedAt (https_measurements i).

Lemma network_loop ms ids ids' :
  for_each network_step ms ids = Ok ids' →
  Forall (λ m, resolverTime (StartedAt m) = true ∧ resolverTime (CompletedAt m) = true) ms.
Proof.
  revert ids. induction ms as [|m ms IH]; intros ids; [constructor|].
  rewrite for_each_cons_ok. intros (t & Hs & Hr). unfold network_step in Hs. apply guard_ok in Hs as [Hg _].
  rewrite orb_false_iff, !negb_false_iff in Hg. constructor; eauto.
Qed.

Lemma validate_inv i :
  validateCorroboration i = Ok tt →
  snapshot_ok (Network i) ∧ Resolver.snapshot_ok (Resolvers i) ∧
  (∀ h, HTTPSInput i = Some h → HTTPS.snapshot_ok h) ∧
  Forall (λ m, resolverTime (CompletedAt m) = true) (Measurements (Network i)) ∧
  ∃ refs, for_each target_step (Targets (Network i)) [] = Ok refs ∧
    Forall (λ x, HTTPS.SelectionID x ∉ refs) (https_selections i).
Proof.
  unfold validateCorroboration. rewrite !guard_ok, !negb_false_iff.
  intros (_ & _ & Hn & Hr & Hh & H). apply res_bind_ok in H as (refs & Ht & H).
  apply guard_ok in H as [Href H]. apply res_bind_ok in H as (ids & Hm & _).
  apply is_ok_true in Hn as [[] Hn]. apply is_ok_true in Hr as [[] Hr]. split_and!.
  - by apply validate_snapshot_iff.
  - by apply Resolver.validate_iff.
  - intros h Hi. unfold https_context in Hh. rewrite Hi, negb_true_iff, !orb_false_iff in Hh.
    destruct Hh as [_ Hh]. apply negb_false_iff in Hh. apply is_ok_true in Hh as [[] Hh]. by apply HTTPS.https_validate_iff.
  - apply network_loop in Hm. eapply Forall_impl; [exact Hm|]. naive_solver.
  - exists refs. split; [done|]. apply existsb_false_iff in Href.
    eapply Forall_impl; [exact Href|]. intros x Hx. by apply bool_decide_eq_false in Hx.
Qed.

Lemma gaps_timed i :
  canonical_input i → validateCorroboration i = Ok tt →
  Forall (λ g, canonical (snd (fst g)) ∧ validTime (snd (fst g)) = true) (recorded_gaps i).
Proof.
  intros (Hcn & Hcr & Hch) (Hn & Hr & Hh & Ht & _)%validate_inv. unfold recorded_gaps.
  rewrite !Forall_app, !Forall_map. split_and!.
  - unfold canonical_evidence, all_canonical in Hcn. rewrite Forall_forall in Hcn, Ht |- *. simpl. auto.
  - unfold Resolver.canonical_evidence, all_canonical in Hcr. pose proof (Resolver.rs_evidence _ Hr) as He.
    rewrite Forall_forall in Hcr, He |- *. intros m Hm. split; [by apply Hcr|].
    by destruct (He m Hm) as (_ & _ & _ & _ & ? & _).
  - unfold https_measurements, all_canonical in *. destruct (HTTPSInput i) as [h|]; [|constructor].
    pose proof (HTTPS.hs_evidence _ (Hh h eq_refl)) as He.
    rewrite Forall_forall in Hch, He |- *. intros m Hm. split; [by apply Hch|].
    by destruct (He m Hm) as (_ & _ & _ & _ & ? & _).
Qed.

Definition https_part (i : CorroborationInput) : list CorroborationEvidence :=
  match HTTPSInput i with
  | Some h => match HTTPS.AssessHTTPS h with Ok r => https_evidence (Family i) r | Err _ => [] end
  | None => []
  end.

Lemma Corroborate_ok i out :
  Corroborate i = Some (Ok out) →
  validateCorroboration i = Ok tt ∧
  ∃ n d, Assess (Network i) = Ok n ∧ Resolver.AssessResolvers (Resolvers i) = Some (Ok d) ∧
    out = compare_evidence i n (merge_sort not_after
            (network_evidence (Family i) n ++ dns_evidence (Family i) d ++ https_part i)).
Proof.
  unfold Corroborate, https_part. destruct (validateCorroboration i) as [[]|]; [|done].
  destruct (Assess (Network i)) as [n|]; [|done].
  destruct (Resolver.AssessResolvers (Resolvers i)) as [[d|]|]; [|done..].
  intros H. split; [done|]. exists n, d. split_and!; [done..|]. rewrite app_assoc.
  destruct (HTTPSInput i) as [h|]; [destruct (HTTPS.AssessHTTPS h); [|done]|rewrite app_nil_r]; by injection H as <-.
Qed.

Lemma network_timed i n :
  canonical_input i → validateCorroboration i = Ok tt → Assess (Network i) = Ok n →
  Forall timed (network_evidence (Family i) n).
Proof.
  intros (Hc & _) (_ & _ & _ & Ht & _)%validate_inv Ha. apply Forall_forall. intros e He Hcmp.
  apply elem_of_flat_map in He as (c & Hin & He). unfold network_item in He.
  destruct (_ && _); [by apply elem_of_nil in He|].
  apply list_elem_of_singleton in He as ->. simpl.
  destruct (report_checks _ _ _ Hc Ha Hin) as (t & _ & _ & [[-> _]|(m & (Hm & _) & ->)]).
  { unfold comparable in Hcmp. simpl in Hcmp. by rewrite andb_false_r in Hcmp. }
  assert (CheckCompletedAt (assessMeasurement t m (AsOf (Network i)) (Freshness (Network i))) = CompletedAt m) as ->
    by (unfold assessMeasurement; by repeat case_match).
  unfold canonical_evidence, all_canonical in Hc. rewrite Forall_forall in Hc, Ht. auto.
Qed.

Lemma dns_timed i d :
  canonical_input i → validateCorroboration i = Ok tt →
  Resolver.AssessResolvers (Resolvers i) = Some (Ok d) → Forall timed (dns_evidence (Family i) d).
Proof.
  intros (_ & Hc & _) (_ & Hok & _)%validate_inv Ha. apply Forall_forall. intros e He Hcmp.
  apply elem_of_flat_map in He as (c & Hin & He). unfold dns_item, https_item in He. cbv zeta in He.
  destruct (negb _); [by apply elem_of_nil in He|].
  destruct (Resolver.Evidence c) as [m|] eqn:Ev; apply list_elem_of_singleton in He as ->; simpl.
  - pose proof (Resolver.report_evidence _ _ Ha c m Hin Ev) as Hm. clear Hin. rename Hm into Hin.
    unfold Resolver.canonical_evidence, all_canonical in Hc. pose proof (Resolver.rs_evidence _ Hok) as He.
    rewrite Forall_forall in Hc, He. split; [by apply Hc|]. by destruct (He m Hin) as (_ & _ & _ & _ & ? & _).
  - pose proof (Resolver.report_no_evidence _ _ Ha c Hin Ev) as Hu. clear Ha. rename Hu into Ha. unfold comparable in Hcmp. simpl in Hcmp.
    rewrite Ha in Hcmp. done.
Qed.

Lemma https_timed i :
  canonical_input i → validateCorroboration i = Ok tt → Forall timed (https_part i).
Proof.
  intros (_ & _ & Hc) (_ & _ & Hok & _)%validate_inv. unfold https_part, https_measurements in *.
  destruct (HTTPSInput i) as [h|]; [|constructor]. specialize (Hok h eq_refl).
  destruct (HTTPS.AssessHTTPS h) as [r|] eqn:Ha; [|constructor].
  apply HTTPS.AssessHTTPS_ok in Ha as [_ ->]. apply Forall_forall. intros e He Hcmp.
  apply elem_of_flat_map in He as (c & Hin & He). unfold dns_item, https_item in He. cbv zeta in He.
  destruct (negb _); [by apply elem_of_nil in He|].
  apply list_elem_of_fmap in Hin as (sel & -> & _). unfold HTTPS.check_of in He.
  destruct (latest HTTPS.sel_key HTTPS.CompletedAt (HTTPS.Measurements h) !! HTTPS.SelectionID sel) as [m|] eqn:El.
  - assert (HTTPS.Evidence (HTTPS.assessHTTPSMeasurement m (HTTPS.AsOf h) (HTTPS.Freshness h)) = Some m) as Hev
      by (unfold HTTPS.assessHTTPSMeasurement; by repeat case_match).
    rewrite Hev in He. apply list_elem_of_singleton in He as ->. simpl.
    apply latest_in in El as [Hm _]. pose proof (HTTPS.hs_evidence _ Hok) as He. unfold all_canonical in Hc.
    rewrite Forall_forall in Hc, He. split; [by apply Hc|]. by destruct (He m Hm) as (_ & _ & _ & _ & ? & _).
  - simpl in He. apply list_elem_of_singleton in He as ->. done.
Qed.

(** ** Theorems *)

(** Corroboration is total: every input yields a comparison or an error. *)
Theorem corroborate_total i : Corroborate i ≠ None.
Proof.
  unfold Corroborate. destruct (validateCorroboration i); [|done].
  destruct (Assess (Network i)); [|done].
  pose proof (Resolver.assess_resolvers_defined (Resolvers i)).
  destruct (Resolver.AssessResolvers (Resolvers i)) as [[d|]|]; [|done..].
  destruct (HTTPSInput i) as [h|]; [destruct (HTTPS.AssessHTTPS h)|]; done.
Qed.

(** The evidence a comparison used. *)
Definition used (out : Corroboration) : list CorroborationEvidence :=
  filter (λ e, comparable e = true) (Evidence out).

Lemma compare_inv i n es :
  Forall timed es → let out := compare_evidence i n es in Compared out ≠ [] →
  Evidence out = es ∧ Compared out = map MeasurementID (used out) ∧ OutConfidence out = ConfidenceLimited ∧
  supported (Conclusion out) (used out) ∧ (2 ≤ size (layers (select es)))%nat ∧
  Forall (λ e, IsZero (snd (fst (latestDiscontinuity i))) = true ∨
               After (EvidenceStartedAt e) (snd (fst (latestDiscontinuity i))) = true) (used out) ∧
  Sub (lastEnd (select es)) (firstEnd (select es)) <= MaxCompletionSkew i.
Proof.
  intros Ht. unfold compare_evidence, used.
  pose proof (select_ok es Ht) as Hs. destruct (latestDiscontinuity i) as [[bid barrier] bgap].
  destruct (size (layers (select es)) <? 2)%nat eqn:El; [done|]. apply Nat.ltb_ge in El.
  destruct (existsb _ (candidates (select es))) eqn:Eb; [done|]. apply existsb_false_iff in Eb.
  destruct (Z.ltb_spec (MaxCompletionSkew i) (Sub (lastEnd (select es)) (firstEnd (select es)))); [done|].
  pose proof (facts_of_ok (candidates (select es))) as Hf. pose proof (conclude_supported _ _ Hf) as Hc.
  destruct (conclude (facts_of (candidates (select es)))) as [[conclusion summary] next]. simpl in *. intros _.
  rewrite (fo_compared _ _ Hf), (sl_candidates _ _ Hs) in *. split_and!; try done.
  eapply Forall_impl; [exact Eb|]. intros e He. simpl in He. apply andb_false_iff in He as [He|He].
  - left. by apply negb_false_iff.
  - right. by apply negb_false_iff.
Qed.

Lemma evidence_timed i n d :
  canonical_input i → validateCorroboration i = Ok tt → Assess (Network i) = Ok n →
  Resolver.AssessResolvers (Resolvers i) = Some (Ok d) →
  Forall timed (merge_sort not_after (network_evidence (Family i) n ++ dns_evidence (Family i) d ++ https_part i)).
Proof.
  intros Hc Hv Hn Hd. rewrite (merge_sort_Permutation not_after). rewrite !Forall_app.
  split_and!; [by apply network_timed|by eapply dns_timed|by apply https_timed].
Qed.

(** Only comparable evidence is compared.  When a comparison was made, it used
    exactly the fresh measured checks of the listing, from at least two layers; each of
    them started after every sleep, offline or network-change gap recorded in the window,
    and any two completed within the allowed skew. *)
Theorem comparison_sound i out :
  canonical_input i → Corroborate i = Some (Ok out) → Compared out ≠ [] →
  Compared out = map MeasurementID (used out) ∧ OutConfidence out = ConfidenceLimited ∧
  (∃ e e', e ∈ used out ∧ e' ∈ used out ∧ EvidenceLayer e ≠ EvidenceLayer e') ∧
  (∀ e g, e ∈ used out → canonical (EvidenceStartedAt e) → g ∈ recorded_gaps i → discontinuity (snd g) →
     wall (snd (fst g)) < wall (EvidenceStartedAt e)) ∧
  (∀ e e', e ∈ used out → e' ∈ used out →
     wall (EvidenceCompletedAt e) - wall (EvidenceCompletedAt e') <= MaxCompletionSkew i).
Proof.
  intros Hc (Hv & n & d & Hn & Hd & Hout)%Corroborate_ok Hcmp.
  pose proof (evidence_timed i n d Hc Hv Hn Hd) as Ht. rewrite Hout in Hcmp.
  destruct (compare_inv i n _ Ht Hcmp) as (Hev & Hco & Hcf & _ & Hsz & Hbar & Hsk). rewrite <- Hout in *. clear Hcmp.
  rewrite <- Hev in *. pose proof (select_ok _ Ht) as Hs. fold (used out) in *.
  assert (Hcand : candidates (select (Evidence out)) = used out) by apply Hs.
  split_and!; [done..| | |].
  - destruct (size_two _ Hsz) as (x & y & Hx & Hy & Hne).
    apply (sl_layers _ _ Hs) in Hx as (e & He & <-). apply (sl_layers _ _ Hs) in Hy as (e' & He' & <-).
    rewrite Hcand in *. eauto 10.
  - intros e g He Hce Hg Hd'. pose proof (barrier_fold _ (gaps_timed i Hc Hv)) as (Hcb & _ & Hmax).
    specialize (Hmax g Hg Hd'). rewrite Forall_forall in Hbar. unfold latestDiscontinuity in Hbar.
    pose proof (gaps_timed i Hc Hv) as Hgt. rewrite Forall_forall in Hgt. destruct (Hgt g Hg) as [_ Hgv].
    apply valid_after_zero in Hgv. destruct (Hbar e He) as [Hz|Ha].
    + unfold IsZero in Hz. apply Z.eqb_eq in Hz. lia.
    + rewrite After_wall in Ha by auto. apply Z.ltb_lt in Ha. lia.
  - intros e e' He He'. rewrite <- Hcand in He, He'.
    pose proof (sl_bounds _ _ Hs e He). pose proof (sl_bounds _ _ Hs e' He').
    rewrite Sub_wall in Hsk by (left; apply Hs).
    assert (Hr : Second <= MaxCompletionSkew i <= MaxCorroborationSkew).
    { clear -Hv. unfold validateCorroboration in Hv. apply guard_ok in Hv as [Hv _].
      rewrite !orb_false_iff, !Z.ltb_ge in Hv. naive_solver. }
    assert (Hd' : min_int64 <= MaxCompletionSkew i < max_int64)
      by (unfold min_int64, max_int64, MaxCorroborationSkew, Second in *; lia).
    apply (proj1 (saturate_le_iff _ _ Hd')) in Hsk. lia.
Qed.

(** Every conclusion is supported by the evidence it compared.  Matching checks all
    succeeded; an issue with responses names a layer with a problem and another with a
    response; problems across layers need two layers that recorded one; whatever else
    the comparison says, no listed conclusion is drawn without its evidence. *)
Theorem conclusion_supported i out :
  canonical_input i → Corroborate i = Some (Ok out) → Compared out ≠ [] →
  supported (Conclusion out) (used out).
Proof.
  intros Hc (Hv & n & d & Hn & Hd & Hout)%Corroborate_ok Hcmp.
  pose proof (evidence_timed i n d Hc Hv Hn Hd) as Ht. rewrite Hout in Hcmp |- *.
  by destruct (compare_inv i n _ Ht Hcmp) as (_ & _ & _ & Hs & _).
Qed.

(** ** The order of the evidence is determined *)

Definition sort_key (e : CorroborationEvidence) : string * string := (EvidenceLayer e, Reference e).

Lemma flat_map_keys {A B K} (f : A → list B) (g : A → K) (key : B → K) l :
  (∀ x, x ∈ l → f x = [] ∨ ∃ y, f x = [y] ∧ key y = g x) →
  NoDup (map g l) →
  NoDup (map key (flat_map f l)) ∧ ∀ y, y ∈ flat_map f l → key y ∈ map g l.
Proof.
  intros Hf. assert (Hin : ∀ y, y ∈ flat_map f l → key y ∈ map g l).
  { intros y (x & Hx & Hy)%elem_of_flat_map. apply list_elem_of_fmap.
    destruct (Hf x Hx) as [Hn|(z & Hz & Hk)].
    - rewrite Hn in Hy. by apply elem_of_nil in Hy.
    - rewrite Hz in Hy. apply list_elem_of_singleton in Hy as ->. eauto. }
  intros Hn. split; [|done]. clear Hin. induction l as [|x l IH]; [constructor|].
  simpl in *. apply NoDup_cons in Hn as [Hx Hn].
  assert (Hf' : ∀ x0, x0 ∈ l → f x0 = [] ∨ ∃ y, f x0 = [y] ∧ key y = g x0)
    by (intros; apply Hf; by apply elem_of_cons; right).
  specialize (IH Hf' Hn). destruct (Hf x (list_elem_of_here _ _)) as [->|(y & -> & Hk)]; [done|].
  simpl. apply NoDup_cons. split; [|done]. intros (z & Hz & Hzin)%list_elem_of_fmap.
  apply Hx. rewrite <- Hk, Hz. apply elem_of_flat_map in Hzin as (w & Hw & Hzw).
  destruct (Hf' w Hw) as [Hnil|(z' & Hs & Hkz)].
  - rewrite Hnil in Hzw. by apply elem_of_nil in Hzw.
  - rewrite Hs in Hzw. apply list_elem_of_singleton in Hzw as ->. rewrite Hkz. by apply list_elem_of_fmap_2.
Qed.

Lemma target_loop ts acc refs :
  for_each target_step ts acc = Ok refs →
  (∀ x, x ∈ acc → x ∈ refs) ∧
  Forall (λ t, TargetLayer t ≠ LayerDNS ∧ (TargetLayer t = LayerExternal → TargetID t ∈ refs)) ts.
Proof.
  revert acc. induction ts as [|t ts IH]; intros acc; [intros [= ->]; split; [done|constructor]|].
  rewrite for_each_cons_ok. intros (acc' & Hs & Hr). unfold target_step in Hs.
  apply guard_ok in Hs as [Hg [= <-]]. apply orb_false_iff in Hg as [Hg _]. apply bool_decide_eq_false in Hg.
  destruct (IH _ Hr) as [Hsub Hall]. split.
  - intros x Hx. apply Hsub. destruct (bool_decide _); [by apply elem_of_cons; right|done].
  - constructor; [|done]. split; [done|]. intros E. apply Hsub. rewrite E. simpl. apply list_elem_of_here.
Qed.

Lemma keys_of_ids {A} (layer : string) (id : A → string) l :
  NoDup (map id l) → NoDup (map (λ x, (layer, id x)) l).
Proof. intros Hn. apply (NoDup_fmap_1 snd). change (NoDup (map snd (map (λ x, (layer, id x)) l))). by rewrite map_map. Qed.

Lemma network_keys fam s n :
  Assess s = Ok n →
  NoDup (map sort_key (network_evidence fam n)) ∧
  ∀ e, e ∈ network_evidence fam n → ∃ t, t ∈ Targets s ∧ sort_key e = (TargetLayer t, TargetID t).
Proof.
  intros (Hok & Hr)%Assess_ok. unfold network_evidence.
  assert (Ht : map CheckTarget (Checks n) = Targets s).
  { rewrite Hr. simpl. rewrite map_map. rewrite <- (map_id (Targets s)) at 2. apply map_ext. intros t.
    destruct (latest _ _ _ !! TargetID t); [|done]. unfold assessMeasurement. by repeat case_match. }
  destruct (flat_map_keys (network_item fam (ReportObserver n))
    (λ c, (TargetLayer (CheckTarget c), TargetID (CheckTarget c))) sort_key (Checks n)) as [H1 H2].
  - intros c _. unfold network_item. destruct (_ && _); [by left|right]. by eexists.
  - apply (NoDup_fmap_1 snd).
    change (NoDup (map snd (map (λ c, (TargetLayer (CheckTarget c), TargetID (CheckTarget c))) (Checks n)))).
    pose proof (so_target_ids s Hok) as Hn. rewrite <- Ht, map_map in Hn. by rewrite map_map.
  - split; [done|]. intros e He. apply H2 in He. apply list_elem_of_fmap in He as (c & Hc & Hin).
    exists (CheckTarget c). split; [|done]. rewrite <- Ht. by apply list_elem_of_fmap_2.
Qed.

Lemma dns_keys fam s d :
  Resolver.AssessResolvers s = Some (Ok d) →
  NoDup (map sort_key (dns_evidence fam d)) ∧ ∀ e, e ∈ dns_evidence fam d → EvidenceLayer e = LayerDNS.
Proof.
  intros (Hok & checks & Hm & ->)%Resolver.AssessResolvers_ok. unfold dns_evidence.
  cbn [Resolver.Checks Resolver.ReportObserver].
  assert (Hids : map (λ c, Resolver.SelectionID (Resolver.CheckSelection c)) checks =
                 map Resolver.SelectionID (Resolver.Selections s)).
  { apply mapM_Some in Hm. clear Hok. induction Hm as [|sel c sels cs Hc _ IH]; [done|]. simpl. f_equal; [|done].
    unfold Resolver.check_of in Hc.
    destruct (latest _ _ _ !! Resolver.SelectionID sel) as [m|] eqn:E; [|by injection Hc as <-].
    apply latest_in in E as [_ E]. destruct (Resolver.assess_inv _ _ _ _ Hc) as (-> & _). done. }
  destruct (flat_map_keys (dns_item fam (Resolver.SnapshotObserver s))
    (λ c, (LayerDNS, Resolver.SelectionID (Resolver.CheckSelection c))) sort_key checks) as [H1 H2].
  - intros c _. unfold dns_item. cbv zeta. destruct (negb _); [by left|right]. destruct (Resolver.Evidence c); by eexists.
  - apply (keys_of_ids LayerDNS (λ c, Resolver.SelectionID (Resolver.CheckSelection c))). rewrite Hids. apply Hok.
  - split; [done|]. intros e He. apply H2 in He. apply list_elem_of_fmap in He as (c & Hc & _). by injection Hc.
Qed.

Lemma https_keys i :
  NoDup (map sort_key (https_part i)) ∧
  ∀ e, e ∈ https_part i → EvidenceLayer e = LayerExternal ∧ Reference e ∈ map HTTPS.SelectionID (https_selections i).
Proof.
  assert (Hnil : NoDup (map sort_key []) ∧ ∀ e : CorroborationEvidence, e ∈ [] →
    EvidenceLayer e = LayerExternal ∧ Reference e ∈ map HTTPS.SelectionID (https_selections i)).
  { split; [constructor|]. intros e He. by apply elem_of_nil in He. }
  unfold https_part. destruct (HTTPSInput i) as [h|] eqn:Eh; [|done].
  destruct (HTTPS.AssessHTTPS h) as [r|] eqn:Ha; [|done]. clear Hnil.
  apply HTTPS.AssessHTTPS_ok in Ha as [Hok ->]. unfold https_selections. rewrite Eh.
  set (checks := map (HTTPS.check_of h) (HTTPS.Selections h)).
  assert (Hids : map (λ c, HTTPS.SelectionID (HTTPS.CheckSelection c)) checks =
                 map HTTPS.SelectionID (HTTPS.Selections h)).
  { unfold checks. rewrite map_map. apply map_ext. intros sel. unfold HTTPS.check_of.
    destruct (latest _ _ _ !! HTTPS.SelectionID sel) as [m|] eqn:E; [|done].
    apply latest_in in E as [_ E]. unfold HTTPS.assessHTTPSMeasurement. by repeat case_match. }
  unfold https_evidence. cbn [HTTPS.Checks HTTPS.ReportObserver]. fold checks.
  destruct (flat_map_keys (https_item (Family i) (HTTPS.SnapshotObserver h))
    (λ c, (LayerExternal, HTTPS.SelectionID (HTTPS.CheckSelection c))) sort_key checks) as [H1 H2].
  - intros c _. unfold https_item. cbv zeta. destruct (negb _); [by left|right]. destruct (HTTPS.Evidence c); by eexists.
  - apply (keys_of_ids LayerExternal (λ c, HTTPS.SelectionID (HTTPS.CheckSelection c))). rewrite Hids. apply Hok.
  - split; [done|]. intros e He. apply H2 in He. apply list_elem_of_fmap in He as (c & Hc & Hin).
    unfold sort_key in Hc. injection Hc as -> ->. split; [done|]. rewrite <- Hids.
    by apply (list_elem_of_fmap_2 (λ c, HTTPS.SelectionID (HTTPS.CheckSelection c))).
Qed.

(** The order of the reported evidence is determined.  No two entries share layer and
    reference, the keys [sort.Slice] compares, so the unstable sort has one result. *)
Theorem evidence_keys_distinct i out :
  Corroborate i = Some (Ok out) → NoDup (map sort_key (Evidence out)).
Proof.
  intros (Hv & n & d & Hn & Hd & ->)%Corroborate_ok.
  destruct (validate_inv i Hv) as (_ & _ & _ & _ & refs & Ht & Hrefs).
  apply target_loop in Ht as [_ Ht]. rewrite Forall_forall in Ht. rewrite Forall_forall in Hrefs.
  destruct (network_keys (Family i) _ _ Hn) as [Hn1 Hn2].
  destruct (dns_keys (Family i) _ _ Hd) as [Hd1 Hd2]. destruct (https_keys i) as [Hh1 Hh2].
  assert (He : ∀ es, Evidence (compare_evidence i n es) = es).
  { intros es. unfold compare_evidence. by repeat case_match. }
  rewrite He. rewrite (Permutation_map sort_key (merge_sort_Permutation not_after _)).
  rewrite !map_app, !NoDup_app. split_and!; try done.
  - intros k (e & -> & Hin)%list_elem_of_fmap. destruct (Hn2 e Hin) as (t & Htin & Hk).
    destruct (Ht t Htin) as [Hdns Hext]. rewrite Hk. unfold sort_key in *.
    rewrite elem_of_app. intros [(e' & Hk' & Hin')%list_elem_of_fmap|(e' & Hk' & Hin')%list_elem_of_fmap].
    + injection Hk' as Hl _. rewrite (Hd2 e' Hin') in Hl. done.
    + injection Hk' as Hl Hr. destruct (Hh2 e' Hin') as [Hl' Hr']. rewrite Hl' in Hl.
      apply list_elem_of_fmap in Hr' as (sel & Hs & Hsel). apply (Hrefs sel Hsel).
      rewrite <- Hs, <- Hr. by apply Hext.
  - intros k (e & -> & Hin)%list_elem_of_fmap (e' & Hk' & Hin')%list_elem_of_fmap.
    unfold sort_key in Hk'. injection Hk' as Hl _. rewrite (Hd2 e Hin) in Hl. destruct (Hh2 e' Hin') as [Hl' _].
    rewrite Hl' in Hl. done.
Qed.

(** ** Examples *)

Definition link_target : Target := mkTarget "link" LayerLink MethodInterface FamilyNone.
Definition link_up (sec : Z) : Measurement :=
  mkMeasurement "l1" "link" sensor (clock sec) (clock sec) OutcomeSucceeded GapNone 0 0 None.

(** The link is up and the gateway answers, while the resolver refuses the query. *)
Definition home_network : Snapshot :=
  mkSnapshot sensor (clock 600) (clock 0) (15 * Minute) [link_target; gateway_target]
    [link_up 300; probe "g1" (clock 298) (clock 300) OutcomeSucceeded 3].
Definition home_resolvers : Resolver.ResolverSnapshot :=
  Resolver.mkResolverSnapshot sensor (clock 600) (clock 0) (15 * Minute) [Resolver.selection]
    [Resolver.exchange "r1" 300 (Resolver.mkDNSReply 5 false "")].
Definition home_input : CorroborationInput :=
  mkInput "device-1" (Some HTTPS.requests) "device-1" "device-1" home_network home_resolvers FamilyIPv4 (30 * Second).
Definition home_input_dns : CorroborationInput :=
  mkInput "" None "device-1" "device-1" home_network home_resolvers FamilyIPv4 (30 * Second).

Definition empty_out : Corroboration :=
  mkCorroboration "" zeroTime "" "" "" "" 0 "" zeroTime 0 [] [] zeroTime zeroTime "" "" "" "" [].
Definition home_out : Corroboration :=
  match Corroborate home_input_dns with Some (Ok r) => r | _ => empty_out end.

Lemma home_out_ok : Corroborate home_input_dns = Some (Ok home_out).
Proof. vm_compute. reflexivity. Qed.

Example home_conclusion : Conclusion home_out = "dns-query-issue-with-responses".
Proof. vm_compute. reflexivity. Qed.

(** An HTTPS sample of another time is too far apart. *)
Example https_too_far :
  match Corroborate home_input with Some (Ok r) => Conclusion r = "observations-too-far-apart" | _ => False end.
Proof. vm_compute. reflexivity. Qed.

Lemma home_canonical : canonical_input home_input_dns.
Proof. repeat split; repeat constructor. Qed.

Lemma comparison_sound_witness : Compared home_out = map MeasurementID (used home_out).
Proof.
  apply (comparison_sound home_input_dns home_out).
  - exact home_canonical.
  - exact home_out_ok.
  - vm_compute. discriminate.
Defined.

Lemma conclusion_supported_witness : supported (Conclusion home_out) (used home_out).
Proof.
  apply (conclusion_supported home_input_dns home_out).
  - exact home_canonical.
  - exact home_out_ok.
  - vm_compute. discriminate.
Defined.

Lemma evidence_keys_distinct_witness : NoDup (map sort_key (Evidence home_out)).
Proof. exact (evidence_keys_distinct home_input_dns home_out home_out_ok). Defined.

End Corroborate.
