(* ===== verification/GoBytes.v ===== *)
(** * Bytes

    The byte slices of the packet encoders and parsers: a slice is a list of integers
    below 256.  A read outside a slice panics in Go; here it is [None], which the
    theorems about the parsers exclude.  [encoding/binary]'s little and big endian
    integers of 16 and 32 bits are read and written, with their round trips. *)

From S2P Require Import Prelude.

Definition bytes (p : list Z) : Prop := Forall (λ b, 0 <= b < 256) p.

(** [p[i]] *)
Definition byte_at (p : list Z) (i : Z) : option Z :=
  if i <? 0 then None else p !! Z.to_nat i.

(** [p[a:b]] *)
Definition slice (p : list Z) (a b : Z) : option (list Z) :=
  if (a <? 0) || (b <? a) || (llen p <? b) then None
  else Some (take (Z.to_nat (b - a)) (drop (Z.to_nat a) p)).

(** [p[a:]] *)
Definition slice_from (p : list Z) (a : Z) : option (list Z) := slice p a (llen p).

(** [binary.LittleEndian.Uint16(p[i:])] and its relatives. *)
Definition u16le (p : list Z) (i : Z) : option Z :=
  a ← byte_at p i; b ← byte_at p (i + 1); Some (a + 256 * b).
Definition u16be (p : list Z) (i : Z) : option Z :=
  a ← byte_at p i; b ← byte_at p (i + 1); Some (256 * a + b).
Definition u32le (p : list Z) (i : Z) : option Z :=
  a ← u16le p i; b ← u16le p (i + 2); Some (a + 65536 * b).

(** [binary.LittleEndian.PutUint16] and its relatives, as the bytes written. *)
Definition put16le (v : Z) : list Z := [v mod 256; (v / 256) mod 256].
Definition put16be (v : Z) : list Z := [(v / 256) mod 256; v mod 256].
Definition put32le (v : Z) : list Z := put16le v ++ put16le (v / 65536).

(** ** Reads inside a slice *)

(** A boolean test, for concrete packets. *)
Lemma bytes_check p : forallb (λ b, (0 <=? b) && (b <? 256)) p = true → bytes p.
Proof. rewrite forallb_true_iff. intros H. eapply Forall_impl; [exact H|]. intros b Hb. simpl in Hb. go_bool. lia. Qed.

Lemma bytes_app p q : bytes (p ++ q) ↔ bytes p ∧ bytes q.
Proof. apply Forall_app. Qed.

Lemma bytes_slice p a b s : bytes p → slice p a b = Some s → bytes s.
Proof.
  unfold slice. intros Hp Hs. destruct (_ || _); [done|]. injection Hs as <-.
  apply Forall_take, Forall_drop, Hp.
Qed.

Lemma byte_at_range p i b : bytes p → byte_at p i = Some b → 0 <= b < 256.
Proof.
  unfold byte_at. intros Hp. destruct (i <? 0); [done|]. intros Hb.
  by apply (Forall_lookup_1 _ _ _ _ Hp) in Hb.
Qed.

Lemma byte_at_some p i : 0 <= i < llen p → ∃ b, byte_at p i = Some b.
Proof.
  unfold byte_at, llen. intros H. rewrite (proj2 (Z.ltb_ge i 0)) by lia.
  apply lookup_lt_is_Some_2. lia.
Qed.

Lemma byte_at_inv p i b : byte_at p i = Some b → 0 <= i < llen p.
Proof.
  unfold byte_at, llen. destruct (Z.ltb_spec i 0); [done|]. intros Hb%lookup_lt_Some. lia.
Qed.

Lemma byte_at_nat p (n : nat) : byte_at p (Z.of_nat n) = p !! n.
Proof. unfold byte_at. rewrite (proj2 (Z.ltb_ge _ 0)) by lia. by rewrite Nat2Z.id. Qed.

Lemma slice_some p a b : 0 <= a <= b → b <= llen p →
  slice p a b = Some (take (Z.to_nat (b - a)) (drop (Z.to_nat a) p)).
Proof.
  intros. unfold slice. by rewrite (proj2 (Z.ltb_ge a 0)), (proj2 (Z.ltb_ge b a)), (proj2 (Z.ltb_ge (llen p) b)) by lia.
Qed.

Lemma slice_from_some p a : 0 <= a <= llen p → slice_from p a = Some (drop (Z.to_nat a) p).
Proof.
  intros. unfold slice_from. rewrite slice_some by lia. f_equal. apply take_ge. rewrite length_drop.
  unfold llen in *. lia.
Qed.

Lemma slice_length p a b s : slice p a b = Some s → llen s = b - a ∧ 0 <= a <= b ∧ b <= llen p.
Proof.
  unfold slice. destruct (Z.ltb_spec a 0), (Z.ltb_spec b a), (Z.ltb_spec (llen p) b); simpl; try done.
  intros [= <-]. unfold llen in *. rewrite length_take, length_drop. lia.
Qed.

Lemma slice_byte p a b s i : slice p a b = Some s → 0 <= i < b - a → byte_at s i = byte_at p (a + i).
Proof.
  intros Hs Hi. pose proof (slice_length _ _ _ _ Hs) as (_ & Ha & Hb).
  rewrite slice_some in Hs by done. injection Hs as <-.
  unfold byte_at. rewrite (proj2 (Z.ltb_ge i 0)), (proj2 (Z.ltb_ge (a + i) 0)) by lia.
  rewrite lookup_take_lt by lia. rewrite lookup_drop. f_equal. lia.
Qed.

Lemma u16le_some p i : 0 <= i → i + 2 <= llen p → ∃ v, u16le p i = Some v.
Proof.
  intros. unfold u16le. destruct (byte_at_some p i) as (a & ->); [lia|].
  destruct (byte_at_some p (i + 1)) as (b & ->); [lia|]. simpl. eauto.
Qed.
Lemma u16be_some p i : 0 <= i → i + 2 <= llen p → ∃ v, u16be p i = Some v.
Proof.
  intros. unfold u16be. destruct (byte_at_some p i) as (a & ->); [lia|].
  destruct (byte_at_some p (i + 1)) as (b & ->); [lia|]. simpl. eauto.
Qed.
Lemma u32le_some p i : 0 <= i → i + 4 <= llen p → ∃ v, u32le p i = Some v.
Proof.
  intros. unfold u32le. destruct (u16le_some p i) as (a & ->); [lia..|].
  destruct (u16le_some p (i + 2)) as (b & ->); [lia..|]. simpl. eauto.
Qed.

Lemma u16le_range p i v : bytes p → u16le p i = Some v → 0 <= v < 65536.
Proof.
  intros Hp. unfold u16le. destruct (byte_at p i) as [a|] eqn:Ha; [|done].
  destruct (byte_at p (i + 1)) as [b|] eqn:Hb; [|done]. simpl. intros [= <-].
  apply byte_at_range in Ha, Hb; [lia|done..].
Qed.
Lemma u16be_range p i v : bytes p → u16be p i = Some v → 0 <= v < 65536.
Proof.
  intros Hp. unfold u16be. destruct (byte_at p i) as [a|] eqn:Ha; [|done].
  destruct (byte_at p (i + 1)) as [b|] eqn:Hb; [|done]. simpl. intros [= <-].
  apply byte_at_range in Ha, Hb; [lia|done..].
Qed.
Lemma u32le_range p i v : bytes p → u32le p i = Some v → 0 <= v < 2 ^ 32.
Proof.
  intros Hp. unfold u32le. destruct (u16le p i) as [a|] eqn:Ha; [|done].
  destruct (u16le p (i + 2)) as [b|] eqn:Hb; [|done]. simpl. intros [= <-].
  apply u16le_range in Ha, Hb; [lia|done..].
Qed.

(** [read_some] discharges a read the context shows to be inside its slice. *)
Ltac read_some :=
  match goal with
  | |- context [byte_at ?p ?i] => let v := fresh "b" in let H := fresh "Hb" in
      destruct (byte_at_some p i) as (v & H); [lia|]; rewrite H; simpl
  | |- context [u16le ?p ?i] => let v := fresh "v" in let H := fresh "Hv" in
      destruct (u16le_some p i) as (v & H); [lia..|]; rewrite H; simpl
  | |- context [u16be ?p ?i] => let v := fresh "v" in let H := fresh "Hv" in
      destruct (u16be_some p i) as (v & H); [lia..|]; rewrite H; simpl
  | |- context [u32le ?p ?i] => let v := fresh "v" in let H := fresh "Hv" in
      destruct (u32le_some p i) as (v & H); [lia..|]; rewrite H; simpl
  end.

(** ** Round trips *)

Lemma put16le_bytes v : bytes (put16le v).
Proof. repeat constructor; apply Z.mod_pos_bound; lia. Qed.
Lemma put16be_bytes v : bytes (put16be v).
Proof. repeat constructor; apply Z.mod_pos_bound; lia. Qed.
Lemma put32le_bytes v : bytes (put32le v).
Proof. apply bytes_app. split; apply put16le_bytes. Qed.

Lemma split16 v : 0 <= v < 65536 → (v / 256) mod 256 = v / 256 ∧ v = 256 * (v / 256) + v mod 256.
Proof.
  intros H. split; [|apply Z.div_mod; lia]. apply Z.mod_small.
  split; [apply Z.div_pos; lia|apply Z.div_lt_upper_bound; lia].
Qed.

Lemma byte_at_skip pre p i : 0 <= i → byte_at (pre ++ p) (llen pre + i) = byte_at p i.
Proof.
  intros. unfold byte_at, llen. rewrite (proj2 (Z.ltb_ge i 0)), (proj2 (Z.ltb_ge (_ + i) 0)) by lia.
  rewrite lookup_app_r by lia. f_equal. lia.
Qed.

Lemma u16be_put v rest : 0 <= v < 65536 → u16be (put16be v ++ rest) 0 = Some v.
Proof.
  intros H. destruct (split16 v H) as [H1 H2].
  change (Some (256 * ((v / 256) mod 256) + v mod 256) = Some v). f_equal. lia.
Qed.
Lemma u16le_put v rest : 0 <= v < 65536 → u16le (put16le v ++ rest) 0 = Some v.
Proof.
  intros H. destruct (split16 v H) as [H1 H2].
  change (Some (v mod 256 + 256 * ((v / 256) mod 256)) = Some v). f_equal. lia.
Qed.

(** Two bytes are determined by the integer they spell. *)
Lemma u16be_bytes p i v :
  bytes p → u16be p i = Some v →
  byte_at p i = Some ((v / 256) mod 256) ∧ byte_at p (i + 1) = Some (v mod 256).
Proof.
  intros Hp. unfold u16be. destruct (byte_at p i) as [a|] eqn:Ha; [|done].
  destruct (byte_at p (i + 1)) as [b|] eqn:Hb; [|done]. simpl. intros [= <-].
  apply byte_at_range in Ha, Hb; [|done..].
  replace ((256 * a + b) / 256) with a by (apply Z.div_unique with b; lia).
  replace ((256 * a + b) mod 256) with b by (apply Z.mod_unique with a; lia).
  by rewrite Z.mod_small by lia.
Qed.

Lemma u16le_skip pre p i : 0 <= i → u16le (pre ++ p) (llen pre + i) = u16le p i.
Proof. intros. unfold u16le. by rewrite <- Z.add_assoc, !byte_at_skip by lia. Qed.
Lemma u32le_skip pre p i : 0 <= i → u32le (pre ++ p) (llen pre + i) = u32le p i.
Proof. intros. unfold u32le. by rewrite <- Z.add_assoc, !u16le_skip by lia. Qed.

Lemma u32le_put v rest : 0 <= v < 2 ^ 32 → u32le (put32le v ++ rest) 0 = Some v.
Proof.
  intros H. unfold u32le, put32le. rewrite <- app_assoc.
  assert (u16le (put16le v ++ put16le (v / 65536) ++ rest) 0 = Some (v mod 65536)) as ->.
  { change (Some (v mod 256 + 256 * ((v / 256) mod 256)) = Some (v mod 65536)). f_equal.
    symmetry. apply (Z.rem_mul_r v 256 256); lia. }
  cbn [mbind option_bind]. rewrite Z.add_0_l.
  change 2 with (llen (put16le v) + 0). rewrite u16le_skip by lia. rewrite u16le_put.
  - cbn [mbind option_bind]. f_equal. pose proof (Z.div_mod v 65536). lia.
  - split; [apply Z.div_pos; lia|apply Z.div_lt_upper_bound; lia].
Qed.

(** The bytes of a 16- or 32-bit read. *)
Lemma u16le_bytes p (i : nat) v :
  bytes p → u16le p (Z.of_nat i) = Some v → drop i p = put16le v ++ drop (i + 2) p.
Proof.
  intros Hp. unfold u16le. destruct (byte_at p (Z.of_nat i)) as [a|] eqn:Ha; [|done]. simpl.
  destruct (byte_at p (Z.of_nat i + 1)) as [b|] eqn:Hb; [|done]. simpl. intros [= <-].
  pose proof (byte_at_range _ _ _ Hp Ha). pose proof (byte_at_range _ _ _ Hp Hb).
  replace (Z.of_nat i + 1) with (Z.of_nat (S i)) in Hb by lia. rewrite byte_at_nat in Ha, Hb.
  rewrite (drop_S _ _ _ Ha), (drop_S _ _ _ Hb). unfold put16le.
  replace ((a + 256 * b) mod 256) with a by (apply Z.mod_unique with b; lia).
  replace ((a + 256 * b) / 256) with b by (apply Z.div_unique with a; lia).
  rewrite Z.mod_small by lia. by replace (i + 2)%nat with (S (S i)) by lia.
Qed.

Lemma u32le_bytes p (i : nat) v :
  bytes p → u32le p (Z.of_nat i) = Some v → drop i p = put32le v ++ drop (i + 4) p.
Proof.
  intros Hp. unfold u32le. destruct (u16le p (Z.of_nat i)) as [a|] eqn:Ha; [|done]. simpl.
  replace (Z.of_nat i + 2) with (Z.of_nat (i + 2)) by lia.
  destruct (u16le p (Z.of_nat (i + 2))) as [b|] eqn:Hb; [|done]. simpl. intros [= <-].
  pose proof (u16le_range _ _ _ Hp Ha). pose proof (u16le_range _ _ _ Hp Hb).
  apply u16le_bytes in Ha, Hb; [|done..]. rewrite Ha, Hb. unfold put32le.
  replace ((a + 65536 * b) / 65536) with b by (apply Z.div_unique with a; lia).
  replace ((a + 65536 * b) mod 256) with (a mod 256)
    by (replace (a + 65536 * b) with (a + 256 * b * 256) by lia; by rewrite Z.mod_add by lia).
  replace ((a + 65536 * b) / 256) with (a / 256 + b * 256)
    by (replace (a + 65536 * b) with (a + 256 * b * 256) by lia; rewrite Z.div_add by lia; lia).
  rewrite Z.mod_add by lia. by replace (i + 4)%nat with (i + 2 + 2)%nat by lia.
Qed.

(** ** Addresses in network order *)

Definition address_bytes (n : Z) : list Z := [n / 2 ^ 24; (n / 2 ^ 16) mod 256; (n / 2 ^ 8) mod 256; n mod 256].

Lemma address_bytes_of a b c d :
  0 <= a < 256 → 0 <= b < 256 → 0 <= c < 256 → 0 <= d < 256 →
  address_bytes (((a * 256 + b) * 256 + c) * 256 + d) = [a; b; c; d].
Proof.
  intros Ha Hb Hc Hd. set (n := ((a * 256 + b) * 256 + c) * 256 + d). unfold address_bytes.
  replace (n / 2 ^ 24) with a by (apply Z.div_unique with ((b * 256 + c) * 256 + d); unfold n; lia).
  replace (n / 2 ^ 16) with (a * 256 + b) by (apply Z.div_unique with (c * 256 + d); unfold n; lia).
  replace (n / 2 ^ 8) with ((a * 256 + b) * 256 + c) by (apply Z.div_unique with d; unfold n; lia).
  replace (n mod 256) with d by (apply Z.mod_unique with ((a * 256 + b) * 256 + c); unfold n; lia).
  replace ((a * 256 + b) mod 256) with b by (apply Z.mod_unique with a; lia).
  by replace (((a * 256 + b) * 256 + c) mod 256) with c by (apply Z.mod_unique with (a * 256 + b); lia).
Qed.

Lemma address_bytes_number n :
  ((n / 2 ^ 24 * 256 + (n / 2 ^ 16) mod 256) * 256 + (n / 2 ^ 8) mod 256) * 256 + n mod 256 = n.
Proof.
  pose proof (Z.div_mod n 256). pose proof (Z.div_mod (n / 2 ^ 8) 256). pose proof (Z.div_mod (n / 2 ^ 16) 256).
  assert (n / 256 / 256 = n / 2 ^ 16) by (rewrite Z.div_div by lia; done).
  assert (n / 2 ^ 16 / 256 = n / 2 ^ 24) by (rewrite Z.div_div by lia; done).
  change (2 ^ 8) with 256 in *. lia.
Qed.

Lemma address_bytes_bytes n : 0 <= n < 2 ^ 32 → bytes (address_bytes n).
Proof.
  intros Hn. repeat constructor; try (apply Z.mod_pos_bound; lia);
    [apply Z.div_pos; lia|apply Z.div_lt_upper_bound; lia].
Qed.
#[export] Hint Resolve address_bytes_bytes : cozy.

(** ** Alignment: [(n+3)&^3] *)

Lemma step_aligned n : 0 <= n → Z.ldiff (n + 3) 3 = n + 3 - (n + 3) mod 4.
Proof.
  intros. change 3 with (Z.ones 2) at 2. rewrite Z.ldiff_ones_r by lia.
  rewrite Z.shiftl_mul_pow2, Z.shiftr_div_pow2 by lia. change (2 ^ 2) with 4.
  pose proof (Z.div_mod (n + 3) 4). lia.
Qed.

#[export] Hint Resolve put16le_bytes put16be_bytes put32le_bytes : cozy.
