(* ===== verification/ICMPPacket.v ===== *)
(** * ICMP packets and control messages

    [gatewayicmp/packet.go]: the Internet checksum, the echo request the gateway sender
    writes, the test that accepts its reply, and the parser of the kernel's ancillary
    data.  The checksum is characterized modulo 65535, the accepted replies are exactly
    the echo of the request, and the ancillary parser is compared with a grammar of
    control messages; it never reads outside its input. *)

From S2P Require Import Prelude GoTime NetAddr GoBytes GatewayPlan.

Module ICMPPacket.

Definition packetBytes : Z := 40.
Definition maxControlBytes : Z := 256.

(** ** The checksum

    [for len(data) >= 2 { sum += uint32(binary.BigEndian.Uint16(data)) ... }], with the
    32-bit accumulator wrapping around. *)
Fixpoint sum16 (data : list Z) (sum : Z) : Z :=
  match data with
  | a :: b :: rest => sum16 rest ((sum + (256 * a + b)) mod 2 ^ 32)
  | [a] => (sum + Z.shiftl a 8) mod 2 ^ 32
  | [] => sum
  end.

(** [for sum>>16 != 0 { sum = sum&0xffff + sum>>16 }]; three rounds settle every 32-bit
    number ([fold16_range]). *)
Fixpoint fold16 (fuel : nat) (sum : Z) : Z :=
  match fuel with
  | O => sum
  | S fuel =>
      if Z.shiftr sum 16 =? 0 then sum
      else fold16 fuel (Z.land sum 65535 + Z.shiftr sum 16)
  end.

Definition checksum (data : list Z) : Z := 65535 - fold16 3 (sum16 data 0).

(** ** The request and its reply *)

Definition echoRequest (id seq : Z) (nonce : list Z) : list Z :=
  let sum := checksum ([8; 0; 0; 0] ++ put16be id ++ put16be seq ++ nonce) in
  [8; 0] ++ put16be sum ++ put16be id ++ put16be seq ++ nonce.

Record Request := mkRequest {
  Plan : GatewayCheckPlan;
  Source : Addr;
}.

Record datagram := mkDatagram {
  data : list Z;
  peer : Addr;
  local : Addr;
  index : Z;
  truncated : bool;
}.

Definition matchesReply (d : datagram) (r : Request) (id seq : Z) (nonce : list Z) : bool :=
  let p := data d in
  negb (truncated d) && (peer d == Target (Plan r)) && (local d == Source r) &&
  (index d =? InterfaceIndex (Binding (Plan r))) &&
  (llen p =? packetBytes) && (byte_at p 0 == Some 0) && (byte_at p 1 == Some 0) && (checksum p =? 0) &&
  (u16be p 4 == Some id) && (u16be p 6 == Some seq) && (slice_from p 8 == Some nonce).

(** ** Ancillary data

    The state of the loop: the local address and the interface index found so far.
    [None] is a read outside the input, [Some None] the result [false]. *)
Definition control_payload (payload : list Z) (kind : Z) (st : Addr * Z) : option (option (Addr * Z)) :=
  let '(local, index) := st in
  if kind =? 7 then
    if IsValid local || negb (llen payload =? 4) then Some None
    else a ← byte_at payload 0; b ← byte_at payload 1; c ← byte_at payload 2; d ← byte_at payload 3;
         Some (Some (V4 (((a * 256 + b) * 256 + c) * 256 + d), index))
  else if kind =? 20 then
    if negb (index =? 0) || (llen payload <? 8) then Some None
    else
      len ← byte_at payload 0; family ← byte_at payload 1;
      n ← byte_at payload 5; a ← byte_at payload 6; s ← byte_at payload 7;
      if negb (len =? llen payload) || negb (family =? 18) || (llen payload <? 8 + n + a + s) then Some None
      else index ← u16le payload 2;
           if index =? 0 then Some None else Some (Some (local, index))
  else Some None.

(** [for len(data) != 0]; every round consumes at least twelve bytes. *)
Fixpoint control_loop (fuel : nat) (data : list Z) (st : Addr * Z) : option (option (Addr * Z)) :=
  match fuel with
  | O => None
  | S fuel =>
      if llen data =? 0 then Some (Some st)
      else if llen data <? 12 then Some None
      else
        n ← u32le data 0; level ← u32le data 4;
        if (n <? 12) || (llen data <? n) || negb (level =? 0) then Some None
        else
          payload ← slice data 12 n; kind ← u32le data 8;
          r ← control_payload payload kind st;
          match r with
          | None => Some None
          | Some st =>
              let step := Z.ldiff (n + 3) 3 in
              if llen data <? step then Some None
              else rest ← slice_from data step; control_loop fuel rest st
          end
  end.

Definition parseControl (data : list Z) : option (option (Addr * Z)) :=
  if (llen data =? 0) || (maxControlBytes <? llen data) then Some None
  else
    r ← control_loop (S (length data)) data (AddrNone, 0);
    match r with
    | Some (local, index) => if Is4 local && (0 <? index) then Some (Some (local, index)) else Some None
    | None => Some None
    end.

(** ** What the checksum computes *)

(** The sum of the 16-bit words, without the width of the accumulator. *)
Fixpoint words (data : list Z) : Z :=
  match data with
  | a :: b :: rest => 256 * a + b + words rest
  | [a] => 256 * a
  | [] => 0
  end.

Lemma words_bound n data : (length data ≤ n)%nat → bytes data → 0 <= words data <= 65535 * Z.of_nat n.
Proof.
  revert data. induction n as [n IH] using lt_wf_ind. intros data Hl Hb.
  destruct data as [|a [|b rest]]; simpl in *; [lia|inversion Hb; lia|].
  inversion Hb as [|?? Ha Hb']. inversion Hb' as [|?? Hb0 Hr].
  destruct n as [|n]; [lia|]. specialize (IH n ltac:(lia) rest ltac:(lia) Hr). lia.
Qed.

Lemma sum16_words n data sum :
  (length data ≤ n)%nat → bytes data → 0 <= sum → sum + 65535 * Z.of_nat n < 2 ^ 32 →
  sum16 data sum = sum + words data.
Proof.
  revert data sum. induction n as [n IH] using lt_wf_ind. intros data sum Hl Hb Hs Hw.
  destruct data as [|a [|b rest]]; simpl in *; [lia| |].
  - inversion Hb as [|?? Ha ?]. rewrite Z.shiftl_mul_pow2 by lia. rewrite Z.mod_small; lia.
  - inversion Hb as [|?? Ha Hb']. inversion Hb' as [|?? Hb0 Hr]. destruct n as [|n]; [lia|].
    rewrite Z.mod_small by lia. rewrite (IH n); try done; try lia.
Qed.

Lemma fold_step s : 0 <= s → Z.land s 65535 + Z.shiftr s 16 = s mod 65536 + s / 65536.
Proof.
  intros. change 65535 with (Z.ones 16). rewrite Z.land_ones, Z.shiftr_div_pow2 by lia. done.
Qed.

Lemma fold16_mod fuel s : 0 <= s → 0 <= fold16 fuel s ∧ fold16 fuel s mod 65535 = s mod 65535 ∧ (fold16 fuel s = 0 ↔ s = 0).
Proof.
  revert s. induction fuel as [|fuel IH]; intros s Hs; [by split_and!|]. cbn [fold16].
  destruct (Z.shiftr s 16 =? 0); [by split_and!|]. rewrite fold_step by done.
  pose proof (Z.div_mod s 65536 ltac:(lia)). pose proof (Z.mod_pos_bound s 65536 ltac:(lia)).
  pose proof (Z.div_pos s 65536 Hs ltac:(lia)).
  destruct (IH (s mod 65536 + s / 65536) ltac:(lia)) as (IH1 & IH2 & IH3).
  split; [done|]. rewrite IH2, IH3. split; [|lia].
  replace s with (s mod 65536 + s / 65536 + (s / 65536) * 65535) at 3 by lia.
  by rewrite Z.mod_add by lia.
Qed.

Lemma fold16_range s : 0 <= s < 2 ^ 32 → 0 <= fold16 3 s < 65536.
Proof.
  intros Hs. split; [apply fold16_mod; lia|].
  assert (Hstep : ∀ x b, 0 <= x < 65536 * b → x mod 65536 + x / 65536 < 65535 + b ∧ 0 <= x mod 65536 + x / 65536).
  { intros x b Hx. pose proof (Z.mod_pos_bound x 65536). assert (x / 65536 < b) by (apply Z.div_lt_upper_bound; lia).
    assert (0 <= x / 65536) by (apply Z.div_pos; lia). lia. }
  assert (Hsmall : ∀ x, 0 <= x → Z.shiftr x 16 =? 0 = (x <? 65536)).
  { intros x Hx. rewrite Z.shiftr_div_pow2 by lia. apply eq_bool_prop_intro. rewrite !Is_true_true, Z.eqb_eq, Z.ltb_lt.
    rewrite Z.div_small_iff by lia. lia. }
  cbn [fold16]. rewrite Hsmall by lia. destruct (Z.ltb_spec s 65536); [done|]. rewrite fold_step by lia.
  destruct (Hstep s 65536 ltac:(lia)) as [H1 H1'].
  rewrite Hsmall by lia. destruct (Z.ltb_spec (s mod 65536 + s / 65536) 65536); [done|]. rewrite fold_step by lia.
  set (t := s mod 65536 + s / 65536) in *. clearbody t. destruct (Hstep t 2 ltac:(lia)) as [H2 H2'].
  rewrite Hsmall by lia. destruct (Z.ltb_spec (t mod 65536 + t / 65536) 65536); [done|]. rewrite fold_step by lia.
  exfalso. assert (t / 65536 = 1) as Hq by (symmetry; apply Z.div_unique with (t - 65536); lia).
  assert (t mod 65536 = t - 65536) by (symmetry; apply Z.mod_unique with 1; lia). lia.
Qed.

(** The packets of the sender are far too short to overflow the accumulator. *)
Lemma checksum_fold data :
  bytes data → (length data ≤ 512)%nat → checksum data = 65535 - fold16 3 (words data).
Proof.
  intros Hb Hl. unfold checksum. rewrite (sum16_words 512) by (done || lia). done.
Qed.

Lemma checksum_range data : bytes data → (length data ≤ 512)%nat → 0 <= checksum data < 65536.
Proof.
  intros Hb Hl. rewrite checksum_fold by done. pose proof (words_bound 512 data Hl Hb).
  pose proof (fold16_range (words data) ltac:(lia)). lia.
Qed.

(** A packet verifies exactly when its words sum to a positive multiple of 65535. *)
Lemma checksum_zero data : bytes data → (length data ≤ 512)%nat →
  checksum data = 0 ↔ words data mod 65535 = 0 ∧ words data ≠ 0.
Proof.
  intros Hb Hl. rewrite checksum_fold by done. pose proof (words_bound 512 data Hl Hb).
  pose proof (fold16_range (words data) ltac:(lia)).
  destruct (fold16_mod 3 (words data) ltac:(lia)) as (_ & Hm & Hz). rewrite <- Hm.
  set (f := fold16 3 (words data)) in *. split.
  - intros ?. assert (f = 65535) as Hf by lia. rewrite Hf in Hz |- *. split; [done|]. lia.
  - intros [Hf Hne]. assert (f ≠ 0) by tauto. apply Z.mod_divide in Hf as [q Hq]; lia.
Qed.

(** The checksum complements the words it was computed over. *)
Lemma checksum_complements data :
  bytes data → (length data ≤ 512)%nat →
  (words data + checksum data) mod 65535 = 0 ∧ words data + checksum data ≠ 0.
Proof.
  intros Hb Hl. rewrite checksum_fold by done. pose proof (words_bound 512 data Hl Hb).
  pose proof (fold16_range (words data) ltac:(lia)).
  destruct (fold16_mod 3 (words data) ltac:(lia)) as (_ & Hm & Hz). split.
  - rewrite Zplus_mod, <- Hm, <- Zplus_mod.
    replace (fold16 3 (words data) + (65535 - fold16 3 (words data))) with 65535 by lia. done.
  - intros E. assert (words data = 0) as Hw by lia. apply Hz in Hw. lia.
Qed.

(** ** Requests and replies *)

(** A packet of the given type whose checksum field is [c]. *)
Definition echo_packet (type c id seq : Z) (nonce : list Z) : list Z :=
  [type; 0] ++ put16be c ++ put16be id ++ put16be seq ++ nonce.

Definition word (v : Z) : Prop := 0 <= v < 65536.

Lemma words_put16 v rest : word v → words (put16be v ++ rest) = v + words rest.
Proof. intros H. destruct (split16 v H) as [H1 H2]. cbn [put16be app words]. lia. Qed.

Lemma words_echo type c id seq nonce :
  word c → word id → word seq →
  words (echo_packet type c id seq nonce) = 256 * type + c + id + seq + words nonce.
Proof.
  intros Hc Hi Hs. unfold echo_packet. cbn [app words]. rewrite !words_put16 by done. lia.
Qed.

Lemma echo_bytes type c id seq nonce :
  0 <= type < 256 → bytes nonce → bytes (echo_packet type c id seq nonce).
Proof.
  intros. unfold echo_packet. rewrite !bytes_app. split_and!; auto with cozy.
  apply Forall_cons_2; [done|]. apply Forall_cons_2; [lia|constructor].
Qed.

Lemma echo_length type c id seq nonce : length (echo_packet type c id seq nonce) = (8 + length nonce)%nat.
Proof. done. Qed.

(** The checksum the sender of a packet of this type writes. *)
Definition echo_sum (type id seq : Z) (nonce : list Z) : Z := checksum (echo_packet type 0 id seq nonce).

Lemma echoRequest_packet id seq nonce : echoRequest id seq nonce = echo_packet 8 (echo_sum 8 id seq nonce) id seq nonce.
Proof. done. Qed.

Lemma echo_sum_word type id seq nonce :
  0 <= type < 256 → bytes nonce → length nonce = 32%nat → word (echo_sum type id seq nonce).
Proof. intros Ht Hn Hl. apply checksum_range; [by apply echo_bytes|rewrite echo_length; lia]. Qed.

(** A packet with the computed checksum verifies. *)
Lemma echo_sum_verifies type id seq nonce :
  0 <= type < 256 → word id → word seq → bytes nonce → length nonce = 32%nat →
  checksum (echo_packet type (echo_sum type id seq nonce) id seq nonce) = 0.
Proof.
  intros Ht Hi Hs Hn Hl. pose proof (echo_sum_word type id seq nonce Ht Hn Hl) as Hw.
  apply checksum_zero; [by apply echo_bytes|rewrite echo_length; lia|]. rewrite words_echo by done.
  destruct (checksum_complements (echo_packet type 0 id seq nonce)) as [H1 H2];
    [by apply echo_bytes|rewrite echo_length; lia|].
  rewrite words_echo in H1, H2 by done. fold (echo_sum type id seq nonce) in H1, H2.
  replace (256 * type + echo_sum type id seq nonce + id + seq + words nonce)
    with (256 * type + 0 + id + seq + words nonce + echo_sum type id seq nonce) by lia.
  done.
Qed.

(** A packet of forty bytes is determined by its header fields and its payload. *)
Lemma packet_fields p type id seq nonce :
  bytes p → llen p = packetBytes → byte_at p 0 = Some type → byte_at p 1 = Some 0 →
  u16be p 4 = Some id → u16be p 6 = Some seq → slice_from p 8 = Some nonce →
  ∃ c, word c ∧ p = echo_packet type c id seq nonce.
Proof.
  intros Hp Hl H0 H1 H4 H6 H8. destruct (u16be_some p 2) as (c & H2); [lia|unfold packetBytes in *; lia|].
  assert (word c) as Hc.
  { revert H2. unfold u16be. destruct (byte_at p 2) eqn:E1; [|done]. simpl.
    destruct (byte_at p (2 + 1)) eqn:E2; [|done]. simpl. intros [= <-].
    apply byte_at_range in E1, E2; [|done..]. unfold word. lia. }
  exists c. split; [done|]. rewrite slice_from_some in H8 by (unfold packetBytes in *; lia).
  injection H8 as <-. apply u16be_bytes in H2 as [B2 B3], H4 as [B4 B5], H6 as [B6 B7]; [|done..].
  rewrite <- (take_drop 8 p) at 1. unfold echo_packet. rewrite !app_assoc. f_equal.
  change (p !! 0%nat = Some type) in H0. change (p !! 1%nat = Some 0) in H1.
  change (p !! 2%nat = Some ((c / 256) mod 256)) in B2. change (p !! 3%nat = Some (c mod 256)) in B3.
  change (p !! 4%nat = Some ((id / 256) mod 256)) in B4. change (p !! 5%nat = Some (id mod 256)) in B5.
  change (p !! 6%nat = Some ((seq / 256) mod 256)) in B6. change (p !! 7%nat = Some (seq mod 256)) in B7.
  unfold llen, packetBytes in Hl. clear Hp.
  do 8 (destruct p as [|? p]; [simpl in Hl; lia|]). simpl in *.
  rewrite take_0. unfold put16be. congruence.
Qed.

(** What the reply test accepts: an untruncated datagram from the target to the bound
    source on the bound interface, whose bytes are the echo of the request, with a
    checksum field that complements the other words.  The reply of a host that computes
    the checksum is one of them. *)
Lemma matches_reply_iff d r id seq nonce :
  bytes (data d) → word id → word seq → bytes nonce → length nonce = 32%nat →
  matchesReply d r id seq nonce = true ↔
  truncated d = false ∧ peer d = Target (Plan r) ∧ local d = Source r ∧
  index d = InterfaceIndex (Binding (Plan r)) ∧
  ∃ c, word c ∧ data d = echo_packet 0 c id seq nonce ∧
    (c + id + seq + words nonce) mod 65535 = 0 ∧ c + id + seq + words nonce ≠ 0.
Proof.
  intros Hb Hi Hs Hn Hl. unfold matchesReply. rewrite !andb_true_iff, !bool_decide_eq_true, !Z.eqb_eq, negb_true_iff.
  split.
  - intros ((((((((((Ht & Hp) & Hlo) & Hx) & Hlen) & H0) & H1) & Hc) & H4) & H6) & H8).
    split_and!; try done. destruct (packet_fields _ _ _ _ _ Hb Hlen H0 H1 H4 H6 H8) as (c & Hw & E).
    exists c. split; [done|]. split; [done|]. rewrite E in Hc.
    apply checksum_zero in Hc; [|by apply echo_bytes|rewrite echo_length; lia].
    rewrite words_echo in Hc by done. rewrite Z.mul_0_r, Z.add_0_l in Hc. done.
  - intros (Ht & Hp & Hlo & Hx & c & Hw & E & Hm & Hne). rewrite E.
    assert (u16be (echo_packet 0 c id seq nonce) 4 = Some id ∧ u16be (echo_packet 0 c id seq nonce) 6 = Some seq) as [H4 H6].
    { split; [apply (u16be_put id (put16be seq ++ nonce) Hi)|apply (u16be_put seq nonce Hs)]. }
    split_and!; try done.
    + unfold llen, packetBytes. rewrite echo_length, Hl. done.
    + apply checksum_zero; [by apply echo_bytes|rewrite echo_length; lia|].
      rewrite words_echo by done. by rewrite Z.mul_0_r, Z.add_0_l.
    + rewrite slice_from_some; [done|]. unfold llen. rewrite echo_length. lia.
Qed.

(** The reply of a host that computes the checksum is accepted. *)
Lemma echo_accepted r id seq nonce :
  word id → word seq → bytes nonce → length nonce = 32%nat →
  matchesReply (mkDatagram (echo_packet 0 (echo_sum 0 id seq nonce) id seq nonce) (Target (Plan r)) (Source r)
                  (InterfaceIndex (Binding (Plan r))) false) r id seq nonce = true.
Proof.
  intros Hi Hs Hn Hl. apply matches_reply_iff; simpl; try done; [by apply echo_bytes|].
  split_and!; try done. pose proof (echo_sum_word 0 id seq nonce ltac:(lia) Hn Hl) as Hw.
  exists (echo_sum 0 id seq nonce). split; [done|]. split; [done|].
  pose proof (echo_sum_verifies 0 id seq nonce ltac:(lia) Hi Hs Hn Hl) as Hv.
  apply checksum_zero in Hv; [|by apply echo_bytes|rewrite echo_length; lia].
  rewrite words_echo in Hv by done. by rewrite Z.mul_0_r, Z.add_0_l in Hv.
Qed.

(** C14: requests and replies fit together.  For any identifier, sequence number and
    nonce the request is an echo request of forty bytes that verifies; the reply of a
    host that computes the checksum is accepted; and whatever is accepted came from the
    target to the bound source on the bound interface and is byte for byte the echo of
    the request, up to the two spellings of a zero checksum. *)
Theorem echo_roundtrip r id seq nonce :
  word id → word seq → bytes nonce → length nonce = 32%nat →
  let request := echoRequest id seq nonce in
  let reply := echo_packet 0 (echo_sum 0 id seq nonce) id seq nonce in
  let arrives p := mkDatagram p (Target (Plan r)) (Source r) (InterfaceIndex (Binding (Plan r))) false in
  length request = 40%nat ∧ checksum request = 0 ∧ matchesReply (arrives reply) r id seq nonce = true ∧
  ∀ d, bytes (data d) → matchesReply d r id seq nonce = true →
    ∃ c, d = arrives (echo_packet 0 c id seq nonce) ∧ word c ∧ (c - echo_sum 0 id seq nonce) mod 65535 = 0.
Proof.
  intros Hi Hs Hn Hl request reply arrives. split_and!.
  - unfold request. rewrite echoRequest_packet, echo_length, Hl. done.
  - unfold request. rewrite echoRequest_packet. apply echo_sum_verifies; done || lia.
  - by apply echo_accepted.
  - intros d Hd Hm. apply matches_reply_iff in Hm as (Ht & Hp & Hlo & Hx & c & Hc & E & Hmod & _); [|done..].
    exists c. split_and!; [|done|].
    + destruct d as [p pe lo ix tr]. unfold arrives. simpl in *. by subst.
    + destruct (checksum_complements (echo_packet 0 0 id seq nonce)) as [H1 _];
        [by apply echo_bytes|rewrite echo_length; lia|].
      fold (echo_sum 0 id seq nonce) in H1. rewrite words_echo in H1 by done.
      apply Z.mod_divide in H1 as [q Hq], Hmod as [q' Hq']; [|lia..].
      apply Z.mod_divide; [lia|]. exists (q' - q). lia.
Qed.

(** ** The grammar of ancillary data *)

(** A control message: length, level zero, type, payload and padding to four bytes. *)
Definition cmsg (kind : Z) (payload pad : list Z) : list Z :=
  put32le (12 + llen payload) ++ put32le 0 ++ put32le kind ++ payload ++ pad.

Definition padded (payload pad : list Z) : Prop :=
  0 <= llen pad < 4 ∧ (llen payload + llen pad) mod 4 = 0.

(** A link-layer socket address of the interface [i]. *)
Definition link_payload (payload : list Z) (i : Z) : Prop :=
  8 <= llen payload ∧ byte_at payload 0 = Some (llen payload) ∧ byte_at payload 1 = Some 18 ∧
  u16le payload 2 = Some i ∧ 0 < i ∧
  ∃ n a s, byte_at payload 5 = Some n ∧ byte_at payload 6 = Some a ∧ byte_at payload 7 = Some s ∧
    8 + n + a + s <= llen payload.

(** Exactly one destination address and one interface, in either order. *)
Definition control_enc (data : list Z) (local : Addr) (i : Z) : Prop :=
  ∃ n payload pad, 0 <= n < 2 ^ 32 ∧ local = V4 n ∧ link_payload payload i ∧ padded payload pad ∧
    (data = cmsg 7 (address_bytes n) [] ++ cmsg 20 payload pad ∨
     data = cmsg 20 payload pad ++ cmsg 7 (address_bytes n) []).

Lemma control_payload_safe payload kind st : ∃ r, control_payload payload kind st = Some r.
Proof.
  destruct st as [local index]. unfold control_payload. destruct (kind =? 7).
  { destruct (IsValid local); simpl; [eauto|]. destruct (Z.eqb_spec (llen payload) 4); simpl; [|eauto].
    do 4 read_some. eauto. }
  destruct (kind =? 20); [|eauto]. destruct (negb (index =? 0)); simpl; [eauto|].
  destruct (Z.ltb_spec (llen payload) 8); [eauto|]. do 5 read_some.
  destruct (_ || _); [eauto|]. read_some. destruct (_ =? 0); eauto.
Qed.

(** What one control message adds to the state. *)
Lemma control_payload_inv payload kind local index local' index' :
  bytes payload →
  control_payload payload kind (local, index) = Some (Some (local', index')) ↔
  (kind = 7 ∧ IsValid local = false ∧ index' = index ∧
     ∃ n, 0 <= n < 2 ^ 32 ∧ local' = V4 n ∧ payload = address_bytes n) ∨
  (kind = 20 ∧ index = 0 ∧ local' = local ∧ link_payload payload index').
Proof.
  intros Hp. unfold control_payload. destruct (Z.eqb_spec kind 7) as [->|H7].
  { split.
    - destruct (IsValid local); simpl; [done|]. destruct (Z.eqb_spec (llen payload) 4) as [Hl|]; simpl; [|done].
      unfold llen in Hl. destruct payload as [|a [|b [|c [|d [|]]]]]; simpl in Hl; try lia.
      apply Forall_cons in Hp as [Ha Hp]. apply Forall_cons in Hp as [Hb Hp].
      apply Forall_cons in Hp as [Hc Hp]. apply Forall_cons in Hp as [Hd _].
      intros H. change (Some (Some (V4 (((a * 256 + b) * 256 + c) * 256 + d), index)) = Some (Some (local', index'))) in H.
      injection H as <- <-. left. split_and!; try done. exists (((a * 256 + b) * 256 + c) * 256 + d).
      split; [lia|]. split; [done|].
      by rewrite address_bytes_of.
    - intros [(_ & -> & -> & n & Hn & -> & ->)|[? _]]; [|lia]. simpl. do 4 f_equal. by apply address_bytes_number. }
  destruct (Z.eqb_spec kind 20) as [->|H20]; [|split; [done|lia]].
  assert (Hiff : ∀ P Q : Prop, (P ↔ Q) → (P ↔ (20 = 7 ∧ IsValid local = false ∧ index' = index ∧
     ∃ n, 0 <= n < 2 ^ 32 ∧ local' = V4 n ∧ payload = address_bytes n) ∨ Q)).
  { intros P Q ->. split; [by right|intros [[? _]|]; [lia|done]]. }
  apply Hiff. clear Hiff. destruct (Z.eqb_spec index 0) as [->|Hi]; simpl; [|split; [done|lia]].
  unfold link_payload. destruct (Z.ltb_spec (llen payload) 8) as [Hl|Hl].
  { split; [done|lia]. }
  do 5 read_some.
  destruct (Z.eqb_spec b3 (llen payload)) as [->|Hb'], (Z.eqb_spec b2 18) as [->|Hb0'],
    (Z.ltb_spec (llen payload) (8 + b1 + b0 + b)); simpl;
    try (split; [done|]; intros (_ & _ & _ & _ & ? & ? & _ & _ & ? & ? & ? & ? & ? & ? & ?); simplify_eq; lia).
  destruct (u16le_some payload 2) as (v & Hv); [lia..|]. rewrite Hv. simpl.
  apply u16le_range in Hv as Hr; [|done]. destruct (Z.eqb_spec v 0) as [->|Hv0]; split.
  - done.
  - intros (_ & _ & _ & _ & _ & _ & [= <-] & ? & _). lia.
  - intros [= <- <-]. split_and!; try done; [lia|]. by exists b1, b0, b.
  - intros (_ & _ & -> & _ & _ & _ & [= ->] & _). done.
Qed.

Lemma cmsg_length kind payload pad : llen (cmsg kind payload pad) = 12 + llen payload + llen pad.
Proof. unfold cmsg, llen. rewrite !length_app. simpl. lia. Qed.

(** The aligned length of a message is that of its header, payload and padding. *)
Lemma cmsg_step payload pad :
  padded payload pad → Z.ldiff (12 + llen payload + 3) 3 = 12 + llen payload + llen pad.
Proof.
  intros [Hl Hm]. unfold llen in *. rewrite step_aligned by lia.
  set (n := Z.of_nat (length payload)) in *. set (k := Z.of_nat (length pad)) in *.
  assert (Hq : n + k = 4 * ((n + k) / 4)) by (pose proof (Z.div_mod (n + k) 4); lia).
  assert ((12 + n + 3) mod 4 = 3 - k); [|lia].
  symmetry. apply Z.mod_unique with (3 + (n + k) / 4); lia.
Qed.

(** A message at the front of the data is read back. *)
Lemma control_loop_cmsg fuel kind payload pad rest st :
  0 <= kind < 2 ^ 32 → 12 + llen payload < 2 ^ 32 → padded payload pad →
  control_loop (S fuel) (cmsg kind payload pad ++ rest) st =
  r ← control_payload payload kind st;
  match r with None => Some None | Some st => control_loop fuel rest st end.
Proof.
  intros Hk Hn Hpad. cbn [control_loop]. set (data := cmsg kind payload pad ++ rest).
  assert (Hlen : llen data = 12 + llen payload + llen pad + llen rest).
  { unfold data. pose proof (cmsg_length kind payload pad). unfold llen in *. rewrite length_app. lia. }
  pose proof Hpad as [Hp _].
  assert (0 <= llen payload ∧ 0 <= llen rest) by (unfold llen; lia).
  destruct (Z.eqb_spec (llen data) 0); [lia|]. destruct (Z.ltb_spec (llen data) 12); [lia|].
  assert (u32le data 0 = Some (12 + llen payload)) as ->.
  { unfold data, cmsg. rewrite <- app_assoc. apply u32le_put. lia. }
  assert (u32le data 4 = Some 0) as ->.
  { unfold data, cmsg. rewrite <- !app_assoc. rewrite (u32le_skip (put32le (12 + llen payload)) _ 0) by lia.
    apply u32le_put. lia. }
  cbn [mbind option_bind].
  rewrite (proj2 (Z.ltb_ge _ 12)), (proj2 (Z.ltb_ge (llen data) _)) by lia. cbn [orb negb Z.eqb].
  assert (slice data 12 (12 + llen payload) = Some payload) as ->.
  { rewrite slice_some by lia. replace (Z.to_nat (12 + llen payload - 12)) with (length payload) by (unfold llen; lia).
    unfold data, cmsg. rewrite <- !app_assoc. f_equal.
    rewrite (app_assoc (put32le _)), (app_assoc (_ ++ _) (put32le kind)).
    change (Z.to_nat 12) with (length ((put32le (12 + llen payload) ++ put32le 0) ++ put32le kind)).
    by rewrite drop_app_length, take_app_length. }
  assert (u32le data 8 = Some kind) as ->.
  { unfold data, cmsg. rewrite <- !app_assoc. rewrite (app_assoc (put32le _) (put32le 0)).
    rewrite (u32le_skip (put32le (12 + llen payload) ++ put32le 0) _ 0) by lia. by apply u32le_put. }
  cbn [mbind option_bind]. destruct (control_payload payload kind st) as [[st'|]|]; [|done..]. cbn [mbind option_bind].
  rewrite (cmsg_step payload pad) by done. rewrite (proj2 (Z.ltb_ge _ _)) by lia.
  rewrite slice_from_some by lia. cbn [mbind option_bind].
  replace (drop _ data) with rest; [done|]. unfold data.
  replace (Z.to_nat _) with (length (cmsg kind payload pad)).
  - by rewrite drop_app_length.
  - pose proof (cmsg_length kind payload pad). unfold llen in *. lia.
Qed.

(** Data the loop accepts starts with a message, or is empty. *)
Lemma control_loop_inv fuel data st st' :
  bytes data → control_loop (S fuel) data st = Some (Some st') →
  (data = [] ∧ st' = st) ∨
  ∃ kind payload pad rest, data = cmsg kind payload pad ++ rest ∧ padded payload pad ∧
    0 <= kind < 2 ^ 32 ∧ 12 + llen payload < 2 ^ 32.
Proof.
  intros Hb. cbn [control_loop]. destruct (Z.eqb_spec (llen data) 0) as [Hz|Hz].
  { intros [= ->]. left. split; [|done]. destruct data; [done|]. unfold llen in Hz. simpl in Hz. lia. }
  destruct (Z.ltb_spec (llen data) 12) as [|H12]; [done|].
  destruct (u32le_some data 0) as (n & Hn); [lia..|]. rewrite Hn.
  destruct (u32le_some data 4) as (level & Hlevel); [lia..|]. rewrite Hlevel. cbn [mbind option_bind].
  destruct (Z.ltb_spec n 12); [done|]. destruct (Z.ltb_spec (llen data) n); [done|].
  destruct (Z.eqb_spec level 0) as [->|]; [|done]. cbn [orb negb].
  rewrite slice_some by lia. destruct (u32le_some data 8) as (kind & Hkind); [lia..|]. rewrite Hkind.
  cbn [mbind option_bind]. set (payload := take _ _).
  destruct (control_payload payload kind st) as [[st1|]|]; [|done..]. cbn [mbind option_bind].
  rewrite step_aligned by lia. set (step := n + 3 - (n + 3) mod 4).
  pose proof (Z.mod_pos_bound (n + 3) 4 ltac:(lia)).
  assert (n <= step) by (unfold step; lia). destruct (Z.ltb_spec (llen data) step); [done|]. intros _. right.
  pose proof (u32le_range _ _ _ Hb Hn). pose proof (u32le_range _ _ _ Hb Hkind).
  assert (Hpl : llen payload = n - 12).
  { unfold payload, llen in *. rewrite length_take, length_drop. lia. }
  set (pad := take (Z.to_nat (step - n)) (drop (Z.to_nat n) data)).
  assert (Hpd : llen pad = step - n).
  { unfold pad, llen in *. rewrite length_take, length_drop. unfold step. lia. }
  exists kind, payload, pad, (drop (Z.to_nat step) data). split; [|split; [|lia]].
  - apply (u32le_bytes data 0) in Hn; [|done]. apply (u32le_bytes data 4) in Hlevel; [|done].
    apply (u32le_bytes data 8) in Hkind; [|done]. rewrite drop_0 in Hn. rewrite Hn at 1. simpl (0 + 4)%nat. rewrite Hlevel.
    simpl (4 + 4)%nat. rewrite Hkind. simpl (8 + 4)%nat. unfold cmsg. rewrite Hpl, <- !app_assoc.
    replace (12 + (n - 12)) with n by lia. do 3 f_equal.
    unfold payload, pad. change (Z.to_nat 12) with 12%nat. clearbody step. clear pad payload Hpl Hpd.
    rewrite <- (take_drop (Z.to_nat (n - 12)) (drop 12 data)) at 1. f_equal. rewrite drop_drop.
    replace (12 + Z.to_nat (n - 12))%nat with (Z.to_nat n) by lia.
    rewrite <- (take_drop (Z.to_nat (step - n)) (drop (Z.to_nat n) data)) at 1. f_equal. rewrite drop_drop.
    replace (Z.to_nat n + Z.to_nat (step - n))%nat with (Z.to_nat step) by lia. done.
  - unfold padded. rewrite Hpl, Hpd. split; [unfold step; lia|]. replace (n - 12 + (step - n)) with (step - 3 * 4) by lia.
    unfold step. rewrite Zminus_mod. rewrite (Zminus_mod (n + 3) ((n + 3) mod 4)), Zmod_mod, Z.sub_diag. done.
Qed.

Lemma control_loop_safe fuel data st :
  bytes data → (length data < fuel)%nat → ∃ r, control_loop fuel data st = Some r.
Proof.
  revert data st. induction fuel as [|fuel IH]; intros data st Hb Hl; [lia|]. cbn [control_loop].
  destruct (Z.eqb_spec (llen data) 0) as [|Hz]; [eauto|]. destruct (Z.ltb_spec (llen data) 12); [eauto|].
  destruct (u32le_some data 0) as (n & ->); [lia..|]. destruct (u32le_some data 4) as (level & ->); [lia..|].
  cbn [mbind option_bind]. destruct (Z.ltb_spec n 12); [simpl; eauto|]. destruct (Z.ltb_spec (llen data) n); [simpl; eauto|].
  destruct (negb _); [simpl; eauto|]. cbn [orb]. rewrite slice_some by lia.
  destruct (u32le_some data 8) as (kind & ->); [lia..|]. cbn [mbind option_bind].
  destruct (control_payload_safe (take (Z.to_nat (n - 12)) (drop (Z.to_nat 12) data)) kind st) as ([st'|] & ->);
    cbn [mbind option_bind]; [|eauto].
  rewrite step_aligned by lia. pose proof (Z.mod_pos_bound (n + 3) 4 ltac:(lia)).
  destruct (Z.ltb_spec (llen data) (n + 3 - (n + 3) mod 4)); [eauto|]. rewrite slice_from_some by lia.
  cbn [mbind option_bind]. apply IH; [by apply Forall_drop|]. rewrite length_drop. unfold llen in *. lia.
Qed.

(** One accepted message, and the state after it. *)
Lemma control_loop_next fuel data local index st' :
  bytes data → data ≠ [] → control_loop (S fuel) data (local, index) = Some (Some st') →
  ∃ kind payload pad rest local1 index1, data = cmsg kind payload pad ++ rest ∧ padded payload pad ∧ bytes rest ∧
    ((kind = 7 ∧ IsValid local = false ∧ index1 = index ∧
        ∃ n, 0 <= n < 2 ^ 32 ∧ local1 = V4 n ∧ payload = address_bytes n) ∨
     (kind = 20 ∧ index = 0 ∧ local1 = local ∧ link_payload payload index1)) ∧
    control_loop fuel rest (local1, index1) = Some (Some st').
Proof.
  intros Hb Hne Hc. pose proof (control_loop_inv _ _ _ _ Hb Hc) as [[? _]|(kind & payload & pad & rest & -> & Hpad & Hk & Hn)]; [done|].
  rewrite control_loop_cmsg in Hc by done.
  destruct (control_payload payload kind (local, index)) as [[[local1 index1]|]|] eqn:E; [|done..].
  unfold cmsg in Hb. rewrite !bytes_app in Hb. destruct Hb as ((_ & _ & _ & Hp & _) & Hr).
  apply control_payload_inv in E; [|done]. exists kind, payload, pad, rest, local1, index1. eauto.
Qed.

Lemma address_padded n pad : padded (address_bytes n) pad → pad = [].
Proof.
  intros [Hl Hm]. unfold llen in *. destruct pad as [|x pad]; [done|]. exfalso.
  change (length (address_bytes n)) with 4%nat in Hm.
  rewrite Z.add_comm, <- (Z.mul_1_l (Z.of_nat 4)) in Hm. change (Z.of_nat 4) with 4 in Hm.
  rewrite Z.mod_add, Z.mod_small in Hm; simpl in *; lia.
Qed.

Lemma control_two fuel data local i :
  bytes data → data ≠ [] → control_loop (S (S (S fuel))) data (AddrNone, 0) = Some (Some (local, i)) →
  Is4 local = true → 0 < i → control_enc data local i.
Proof.
  intros Hb Hne Hr H4 Hi.
  apply control_loop_next in Hr as (k1 & p1 & pad1 & rest & l1 & i1 & -> & Hpad1 & Hbr & H1 & Hr); [|done..].
  destruct (decide (rest = [])) as [->|Hne1].
  { injection Hr as -> ->. destruct H1 as [(_ & _ & -> & _)|(_ & _ & -> & _)]; [lia|done]. }
  apply control_loop_next in Hr as (k2 & p2 & pad2 & rest2 & l2 & i2 & -> & Hpad2 & Hbr2 & H2 & Hr); [|done..].
  assert (rest2 = [] ∧ l2 = local ∧ i2 = i) as (-> & -> & ->).
  { destruct (decide (rest2 = [])) as [->|Hne2]; [injection Hr as -> ->; done|].
    apply control_loop_next in Hr as (k3 & p3 & pad3 & rest3 & l3 & i3 & _ & _ & _ & H3 & _); [|done..].
    exfalso. unfold link_payload in *. naive_solver lia. }
  rewrite app_nil_r. unfold control_enc.
  destruct H1 as [(-> & _ & -> & n & Hn & -> & ->)|(-> & _ & -> & Hk1)],
    H2 as [(-> & Hv & -> & m & Hm & -> & ->)|(-> & Hi2 & -> & Hk2)]; try done.
  - apply address_padded in Hpad1 as ->. exists n, p2, pad2. auto 10.
  - apply address_padded in Hpad2 as ->. exists m, p1, pad1. auto 10.
Qed.

Lemma address_bytes_ok n : 0 <= n < 2 ^ 32 → bytes (address_bytes n).
Proof.
  intros Hn. repeat apply Forall_cons_2; try (apply Z.mod_pos_bound; lia); [|constructor].
  split; [apply Z.div_pos; lia|apply Z.div_lt_upper_bound; lia].
Qed.

Lemma link_payload_range payload i : bytes payload → link_payload payload i → 12 + llen payload < 2 ^ 32.
Proof.
  intros Hb (_ & H0 & _). apply byte_at_range in H0; [|done]. lia.
Qed.

Lemma control_back fuel data local i :
  bytes data → control_enc data local i →
  control_loop (S (S (S fuel))) data (AddrNone, 0) = Some (Some (local, i)).
Proof.
  intros Hb (n & payload & pad & Hn & -> & Hk & Hpad & Hdata).
  assert (Hpl : bytes payload).
  { destruct Hdata as [Hd|Hd]; rewrite Hd in Hb; unfold cmsg in Hb; rewrite !bytes_app in Hb; tauto. }
  pose proof (link_payload_range _ _ Hpl Hk) as Hr.
  assert (Ha : padded (address_bytes n) []) by (split; [done|reflexivity]).
  assert (H7 : ∀ x, control_payload (address_bytes n) 7 (AddrNone, x) = Some (Some (V4 n, x))).
  { intros x. apply control_payload_inv; [by apply address_bytes_ok|]. left. split_and!; try done. by exists n. }
  assert (H20 : ∀ l, control_payload payload 20 (l, 0) = Some (Some (l, i))).
  { intros l. apply control_payload_inv; [done|]. by right. }
  destruct Hdata as [->| ->].
  - rewrite control_loop_cmsg by (done || lia). rewrite H7. cbn [mbind option_bind].
    rewrite <- (app_nil_r (cmsg 20 payload pad)). rewrite control_loop_cmsg by (done || lia). by rewrite H20.
  - rewrite control_loop_cmsg by (done || lia). rewrite H20. cbn [mbind option_bind].
    rewrite <- (app_nil_r (cmsg 7 _ [])). rewrite control_loop_cmsg by (done || lia). by rewrite H7.
Qed.

Lemma control_enc_length data local i : control_enc data local i → 24 <= llen data.
Proof.
  intros (n & payload & pad & _ & _ & _ & _ & [->| ->]);
    pose proof (cmsg_length 7 (address_bytes n) []); pose proof (cmsg_length 20 payload pad);
    unfold llen in *; rewrite length_app; simpl in *; lia.
Qed.

(** The ancillary parser decides its grammar.  On any bytes it reads inside its
    input and ends; it returns an address and an interface exactly for at most 256 bytes
    that are one destination message and one interface message, in either order, each
    with level zero, an exact length and padding to four bytes: no duplicate, unknown,
    truncated or trailing control is ever accepted. *)
Theorem control_spec data :
  bytes data →
  ∃ r, parseControl data = Some r ∧
    ∀ local i, r = Some (local, i) ↔ llen data <= maxControlBytes ∧ control_enc data local i.
Proof.
  intros Hb. unfold parseControl. destruct (_ || _) eqn:Hlen; go_bool.
  { exists None. split; [done|]. intros local i. split; [done|]. intros [? He%control_enc_length]. lia. }
  destruct (control_loop_safe (S (length data)) data (AddrNone, 0) Hb ltac:(lia)) as (r & Hr). rewrite Hr.
  cbn [mbind option_bind].
  exists (match r with
          | Some (local, index) => if Is4 local && (0 <? index) then Some (local, index) else None
          | None => None
          end).
  split; [destruct r as [[local index]|]; [destruct (_ && _)|]; done|]. intros local i. split.
  - destruct r as [[local' index]|]; [|done]. destruct (_ && _) eqn:E; [|done]. intros [= -> ->]. go_bool.
    split; [done|]. unfold llen in *.
    destruct data as [|x [|y data]]; [done| |].
    + by cbn in Hr.
    + by apply (control_two (length data)) in Hr.
  - intros [_ He]. pose proof (control_enc_length _ _ _ He) as Hl. unfold llen in Hl.
    destruct data as [|x [|y data]]; [simpl in Hl; lia..|].
    pose proof (control_back (length data) _ _ _ Hb He) as Hc. cbn [length] in Hr. rewrite Hc in Hr.
    injection Hr as <-. destruct He as (n & payload & pad & _ & -> & (_ & _ & _ & _ & Hi & _) & _).
    simpl. by rewrite (proj2 (Z.ltb_lt 0 i) Hi).
Qed.

(** *** Examples *)

Definition example_link : list Z := [20; 18; 4; 0; 6; 3; 6; 0; 101; 110; 48; 1; 2; 3; 4; 5; 6; 0; 0; 0].
Definition example_control : list Z := cmsg 7 [192; 168; 1; 20] [] ++ cmsg 20 example_link [].

Example control_example : parseControl example_control = Some (Some (V4 3232235796, 4)).
Proof. vm_compute. reflexivity. Qed.

Lemma control_spec_witness :
  ∃ r, parseControl example_control = Some r ∧
    ∀ local i, r = Some (local, i) ↔ llen example_control <= maxControlBytes ∧ control_enc example_control local i.
Proof. apply (control_spec example_control). apply bytes_check. reflexivity. Defined.

Definition example_nonce : list Z := replicate 32 7.
Definition example_request : Request :=
  mkRequest (mkGatewayCheckPlan (mkGatewayPlanBinding "scope.home" "en0" 4 ["192.168.1.0/24"]) (V4 3232235777)
               zeroTime zeroTime gatewayBudget) (V4 3232235796).

Lemma echo_roundtrip_witness :
  checksum (echoRequest 4660 1 example_nonce) = 0 ∧
  ∀ d, bytes (data d) → matchesReply d example_request 4660 1 example_nonce = true → peer d = V4 3232235777.
Proof.
  destruct (echo_roundtrip example_request 4660 1 example_nonce) as (_ & Hc & _ & H).
  - split; [discriminate|reflexivity].
  - split; [discriminate|reflexivity].
  - apply Forall_replicate. lia.
  - reflexivity.
  - split; [exact Hc|]. intros d Hd Hm. destruct (H d Hd Hm) as (c & -> & _). reflexivity.
Defined.

End ICMPPacket.
