(* ===== verification/Effects.v ===== *)
(** * Programs with effects

    A call that talks to collaborators (a clock, a context, a socket, a peer) is a finite
    tree: at each node an effect, below it the rest of the call for every answer.  A run is
    a path with what was observed on it.  The logic below states what holds at the end of
    every run, for environments that keep an assumption at each step; what a run has done
    so far is remembered in a ghost state. *)

From S2P Require Import Prelude.

Section Programs.
Context {effect : Type} {answer : effect → Type}.

Inductive prog (R : Type) : Type :=
| Ret (r : R)
| Do (e : effect) (k : answer e → prog R).
Arguments Ret {R} r.
Arguments Do {R} e k.

Fixpoint bind {R S} (p : prog R) (f : R → prog S) : prog S :=
  match p with
  | Ret r => f r
  | Do e k => Do e (λ a, bind (k a) f)
  end.

Inductive obs : Type := Obs (e : effect) (a : answer e).

(** A run of a program: what it observed and what it returned.  Programs are finite
    trees, so every sequence of answers leads to a result. *)
Inductive run {R} : prog R → list obs → R → Prop :=
| run_ret x : run (Ret x) [] x
| run_do e k a tr x : run (k a) tr x → run (Do e k) (Obs e a :: tr) x.

(** What is remembered of a run, and how an observation changes it. *)
Class Remembers (ghost : Type) := gstep : ghost → ∀ e, answer e → ghost.

Section Logic.
Context {ghost : Type} `{!Remembers ghost} (env : ghost → ∀ e, answer e → Prop).

Definition observe (g : ghost) (o : obs) : ghost := match o with Obs e a => gstep g e a end.

(** The assumption on the environment, at every step of a run. *)
Fixpoint env_ok (g : ghost) (tr : list obs) : Prop :=
  match tr with
  | [] => True
  | Obs e a :: tr => env g e a ∧ env_ok (gstep g e a) tr
  end.

(** Every run from [g] ends in [Q]. *)
Fixpoint wp {R} (p : prog R) (g : ghost) (Q : ghost → R → Prop) : Prop :=
  match p with
  | Ret x => Q g x
  | Do e k => ∀ a, env g e a → wp (k a) (gstep g e a) Q
  end.

Lemma wp_run {R} (p : prog R) tr x g Q :
  run p tr x → wp p g Q → env_ok g tr → Q (foldl observe g tr) x.
Proof.
  intros Hr. revert g. induction Hr as [x|e k a tr x Hr IH]; intros g; simpl; [done|].
  intros Hw [He Ht]. by apply IH; [apply Hw|].
Qed.

Lemma wp_mono {R} (p : prog R) g (Q Q' : ghost → R → Prop) :
  wp p g Q → (∀ g x, Q g x → Q' g x) → wp p g Q'.
Proof. revert g. induction p as [x|e k IH]; intros g; simpl; eauto. Qed.

Lemma wp_bind {R S} (p : prog R) (f : R → prog S) g Q :
  wp p g (λ g x, wp (f x) g Q) → wp (bind p f) g Q.
Proof. revert g. induction p as [x|e k IH]; intros g; simpl; eauto. Qed.

End Logic.

(** ** Whole histories

    The ghost that forgets nothing: a property of every run is a property of its trace. *)

Definition history : Remembers (list obs) := λ g e a, g ++ [Obs e a].

(** [φ] holds at every observation, of what came before it and what came after it. *)
Fixpoint every (φ : list obs → ∀ e, answer e → list obs → Prop) (before rest : list obs) : Prop :=
  match rest with
  | [] => True
  | Obs e a :: rest => φ before e a rest ∧ every φ (before ++ [Obs e a]) rest
  end.

Lemma foldl_history g tr : foldl (@observe (list obs) history) g tr = g ++ tr.
Proof. revert g. induction tr as [|[e a] tr IH]; intros g; simpl; [by rewrite app_nil_r|]. rewrite IH. unfold gstep, history. by rewrite <- app_assoc. Qed.

Lemma env_any g tr : @env_ok (list obs) history (λ _ _ _, True) g tr.
Proof. revert g. induction tr as [|[e a] tr IH]; intros g; simpl; [done|]. split; [done|apply IH]. Qed.

Lemma history_run {R} (p : prog R) tr x (Q : list obs → R → Prop) :
  run p tr x → @wp (list obs) history (λ _ _ _, True) R p [] Q → Q tr x.
Proof.
  intros Hr Hw. pose proof (@wp_run _ history _ _ _ _ _ [] Q Hr Hw (env_any [] tr)) as H. by rewrite foldl_history in H.
Qed.

Lemma every_app φ before tr tr' :
  every φ before (tr ++ tr') → every (λ b e a rest, φ b e a (rest ++ tr')) before tr ∧ every φ (before ++ tr) tr'.
Proof.
  revert before. induction tr as [|[e a] tr IH]; intros before; simpl; [by rewrite app_nil_r|].
  intros [H [H1 H2]%IH]. rewrite <- app_assoc in H2. done.
Qed.

Lemma every_elem (φ : list obs → ∀ e, answer e → list obs → Prop) tr e a :
  every φ [] tr → Obs e a ∈ tr → ∃ before after, tr = before ++ Obs e a :: after ∧ φ before e a after.
Proof.
  intros H (before & after & ->)%list_elem_of_split. exists before, after. split; [done|]. by apply every_app in H as [_ [H _]].
Qed.

(** ** Running a program in a world

    A world answers effects and has a state of its own, such as the time that passed. *)
Section Driving.
Context {ghost world : Type} `{!Remembers ghost} (answers : world → ghost → ∀ e, answer e * world).

Fixpoint drive {R} (p : prog R) (w : world) (g : ghost) : list obs * R * world :=
  match p with
  | Ret x => ([], x, w)
  | Do e k =>
      let '(a, w) := answers w g e in
      let '(tr, x, last) := drive (k a) w (gstep g e a) in
      (Obs e a :: tr, x, last)
  end.

Lemma drive_run {R} (p : prog R) w g tr x last : drive p w g = (tr, x, last) → run p tr x.
Proof.
  revert w g tr. induction p as [y|e k IH]; intros w g tr; simpl; [intros [= <- <- <-]; constructor|].
  destruct (answers w g e) as [a w']. destruct (drive _ _ _) as [[tr' x'] last'] eqn:E.
  intros [= <- <- <-]. constructor. by eapply IH.
Qed.

(** A relation between states that every answer keeps, such as the passing of time. *)
Lemma drive_keeps {R} (le : world → world → Prop) `{!PreOrder le} (p : prog R) w g tr x last :
  (∀ w g e, le w (answers w g e).2) → drive p w g = (tr, x, last) → le w last.
Proof.
  intros Hle. revert w g tr. induction p as [y|e k IH]; intros w g tr; simpl; [by intros [= <- <- <-]|].
  pose proof (Hle w g e) as Hw. destruct (answers w g e) as [a w'].
  destruct (drive _ _ _) as [[tr' x'] last'] eqn:E. intros [= <- <- <-]. apply IH in E. simpl in Hw. by trans w'.
Qed.

End Driving.
End Programs.

Arguments Ret {effect answer R} r.
Arguments Do {effect answer R} e k.
Arguments Remembers {effect} answer ghost.
