(* ===== verification/ICMPSender.v ===== *)
(** * The gateway ICMP sender

    [gatewayicmp/sender.go]: [Measure], from the checks of the request to the mean round
    trip.  The sender's collaborators (clock, context, route lookup, random source,
    socket) are effects: a call of [Measure] is a tree of effects whose answers are
    arbitrary, a trace is what a run observed.  The theorems bound what is sent and how
    fast, and show that what the sender returns is what the run control accepts. *)

From S2P Require Import Prelude GoTime RunControl NetAddr GatewayPlan GatewayRun GoBytes ICMPPacket Effects.

Module ICMPSender.
Import Gateway ICMPPacket.

(** ** Errors *)

(** The errors that leave the sender; [OutOfFuel] stands for a receive loop without end,
    which is shown not to exist. *)
Inductive err : Type :=
| ECanceled | EDeadline | ErrUnsupported | ErrUnavailable | ErrBinding | ErrPermission
| ErrReceiveBudget | ErrClock | ErrBusy | OutOfFuel.

#[export] Instance err_eq_dec : EqDecision err.
Proof. solve_decision. Defined.

Definition ctx_error (e : ctx_err) : err :=
  match e with Canceled => ECanceled | DeadlineExceeded => EDeadline end.

(** An error of a collaborator, by the sender's errors that [errors.Is] finds in it. *)
Definition raw := err → bool.

Definition safeError (e : raw) : err :=
  default ErrUnavailable
    (head (filter (λ k, e k = true)
       [ECanceled; EDeadline; ErrUnsupported; ErrPermission; ErrBinding; ErrReceiveBudget; ErrClock; ErrBusy])).

(** ** Effects *)

Record routeEvidence := mkRoute {
  name : string;
  rindex : Z;
  source : Addr;
  observedAt : Time;
  freshUntil : Time;
}.

Inductive received : Type :=
| WouldBlock
| ReadError (e : raw)
| Datagram (d : datagram).

Inductive effect : Type :=
| Now | Ctx | Acquire | Release | Lookup | Random | Open | Verify
| Send (p : list Z) | Receive | Wait (d : Duration) | Close.

Definition answer (e : effect) : Type :=
  match e with
  | Now => Time
  | Ctx => option ctx_err
  | Acquire => bool
  | Release => unit
  | Lookup => result raw routeEvidence
  | Random => option (list Z)
  | Open => result raw bool
  | Verify | Send _ | Wait _ => option raw
  | Receive => received
  | Close => bool
  end.

Local Notation prog := (@Effects.prog effect answer).
Local Notation obs := (@Effects.obs effect answer).

Local Notation "x <~ e ;; k" := (Do e (λ x, k)) (at level 60, e at next level, right associativity).
Local Notation "x <== p ;; k" := (bind p (λ x, k)) (at level 60, p at next level, right associativity).

Definition maxDatagrams : Z := 16.
Definition maxReceiveCalls : Z := 512.
Definition pollInterval : Duration := 10 * Millisecond.

(** ** The request *)

Definition normalize (r : Request) (now : Time) : result err Request :=
  guard? negb (validTime now) || negb (validTime (CreatedAt (Plan r))) || After (CreatedAt (Plan r)) now ||
         negb (After (ReviewExpiresAt (Plan r)) now) || (Source r == Target (Plan r))
  else ErrBinding in
  match PreviewGatewayCheck (Binding (Plan r)) (AddrString (Target (Plan r))) (CreatedAt (Plan r)) with
  | Err _ => Err ErrBinding
  | Ok plan =>
      guard? (Budget plan != Budget (Plan r)) || negb (Equal (ReviewExpiresAt plan) (ReviewExpiresAt (Plan r)))
      else ErrBinding in
      guard? negb (is_ok (PreviewGatewayCheck (Binding plan) (AddrString (Source r)) now)) else ErrBinding in
      Ok (mkRequest plan (Source r))
  end.

Section Measure.
Context (r : Request) (start : Time).
Local Notation budget := (Budget (Plan r)).

(** The closure [clock]: [last] is the variable it closes over. *)
Definition clock (last : Time) : prog (result err Time) :=
  now <~ Now ;;
  if negb (validTime now) || Before (Round0 now) (Round0 last) || Before now last then Ret (Err ErrClock)
  else
    ctx <~ Ctx ;;
    match ctx with
    | Some e => Ret (Err (ctx_error e))
    | None =>
        if (TotalTimeout budget <=? Sub now start) || (TotalTimeout budget <=? Sub (Round0 now) (Round0 start)) ||
           negb (Before (Round0 now) (ReviewExpiresAt (Plan r)))
        then Ret (Err EDeadline) else Ret (Ok now)
    end.

(** The closure [checkRoute]: the reading after the lookup becomes [last]. *)
Definition checkRoute (last : Time) : prog (result err Time) :=
  before <== clock last ;;
  match before with
  | Err e => Ret (Err e)
  | Ok before =>
      e <~ Lookup ;;
      match e with
      | Err e => Ret (Err (safeError e))
      | Ok e =>
          after <== clock before ;;
          match after with
          | Err e => Ret (Err e)
          | Ok after =>
              if (name e != InterfaceName (Binding (Plan r))) || negb (rindex e =? InterfaceIndex (Binding (Plan r))) ||
                 (source e != Source r) || negb (validTime (observedAt e)) ||
                 Before (observedAt e) (Round0 before) || After (observedAt e) (Round0 after) ||
                 negb (Equal (freshUntil e) (Add (observedAt e) GatewayReviewLifetime)) ||
                 negb (After (freshUntil e) (Round0 after))
              then Ret (Err ErrBinding) else Ret (Ok after)
          end
      end
  end.

(** The receive loop of one attempt.  It ends with a round trip, a timeout ([None]) or an
    error; the readings and counters it changed come back with the outcome. *)
Fixpoint await (fuel : nat) (id seq : Z) (nonce : list Z) (sentAt until_ : Time) (last : Time) (reads received : Z)
  : prog (result err (option Duration * Time * Z * Z)) :=
  match fuel with
  | O => Ret (Err OutOfFuel)
  | S fuel =>
      now <== clock last ;;
      match now with
      | Err e => Ret (Err e)
      | Ok now =>
          if negb (Before now until_) then Ret (Ok (None, now, reads, received))
          else if (maxDatagrams <=? received) || (maxReceiveCalls <=? reads) then Ret (Err ErrReceiveBudget)
          else
            let reads := reads + 1 in
            d <~ Receive ;;
            now <== clock now ;;
            match now with
            | Err e => Ret (Err e)
            | Ok now =>
                match d with
                | WouldBlock =>
                    w <~ Wait (Z.min pollInterval (Z.max 0 (Sub until_ now))) ;;
                    match w with
                    | Some e => Ret (Err (safeError e))
                    | None => await fuel id seq nonce sentAt until_ now reads received
                    end
                | ReadError e => Ret (Err (safeError e))
                | Datagram d =>
                    let received := received + 1 in
                    if negb (Before now until_) then Ret (Ok (None, now, reads, received))
                    else if matchesReply d r id seq nonce then
                      Ret (Ok (Some (Sub now sentAt), now, reads, received))
                    else await fuel id seq nonce sentAt until_ now reads received
                end
            end
      end
  end.

(** The variables of [Measure] after the socket is open. *)
Record state := mkState {
  sample : Sample;
  last : Time;
  lastSend : Time;
  totalRTT : Duration;
  reads : Z;
  received_ : Z;
}.

Definition with_counts (f : Z → Z → Z → Z → Z * Z * Z * Z) (s : Sample) : Sample :=
  let '(a, b, c, d) := f (sampleSendCalls s) (sampleAcceptedRequests s) (sampleReplies s) (sampleTimeouts s) in
  mkSample (sampleScopeID s) (sampleInterfaceName s) (sampleInterfaceIndex s) (sampleTarget s) (sampleSource s)
    (sampleStartedAt s) (sampleCompletedAt s) a b c d (sampleComplete s) (sampleMeanRTT s).
Definition sent : Sample → Sample := with_counts (λ a b c d, (a + 1, b, c, d)).
Definition accepted : Sample → Sample := with_counts (λ a b c d, (a, b + 1, c, d)).
Definition replied : Sample → Sample := with_counts (λ a b c d, (a, b, c + 1, d)).
Definition timed_out : Sample → Sample := with_counts (λ a b c d, (a, b, c, d + 1)).
Definition with_end (complete : bool) (at_ : Time) (mean : option Duration) (s : Sample) : Sample :=
  mkSample (sampleScopeID s) (sampleInterfaceName s) (sampleInterfaceIndex s) (sampleTarget s) (sampleSource s)
    (sampleStartedAt s) at_ (sampleSendCalls s) (sampleAcceptedRequests s) (sampleReplies s) (sampleTimeouts s)
    complete mean.

(** One round of the outer loop: the sample so far with an error, or the next state. *)
Definition attempt (id : Z) (nonce : list Z) (seq : Z) (st : state) : prog (result (Sample * err) state) :=
  if (maxDatagrams <=? received_ st) || (maxReceiveCalls <=? reads st) then Ret (Err (sample st, ErrReceiveBudget))
  else
    now <== clock (last st) ;;
    match now with
    | Err e => Ret (Err (sample st, e))
    | Ok now =>
        w <== (if IsZero (lastSend st) then Ret None
               else w <~ Wait (Z.max 0 (MinInterval budget - Sub now (lastSend st))) ;; Ret w) ;;
        match w with
        | Some e => Ret (Err (sample st, safeError e))
        | None =>
            route <== checkRoute now ;;
            match route with
            | Err e => Ret (Err (sample st, e))
            | Ok now =>
                v <~ Verify ;;
                match v with
                | Some e => Ret (Err (sample st, safeError e))
                | None =>
                    sentAt <== clock now ;;
                    match sentAt with
                    | Err e => Ret (Err (sample st, e))
                    | Ok sentAt =>
                        if negb (IsZero (lastSend st)) && (Sub sentAt (lastSend st) <? MinInterval budget)
                        then Ret (Err (sample st, ErrClock))
                        else
                          let s := sent (sample st) in
                          e <~ Send (echoRequest id seq nonce) ;;
                          match e with
                          | Some e => Ret (Err (s, safeError e))
                          | None =>
                              let s := accepted s in
                              lastSend <== clock sentAt ;;
                              match lastSend with
                              | Err e => Ret (Err (s, e))
                              | Ok lastSend =>
                                  out <== await 513 id seq nonce sentAt (Add sentAt (AttemptTimeout budget))
                                            lastSend (reads st) (received_ st) ;;
                                  match out with
                                  | Err e => Ret (Err (s, e))
                                  | Ok (Some rtt, now, reads, received) =>
                                      Ret (Ok (mkState (replied s) now lastSend (totalRTT st + rtt) reads received))
                                  | Ok (None, now, reads, received) =>
                                      Ret (Ok (mkState (timed_out s) now lastSend (totalRTT st) reads received))
                                  end
                              end
                          end
                    end
                end
            end
        end
    end.

(** [for seq := 1; seq <= budget.MaxAttempts; seq++] *)
Fixpoint attempts (n : nat) (id : Z) (nonce : list Z) (seq : Z) (st : state) : prog (result (Sample * err) state) :=
  match n with
  | O => Ret (Ok st)
  | S n =>
      st <== attempt id nonce seq st ;;
      match st with
      | Err e => Ret (Err e)
      | Ok st => attempts n id nonce (seq + 1) st
      end
  end.

(** The part between opening the socket and closing it. *)
Definition exchange (id : Z) (nonce : list Z) (opened : Time) : prog (Sample * option err) :=
  let b := Binding (Plan r) in
  let s := mkSample (ScopeID b) (InterfaceName b) (InterfaceIndex b) (Target (Plan r)) (Source r) (UTC (Round0 start))
             zeroTime 0 0 0 0 false None in
  out <== attempts (Z.to_nat (MaxAttempts budget)) id nonce 1 (mkState s opened zeroTime 0 0 0) ;;
  match out with
  | Err (s, e) => Ret (s, Some e)
  | Ok st =>
      end_ <== clock (last st) ;;
      match end_ with
      | Err e => Ret (sample st, Some e)
      | Ok end_ =>
          let s := sample st in
          let mean := if 0 <? sampleReplies s then Some (Z.quot (totalRTT st) (sampleReplies s)) else None in
          Ret (with_end true (UTC (Round0 end_)) mean s, None)
      end
  end.

(** The deferred close, which may still spoil the sample. *)
Definition close (out : Sample * option err) : prog (Sample * option err) :=
  failed <~ Close ;;
  if failed : bool then
    Ret (with_end false (sampleCompletedAt (fst out)) None (fst out),
         match snd out with Some e => Some e | None => Some ErrUnavailable end)
  else Ret out.

Definition prepared : prog (Sample * option err) :=
  route <== checkRoute start ;;
  match route with
  | Err e => Ret (zeroSample, Some e)
  | Ok last =>
      entropy <~ Random ;;
      match entropy with
      | None => Ret (zeroSample, Some ErrUnavailable)
      | Some entropy =>
          let id := default 0 (u16be entropy 0) in
          let nonce := drop 2 entropy in
          now <== clock last ;;
          match now with
          | Err e => Ret (zeroSample, Some e)
          | Ok last =>
              conn <~ Open ;;
              match conn with
              | Err e => Ret (zeroSample, Some (safeError e))
              | Ok false => Ret (zeroSample, Some ErrUnavailable)
              | Ok true => out <== exchange id nonce last ;; close out
              end
          end
      end
  end.

End Measure.

Definition Measure (present : bool) (request : Request) : prog (Sample * option err) :=
  ctx <~ Ctx ;;
  match ctx with
  | Some e => Ret (zeroSample, Some (ctx_error e))
  | None =>
      if negb present then Ret (zeroSample, Some ErrUnavailable)
      else
        free <~ Acquire ;;
        if negb free then Ret (zeroSample, Some ErrBusy)
        else
          start <~ Now ;;
          out <== (match normalize request (UTC (Round0 start)) with
                   | Err e => Ret (zeroSample, Some e)
                   | Ok r => prepared r start
                   end) ;;
          u <~ Release ;;
          Ret out
  end.

(** ** Runs *)

(** What is remembered of a run: the last clock reading, the first reading after the last
    send, whether every send kept its distance, and the packets. *)
Inductive pace : Type := Quiet | Pending | Paced (t : Time).

Record ghost := mkGhost {
  reading : option Time;
  pacing : pace;
  spaced : bool;
  packets : list (list Z);
}.

Definition ghost0 : ghost := mkGhost None Quiet true [].

Definition keeps (g : ghost) : bool :=
  match reading g, pacing g with
  | Some _, Quiet => true
  | Some t, Paced t0 => Second <=? Sub t t0
  | _, _ => false
  end.

Definition read (g : ghost) (t : Time) : ghost :=
  mkGhost (Some t) (match pacing g with Pending => Paced t | p => p end) (spaced g) (packets g).
Definition send (g : ghost) (p : list Z) : ghost :=
  mkGhost (reading g) Pending (spaced g && keeps g) (packets g ++ [p]).

#[export] Instance recall : Remembers answer ghost := λ g e,
  match e with
  | Now => λ t, read g t
  | Send p => λ _, send g p
  | _ => λ _, g
  end.

(** ** The sender's runs *)

Section Spec.
(** When [aligned] holds, the clock is steady, its readings lie between the admission and
    the return of the run control, and the context carries the deadline of the review. *)
Context (aligned : Prop) (boot lower upper : Z) (expires : Time).

Definition timely (t : Time) : Prop := aligned → steady boot t ∧ lower <= wall t <= upper.

Definition env (g : ghost) (e : effect) : answer e → Prop :=
  match e with
  | Now => λ t, timely t
  | Ctx => λ a, a = None → aligned → ∀ t, reading g = Some t → wall t < wall expires
  | Random => λ a, ∀ l, a = Some l → bytes l ∧ length l = 34%nat
  | _ => λ _, True
  end.

Context (r : Request) (start : Time).
Hypothesis budget_fixed : Budget (Plan r) = gatewayBudget.
Hypothesis start_timely : timely start.

(** An accepted clock reading. *)
Definition ticked (t : Time) : Prop :=
  timely t ∧ validTime t = true ∧ (aligned → wall t < wall expires) ∧ wall t - wall start < 5 * Second.

(** The error exits change nothing that counts. *)
Definition calm (g g' : ghost) : Prop := packets g' = packets g ∧ spaced g' = spaced g.

Lemma calm_refl g : calm g g.
Proof. done. Qed.
Lemma calm_read g t : calm g (read g t).
Proof. done. Qed.
Lemma calm_trans g g' g'' : calm g g' → calm g' g'' → calm g g''.
Proof. unfold calm. intros [-> ->] [-> ->]. done. Qed.
Hint Resolve calm_refl calm_read : core.

Lemma read_read g t u : pacing g ≠ Pending → read (read g t) u = read g u.
Proof. unfold read. simpl. by destruct (pacing g). Qed.

Lemma ctx_error_fuel e : ctx_error e ≠ OutOfFuel.
Proof. by destruct e. Qed.
Lemma safeError_fuel e : safeError e ≠ OutOfFuel.
Proof.
  unfold safeError. destruct (head _) as [k|] eqn:E; [|done]. simpl. intros ->.
  apply head_Some_elem_of, list_elem_of_filter in E as [_ E]. set_solver.
Qed.
Hint Resolve ctx_error_fuel safeError_fuel : core.

(** [bail H] takes an error exit. *)
Ltac bail H := solve [apply H; [solve [auto | by split]|solve [discriminate | auto]]].

Lemma clock_wp last g (Q : ghost → result err Time → Prop) :
  (∀ g' e, calm g g' → e ≠ OutOfFuel → Q g' (Err e)) →
  (∀ t, ticked t → wall last <= wall t → Q (read g t) (Ok t)) →
  wp env (clock r start last) g Q.
Proof.
  intros He Hok. unfold clock. simpl. intros t Ht.
  destruct (negb (validTime t) || _ || _) eqn:E; simpl; [bail He|]. intros [e|] Hc; simpl; [bail He|].
  destruct ((_ <=? _) || _ || _) eqn:E2; simpl; [bail He|]. apply Hok.
  - rewrite budget_fixed in E2. rewrite !orb_false_iff in E, E2. destruct E as [[Hv _] _], E2 as [[_ Ht5] _].
    simpl in Ht5. go_bool. rewrite Sub_wall in Ht5 by auto with cozy.
    rewrite saturate_lt_iff in Ht5 by (unfold min_int64, max_int64, Second; lia).
    split; [done|]. split; [done|]. split; [|simpl in Ht5; lia]. intros Ha. by apply (Hc eq_refl Ha).
  - rewrite !orb_false_iff in E. destruct E as [[_ Hw] _]. rewrite Before_wall in Hw by auto with cozy.
    simpl in Hw. go_bool. lia.
Qed.

Lemma checkRoute_wp last g (Q : ghost → result err Time → Prop) :
  pacing g ≠ Pending →
  (∀ g' e, calm g g' → e ≠ OutOfFuel → Q g' (Err e)) →
  (∀ t, ticked t → wall last <= wall t → Q (read g t) (Ok t)) →
  wp env (checkRoute r start last) g Q.
Proof.
  intros Hp He Hok. unfold checkRoute. apply wp_bind, clock_wp; [done|]. intros t1 Ht1 H1. cbn [wp].
  intros [e|e] _; cbn [wp gstep recall]; [|bail He]. apply wp_bind, clock_wp.
  - intros g' e' Hq ?. apply He; [|done]. by eapply calm_trans.
  - intros t2 Ht2 H2. rewrite read_read by done.
    destruct (_ || _ || _); cbn [wp]; [bail He|]. apply Hok; [done|lia].
Qed.

(** How a receive loop ends: at a reading past the deadline, or with a round trip
    before it. *)
Lemma await_wp fuel id seq nonce sentAt until_ last reads received g Q :
  pacing g ≠ Pending → 0 <= reads <= 512 → (Z.to_nat (512 - reads) < fuel)%nat →
  (∀ g' e, calm g g' → e ≠ OutOfFuel → Q g' (Err e)) →
  (∀ t rd rc, ticked t → wall last <= wall t → 0 <= rd <= 512 → Before t until_ = false →
     Q (read g t) (Ok (None, t, rd, rc))) →
  (∀ t rd rc, ticked t → wall last <= wall t → 0 <= rd <= 512 → Before t until_ = true →
     Q (read g t) (Ok (Some (Sub t sentAt), t, rd, rc))) →
  wp env (await r start fuel id seq nonce sentAt until_ last reads received) g Q.
Proof.
  revert last reads received g. induction fuel as [|fuel IH]; intros last reads received g Hp Hr Hf He Hn Hs; [lia|].
  cbn [await]. apply wp_bind, clock_wp; [done|]. intros t Ht Hl. cbn [wp].
  destruct (Before t until_) eqn:Hb; cbn [negb wp]; [|by apply Hn].
  destruct ((maxDatagrams <=? received) || (maxReceiveCalls <=? reads)) eqn:Hm; cbn [wp]; [bail He|].
  unfold maxReceiveCalls in Hm. go_bool. intros d _. cbn [gstep recall].
  apply wp_bind, clock_wp; [intros g' e Hq ?; apply He; [by eapply calm_trans|done]|].
  intros t2 Ht2 Hl2. rewrite read_read by done.
  assert (Hnext : ∀ rc, wp env (await r start fuel id seq nonce sentAt until_ t2 (reads + 1) rc) (read g t2) Q).
  { intros rc. apply IH; try lia; [simpl; by destruct (pacing g)| | |].
    - intros g' e Hq ?. apply He; [by eapply calm_trans|done].
    - intros t3 rd rc' ????. rewrite read_read by done. apply Hn; try done. lia.
    - intros t3 rd rc' ????. rewrite read_read by done. apply Hs; try done. lia. }
  destruct d as [|e|d]; cbn [wp].
  - intros [e|] _; cbn [wp gstep recall]; [bail He|]. apply Hnext.
  - bail He.
  - destruct (Before t2 until_) eqn:Hb2; cbn [negb wp]; [|apply Hn; try done; lia].
    destruct (matchesReply d r id seq nonce); cbn [wp]; [apply Hs; try done; lia|]. apply Hnext.
Qed.


(** *** The attempts *)

(** The sample of the request with these counts. *)
Definition base (a b c d : Z) : Sample :=
  mkSample (ScopeID (Binding (Plan r))) (InterfaceName (Binding (Plan r))) (InterfaceIndex (Binding (Plan r)))
    (Target (Plan r)) (Source r) (UTC (Round0 start)) zeroTime a b c d false None.

(** The requests of the first [n] attempts. *)
Definition echoes (id : Z) (nonce : list Z) (n : nat) : list (list Z) :=
  map (λ k, echoRequest id (Z.of_nat k) nonce) (seq 1 n).

Lemma echoes_snoc id nonce n : echoes id nonce (S n) = echoes id nonce n ++ [echoRequest id (Z.of_nat n + 1) nonce].
Proof.
  unfold echoes. rewrite seq_S, map_app. simpl. by replace (Z.of_nat (S n)) with (Z.of_nat n + 1) by lia.
Qed.

(** The time that [a] sends and [d] timeouts take at least. *)
Definition lasted (a d elapsed : Z) : Prop := Z.max 0 (a - 1) * Second <= elapsed ∧ d * Second <= elapsed.

(** The invariant of the outer loop after [k] attempts. *)
Definition invariant (id : Z) (nonce : list Z) (k : nat) (g : ghost) (st : state) : Prop :=
  ∃ c d, sample st = base (Z.of_nat k) (Z.of_nat k) c d ∧ 0 <= c ∧ 0 <= d ∧ c + d = Z.of_nat k ∧
    packets g = echoes id nonce k ∧ spaced g = true ∧ 0 <= reads st <= 512 ∧
    ((k = O ∧ lastSend st = zeroTime ∧ pacing g = Quiet) ∨
     (k ≠ O ∧ IsZero (lastSend st) = false ∧ pacing g = Paced (lastSend st))) ∧
    (aligned → wall start <= wall (last st) <= upper ∧ d * Second <= wall (last st) - wall start ∧
       (k ≠ O → steady boot (lastSend st) ∧ (Z.of_nat k - 1) * Second <= wall (lastSend st) - wall start ∧
          wall (lastSend st) <= wall (last st)) ∧
       0 <= totalRTT st <= c * (Second - 1) ∧ totalRTT st <= c * (wall (last st) - wall start)).

(** What an error leaves behind. *)
Definition failed (id : Z) (nonce : list Z) (g : ghost) (s : Sample) (e : err) : Prop :=
  e ≠ OutOfFuel ∧ spaced g = true ∧
  ∃ (a : nat) b c d, s = base (Z.of_nat a) b c d ∧ packets g = echoes id nonce a ∧ (a ≤ 3)%nat ∧ 0 <= c ∧ 0 <= d ∧
    ((b = Z.of_nat a ∧ (c + d = b ∨ c + d = b - 1)) ∨ (Z.of_nat a = b + 1 ∧ c + d = b)) ∧
    (aligned → lasted (Z.of_nat a) d (upper - wall start)).

Definition attempt_ok (id : Z) (nonce : list Z) (k : nat) (g : ghost) (out : result (Sample * err) state) : Prop :=
  match out with
  | Ok st => invariant id nonce k g st
  | Err (s, e) => failed id nonce g s e
  end.

Lemma start_upper : aligned → wall start <= upper.
Proof. intros Ha. destruct (start_timely Ha) as [_ ?]. lia. Qed.

(** An error before anything is sent. *)
Lemma failed_before id nonce k g g' st e :
  invariant id nonce k g st → (k ≤ 3)%nat → calm g g' → e ≠ OutOfFuel → failed id nonce g' (sample st) e.
Proof.
  intros (c & d & Es & Hc & Hd & Hcd & Hp & Hs & _ & _ & Ht) Hk [Hp' Hs'] He.
  split; [done|]. split; [by rewrite Hs'|]. exists k, (Z.of_nat k), c, d. split; [done|].
  split; [by rewrite Hp'|]. do 3 (split; [done|]). split; [lia|].
  intros Ha. destruct (Ht Ha) as (H1 & H2 & H3 & _). unfold lasted, Second in *.
  destruct k as [|k]; [lia|]. destruct (H3 ltac:(done)) as (_ & ? & ?). lia.
Qed.


(** An attempt whose request was handed to the socket at [sentAt]. *)
Definition sending (id : Z) (nonce : list Z) (k : nat) (g : ghost) (st : state) (sentAt : Time) : Prop :=
  ticked sentAt ∧ wall (last st) <= wall sentAt ∧ packets g = echoes id nonce (S k) ∧ spaced g = true ∧
  (aligned → Z.of_nat k * Second <= wall sentAt - wall start).

(** A request that was sent but whose outcome is not known. *)
Lemma failed_sent id nonce k g g' st sentAt b e g0 :
  invariant id nonce k g0 st → (k < 3)%nat → sending id nonce k g st sentAt → calm g g' → e ≠ OutOfFuel →
  b = Z.of_nat k ∨ b = Z.of_nat k + 1 →
  failed id nonce g' (with_counts (λ _ _ c d, (Z.of_nat (S k), b, c, d)) (sample st)) e.
Proof.
  intros (c & d & Es & Hc & Hd & Hcd & _ & _ & _ & _ & Ht) Hk (Hsent & Hl & Hp & Hs & Hlow) [Hp' Hs'] He Hb.
  split; [done|]. split; [by rewrite Hs'|]. exists (S k), b, c, d. rewrite Es. split; [done|].
  split; [by rewrite Hp'|]. split; [lia|]. split; [done|]. split; [done|]. split.
  - destruct Hb as [->| ->]; [right|left]; lia.
  - intros Ha. destruct (Ht Ha) as (H1 & H2 & _). specialize (Hlow Ha). destruct Hsent as (Htm & _).
    destruct (Htm Ha) as [_ ?]. unfold lasted, Second in *. lia.
Qed.

(** The state after the outcome of an attempt: [rtt] is the round trip of a reply. *)
Definition settled (st : state) (s : Sample) (rtt : option Duration) (t lastSend : Time) (rd rc : Z) : state :=
  match rtt with
  | Some rtt => mkState (replied s) t lastSend (totalRTT st + rtt) rd rc
  | None => mkState (timed_out s) t lastSend (totalRTT st) rd rc
  end.

Lemma invariant_next id nonce k g0 g st sentAt sent_ t rd rc reply :
  invariant id nonce k g0 st → (k < 3)%nat → sending id nonce k g st sentAt →
  ticked sent_ → wall sentAt <= wall sent_ → ticked t → wall sent_ <= wall t → 0 <= rd <= 512 →
  pacing g = Paced sent_ → Before t (Add sentAt Second) = reply →
  invariant id nonce (S k) (read g t)
    (settled st (accepted (sent (sample st))) (if reply then Some (Sub t sentAt) else None) t sent_ rd rc).
Proof.
  intros (c & d & Es & Hc & Hd & Hcd & _ & _ & _ & _ & Ht) Hk (Hsat & Hl & Hp & Hs & Hlow) Hsent Hle Htt Hlt Hrd Hpc Hb.
  assert (Htime : aligned → wall start <= wall t <= upper ∧ steady boot sent_ ∧
    (Z.of_nat (S k) - 1) * Second <= wall sent_ - wall start ∧
    (reply = false → wall sentAt + Second <= wall t) ∧
    (reply = true → 0 <= Sub t sentAt < Second ∧ Sub t sentAt <= wall t - wall start)).
  { intros Ha. destruct (Ht Ha) as (H1 & _). specialize (Hlow Ha).
    destruct Hsat as (Htm1 & _), Hsent as (Htm2 & _), Htt as (Htm3 & _).
    destruct (Htm1 Ha) as [Hst1 _], (Htm2 Ha) as [Hst2 _], (Htm3 Ha) as [Hst3 ?].
    rewrite (Before_steady boot) in Hb by auto with cozy. rewrite (Sub_steady boot), wall_Add in * by done.
    unfold int64_saturate, min_int64, max_int64, Second in *.
    split_and!; try done; try lia; intros ->; go_bool; lia. }
  unfold invariant. rewrite Es. destruct reply; simpl.
  - exists (c + 1), d. split; [by replace (Z.of_nat (S k)) with (Z.of_nat k + 1) by lia|]. split_and!; try done; try lia.
    + right. rewrite Hpc. split_and!; try done. apply validTime_nonzero. apply Hsent.
    + intros Ha. destruct (Ht Ha) as (H1 & H2 & _ & H3 & H4), (Htime Ha) as (T1 & T2 & T3 & _ & T5).
      destruct (T5 eq_refl) as [T6 T7]. unfold Second in *. split_and!; try done; try lia.
      all: nia.
  - exists c, (d + 1). split; [by replace (Z.of_nat (S k)) with (Z.of_nat k + 1) by lia|]. split_and!; try done; try lia.
    + right. rewrite Hpc. split_and!; try done. apply validTime_nonzero. apply Hsent.
    + intros Ha. destruct (Ht Ha) as (H1 & H2 & _ & H3 & H4), (Htime Ha) as (T1 & T2 & T3 & T4 & _).
      specialize (T4 eq_refl). specialize (Hlow Ha). unfold Second in *. split_and!; try done; try lia.
      all: nia.
Qed.


(** The distance between requests holds when the next one is sent. *)
Lemma sending_next id nonce k g st sentAt :
  invariant id nonce k g st → ticked sentAt → wall (last st) <= wall sentAt →
  negb (IsZero (lastSend st)) && (Sub sentAt (lastSend st) <? Second) = false →
  sending id nonce k (send (read g sentAt) (echoRequest id (Z.of_nat k + 1) nonce)) st sentAt.
Proof.
  intros (c & d & Es & Hc & Hd & Hcd & Hp & Hs & _ & Hpace & Ht) Hsat Hl Hgap.
  split; [done|]. split; [done|]. split; [simpl; by rewrite Hp, echoes_snoc|]. split.
  - unfold send, keeps. simpl. rewrite Hs. destruct Hpace as [(_ & _ & ->)|(_ & Hz & ->)]; [done|].
    rewrite Hz in Hgap. simpl in Hgap. simpl. go_bool. done.
  - intros Ha. destruct (Ht Ha) as (H1 & _ & H3 & _). destruct Hpace as [(-> & _)|(Hk & Hz & _)]; [simpl; lia|].
    destruct (H3 Hk) as (Hst & H4 & _). rewrite Hz in Hgap. simpl in Hgap. destruct Hsat as (Htm & _).
    destruct (Htm Ha) as [Hst' _]. rewrite (Sub_steady boot) in Hgap by done.
    unfold int64_saturate, min_int64, max_int64, Second in *. go_bool. lia.
Qed.

Lemma attempt_wp id nonce k g st :
  (k < 3)%nat → invariant id nonce k g st →
  wp env (attempt r start id nonce (Z.of_nat k + 1) st) g (attempt_ok id nonce (S k)).
Proof.
  intros Hk Hinv.
  assert (Hearly : ∀ g' e, calm g g' → e ≠ OutOfFuel → failed id nonce g' (sample st) e).
  { intros g' e Hq He. eapply failed_before; [exact Hinv|lia|done|done]. }
  pose proof Hinv as (c & d & Es & _ & _ & _ & _ & _ & Hreads & Hpace & _).
  assert (Hnp : pacing g ≠ Pending) by (destruct Hpace as [(_ & _ & ->)|(_ & _ & ->)]; done).
  unfold attempt. destruct (_ || _); cbn [wp attempt_ok]; [bail Hearly|].
  apply wp_bind, clock_wp; [done|]. intros t1 Ht1 Hl1. cbn [wp]. apply wp_bind.
  apply (wp_mono _ _ _ (λ g' _, g' = read g t1)); [by destruct (IsZero (lastSend st)); cbn [wp gstep recall]|].
  intros g1 w ->. destruct w as [e|]; cbn [wp]; [bail Hearly|].
  apply wp_bind, checkRoute_wp; [simpl; by destruct (pacing g)|by intros; apply Hearly|].
  intros t2 Ht2 Hl2. rewrite read_read by done. cbn [wp gstep recall]. intros [e|] _; cbn [wp]; [bail Hearly|].
  apply wp_bind, clock_wp; [intros; apply Hearly; [by eapply calm_trans|done]|].
  intros sentAt Hsat Hl3. rewrite read_read by done. cbn [wp]. rewrite budget_fixed. cbn [MinInterval AttemptTimeout gatewayBudget].
  destruct (negb _ && _) eqn:Hgap; cbn [wp]; [bail Hearly|].
  pose proof (sending_next id nonce k g st sentAt Hinv Hsat ltac:(lia) Hgap) as Hsend.
  set (g2 := send (read g sentAt) _) in *.
  assert (Hlate : ∀ b g' e, b = Z.of_nat k ∨ b = Z.of_nat k + 1 → calm g2 g' → e ≠ OutOfFuel →
    failed id nonce g' (with_counts (λ _ _ c d, (Z.of_nat (S k), b, c, d)) (sample st)) e).
  { intros b g' e Hb Hq He. eapply failed_sent; [exact Hinv|done|exact Hsend|done..]. }
  rewrite Es in Hlate |- *. replace (Z.of_nat (S k)) with (Z.of_nat k + 1) in Hlate by lia.
  intros [e|] _; cbn [wp gstep recall]; [apply (Hlate (Z.of_nat k)); auto|].
  apply wp_bind, clock_wp; [intros g' e Hq He; apply (Hlate (Z.of_nat k + 1)); auto|].
  intros sent_ Hsent Hl4. cbn [wp]. fold g2. apply wp_bind, await_wp; try done; try lia.
  - intros g' e Hq He. apply (Hlate (Z.of_nat k + 1)); auto.
  - intros t rd rc Ht Hlt Hrd Hb. cbn [wp attempt_ok].
    eapply (invariant_next id nonce k g (read g2 sent_) st sentAt sent_ t rd rc false) in Hinv; try done.
    by rewrite Es in Hinv.
  - intros t rd rc Ht Hlt Hrd Hb. cbn [wp attempt_ok].
    eapply (invariant_next id nonce k g (read g2 sent_) st sentAt sent_ t rd rc true) in Hinv; try done.
    by rewrite Es in Hinv.
Qed.

Lemma attempts_wp n id nonce k g st :
  (n + k = 3)%nat → invariant id nonce k g st →
  wp env (attempts r start n id nonce (Z.of_nat k + 1) st) g (attempt_ok id nonce 3).
Proof.
  revert k g st. induction n as [|n IH]; intros k g st Hn Hinv; cbn [attempts wp].
  - by replace 3%nat with k by lia.
  - apply wp_bind. eapply wp_mono; [apply attempt_wp; [lia|done]|]. intros g' [st'|[s e]] Hok; cbn [attempt_ok wp] in *; [|done].
    replace (Z.of_nat k + 1 + 1) with (Z.of_nat (S k) + 1) by lia. apply IH; [lia|done].
Qed.


(** *** The whole exchange *)

(** The end of the sample, when the loop finished: a reading, and a mean that fits. *)
Definition ended (d : Z) (at_ : Time) (mean : option Duration) : Prop :=
  canonical at_ ∧ validTime at_ = true ∧ wall at_ - wall start < 5 * Second ∧
  (aligned → wall at_ <= upper ∧ wall at_ < wall expires ∧ lasted 3 d (wall at_ - wall start) ∧
     ∀ m, mean = Some m → 0 <= m < Second ∧ m <= wall at_ - wall start).

Definition outcome (id : Z) (nonce : list Z) (g : ghost) (s : Sample) (e : option err) : Prop :=
  e ≠ Some OutOfFuel ∧ spaced g = true ∧
  ∃ (a : nat) b c d complete at_ mean,
    s = with_end complete at_ mean (base (Z.of_nat a) b c d) ∧ packets g = echoes id nonce a ∧ (a ≤ 3)%nat ∧
    0 <= c ∧ 0 <= d ∧ ((b = Z.of_nat a ∧ (c + d = b ∨ c + d = b - 1)) ∨ (Z.of_nat a = b + 1 ∧ c + d = b)) ∧
    (complete = true ↔ e = None) ∧ (complete = false → mean = None) ∧
    (complete = true → is_some mean = (0 <? c)) ∧
    ((complete = false ∧ at_ = zeroTime ∧ (aligned → lasted (Z.of_nat a) d (upper - wall start))) ∨
     (a = 3%nat ∧ b = 3 ∧ c + d = 3 ∧ ended d at_ mean)).

Lemma failed_outcome id nonce g s e : failed id nonce g s e → outcome id nonce g s (Some e).
Proof.
  intros (He & Hs & a & b & c & d & -> & Hp & Ha & Hc & Hd & Hcount & Ht).
  split; [congruence|]. split; [done|]. exists a, b, c, d, false, zeroTime, None. naive_solver.
Qed.

Lemma mean_range total c elapsed :
  0 < c → 0 <= total <= c * (Second - 1) → total <= c * elapsed →
  0 <= Z.quot total c < Second ∧ Z.quot total c <= elapsed.
Proof.
  intros Hc Ht He. rewrite Z.quot_div_nonneg by lia.
  pose proof (Z.div_pos total c). pose proof (Z.div_le_upper_bound total c (Second - 1)).
  pose proof (Z.div_le_upper_bound total c elapsed). lia.
Qed.

Lemma invariant_ended id nonce g st t :
  invariant id nonce 3 g st → ticked t → wall (last st) <= wall t →
  let s := sample st in
  let mean := if 0 <? sampleReplies s then Some (Z.quot (totalRTT st) (sampleReplies s)) else None in
  outcome id nonce (read g t) (with_end true (UTC (Round0 t)) mean s) None.
Proof.
  intros (c & d & Es & Hc & Hd & Hcd & Hp & Hs & _ & _ & Ht) (Htm & Hv & Hx & H5) Hl. rewrite Es. simpl.
  split; [done|]. split; [done|].
  exists 3%nat, 3, c, d, true, (UTC (Round0 t)), (if 0 <? c then Some (Z.quot (totalRTT st) c) else None).
  split; [done|]. split; [done|]. split; [lia|]. split; [done|]. split; [done|]. split; [left; split; [done|]; left; lia|].
  split; [done|]. split; [done|]. split; [by destruct (0 <? c)|]. right. split_and!; try done.
  split; [done|]. split; [by rewrite validTime_eq in Hv |- *|]. split; [done|].
  intros Ha. destruct (Ht Ha) as (H1 & H2 & H3 & H4 & H6), (Htm Ha) as [_ ?]. specialize (Hx Ha).
  destruct (H3 ltac:(done)) as (_ & H7 & H8). simpl. split_and!; [lia|done|unfold lasted, Second in *; lia|].
  intros m Hm. destruct (Z.ltb_spec 0 c) as [Hc'|]; [|done]. injection Hm as <-.
  apply mean_range; [done..|]. nia.
Qed.

Lemma exchange_wp id nonce opened g :
  ticked opened → wall start <= wall opened → packets g = [] → spaced g = true → pacing g = Quiet →
  wp env (exchange r start id nonce opened) g (λ g out, outcome id nonce g (fst out) (snd out)).
Proof.
  intros Ho Hle Hp Hs Hq. unfold exchange. rewrite budget_fixed. cbn [MaxAttempts gatewayBudget]. apply wp_bind.
  eapply wp_mono; [apply (attempts_wp 3 id nonce 0)|].
  - done.
  - exists 0, 0. split; [done|]. split_and!; try done; [by left|]. simpl. intros Ha.
    destruct Ho as (Htm & _). destruct (Htm Ha) as [_ ?]. split_and!; lia || done.
  - intros g' [st|[s e]] Hok; cbn [attempt_ok wp] in *; [|by apply failed_outcome].
    apply wp_bind, clock_wp.
    + intros g1 e Hq1 He. cbn [wp]. apply failed_outcome. by eapply (failed_before id nonce 3).
    + intros t Ht Hl. cbn [wp fst snd]. by apply invariant_ended.
Qed.

Lemma close_wp id nonce out g :
  outcome id nonce g (fst out) (snd out) →
  wp env (close out) g (λ g out, outcome id nonce g (fst out) (snd out)).
Proof.
  destruct out as [s e]. cbn [fst snd]. intros (He & Hs & a & b & c & d & complete & at_ & mean & -> & Hp & Ha & Hc & Hd & Hcount & Hcomp & Hm & Hm' & Hend).
  unfold close. cbn [wp gstep recall]. intros [|] _; cbn [wp fst snd].
  - split; [by destruct e|]. split; [done|]. exists a, b, c, d, false, at_, None.
    split; [done|]. split_and!; try done; [by destruct e|].
    destruct Hend as [(? & ? & ?)|(? & ? & ? & Hc1 & Hc2 & Hc3 & Hc4)]; [by left|right]. split_and!; try done.
    do 3 (split; [done|]). intros Hal. destruct (Hc4 Hal) as (? & ? & ? & _). done.
  - split; [done|]. split; [done|]. exists a, b, c, d, complete, at_, mean. auto 15.
Qed.


Definition nothing (g : ghost) (out : Sample * option err) : Prop :=
  fst out = zeroSample ∧ packets g = [] ∧ spaced g = true ∧ ∃ e, snd out = Some e ∧ e ≠ OutOfFuel.

Definition prepared_ok (g : ghost) (out : Sample * option err) : Prop :=
  nothing g out ∨
  (aligned → wall start < wall expires) ∧
  ∃ id nonce, word id ∧ bytes nonce ∧ length nonce = 32%nat ∧ outcome id nonce g (fst out) (snd out).

Lemma prepared_wp g :
  packets g = [] → spaced g = true → pacing g = Quiet → wp env (prepared r start) g prepared_ok.
Proof.
  intros Hp Hs Hq.
  assert (Hnone : ∀ g' e, calm g g' → e ≠ OutOfFuel → prepared_ok g' (zeroSample, Some e)).
  { intros g' e [Hp' Hs'] He. left. split_and!; try done; [by rewrite Hp'|by rewrite Hs'|]. by exists e. }
  unfold prepared. apply wp_bind, checkRoute_wp; [by rewrite Hq|done|]. intros t1 Ht1 Hl1. cbn [wp gstep recall].
  intros [entropy|] Hrand; cbn [wp]; [|bail Hnone]. destruct (Hrand _ eq_refl) as [Hb Hlen].
  apply wp_bind, clock_wp; [done|]. intros t2 Ht2 Hl2. rewrite read_read by by rewrite Hq.
  cbn [wp gstep recall]. intros [[|]|e] _; cbn [wp]; [|bail Hnone..]. apply wp_bind.
  assert (Hid : word (default 0 (u16be entropy 0))).
  { destruct (u16be entropy 0) eqn:E; [by apply u16be_range in E|done]. }
  apply (wp_mono _ _ _ (λ g out, outcome (default 0 (u16be entropy 0)) (drop 2 entropy) g (fst out) (snd out))).
  { apply exchange_wp; [done|lia|done|done|]. simpl. by rewrite Hq. }
  intros g' out Hout. cbn beta. eapply wp_mono; [by apply close_wp|]. intros g2 out2 Hout2. right.
  split; [intros Ha; destruct Ht2 as (_ & _ & Hx & _); specialize (Hx Ha); lia|].
  exists (default 0 (u16be entropy 0)), (drop 2 entropy). split; [done|]. split; [|split; [|done]].
  - by apply Forall_drop.
  - rewrite length_drop, Hlen. done.
Qed.

End Spec.

(** *** [Measure] *)

Lemma preview_fields b t now plan :
  PreviewGatewayCheck b t now = Ok plan →
  Budget plan = gatewayBudget ∧ ScopeID (Binding plan) = ScopeID b ∧ InterfaceName (Binding plan) = InterfaceName b ∧
  InterfaceIndex (Binding plan) = InterfaceIndex b ∧ ∃ m, 0 <= m < 2 ^ 32 ∧ t = AddrString (V4 m) ∧ Target plan = V4 m.
Proof. intros (m & ps & Hm & -> & _ & _ & _ & _ & _ & ->)%preview_iff. split_and!; try done. by exists m. Qed.

(** What [normalize] keeps of a request. *)
Lemma normalize_inv request now r :
  normalize request now = Ok r →
  validTime now = true ∧ Budget (Plan r) = gatewayBudget ∧ Source r = Source request ∧
  ScopeID (Binding (Plan r)) = ScopeID (Binding (Plan request)) ∧
  InterfaceName (Binding (Plan r)) = InterfaceName (Binding (Plan request)) ∧
  InterfaceIndex (Binding (Plan r)) = InterfaceIndex (Binding (Plan request)) ∧
  ∃ m, 0 <= m < 2 ^ 32 ∧ AddrString (Target (Plan request)) = AddrString (V4 m) ∧ Target (Plan r) = V4 m.
Proof.
  unfold normalize. intros [Hg H]%guard_ok. destruct (PreviewGatewayCheck _ _ _) as [plan|] eqn:E; [|done].
  apply guard_ok in H as [_ H]. apply guard_ok in H as [_ [= <-]]. simpl.
  apply preview_fields in E as (Hb & Hs & Hn & Hi & Ht). rewrite !orb_false_iff, negb_false_iff in Hg. tauto.
Qed.

Definition measured aligned boot lower upper expires (request : Request) (g : ghost) (out : Sample * option err) : Prop :=
  nothing g out ∨
  ∃ r start, normalize request (UTC (Round0 start)) = Ok r ∧ timely aligned boot lower upper start ∧
    (aligned → wall start < wall expires) ∧
    ∃ id nonce, word id ∧ bytes nonce ∧ length nonce = 32%nat ∧
      outcome aligned upper expires r start id nonce g (fst out) (snd out).

Lemma Measure_wp aligned boot lower upper expires present request :
  wp (env aligned boot lower upper expires) (Measure present request) ghost0
    (measured aligned boot lower upper expires request).
Proof.
  assert (Hnone : ∀ g e, packets g = [] → spaced g = true → e ≠ OutOfFuel →
    measured aligned boot lower upper expires request g (zeroSample, Some e)).
  { intros g e Hp Hs He. left. split_and!; try done. by exists e. }
  unfold Measure. cbn [wp gstep recall]. intros [e|] _; cbn [wp]; [by apply Hnone, ctx_error_fuel|].
  destruct present; cbn [negb wp]; [|by apply Hnone]. intros [|] _; cbn [negb wp gstep recall]; [|by apply Hnone].
  intros start Hstart. apply wp_bind.
  apply (wp_mono _ _ _ (measured aligned boot lower upper expires request)); [|by intros g x Hm; cbn [wp gstep recall]].
  destruct (normalize request (UTC (Round0 start))) as [r|e] eqn:En; cbn [wp].
  - pose proof (normalize_inv _ _ _ En) as (_ & Hb & _).
    eapply wp_mono; [by apply (prepared_wp aligned boot lower upper expires r start Hb)|].
    intros g out [Hn|(Hx & id & nonce & Hid & Hnb & Hnl & Ho)]; [by left|right].
    exists r, start. split_and!; try done. by exists id, nonce.
  - apply Hnone; try done. revert En. unfold normalize. repeat case_match; congruence.
Qed.

(** ** The executor *)

(** The adapter the run control calls; the copy of the selection shares nothing. *)
Definition ExecuteGateway (present : bool) (s : Selection) : prog (Sample * option err) :=
  Measure present (mkRequest (Gateway.Plan s) (Gateway.Source s)).

(** What [safeExecute] keeps of the sender's error. *)
Definition exec_of (e : err) : exec_err :=
  match e with ECanceled => ExecCanceled | EDeadline => ExecDeadline | _ => ExecOther end.

Definition anything (g : ghost) (e : effect) : answer e → Prop := env False 0 0 0 zeroTime g e.

(** The counts a returned sample may have with [n] packets sent. *)
Definition counts_ok (s : Sample) (e : option err) (n : nat) : Prop :=
  sampleSendCalls s = Z.of_nat n ∧ (n ≤ 3)%nat ∧
  sampleAcceptedRequests s <= Z.of_nat n <= sampleAcceptedRequests s + 1 ∧
  0 <= sampleReplies s ∧ 0 <= sampleTimeouts s ∧
  sampleReplies s + sampleTimeouts s <= sampleAcceptedRequests s ∧
  (sampleComplete s = true ↔ e = None) ∧
  (e = None → n = 3%nat ∧ sampleReplies s + sampleTimeouts s = 3) ∧
  (sampleMeanRTT s ≠ None ↔ e = None ∧ 0 < sampleReplies s).

(** C15: whatever the clock, the route lookup, the socket and the network answer, a call of
    [Measure] ends without exhausting its loops; it sends at most three requests, the echo
    requests of one identifier and nonce with sequence numbers from 1, never closer than a
    second by the readings of its clock, and the sample it returns counts exactly these. *)
Theorem measure_bounded present request tr s e :
  run (Measure present request) tr (s, e) → env_ok anything ghost0 tr →
  let g := foldl observe ghost0 tr in
  e ≠ Some OutOfFuel ∧ spaced g = true ∧
  ∃ id nonce n, word id ∧ packets g = echoes id nonce n ∧ counts_ok s e n.
Proof.
  intros Hr Henv g. pose proof (wp_run _ _ _ _ _ _ Hr (Measure_wp False 0 0 0 zeroTime present request) Henv) as Hm.
  fold g in Hm. destruct Hm as [(Hz & Hp & Hs & e' & He & Hf)|(r & start & _ & _ & _ & id & nonce & Hid & _ & _ & Ho)];
    cbn [fst snd] in *.
  - subst s e. split; [congruence|]. split; [done|]. exists 0, [], 0%nat.
    split; [done|]. split; [done|]. unfold counts_ok. simpl. naive_solver lia.
  - destruct Ho as (He & Hs & a & b & c & d & complete & at_ & mean & -> & Hp & Ha & Hc & Hd & Hn & Hcomp & Hm & Hm' & Hend).
    split; [done|]. split; [done|]. exists id, nonce, a. split; [done|]. split; [done|].
    unfold counts_ok. simpl. split; [done|]. split; [done|]. split; [lia|]. split; [done|]. split; [done|].
    split; [lia|]. split; [done|]. split.
    + intros He'. apply Hcomp in He' as ->. destruct Hend as [(? & _)|(? & ? & ? & _)]; [done|]. lia.
    + rewrite <- Hcomp. destruct complete.
      * specialize (Hm' eq_refl). destruct mean; simpl in Hm'; symmetry in Hm'; go_bool; naive_solver lia.
      * rewrite Hm by done. naive_solver.
Qed.

(** What the run control guarantees of the environment of the executor: a steady clock,
    read between the admission and the return, and a context that carries the deadline of
    the review. *)
Definition admitted (boot : Z) (started returned expires : Time) (g : ghost) (e : effect) : answer e → Prop :=
  env True boot (wall started) (wall returned) expires g e.

Lemma outcome_measurement boot started returned expires r start id nonce g s e :
  steady boot start → validTime start = true → wall started <= wall start <= wall returned → validTime returned = true →
  outcome True (wall returned) expires r start id nonce g s e →
  ∃ m, auditMeasurement (Some s) = Some m ∧ measurement_ok m returned ∧
    sampleStartedAt s = UTC (Round0 start) ∧
    (IsZero (sampleCompletedAt s) = false → canonical (sampleCompletedAt s) ∧ wall (sampleCompletedAt s) < wall expires).
Proof.
  intros Hst Hv Hw Hvr (_ & _ & a & b & c & d & complete & at_ & mean & -> & _ & Ha & Hc & Hd & Hn & _ & Hm & Hm' & Hend).
  eexists. split; [reflexivity|]. rewrite validTime_eq in Hv, Hvr.
  destruct Hend as [(-> & -> & Ht)|(-> & -> & Hcd & Hcan & Hva & H5 & Ht)].
  - specialize (Ht I) as [Ht1 Ht2]. split; [|done]. rewrite Hm by done.
    constructor; simpl; try done; try lia. 2: naive_solver. unfold span, Second in *. simpl. lia.
  - specialize (Ht I) as (Hu & Hx & [Ht1 Ht2] & Hmean). pose proof Hva as Hva'. rewrite validTime_eq in Hva'.
    assert (Hz : IsZero at_ = false) by by apply validTime_nonzero.
    split; [|simpl; rewrite Hz; done].
    constructor; cbn -[Z.mul]; rewrite ?Hz; try done; try lia; unfold span; simpl.
    + intros e' [= <-]. unfold OperationTimeout, Second in *. simpl. split; [done|lia].
    + destruct complete; [|rewrite Hm by done; naive_solver]. specialize (Hm' eq_refl).
      destruct mean; simpl in Hm'; symmetry in Hm'; go_bool; naive_solver lia.
Qed.

(** The run control accepts what the sender returns.  In an environment the run
    control guarantees (steady clock read between admission and return, context bounded by
    the review), the sample and error of [ExecuteGateway] pass [validateSample] for the
    very selection: a run is never locked by a measurement its own sender made. *)
Theorem measure_accepted present sel boot started returned expires tr s e :
  run (ExecuteGateway present sel) tr (s, e) →
  env_ok (admitted boot started returned expires) ghost0 tr →
  canonical started → canonical returned → canonical expires → canonical (RouteObservedAt sel) →
  wall (RouteObservedAt sel) <= wall started → validTime returned = true →
  well_formed_addr (Target (Gateway.Plan sel)) →
  validateSample s (option_map exec_of e) sel started returned expires =
    Some (if bool_decide (s = zeroSample) then None else Some s).
Proof.
  intros Hr Henv Hcs Hcr Hce Hco Hro Hvr Hwf.
  pose proof (wp_run _ _ _ _ _ _ Hr (Measure_wp True boot (wall started) (wall returned) expires present _) Henv) as Hm.
  unfold validateSample. destruct Hm as [(Hz & _ & _ & e' & He & _)|(r & start & Hnorm & Htm & Hx & id & nonce & _ & _ & _ & Ho)];
    cbn [fst snd] in *.
  { subst s e. by rewrite bool_decide_eq_true_2. }
  destruct (Htm I) as [Hst Hw]. specialize (Hx I).
  apply normalize_inv in Hnorm as (Hv & Hb & Hsrc & Hscope & Hname & Hindex & m & Hmr & Haddr & Htgt).
  cbn [Plan Source] in Hsrc, Hscope, Hname, Hindex, Haddr.
  assert (Htarget : Target (Gateway.Plan sel) = V4 m).
  { pose proof (AddrString_Is4 _ (V4 m) ltac:(rewrite Haddr; by apply ParseAddr_V4) eq_refl) as H4.
    destruct (Target (Gateway.Plan sel)) as [|n|]; try done. f_equal. simpl in Hwf. by apply AddrString_V4_inj. }
  assert (Hv' : validTime start = true) by by rewrite validTime_eq in Hv |- *.
  pose proof (outcome_measurement boot started returned expires r start id nonce _ s e Hst Hv' Hw Hvr Ho)
    as (mm & Hmm & Hok & Hsat & Hcomp).
  destruct Ho as (_ & _ & a & b & c & d & complete & at_ & mean & Es & _ & _ & _ & _ & _ & Hce' & _).
  destruct (bool_decide (s = zeroSample)) eqn:Ez.
  { apply bool_decide_eq_true in Ez. destruct e; [done|]. rewrite Es in Ez. apply (f_equal sampleComplete) in Ez. naive_solver. }
  rewrite Hmm, Hsat, (proj2 (validateMeasurement_iff mm returned Hcr ltac:(by eapply auditMeasurement_canonical)) Hok).
  match goal with |- (if ?b then _ else _) = _ => assert (b = false) as ->; [|done] end.
  rewrite !orb_false_iff, !negb_false_iff. rewrite !Before_wall by auto with cozy.
  rewrite Es in Hcomp |- *. cbn -[bool_decide IsZero Before] in Hcomp |- *. rewrite Hscope, Hname, Hindex, Hsrc, Htgt, Htarget.
  split_and!; try (by apply bool_decide_eq_true_2); try lia.
  - destruct (IsZero at_) eqn:Ea; [done|]. destruct (Hcomp eq_refl) as [_ Hxa]. simpl. apply negb_false_iff. lia.
  - destruct e, complete; naive_solver.
Qed.

(** ** A run *)

(** A network that answers every second request: the clock moves a millisecond at each
    reading and by what is waited, and a reply echoes the last packet. *)
Definition reply (p : list Z) : list Z :=
  match p with
  | _ :: code :: _ :: _ :: rest => [0; code] ++ put16be (checksum ([0; code; 0; 0] ++ rest)) ++ rest
  | _ => []
  end.

Section World.
Context (sel : Selection) (boot : Z) (origin : Time).

Definition instant (elapsed : Z) : Time :=
  mkTime (wall origin + elapsed) (Some (wall origin + elapsed - boot)) "UTC".

Definition world (elapsed : Z) (g : ghost) (e : effect) : answer e * Z :=
  match e return answer e * Z with
  | Now => (instant elapsed, elapsed + Millisecond)
  | Ctx => (None, elapsed)
  | Acquire => (true, elapsed)
  | Release => (tt, elapsed)
  | Lookup =>
      let b := Binding (Gateway.Plan sel) in
      let now := UTC (Round0 (instant elapsed)) in
      (Ok (mkRoute (InterfaceName b) (InterfaceIndex b) (Gateway.Source sel) now (Add now GatewayReviewLifetime)), elapsed)
  | Random => (Some (1 :: 44 :: repeat 7 32), elapsed)
  | Open => (Ok true, elapsed)
  | Verify => (None, elapsed)
  | Send _ => (None, elapsed)
  | Receive =>
      if Nat.even (length (packets g)) then (WouldBlock, elapsed + 400 * Millisecond)
      else
        (Datagram (mkDatagram (reply (default [] (list.last (packets g)))) (Target (Gateway.Plan sel)) (Gateway.Source sel)
           (InterfaceIndex (Binding (Gateway.Plan sel))) false), elapsed)
  | Wait d => (None, elapsed + Z.max 0 d)
  | Close => (false, elapsed)
  end.

Lemma world_later elapsed g e : elapsed <= snd (world elapsed g e).
Proof. destruct e; simpl; try lia; [unfold Millisecond; lia|]. case_match; simpl; unfold Millisecond; lia. Qed.

(** The run control's view of this network. *)
Lemma drive_admitted {R} (p : prog R) elapsed g tr x until_ started returned expires :
  drive world p elapsed g = (tr, x, until_) → 0 <= elapsed →
  wall started = wall origin → wall origin + until_ <= wall returned → wall returned < wall expires →
  (∀ t, reading g = Some t → wall t < wall expires) →
  env_ok (admitted boot started returned expires) g tr.
Proof.
  intros Hd He Hs Hu Hx Hg. revert elapsed g tr He Hg Hd.
  induction p as [y|e k IH]; intros elapsed g tr He Hg; simpl; [by intros [= <- <- <-]|].
  pose proof (world_later elapsed g e) as Hw. destruct (world elapsed g e) as [a elapsed'] eqn:Ew.
  destruct (drive _ _ _) as [[tr' x'] until'] eqn:E. intros [= <- <- <-]. pose proof (drive_keeps world Z.le _ _ _ _ _ _ world_later E) as Hl.
  simpl in Hw. assert (Hok : admitted boot started returned expires g e a).
  { unfold admitted. destruct e; simpl in Ew |- *; try done.
    - injection Ew as <- <-. intros _. split; [by right|]. simpl. lia.
    - injection Ew as <- <-. intros l [= <-]. split; [by apply (bool_decide_unpack _)|done]. }
  split; [done|]. apply (IH a elapsed' (gstep g e a)); [lia| |exact E].
  intros t. destruct e; try apply Hg. simpl. intros [= <-]. destruct (Hok I). lia.
Qed.

End World.

Definition origin : Time := mkTime (1700000000 * Second) None "UTC".
Definition home : Selection :=
  mkSelection
    (mkGatewayCheckPlan home_binding (V4 3232235777) origin (Add origin GatewayReviewLifetime) gatewayBudget)
    (V4 3232235796) origin (Add origin GatewayReviewLifetime).

Definition home_run := drive (world home 0 origin) (ExecuteGateway true home) 0 ghost0.

Definition home_sample : Sample :=
  mkSample "scope.home" "en0" 4 (V4 3232235777) (V4 3232235796) (UTC origin) (UTC (Add origin 2247000000))
    3 3 2 1 true (Some 3000000).
Definition home_trace : list obs := fst (fst home_run).

Lemma home_run_eq : home_run = (home_trace, (home_sample, None), 2248000000).
Proof. vm_compute. reflexivity. Qed.

Lemma home_admitted :
  env_ok (admitted 0 origin (Add origin (3 * Second)) (Add origin GatewayReviewLifetime)) ghost0 home_trace.
Proof. by apply (drive_admitted _ _ _ _ _ _ _ _ _ _ _ _ home_run_eq). Qed.

Lemma admitted_anything boot started returned expires g tr :
  env_ok (admitted boot started returned expires) g tr → env_ok anything g tr.
Proof.
  revert g. induction tr as [|[e a] tr IH]; intros g; simpl; [done|]. intros [He Ht]. split; [|by apply IH].
  unfold anything, admitted in *. destruct e; simpl in *; try done.
Qed.

Lemma measure_bounded_witness :
  (∃ id nonce n, word id ∧ packets (foldl observe ghost0 home_trace) = echoes id nonce n ∧
     counts_ok home_sample None n) ∧ length (packets (foldl observe ghost0 home_trace)) = 3%nat.
Proof.
  split; [|vm_compute; reflexivity].
  apply (measure_bounded true (mkRequest (Gateway.Plan home) (Gateway.Source home)) home_trace home_sample None).
  - exact (drive_run _ _ _ _ _ _ _ home_run_eq).
  - exact (admitted_anything _ _ _ _ _ _ home_admitted).
Defined.

Lemma measure_accepted_witness :
  validateSample home_sample None home origin (Add origin (3 * Second)) (Add origin GatewayReviewLifetime) =
    Some (Some home_sample).
Proof.
  refine (measure_accepted true home 0 origin (Add origin (3 * Second)) (Add origin GatewayReviewLifetime) home_trace
    home_sample None (drive_run _ _ _ _ _ _ _ home_run_eq) home_admitted _ _ _ _ _ _ _); by vm_compute.
Defined.

End ICMPSender.
