(* ===== verification/ResolverSender.v ===== *)
(** * The resolver UDP sender

    [resolverudp/sender.go]: [ExecuteResolver], from the checks of the request to the
    measurement.  Its collaborators (clock, context, route lookup, random source, socket)
    are effects with arbitrary answers; the DNS library is the parameter of [ResolverWire]
    and [ResolverReply].  The theorems bound what is sent and received, and show that the
    run control accepts what the sender returns. *)

From S2P Require Import Prelude Regex GoTime RunControl NetAddr GoBytes Quality ResolverQuality ResolverWire ResolverReply ResolverPlan ResolverRun Effects.

Module ResolverSender.
Import Quality Resolver ResolverRun.

(** ** Errors *)

(** The errors that leave the sender; [OutOfFuel] stands for a receive loop without end,
    which is shown not to exist. *)
Inductive err : Type :=
| ECanceled | EDeadline | ErrUnsupported | ErrUnavailable | ErrPermission | ErrBinding
| ErrReceiveBudget | ErrClock | ErrBusy | OutOfFuel.

#[export] Instance err_eq_dec : EqDecision err.
Proof. solve_decision. Defined.

Definition ctx_error (e : ctx_err) : err :=
  match e with Canceled => ECanceled | DeadlineExceeded => EDeadline end.

(** An error of a collaborator, by the sender's errors that [errors.Is] finds in it. *)
Definition raw := err → bool.

Definition safeError (e : raw) : err :=
  default ErrUnavailable
    (head (filter (λ k, e k = true)
       [ECanceled; EDeadline; ErrUnsupported; ErrPermission; ErrBinding; ErrReceiveBudget; ErrClock; ErrBusy])).

(** ** Effects *)

Record datagram := mkDatagram { data : list Z; peer : Wire.AddrPort; local : Addr; index : Z; truncated : bool }.

Inductive received : Type :=
| WouldBlock
| ReadError (e : raw)
| Datagram (d : datagram).

Inductive effect : Type :=
| Now | Ctx | Acquire | Release | Lookup | Random | Open (port : Z) | Verify
| Send (p : list Z) | Receive | Wait (d : Duration) | Close.

(** [Send] answers whether the system call was attempted, and its error. *)
Definition answer (e : effect) : Type :=
  match e with
  | Now => Time
  | Ctx => option ctx_err
  | Acquire => bool
  | Release => unit
  | Lookup => result raw Selection
  | Random => option (list Z)
  | Open _ => result raw bool
  | Verify | Wait _ => option raw
  | Send _ => bool * option raw
  | Receive => received
  | Close => bool
  end.

Local Notation prog := (@Effects.prog effect answer).
Local Notation obs := (@Effects.obs effect answer).
Local Notation "x <~ e ;; k" := (Do e (λ x, k)) (at level 60, e at next level, right associativity).
Local Notation "x <== p ;; k" := (bind p (λ x, k)) (at level 60, p at next level, right associativity).

Definition measurementID : regex := hex_regex 32.

Record Request := mkRequest { rSelection : Selection; rMeasurementID : string }.

Definition disclosed (s : Selection) : ResolverPlan.Disclosure := ResolverPlan.review (sPlan s).

(** What is returned so far: the measurement, the variable [last] and the error. *)
Definition out : Type := ResolverMeasurement * Time * option err.

(** A step that may fail, with the reading it leaves behind. *)
Definition attempt (m : ResolverMeasurement) (p : prog (Time * option err)) (k : Time → prog out) : prog out :=
  x <== p ;; match x with (t, Some e) => Ret (m, t, Some e) | (t, None) => k t end.

Local Notation "'try' t := p 'for' m ; k" := (attempt m p (λ t, k)) (at level 60, t name, p at next level, m at next level, right associativity).

(** The assignments to the fields of the measurement. *)
Definition started_at (t : Time) (m : ResolverMeasurement) : ResolverMeasurement :=
  mkResolverMeasurement (ID m) (Resolver.Selection m) (MeasuredBy m) (UTC (Round0 t)) (CompletedAt m) (Exchange m) (Resolver.Request m) (Gap m) (Reply m) (ResponseTime m).
Definition completed_at (t : Time) (m : ResolverMeasurement) : ResolverMeasurement :=
  mkResolverMeasurement (ID m) (Resolver.Selection m) (MeasuredBy m) (StartedAt m) (UTC (Round0 t)) (Exchange m) (Resolver.Request m) (Gap m) (Reply m) (ResponseTime m).
Definition requested (q : DNSRequestState) (m : ResolverMeasurement) : ResolverMeasurement :=
  mkResolverMeasurement (ID m) (Resolver.Selection m) (MeasuredBy m) (StartedAt m) (CompletedAt m) (Exchange m) q (Gap m) (Reply m) (ResponseTime m).
Definition exchanged (x : DNSExchangeState) (m : ResolverMeasurement) : ResolverMeasurement :=
  mkResolverMeasurement (ID m) (Resolver.Selection m) (MeasuredBy m) (StartedAt m) (CompletedAt m) x (Resolver.Request m) (Gap m) (Reply m) (ResponseTime m).
Definition replied (reply : DNSReply) (d : Duration) (m : ResolverMeasurement) : ResolverMeasurement :=
  mkResolverMeasurement (ID m) (Resolver.Selection m) (MeasuredBy m) (StartedAt m) (CompletedAt m) DNSResponseReceived (Resolver.Request m) (Gap m) (Some reply) (Some d).

Section Execute.
Context {Name P : Type} (NewName : string → option Name) (Pack : Z → Name → Z → option (list Z)).
Context (parser : Reply.Parser Name P) (NameString : Name → string) (lower : string → string) (EqualFold : string → string → bool).

Section Checked.
Context (r : Request) (start : Time).
Local Notation s := (rSelection r).
Local Notation d := (disclosed s).
Local Notation budget := (ResolverPlan.dBudget d).

(** The closure [clock]: [last] is the variable it closes over. *)
Definition clock (last : Time) : prog (Time * option err) :=
  now <~ Now ;;
  if negb (validTime now) || Before now last || Before (Round0 now) (Round0 last) then Ret (last, Some ErrClock)
  else
    ctx <~ Ctx ;;
    match ctx with
    | Some e => Ret (now, Some (ctx_error e))
    | None =>
        if (ResolverPlan.TotalTimeout budget <=? Sub now start) || (ResolverPlan.TotalTimeout budget <=? Sub (Round0 now) (Round0 start)) ||
           negb (Before (Round0 now) (ResolverPlan.ExpiresAt d))
        then Ret (now, Some EDeadline) else Ret (now, None)
    end.

(** The conditions of [checkRoute] on a fresh lookup between two readings. *)
Definition route_changed (fresh : Selection) (before after : Time) : bool :=
  negb (ResolverPlan.SameSelection (sPlan s) (sPlan fresh)) || negb (ResolverPlan.Current (sPlan fresh) after) ||
  negb (validTime (RouteObservedAt fresh)) || Before (RouteObservedAt fresh) (Round0 before) || After (RouteObservedAt fresh) (Round0 after) ||
  After (RouteObservedAt fresh) (ResolverPlan.CreatedAt (disclosed fresh)) ||
  negb (Equal (RouteFreshUntil fresh) (Add (RouteObservedAt fresh) ResolverPlan.ReviewLifetime)) || negb (After (RouteFreshUntil fresh) after).

Definition checkRoute (last : Time) : prog (Time * option err) :=
  x <== clock last ;;
  match x with
  | (before, Some e) => Ret (before, Some e)
  | (before, None) =>
      fresh <~ Lookup ;;
      match fresh with
      | Err e => Ret (before, Some (safeError e))
      | Ok fresh =>
          x <== clock before ;;
          match x with
          | (after, Some e) => Ret (after, Some e)
          | (after, None) => if route_changed fresh before after then Ret (after, Some ErrBinding) else Ret (after, None)
          end
      end
  end.

(** [conn.verify] *)
Definition verify (last : Time) : prog (Time * option err) :=
  v <~ Verify ;; Ret (last, option_map safeError v).

(** [s.wait] *)
Definition pause (last : Time) (w : Duration) : prog (Time * option err) :=
  v <~ Wait w ;; Ret (last, option_map safeError v).

(** The evidence that the exchange is over is taken under the same route and socket. *)
Definition confirm (m : ResolverMeasurement) (last : Time) (k : Time → prog out) : prog out :=
  try last := checkRoute last for m ;
  try last := verify last for m ;
  try last := clock last for m ;
  k last.

(** A datagram of the bound socket for the bound source and interface. *)
Definition foreign (p : datagram) : bool :=
  truncated p || (local p != ResolverPlan.Source (ResolverPlan.dBinding d)) ||
  negb (index p =? InterfaceIndex (ResolverPlan.bObserver (ResolverPlan.dBinding d))).

Definition pollInterval : Duration := 10 * Millisecond.

(** The receive loop. *)
Fixpoint await (fuel : nat) (query : Wire.Query (Name := Name)) (m : ResolverMeasurement) (sentAt until_ last : Time) (received reads : Z) : prog out :=
  match fuel with
  | O => Ret (m, last, Some OutOfFuel)
  | S fuel =>
      try now := clock last for m ;
      if (ResolverPlan.MaxReceivedDatagrams budget <=? received) || (ResolverPlan.MaxReceiveCalls budget <=? reads) then Ret (m, now, Some ErrReceiveBudget)
      else if negb (Before now until_) then confirm m now (λ last, Ret (exchanged DNSTimeout m, last, None))
      else
        let reads := reads + 1 in
        packet <~ Receive ;;
        try now := clock now for m ;
        match packet with
        | WouldBlock =>
            try now := pause now (Z.min pollInterval (Z.max 0 (Sub until_ now))) for m ;
            await fuel query m sentAt until_ now received reads
        | ReadError e => Ret (exchanged DNSTransportError m, now, Some (safeError e))
        | Datagram packet =>
            let received := received + 1 in
            if negb (Before now until_) || foreign packet then await fuel query m sentAt until_ now received reads
            else
              match Reply.MatchResponse parser NameString lower EqualFold query (peer packet) (data packet) with
              | Err _ => await fuel query m sentAt until_ now received reads
              | Ok reply =>
                  confirm m now (λ last,
                    let duration := Sub (Round0 now) (Round0 sentAt) in
                    if (duration <? 0) || (ResolverPlan.ExchangeTimeout budget <=? duration) then Ret (m, last, Some ErrClock)
                    else Ret (completed_at now (replied reply duration m), last, None))
              end
        end
  end.

(** One send, then the wait for its answer. *)
Definition exchange (query : Wire.Query (Name := Name)) (m : ResolverMeasurement) (last : Time) : prog out :=
  try last := checkRoute last for m ;
  try last := verify last for m ;
  try sentAt := clock last for m ;
  let m := started_at sentAt m in
  x <~ Send (Wire.packet query) ;;
  let '(attempted, sendErr) := (x : bool * option raw) in
  let m := if attempted then requested (if is_some sendErr then DNSRequestUncertain else DNSRequestAccepted) m else m in
  try last := clock sentAt for m ;
  match sendErr with
  | Some e => Ret (exchanged DNSTransportError m, last, Some (safeError e))
  | None =>
      if negb attempted then Ret (m, last, Some ErrUnavailable)
      else await 513 query (requested DNSRequestAccepted m) sentAt (Add sentAt (ResolverPlan.ExchangeTimeout budget)) last 0 0
  end.

(** The deferred close of the socket. *)
Definition close (x : out) : prog out :=
  failed <~ Close ;;
  Ret (if (failed : bool) && negb (is_some x.2) then (x.1, Some ErrUnavailable) else x).

(** The deferred completion time. *)
Definition complete_at (x : out) : prog (ResolverMeasurement * option err) :=
  let '(m, last, e) := x in
  if IsZero (CompletedAt m) then
    now <~ Now ;;
    Ret (completed_at (if validTime now && negb (Before now last) && negb (Before (Round0 now) (Round0 last)) then now else last) m, e)
  else Ret (m, e).

Definition fresh_measurement : ResolverMeasurement :=
  mkResolverMeasurement (rMeasurementID r) (ResolverPlan.cSelection (ResolverPlan.dConfiguration d)) (ResolverPlan.bObserver (ResolverPlan.dBinding d))
    (UTC (Round0 start)) zeroTime DNSIncomplete DNSRequestNotSent GapNone None None.

(** From the first route check to the closed socket. *)
Definition measure : prog out :=
  let m := fresh_measurement in
  try last := checkRoute start for m ;
  entropy <~ Random ;;
  match entropy with
  | None => Ret (m, last, Some ErrUnavailable)
  | Some entropy =>
      let c := ResolverPlan.dConfiguration d in
      match Wire.NewQuery NewName Pack (ResolverPlan.Endpoint c) (ResolverPlan.cName c) (QueryType (ResolverPlan.cSelection c)) (default 0 (u16be entropy 0)) with
      | None => Ret (m, last, Some ErrBinding)
      | Some query =>
          let port := 49152 + Z.land (default 0 (u16be entropy 2)) 16383 in
          try last := clock last for m ;
          conn <~ Open port ;;
          match conn with
          | Err e => Ret (m, last, Some (safeError e))
          | Ok false => Ret (m, last, Some ErrUnavailable)
          | Ok true => x <== exchange query m last ;; close x
          end
      end
  end.

End Checked.

(** The checks of the request at the first reading. *)
Definition unusable (r : Request) (start : Time) : bool :=
  let s := rSelection r in
  negb (validTime start) || negb (ResolverPlan.Current (sPlan s) start) || negb (MatchString measurementID (rMeasurementID r)) ||
  negb (validTime (RouteObservedAt s)) || After (RouteObservedAt s) (ResolverPlan.CreatedAt (disclosed s)) ||
  negb (Equal (RouteFreshUntil s) (Add (RouteObservedAt s) ResolverPlan.ReviewLifetime)) || negb (After (RouteFreshUntil s) start).

(** [bounded]: whether the context has a deadline; [present]: whether the sender is complete. *)
Definition ExecuteResolver (bounded present : bool) (r : Request) : prog (ResolverMeasurement * option err) :=
  ctx <~ Ctx ;;
  match ctx with
  | Some e => Ret (zeroMeasurement, Some (ctx_error e))
  | None =>
      if negb bounded then Ret (zeroMeasurement, Some ErrBinding)
      else if negb present then Ret (zeroMeasurement, Some ErrUnavailable)
      else
        free <~ Acquire ;;
        if negb free then Ret (zeroMeasurement, Some ErrBusy)
        else
          start <~ Now ;;
          x <== (if unusable r start then Ret (zeroMeasurement, Some ErrBinding)
                 else x <== measure r start ;; complete_at x) ;;
          u <~ Release ;;
          Ret x
  end.

End Execute.

(** ** Runs *)

(** What is remembered of a run: the routes looked up, the ports opened, the packets with
    whether the call was attempted and the routes known by then, and the receive calls. *)
Record ghost := mkGhost {
  routes : list Selection;
  ports : list Z;
  sent : list (list Z * bool * list Selection);
  receives : Z;
}.
Definition ghost0 : ghost := mkGhost [] [] [] 0.

Definition looked (f : Selection) (g : ghost) : ghost := mkGhost (routes g ++ [f]) (ports g) (sent g) (receives g).

#[export] Instance recall : Remembers answer ghost := λ g e,
  match e return answer e → ghost with
  | Lookup => λ a, match a with Ok f => looked f g | Err _ => g end
  | Open port => λ _, mkGhost (routes g) (ports g ++ [port]) (sent g) (receives g)
  | Send p => λ a, mkGhost (routes g) (ports g) (sent g ++ [(p, a.1, routes g)]) (receives g)
  | Receive => λ _, mkGhost (routes g) (ports g) (sent g) (receives g + 1)
  | _ => λ _, g
  end.

Lemma resolver_ctx_error_fuel e : ctx_error e ≠ OutOfFuel.
Proof. by destruct e. Qed.
Lemma resolver_safeError_fuel e : safeError e ≠ OutOfFuel.
Proof.
  unfold safeError. destruct (head _) as [k|] eqn:E; [|done]. simpl. intros ->.
  apply head_Some_elem_of, list_elem_of_filter in E as [_ E]. set_solver.
Qed.

Section Spec.
(** When [aligned] holds, the clock is steady and its readings lie between two instants. *)
Context (aligned : Prop) (boot lower_ upper : Z).

Definition timely (t : Time) : Prop := aligned → steady boot t ∧ lower_ <= wall t <= upper.

Definition env (g : ghost) (e : effect) : answer e → Prop :=
  match e with
  | Now => λ t, timely t
  | Random => λ a, ∀ l, a = Some l → bytes l ∧ length l = 4%nat
  | Receive => λ a, ∀ d, a = Datagram d → bytes (data d)
  | _ => λ _, True
  end.

Definition good (t : Time) : Prop := timely t ∧ validTime t = true.

Context {Name P : Type} (NewName : string → option Name) (Pack : Z → Name → Z → option (list Z)).
Context (parser : Reply.Parser Name P) (left : P → nat → nat) {parses : Reply.Parses parser left}.
Context (NameString : Name → string) (lower : string → string) (EqualFold : string → string → bool).
Context (r : Request) (start : Time) (request_size : Z).
Hypothesis budget_fixed : ResolverPlan.dBudget (disclosed (rSelection r)) = ResolverPlan.planBudget request_size.

(** [later last t]: an accepted reading not before [last]. *)
Definition later (last t : Time) : Prop := good t ∧ wall last <= wall t.

Lemma later_trans t u v : later t u → later u v → later t v.
Proof. unfold later. intros [_ ?] [? ?]. split; [done|lia]. Qed.

Lemma resolver_clock_wp last g (Q : ghost → Time * option err → Prop) :
  good last → (∀ t e, later last t → e ≠ Some OutOfFuel → Q g (t, e)) → wp env (clock r start last) g Q.
Proof.
  intros Hlast H. unfold clock. cbn [wp gstep recall env]. intros now Hnow.
  destruct (negb (validTime now) || _ || _) eqn:E; cbn [wp]; [by apply H|]. rewrite !orb_false_iff, negb_false_iff in E. destruct E as [[Hv _] Hb].
  assert (Hl : later last now).
  { split; [done|]. rewrite Before_wall in Hb by auto with cozy. simpl in Hb. go_bool. lia. }
  intros [e|] _; cbn [wp]; [apply H; [done|intros [= E]; by apply (resolver_ctx_error_fuel e)]|]. case_match; cbn [wp]; by apply H.
Qed.

(** The changes of a step that neither opens nor sends nor receives. *)
Definition calm (g g' : ghost) : Prop := ports g' = ports g ∧ sent g' = sent g ∧ receives g' = receives g.

Definition agrees (f : Selection) : Prop := ResolverPlan.SameSelection (sPlan (rSelection r)) (sPlan f) = true.

Lemma resolver_checkRoute_wp last g (Q : ghost → Time * option err → Prop) :
  good last →
  (∀ g' t e, calm g g' → later last t → e ≠ OutOfFuel → Q g' (t, Some e)) →
  (∀ f t, agrees f → later last t → Q (looked f g) (t, None)) →
  wp env (checkRoute r start last) g Q.
Proof.
  intros Hlast He Hok. unfold checkRoute. apply wp_bind, resolver_clock_wp; [done|]. intros t1 [e|] Ht1 Hf; cbn [wp]; [apply He; try done; congruence|].
  cbn [gstep recall]. intros [f|e] _; cbn [wp]; [|by apply He; [|done|apply resolver_safeError_fuel]].
  apply wp_bind, resolver_clock_wp; [apply Ht1|]. intros t2 e Ht2 Hf2. pose proof (later_trans _ _ _ Ht1 Ht2).
  destruct e as [e|]; cbn [wp]; [apply He; try done; congruence|].
  destruct (route_changed r f t1 t2) eqn:Ec; cbn [wp]; [by apply He|]. apply Hok; [|done].
  unfold route_changed in Ec. rewrite !orb_false_iff, !negb_false_iff in Ec. by apply Ec.
Qed.

Lemma resolver_attempt_wp m p k g (Q : ghost → out → Prop) :
  wp env p g (λ g' x, match x with (t, Some e) => Q g' (m, t, Some e) | (t, None) => wp env (k t) g' Q end) →
  wp env (attempt m p k) g Q.
Proof. intros H. apply wp_bind. eapply wp_mono; [exact H|]. by intros g' [t [e|]]. Qed.

Lemma asked_wp last e (Q : ghost → Time * option err → Prop) g :
  e = Verify ∨ (∃ w, e = Wait w) → (∀ e, e ≠ Some OutOfFuel → Q g (last, e)) →
  wp env (match e with Verify => verify last | Wait w => pause last w | _ => Ret (last, None) end) g Q.
Proof.
  intros [->|[w ->]] H; cbn [wp verify pause gstep recall]; intros [v|] _; apply H; try done; intros [= E]; by apply (resolver_safeError_fuel v).
Qed.

(** *** The receive loop *)

(** How the wait for an answer to [m] ends. *)
Inductive ended (m : ResolverMeasurement) (sentAt last : Time) : ResolverMeasurement → option err → Prop :=
| ended_early e : e ≠ OutOfFuel → ended m sentAt last m (Some e)
| ended_broken e : e ≠ OutOfFuel → ended m sentAt last (exchanged DNSTransportError m) (Some e)
| ended_timeout : (aligned → wall sentAt + 2 * Second <= wall last) → ended m sentAt last (exchanged DNSTimeout m) None
| ended_reply at_ reply :
    good at_ → 0 <= wall at_ - wall sentAt < 2 * Second → wall at_ <= wall last → Reply.reply_ok reply →
    ended m sentAt last (completed_at at_ (replied reply (wall at_ - wall sentAt) m)) None.

Lemma confirm_wp m last g k (Q : ghost → out → Prop) :
  good last →
  (∀ g' t e, calm g g' → later last t → e ≠ OutOfFuel → Q g' (m, t, Some e)) →
  (∀ g' t, calm g g' → later last t → wp env (k t) g' Q) →
  wp env (confirm r start m last k) g Q.
Proof.
  intros Hlast He Hk. unfold confirm. apply resolver_attempt_wp, resolver_checkRoute_wp; [done|by apply He|]. intros f t _ Ht.
  apply resolver_attempt_wp, (asked_wp t Verify); [by left|]. intros [e|] Hf; [apply He; try done; congruence|].
  apply resolver_attempt_wp, resolver_clock_wp; [apply Ht|]. intros t' [e|] Ht' Hf'; pose proof (later_trans _ _ _ Ht Ht').
  - apply He; try done; congruence.
  - by apply Hk.
Qed.

Definition received_ok (g g' : ghost) (reads : Z) : Prop :=
  ports g' = ports g ∧ sent g' = sent g ∧ receives g <= receives g' <= receives g + (512 - reads).

Lemma resolver_await_wp fuel query m sentAt until_ last received reads g :
  good last → good sentAt → until_ = Add sentAt (2 * Second) → 0 <= reads <= 512 → (Z.to_nat (512 - reads) < fuel)%nat →
  wp env (await parser NameString lower EqualFold r start fuel query m sentAt until_ last received reads) g
    (λ g' '(m', t, e), received_ok g g' reads ∧ later last t ∧ ended m sentAt t m' e).
Proof.
  revert last received reads g. induction fuel as [|fuel IH]; intros last received reads g Hlast Hsent -> Hr Hf; [lia|]. cbn [await].
  assert (Hstay : ∀ g', calm g g' → received_ok g g' reads) by (unfold received_ok; intros g' (-> & -> & ->); split_and!; done || lia).
  apply resolver_attempt_wp, resolver_clock_wp; [done|]. intros t [e|] Ht He; [split_and!; [by apply Hstay|done|apply ended_early; congruence]|].
  rewrite budget_fixed. cbn [ResolverPlan.planBudget ResolverPlan.MaxReceivedDatagrams ResolverPlan.MaxReceiveCalls ResolverPlan.ExchangeTimeout].
  destruct ((16 <=? received) || (512 <=? reads)) eqn:Eb; cbn [wp]; [split_and!; [by apply Hstay|done|by apply ended_early]|].
  apply orb_false_iff in Eb as [_ Eb%Z.leb_gt]. destruct (Before t (Add sentAt (2 * Second))) eqn:Hb; cbn [negb].
  2: { apply confirm_wp; [apply Ht|..].
    - intros g' t' e Hc Ht' He'. split_and!; [by apply Hstay|by eapply later_trans|by apply ended_early].
    - intros g' t' Hc Ht'. cbn [wp]. split_and!; [by apply Hstay|by eapply later_trans|]. apply ended_timeout. intros Ha.
      destruct Ht as [[Htt _] _], Hsent as [Hst _], Ht' as [_ Ht']. destruct (Htt Ha) as [Hs1 _], (Hst Ha) as [Hs2 _].
      rewrite (Before_steady boot) in Hb by auto with cozy. rewrite wall_Add in Hb. go_bool. lia. }
  cbn [wp gstep recall env]. intros x Hx. set (g1 := mkGhost _ _ _ _).
  assert (Hstay1 : ∀ g', calm g1 g' → received_ok g g' reads) by (unfold received_ok; intros g' (-> & -> & ->); simpl; split_and!; done || lia).
  apply resolver_attempt_wp, resolver_clock_wp; [apply Ht|]. intros t2 [e|] Ht2 He2; pose proof (later_trans _ _ _ Ht Ht2) as Ht02.
  { split_and!; [by apply Hstay1|done|apply ended_early; congruence]. }
  assert (Hnext : ∀ rc, wp env (await parser NameString lower EqualFold r start fuel query m sentAt (Add sentAt (2 * Second)) t2 rc (reads + 1)) g1
    (λ g' '(m', t, e), received_ok g g' reads ∧ later last t ∧ ended m sentAt t m' e)).
  { intros rc. eapply wp_mono; [apply IH; try done; try lia; apply Ht2|]. intros g' [[m' t'] e'] (Hg & Ht' & Hend).
    split_and!; [|by eapply later_trans|done]. destruct Hg as (Hp & Hs & Hg). split_and!; [done|done|simpl in Hg; lia..]. }
  destruct x as [|e|packet].
  - apply resolver_attempt_wp, (asked_wp t2 (Wait _)); [by right; eexists|]. intros [e|] Hw; [|apply Hnext].
    split_and!; [by apply Hstay1|done|apply ended_early; congruence].
  - cbn [wp]. split_and!; [by apply Hstay1|done|apply ended_broken, resolver_safeError_fuel].
  - destruct (negb _ || _); [apply Hnext|].
    pose proof (Reply.match_yields parser left NameString lower EqualFold query (peer packet) (data packet) (Hx packet eq_refl)) as Hm.
    destruct (Reply.MatchResponse _ _ _ _ _ _ _) as [reply|e]; [|apply Hnext]. simpl in Hm.
    apply confirm_wp; [apply Ht2|..].
    + intros g' t' e Hc Ht' Hw. split_and!; [by apply Hstay1|by eapply later_trans|by apply ended_early].
    + intros g' t' Hc Ht'. rewrite Sub_wall by auto with cozy. change (wall (Round0 t2)) with (wall t2). change (wall (Round0 sentAt)) with (wall sentAt).
      destruct ((_ <? 0) || _) eqn:Ed; cbn [wp]; (split_and!; [by apply Hstay1|by eapply later_trans|]); [by apply ended_early|].
      assert (Hd : int64_saturate (wall t2 - wall sentAt) = wall t2 - wall sentAt ∧ 0 <= wall t2 - wall sentAt < 2 * Second).
      { rewrite orb_false_iff, Z.ltb_ge, Z.leb_gt in Ed. unfold int64_saturate, min_int64, max_int64, Second in *. lia. }
      destruct Hd as [-> Hd]. apply ended_reply; [apply Ht2|done|apply Ht'|apply Hm].
Qed.

(** *** The whole exchange *)

(** The one question the plan allows, with an identifier. *)
Definition questions (query : Wire.Query (Name := Name)) : Prop :=
  let c := ResolverPlan.dConfiguration (disclosed (rSelection r)) in
  ∃ i, 0 <= i < 65536 ∧ Wire.NewQuery NewName Pack (ResolverPlan.Endpoint c) (ResolverPlan.cName c) (QueryType (ResolverPlan.cSelection c)) i = Some query.

(** The measurement of a request handed to the socket at [sentAt]. *)
Definition underway (sentAt : Time) (q : DNSRequestState) : ResolverMeasurement := requested q (started_at sentAt (fresh_measurement r start)).

Inductive outcome (g : ghost) (last : Time) : ResolverMeasurement → option err → Prop :=
| out_unsent e : sent g = [] → e ≠ OutOfFuel → outcome g last (fresh_measurement r start) (Some e)
| out_sent sentAt query f1 f2 (tried : bool) q m e :
    sent g = [(Wire.packet query, tried, [f1; f2])] → questions query → agrees f1 → agrees f2 →
    later start sentAt → wall sentAt <= wall last →
    q = (if tried then q else DNSRequestNotSent) → (tried = true → q = DNSRequestAccepted ∨ q = DNSRequestUncertain) →
    (q = DNSRequestAccepted ∨ e ≠ None) → ended (underway sentAt q) sentAt last m e → outcome g last m e.

Definition ports_ok (g : ghost) : Prop := ports g = [] ∨ ∃ port, ports g = [port] ∧ 49152 <= port <= 65535.

Definition measured (g : ghost) (x : out) : Prop :=
  let '(m, last, e) := x in later start last ∧ 0 <= receives g <= 512 ∧ ports_ok g ∧
  ∃ e', outcome g last m e' ∧ (e = e' ∨ e' = None ∧ e = Some ErrUnavailable).

Lemma resolver_exchange_wp query f1 last g :
  later start last → routes g = [f1] → agrees f1 → sent g = [] → receives g = 0 → questions query → ports_ok g →
  wp env (exchange parser NameString lower EqualFold r start query (fresh_measurement r start) last) g
    (λ g' '(m, t, e), later start t ∧ 0 <= receives g' <= 512 ∧ ports_ok g' ∧ outcome g' t m e).
Proof.
  intros Hlast Hf1 Ha1 Hsent Hrec Hq Hports.
  assert (Hearly : ∀ g' t e, calm g g' → later start t → e ≠ OutOfFuel →
    later start t ∧ 0 <= receives g' <= 512 ∧ ports_ok g' ∧ outcome g' t (fresh_measurement r start) (Some e)).
  { intros g' t e (Hp & Hs & Hr) Ht He. unfold ports_ok. rewrite Hp, Hr, Hrec. split_and!; try done. apply out_unsent; [by rewrite Hs|done]. }
  unfold exchange. apply resolver_attempt_wp, resolver_checkRoute_wp; [apply Hlast|intros; apply Hearly; try done; by eapply later_trans|].
  intros f2 t1 Ha2 Ht1. pose proof (later_trans _ _ _ Hlast Ht1) as Hs1.
  apply resolver_attempt_wp, (asked_wp t1 Verify); [by left|]. intros [e|] Hv; [apply Hearly; try done; congruence|].
  apply resolver_attempt_wp, resolver_clock_wp; [apply Ht1|]. intros sentAt [e|] Hsat Hc; pose proof (later_trans _ _ _ Hs1 Hsat) as Hss.
  { apply Hearly; try done; congruence. }
  cbn [wp gstep recall looked routes ports sent receives]. intros [tried sendErr] _. cbn [fst]. rewrite Hsent, Hf1. cbn [app]. set (g1 := mkGhost _ _ _ _).
  assert (Hm : (if tried then requested (if is_some sendErr then DNSRequestUncertain else DNSRequestAccepted) (started_at sentAt (fresh_measurement r start))
    else started_at sentAt (fresh_measurement r start)) =
    underway sentAt (if tried then (if is_some sendErr then DNSRequestUncertain else DNSRequestAccepted) else DNSRequestNotSent)) by by destruct tried.
  rewrite Hm. clear Hm. set (q := if tried then _ else _).
  assert (Hdone : ∀ g' t m e, sent g' = sent g1 → ports g' = ports g → 0 <= receives g' <= 512 → later sentAt t →
    q = DNSRequestAccepted ∨ e ≠ None → ended (underway sentAt q) sentAt t m e →
    later start t ∧ 0 <= receives g' <= 512 ∧ ports_ok g' ∧ outcome g' t m e).
  { intros g' t m e Hs Hp Hr Ht Hacc Hend. split_and!; [by eapply later_trans|lia|lia|by unfold ports_ok; rewrite Hp|].
    eapply (out_sent g' t sentAt query f1 f2 tried q); try done; [apply Ht|by destruct tried|]. intros ->. unfold q. destruct (is_some sendErr); auto. }
  apply resolver_attempt_wp, resolver_clock_wp; [apply Hsat|]. intros t2 [e|] Ht2 Hc2.
  { apply Hdone; try done; [simpl; rewrite Hrec; lia|by right|apply ended_early; congruence]. }
  destruct sendErr as [e|]; cbn [wp].
  { apply Hdone; try done; [simpl; rewrite Hrec; lia|by right|apply ended_broken, resolver_safeError_fuel]. }
  destruct tried; cbn [negb wp]; [|apply Hdone; try done; [simpl; rewrite Hrec; lia|by right|by apply ended_early]].
  rewrite budget_fixed. cbn [ResolverPlan.planBudget ResolverPlan.ExchangeTimeout].
  eapply wp_mono; [apply resolver_await_wp; try done; [apply Ht2|apply Hsat|simpl; lia]|]. intros g' [[m t] e] ((Hp & Hs & Hr) & Ht & Hend).
  change (receives g <= receives g' <= receives g + 512) in Hr. rewrite Hrec in Hr. apply Hdone; try done; [by eapply later_trans|by left].
Qed.

Lemma measure_wp : good start → wp env (measure NewName Pack parser NameString lower EqualFold r start) ghost0 measured.
Proof.
  intros Hstart.
  assert (Hearly : ∀ g t e, ports g = [] → sent g = [] → receives g = 0 → later start t → e ≠ OutOfFuel → measured g (fresh_measurement r start, t, Some e)).
  { intros g t e Hp Hs Hr Ht He. split; [done|]. rewrite Hr. split; [lia|]. split; [by left|]. eexists. split; [by apply out_unsent|by left]. }
  unfold measure. apply resolver_attempt_wp, resolver_checkRoute_wp; [done|intros g' t e (? & ? & ?); by apply Hearly|]. intros f1 t1 Ha1 Ht1.
  cbn [wp gstep recall env]. intros [entropy|] Hrand; cbn [wp]; [|by apply Hearly]. destruct (Hrand _ eq_refl) as [Hb Hlen].
  assert (Hid : 0 <= default 0 (u16be entropy 0) < 65536).
  { destruct (u16be entropy 0) eqn:E; [by apply u16be_range in E|simpl; lia]. }
  destruct (Wire.NewQuery _ _ _ _ _ _) as [query|] eqn:Eq; cbn [wp]; [|by apply Hearly].
  apply resolver_attempt_wp, resolver_clock_wp; [apply Ht1|]. intros t2 [e|] Ht2 Hc; pose proof (later_trans _ _ _ Ht1 Ht2) as H02; [apply Hearly; try done; congruence|].
  set (port := 49152 + _).
  assert (Hport : ports_ok (mkGhost [f1] [port] [] 0)).
  { right. exists port. split; [done|]. unfold port. change 16383 with (Z.ones 14). rewrite Z.land_ones by lia.
    pose proof (Z.mod_pos_bound (default 0 (u16be entropy 2)) (2 ^ 14)). lia. }
  cbn [wp gstep recall looked ghost0 routes ports sent receives app].
  assert (Hlate : ∀ e, e ≠ OutOfFuel → measured (mkGhost [f1] [port] [] 0) (fresh_measurement r start, t2, Some e)).
  { intros e He. split; [done|]. split; [simpl; lia|]. split; [done|]. eexists. split; [by apply out_unsent|by left]. }
  intros [[|]|e] _; cbn [wp]; [|by apply Hlate|by apply Hlate, resolver_safeError_fuel].
  apply wp_bind. eapply wp_mono; [eapply resolver_exchange_wp; try done; by eexists|]. intros g [[m t] e] (Ht & Hr & Hp & Ho).
  unfold close. cbn [wp gstep recall]. intros failed _.
  assert (Hm : ∀ e', e' = e ∨ e = None ∧ e' = Some ErrUnavailable → measured g (m, t, e')) by (intros e' He'; do 3 (split; [done|]); by exists e).
  destruct failed, e; simpl; apply Hm; auto.
Qed.

(** With the time of completion: what [ExecuteResolver] returns after its first checks. *)
Definition completed (g : ghost) (x : ResolverMeasurement * option err) : Prop :=
  ∃ m last e', later start last ∧ 0 <= receives g <= 512 ∧ ports_ok g ∧ outcome g last m e' ∧
    (x.2 = e' ∨ e' = None ∧ x.2 = Some ErrUnavailable) ∧
    (x.1 = m ∧ IsZero (CompletedAt m) = false ∨ ∃ t, later last t ∧ x.1 = completed_at t m ∧ IsZero (CompletedAt m) = true).

Lemma complete_wp g x : measured g x → wp env (complete_at x) g completed.
Proof.
  destruct x as [[m last] e]. intros (Hl & Hr & Hp & e' & Ho & He). unfold complete_at. destruct (IsZero (CompletedAt m)) eqn:Ez.
  - cbn [wp gstep recall env]. intros now Hnow. cbn [wp]. exists m, last, e'. do 5 (split; [done|]). right.
    eexists. split; [|done]. destruct (validTime now && _ && _) eqn:E; [|split; [apply Hl|lia]].
    rewrite !andb_true_iff, !negb_true_iff in E. destruct E as [[Hv _] Hb]. split; [done|].
    rewrite Before_wall in Hb by auto with cozy. simpl in Hb. go_bool. lia.
  - cbn [wp]. exists m, last, e'. do 5 (split; [done|]). by left.
Qed.

End Spec.

(** *** [ExecuteResolver] *)

Section Theorems.
Context {Name P : Type} (NewName : string → option Name) (Pack : Z → Name → Z → option (list Z)).
Context (parser : Reply.Parser Name P) (left : P → nat → nat) {parses : Reply.Parses parser left}.
Context (NameString : Name → string) (lower : string → string) (EqualFold : string → string → bool).
Local Notation execute := (ExecuteResolver NewName Pack parser NameString lower EqualFold).

Definition refused (g : ghost) (x : ResolverMeasurement * option err) : Prop :=
  x.1 = zeroMeasurement ∧ g = ghost0 ∧ x.2 ≠ None ∧ x.2 ≠ Some OutOfFuel.

Lemma execute_wp aligned boot lower_ upper bounded present r n :
  ResolverPlan.dBudget (disclosed (rSelection r)) = ResolverPlan.planBudget n →
  wp (env aligned boot lower_ upper) (execute bounded present r) ghost0
    (λ g x, refused g x ∨ ∃ start, timely aligned boot lower_ upper start ∧ unusable r start = false ∧
       completed aligned boot lower_ upper NewName Pack r start g x).
Proof.
  intros Hb. assert (Hno : ∀ e, e ≠ OutOfFuel → refused ghost0 (zeroMeasurement, Some e)) by (intros e He; split_and!; try done; simpl; congruence).
  unfold ExecuteResolver. cbn [wp gstep recall env]. intros [e|] _; cbn [wp]; [left; apply Hno, resolver_ctx_error_fuel|].
  destruct bounded; cbn [negb wp]; [|by left; apply Hno]. destruct present; cbn [negb wp]; [|by left; apply Hno].
  intros [|] _; cbn [negb wp]; [|by left; apply Hno]. intros start Hstart. apply wp_bind.
  eapply wp_mono; [|intros g x Hx; cbn [wp gstep recall]; intros _ _; exact Hx].
  destruct (unusable r start) eqn:Eu; cbn [wp]; [by left; apply Hno|]. apply wp_bind.
  assert (Hv : validTime start = true) by (unfold unusable in Eu; rewrite !orb_false_iff, !negb_false_iff in Eu; by destruct Eu as [[[[[[? _] _] _] _] _] _]).
  eapply wp_mono; [by eapply (measure_wp aligned boot lower_ upper NewName Pack parser left); [exact Hb|]|]. intros g x Hm.
  eapply wp_mono; [by apply complete_wp|]. intros g' y Hy. right. by exists start.
Qed.

Definition anything (g : ghost) (e : effect) : answer e → Prop := env False 0 0 0 g e.

Lemma new_budget b c t p : ResolverPlan.New NewName Pack b c t = Ok p → ∃ n, ResolverPlan.dBudget (ResolverPlan.review p) = ResolverPlan.planBudget n.
Proof. intros (prefixes & member & _ & _ & _ & _ & _ & _ & ->)%ResolverPlan.new_iff. by eexists. Qed.

Lemma ended_request aligned boot lower_ upper m0 sentAt last m e :
  ended aligned boot lower_ upper m0 sentAt last m e → Resolver.Request m = Resolver.Request m0 ∧ e ≠ Some OutOfFuel ∧ (e = None → complete m = true).
Proof. destruct 1; simpl; (split; [done|]); (split; [congruence|]); done. Qed.

(** What the resolver sender may do.  Whatever the clock, the context, the route lookup, the socket and
    the network answer, [ExecuteResolver] ends; it opens at most one socket, on a dynamic port, makes at
    most 512 receive calls and sends at most once; the packet is then the packed question of the reviewed
    plan, it is sent after two lookups that agree with the plan, and the measurement says that nothing was
    sent exactly when no send was attempted.  Without an error the exchange is complete. *)
Theorem exchange_bounded bounded present r b c t tr m e :
  run (execute bounded present r) tr (m, e) → env_ok anything ghost0 tr →
  ResolverPlan.New NewName Pack b c t = Ok (sPlan (rSelection r)) →
  let g := foldl observe ghost0 tr in
  e ≠ Some OutOfFuel ∧ (e = None → complete m = true) ∧ receives g <= 512 ∧ ports_ok g ∧
  ((sent g = [] ∧ (m = zeroMeasurement ∨ Resolver.Request m = DNSRequestNotSent)) ∨
   ∃ query f1 f2 tried, sent g = [(Wire.packet query, tried, [f1; f2])] ∧ questions NewName Pack r query ∧ agrees r f1 ∧ agrees r f2 ∧
     (Resolver.Request m = DNSRequestNotSent ↔ tried = false)).
Proof.
  intros Hr Henv [n Hn]%new_budget g. pose proof (wp_run _ _ _ _ _ _ Hr (execute_wp False 0 0 0 bounded present r n Hn) Henv) as Hm. fold g in Hm.
  destruct Hm as [(Hz & Hg & He & Hf)|(start & _ & _ & m0 & last & e' & _ & Hrec & Hp & Ho & He & Hc)]; cbn [fst snd] in *.
  { rewrite Hg. split_and!; try done; [by left|]. left. split; [done|by left]. }
  assert (Hreq : Resolver.Request m = Resolver.Request m0 ∧ (complete m0 = true → complete m = true)) by (destruct Hc as [[-> _]|(? & _ & -> & _)]; done).
  destruct Hreq as [Hreq Hcomp]. rewrite Hreq. destruct Ho as [e0 Hs Hf|sentAt query f1 f2 tried q m1 e0 Hs Hq H1 H2 _ _ Eq Hq2 _ Hend].
  - destruct He as [->|[? _]]; [|done]. split_and!; try done; [congruence|lia|]. left. split; [done|by right].
  - apply ended_request in Hend as (Hr0 & Hf & Hc0). split_and!; [destruct He as [->|[_ ->]]; done| |lia|done|].
    + intros ->. apply Hcomp, Hc0. destruct He as [<-|[_ ?]]; done.
    + right. exists query, f1, f2, tried. split_and!; try done. rewrite Hr0. simpl. destruct tried; [|by rewrite Eq].
      split; [|done]. intros Eq'. destruct (Hq2 eq_refl) as [->| ->]; discriminate.
Qed.

(** ** The run control accepts the measurement *)

(** What [safeExecute] keeps of the sender's error. *)
Definition exec_of (e : err) : exec_err :=
  match e with ECanceled => ExecCanceled | EDeadline => ExecDeadline | _ => ExecOther end.

(** A measurement the sender may return, with times [s] and [t]. *)
Record shape (r : Request) (m : ResolverMeasurement) (e : option err) (s t : Time) : Prop := {
  sh_id : ID m = rMeasurementID r;
  sh_selection : Resolver.Selection m = ResolverPlan.cSelection (ResolverPlan.dConfiguration (disclosed (rSelection r)));
  sh_observer : MeasuredBy m = ResolverPlan.bObserver (ResolverPlan.dBinding (disclosed (rSelection r)));
  sh_started : StartedAt m = UTC (Round0 s);
  sh_completed : CompletedAt m = UTC (Round0 t);
  sh_gap : Gap m = GapNone;
  sh_request : Resolver.Request m = DNSRequestNotSent ∨ Resolver.Request m = DNSRequestAccepted ∨ Resolver.Request m = DNSRequestUncertain;
  sh_order : wall s <= wall t;
  sh_exchange :
    (Exchange m = DNSIncomplete ∨ Exchange m = DNSTransportError) ∧ Reply m = None ∧ ResponseTime m = None ∧ e ≠ None ∨
    Exchange m = DNSTimeout ∧ Reply m = None ∧ ResponseTime m = None ∧ Resolver.Request m = DNSRequestAccepted ∧ wall s + 2 * Second <= wall t ∨
    Exchange m = DNSResponseReceived ∧ Resolver.Request m = DNSRequestAccepted ∧
      ∃ reply, Reply m = Some reply ∧ Reply.reply_ok reply ∧ ResponseTime m = Some (wall t - wall s) ∧ wall t - wall s < 2 * Second;
}.

Lemma completed_shape boot lower_ upper r start g m e :
  validTime start = true → completed True boot lower_ upper NewName Pack r start g (m, e) → timely True boot lower_ upper start →
  ∃ s t, shape r m e s t ∧ wall start <= wall s ∧ good True boot lower_ upper s ∧ good True boot lower_ upper t.
Proof.
  intros Hv (m0 & last & e' & Hlast & _ & _ & Ho & He & Hc) Hstart. cbn [fst snd] in *.
  destruct Ho as [e0 _ _|sentAt query f1 f2 tried q m1 e1 _ _ _ _ Hss Hsl Eq Hq2 Hacc Hend].
  - destruct Hc as [[_ ?]|(t & Ht & -> & _)]; [done|]. exists start, t. destruct He as [->|[? _]]; [|done].
    split_and!; [|lia|done|apply Ht]. constructor; try done; [by left|destruct Hlast, Ht; lia|]. left. split_and!; try done. by left.
  - assert (Hne : e1 ≠ None → e ≠ None) by (destruct He as [->|[_ ->]]; done). exists sentAt.
    assert (Hq : q = DNSRequestNotSent ∨ q = DNSRequestAccepted ∨ q = DNSRequestUncertain) by (destruct tried; [right; by apply Hq2|by left]).
    destruct Hend as [e2 He2|e2 He2|Htime|at_ reply Hat Hd Hl Hrep].
    4: { destruct Hc as [[-> _]|(t & _ & _ & Hz)].
      2: { simpl in Hz. destruct Hat as [_ Hat]. change (IsZero (UTC (Round0 at_)) = true) in Hz.
           rewrite validTime_nonzero in Hz; [done|]. by rewrite validTime_eq in Hat |- *. }
      destruct Hacc as [->|?]; [|done]. exists at_. split_and!; [|apply Hss..|exact Hat].
      constructor; try done; [lia|]. right. right. split_and!; try done. exists reply. split_and!; try done; apply Hrep || lia. }
    all: destruct Hc as [[_ ?]|(t & Ht & -> & _)]; [done|]; exists t; (split_and!; [|apply Hss..|apply Ht]);
      (constructor; try done; [destruct Ht; lia|]).
    1,2: left; split_and!; try done; (by left) || (by right) || (by apply Hne).
    right. left. destruct Hacc as [->|?]; [|done]. specialize (Htime I). split_and!; try done. destruct Ht. lia.
Qed.

Lemma shape_valid r m e s t : shape r m e s t → wall t - wall s < 5 * Second → validateResolverMeasurement m = Ok tt.
Proof.
  intros [_ _ _ Hs Ht Hg Hq Ho Hx] H5. unfold validateResolverMeasurement. rewrite Hs, Ht, Hg. rewrite Sub_wall, After_wall by auto with cozy.
  change (wall (UTC (Round0 t))) with (wall t). change (wall (UTC (Round0 s))) with (wall s).
  assert (Hd : int64_saturate (wall t - wall s) = wall t - wall s) by (unfold int64_saturate, min_int64, max_int64, Second in *; lia). rewrite Hd.
  rewrite (proj2 (Z.ltb_ge MaxCheckTime _)) by (unfold MaxCheckTime, Second in *; lia).
  destruct Hx as [([Ex|Ex] & -> & -> & _)|[(Ex & -> & -> & -> & Hl)|(Ex & -> & reply & -> & (Hrc & Hans) & -> & Hl)]]; rewrite Ex.
  1,2: by destruct Hq as [->|[->| ->]].
  - assert (wall s < wall t) as Hlt%Z.ltb_lt by (unfold Second in *; lia). by rewrite Hlt.
  - simpl. rewrite (proj2 (Z.ltb_ge _ 0)), (proj2 (Z.ltb_ge 4095 _)) by lia.
    rewrite (proj2 (Z.ltb_ge (wall t - wall s) 0)), Z.ltb_irrefl by lia. simpl.
    destruct (Truncated reply || negb (RCode reply =? 0)); [by rewrite Hans|].
    unfold Reply.answer_kinds in Hans. rewrite !elem_of_cons, elem_of_nil in Hans. destruct Hans as [->|[->|[->|[->|[]]]]]; done.
Qed.

Lemma shape_bounds r m e s t :
  shape r m e s t → validTime s = true → validTime t = true → Transport (Resolver.Selection m) = DNSUDP → wall t - wall s < 5 * Second → bounds m = true.
Proof.
  intros [_ _ _ Hs Ht _ _ Ho Hx] Hvs Hvt Hudp H5. unfold bounds. rewrite Hs, Ht, Hudp. rewrite Sub_wall by auto with cozy.
  change (validTime (UTC (Round0 s))) with (validTime s). change (validTime (UTC (Round0 t))) with (validTime t). rewrite Hvs, Hvt.
  change (wall (UTC (Round0 t))) with (wall t). change (wall (UTC (Round0 s))) with (wall s).
  assert (Hd : int64_saturate (wall t - wall s) = wall t - wall s) by (unfold int64_saturate, min_int64, max_int64, Second in *; lia). rewrite Hd.
  rewrite (proj2 (Z.leb_gt OperationTimeout _)) by (unfold OperationTimeout; lia).
  destruct Hx as [([Ex|Ex] & -> & -> & _)|[(Ex & -> & -> & _ & Hl)|(Ex & _ & reply & -> & (Hrc & _) & -> & Hl)]]; rewrite Ex; try done.
  - by rewrite (proj2 (Z.ltb_ge (wall t - wall s) (2 * Second))) by lia.
  - by rewrite (proj2 (Z.ltb_ge 15 (RCode reply))), (proj2 (Z.leb_gt (2 * Second) (wall t - wall s))) by lia.
Qed.

(** What the run control guarantees: a steady clock, read between the admission and the return. *)
Definition admitted (boot : Z) (started returned : Time) (g : ghost) (e : effect) : answer e → Prop :=
  env True boot (wall started) (wall returned) g e.

(** The run control accepts what the resolver sender returns.  With a steady clock, for a plan made by
    [New] and a call that returns before the review expires and within the operation timeout, the
    measurement and error of [ExecuteResolver] pass [validateSample] for the very selection and run. *)
Theorem exchange_accepted bounded present r b c t boot started returned expires tr m e :
  run (execute bounded present r) tr (m, e) → env_ok (admitted boot started returned) ghost0 tr →
  ResolverPlan.New NewName Pack b c t = Ok (sPlan (rSelection r)) →
  canonical started → canonical returned → canonical expires →
  wall returned - wall started < OperationTimeout → wall returned < wall expires → in_int64 (wall returned + Second) = true →
  validateSample m (option_map exec_of e) (rSelection r) (rMeasurementID r) started returned expires =
    Some (if bool_decide (m = zeroMeasurement) then None else Some m).
Proof.
  intros Hr Henv Hnew Hcs Hcr Hce H5 Hx Hret. destruct (new_budget _ _ _ _ Hnew) as [n Hn].
  apply ResolverPlan.new_iff in Hnew as (prefixes & member & _ & _ & Hconf & Hobs & _ & _ & Hplan).
  pose proof (wp_run _ _ _ _ _ _ Hr (execute_wp True boot (wall started) (wall returned) bounded present r n Hn) Henv) as Hm.
  destruct Hm as [(Hz & _ & He & _)|(start & Htm & Hu & Hc)]; cbn [fst snd] in *.
  { rewrite Hz. unfold validateSample. rewrite bool_decide_eq_true_2 by done. by destruct e. }
  unfold unusable in Hu. rewrite !orb_false_iff, !negb_false_iff in Hu. destruct Hu as [[[[[[Hv Hcur] Hid] Hvo] Hro] _] _].
  destruct (completed_shape _ _ _ _ _ _ _ _ Hv Hc Htm) as (s & u & Hsh & Hss & Hs & Hu).
  assert (Hstart : wall (RouteObservedAt (rSelection r)) <= wall start).
  { rewrite Hplan in Hcur. apply ResolverPlan.built_current in Hcur as [_ Hcur]. unfold disclosed in Hro. rewrite Hplan in Hro.
    rewrite After_wall in Hro by (right; done). simpl in Hro. go_bool. lia. }
  pose proof Hsh as [Eid Esel Eobs Es Eu _ _ Hord Hex]. destruct Hs as [Hs1 Hs2], Hu as [Hu1 Hu2].
  destruct (Hs1 I) as [_ Hs3], (Hu1 I) as [_ Hu3]. destruct (Htm I) as [_ Hst3].
  assert (Hnz : bool_decide (m = zeroMeasurement) = false).
  { apply bool_decide_eq_false_2. intros ->. simpl in Eid. by rewrite <- Eid in Hid. }
  unfold validateSample. rewrite Hnz, Eid, Esel, Eobs.
  assert (Hval : validateMeasurement m returned = true).
  { apply validateMeasurement_split. unfold disclosed in Esel, Eobs. rewrite Hplan in Esel, Eobs. destruct Hconf as [Hsel Hudp _ _ _ _].
    split; [apply (shape_bounds r m e s u Hsh); try done; [by rewrite Esel|unfold OperationTimeout in H5; lia]|].
    apply single_valid; rewrite ?Es, ?Eu; try done. rewrite Esel, Eobs, Eid. rewrite validTime_eq in Hs2. split_and!; try done.
    - by apply hex_token.
    - change (window_ok s u returned). unfold window_ok, MaxWindow, OperationTimeout, Hour, Minute, Second in *. split_and!; try done; lia.
    - apply (shape_valid r m e s u Hsh). unfold OperationTimeout in H5. lia. }
  rewrite Hval, Es, Eu. rewrite !Before_wall by auto with cozy. change (wall (UTC (Round0 s))) with (wall s). change (wall (UTC (Round0 u))) with (wall u).
  match goal with |- (if ?b then _ else _) = _ => assert (b = false) as ->; [|done] end.
  rewrite !orb_false_iff, !negb_false_iff, !andb_false_iff, !negb_false_iff. split_and!; try (by apply bool_decide_eq_true_2); try (apply Z.ltb_lt || apply Z.ltb_ge; lia); try done.
  - right. apply Z.ltb_lt. lia.
  - destruct e as [e|]; [left; by apply bool_decide_eq_false_2|right]. unfold complete.
    destruct Hex as [(_ & _ & _ & ?)|[(-> & _)|(-> & _)]]; done.
Qed.

End Theorems.

(** ** A run *)

(** A network that answers the question at the second receive call; the clock moves a
    millisecond at each reading. *)
Definition origin : Time := Quality.clock 101.
Definition home_at (t : Time) : Selection :=
  mkSelection (ResolverPlan.plan_of (ResolverPlan.home_plan ResolverPlan.home_prefixes "a." t)) t (Add t ResolverPlan.ReviewLifetime).
Definition home : Selection := home_at (Quality.clock 100).

Definition world (elapsed : Z) (g : ghost) (e : effect) : answer e * Z :=
  match e return answer e * Z with
  | Now => (Add origin elapsed, elapsed + Millisecond)
  | Ctx => (None, elapsed)
  | Acquire => (true, elapsed)
  | Release => (tt, elapsed)
  | Lookup => (Ok (home_at (Add origin elapsed)), elapsed)
  | Random => (Some [0; 1; 7; 7], elapsed)
  | Open _ => (Ok true, elapsed)
  | Verify => (None, elapsed)
  | Send _ => ((true, None), elapsed)
  | Receive =>
      if receives g =? 0 then (WouldBlock, elapsed)
      else (Datagram (mkDatagram Wire.reply_packet (Wire.mkAddrPort (V4 3232235777) 53) (V4 3232235786) 4 false), elapsed)
  | Wait d => (None, elapsed + Z.max 0 d)
  | Close => (false, elapsed)
  end.

Lemma resolver_world_later elapsed g e : elapsed <= snd (world elapsed g e).
Proof. destruct e; simpl; try lia; [unfold Millisecond; lia|]. by case_match. Qed.

Lemma resolver_drive_admitted {R} (p : @Effects.prog effect answer R) elapsed g tr x until_ returned :
  drive world p elapsed g = (tr, x, until_) → 0 <= elapsed → wall origin + until_ <= wall returned →
  env_ok (admitted 0 origin returned) g tr.
Proof.
  intros Hd He Hu. revert elapsed g tr He Hd.
  induction p as [y|e k IH]; intros elapsed g tr He; simpl; [by intros [= <- <- <-]|].
  pose proof (resolver_world_later elapsed g e) as Hw. destruct (world elapsed g e) as [a elapsed'] eqn:Ew.
  destruct (drive _ _ _) as [[tr' x'] until'] eqn:E. intros [= <- <- <-]. pose proof (drive_keeps world Z.le _ _ _ _ _ _ resolver_world_later E) as Hl.
  simpl in Hw. split; [|apply (IH a elapsed' (gstep g e a)); [lia|exact E]].
  unfold admitted. destruct e; simpl in Ew |- *; try done.
  - injection Ew as <- <-. intros _. split; [by left|]. rewrite wall_Add. change ((1700000000 + 101) * Second) with (wall origin). unfold Millisecond in *. lia.
  - injection Ew as <- <-. intros l [= <-]. split; [by apply (bool_decide_unpack _)|done].
  - intros d ->. destruct (receives g =? 0); [done|]. injection Ew as <- _. apply Wire.reply_bytes.
Qed.

Definition home_request : Request := mkRequest home example_id.
Definition home_execute := ExecuteResolver Wire.checked_name Wire.pack_question Reply.toy_parser (λ n, n) ToLower String.eqb true true home_request.
Definition home_run := drive world home_execute 0 ghost0.
Definition home_trace := home_run.1.1.
Definition home_measurement : ResolverMeasurement := home_run.1.2.1.

Lemma home_run_drive : home_run = drive world home_execute 0 ghost0.
Proof. reflexivity. Qed.

Lemma resolver_home_run_eq : drive world home_execute 0 ghost0 = (home_trace, (home_measurement, None), 25000000).
Proof. rewrite <- home_run_drive. vm_compute. reflexivity. Qed.

Lemma home_new : ResolverPlan.New Wire.checked_name Wire.pack_question (ResolverPlan.home_binding ResolverPlan.home_prefixes)
  (ResolverPlan.home_question "a.") (Quality.clock 100) = Ok (sPlan home).
Proof. vm_compute. reflexivity. Qed.

Lemma resolver_home_admitted : env_ok (admitted 0 origin (Quality.clock 102)) ghost0 home_trace.
Proof. apply (resolver_drive_admitted _ _ _ _ _ _ _ resolver_home_run_eq); [lia|]. vm_compute. discriminate. Qed.

Lemma resolver_admitted_anything boot started returned g tr : env_ok (admitted boot started returned) g tr → env_ok anything g tr.
Proof.
  revert g. induction tr as [|[e a] tr IH]; intros g; simpl; [done|]. intros [He Ht]. split; [|by apply IH].
  unfold anything, admitted in *. by destruct e.
Qed.

Lemma exchange_bounded_witness :
  complete home_measurement = true ∧ receives (foldl observe ghost0 home_trace) = 2 ∧
  sent (foldl observe ghost0 home_trace) ≠ [].
Proof.
  destruct (exchange_bounded Wire.checked_name Wire.pack_question Reply.toy_parser Reply.toy_left (parses := Reply.toy_parses) (λ n, n) ToLower String.eqb true true
    home_request _ _ _ home_trace home_measurement None (drive_run _ _ _ _ _ _ _ resolver_home_run_eq) (resolver_admitted_anything _ _ _ _ _ resolver_home_admitted) home_new)
    as (_ & Hc & _).
  split; [exact (Hc eq_refl)|]. split; [vm_compute; reflexivity|]. vm_compute. discriminate.
Defined.

Lemma exchange_accepted_witness :
  validateSample home_measurement None home example_id origin (Quality.clock 102) (Quality.clock 130) = Some (Some home_measurement).
Proof.
  refine (exchange_accepted Wire.checked_name Wire.pack_question Reply.toy_parser Reply.toy_left (parses := Reply.toy_parses) (λ n, n) ToLower String.eqb true true
    home_request _ _ _ 0 origin (Quality.clock 102) (Quality.clock 130) home_trace home_measurement None
    (drive_run _ _ _ _ _ _ _ resolver_home_run_eq) resolver_home_admitted home_new _ _ _ _ _ _); by vm_compute.
Defined.

End ResolverSender.
