(* ===== verification/RouteMessage.v ===== *)
(** * Routing messages

    [gatewayroute/message.go] and the receive loop of [gatewayroute/system_darwin.go]: the
    RTM_GET request the controller writes to a routing socket, and the parser of the
    kernel's reply.  The parser is compared with a grammar of routing messages: it never
    reads outside its input, and it accepts exactly the complete, correctly addressed
    replies, from which it takes exactly the route they describe. *)

From S2P Require Import Prelude Regex NetAddr GoBytes GatewayPlan.

Module RouteMessage.

Inductive err : Type := ErrUnsupported | ErrUnavailable | ErrPermission | ErrNoRoute | ErrMismatch | ErrCtx.

#[export] Instance err_eq_dec : EqDecision err.
Proof. solve_decision. Defined.

Definition routeHeaderBytes : Z := 92.
Definition maxRouteMessageBytes : Z := 4096.
Definition routeVersion : Z := 5.
Definition routeGet : Z := 4.
Definition afInet : Z := 2.
Definition afLink : Z := 18.

Definition flagUp : Z := 0x1.
Definition flagHost : Z := 0x4.
Definition flagDone : Z := 0x40.
Definition flagCloning : Z := 0x100.
Definition flagLLInfo : Z := 0x400.
Definition flagStatic : Z := 0x800.
Definition flagPrCloning : Z := 0x10000.
Definition flagWasCloned : Z := 0x20000.
Definition flagPinned : Z := 0x100000.
Definition flagIfScope : Z := 0x1000000.
Definition flagIfRef : Z := 0x4000000.
Definition flagRouter : Z := 0x10000000.

Definition routeInterfacePattern : regex := interface64_regex.

Record route := mkRoute {
  destination : Prefix;
  interfaceName : string;
  interfaceIndex : Z;
  source : Addr;
  flags : Z;
  linkIndex : Z;
}.

(** ** The request *)

(** [target.As4()] *)
Definition As4 (a : Addr) : list Z :=
  match a with V4 n => address_bytes n | _ => [] end.

(** The buffer is [routeHeaderBytes+16+20] zero bytes, in which the fields are written. *)
Definition getRequest (target : Addr) (pid seq : Z) : result err (list Z) :=
  guard? negb (Is4 target) || negb (IsPrivate target) || (pid =? 0) || (seq =? 0) else ErrUnavailable in
  Ok (put16le (routeHeaderBytes + 16 + 20) ++ [routeVersion; routeGet] ++ repeat 0 8 ++
      put32le (Z.lor (Z.shiftl 1 0) (Z.shiftl 1 4)) ++ put32le pid ++ put32le seq ++ repeat 0 68 ++
      [16; afInet; 0; 0] ++ As4 target ++ repeat 0 8 ++
      [20; afLink] ++ repeat 0 18).

(** ** The reply *)

(** The results of [parseReply]: [Invalid] is [route{}, false, ErrUnavailable], [Foreign]
    is [route{}, false, nil], [Refused e] is [route{}, true, e]. *)
Inductive outcome : Type :=
| Invalid
| Foreign
| Refused (e : err)
| Matched (r : route).

Definition ipv4Sockaddr (raw : list Z) : option (option Addr) :=
  if negb (llen raw =? 16) then Some None
  else
    f ← byte_at raw 1; p ← byte_at raw 2; q ← byte_at raw 3;
    if negb (f =? afInet) || negb (p =? 0) || negb (q =? 0) then Some None
    else a ← byte_at raw 4; b ← byte_at raw 5; c ← byte_at raw 6; d ← byte_at raw 7;
         Some (Some (V4 (((a * 256 + b) * 256 + c) * 256 + d))).

(** [net.IPMask.Size] on a byte: the leading ones, when only they are set. *)
Fixpoint byte_ones (fuel : nat) (v : Z) : option Z :=
  match fuel with
  | O => if v =? 0 then Some 0 else None
  | S fuel => if 128 <=? v then n ← byte_ones fuel ((v - 128) * 2); Some (n + 1)
              else if v =? 0 then Some 0 else None
  end.

(** [simpleMaskLength] *)
Fixpoint mask_size (mask : list Z) : option Z :=
  match mask with
  | [] => Some 0
  | 255 :: mask => n ← mask_size mask; Some (n + 8)
  | v :: mask => n ← byte_ones 8 v; if forallb (λ b, b =? 0) mask then Some n else None
  end.

(** The four mask bytes start at offset four; the bytes the sockaddr omits are zero. *)
Definition mask_bytes (raw : list Z) : list Z :=
  let m := take 4 (drop 4 raw) in m ++ repeat 0 (4 - length m).

Definition ipv4Mask (raw : list Z) : option Z :=
  if llen raw =? 0 then Some 0
  else if (llen raw <? 2) || (16 <? llen raw) then None
  else mask_size (mask_bytes raw).

(** The loop over the eight address slots: the sockaddrs found, and where they end. *)
Fixpoint sockaddrs (bits : list Z) (msg : list Z) (mask offset : Z) : option (option (list (list Z) * Z)) :=
  match bits with
  | [] => Some (Some ([], offset))
  | bit :: bits =>
      if Z.land mask (Z.shiftl 1 bit) =? 0 then
        r ← sockaddrs bits msg mask offset;
        Some (option_map (λ '(rest, off), ([] :: rest, off)) r)
      else if llen msg <=? offset then Some None
      else
        length ← byte_at msg offset;
        let step := if length =? 0 then 4 else Z.ldiff (length + 3) 3 in
        if (llen msg <? offset + step) || ((length <? 2) && negb (bit =? 2)) then Some None
        else
          a ← slice msg offset (offset + length);
          r ← sockaddrs bits msg mask (offset + step);
          Some (option_map (λ '(rest, off), (a :: rest, off)) r)
  end.

Definition text (p : list Z) : string :=
  String.string_of_list_ascii (map (λ b, Ascii.ascii_of_N (Z.to_N b)) p).

(** The destination's prefix length, from the netmask slot. *)
Definition prefix_length (fl mask : Z) (netmask : list Z) : option Z :=
  if Z.land fl flagHost =? 0 then
    if Z.land mask (Z.shiftl 1 2) =? 0 then None else ipv4Mask netmask
  else if negb (Z.land mask (Z.shiftl 1 2) =? 0) then
    match ipv4Mask netmask with Some 32 => Some 32 | _ => None end
  else Some 32.

(** The link index of the gateway slot. *)
Definition link_of (gateway : list Z) : option (option Z) :=
  family ← byte_at gateway 1;
  if family =? afLink then
    if llen gateway <? 8 then Some None
    else
      n ← byte_at gateway 5; a ← byte_at gateway 6; s ← byte_at gateway 7;
      if llen gateway <? 8 + n + a + s then Some None
      else i ← u16le gateway 2; Some (Some i)
  else if family =? afInet then
    a ← ipv4Sockaddr gateway; Some (option_map (λ _, 0) a)
  else Some None.

(** The name and index of the interface slot. *)
Definition iface_of (iface : list Z) (header : Z) : option (option (string * Z)) :=
  if llen iface <? 8 then Some None
  else
    family ← byte_at iface 1;
    if negb (family =? afLink) then Some None
    else
      nameLength ← byte_at iface 5; addressLength ← byte_at iface 6; selectorLength ← byte_at iface 7;
      if (llen iface <? 8 + nameLength + addressLength + selectorLength) || (nameLength =? 0) then Some None
      else
        name ← slice iface 8 (8 + nameLength);
        index ← u16le iface 2;
        if negb (MatchString routeInterfacePattern (text name)) || (index =? 0) || negb (index =? header) then Some None
        else Some (Some (text name, index)).

(** What the sockaddrs say, once they are all there. *)
Definition decodeRoute (fl mask header : Z) (addrs : list (list Z)) : option outcome :=
  let slot n := nth n addrs [] in
  dst ← ipv4Sockaddr (slot 0%nat);
  match dst with
  | None => Some Invalid
  | Some dst =>
      src ← ipv4Sockaddr (slot 5%nat);
      match src with
      | None => Some Invalid
      | Some src =>
          iface ← iface_of (slot 4%nat) header;
          match iface with
          | None => Some Invalid
          | Some (name, index) =>
              match prefix_length fl mask (slot 2%nat) with
              | None => Some Invalid
              | Some bits =>
                  let prefix := mkPrefix dst bits in
                  if prefix != Masked prefix then Some Invalid
                  else
                    link ← link_of (slot 1%nat);
                    match link with
                    | None => Some Invalid
                    | Some link => Some (Matched (mkRoute prefix name index src fl link))
                    end
              end
          end
      end
  end.

Definition required : Z := Z.lor (Z.lor (Z.lor (Z.shiftl 1 0) (Z.shiftl 1 1)) (Z.shiftl 1 4)) (Z.shiftl 1 5).

(** [switch binary.LittleEndian.Uint32(msg[24:])] *)
Definition errno_of (e : Z) : option err :=
  if e =? 0 then None
  else if (e =? 1) || (e =? 13) then Some ErrPermission
  else if (e =? 3) || (e =? 51) || (e =? 65) then Some ErrNoRoute
  else Some ErrUnavailable.

Definition parseReply (msg : list Z) (pid seq : Z) : option outcome :=
  if (llen msg <? 4) || (maxRouteMessageBytes <? llen msg) then Some Invalid
  else
    size ← u16le msg 0; version ← byte_at msg 2;
    if negb (size =? llen msg) || negb (version =? routeVersion) then Some Invalid
    else
      kind ← byte_at msg 3;
      if negb (kind =? routeGet) then Some Foreign
      else if llen msg <? routeHeaderBytes then Some Invalid
      else
        pid' ← u32le msg 16; seq' ← u32le msg 20;
        if negb (pid' =? pid) || negb (seq' =? seq) then Some Foreign
        else
          errno ← u32le msg 24;
          match errno_of errno with
          | Some e => Some (Refused e)
          | None =>
              fl ← u32le msg 8;
              if Z.land fl flagDone =? 0 then Some Invalid
              else
                mask ← u32le msg 12;
                if negb (Z.land mask required =? required) || negb (Z.ldiff mask 0xff =? 0) then Some Invalid
                else
                  r ← sockaddrs [0; 1; 2; 3; 4; 5; 6; 7] msg mask routeHeaderBytes;
                  match r with
                  | None => Some Invalid
                  | Some (addrs, offset) =>
                      if negb (offset =? llen msg) then Some Invalid
                      else header ← u16le msg 4; decodeRoute fl mask header addrs
                  end
          end.

(** ** Bits *)

Lemma land_bit mask bit : 0 <= bit → (Z.land mask (Z.shiftl 1 bit) =? 0) = negb (Z.testbit mask bit).
Proof.
  intros Hb. rewrite Z.shiftl_1_l. destruct (Z.testbit mask bit) eqn:E; simpl.
  - apply Z.eqb_neq. intros H0. apply (f_equal (λ z, Z.testbit z bit)) in H0.
    rewrite Z.land_spec, E, Z.pow2_bits_true, Z.bits_0 in H0 by done. done.
  - apply Z.eqb_eq. apply Z.bits_inj'. intros k Hk. rewrite Z.land_spec, Z.bits_0.
    destruct (Z.eq_dec k bit) as [->|Hn]; [by rewrite E|]. rewrite Z.pow2_bits_false by done. by rewrite andb_false_r.
Qed.

Lemma required_bits mask :
  (Z.land mask required =? required) = Z.testbit mask 0 && Z.testbit mask 1 && Z.testbit mask 4 && Z.testbit mask 5.
Proof.
  apply eq_bool_prop_intro. rewrite !Is_true_true, Z.eqb_eq, !andb_true_iff. split.
  - intros H. assert (Hk : ∀ k, Z.testbit required k = true → Z.testbit mask k = true).
    { intros k Hr. rewrite <- H, Z.land_spec in Hr. by apply andb_true_iff in Hr as [? _]. }
    by rewrite !Hk by done.
  - intros [[[H0 H1] H4] H5]. apply Z.bits_inj'. intros k Hk. rewrite Z.land_spec.
    destruct (Z.testbit required k) eqn:E; [|by rewrite andb_false_r]. rewrite andb_true_r.
    unfold required in E. rewrite !Z.lor_spec, !Z.shiftl_1_l, !Z.pow2_bits_eqb, !orb_true_iff, !Z.eqb_eq in E by lia.
    destruct E as [[[<-|<-]|<-]|<-]; done.
Qed.

Lemma ldiff_byte mask : 0 <= mask → (Z.ldiff mask 0xff =? 0) = (mask <? 256).
Proof.
  intros Hm. change 0xff with (Z.ones 8). rewrite Z.ldiff_ones_r, Z.shiftl_mul_pow2, Z.shiftr_div_pow2 by lia.
  change (2 ^ 8) with 256. apply eq_bool_prop_intro. rewrite !Is_true_true, Z.eqb_eq, Z.ltb_lt. split.
  - intros. assert (mask / 256 = 0) by lia. pose proof (Z.div_mod mask 256). pose proof (Z.mod_pos_bound mask 256). lia.
  - intros. rewrite Z.div_small by lia. done.
Qed.

(** ** Netmasks *)

Fixpoint number (p : list Z) : Z :=
  match p with [] => 0 | b :: p => b * 256 ^ llen p + number p end.

Lemma llen_cons {A} (b : A) p : llen (b :: p) = llen p + 1.
Proof. unfold llen. simpl. lia. Qed.

Lemma number_range p : bytes p → 0 <= number p < 256 ^ llen p.
Proof.
  induction 1 as [|b p Hb Hp IH]; [done|]. cbn [number]. rewrite llen_cons, Z.pow_add_r by (unfold llen; lia).
  change (256 ^ 1) with 256. nia.
Qed.

Lemma number_zero p : bytes p → (forallb (λ b, b =? 0) p = true ↔ number p = 0).
Proof.
  induction 1 as [|b p Hb Hp IH]; [done|]. cbn [number forallb]. rewrite andb_true_iff, IH, Z.eqb_eq.
  pose proof (number_range p Hp). assert (0 < 256 ^ llen p) by (apply Z.pow_pos_nonneg; unfold llen; lia). nia.
Qed.

Lemma byte_ones_spec v : 0 <= v < 255 → ∀ n, byte_ones 8 v = Some n ↔ 0 <= n < 8 ∧ v = 256 - 2 ^ (8 - n).
Proof.
  intros Hv.
  assert (Hall : forallb (λ v, match byte_ones 8 v with
      | Some n => (0 <=? n) && (n <? 8) && (v =? 256 - 2 ^ (8 - n))
      | None => forallb (λ n, negb (v =? 256 - 2 ^ (8 - n))) (seqZ 0 8) end) (seqZ 0 255) = true) by (vm_compute; reflexivity).
  rewrite forallb_true_iff, Forall_forall in Hall. specialize (Hall v ltac:(apply elem_of_seqZ; lia)).
  intros n. destruct (byte_ones 8 v) as [m|].
  - go_bool. split; [intros [= <-]; lia|]. intros [Hn Hv']. f_equal.
    assert (Hp : 2 ^ (8 - n) = 2 ^ (8 - m)) by lia. apply Z.pow_inj_r in Hp; lia.
  - rewrite forallb_true_iff, Forall_forall in Hall. split; [done|]. intros [Hn Hv'].
    specialize (Hall n ltac:(apply elem_of_seqZ; lia)). go_bool. lia.
Qed.

Lemma mask_size_cons v p : mask_size (v :: p) =
  if v =? 255 then n ← mask_size p; Some (n + 8)
  else n ← byte_ones 8 v; if forallb (λ b, b =? 0) p then Some n else None.
Proof.
  destruct (Z.eqb_spec v 255) as [->|Hv]; [done|]. destruct v as [|q|q]; [done| |done].
  do 8 (destruct q as [q|q|]; try done).
Qed.

(** The size of a mask is the number of ones it starts with. *)
Lemma mask_size_spec p : bytes p → ∀ n,
  mask_size p = Some n ↔ 0 <= n <= 8 * llen p ∧ number p = 256 ^ llen p - 2 ^ (8 * llen p - n).
Proof.
  induction 1 as [|v p Hv Hp IH]; intros n.
  { split; [by intros [= <-]|]. intros [Hn _]. change (llen (@nil Z)) with 0 in Hn. simpl. f_equal. lia. }
  rewrite mask_size_cons. cbn [number]. rewrite llen_cons. set (k := llen p) in *.
  assert (Hk : 0 <= k) by (unfold k, llen; lia). pose proof (number_range p Hp) as Hr. fold k in Hr.
  assert (H256 : 256 ^ k = 2 ^ (8 * k)) by (change 256 with (2 ^ 8); by rewrite <- Z.pow_mul_r by lia).
  assert (Hpow : 256 ^ (k + 1) = 256 * 2 ^ (8 * k)) by (rewrite Z.pow_add_r, H256 by lia; lia).
  rewrite Hpow, H256 in *. clear Hpow. destruct (Z.eqb_spec v 255) as [->|Hne].
  - split.
    + intros (m & Hm & [= <-])%bind_Some. apply IH in Hm as [Hm1 Hm2]. split; [lia|].
      replace (8 * (k + 1) - (m + 8)) with (8 * k - m) by lia. lia.
    + intros [Hn Heq]. assert (8 <= n).
      { destruct (Z.le_gt_cases 8 n); [done|]. pose proof (Z.pow_lt_mono_r 2 (8 * k) (8 * (k + 1) - n)). lia. }
      rewrite (proj2 (IH (n - 8))); [simpl; f_equal; lia|]. split; [lia|].
      replace (8 * k - (n - 8)) with (8 * (k + 1) - n) by lia. lia.
  - pose proof (byte_ones_spec v ltac:(lia)) as Hones. pose proof (number_zero p Hp) as Hz.
    assert (Hsplit : ∀ m, m < 8 → 2 ^ (8 * (k + 1) - m) = 2 ^ (8 - m) * 2 ^ (8 * k)).
    { intros m Hm. rewrite <- Z.pow_add_r by lia. f_equal. lia. }
    split.
    + intros (m & Hm & H)%bind_Some. destruct (forallb _ p) eqn:Ef; [|done]. injection H as ->.
      apply Hones in Hm as [Hm ->]. rewrite (proj1 Hz eq_refl). rewrite Hsplit by lia. split; [lia|]. lia.
    + intros [Hn Heq]. destruct (Z.le_gt_cases 8 n) as [H8|H8].
      { assert (2 ^ (8 * (k + 1) - n) <= 2 ^ (8 * k)) by (apply Z.pow_le_mono_r; lia). nia. }
      rewrite Hsplit in Heq by done. set (q := 256 - 2 ^ (8 - n) - v).
      assert (Hq : number p = q * 2 ^ (8 * k)) by (unfold q; lia). assert (q = 0) by nia.
      assert (H0 : number p = 0) by nia.
      rewrite (proj2 (Hones n)); [cbn [mbind option_bind]; by rewrite (proj2 Hz H0)|]. split; lia.
Qed.

(** ** The grammar of a reply *)

(** An IPv4 socket address without a port. *)
Definition inet_addr (raw : list Z) (n : Z) : Prop :=
  0 <= n < 2 ^ 32 ∧ ∃ len tail, raw = [len; afInet; 0; 0] ++ address_bytes n ++ tail ∧ llen tail = 8.

(** A link-layer socket address: the index, the name and room for an address. *)
Definition link_addr (raw : list Z) (i : Z) (name : list Z) : Prop :=
  0 <= i < 65536 ∧ ∃ len kind a s rest, raw = [len; afLink] ++ put16le i ++ [kind; llen name; a; s] ++ name ++ rest ∧
    a + s <= llen rest.

(** A sockaddr starts with its length and is padded to four bytes; only a netmask may
    be shorter than its two first fields, and an empty one takes four bytes. *)
Definition chunk (bit : Z) (raw pad : list Z) : Prop :=
  (raw = [] ∧ bit = 2 ∧ llen pad = 4 ∧ byte_at pad 0 = Some 0) ∨
  (byte_at raw 0 = Some (llen raw) ∧ (llen raw = 1 → bit = 2) ∧ 0 <= llen pad < 4 ∧ (llen raw + llen pad) mod 4 = 0).

(** The sockaddrs of the slots that [mask] names, one after the other. *)
Inductive layout (mask : Z) : list Z → list Z → list (list Z) → Prop :=
| layout_nil : layout mask [] [] []
| layout_absent bit bits body addrs :
    Z.testbit mask bit = false → layout mask bits body addrs → layout mask (bit :: bits) body ([] :: addrs)
| layout_present bit bits raw pad body addrs :
    Z.testbit mask bit = true → chunk bit raw pad → layout mask bits body addrs →
    layout mask (bit :: bits) (raw ++ pad ++ body) (raw :: addrs).

Ltac split_bytes H := unfold bytes in H; repeat (apply Forall_cons in H as [? H]).

(** [read_heads] evaluates the reads at the known front of a list. *)
Ltac read_heads :=
  repeat match goal with |- context [byte_at (?x :: ?l) ?i] =>
    let v := eval hnf in (byte_at (x :: l) i) in change (byte_at (x :: l) i) with v; cbn [mbind option_bind]
  end.

Lemma ipv4Sockaddr_spec raw : bytes raw →
  ∃ r, ipv4Sockaddr raw = Some r ∧ ∀ a, r = Some a ↔ ∃ n, a = V4 n ∧ inet_addr raw n.
Proof.
  intros Hb. unfold ipv4Sockaddr, inet_addr. destruct (Z.eqb_spec (llen raw) 16) as [Hl|Hl]; cbn [negb].
  2: { exists None. split; [done|]. intros a. split; [done|]. intros (n & _ & _ & len & tail & -> & Ht).
       unfold llen in *. rewrite !length_app in Hl. simpl in Hl. lia. }
  unfold llen in Hl. do 8 (destruct raw as [|? raw]; [done|]). split_bytes Hb.
  read_heads.
  destruct (Z.eqb_spec z0 afInet) as [->|], (Z.eqb_spec z1 0) as [->|], (Z.eqb_spec z2 0) as [->|]; cbn [negb orb];
    try (exists None; split; [done|]; intros a; split; [done|];
         intros (m & _ & _ & len & tail & Heq & _); simpl in Heq; congruence).
  eexists. split; [reflexivity|]. intros a. split.
  - intros [= <-]. eexists. split; [done|]. split; [lia|]. exists z, raw. rewrite address_bytes_of by done.
    split; [done|]. unfold llen. simpl in Hl. lia.
  - intros (n & -> & Hn & len & tail & Heq & _). injection Heq as -> -> -> -> -> _. do 2 f_equal.
    apply address_bytes_number.
Qed.

Lemma link_addr_reads raw : bytes raw → 8 <= llen raw →
  ∃ f i n a s, byte_at raw 1 = Some f ∧ u16le raw 2 = Some i ∧ byte_at raw 5 = Some n ∧ byte_at raw 6 = Some a ∧
    byte_at raw 7 = Some s ∧ 0 <= n ∧ 0 <= a ∧ 0 <= s ∧
    ∀ j p, link_addr raw j p ↔ f = afLink ∧ j = i ∧ 8 + n + a + s <= llen raw ∧ slice raw 8 (8 + n) = Some p.
Proof.
  intros Hb Hl. unfold llen in Hl. do 8 (destruct raw as [|? raw]; [simpl in Hl; lia|]). split_bytes Hb.
  exists z0, (z1 + 256 * z2), z4, z5, z6. repeat (split; [done|]). split; [lia|]. split; [lia|]. split; [lia|].
  intros j p. unfold link_addr. split.
  - intros (Hj & len & kind & a & s & rest & Heq & Hr). injection Heq as -> -> -> -> -> -> -> -> ->.
    split; [done|]. destruct (split16 j Hj) as [Hj1 Hj2]. split; [lia|]. split; [unfold llen in *; simpl; rewrite length_app; lia|].
    rewrite slice_some by (unfold llen in *; simpl; rewrite ?length_app; lia). simpl. f_equal.
    replace (Z.to_nat (8 + llen p - 8)) with (length p) by (unfold llen; lia). by rewrite drop_0, take_app_length.
  - intros (-> & -> & Hs & Hp). split; [lia|]. pose proof (slice_length _ _ _ _ Hp) as (Hpl & _ & Hpr).
    rewrite slice_some in Hp by lia. injection Hp as Hp. simpl in Hp. rewrite drop_0 in Hp.
    exists z, z3, z5, z6, (drop (Z.to_nat (8 + z4 - 8)) raw). split.
    + rewrite <- Hp at 2. rewrite take_drop. replace (llen p) with z4 by lia. unfold put16le.
      replace ((z1 + 256 * z2) mod 256) with z1 by (apply Z.mod_unique with z2; lia).
      replace ((z1 + 256 * z2) / 256) with z2 by (apply Z.div_unique with z1; lia).
      by rewrite (Z.mod_small z2) by lia.
    + unfold llen in *. rewrite length_drop. simpl in Hs. lia.
Qed.

(** *** The slots *)

Definition step_of (length : Z) : Z := if length =? 0 then 4 else Z.ldiff (length + 3) 3.

Lemma step_range b : 0 <= b → b <= step_of b ∧ 0 < step_of b ∧ step_of b mod 4 = 0 ∧ (b ≠ 0 → step_of b < b + 4).
Proof.
  intros Hb. unfold step_of. destruct (Z.eqb_spec b 0) as [->|Hn]; [done|]. rewrite step_aligned by done.
  pose proof (Z.mod_pos_bound (b + 3) 4). pose proof (Z.div_mod (b + 3) 4).
  assert (H4 : b + 3 - (b + 3) mod 4 = (b + 3) / 4 * 4) by lia. rewrite H4. rewrite Z.mod_mul by lia. lia.
Qed.

Lemma byte_at_app_l p q i : i < llen p → byte_at (p ++ q) i = byte_at p i.
Proof. intros. unfold byte_at. destruct (Z.ltb_spec i 0); [done|]. rewrite lookup_app_l; [done|]. unfold llen in *. lia. Qed.

(** One slot read from the front of the remaining bytes. *)
Lemma chunk_iff bit data b raw rest : bytes data → byte_at data 0 = Some b →
  (llen data <? step_of b) || ((b <? 2) && negb (bit =? 2)) = false ∧
    raw = take (Z.to_nat b) data ∧ rest = drop (Z.to_nat (step_of b)) data ↔
  ∃ pad, chunk bit raw pad ∧ data = raw ++ pad ++ rest.
Proof.
  intros Hd Hb. pose proof (byte_at_range _ _ _ Hd Hb) as Hr. destruct (step_range b ltac:(lia)) as (Hs1 & Hs2 & Hs3 & Hs4).
  split.
  - intros (Hg & -> & ->). rewrite orb_false_iff, Z.ltb_ge in Hg. destruct Hg as [Hl Hg].
    exists (take (Z.to_nat (step_of b - b)) (drop (Z.to_nat b) data)). split.
    + unfold chunk, llen in *. destruct (Z.eq_dec b 0) as [->|Hn]; [left|right].
      * change (step_of 0) with 4 in *. split; [done|]. split; [destruct (Z.eqb_spec bit 2); done|]. split; [rewrite length_take, length_drop; change (Z.to_nat (4 - 0)) with 4%nat; change (Z.to_nat 0) with 0%nat; lia|].
        rewrite drop_0. unfold byte_at in *. simpl in *. rewrite lookup_take_lt by (simpl; lia). done.
      * rewrite !length_take, length_drop. split; [|split; [|split; [lia|]]].
        -- unfold byte_at in *. simpl in *. rewrite lookup_take_lt by lia. rewrite Hb. f_equal. lia.
        -- intros H1. destruct (Z.ltb_spec b 2), (Z.eqb_spec bit 2); try done. lia.
        -- replace (_ + _) with (step_of b) by lia. done.
    + replace (Z.to_nat (step_of b)) with (Z.to_nat b + Z.to_nat (step_of b - b))%nat by lia.
      by rewrite <- drop_drop, !take_drop.
  - intros (pad & Hc & ->). destruct Hc as [(-> & -> & Hp & H0)|(H0 & Hbit & Hpl & Hmod)].
    + simpl in Hb. rewrite byte_at_app_l in Hb by lia. rewrite H0 in Hb. injection Hb as <-. change (step_of 0) with 4.
      unfold llen in *. simpl. rewrite length_app. split; [apply orb_false_iff; split; [apply Z.ltb_ge; lia|done]|].
      split; [done|]. rewrite drop_app_ge by lia. by replace (Z.to_nat 4 - length pad)%nat with 0%nat by lia.
    + assert (Hpos : 0 < llen raw) by (apply byte_at_inv in H0; lia).
      rewrite byte_at_app_l in Hb by lia. rewrite H0 in Hb. injection Hb as <-.
      assert (Hst : step_of (llen raw) = llen raw + llen pad).
      { specialize (Hs4 ltac:(lia)). apply Z.mod_divide in Hmod as [q Hq], Hs3 as [q' Hq']; [|lia..]. lia. }
      rewrite Hst. unfold llen in *. rewrite !length_app. split; [|split].
      * apply orb_false_iff. split; [apply Z.ltb_ge; lia|]. destruct (Z.ltb_spec (Z.of_nat (length raw)) 2), (Z.eqb_spec bit 2); try done.
        exfalso. apply n. apply Hbit. lia.
      * rewrite Nat2Z.id. by rewrite take_app_length.
      * rewrite app_assoc, drop_app_ge by (rewrite length_app; lia). rewrite length_app.
        by replace (Z.to_nat _ - _)%nat with 0%nat by lia.
Qed.

Lemma sockaddrs_safe bits msg mask offset : bytes msg → 0 <= offset → ∃ r, sockaddrs bits msg mask offset = Some r.
Proof.
  intros Hb. revert offset. induction bits as [|bit bits IH]; intros offset Ho; cbn [sockaddrs]; [eauto|].
  destruct (_ =? 0). { destruct (IH offset Ho) as (r & ->). cbn. eauto. }
  destruct (Z.leb_spec (llen msg) offset); [eauto|]. destruct (byte_at_some msg offset ltac:(lia)) as (b & Hbo). rewrite Hbo.
  cbn [mbind option_bind]. fold (step_of b). pose proof (byte_at_range _ _ _ Hb Hbo) as Hr.
  destruct (step_range b ltac:(lia)) as (Hs1 & Hs2 & _).
  destruct ((llen msg <? offset + step_of b) || _) eqn:E; [eauto|]. apply orb_false_iff in E as [E _]. apply Z.ltb_ge in E.
  rewrite slice_some by lia. cbn [mbind option_bind]. destruct (IH (offset + step_of b) ltac:(lia)) as (r & ->). cbn. eauto.
Qed.

Lemma layout_cons mask bit bits body addrs :
  layout mask (bit :: bits) body addrs ↔
  (Z.testbit mask bit = false ∧ ∃ rest, addrs = [] :: rest ∧ layout mask bits body rest) ∨
  (Z.testbit mask bit = true ∧ ∃ raw pad rest body', addrs = raw :: rest ∧ body = raw ++ pad ++ body' ∧
     chunk bit raw pad ∧ layout mask bits body' rest).
Proof.
  split.
  - inversion 1; subst; [left|right]; split; eauto 10.
  - intros [(Ht & rest & -> & H)|(Ht & raw & pad & rest & body' & -> & -> & Hc & H)]; by constructor.
Qed.

Lemma layout_end mask body addrs : layout mask [] body addrs ↔ body = [] ∧ addrs = [].
Proof. split; [by inversion 1|]. intros [-> ->]. constructor. Qed.

Lemma chunk_nonempty bit raw pad rest : chunk bit raw pad → raw ++ pad ++ rest ≠ [].
Proof.
  intros [(-> & _ & Hp & _)|(H0 & _)] [Hr Hq]%app_eq_nil.
  - apply app_eq_nil in Hq as [-> _]. done.
  - by subst raw.
Qed.

(** The slots end exactly at the end of the message: the layout of the rest. *)
Lemma sockaddrs_layout bits msg mask offset addrs :
  bytes msg → Forall (λ b, 0 <= b) bits → 0 <= offset <= llen msg →
  sockaddrs bits msg mask offset = Some (Some (addrs, llen msg)) ↔
  layout mask bits (drop (Z.to_nat offset) msg) addrs.
Proof.
  intros Hb Hbits. revert offset addrs. induction Hbits as [|bit bits Hbit Hbits IH]; intros offset addrs Ho; cbn [sockaddrs].
  { rewrite layout_end. split.
    - intros [= <- ->]. rewrite drop_ge; [done|unfold llen; lia].
    - intros [Hd ->]. apply (f_equal length) in Hd. rewrite length_drop in Hd.
      unfold llen in *. simpl in Hd. do 3 f_equal. lia. }
  rewrite land_bit by done. rewrite layout_cons. destruct (Z.testbit mask bit); cbn [negb].
  2: { destruct (sockaddrs_safe bits msg mask offset Hb ltac:(lia)) as (r & Hr). specialize (IH offset). rewrite Hr in *.
       cbn [mbind option_bind]. split.
       - destruct r as [[rest off]|]; [|done]. intros [= <- ->]. left. split; [done|]. exists rest. split; [done|]. by apply IH.
       - intros [(_ & rest & -> & H)|[? _]]; [|done]. apply IH in H; [|done]. by injection H as ->. }
  destruct (Z.leb_spec (llen msg) offset) as [Hend|Hin].
  { split; [done|]. intros [[? _]|(_ & raw & pad & rest & body' & -> & Hd & Hc & _)]; [done|].
    rewrite drop_ge in Hd by (unfold llen in *; lia). by apply (chunk_nonempty bit raw pad body') in Hc. }
  destruct (byte_at_some msg offset ltac:(lia)) as (b & Hbo). rewrite Hbo. cbn [mbind option_bind]. fold (step_of b).
  set (data := drop (Z.to_nat offset) msg). assert (Hdata : bytes data) by by apply Forall_drop.
  assert (Hb0 : byte_at data 0 = Some b).
  { rewrite <- Hbo. unfold byte_at, data. rewrite (proj2 (Z.ltb_ge offset 0)) by lia. simpl. rewrite lookup_drop. f_equal. lia. }
  assert (Hlen : llen data = llen msg - offset) by (unfold data, llen in *; rewrite length_drop; lia).
  pose proof (byte_at_range _ _ _ Hb Hbo) as Hr. destruct (step_range b ltac:(lia)) as (Hs1 & Hs2 & _).
  replace (llen msg <? offset + step_of b) with (llen data <? step_of b)
    by (rewrite Hlen; destruct (Z.ltb_spec (llen msg - offset) (step_of b)), (Z.ltb_spec (llen msg) (offset + step_of b)); lia).
  pose proof (chunk_iff bit data b (take (Z.to_nat b) data) (drop (Z.to_nat (step_of b)) data) Hdata Hb0) as [Hfwd _].
  assert (Hdrop : drop (Z.to_nat (step_of b)) data = drop (Z.to_nat (offset + step_of b)) msg)
    by (unfold data; rewrite drop_drop; f_equal; lia).
  destruct (_ || _) eqn:Eg.
  { split; [done|]. intros [[? _]|(_ & raw & pad & rest & body' & -> & Hd & Hc & _)]; [done|].
    pose proof (proj2 (chunk_iff bit data b raw body' Hdata Hb0) ltac:(by exists pad)) as (? & _). congruence. }
  pose proof Eg as [El _]%orb_false_iff. apply Z.ltb_ge in El.
  rewrite slice_some by lia. cbn [mbind option_bind]. replace (Z.to_nat (offset + b - offset)) with (Z.to_nat b) by lia.
  fold data. specialize (IH (offset + step_of b)).
  destruct (sockaddrs_safe bits msg mask (offset + step_of b) Hb ltac:(lia)) as (r & Hrr). rewrite Hrr in *. cbn [mbind option_bind].
  split.
  - destruct r as [[rest off]|]; [|done]. intros [= <- ->]. right. split; [done|].
    destruct (Hfwd ltac:(done)) as (pad & Hc & Hd). exists (take (Z.to_nat b) data), pad, rest, (drop (Z.to_nat (step_of b)) data).
    do 3 (split; [done|]). rewrite Hdrop. apply IH; [lia|done].
  - intros [[? _]|(_ & raw & pad & rest & body' & -> & Hd & Hc & Hlay)]; [done|].
    destruct (proj2 (chunk_iff bit data b raw body' Hdata Hb0) ltac:(by exists pad)) as (_ & -> & ->).
    rewrite Hdrop in Hlay. apply IH in Hlay; [|lia]. by injection Hlay as ->.
Qed.

Lemma chunk_length bit raw pad : chunk bit raw pad → bit ≠ 2 → 2 <= llen raw.
Proof.
  intros [(_ & ? & _)|(H0 & H1 & _)] Hn; [done|]. apply byte_at_inv in H0 as Hl.
  destruct (Z.eq_dec (llen raw) 1); [naive_solver|lia].
Qed.

Lemma layout_slots mask bits body addrs :
  layout mask bits body addrs → bytes body →
  Forall bytes addrs ∧ length addrs = length bits ∧
  ∀ i bit, bits !! i = Some bit → Z.testbit mask bit = true → bit ≠ 2 → 2 <= llen (nth i addrs []).
Proof.
  induction 1 as [|bit bits body addrs Ht Hl IH|bit bits raw pad body addrs Ht Hc Hl IH]; intros Hb.
  - split; [constructor|]. split; [done|]. intros i bit Hi. by rewrite lookup_nil in Hi.
  - destruct (IH Hb) as (IH1 & IH2 & IH3). split; [by constructor; [constructor|]|]. split; [simpl; lia|].
    intros [|i] b Hi Htb Hn; simpl in Hi |- *; [congruence|by eapply IH3].
  - apply bytes_app in Hb as [Hr Hb]. apply bytes_app in Hb as [_ Hb]. destruct (IH Hb) as (IH1 & IH2 & IH3).
    split; [by constructor|]. split; [simpl; lia|].
    intros [|i] b Hi Htb Hn; simpl in Hi |- *; [|by eapply IH3]. injection Hi as ->. by eapply chunk_length.
Qed.

(** *** What the slots say *)

Lemma inet_family raw n : inet_addr raw n → byte_at raw 1 = Some afInet ∧ llen raw = 16.
Proof.
  intros (_ & len & tail & -> & Ht). split; [done|]. unfold llen in *. rewrite !length_app. simpl. lia.
Qed.
Lemma link_family raw i name : link_addr raw i name → byte_at raw 1 = Some afLink ∧ 8 <= llen raw.
Proof.
  intros (_ & len & kind & a & s & rest & -> & _). split; [done|]. unfold llen in *. rewrite !length_app. simpl. lia.
Qed.

(** The next hop is the interface itself, or an IPv4 gateway without a link. *)
Definition next_hop (raw : list Z) (link : Z) : Prop :=
  (∃ name, link_addr raw link name) ∨ (link = 0 ∧ ∃ n, inet_addr raw n).

Lemma link_of_spec raw : bytes raw → 2 <= llen raw →
  ∃ r, link_of raw = Some r ∧ ∀ link, r = Some link ↔ next_hop raw link.
Proof.
  intros Hb Hl. unfold link_of, next_hop. destruct (byte_at_some raw 1 ltac:(lia)) as (f & Hf). rewrite Hf. cbn [mbind option_bind].
  destruct (Z.eqb_spec f afLink) as [->|Hnl].
  { assert (Hni : ∀ n, ¬ inet_addr raw n) by (intros n [Hi _]%inet_family; rewrite Hf in Hi; discriminate).
    destruct (Z.ltb_spec (llen raw) 8) as [H8|H8].
    { exists None. split; [done|]. intros link. split; [done|]. intros [[name [_ ?]%link_family]|(_ & n & H)]; [lia|naive_solver]. }
    destruct (link_addr_reads raw Hb H8) as (f' & i & n & a & s & Hf' & Hi & -> & -> & -> & Hn & Ha & Hs & Hiff).
    cbn [mbind option_bind]. rewrite Hf in Hf'. injection Hf' as <-.
    destruct (Z.ltb_spec (llen raw) (8 + n + a + s)) as [Hlt|Hge]; [exists None|rewrite Hi; exists (Some i)].
    - split; [done|]. intros link. split; [done|]. intros [[name (_ & _ & ? & _)%Hiff]|(_ & m & H)]; [lia|naive_solver].
    - split; [done|]. intros link. split.
      + intros [= <-]. left. eexists. apply Hiff. split; [done|]. split; [done|]. split; [lia|]. apply slice_some; lia.
      + intros [[name (_ & -> & _)%Hiff]|(_ & m & H)]; [done|naive_solver]. }
  assert (Hnl' : ∀ i name, ¬ link_addr raw i name) by (intros i name [Hi _]%link_family; congruence).
  destruct (Z.eqb_spec f afInet) as [->|Hni].
  - destruct (ipv4Sockaddr_spec raw Hb) as (r & -> & Hr). cbn [mbind option_bind]. eexists. split; [done|].
    intros link. destruct r as [a|]; simpl.
    + split.
      * intros [= <-]. right. split; [done|]. destruct (proj1 (Hr a) eq_refl) as (n & _ & Hn). eauto.
      * intros [[name H]|[-> _]]; [by apply Hnl' in H|done].
    + split; [done|]. intros [[name H]|(_ & n & H)]; [by apply Hnl' in H|].
      by assert (@None Addr = Some (V4 n)) by (apply Hr; eauto).
  - exists None. split; [done|]. intros link. split; [done|].
    intros [[name H]|(_ & n & [Hi _]%inet_family)]; [by apply Hnl' in H|congruence].
Qed.

(** The interface slot names the interface of the message header. *)
Definition named (raw : list Z) (header : Z) (name : list Z) : Prop :=
  link_addr raw header name ∧ name ≠ [] ∧ 0 < header ∧ MatchString routeInterfacePattern (text name) = true.

Lemma iface_of_spec raw header : bytes raw →
  ∃ r, iface_of raw header = Some r ∧
    ∀ x, r = Some x ↔ ∃ name, x = (text name, header) ∧ named raw header name.
Proof.
  intros Hb. unfold iface_of, named. destruct (Z.ltb_spec (llen raw) 8) as [H8|H8].
  { exists None. split; [done|]. intros x. split; [done|]. intros (name & _ & [_ ?]%link_family & _). lia. }
  destruct (link_addr_reads raw Hb H8) as (f & i & n & a & s & -> & Hi & -> & -> & -> & Hn & Ha & Hs & Hiff).
  cbn [mbind option_bind].
  destruct (Z.eqb_spec f afLink) as [->|Hf]; cbn [negb].
  2: { exists None. split; [done|]. intros x. split; [done|]. intros (name & _ & (? & _)%Hiff & _). done. }
  assert (Hsl : 8 + n + a + s <= llen raw → ∀ p, slice raw 8 (8 + n) = Some p → llen p = n).
  { intros _ p Hp%slice_length. lia. }
  destruct (Z.ltb_spec (llen raw) (8 + n + a + s)) as [Hlt|Hge]; cbn [orb].
  { exists None. split; [done|]. intros x. split; [done|]. intros (name & _ & (_ & _ & ? & _)%Hiff & _). lia. }
  destruct (Z.eqb_spec n 0) as [->|Hn0].
  { exists None. split; [done|]. intros x. split; [done|]. intros (name & _ & (_ & _ & _ & Hp)%Hiff & Hne & _).
    apply Hsl in Hp; [|done]. by destruct name. }
  set (p := take (Z.to_nat (8 + n - 8)) (drop (Z.to_nat 8) raw)).
  assert (Hp : slice raw 8 (8 + n) = Some p) by (apply slice_some; lia). rewrite Hp, Hi. cbn [mbind option_bind].
  assert (Hpne : p ≠ []) by (intros Hp0; apply Hsl in Hp; [|done]; by rewrite Hp0 in Hp).
  destruct (negb _ || _ || _) eqn:E.
  - exists None. split; [done|]. intros x. split; [done|]. intros (name & _ & (_ & <- & _ & Hp')%Hiff & _ & Hpos & Hm).
    rewrite Hp in Hp'. injection Hp' as <-. rewrite Hm, Z.eqb_refl in E. simpl in E. go_bool. lia.
  - apply orb_false_iff in E as [[Em%negb_false_iff Ei%Z.eqb_neq]%orb_false_iff Eh%negb_false_iff%Z.eqb_eq].
    subst header. eexists. split; [done|]. intros x. pose proof (u16le_range _ _ _ Hb Hi). split.
    + intros [= <-]. exists p. split; [done|]. split; [by apply Hiff|]. split; [done|]. split; [lia|done].
    + intros (name & -> & (_ & _ & _ & Hp')%Hiff & _). congruence.
Qed.

(** A netmask of [bits] ones, possibly without its trailing zero bytes. *)
Definition mask_of (raw : list Z) (bits : Z) : Prop :=
  (raw = [] ∧ bits = 0) ∨
  (2 <= llen raw <= 16 ∧ 0 <= bits <= 32 ∧ number (mask_bytes raw) = 2 ^ 32 - 2 ^ (32 - bits)).

Lemma mask_bytes_four raw : bytes raw → bytes (mask_bytes raw) ∧ llen (mask_bytes raw) = 4.
Proof.
  intros Hb. unfold mask_bytes. split.
  - apply bytes_app. split; [by apply Forall_take, Forall_drop|]. apply Forall_forall. intros x Hx.
    apply list_elem_of_In, repeat_spec in Hx. lia.
  - unfold llen. rewrite length_app, repeat_length, length_take. lia.
Qed.

Lemma ipv4Mask_spec raw bits : bytes raw → ipv4Mask raw = Some bits ↔ mask_of raw bits.
Proof.
  intros Hb. unfold ipv4Mask, mask_of. destruct (mask_bytes_four raw Hb) as [Hm H4].
  destruct (Z.eqb_spec (llen raw) 0) as [H0|H0].
  { destruct raw; [|done]. split; [intros [= <-]; by left|]. intros [[_ ->]|[? _]]; [done|]. change (llen (@nil Z)) with 0 in *. lia. }
  assert (Hne : raw ≠ []) by by intros ->.
  destruct (Z.ltb_spec (llen raw) 2) as [H2|H2], (Z.ltb_spec 16 (llen raw)) as [H16|H16]; cbn [orb];
    try (split; [done|]; intros [[? _]|[? _]]; [done|lia]).
  rewrite (mask_size_spec _ Hm). rewrite H4. change (256 ^ 4) with (2 ^ 32). change (8 * 4) with 32. split.
  - intros [? ?]. by right.
  - intros [[? _]|(_ & ? & ?)]; done.
Qed.

Definition netmask (fl mask : Z) (raw : list Z) (bits : Z) : Prop :=
  if Z.testbit fl 2 then bits = 32 ∧ (Z.testbit mask 2 = true → mask_of raw 32)
  else Z.testbit mask 2 = true ∧ mask_of raw bits.

Lemma prefix_length_spec fl mask raw bits : bytes raw → prefix_length fl mask raw = Some bits ↔ netmask fl mask raw bits.
Proof.
  intros Hb. unfold prefix_length, netmask. change flagHost with (Z.shiftl 1 2). rewrite !land_bit by lia.
  pose proof (λ b, ipv4Mask_spec raw b Hb) as Hm.
  destruct (Z.testbit fl 2), (Z.testbit mask 2); cbn [negb].
  - destruct (ipv4Mask raw) as [b|].
    + destruct (decide (b = 32)) as [->|Hn].
      * split; [intros [= <-]; split; [done|]; intros _; by apply Hm|]. by intros [-> _].
      * split; [by repeat case_match|]. intros [_ H]. specialize (H eq_refl). apply Hm in H. congruence.
    + split; [done|]. intros [_ H]. specialize (H eq_refl). by apply Hm in H.
  - split; [by intros [= <-]|]. by intros [-> _].
  - rewrite Hm. split; [done|]. by intros [_ ?].
  - split; [done|]. by intros [? _].
Qed.

Definition describes (fl mask header : Z) (addrs : list (list Z)) (r : route) : Prop :=
  let slot n := nth n addrs [] in
  ∃ dst src bits name link,
    r = mkRoute (mkPrefix (V4 dst) bits) (text name) header (V4 src) fl link ∧
    inet_addr (slot 0%nat) dst ∧ inet_addr (slot 5%nat) src ∧ named (slot 4%nat) header name ∧
    netmask fl mask (slot 2%nat) bits ∧ mask_low 32 bits dst = dst ∧ next_hop (slot 1%nat) link.

Lemma decodeRoute_spec fl mask header addrs :
  Forall bytes addrs → 2 <= llen (nth 1 addrs []) →
  ∃ out, decodeRoute fl mask header addrs = Some out ∧ ∀ r, out = Matched r ↔ describes fl mask header addrs r.
Proof.
  intros Hb Hl. assert (Hs : ∀ n, bytes (nth n addrs [])).
  { intros n. destruct (nth_in_or_default n addrs []) as [Hin| ->]; [|constructor].
    rewrite Forall_forall in Hb. by apply Hb, list_elem_of_In. }
  unfold decodeRoute, describes.
  assert (Hno : ∀ P : route → Prop, (∀ r, ¬ P r) → ∃ out, Some Invalid = Some out ∧ ∀ r, out = Matched r ↔ P r).
  { intros P HP. exists Invalid. split; [done|]. intros r. split; [done|]. by intros ?%HP. }
  destruct (ipv4Sockaddr_spec _ (Hs 0%nat)) as (d & -> & Hd). cbn [mbind option_bind].
  destruct d as [d|]; [|apply Hno; intros r (n & ? & ? & ? & ? & _ & H & _); by assert (@None Addr = Some (V4 n)) by (apply Hd; eauto)].
  destruct (proj1 (Hd d) eq_refl) as (dst & -> & Hdst).
  destruct (ipv4Sockaddr_spec _ (Hs 5%nat)) as (s & -> & Hsr). cbn [mbind option_bind].
  destruct s as [s|]; [|apply Hno; intros r (? & n & ? & ? & ? & _ & _ & H & _); by assert (@None Addr = Some (V4 n)) by (apply Hsr; eauto)].
  destruct (proj1 (Hsr s) eq_refl) as (src & -> & Hsrc).
  destruct (iface_of_spec (nth 4 addrs []) header (Hs 4%nat)) as (i & -> & Hi). cbn [mbind option_bind].
  destruct i as [i|]; [|apply Hno; intros r (? & ? & ? & name & ? & _ & _ & _ & H & _);
    by assert (None = Some (text name, header)) by (apply Hi; eauto)].
  destruct (proj1 (Hi i) eq_refl) as (name & -> & Hname).
  destruct (prefix_length fl mask _) as [bits|] eqn:Eb; [|apply Hno; intros r (? & ? & b & ? & ? & _ & _ & _ & _ & H & _);
    by apply prefix_length_spec in H; [congruence|]].
  assert (Hbits : ∀ b, netmask fl mask (nth 2 addrs []) b ↔ b = bits).
  { intros b. rewrite <- prefix_length_spec, Eb by done. naive_solver. }
  assert (Hdst' : ∀ n, inet_addr (nth 0 addrs []) n → n = dst).
  { intros n Hn. assert (Some (V4 dst) = Some (V4 n)) by (apply Hd; eauto). congruence. }
  assert (Hsrc' : ∀ n, inet_addr (nth 5 addrs []) n → n = src).
  { intros n Hn. assert (Some (V4 src) = Some (V4 n)) by (apply Hsr; eauto). congruence. }
  assert (Hname' : ∀ n, named (nth 4 addrs []) header n → text n = text name).
  { intros n Hn. assert (Some (text name, header) = Some (text n, header)) by (apply Hi; eauto). congruence. }
  cbn [Masked paddr pbits].
  destruct (bool_decide _) eqn:Em; cbn [negb].
  2: { apply bool_decide_eq_false in Em. apply Hno. intros r (n & ? & b & ? & ? & _ & ->%Hdst' & _ & _ & ->%Hbits & H & _). congruence. }
  apply bool_decide_eq_true in Em. injection Em as Em.
  destruct (link_of_spec _ (Hs 1%nat) Hl) as (l & -> & Hlk). cbn [mbind option_bind].
  destruct l as [link|]; [|apply Hno; intros r (? & ? & ? & ? & l & _ & _ & _ & _ & _ & _ & H%Hlk); done].
  eexists. split; [done|]. intros r. split.
  - intros [= <-]. exists dst, src, bits, name, link. split_and!; try done; [by apply Hbits|by apply Hlk].
  - intros (n & n' & b & nm & l & -> & ->%Hdst' & ->%Hsrc' & Hn%Hname' & ->%Hbits & _ & Hl'%Hlk). congruence.
Qed.

(** ** Replies *)

Definition slots : list Z := [0; 1; 2; 3; 4; 5; 6; 7].

(** A complete reply to the request of [pid] and [seq]: the header, with no error, and the
    sockaddrs up to the last byte. *)
Definition header_bytes (size header : Z) (pad : list Z) (fl mask pid seq errno : Z) : list Z :=
  put16le size ++ [routeVersion; routeGet] ++ put16le header ++ pad ++ put32le fl ++ put32le mask ++
  put32le pid ++ put32le seq ++ put32le errno.

Definition accepts (msg : list Z) (pid seq : Z) (r : route) : Prop :=
  ∃ header pad fl mask tail body addrs,
    msg = header_bytes (llen msg) header pad fl mask pid seq 0 ++ tail ++ body ∧ llen pad = 2 ∧ llen tail = 64 ∧
    llen msg <= maxRouteMessageBytes ∧ 0 <= header < 65536 ∧ 0 <= fl < 2 ^ 32 ∧ 0 <= mask < 256 ∧
    Z.testbit fl 6 = true ∧ forallb (Z.testbit mask) [0; 1; 4; 5] = true ∧
    layout mask slots body addrs ∧ describes fl mask header addrs r.

(** Any message of at least a header's length, by its fields. *)
Lemma header_fields msg version kind :
  bytes msg → routeHeaderBytes <= llen msg → byte_at msg 2 = Some version → byte_at msg 3 = Some kind →
  version = routeVersion → kind = routeGet →
  ∃ size header pad fl mask pid seq errno tail,
    msg = header_bytes size header pad fl mask pid seq errno ++ tail ++ drop 92 msg ∧ llen pad = 2 ∧ llen tail = 64 ∧
    u16le msg 0 = Some size ∧ u16le msg 4 = Some header ∧ u32le msg 8 = Some fl ∧ u32le msg 12 = Some mask ∧
    u32le msg 16 = Some pid ∧ u32le msg 20 = Some seq ∧ u32le msg 24 = Some errno.
Proof.
  intros Hb Hl H2 H3 -> ->. unfold routeHeaderBytes in Hl.
  destruct (u16le_some msg 0) as (size & E0); [lia..|]. destruct (u16le_some msg 4) as (header & E4); [lia..|].
  destruct (u32le_some msg 8) as (fl & E8); [lia..|]. destruct (u32le_some msg 12) as (mask & E12); [lia..|].
  destruct (u32le_some msg 16) as (pid & E16); [lia..|]. destruct (u32le_some msg 20) as (seq & E20); [lia..|].
  destruct (u32le_some msg 24) as (errno & E24); [lia..|].
  exists size, header, (take 2 (drop 6 msg)), fl, mask, pid, seq, errno, (take 64 (drop 28 msg)).
  split_and!; try done; try (unfold llen in *; rewrite length_take, length_drop; lia).
  pose proof (u16le_bytes msg 0 _ Hb E0) as D0. pose proof (u16le_bytes msg 4 _ Hb E4) as D4.
  pose proof (u32le_bytes msg 8 _ Hb E8) as D8. pose proof (u32le_bytes msg 12 _ Hb E12) as D12.
  pose proof (u32le_bytes msg 16 _ Hb E16) as D16. pose proof (u32le_bytes msg 20 _ Hb E20) as D20.
  pose proof (u32le_bytes msg 24 _ Hb E24) as D24. cbn [Nat.add] in D0, D4, D8, D12, D16, D20, D24.
  change 2 with (Z.of_nat 2) in H2. change 3 with (Z.of_nat 3) in H3. rewrite byte_at_nat in H2, H3.
  apply drop_S in H2, H3. unfold header_bytes. rewrite <- !app_assoc.
  assert (D6 : take 2 (drop 6 msg) ++ drop 8 msg = drop 6 msg) by (rewrite <- (take_drop 2 (drop 6 msg)) at 2; by rewrite drop_drop).
  assert (D28 : take 64 (drop 28 msg) ++ drop 92 msg = drop 28 msg) by (rewrite <- (take_drop 64 (drop 28 msg)) at 2; by rewrite drop_drop).
  rewrite D28, <- D24, <- D20, <- D16, <- D12, <- D8, D6, <- D4. cbn [app]. rewrite <- H3, <- H2, <- D0. by rewrite drop_0.
Qed.

(** The fields of a header read back. *)
Lemma header_reads size header pad fl mask pid seq errno rest :
  llen pad = 2 → 0 <= size < 65536 → 0 <= header < 65536 → 0 <= fl < 2 ^ 32 → 0 <= mask < 2 ^ 32 →
  0 <= pid < 2 ^ 32 → 0 <= seq < 2 ^ 32 → 0 <= errno < 2 ^ 32 →
  let msg := header_bytes size header pad fl mask pid seq errno ++ rest in
  u16le msg 0 = Some size ∧ byte_at msg 2 = Some routeVersion ∧ byte_at msg 3 = Some routeGet ∧ u16le msg 4 = Some header ∧
  u32le msg 8 = Some fl ∧ u32le msg 12 = Some mask ∧ u32le msg 16 = Some pid ∧ u32le msg 20 = Some seq ∧
  u32le msg 24 = Some errno ∧ drop 28 msg = rest.
Proof.
  intros Hp ??????? msg. destruct pad as [|x [|y [|]]]; try (unfold llen in Hp; simpl in Hp; lia).
  split_and!; try done.
  - exact (u16le_put size _ ltac:(done)).
  - by rewrite <- (u16le_put header ([x; y] ++ put32le fl ++ put32le mask ++ put32le pid ++ put32le seq ++ put32le errno ++ rest)).
  - by rewrite <- (u32le_put fl (put32le mask ++ put32le pid ++ put32le seq ++ put32le errno ++ rest)).
  - by rewrite <- (u32le_put mask (put32le pid ++ put32le seq ++ put32le errno ++ rest)).
  - by rewrite <- (u32le_put pid (put32le seq ++ put32le errno ++ rest)).
  - by rewrite <- (u32le_put seq (put32le errno ++ rest)).
  - by rewrite <- (u32le_put errno rest).
Qed.

Lemma slots_nonneg : Forall (λ b, 0 <= b) slots.
Proof. repeat constructor; lia. Qed.

(** The part of [parseReply] after the header. *)
Definition parseBody (msg : list Z) (fl mask header : Z) : option outcome :=
  r ← sockaddrs slots msg mask routeHeaderBytes;
  match r with
  | None => Some Invalid
  | Some (addrs, offset) => if negb (offset =? llen msg) then Some Invalid else decodeRoute fl mask header addrs
  end.

Lemma parseBody_spec msg fl mask header :
  bytes msg → routeHeaderBytes <= llen msg → Z.testbit mask 1 = true →
  ∃ out, parseBody msg fl mask header = Some out ∧
    ∀ r, out = Matched r ↔ ∃ addrs, layout mask slots (drop 92 msg) addrs ∧ describes fl mask header addrs r.
Proof.
  intros Hb Hl H1. unfold parseBody. pose proof slots_nonneg as Hs. unfold routeHeaderBytes in *.
  assert (Hlay := λ addrs, sockaddrs_layout slots msg mask 92 addrs Hb Hs ltac:(lia)).
  change (Z.to_nat 92) with 92%nat in Hlay.
  destruct (sockaddrs_safe slots msg mask 92 Hb ltac:(lia)) as (out & Hout). rewrite Hout in Hlay |- *. cbn [mbind option_bind].
  destruct out as [[addrs offset]|].
  2: { exists Invalid. split; [done|]. intros r. split; [done|]. by intros (addrs & H%Hlay & _). }
  destruct (Z.eqb_spec offset (llen msg)) as [->|Hne]; cbn [negb].
  2: { exists Invalid. split; [done|]. intros r. split; [done|]. intros (a & H%Hlay & _). congruence. }
  pose proof (proj1 (Hlay addrs) eq_refl) as Hla.
  destruct (layout_slots _ _ _ _ Hla ltac:(by apply Forall_drop)) as (Hba & _ & Hslot).
  destruct (decodeRoute_spec fl mask header addrs Hba (Hslot 1%nat 1 eq_refl H1 ltac:(done))) as (out & -> & Ho).
  exists out. split; [done|]. intros r. rewrite Ho. split; [eauto|]. intros (a & H%Hlay & Hd). congruence.
Qed.

Ltac invalid := eexists; split; [reflexivity|]; intros r; split; [done|].

(** The header of an accepted message. *)
Lemma accepts_header msg pid seq r :
  0 <= pid < 2 ^ 32 → 0 <= seq < 2 ^ 32 → accepts msg pid seq r →
  routeHeaderBytes <= llen msg <= maxRouteMessageBytes ∧ u16le msg 0 = Some (llen msg) ∧
  byte_at msg 2 = Some routeVersion ∧ byte_at msg 3 = Some routeGet ∧
  u32le msg 16 = Some pid ∧ u32le msg 20 = Some seq ∧ u32le msg 24 = Some 0 ∧
  ∃ header fl mask addrs, u16le msg 4 = Some header ∧ u32le msg 8 = Some fl ∧ u32le msg 12 = Some mask ∧
    0 <= mask < 256 ∧ Z.testbit fl 6 = true ∧ forallb (Z.testbit mask) [0; 1; 4; 5] = true ∧
    layout mask slots (drop 92 msg) addrs ∧ describes fl mask header addrs r.
Proof.
  intros Hp Hs (header & pad & fl & mask & tail & body & addrs & Hmsg & Hpad & Htail & Hmax & Hh & Hf & Hm & H6 & Hbits & Hlay & Hd).
  unfold maxRouteMessageBytes, routeHeaderBytes in *. set (n := llen msg) in *.
  assert (Hn : 92 <= n).
  { unfold n. rewrite Hmsg. unfold header_bytes, llen in *. rewrite !length_app. simpl. lia. }
  destruct (header_reads n header pad fl mask pid seq 0 (tail ++ body)) as (R0 & R2 & R3 & R4 & R8 & R12 & R16 & R20 & R24 & Rd);
    [done|lia|done|done|lia|done|done|lia|].
  rewrite <- Hmsg in *. split_and!; try done; try lia. exists header, fl, mask, addrs. split_and!; try done; try lia.
  replace (drop 92 msg) with body; [done|].
  change 92%nat with (28 + 64)%nat. rewrite <- drop_drop, Rd.
  replace 64%nat with (length tail) by (unfold llen in Htail; lia). by rewrite drop_app_length.
Qed.

Lemma parseReply_exact msg pid seq :
  bytes msg → 0 <= pid < 2 ^ 32 → 0 <= seq < 2 ^ 32 →
  ∃ out, parseReply msg pid seq = Some out ∧ ∀ r, out = Matched r ↔ accepts msg pid seq r.
Proof.
  intros Hb Hp Hs. pose proof (λ r, accepts_header msg pid seq r Hp Hs) as Hacc.
  unfold parseReply, maxRouteMessageBytes, routeHeaderBytes in *.
  destruct (Z.ltb_spec (llen msg) 4); [invalid; intros (? & _)%Hacc; lia|].
  destruct (Z.ltb_spec 4096 (llen msg)); [invalid; intros (? & _)%Hacc; lia|]. cbn [orb].
  destruct (u16le_some msg 0) as (size & E0); [lia..|]. destruct (byte_at_some msg 2 ltac:(lia)) as (version & E2).
  destruct (byte_at_some msg 3 ltac:(lia)) as (kind & E3). rewrite E0, E2, E3 in *. cbn [mbind option_bind].
  destruct (Z.eqb_spec size (llen msg)) as [->|]; [|invalid; intros (_ & [= ->] & _)%Hacc; done].
  destruct (Z.eqb_spec version routeVersion) as [->|]; [|invalid; intros (_ & _ & [= ->] & _)%Hacc; done]. cbn [negb orb].
  destruct (Z.eqb_spec kind routeGet) as [->|]; [|invalid; intros (_ & _ & _ & [= ->] & _)%Hacc; done]. cbn [negb].
  destruct (Z.ltb_spec (llen msg) 92); [invalid; intros (? & _)%Hacc; lia|].
  destruct (header_fields msg _ _ Hb ltac:(done) E2 E3 eq_refl eq_refl)
    as (size & header & pad & fl & mask & pid' & seq' & errno & tail & Hmsg & Hpad & Htail & E0' & E4 & E8 & E12 & E16 & E20 & E24).
  rewrite E4, E8, E12, E16, E20, E24 in *. rewrite E0 in E0'. injection E0' as <-. cbn [mbind option_bind].
  destruct (Z.eqb_spec pid' pid) as [->|]; [|invalid; intros (_ & _ & _ & _ & [= ->] & _)%Hacc; done].
  destruct (Z.eqb_spec seq' seq) as [->|]; [|invalid; intros (_ & _ & _ & _ & _ & [= ->] & _)%Hacc; done]. cbn [negb orb].
  destruct (errno_of errno) eqn:Ee; [invalid; intros (_ & _ & _ & _ & _ & _ & [= ->] & _)%Hacc; done|].
  assert (errno = 0) as ->. { unfold errno_of in Ee. destruct (Z.eqb_spec errno 0); [done|]. repeat case_match; done. }
  change flagDone with (Z.shiftl 1 6). rewrite land_bit by lia.
  assert (Hin : ∀ r, accepts msg pid seq r → Z.testbit fl 6 = true ∧ 0 <= mask < 256 ∧
    forallb (Z.testbit mask) [0; 1; 4; 5] = true ∧
    ∃ addrs, layout mask slots (drop 92 msg) addrs ∧ describes fl mask header addrs r).
  { intros r Hr%Hacc. skip 7 in Hr. destruct Hr as (h' & f' & m' & addrs & [= <-] & [= <-] & [= <-] & ? & ? & ? & ? & ?). eauto 10. }
  destruct (Z.testbit fl 6) eqn:H6; cbn [negb]; [|invalid; intros (? & _)%Hin; done].
  pose proof (u32le_range _ _ _ Hb E12). rewrite required_bits, ldiff_byte by lia.
  replace (Z.testbit mask 0 && _ && _ && _) with (forallb (Z.testbit mask) [0; 1; 4; 5])
    by (cbn [forallb]; by rewrite andb_true_r, !andb_assoc).
  destruct (forallb (Z.testbit mask) _) eqn:Hbits; cbn [negb orb]; [|invalid; intros (_ & _ & ? & _)%Hin; done].
  destruct (Z.ltb_spec mask 256); cbn [negb]; [|invalid; intros (_ & ? & _)%Hin; lia].
  assert (Hone : Z.testbit mask 1 = true) by (cbn [forallb] in Hbits; go_bool; done).
  destruct (parseBody_spec msg fl mask header Hb ltac:(done) Hone) as (out & Hout & Ho). exists out. split; [exact Hout|].
  intros r. rewrite Ho. split; [|by intros (_ & _ & _ & ?)%Hin].
  intros (addrs & Hlay & Hd). exists header, pad, fl, mask, tail, (drop 92 msg), addrs.
  pose proof (u16le_range _ _ _ Hb E4). pose proof (u32le_range _ _ _ Hb E8). split_and!; done || lia.
Qed.

(** C16: the parser of the kernel's replies is exact.  On every sequence of bytes it
    returns (no read leaves the message), and it yields a route exactly when the bytes are
    one complete reply to the process and sequence number asked for: version, type, length
    and error field as required, the destination, gateway, interface and source slots all
    present, every sockaddr well formed and padded, and nothing left over.  The route is
    the one these sockaddrs describe. *)
Theorem parse_reply_spec msg pid seq :
  bytes msg → 0 <= pid < 2 ^ 32 → 0 <= seq < 2 ^ 32 →
  ∃ out, parseReply msg pid seq = Some out ∧ ∀ r, out = Matched r ↔ accepts msg pid seq r.
Proof. apply parseReply_exact. Qed.

(** ** Requests *)

(** The message the controller writes: its own length and the type RTM_GET, the two
    correlation numbers, no interface index, flag or error, and exactly two sockaddrs, the
    target and an empty link address, which end with the message: nothing in it selects an
    interface, a gateway or a source. *)
Definition request_body (n : Z) : list Z :=
  ([16; afInet; 0; 0] ++ address_bytes n ++ repeat 0 8) ++ 20 :: afLink :: repeat 0 18.

Lemma request_spec target pid seq msg :
  getRequest target pid seq = Ok msg ↔
  pid ≠ 0 ∧ seq ≠ 0 ∧ ∃ n, target = V4 n ∧ IsPrivate target = true ∧
    msg = header_bytes 128 0 [0; 0] 0 17 pid seq 0 ++ repeat 0 64 ++ request_body n.
Proof.
  unfold getRequest. split.
  - intros [Hg [= <-]]%guard_ok. go_bool. split; [done|]. split; [done|]. destruct target as [|n|]; try done. by exists n.
  - intros (Hp0 & Hs0 & n & -> & Hpr & ->). rewrite Hpr.
    by rewrite (proj2 (Z.eqb_neq _ _) Hp0), (proj2 (Z.eqb_neq _ _) Hs0).
Qed.

Lemma request_layout n : layout 17 slots (request_body n)
  [[16; afInet; 0; 0] ++ address_bytes n ++ repeat 0 8; []; []; []; 20 :: afLink :: repeat 0 18; []; []; []].
Proof.
  apply (layout_present 17 0 _ ([16; afInet; 0; 0] ++ address_bytes n ++ repeat 0 8) []); [done|by right|].
  do 3 (apply layout_absent; [done|]).
  apply (layout_present 17 4 _ (20 :: afLink :: repeat 0 18) [] []); [done|by right|].
  do 3 (apply layout_absent; [done|]). constructor.
Qed.

(** ** A reply *)

(** The reply of the documented shape: a /24 route on [en0], with a compressed netmask. *)
Definition example_body : list Z :=
  [16; 2; 0; 0; 192; 168; 50; 0; 0; 0; 0; 0; 0; 0; 0; 0] ++
  [8; 18; 7; 0; 0; 0; 0; 0] ++
  [7; 255; 255; 255; 255; 255; 255; 0] ++
  [11; 18; 7; 0; 0; 3; 0; 0; 101; 110; 48; 0] ++
  [16; 2; 0; 0; 192; 168; 50; 23; 0; 0; 0; 0; 0; 0; 0; 0].
Definition example_reply : list Z := header_bytes 152 7 [0; 0] 65 55 123 456 0 ++ repeat 0 64 ++ example_body.
Definition example_route : route := mkRoute (mkPrefix (V4 3232248320) 24) "en0" 7 (V4 3232248343) 65 7.

Example example_parsed : parseReply example_reply 123 456 = Some (Matched example_route).
Proof. vm_compute. reflexivity. Qed.
Example example_other : parseReply example_reply 124 456 = Some Foreign.
Proof. vm_compute. reflexivity. Qed.
Example example_trailing : parseReply (header_bytes 153 7 [0; 0] 65 55 123 456 0 ++ repeat 0 64 ++ example_body ++ [0]) 123 456 = Some Invalid.
Proof. vm_compute. reflexivity. Qed.

Lemma parse_reply_spec_witness : accepts example_reply 123 456 example_route.
Proof.
  destruct (parse_reply_spec example_reply 123 456) as (out & Hout & Hr).
  - apply bytes_check. vm_compute. reflexivity.
  - split; [discriminate|reflexivity].
  - split; [discriminate|reflexivity].
  - apply Hr. rewrite example_parsed in Hout. injection Hout as <-. reflexivity.
Defined.

(** ** The routing socket *)

(** [safeSocketError], by the errors [errors.Is] finds. *)
Inductive errno : Type := EPERM | EACCES | ESRCH | ENETUNREACH | EHOSTUNREACH | EAGAIN | EINTR | EOther.

Definition safeSocketError (e : errno) : err :=
  match e with
  | EPERM | EACCES => ErrPermission
  | ESRCH | ENETUNREACH | EHOSTUNREACH => ErrNoRoute
  | _ => ErrUnavailable
  end.

(** One round of the receive loop of [lookupSystem]: the context before the read, the
    read, and the context after the message. *)
Record round := mkRound { canceled : bool; received : errno + list Z; canceled' : bool }.

(** [for received := 0; received < 16;], for as long as the rounds last: [None] is a loop
    that still waits, which its context ends. *)
Fixpoint receive (pid seq : Z) (n : Z) (rounds : list round) : option (result err route) :=
  if 16 <=? n then Some (Err ErrUnavailable)
  else
    match rounds with
    | [] => None
    | mkRound true _ _ :: _ => Some (Err ErrCtx)
    | mkRound false (inl (EAGAIN | EINTR)) _ :: rounds => receive pid seq n rounds
    | mkRound false (inl e) _ :: _ => Some (Err (safeSocketError e))
    | mkRound false (inr msg) late :: rounds =>
        match parseReply msg pid seq with
        | None => None
        | Some Invalid => Some (Err ErrUnavailable)
        | Some (Refused e) => Some (Err e)
        | Some Foreign => if late then Some (Err ErrCtx) else receive pid seq (n + 1) rounds
        | Some (Matched r) => if late then Some (Err ErrCtx) else Some (Ok r)
        end
    end.

Definition messages (rounds : list round) : list (list Z) :=
  omap (λ r, match received r with inr m => Some m | inl _ => None end) rounds.

(** A route is taken from a message that was read and accepted, after fewer than sixteen
    messages of other processes or requests. *)
Lemma receive_sound pid seq n rounds r :
  0 <= pid < 2 ^ 32 → 0 <= seq < 2 ^ 32 → Forall bytes (messages rounds) →
  receive pid seq n rounds = Some (Ok r) →
  ∃ before msg after, messages rounds = before ++ msg :: after ∧ n + llen before < 16 ∧
    accepts msg pid seq r ∧ Forall (λ m, parseReply m pid seq = Some Foreign) before.
Proof.
  intros Hp Hs. revert n. induction rounds as [|[c rc late] rounds IH]; intros n Hb; cbn [receive];
    destruct (Z.leb_spec 16 n); try done. destruct c; [done|].
  destruct rc as [e|msg].
  { intros H'. assert (Hrec : receive pid seq n rounds = Some (Ok r)) by by destruct e. apply IH; [exact Hb|done]. }
  unfold messages in Hb. cbn [omap list_omap received] in Hb. apply Forall_cons in Hb as [Hm Hb].
  destruct (parseReply_exact msg pid seq Hm Hp Hs) as (out & Hout & Hr). rewrite Hout.
  destruct out as [| |e|r']; try done; destruct late; try done.
  - intros H'. apply IH in H' as (before & m & after & Hms & Hn & Ha & Hf); [|done].
    exists (msg :: before), m, after. split; [change (msg :: messages rounds = (msg :: before) ++ m :: after); by rewrite Hms|].
    rewrite llen_cons. split; [lia|]. split; [done|]. by constructor.
  - intros [= <-]. exists [], msg, (messages rounds). split; [done|]. change (llen (@nil (list Z))) with 0. split; [lia|].
    split; [by apply Hr|constructor].
Qed.

End RouteMessage.
