(* ===== verification/RouteInspect.v ===== *)
(** * Gateway route inspection

    [gatewayroute/inspect.go] and the two consumers of its evidence,
    [collectGatewayRouteEvidence] and [preflightGatewayRun] of [cmd/cozysoc]: the local
    interface is read before and after the route lookup, and evidence is produced only for
    a direct route of the enrolled interface.  The answers of the clock, the context, the
    interface reader and the route lookup are given; the calls made are recorded.  The
    theorems say what evidence means and that the run control accepts the selections
    built from it. *)

From stdpp Require Import gmap strings.
From S2P Require Import Prelude GoTime NetAddr GatewayPlan GatewayRun RouteMessage.

Module RouteInspect.
Import RouteMessage.

Definition inspectionTimeout : Duration := 2 * Second.
Definition maxInterfaceAddresses : Z := 128.

(** [net.Flags] *)
Definition FlagUp : Z := 1.
Definition FlagLoopback : Z := 4.
Definition FlagPointToPoint : Z := 8.

Record Evidence := mkEvidence {
  InterfaceName : string;
  InterfaceIndex : Z;
  SourceAddress : Addr;
  ObservedAt : Time;
  FreshUntil : Time;
}.

Record localInterface := mkLocal {
  lname : string;
  lindex : Z;
  lflags : Z;
  addresses : list Prefix;
}.

(** [netip.Prefix.IsValid] *)
Definition PrefixIsValid (p : Prefix) : bool :=
  IsValid (paddr p) && (0 <=? pbits p) && (pbits p <=? addr_bits (paddr p)).

(** The loop that collects the texts of the networks to keep; [None] is its early return. *)
Fixpoint collect (keep : Prefix → bool) (l : list Prefix) (seen : gset string) : option (gset string) :=
  match l with
  | [] => Some seen
  | prefix :: l =>
      if negb (PrefixIsValid prefix) || Is4In6 (paddr prefix) then None
      else collect keep l (if keep prefix then {[PrefixString (Masked prefix)]} ∪ seen else seen)
  end.

(** A prefix [matchesBinding] does not skip. *)
Definition usable (p : Prefix) : bool :=
  let a := paddr (Masked p) in negb (IsUnspecified a || IsLoopback a || IsMulticast a).

Definition matchesBinding (binding : GatewayPlanBinding) (l : localInterface) : bool :=
  if (lname l != GatewayPlan.InterfaceName binding) || negb (lindex l =? GatewayPlan.InterfaceIndex binding) ||
     (Z.land (lflags l) FlagUp =? 0) || negb (Z.land (lflags l) (Z.lor FlagLoopback FlagPointToPoint) =? 0) ||
     (llen (addresses l) =? 0) || (maxInterfaceAddresses <? llen (addresses l))
  then false
  else
    match collect usable (addresses l) ∅ with
    | None => false
    | Some cur =>
        if negb (Z.of_nat (size cur) =? llen (Prefixes binding)) then false
        else forallb (λ p, bool_decide (p ∈ cur)) (Prefixes binding)
    end.

Definition allowed : Z :=
  fold_left Z.lor [flagHost; flagDone; flagCloning; flagLLInfo; flagStatic; flagPrCloning; flagWasCloned;
                   flagIfScope; flagIfRef; flagRouter; flagPinned] flagUp.

(** The loop over the addresses of one interface: [None] is the early [return false]. *)
Fixpoint assigned (l : list Prefix) (target source : Addr) (found : bool) : option bool :=
  match l with
  | [] => Some found
  | p :: l =>
      if paddr p == target then None
      else assigned l target source (found || ((paddr p == source) && Contains p target))
  end.

Definition matchesRoute (binding : GatewayPlanBinding) (target : Addr) (r : route) (before after : localInterface)
    (observedAt : Time) : bool :=
  let updone := Z.lor flagUp flagDone in
  if negb (Z.land (flags r) updone =? updone) || negb (Z.ldiff (flags r) allowed =? 0) ||
     (interfaceName r != GatewayPlan.InterfaceName binding) ||
     negb (interfaceIndex r =? GatewayPlan.InterfaceIndex binding) ||
     negb (linkIndex r =? GatewayPlan.InterfaceIndex binding) || negb (PrefixIsValid (destination r)) ||
     negb (Is4 (paddr (destination r))) || negb (Contains (destination r) target) ||
     negb (Is4 (source r)) || negb (IsPrivate (source r)) || (source r == target)
  then false
  else if negb (forallb (λ l, bool_decide (assigned (addresses l) target (source r) false = Some true)) [before; after])
  then false
  else is_ok (PreviewGatewayCheck binding (AddrString (source r)) observedAt).

(** The calls that reach the operating system. *)
Inductive call : Type := ReadInterface (name : string) | LookupRoute (target : Addr).

(** The answers, in the order in which [Inspect] asks. *)
Record answers := mkAnswers {
  canceled0 : bool;
  present : bool;
  started : Time;
  before : result err localInterface;
  canceled1 : bool;
  looked : result err route;
  observed : Time;
  canceled2 : bool;
  after : result err localInterface;
  canceled3 : bool;
  ended : Time;
}.

Definition Inspect (w : answers) (binding : GatewayPlanBinding) (target : Addr) : list call * result err Evidence :=
  if canceled0 w then ([], Err ErrCtx)
  else if negb (present w) then ([], Err ErrUnavailable)
  else
    let started := UTC (started w) in
    match PreviewGatewayCheck binding (AddrString target) started with
    | Err _ => ([], Err ErrUnavailable)
    | Ok plan =>
        let binding := Binding plan in
        let name := GatewayPlan.InterfaceName binding in
        match before w with
        | Err e => ([ReadInterface name], Err e)
        | Ok before =>
            if negb (matchesBinding binding before) then ([ReadInterface name], Err ErrMismatch)
            else if canceled1 w then ([ReadInterface name], Err ErrCtx)
            else
              match looked w with
              | Err e => ([ReadInterface name; LookupRoute target], Err e)
              | Ok r =>
                  let observedAt := UTC (observed w) in
                  if canceled2 w then ([ReadInterface name; LookupRoute target], Err ErrCtx)
                  else
                    let calls := [ReadInterface name; LookupRoute target; ReadInterface name] in
                    match after w with
                    | Err e => (calls, Err e)
                    | Ok after =>
                        if canceled3 w then (calls, Err ErrCtx)
                        else
                          let ended := UTC (ended w) in
                          if Before observedAt started || Before ended observedAt ||
                             (inspectionTimeout <? Sub ended started) || IsZero observedAt ||
                             (9999 <? Year (Add observedAt GatewayReviewLifetime))
                          then (calls, Err ErrUnavailable)
                          else if negb (matchesBinding binding after) ||
                                  negb (matchesRoute binding target r before after observedAt)
                          then (calls, Err ErrMismatch)
                          else (calls, Ok (mkEvidence (interfaceName r) (interfaceIndex r) (source r) observedAt
                                             (Add observedAt GatewayReviewLifetime)))
                    end
              end
        end
    end.

(** ** The consumers *)

(** [inspect] is the answer of the inspector, [now] that of the handler's clock. *)
Definition collectGatewayRouteEvidence (canceled present : bool) (inspect : result err Evidence) (canceled' : bool) (now : Time)
    (plan : GatewayCheckPlan) : result err Evidence :=
  guard? canceled else ErrCtx in
  guard? negb present else ErrUnavailable in
  guard? canceled' else ErrCtx in
  match inspect with
  | Err e => Err e
  | Ok e =>
      let now := UTC now in
      guard? (InterfaceName e != GatewayPlan.InterfaceName (Binding plan)) ||
             negb (InterfaceIndex e =? GatewayPlan.InterfaceIndex (Binding plan)) ||
             (SourceAddress e == Target plan) || IsZero (ObservedAt e) || Before (ObservedAt e) (CreatedAt plan) ||
             After (ObservedAt e) now || negb (Equal (FreshUntil e) (Add (ObservedAt e) GatewayReviewLifetime)) ||
             negb (After (FreshUntil e) now) || (5 * Second <? Sub now (CreatedAt plan))
      else ErrUnavailable in
      guard? negb (is_ok (PreviewGatewayCheck (Binding plan) (AddrString (SourceAddress e)) now)) else ErrUnavailable in
      Ok e
  end.

(** The end of [preflightGatewayRun]: [plan] and [evidence] were collected, [enrolled] is
    the binding in force after the lookup. *)
Definition preflightGatewayRun (target : Addr) (plan : GatewayCheckPlan) (evidence : result err Evidence)
    (enrolled : option GatewayPlanBinding) : option Gateway.Selection :=
  match evidence with
  | Err _ => None
  | Ok e =>
      match enrolled with
      | None => None
      | Some cur =>
          match PreviewGatewayCheck cur (AddrString target) (CreatedAt plan) with
          | Err _ => None
          | Ok canonical =>
              if (Binding canonical) == (Binding plan)
              then Some (Gateway.mkSelection plan (SourceAddress e) (ObservedAt e) (FreshUntil e))
              else None
          end
      end
  end.

(** [reviewGatewayRoute]: the state and reason shown to the user. *)
Definition reviewGatewayRoute (canceled : bool) (evidence : result err Evidence)
  : result err (string * string * option (string * Time * Time)) :=
  if canceled then Err ErrCtx
  else
    match evidence with
    | Err ErrUnsupported => Ok ("unsupported", "platform-unsupported", None)
    | Err ErrMismatch => Ok ("mismatch", "route-or-source-mismatch", None)
    | Err ErrPermission => Ok ("unavailable", "permission-required", None)
    | Err ErrNoRoute => Ok ("unavailable", "no-route", None)
    | Err _ => Ok ("unavailable", "source-unavailable", None)
    | Ok e => Ok ("consistent", "", Some (AddrString (SourceAddress e), UTC (ObservedAt e), UTC (FreshUntil e)))
    end.

(** ** What the checks say *)

Definition sound_prefix (p : Prefix) : Prop := PrefixIsValid p = true ∧ Is4In6 (paddr p) = false.

(** The kept networks of an interface, by their text. *)
Definition kept (keep : Prefix → bool) (l : list Prefix) : gset string :=
  list_to_set (map (λ p, PrefixString (Masked p)) (filter (λ p, keep p = true) l)).

Lemma collect_spec keep l seen cur :
  collect keep l seen = Some cur ↔ Forall sound_prefix l ∧ cur = kept keep l ∪ seen.
Proof.
  revert seen. induction l as [|p l IH]; intros seen; cbn [collect].
  { unfold kept. rewrite filter_nil. simpl. rewrite (left_id_L ∅ (∪)). split; [intros [= ->]; by repeat constructor|].
    by intros [_ ->]. }
  rewrite Forall_cons. unfold sound_prefix at 1. destruct (PrefixIsValid p); simpl; [|split; [done|naive_solver]].
  destruct (Is4In6 (paddr p)); [split; [done|naive_solver]|].
  assert (Hn : kept keep (p :: l) = if keep p then {[PrefixString (Masked p)]} ∪ kept keep l else kept keep l).
  { unfold kept. rewrite filter_cons. destruct (keep p); [by rewrite decide_True|by rewrite decide_False]. }
  rewrite IH, Hn. destruct (keep p); [|naive_solver].
  rewrite (assoc_L (∪) (kept keep l)), (comm_L (∪) (kept keep l) {[_]}). naive_solver.
Qed.

Definition networks : list Prefix → gset string := kept usable.

(** The interface of the enrollment: up, neither loopback nor point to point, and with
    exactly as many networks as there are enrolled prefixes, all of them enrolled. *)
Definition enrolled (b : GatewayPlanBinding) (l : localInterface) : Prop :=
  lname l = GatewayPlan.InterfaceName b ∧ lindex l = GatewayPlan.InterfaceIndex b ∧
  Z.testbit (lflags l) 0 = true ∧ Z.testbit (lflags l) 2 = false ∧ Z.testbit (lflags l) 3 = false ∧
  1 <= llen (addresses l) <= maxInterfaceAddresses ∧ Forall sound_prefix (addresses l) ∧
  Forall (λ p, p ∈ networks (addresses l)) (Prefixes b) ∧
  size (networks (addresses l)) = length (Prefixes b).

Lemma flags_clear fl : (Z.land fl (Z.lor FlagLoopback FlagPointToPoint) =? 0) = negb (Z.testbit fl 2) && negb (Z.testbit fl 3).
Proof.
  unfold FlagLoopback, FlagPointToPoint. rewrite Z.land_lor_distr_r. apply eq_bool_prop_intro.
  rewrite !Is_true_true, Z.eqb_eq, Z.lor_eq_0_iff, andb_true_iff.
  change 4 with (Z.shiftl 1 2). change 8 with (Z.shiftl 1 3). rewrite <- !land_bit by lia. by rewrite !Z.eqb_eq.
Qed.

Lemma matchesBinding_iff b l : matchesBinding b l = true ↔ enrolled b l.
Proof.
  unfold matchesBinding, enrolled. change FlagUp with (Z.shiftl 1 0). rewrite land_bit, flags_clear by lia.
  destruct (collect usable (addresses l) ∅) as [cur|] eqn:E.
  - apply collect_spec in E as [Hs ->]. rewrite (right_id_L ∅ (∪)). change (kept usable) with networks. unfold llen in *. split.
    + intros H. destruct (_ || _) eqn:Eg in H; [done|]. destruct (negb (_ =? Z.of_nat (length (Prefixes b)))) eqn:Esz in H; [done|].
      apply forallb_true_iff in H. go_bool. split_and!; try done; try lia.
      eapply Forall_impl; [exact H|]. intros x Hx. by apply bool_decide_eq_true in Hx.
    + intros (-> & -> & -> & -> & -> & Hl & _ & Hp & Hsz). rewrite bool_decide_true by done. rewrite Z.eqb_refl. cbn [negb orb andb].
      rewrite (proj2 (Z.eqb_neq _ _)), (proj2 (Z.ltb_ge _ _)) by (unfold maxInterfaceAddresses in *; lia). cbn [orb].
      rewrite Hsz, Z.eqb_refl. cbn [negb]. apply forallb_true_iff. eapply Forall_impl; [exact Hp|]. intros x Hx. by apply bool_decide_eq_true.
  - split; [by destruct (_ || _)|]. intros (_ & _ & _ & _ & _ & _ & Hs & _).
    pose proof (proj2 (collect_spec usable (addresses l) ∅ _) (conj Hs eq_refl)). congruence.
Qed.

(** With distinct prefixes, the networks are the enrolled prefixes. *)
Lemma enrolled_networks b l : enrolled b l → NoDup (Prefixes b) → networks (addresses l) = list_to_set (Prefixes b).
Proof.
  intros H Hnd. skip 7 in H. destruct H as [Hp Hs]. symmetry. apply set_subseteq_size_eq.
  - intros x Hx. rewrite elem_of_list_to_set in Hx. rewrite Forall_forall in Hp. auto.
  - rewrite size_list_to_set by done. lia.
Qed.

(** The source is one of the interface's addresses, in a network with the target; the
    target itself is not. *)
Definition on_link (l : localInterface) (target src : Addr) : Prop :=
  Forall (λ p, paddr p ≠ target) (addresses l) ∧
  Exists (λ p, paddr p = src ∧ Contains p target = true) (addresses l).

Lemma assigned_spec l target src found b :
  assigned l target src found = Some b ↔
  Forall (λ p, paddr p ≠ target) l ∧ b = found || existsb (λ p, (paddr p == src) && Contains p target) l.
Proof.
  revert found. induction l as [|p l IH]; intros found; cbn [assigned existsb].
  { rewrite orb_false_r. split; [by intros [= ->]|by intros [_ ->]]. }
  rewrite Forall_cons. destruct (bool_decide (paddr p = target)) eqn:E; go_bool.
  - split; [done|naive_solver].
  - rewrite IH, orb_assoc. naive_solver.
Qed.

Lemma assigned_iff l target src : assigned (addresses l) target src false = Some true ↔ on_link l target src.
Proof.
  rewrite assigned_spec. unfold on_link. rewrite orb_false_l.
  split.
  - intros [Hf He]. split; [done|]. symmetry in He. apply existsb_true_iff in He.
    eapply Exists_impl; [exact He|]. intros p Hp. simpl in Hp. by go_bool.
  - intros [Hf He]. split; [done|]. symmetry. apply existsb_true_iff.
    eapply Exists_impl; [exact He|]. intros p [-> Hc]. rewrite bool_decide_true by done. by rewrite Hc.
Qed.

(** A direct route of the interface to the target, with a source that is itself an
    eligible host of the enrolled networks. *)
Definition direct (b : GatewayPlanBinding) (target : Addr) (r : route) (at_ : Time) : Prop :=
  Z.testbit (flags r) 0 = true ∧ Z.testbit (flags r) 6 = true ∧
  (∀ i, 0 <= i → Z.testbit (flags r) i = true → Z.testbit allowed i = true) ∧
  interfaceName r = GatewayPlan.InterfaceName b ∧ interfaceIndex r = GatewayPlan.InterfaceIndex b ∧
  linkIndex r = GatewayPlan.InterfaceIndex b ∧ PrefixIsValid (destination r) = true ∧
  Is4 (paddr (destination r)) = true ∧ Contains (destination r) target = true ∧
  Is4 (source r) = true ∧ IsPrivate (source r) = true ∧ source r ≠ target ∧
  is_ok (PreviewGatewayCheck b (AddrString (source r)) at_) = true.

Lemma updone_bits fl : (Z.land fl (Z.lor flagUp flagDone) =? Z.lor flagUp flagDone) = Z.testbit fl 0 && Z.testbit fl 6.
Proof.
  apply eq_bool_prop_intro. rewrite !Is_true_true, Z.eqb_eq, andb_true_iff. split.
  - intros H. assert (Hk : ∀ k, Z.testbit (Z.lor flagUp flagDone) k = true → Z.testbit fl k = true).
    { intros k Hr. rewrite <- H, Z.land_spec in Hr. by apply andb_true_iff in Hr as [? _]. }
    split; by apply Hk.
  - intros [H0 H6]. apply Z.bits_inj'. intros k Hk. rewrite Z.land_spec.
    destruct (Z.testbit (Z.lor flagUp flagDone) k) eqn:E; [|by rewrite andb_false_r]. rewrite andb_true_r.
    unfold flagUp, flagDone in E. change 0x1 with (2 ^ 0) in E. change 0x40 with (2 ^ 6) in E.
    rewrite Z.lor_spec, !Z.pow2_bits_eqb, orb_true_iff, !Z.eqb_eq in E by lia. destruct E as [<-|<-]; done.
Qed.

Lemma ldiff_zero a b : Z.ldiff a b = 0 ↔ ∀ i, 0 <= i → Z.testbit a i = true → Z.testbit b i = true.
Proof.
  split.
  - intros H i Hi Ha. apply (f_equal (λ z, Z.testbit z i)) in H. rewrite Z.ldiff_spec, Z.bits_0, Ha in H. simpl in H.
    by apply negb_false_iff in H.
  - intros H. apply Z.bits_inj'. intros i Hi. rewrite Z.ldiff_spec, Z.bits_0. destruct (Z.testbit a i) eqn:E; [|done].
    by rewrite (H i Hi E).
Qed.

Lemma matchesRoute_iff b target r l l' at_ :
  matchesRoute b target r l l' at_ = true ↔
  direct b target r at_ ∧ on_link l target (source r) ∧ on_link l' target (source r).
Proof.
  unfold matchesRoute, direct. rewrite updone_bits, <- ldiff_zero, <- !assigned_iff. cbn [forallb]. rewrite andb_true_r.
  split.
  - intros H. destruct (_ || _) eqn:E in H; [done|]. destruct (negb (_ && _)) eqn:E2 in H; [done|]. go_bool. naive_solver.
  - intros ((-> & -> & H1 & -> & -> & -> & -> & -> & -> & -> & -> & H2 & ->) & H3 & H4).
    rewrite H1, H3, H4, !Z.eqb_refl. repeat (rewrite bool_decide_true by done). by rewrite bool_decide_false.
Qed.

(** ** Evidence *)

Definition inspected (w : answers) (b : GatewayPlanBinding) (target : Addr) (calls : list call) (e : Evidence) : Prop :=
  ∃ plan l l' r,
    canceled0 w = false ∧ canceled1 w = false ∧ canceled2 w = false ∧ canceled3 w = false ∧ present w = true ∧
    PreviewGatewayCheck b (AddrString target) (UTC (started w)) = Ok plan ∧
    before w = Ok l ∧ looked w = Ok r ∧ after w = Ok l' ∧
    enrolled (Binding plan) l ∧ enrolled (Binding plan) l' ∧ direct (Binding plan) target r (UTC (observed w)) ∧
    on_link l target (source r) ∧ on_link l' target (source r) ∧
    wall (started w) <= wall (observed w) <= wall (ended w) ∧ wall (ended w) - wall (started w) <= inspectionTimeout ∧
    IsZero (observed w) = false ∧ Year (Add (UTC (observed w)) GatewayReviewLifetime) <= 9999 ∧
    calls = [ReadInterface (GatewayPlan.InterfaceName (Binding plan)); LookupRoute target;
             ReadInterface (GatewayPlan.InterfaceName (Binding plan))] ∧
    e = mkEvidence (GatewayPlan.InterfaceName (Binding plan)) (GatewayPlan.InterfaceIndex (Binding plan)) (source r)
          (UTC (observed w)) (Add (UTC (observed w)) GatewayReviewLifetime).

Lemma elapsed_iff (t u : Time) d : canonical t → canonical u → 0 <= d <= max_int64 - 1 →
  (d <? Sub t u) = false ↔ wall t - wall u <= d.
Proof.
  intros Ht Hu Hd. rewrite Sub_wall by auto. rewrite Z.ltb_ge. unfold int64_saturate, min_int64, max_int64 in *. lia.
Qed.

Lemma Inspect_iff w b target calls e : Inspect w b target = (calls, Ok e) ↔ inspected w b target calls e.
Proof.
  unfold Inspect, inspected.
  destruct (canceled0 w); [naive_solver|]. destruct (present w); cbn [negb]; [|naive_solver].
  destruct (PreviewGatewayCheck _ _ _) as [plan|] eqn:Ep; [|naive_solver].
  destruct (before w) as [l|]; [|naive_solver].
  destruct (matchesBinding (Binding plan) l) eqn:Hl; cbn [negb].
  2: { split; [done|]. intros (? & ? & ? & ? & _ & _ & _ & _ & _ & [= <-] & [= <-] & _ & _ & H%matchesBinding_iff & _). congruence. }
  apply matchesBinding_iff in Hl.
  destruct (canceled1 w); [naive_solver|]. destruct (looked w) as [r|]; [|naive_solver].
  destruct (canceled2 w); [naive_solver|]. destruct (after w) as [l'|]; [|naive_solver].
  destruct (canceled3 w); [naive_solver|].
  rewrite !Before_wall by auto with cozy.
  pose proof (elapsed_iff (UTC (ended w)) (UTC (started w)) inspectionTimeout eq_refl eq_refl
    ltac:(unfold inspectionTimeout, max_int64, Second; lia)) as Hel.
  match goal with |- (if ?b then _ else _) = _ ↔ _ => destruct b eqn:Eg end.
  { split; [done|]. intros (? & ? & ? & ? & H). skip 14 in H. destruct H as (Ho & Hs & Hz & Hy & _).
    apply Hel in Hs. rewrite Hs in Eg. change (IsZero (UTC (observed w))) with (IsZero (observed w)) in Eg.
    rewrite Hz in Eg. cbn [UTC wall] in *. go_bool. lia. }
  rewrite !orb_false_iff, Hel, !Z.ltb_ge in Eg. cbn [UTC wall] in Eg. destruct Eg as ((((Ho1 & Ho2) & Hs) & Hz) & Hy).
  match goal with |- (if ?b then _ else _) = _ ↔ _ => destruct b eqn:Em end.
  - split; [done|]. intros (? & ? & ? & ? & _ & _ & _ & _ & _ & [= <-] & [= <-] & [= <-] & [= <-] & _ & H1 & H2 & H3 & H4 & _).
    apply matchesBinding_iff in H1. rewrite H1 in Em. cbn [negb orb] in Em.
    rewrite (proj2 (matchesRoute_iff _ _ _ _ _ _) (conj H2 (conj H3 H4))) in Em. done.
  - rewrite orb_false_iff, !negb_false_iff, matchesBinding_iff, matchesRoute_iff in Em. destruct Em as (Hl' & Hd & Ho & Ho').
    pose proof Hd as (_ & _ & _ & Hn & Hi & _). rewrite Hn, Hi. split.
    + intros [= <- <-]. exists plan, l, l', r. split_and!; done || lia.
    + intros (? & ? & ? & ? & H). skip 5 in H. destruct H as ([= <-] & [= <-] & [= <-] & [= <-] & H). skip 9 in H. by destruct H as [-> ->].
Qed.

(** What route evidence means.  [Inspect] returns evidence exactly when the context
    never ended, the target is an eligible gateway of the enrollment, the interface had
    the enrolled name, index, flags and networks before and after the lookup, and the
    kernel's route to the target is a direct one of that interface, without a gateway or
    any flag the code does not know, whose source is an address of the interface in a
    network with the target, before and after.  The reading of the clock between the two
    is the time of the evidence, at most two seconds after the first, and the operating
    system was asked exactly three times. *)
Theorem inspect_spec w b target calls e :
  Inspect w b target = (calls, Ok e) ↔ inspected w b target calls e.
Proof. apply Inspect_iff. Qed.

(** ** From evidence to an admitted selection *)

Lemma Year_bounds t : min_int64 <= wall t <= max_int64 + Minute → 1 <= Year t <= 9999.
Proof.
  intros H. unfold Year. set (z := wall t / (24 * Hour) + 719468).
  assert (Hz : 600000 <= z <= 900000).
  { unfold z, min_int64, max_int64, Minute, Hour, Minute, Second in *.
    assert (-110000 <= wall t / (24 * (60 * (60 * 1000000000)))) by (apply Z.div_le_lower_bound; lia).
    assert (wall t / (24 * (60 * (60 * 1000000000))) < 110000) by (apply Z.div_lt_upper_bound; lia). lia. }
  clearbody z. clear H. pose proof (Z.mod_pos_bound z 146097 ltac:(lia)) as Hd.
  assert (He : 4 <= z / 146097 <= 6).
  { split; [apply Z.div_le_lower_bound; lia|apply Z.lt_succ_r, Z.div_lt_upper_bound; lia]. }
  set (doe := z mod 146097) in *.
  assert (Hy : 0 <= (doe - doe / 1460 + doe / 36524 - doe / 146096) / 365 <= 401).
  { pose proof (Z.mul_div_le doe 1460 ltac:(lia)). pose proof (Z.mul_div_le doe 36524 ltac:(lia)).
    pose proof (Z.mul_div_le doe 146096 ltac:(lia)). pose proof (Z.div_pos doe 1460 ltac:(lia) ltac:(lia)).
    pose proof (Z.div_pos doe 36524 ltac:(lia) ltac:(lia)). pose proof (Z.div_pos doe 146096 ltac:(lia) ltac:(lia)).
    assert (0 <= doe - doe / 1460 + doe / 36524 - doe / 146096 <= 146100) by lia.
    split; [apply Z.div_pos; lia|apply Z.lt_succ_r, Z.div_lt_upper_bound; lia]. }
  destruct (_ <? 10); lia.
Qed.

Lemma valid_clock t : validTime t = true → clock_wf (UTC t).
Proof.
  intros Hv. pose proof Hv as Hi%validTime_spec. unfold in_int64 in Hi. go_bool.
  split; [by apply validTime_nonzero in Hv|].
  split; apply Year_bounds; rewrite ?wall_Add; unfold GatewayReviewLifetime, Minute, Second; simpl; lia.
Qed.

(** The plan of a binding does not depend on the time, apart from its dates. *)
Lemma preview_later b t now now' plan :
  PreviewGatewayCheck b t now = Ok plan → clock_wf (UTC now') →
  PreviewGatewayCheck b t now' =
    Ok (mkGatewayCheckPlan (Binding plan) (Target plan) (UTC now') (Add (UTC now') GatewayReviewLifetime) gatewayBudget).
Proof.
  intros (m & ps & Hm & -> & Hp & Hb & _ & Hps & Hex & ->)%preview_iff Hc. apply preview_iff. exists m, ps. done.
Qed.

Lemma preview_dates b t now plan :
  PreviewGatewayCheck b t now = Ok plan →
  CreatedAt plan = UTC now ∧ ReviewExpiresAt plan = Add (UTC now) GatewayReviewLifetime ∧ Budget plan = gatewayBudget.
Proof. intros (m & ps & H)%preview_iff. skip 7 in H. by subst. Qed.

(** C17: evidence and admission fit together.  A selection that [preflightGatewayRun]
    builds, from a plan of the enrollment, evidence of the inspector and the collection
    checks, is accepted by the run control's [normalize], at the time of the collection
    and at every later time up to the first of its two deadlines. *)
Theorem preflight_accepted b target created plan w calls inspect c p c' now e cur sel at_ :
  PreviewGatewayCheck b (AddrString target) created = Ok plan →
  Inspect w (Binding plan) (Target plan) = (calls, inspect) →
  collectGatewayRouteEvidence c p inspect c' now plan = Ok e →
  preflightGatewayRun (Target plan) plan (Ok e) cur = Some sel →
  validTime created = true → validTime at_ = true → canonical at_ →
  wall now <= wall at_ → wall at_ < wall (FreshUntil e) → wall at_ < wall (ReviewExpiresAt plan) →
  ∃ sel', Gateway.normalize sel (Target plan) at_ = Some sel' ∧
    Gateway.Source sel' = SourceAddress e ∧ Gateway.RouteObservedAt sel' = ObservedAt e ∧
    Gateway.RouteFreshUntil sel' = FreshUntil e.
Proof.
  intros Hpl Hins Hcol Hpre Hvc Hva Hca Hnow Hfr Hrv.
  unfold collectGatewayRouteEvidence in Hcol. apply guard_ok in Hcol as [_ Hcol]. apply guard_ok in Hcol as [_ Hcol].
  apply guard_ok in Hcol as [_ Hcol]. destruct inspect as [e'|]; [|done]. apply guard_ok in Hcol as [Hg Hcol].
  apply guard_ok in Hcol as [_ [= ->]].
  apply Inspect_iff in Hins as (plan2 & l & l' & r & H). skip 5 in H.
  destruct H as (Hp2 & H). skip 5 in H. destruct H as (Hd & He). skip 7 in He.
  unfold preflightGatewayRun in Hpre. destruct cur as [cur|]; [|done]. destruct (PreviewGatewayCheck cur _ _) as [can|]; [|done].
  destruct (bool_decide (Binding can = Binding plan)); [|done]. injection Hpre as <-.
  destruct (preview_dates _ _ _ _ Hpl) as (Hcre & Hexp & Hbud).
  pose proof (preview_later _ _ _ (CreatedAt plan) _ Hp2) as Hpc.
  rewrite Hcre in Hpc. specialize (Hpc (valid_clock _ Hvc)).
  rename Hd into Hsrc. skip 12 in Hsrc.
  destruct (PreviewGatewayCheck (Binding plan2) _ _) as [ps|] eqn:Esrc in Hsrc; [|done].
  pose proof (preview_later _ _ _ at_ _ Esrc (valid_clock _ Hva)) as Hps.
  assert (Hco : canonical (ObservedAt e)) by by rewrite He.
  rewrite !orb_false_iff, !negb_false_iff in Hg. destruct Hg as ((((((((_ & _) & Hne) & Hz) & Hb) & Ha) & Heq) & _) & _).
  rewrite Before_wall in Hb by auto with cozy. rewrite After_wall in Ha by auto with cozy. rewrite Hcre in Hb.
  cbn [UTC wall] in Hb, Ha. go_bool.
  unfold Gateway.normalize. cbn [Gateway.Plan Gateway.Source Gateway.RouteObservedAt Gateway.RouteFreshUntil].
  rewrite Hcre, Hexp in *. rewrite bool_decide_true by done.
  rewrite !After_wall, Before_wall by auto with cozy. rewrite He in *. simpl in *.
  assert (Hvo : validTime (UTC (observed w)) = true).
  { rewrite validTime_eq in Hvc, Hva |- *. unfold in_int64 in *. simpl. go_bool. split; lia. }
  rewrite Hva, Hvo, Heq, (bool_decide_false _ Hne).
  replace (validTime (UTC created)) with true by (by rewrite validTime_eq in Hvc |- *).
  rewrite !(proj2 (Z.ltb_ge _ _)), !(proj2 (Z.ltb_lt _ _)) by lia. cbn [negb orb].
  rewrite Hpc. cbn [Budget ReviewExpiresAt Binding]. rewrite Hbud, bool_decide_true, Equal_wall by (done || by left).
  rewrite After_wall by (by left). simpl. rewrite Z.eqb_refl, (proj2 (Z.ltb_lt _ _)) by lia. cbn [negb orb]. rewrite Hps.
  eexists. done.
Qed.

(** A laptop on the network of the plan's example. *)
Definition laptop : localInterface :=
  mkLocal "en0" 4 0x33 [mkPrefix (V4 3232235796) 24; mkPrefix (V4 3232235796) 16].
Definition home_route : route :=
  mkRoute (mkPrefix (V4 3232235776) 24) "en0" 4 (V4 3232235796) (Z.lor flagUp (Z.lor flagDone flagCloning)) 4.
Definition home_answers : answers :=
  mkAnswers false true home_time (Ok laptop) false (Ok home_route) home_time false (Ok laptop) false home_time.
Definition home_gateway : Addr := V4 3232235777.
Definition home_evidence : Evidence :=
  mkEvidence "en0" 4 (V4 3232235796) (UTC home_time) (Add (UTC home_time) GatewayReviewLifetime).
Definition home_plan : GatewayCheckPlan :=
  mkGatewayCheckPlan (mkGatewayPlanBinding "scope.home" "en0" 4 ["192.168.0.0/16"; "192.168.1.0/24"])
    home_gateway (UTC home_time) (Add (UTC home_time) GatewayReviewLifetime) gatewayBudget.

Example inspect_home :
  Inspect home_answers home_binding home_gateway =
    ([ReadInterface "en0"; LookupRoute home_gateway; ReadInterface "en0"], Ok home_evidence).
Proof. vm_compute. reflexivity. Qed.
(** A route through a gateway or a point-to-point interface is no evidence. *)
Example inspect_gateway_hop :
  snd (Inspect (mkAnswers false true home_time (Ok laptop) false
         (Ok (mkRoute (mkPrefix (V4 3232235776) 24) "en0" 4 (V4 3232235796) 0x43 0)) home_time false (Ok laptop) false home_time)
         home_binding home_gateway) = Err ErrMismatch.
Proof. vm_compute. reflexivity. Qed.
Example inspect_vpn :
  Inspect (mkAnswers false true home_time (Ok (mkLocal "en0" 4 0x9 (addresses laptop))) false (Ok home_route) home_time false
         (Ok laptop) false home_time) home_binding home_gateway = ([ReadInterface "en0"], Err ErrMismatch).
Proof. vm_compute. reflexivity. Qed.

Lemma preflight_accepted_witness :
  ∃ sel', Gateway.normalize
      (Gateway.mkSelection home_plan (V4 3232235796) (UTC home_time) (Add (UTC home_time) GatewayReviewLifetime))
      home_gateway (Add (UTC home_time) (20 * Second)) = Some sel' ∧ Gateway.Source sel' = V4 3232235796.
Proof.
  destruct (preflight_accepted home_binding home_gateway home_time home_plan home_answers
    [ReadInterface "en0"; LookupRoute home_gateway; ReadInterface "en0"] (Ok home_evidence) false true false
    (Add home_time Second) home_evidence (Some home_binding)
    (Gateway.mkSelection home_plan (V4 3232235796) (UTC home_time) (Add (UTC home_time) GatewayReviewLifetime))
    (Add (UTC home_time) (20 * Second))) as (sel' & Hsel & Hsrc & _).
  1-7: vm_compute; reflexivity.
  1: vm_compute; discriminate.
  1-2: vm_compute; reflexivity.
  exists sel'. split; [exact Hsel|exact Hsrc].
Defined.

End RouteInspect.
