(* ===== verification/CheckRoute.v ===== *)
(** * Route inspection for resolver and HTTPS checks

    [checkroute/inspect.go], [resolverroute/inspect.go] and [httpsroute/inspect.go]: local
    route and interface metadata is read around a route lookup and turned into a review
    plan.  Unlike the gateway check, a route through a gateway is allowed, when the
    gateway itself is on a network of the enrolled interface.  The theorems say which
    evidence exists and that the selections built from it are accepted by the run
    controls. *)

From stdpp Require Import gmap strings.
From S2P Require Import Prelude GoTime NetAddr CheckBinding Quality RunControl RouteMessage RouteInspect.
From S2P Require Import ResolverQuality ResolverWire ResolverPlan ResolverRun HTTPSQuality HTTPSPlan HTTPSRun.

Module CheckRoute.
Import RouteMessage.

Definition Freshness : Duration := 30 * Second.
Definition inspectionTimeout : Duration := 2 * Second.
Definition maxInterfaceAddresses : Z := 128.

Record Enrollment := mkEnrollment { eObserver : Quality.Observer; ePrefixes : list string }.

Record Evidence := mkEvidence {
  Source : Addr;
  ObservedAt : Time;
  FreshUntil : Time;
  CompletedAt : Time;
}.

Notation localInterface := RouteInspect.localInterface.
Notation lname := RouteInspect.lname.
Notation lindex := RouteInspect.lindex.
Notation lflags := RouteInspect.lflags.
Notation addresses := RouteInspect.addresses.

Record observedRoute := mkObserved {
  destination : Prefix;
  source : Addr;
  name : string;
  index : Z;
  gateway : Addr;
  gatewayZone : Z;
  linkIndex : Z;
}.

(** A prefix whose network goes into the map [set]. *)
Definition routable (p : Prefix) : bool :=
  let a := paddr p in Binding.IsGlobalUnicast a && negb (IsLoopback a) && negb (IsLinkLocalUnicast a).

(** The loop that removes the enrolled prefixes from it. *)
Fixpoint remove_all (ps : list string) (seen : gset string) : option (gset string) :=
  match ps with
  | [] => Some seen
  | p :: ps => if bool_decide (p ∈ seen) then remove_all ps (seen ∖ {[p]}) else None
  end.

Definition matchesEnrollment (e : Enrollment) (l : localInterface) : bool :=
  if (lname l != Quality.InterfaceName (eObserver e)) || negb (lindex l =? Quality.InterfaceIndex (eObserver e)) ||
     (Z.land (lflags l) RouteInspect.FlagUp =? 0) ||
     negb (Z.land (lflags l) (Z.lor RouteInspect.FlagLoopback RouteInspect.FlagPointToPoint) =? 0) ||
     (llen (addresses l) =? 0) || (maxInterfaceAddresses <? llen (addresses l))
  then false
  else
    match RouteInspect.collect routable (addresses l) ∅ with
    | None => false
    | Some set =>
        if negb (Z.of_nat (size set) =? llen (ePrefixes e)) then false
        else match remove_all (ePrefixes e) set with Some rest => (size rest =? 0)%nat | None => false end
    end.

(** The loop over the addresses of one interface: whether the source and the gateway were
    found; [None] is the early [return false]. *)
Fixpoint reaches (l : list Prefix) (target : Addr) (r : observedRoute) (src gw : bool) : option (bool * bool) :=
  match l with
  | [] => Some (src, gw)
  | p :: l =>
      let via := IsValid (gateway r) in
      if (paddr p == target) || (via && (paddr p == gateway r)) then None
      else reaches l target r (src || ((paddr p == source r) && (via || Contains p target)))
             (gw || (via && Contains p (gateway r)))
  end.

Definition matchesRoute (e : Enrollment) (target : Addr) (r : observedRoute) (before after : localInterface) : bool :=
  if (name r != Quality.InterfaceName (eObserver e)) || negb (index r =? Quality.InterfaceIndex (eObserver e)) ||
     negb (RouteInspect.PrefixIsValid (destination r)) || (destination r != Masked (destination r)) ||
     negb (Contains (destination r) target) || negb (IsValid (source r)) ||
     negb (Bool.eqb (Is4 (source r)) (Is4 target))
  then false
  else if
    (if IsValid (gateway r) then
       if negb (linkIndex r =? 0) || negb (Bool.eqb (Is4 (gateway r)) (Is4 target)) || IsUnspecified (gateway r) ||
          IsLoopback (gateway r) || IsMulticast (gateway r) || Is4In6 (gateway r) ||
          (gateway r == source r) || (gateway r == target)
       then true
       else if IsLinkLocalUnicast (gateway r) then Is4 (gateway r) || negb (gatewayZone r =? index r)
       else negb (Binding.IsGlobalUnicast (gateway r)) || negb (gatewayZone r =? 0)
     else negb (linkIndex r =? index r))
  then false
  else
    forallb (λ l,
      match reaches (addresses l) target r false false with
      | None => false
      | Some (src, gw) => negb (negb src || (IsValid (gateway r) && negb gw))
      end) [before; after].

(** The answers, in the order in which [Inspect] asks. *)
Record answers := mkAnswers {
  canceled0 : bool;
  present : bool;
  started : Time;
  before : result err localInterface;
  canceled1 : bool;
  looked : result err observedRoute;
  observed : Time;
  canceled2 : bool;
  after : result err localInterface;
  ended : Time;
  canceled3 : bool;
}.

Definition Inspect (w : answers) (e : Enrollment) (target : Addr) : result err Evidence :=
  guard? canceled0 w else ErrCtx in
  guard? negb (present w) else ErrUnavailable in
  let start := started w in
  guard? negb (validTime start) || negb (validTime (Add start Freshness)) else ErrUnavailable in
  guard? negb (is_ok (Quality.ValidateSnapshot (Quality.mkSnapshot (eObserver e) start start Second [] []))) ||
         negb (Binding.EligibleHost target) || (llen (ePrefixes e) =? 0) || (32 <? llen (ePrefixes e))
  else ErrMismatch in
  guard? existsb (λ p, 64 <? slen p) (ePrefixes e) else ErrMismatch in
  let? before := before w in
  guard? negb (matchesEnrollment e before) else ErrMismatch in
  guard? canceled1 w else ErrCtx in
  let? r := looked w in
  let observed := observed w in
  guard? canceled2 w else ErrCtx in
  let? after := after w in
  let now := ended w in
  guard? canceled3 w else ErrCtx in
  guard? negb (validTime observed) || negb (validTime (Add observed Freshness)) || negb (validTime now) ||
         Before observed start || Before now observed || (inspectionTimeout <=? Sub now start) ||
         (inspectionTimeout <=? Sub (Round0 now) (Round0 start))
  else ErrUnavailable in
  guard? negb (matchesEnrollment e after) || negb (matchesRoute e target r before after) else ErrMismatch in
  match Binding.Validate (source r) target (ePrefixes e) with
  | Err _ => Err ErrMismatch
  | Ok _ =>
      Ok (mkEvidence (source r) (UTC (Round0 observed)) (Add (UTC (Round0 observed)) Freshness) (UTC (Round0 now)))
  end.

(** ** What the checks say *)

Definition networks : list Prefix → gset string := RouteInspect.kept routable.

Lemma remove_all_spec ps seen rest :
  remove_all ps seen = Some rest ↔ NoDup ps ∧ list_to_set ps ⊆ seen ∧ rest = seen ∖ list_to_set ps.
Proof.
  revert seen. induction ps as [|p ps IH]; intros seen; cbn [remove_all].
  { simpl. rewrite difference_empty_L. split; [intros [= ->]|by intros (_ & _ & ->)].
    split_and!; [constructor|apply empty_subseteq|done]. }
  rewrite NoDup_cons. destruct (bool_decide_reflect (p ∈ seen)) as [Hin|Hin].
  - rewrite IH. simpl. rewrite difference_difference_l_L. split.
    + intros (Hn & Hs & ->). split_and!; try done; set_solver.
    + intros ((Hp & Hn) & Hs & ->). split_and!; try done. set_solver.
  - split; [done|]. intros (_ & Hs & _). set_solver.
Qed.

(** The interface of the enrollment: up, neither loopback nor point to point, with the
    enrolled prefixes, listed once, as its networks. *)
Definition enrolled (e : Enrollment) (l : localInterface) : Prop :=
  lname l = Quality.InterfaceName (eObserver e) ∧ lindex l = Quality.InterfaceIndex (eObserver e) ∧
  Z.testbit (lflags l) 0 = true ∧ Z.testbit (lflags l) 2 = false ∧ Z.testbit (lflags l) 3 = false ∧
  1 <= llen (addresses l) <= maxInterfaceAddresses ∧ Forall RouteInspect.sound_prefix (addresses l) ∧
  NoDup (ePrefixes e) ∧ networks (addresses l) = list_to_set (ePrefixes e).

Lemma matchesEnrollment_iff e l : matchesEnrollment e l = true ↔ enrolled e l.
Proof.
  unfold matchesEnrollment, enrolled. change RouteInspect.FlagUp with (Z.shiftl 1 0).
  rewrite land_bit, RouteInspect.flags_clear by lia.
  destruct (RouteInspect.collect routable (addresses l) ∅) as [set|] eqn:E.
  - apply RouteInspect.collect_spec in E as [Hs ->]. rewrite (right_id_L ∅ (∪)).
    change (RouteInspect.kept routable) with networks. unfold llen in *. split.
    + intros H. destruct (_ || _) eqn:Eg in H; [done|].
      destruct (negb (_ =? Z.of_nat (length (ePrefixes e)))) eqn:Esz in H; [done|].
      destruct (remove_all _ _) as [rest|] eqn:Er; [|done]. apply remove_all_spec in Er as (Hn & Hsub & ->).
      apply Nat.eqb_eq, size_empty_inv in H. go_bool. split_and!; try done; try lia.
      apply set_eq. intros x. split; [|set_solver]. intros Hx.
      destruct (decide (x ∈@{gset string} list_to_set (ePrefixes e))); set_solver.
    + intros (-> & -> & -> & -> & -> & Hl & _ & Hn & Heq). rewrite bool_decide_true by done. rewrite Z.eqb_refl. cbn [negb orb andb].
      rewrite (proj2 (Z.eqb_neq _ _)), (proj2 (Z.ltb_ge _ _)) by (unfold maxInterfaceAddresses in *; lia). cbn [orb].
      rewrite Heq, size_list_to_set, Z.eqb_refl by done. cbn [negb].
      rewrite (proj2 (remove_all_spec _ _ _)) by (split_and!; done). rewrite difference_diag_L. done.
  - split; [by destruct (_ || _)|]. intros (_ & _ & _ & _ & _ & _ & Hs & _).
    pose proof (proj2 (RouteInspect.collect_spec routable (addresses l) ∅ _) (conj Hs eq_refl)). congruence.
Qed.

(** Neither the target nor the gateway is an address of the interface, the source is one,
    and the next hop, the gateway or the target itself, is in one of its networks. *)
Definition reachable (l : list Prefix) (target : Addr) (r : observedRoute) : Prop :=
  Forall (λ p, paddr p ≠ target ∧ (IsValid (gateway r) = true → paddr p ≠ gateway r)) l ∧
  if IsValid (gateway r)
  then Exists (λ p, paddr p = source r) l ∧ Exists (λ p, Contains p (gateway r) = true) l
  else Exists (λ p, paddr p = source r ∧ Contains p target = true) l.

Lemma reaches_spec l target r src gw out :
  reaches l target r src gw = Some out ↔
  Forall (λ p, paddr p ≠ target ∧ (IsValid (gateway r) = true → paddr p ≠ gateway r)) l ∧
  out = (src || existsb (λ p, (paddr p == source r) && (IsValid (gateway r) || Contains p target)) l,
         gw || existsb (λ p, IsValid (gateway r) && Contains p (gateway r)) l).
Proof.
  revert src gw. induction l as [|p l IH]; intros src gw; cbn [reaches existsb].
  { rewrite !orb_false_r. split; [by intros [= <-]|by intros [_ ->]]. }
  rewrite Forall_cons. destruct (_ || _) eqn:E.
  - split; [done|]. intros [[[H1 H2] _] _]. rewrite (bool_decide_false _ H1) in E. simpl in E. go_bool. naive_solver.
  - rewrite IH, !orb_assoc. go_bool.
    assert (Hp : paddr p ≠ target ∧ (IsValid (gateway r) = true → paddr p ≠ gateway r)).
    { split; [done|]. intros Hv. destruct H0 as [H0|H0]; [congruence|]. by apply bool_decide_eq_false in H0. }
    naive_solver.
Qed.

Lemma reaches_iff l target r :
  match reaches l target r false false with
  | None => false
  | Some (src, gw) => negb (negb src || (IsValid (gateway r) && negb gw))
  end = true ↔ reachable l target r.
Proof.
  pose proof (reaches_spec l target r false false) as Hs. unfold reachable.
  destruct (reaches l target r false false) as [[src gw]|].
  - destruct (proj1 (Hs _) eq_refl) as [Hf Heq]. injection Heq as -> ->. clear Hs. cbn [orb].
    rewrite negb_true_iff, orb_false_iff, negb_false_iff.
    destruct (IsValid (gateway r)); cbn [orb andb].
    + rewrite negb_false_iff, !existsb_true_iff. split.
      * intros [H1 H2]. split; [done|]. split; [|done]. eapply Exists_impl; [exact H1|]. intros p Hp. simpl in Hp. by go_bool.
      * intros (_ & H1 & H2). split; [|done]. eapply Exists_impl; [exact H1|]. intros p Hp. simpl. rewrite andb_true_r. by go_bool.
    + rewrite existsb_true_iff. split.
      * intros [H1 _]. split; [done|]. eapply Exists_impl; [exact H1|]. intros p Hp. simpl in Hp. by go_bool.
      * intros (_ & H1). split; [|done]. eapply Exists_impl; [exact H1|]. intros p [Hp Hc]. simpl. rewrite Hc, andb_true_r. by go_bool.
  - split; [done|]. intros [Hf _]. by pose proof (proj2 (Hs _) (conj Hf eq_refl)).
Qed.

(** The next hop: the interface itself, or a unicast gateway of the target's family that
    is neither end of the exchange; a link-local one carries the interface as its zone. *)
Definition hop_ok (target : Addr) (r : observedRoute) : Prop :=
  if IsValid (gateway r) then
    linkIndex r = 0 ∧ Is4 (gateway r) = Is4 target ∧ IsUnspecified (gateway r) = false ∧ IsLoopback (gateway r) = false ∧
    IsMulticast (gateway r) = false ∧ Is4In6 (gateway r) = false ∧ gateway r ≠ source r ∧ gateway r ≠ target ∧
    (if IsLinkLocalUnicast (gateway r) then Is4 (gateway r) = false ∧ gatewayZone r = index r
     else Binding.IsGlobalUnicast (gateway r) = true ∧ gatewayZone r = 0)
  else linkIndex r = index r.

Definition route_ok (e : Enrollment) (target : Addr) (r : observedRoute) : Prop :=
  name r = Quality.InterfaceName (eObserver e) ∧ index r = Quality.InterfaceIndex (eObserver e) ∧
  RouteInspect.PrefixIsValid (destination r) = true ∧ destination r = Masked (destination r) ∧
  Contains (destination r) target = true ∧ IsValid (source r) = true ∧ Is4 (source r) = Is4 target ∧ hop_ok target r.

Lemma check_matchesRoute_iff e target r l l' :
  matchesRoute e target r l l' = true ↔
  route_ok e target r ∧ reachable (addresses l) target r ∧ reachable (addresses l') target r.
Proof.
  unfold matchesRoute, route_ok. rewrite <- !reaches_iff. cbn [forallb]. rewrite andb_true_r.
  match goal with |- (if ?a then _ else if ?b then _ else _) = _ ↔ _ =>
    assert (Hb : b = false ↔ hop_ok target r) end.
  { unfold hop_ok. destruct (IsValid (gateway r)); [|by rewrite negb_false_iff, Z.eqb_eq].
    match goal with |- (if ?c then _ else _) = _ ↔ _ => destruct c eqn:E end.
    - split; [done|]. intros (E1 & E2 & E3 & E4 & E5 & E6 & H1 & H2 & _).
      rewrite E1, E2, E3, E4, E5, E6, (bool_decide_false _ H1), (bool_decide_false _ H2), Bool.eqb_reflx in E. done.
    - rewrite !orb_false_iff, !negb_false_iff, Bool.eqb_true_iff, !bool_decide_eq_false, Z.eqb_eq in E.
      destruct (IsLinkLocalUnicast (gateway r)); rewrite orb_false_iff, ?negb_false_iff, Z.eqb_eq; tauto. }
  match goal with |- (if ?a then _ else _) = _ ↔ _ => destruct a eqn:E end.
  - split; [done|]. intros ((E1 & E2 & E3 & E4 & E5 & E6 & E7 & _) & _).
    rewrite (bool_decide_true _ E1), (bool_decide_true _ E4), E2, E3, E5, E6, E7, Z.eqb_refl, Bool.eqb_reflx in E. done.
  - rewrite !orb_false_iff, !negb_false_iff, Bool.eqb_true_iff, !bool_decide_eq_true, Z.eqb_eq in E.
    match goal with |- (if ?b then _ else _) = _ ↔ _ => destruct b end.
    + split; [done|]. intros [Hh _]. skip 7 in Hh. by apply Hb in Hh.
    + rewrite andb_true_iff. pose proof (proj1 Hb eq_refl). tauto.
Qed.

(** ** Evidence *)

Definition inspected (w : answers) (e : Enrollment) (target : Addr) (ev : Evidence) : Prop :=
  ∃ l l' r sorted,
    canceled0 w = false ∧ canceled1 w = false ∧ canceled2 w = false ∧ canceled3 w = false ∧ present w = true ∧
    before w = Ok l ∧ looked w = Ok r ∧ after w = Ok l' ∧
    validTime (started w) = true ∧ validTime (Add (started w) Freshness) = true ∧
    validTime (observed w) = true ∧ validTime (Add (observed w) Freshness) = true ∧ validTime (ended w) = true ∧
    Before (observed w) (started w) = false ∧ Before (ended w) (observed w) = false ∧
    Sub (ended w) (started w) < inspectionTimeout ∧ wall (ended w) - wall (started w) < inspectionTimeout ∧
    Quality.ValidateSnapshot (Quality.mkSnapshot (eObserver e) (started w) (started w) Second [] []) = Ok tt ∧
    Forall (λ p, slen p <= 64) (ePrefixes e) ∧
    enrolled e l ∧ enrolled e l' ∧ route_ok e target r ∧
    reachable (addresses l) target r ∧ reachable (addresses l') target r ∧
    Binding.Validate (source r) target (ePrefixes e) = Ok sorted ∧
    ev = mkEvidence (source r) (UTC (observed w)) (Add (UTC (observed w)) Freshness) (UTC (ended w)).

Lemma prefixes_short (l : list string) : existsb (λ p, 64 <? slen p) l = false ↔ Forall (λ p, slen p <= 64) l.
Proof.
  rewrite <- not_true_iff_false, existsb_true_iff.
  induction l as [|p l IH].
  - split; [constructor|]. intros _ H. inversion H.
  - rewrite Forall_cons, Exists_cons, <- IH, Z.ltb_lt. split; [|intros [? ?] [?|?]; lia || done].
    intros H. split; [|tauto]. apply Z.nlt_ge. tauto.
Qed.

Lemma wall_elapsed (t u : Time) : (inspectionTimeout <=? Sub (Round0 t) (Round0 u)) = (inspectionTimeout <=? wall t - wall u).
Proof. rewrite Sub_wall by auto with cozy. apply saturate_geb. unfold inspectionTimeout, min_int64, max_int64, Second. lia. Qed.

Lemma check_Inspect_iff w e target ev : Inspect w e target = Ok ev ↔ inspected w e target ev.
Proof.
  unfold Inspect, inspected. rewrite !guard_ok, !orb_false_iff, !negb_false_iff, prefixes_short, is_ok_true. split.
  - intros (H0 & Hp & Hst & Hsn & Hsh & H). apply res_bind_ok in H as (l & Hl & H).
    apply guard_ok in H as [Hm H]. apply guard_ok in H as [H1 H]. apply res_bind_ok in H as (r & Hr & H).
    apply guard_ok in H as [H2 H]. apply res_bind_ok in H as (l' & Hl' & H). apply guard_ok in H as [H3 H].
    apply guard_ok in H as [Ht H]. apply guard_ok in H as [Hm' H].
    destruct (Binding.Validate _ _ _) as [sorted|] eqn:Ev; [|done]. injection H as <-.
    rewrite wall_elapsed, !orb_false_iff, !negb_false_iff, !Z.leb_gt in Ht.
    rewrite orb_false_iff, !negb_false_iff, matchesEnrollment_iff, check_matchesRoute_iff in Hm'.
    rewrite negb_false_iff, matchesEnrollment_iff in Hm. destruct Hsn as [[[[[] Hsn] He] _] _].
    exists l, l', r, sorted. tauto.
  - intros (l & l' & r & sorted & H0 & H1 & H2 & H3 & Hp & Hl & Hr & Hl' & Hst & Hst' & Hob & Hob' & Hen & Hb1 & Hb2 & Hs1 & Hs2 &
      Hsn & Hsh & Hm & Hm' & Hro & Hre & Hre' & Hv & ->).
    destruct sorted as [sorted member]. pose proof Hv as (ps & _ & Helig & _ & _ & Hlen & _)%Binding.validate_binding.
    unfold llen. split_and!; try done; try lia; [eauto|].
    apply res_bind_ok. exists l. split; [done|]. apply guard_ok. rewrite negb_false_iff, matchesEnrollment_iff. split; [done|].
    apply guard_ok. split; [done|]. apply res_bind_ok. exists r. split; [done|]. apply guard_ok. split; [done|].
    apply res_bind_ok. exists l'. split; [done|]. apply guard_ok. split; [done|]. apply guard_ok. split.
    { rewrite wall_elapsed, !orb_false_iff, !negb_false_iff, !Z.leb_gt. tauto. }
    apply guard_ok. rewrite orb_false_iff, !negb_false_iff, matchesEnrollment_iff, check_matchesRoute_iff. split; [done|].
    by rewrite Hv.
Qed.

(** What route evidence for a resolver or HTTPS check means.  [Inspect] returns
    evidence exactly when the clock is sane and at most two seconds passed, the interface
    had the enrolled identity and exactly the enrolled prefixes as its networks before and
    after the lookup, the route to the target leaves through that interface, directly or
    by a gateway on one of its networks that is neither end, the source is an address of
    the interface both times, and the binding check accepts source, target and prefixes. *)
Theorem check_inspect_spec w e target ev : Inspect w e target = Ok ev ↔ inspected w e target ev.
Proof. apply check_Inspect_iff. Qed.

(** ** From evidence to a selection *)

(** [resolverroute.Inspect]; the DNS library is a parameter of the plan. *)
Definition resolverInspect {Name} (NewName : string → option Name) (Pack : Z → Name → Z → option (list Z))
    (canceled present canceled' : bool) (w : answers) (e : Enrollment) (c : ResolverPlan.Configuration)
  : result err ResolverRun.Selection :=
  guard? canceled else ErrCtx in
  guard? negb (is_ok (ResolverPlan.ValidateConfiguration NewName Pack c)) else ErrMismatch in
  guard? negb present else ErrUnavailable in
  let? r := Inspect w e (Wire.ap_addr (ResolverPlan.Endpoint c)) in
  guard? canceled' else ErrCtx in
  match ResolverPlan.New NewName Pack (ResolverPlan.mkBinding (eObserver e) (ePrefixes e) (Source r)) c (CompletedAt r) with
  | Err _ => Err ErrMismatch
  | Ok p => Ok (ResolverRun.mkSelection p (ObservedAt r) (FreshUntil r))
  end.

(** [httpsroute.Inspect] *)
Definition httpsInspect (canceled present canceled' : bool) (w : answers) (e : Enrollment) (c : HTTPSPlan.Configuration)
  : result err HTTPSRun.Selection :=
  guard? canceled else ErrCtx in
  guard? negb (is_ok (HTTPSPlan.ValidateConfiguration c)) else ErrMismatch in
  guard? negb present else ErrUnavailable in
  let? r := Inspect w e (Wire.ap_addr (HTTPSPlan.Endpoint c)) in
  guard? canceled' else ErrCtx in
  match HTTPSPlan.New (HTTPSPlan.mkBinding (eObserver e) (ePrefixes e) (Source r)) c (CompletedAt r) with
  | Err _ => Err ErrMismatch
  | Ok p => Ok (HTTPSRun.mkSelection p (ObservedAt r) (FreshUntil r))
  end.

(** The dates of evidence from a steady clock. *)
Lemma inspected_dates boot w e target ev :
  Inspect w e target = Ok ev → steady boot (started w) → steady boot (observed w) → steady boot (ended w) →
  canonical (ObservedAt ev) ∧ FreshUntil ev = Add (ObservedAt ev) Freshness ∧ validTime (ObservedAt ev) = true ∧
  wall (ObservedAt ev) <= wall (CompletedAt ev) ∧ wall (CompletedAt ev) < wall (FreshUntil ev).
Proof.
  intros (l & l' & r & sorted & H)%check_Inspect_iff Hst Hso Hse. skip 10 in H.
  destruct H as (Hob & _ & _ & Hb1 & Hb2 & _ & Hs & H). skip 8 in H. subst.
  rewrite (Before_steady boot) in Hb1, Hb2 by done. go_bool. rewrite validTime_eq in Hob.
  split_and!; try done; simpl; [by rewrite validTime_eq|]. unfold inspectionTimeout, Freshness, Second in *. lia.
Qed.

Section Accepted.
Context {Name : Type} (NewName : string → option Name) (Pack : Z → Name → Z → option (list Z)).

(** Inspection and admission fit together.  With a steady clock, a selection that
    [resolverroute.Inspect] returns is accepted by the resolver run control's [normalize]
    under the selection's own identifier, from the moment the inspection completed until
    the route evidence or the review expires, and it is accepted unchanged; the plan pins
    the configuration, the enrolled prefixes and the inspected source. *)
Theorem resolver_inspect_accepted boot canceled present canceled' w e c sel at_ :
  resolverInspect NewName Pack canceled present canceled' w e c = Ok sel →
  steady boot (started w) → steady boot (observed w) → steady boot (ended w) →
  canonical at_ → validTime at_ = true → wall (ended w) <= wall at_ → wall at_ < wall (observed w) + Freshness →
  ResolverRun.normalize sel (Resolver.SelectionID (ResolverPlan.cSelection c)) at_ = Some sel ∧
  ∃ ev, Inspect w e (Wire.ap_addr (ResolverPlan.Endpoint c)) = Ok ev ∧
    ResolverPlan.Source (ResolverPlan.dBinding (ResolverPlan.review (ResolverRun.sPlan sel))) = Source ev ∧
    ResolverPlan.bObserver (ResolverPlan.dBinding (ResolverPlan.review (ResolverRun.sPlan sel))) = eObserver e ∧
    ResolverPlan.Prefixes (ResolverPlan.dBinding (ResolverPlan.review (ResolverRun.sPlan sel))) ≡ₚ ePrefixes e.
Proof.
  unfold resolverInspect. intros [_ H]%guard_ok Hs1 Hs2 Hs3 Hca Hva Hle Hlt.
  apply guard_ok in H as [_ H]. apply guard_ok in H as [_ H]. apply res_bind_ok in H as (ev & Hev & H).
  apply guard_ok in H as [_ H]. destruct (ResolverPlan.New _ _ _ _ _) as [p|] eqn:Ep; [|done]. injection H as <-.
  apply ResolverPlan.new_iff in Ep as (sorted & member & _ & _ & _ & _ & Hval & _ & ->).
  destruct (inspected_dates boot _ _ _ _ Hev Hs1 Hs2 Hs3) as (Hco & Hfu & Hvo & Hoc & Hcf).
  pose proof Hev as Hev'. apply check_Inspect_iff in Hev' as (l & l' & r & so & Eev). skip 25 in Eev.
  split.
  - unfold ResolverRun.normalize, ResolverPlan.Current. cbn [ResolverRun.sPlan ResolverRun.RouteObservedAt ResolverRun.RouteFreshUntil].
    cbn [ResolverPlan.built ResolverPlan.review ResolverPlan.dProfile ResolverPlan.CreatedAt ResolverPlan.ExpiresAt
         ResolverPlan.dConfiguration ResolverPlan.cSelection].
    rewrite !bool_decide_true, Hva, Hvo by done. rewrite !Before_wall, !After_wall by auto with cozy.
    rewrite Hfu, Equal_wall, Z.eqb_refl by auto with cozy. rewrite Eev. simpl. rewrite Eev in Hoc. simpl in Hoc.
    unfold ResolverPlan.ReviewLifetime, Freshness in *.
    rewrite (proj2 (Z.ltb_ge (wall at_) (wall (ended w)))), (proj2 (Z.ltb_ge (wall (ended w)) (wall (observed w)))) by lia.
    by rewrite !(proj2 (Z.ltb_lt _ _)) by lia.
  - exists ev. do 3 (split; [done|]). simpl.
    apply Binding.validate_binding in Hval as (ps & Hval). skip 8 in Hval. destruct Hval as [-> _]. apply merge_sort_Permutation.
Qed.

End Accepted.

(** The same for the HTTPS check. *)
Lemma https_inspect_accepted boot canceled present canceled' w e c sel at_ :
  httpsInspect canceled present canceled' w e c = Ok sel →
  steady boot (started w) → steady boot (observed w) → steady boot (ended w) →
  canonical at_ → validTime at_ = true → wall (ended w) <= wall at_ → wall at_ < wall (observed w) + Freshness →
  HTTPSRun.normalize sel (HTTPS.SelectionID (HTTPSPlan.cSelection c)) at_ = Some sel.
Proof.
  unfold httpsInspect. intros [_ H]%guard_ok Hs1 Hs2 Hs3 Hca Hva Hle Hlt.
  apply guard_ok in H as [_ H]. apply guard_ok in H as [_ H]. apply res_bind_ok in H as (ev & Hev & H).
  apply guard_ok in H as [_ H]. destruct (HTTPSPlan.New _ _ _) as [p|] eqn:Ep; [|done]. injection H as <-.
  apply HTTPSPlan.https_new_iff in Ep as (sorted & member & _ & _ & _ & _ & _ & ->).
  destruct (inspected_dates boot _ _ _ _ Hev Hs1 Hs2 Hs3) as (Hco & Hfu & Hvo & Hoc & Hcf).
  apply check_Inspect_iff in Hev as (l & l' & r & so & Eev). skip 25 in Eev.
  unfold HTTPSRun.normalize, HTTPSPlan.Current. cbn [HTTPSRun.sPlan HTTPSRun.RouteObservedAt HTTPSRun.RouteFreshUntil].
  cbn [HTTPSPlan.built HTTPSPlan.pinned HTTPSPlan.review HTTPSPlan.dProfile HTTPSPlan.CreatedAt HTTPSPlan.ExpiresAt
       HTTPSPlan.dConfiguration HTTPSPlan.cSelection].
  rewrite !bool_decide_true, Hva, Hvo by done. rewrite !Before_wall, !After_wall by auto with cozy.
  rewrite Hfu, Equal_wall, Z.eqb_refl by auto with cozy. rewrite Eev. simpl. rewrite Eev in Hoc. simpl in Hoc.
  unfold HTTPSPlan.ReviewLifetime, Freshness in *.
  rewrite (proj2 (Z.ltb_ge (wall at_) (wall (ended w)))), (proj2 (Z.ltb_ge (wall (ended w)) (wall (observed w)))) by lia.
  by rewrite !(proj2 (Z.ltb_lt _ _)) by lia.
Qed.

(** ** A network *)

Definition home_local : localInterface :=
  RouteInspect.mkLocal "en0" 4 0x33 [mkPrefix (V4 3232235786) 24; mkPrefix (V4 3232235786) 16].
Definition home_enrollment : Enrollment := mkEnrollment Quality.sensor ResolverPlan.home_prefixes.
Definition home_answers (r : observedRoute) : answers :=
  mkAnswers false true (Quality.clock 100) (Ok home_local) false (Ok r) (Quality.clock 100) false (Ok home_local)
    (Quality.clock 101) false.
Definition home_direct : observedRoute := mkObserved (mkPrefix (V4 3232235776) 24) (V4 3232235786) "en0" 4 AddrNone 0 4.
Definition home_question : ResolverPlan.Configuration := ResolverPlan.home_question "host.example.".

(** An exact endpoint behind a router of the home network, and a route that names the
    machine itself as its gateway. *)
Example inspect_remote :
  is_ok (Inspect (home_answers (mkObserved (mkPrefix (V4 0) 0) (V4 3232235786) "en0" 4 (V4 3232235777) 0 0))
    home_enrollment (V4 134744072)) = true.
Proof. vm_compute. reflexivity. Qed.
Example inspect_self :
  Inspect (home_answers (mkObserved (mkPrefix (V4 0) 0) (V4 3232235786) "en0" 4 (V4 3232235786) 0 0))
    home_enrollment (V4 134744072) = Err ErrMismatch.
Proof. vm_compute. reflexivity. Qed.

Definition home_selection : ResolverRun.Selection :=
  ResolverRun.mkSelection (ResolverPlan.plan_of (ResolverPlan.home_plan ResolverPlan.home_prefixes "host.example." (Quality.clock 101)))
    (UTC (Quality.clock 100)) (Add (UTC (Quality.clock 100)) Freshness).

Lemma resolver_inspect_accepted_witness :
  ResolverRun.normalize home_selection (Resolver.SelectionID (ResolverPlan.cSelection home_question)) (UTC (Quality.clock 110)) =
    Some home_selection.
Proof.
  refine (proj1 (resolver_inspect_accepted Wire.checked_name Wire.pack_question 0 false true false (home_answers home_direct) home_enrollment
    home_question home_selection (UTC (Quality.clock 110)) _ _ _ _ _ _ _ _)).
  - vm_compute. reflexivity.
  - by left.
  - by left.
  - by left.
  - reflexivity.
  - vm_compute. reflexivity.
  - vm_compute. discriminate.
  - vm_compute. reflexivity.
Defined.

End CheckRoute.
