(* ===== verification/GoJSON.v ===== *)
(** * JSON texts

    What the controller uses of [encoding/json]: the syntax the scanner accepts (white
    space, literals, numbers, strings with their escapes, arrays and objects nested at most
    10000 deep), the text a string literal denotes (with the replacement character for an
    invalid sequence or a lone surrogate), [Decoder.Decode] of one value followed by the end
    of the input, and the length of the compact, HTML-safe text [json.Marshal] produces for
    a raw message and for a key.  Bytes are integers below 256. *)

From Stdlib Require Import Ascii.
From S2P Require Import Prelude Regex.

Module JSON.

(** ** Bytes and text *)

Definition sbytes (s : string) : list Z := map byte_of (String.list_ascii_of_string s).
Definition of_bytes (p : list Z) : string := String.string_of_list_ascii (map (λ b, ascii_of_N (Z.to_N b)) p).

Lemma of_sbytes s : of_bytes (sbytes s) = s.
Proof.
  unfold of_bytes, sbytes. rewrite map_map. rewrite (map_ext _ id).
  - by rewrite map_id, String.string_of_list_ascii_of_string.
  - intros c. unfold byte_of. by rewrite N2Z.id, ascii_N_embedding.
Qed.

(** ** UTF-8 *)

Definition between (lo hi c : Z) : bool := (lo <=? c) && (c <=? hi).
Definition continuation (c : Z) : bool := between 128 191 c.

(** The length of the well-formed sequence a text starts with, as in [utf8.DecodeRune]: 0
    when there is none. *)
Definition sequence (p : list Z) : nat :=
  match p with
  | [] => 0
  | c :: r =>
      if c <? 128 then 1
      else match r with
      | [] => 0
      | d :: r =>
          if between 194 223 c && continuation d then 2
          else match r with
          | [] => 0
          | e :: r =>
              if continuation e &&
                 ((c =? 224) && between 160 191 d || (c =? 237) && between 128 159 d ||
                  (between 225 236 c || between 238 239 c) && continuation d) then 3
              else match r with
              | [] => 0
              | f :: _ =>
                  if continuation e && continuation f &&
                     ((c =? 240) && between 144 191 d || (c =? 244) && between 128 143 d ||
                      between 241 243 c && continuation d) then 4
                  else 0
              end
          end
      end
  end.

(** [utf8.EncodeRune] of a rune that is not a surrogate. *)
Definition encodeRune (r : Z) : list Z :=
  if r <? 128 then [r]
  else if r <? 2048 then [192 + r / 64; 128 + r mod 64]
  else if r <? 65536 then [224 + r / 4096; 128 + (r / 64) mod 64; 128 + r mod 64]
  else [240 + r / 262144; 128 + (r / 4096) mod 64; 128 + (r / 64) mod 64; 128 + r mod 64].

Definition replacement : list Z := [239; 191; 189].

(** ** String literals *)

Definition hex_digit (c : Z) : option Z :=
  if between 48 57 c then Some (c - 48)
  else if between 97 102 c then Some (c - 87)
  else if between 65 70 c then Some (c - 55)
  else None.
Definition hex4 (a b c d : Z) : option Z :=
  a ← hex_digit a; b ← hex_digit b; c ← hex_digit c; d ← hex_digit d; Some (((a * 16 + b) * 16 + c) * 16 + d).

Definition simple_escape (e : Z) : option Z :=
  if (e =? 34) || (e =? 92) || (e =? 47) then Some e
  else if e =? 98 then Some 8 else if e =? 102 then Some 12 else if e =? 110 then Some 10
  else if e =? 114 then Some 13 else if e =? 116 then Some 9 else None.

Definition emit (b : list Z) (r : option (list Z * list Z)) : option (list Z * list Z) :=
  match r with Some (s, rest) => Some (b ++ s, rest) | None => None end.

Definition high_surrogate (r : Z) : bool := between 55296 56319 r.
Definition low_surrogate (r : Z) : bool := between 56320 57343 r.

(** The literal after its opening quote: its text and what follows the closing quote. *)
Fixpoint unquote (p : list Z) : option (list Z * list Z) :=
  match p with
  | [] => None
  | c :: r1 =>
      if c =? 34 then Some ([], r1)
      else if c =? 92 then
        match r1 with
        | [] => None
        | e :: r2 =>
            match simple_escape e with
            | Some b => emit [b] (unquote r2)
            | None =>
                if e =? 117 then
                  match r2 with
                  | h1 :: h2 :: h3 :: h4 :: r6 =>
                      match hex4 h1 h2 h3 h4 with
                      | None => None
                      | Some rune =>
                          if high_surrogate rune || low_surrogate rune then
                            match r6 with
                            | b :: u :: g1 :: g2 :: g3 :: g4 :: r12 =>
                                match hex4 g1 g2 g3 g4 with
                                | Some low =>
                                    if (b =? 92) && (u =? 117) && high_surrogate rune && low_surrogate low
                                    then emit (encodeRune (65536 + (rune - 55296) * 1024 + (low - 56320))) (unquote r12)
                                    else emit replacement (unquote r6)
                                | None => emit replacement (unquote r6)
                                end
                            | _ => emit replacement (unquote r6)
                            end
                          else emit (encodeRune rune) (unquote r6)
                      end
                  | _ => None
                  end
                else None
            end
        end
      else if c <? 32 then None
      else
        match sequence p, r1 with
        | 1%nat, _ => emit [c] (unquote r1)
        | 2%nat, d :: r2 => emit [c; d] (unquote r2)
        | 3%nat, d :: e :: r3 => emit [c; d; e] (unquote r3)
        | 4%nat, d :: e :: f :: r4 => emit [c; d; e; f] (unquote r4)
        | _, _ => emit replacement (unquote r1)
        end
  end.

(** ** Numbers *)

Definition digit (c : Z) : bool := between 48 57 c.

Fixpoint digits (p : list Z) : list Z * list Z :=
  match p with
  | c :: r => if digit c then let '(ds, rest) := digits r in (c :: ds, rest) else ([], p)
  | [] => ([], [])
  end.

Definition digits1 (p : list Z) : option (list Z * list Z) :=
  match digits p with ([], _) => None | r => Some r end.

Definition integer_part (p : list Z) : option (list Z * list Z) :=
  match p with
  | 48 :: r => Some ([48], r)
  | _ => digits1 p
  end.
Definition fraction_part (p : list Z) : option (list Z * list Z) :=
  match p with
  | 46 :: r => '(ds, r) ← digits1 r; Some (46 :: ds, r)
  | _ => Some ([], p)
  end.
Definition exponent_part (p : list Z) : option (list Z * list Z) :=
  match p with
  | e :: r =>
      if (e =? 101) || (e =? 69) then
        match r with
        | s :: r' => if (s =? 43) || (s =? 45) then '(ds, r) ← digits1 r'; Some (e :: s :: ds, r)
                     else '(ds, r) ← digits1 r; Some (e :: ds, r)
        | [] => None
        end
      else Some ([], p)
  | [] => Some ([], p)
  end.

(** The characters of a number and what follows it. *)
Definition number (p : list Z) : option (list Z * list Z) :=
  let '(sign, p) := match p with 45 :: r => ([45], r) | _ => ([], p) end in
  '(i, p) ← integer_part p; '(f, p) ← fraction_part p; '(e, p) ← exponent_part p;
  Some (sign ++ i ++ f ++ e, p).

(** ** Values *)

#[local] Set Warnings "-register-all".

Inductive json :=
| JNull
| JBool (b : bool)
| JNumber (token : list Z)
| JString (text : list Z)
| JArray (items : list json)
| JObject (members : list (list Z * json)).

Definition space (c : Z) : bool := (c =? 32) || (c =? 9) || (c =? 10) || (c =? 13).
Fixpoint skip (p : list Z) : list Z :=
  match p with
  | c :: r => if space c then skip r else p
  | [] => []
  end.

Fixpoint literal (word p : list Z) : option (list Z) :=
  match word with
  | [] => Some p
  | w :: word => match p with c :: r => if c =? w then literal word r else None | [] => None end
  end.

Definition maxNestingDepth : Z := 10000.

(** [depth] counts the containers that are open. *)
Fixpoint value (fuel : nat) (depth : Z) (p : list Z) : option (json * list Z) :=
  match fuel with
  | O => None
  | S fuel =>
      match skip p with
      | [] => None
      | c :: r =>
          if c =? 34 then '(s, r) ← unquote r; Some (JString s, r)
          else if c =? 123 then
            if maxNestingDepth <=? depth then None
            else match skip r with
                 | [] => None
                 | d :: r' => if d =? 125 then Some (JObject [], r')
                              else '(ms, r) ← members fuel (depth + 1) r; Some (JObject ms, r)
                 end
          else if c =? 91 then
            if maxNestingDepth <=? depth then None
            else match skip r with
                 | [] => None
                 | d :: r' => if d =? 93 then Some (JArray [], r')
                              else '(xs, r) ← elements fuel (depth + 1) r; Some (JArray xs, r)
                 end
          else if c =? 116 then r ← literal [114; 117; 101] r; Some (JBool true, r)
          else if c =? 102 then r ← literal [97; 108; 115; 101] r; Some (JBool false, r)
          else if c =? 110 then r ← literal [117; 108; 108] r; Some (JNull, r)
          else '(n, r) ← number (c :: r); Some (JNumber n, r)
      end
  end
with elements (fuel : nat) (depth : Z) (p : list Z) : option (list json * list Z) :=
  match fuel with
  | O => None
  | S fuel =>
      '(v, r) ← value fuel depth p;
      match skip r with
      | [] => None
      | c :: r => if c =? 44 then '(vs, r) ← elements fuel depth r; Some (v :: vs, r)
                  else if c =? 93 then Some ([v], r) else None
      end
  end
with members (fuel : nat) (depth : Z) (p : list Z) : option (list (list Z * json) * list Z) :=
  match fuel with
  | O => None
  | S fuel =>
      match skip p with
      | [] => None
      | q :: r =>
          if negb (q =? 34) then None else
          '(k, r) ← unquote r;
          match skip r with
          | [] => None
          | c :: r =>
              if negb (c =? 58) then None else
              '(v, r) ← value fuel depth r;
              match skip r with
              | [] => None
              | c :: r => if c =? 44 then '(ms, r) ← members fuel depth r; Some ((k, v) :: ms, r)
                          else if c =? 125 then Some ([(k, v)], r) else None
              end
          end
      end
  end.

(** One value and the end of the input: [Decode] and a second [Decode] that returns
    [io.EOF], or [Unmarshal]. *)
Definition parse (p : list Z) : option json :=
  '(v, r) ← value (2 * length p + 2) 0 p;
  match skip r with [] => Some v | _ => None end.

(** ** The length of encoded text *)

(** A byte of a raw message as [json.Marshal] writes it: [<], [>] and [&] become six
    characters, so do the three bytes of U+2028 and U+2029. *)
Definition html (c : Z) : bool := (c =? 60) || (c =? 62) || (c =? 38).

Definition line_separator (p : list Z) : bool :=
  match p with
  | c :: d :: e :: _ => (c =? 226) && (d =? 128) && ((e =? 168) || (e =? 169))
  | _ => false
  end.

(** The compact form of a valid text: white space is dropped outside of string literals. *)
Fixpoint compact_length (in_string escaped : bool) (p : list Z) : Z :=
  match p with
  | [] => 0
  | c :: r =>
      if negb in_string then
        (if space c then 0 else 1) + compact_length (c =? 34) false r
      else
        (if html c then 6 else if line_separator p then 4 else 1) +
        compact_length (escaped || negb (c =? 34)) (negb escaped && (c =? 92)) r
  end.

(** A key between its quotes. *)
Definition key_byte (c : Z) : Z :=
  if (c =? 34) || (c =? 92) || (c =? 8) || (c =? 9) || (c =? 10) || (c =? 12) || (c =? 13) then 2
  else if (c <? 32) || html c then 6 else 1.

Fixpoint key_length (p : list Z) : Z :=
  match p with
  | [] => 2
  | c :: r =>
      match sequence p, r with
      | 1%nat, _ => key_byte c + key_length r
      | 2%nat, _ :: r2 => 2 + key_length r2
      | 3%nat, _ :: _ :: r3 => (if line_separator p then 6 else 3) + key_length r3
      | 4%nat, _ :: _ :: _ :: r4 => 4 + key_length r4
      | _, _ => 6 + key_length r
      end
  end.

(** ** The parser has enough fuel

    A container takes one call for itself and one for its list of items, and consumes its
    opening bracket: twice the length of the text is enough. *)

Lemma skip_length p : (length (skip p) <= length p)%nat.
Proof. induction p as [|c p IH]; simpl; [lia|]. destruct (space c); simpl; lia. Qed.

Lemma skip_cons p c r : skip p = c :: r → (length r < length p)%nat.
Proof. intros H. pose proof (skip_length p) as L. rewrite H in L. simpl in L. lia. Qed.

Lemma emit_some b r s rest : emit b r = Some (s, rest) → ∃ s', r = Some (s', rest).
Proof. destruct r as [[s' rest']|]; simpl; naive_solver. Qed.

Lemma unquote_length p s r : unquote p = Some (s, r) → (length r < length p)%nat.
Proof.
  remember (length p) as n eqn:Hn. revert p s r Hn. induction n as [n IH] using lt_wf_ind. intros p s r -> H.
  assert (Hemit : ∀ b q, (length q < length p)%nat → emit b (unquote q) = Some (s, r) → (length r < length p)%nat).
  { intros b q Hq [s' Hs]%emit_some. apply (IH _ Hq _ _ _ eq_refl) in Hs. lia. }
  clear IH. destruct p as [|c p]; [done|]. simpl unquote in H.
  repeat match type of H with
  | (match ?x with _ => _ end) = _ => destruct x; try discriminate H
  end; first [by (eapply Hemit; [|exact H]; simpl; lia) | by injection H as _ <-; simpl; lia].
Qed.

Lemma digits_length p ds r : digits p = (ds, r) → length p = (length ds + length r)%nat.
Proof.
  revert ds r. induction p as [|c p IH]; simpl; intros ds r H; [by simplify_eq|].
  destruct (digit c); [|by simplify_eq]. destruct (digits p) as [ds' r'] eqn:E. simplify_eq/=. by rewrite (IH _ _ eq_refl).
Qed.
Lemma digits1_length p ds r : digits1 p = Some (ds, r) → (length r < length p)%nat.
Proof.
  unfold digits1. destruct (digits p) as [ds' r'] eqn:E. apply digits_length in E. destruct ds'; intros; simplify_eq/=; lia.
Qed.

Lemma integer_part_length p ds r : integer_part p = Some (ds, r) → (length r < length p)%nat.
Proof.
  unfold integer_part. intros H. repeat (case_match; simplify_eq/=; try lia); apply digits1_length in H; simpl in *; lia.
Qed.
Lemma fraction_part_length p ds r : fraction_part p = Some (ds, r) → (length r <= length p)%nat.
Proof.
  unfold fraction_part. intros H. repeat (case_match; simplify_eq/=; try lia);
    apply bind_Some in H as ([ds' r'] & H & ?); apply digits1_length in H; simplify_eq/=; lia.
Qed.
Lemma exponent_part_length p ds r : exponent_part p = Some (ds, r) → (length r <= length p)%nat.
Proof.
  unfold exponent_part. intros H. repeat (case_match; simplify_eq/=; try lia);
    apply bind_Some in H as ([ds' r'] & H & ?); apply digits1_length in H; simplify_eq/=; lia.
Qed.

Lemma number_length p n r : number p = Some (n, r) → (length r < length p)%nat.
Proof.
  unfold number. intros H. destruct (match p with 45 :: r => ([45], r) | _ => ([], p) end) as [sign q] eqn:Eq.
  assert (length q <= length p)%nat by (repeat (case_match; simplify_eq/=; try lia)).
  apply bind_Some in H as ([i q1] & H1%integer_part_length & H). apply bind_Some in H as ([f q2] & H2%fraction_part_length & H).
  apply bind_Some in H as ([e q3] & H3%exponent_part_length & H). simplify_eq. lia.
Qed.

Lemma literal_length word p r : literal word p = Some r → (length r <= length p)%nat.
Proof.
  revert p. induction word as [|w word IH]; intros p; simpl; [intros; simplify_eq; lia|].
  destruct p as [|c p]; [done|]. destruct (_ =? _); [|done]. intros H%IH. simpl. lia.
Qed.

Ltac open_bind H :=
  let x := fresh "x" in let E := fresh "E" in
  apply bind_Some in H as (x & E & H).

Lemma lengths fuel :
  (∀ depth p v r, value fuel depth p = Some (v, r) → (length r < length p)%nat) ∧
  (∀ depth p v r, elements fuel depth p = Some (v, r) → (length r < length p)%nat) ∧
  (∀ depth p v r, members fuel depth p = Some (v, r) → (length r < length p)%nat).
Proof.
  induction fuel as [|fuel (IHv & IHe & IHm)]; [done|]. split_and!; intros depth p v r H; simpl in H.
  - destruct (skip p) as [|c q] eqn:Hs; [done|]. apply skip_cons in Hs.
    repeat (case_match; try done); try open_bind H; repeat case_match; simplify_eq;
      repeat match goal with
      | H : skip _ = _ :: _ |- _ => apply skip_cons in H
      | H : unquote _ = _ |- _ => apply unquote_length in H
      | H : literal _ _ = _ |- _ => apply literal_length in H
      | H : number _ = _ |- _ => apply number_length in H; simpl in H
      | H : elements _ _ _ = _ |- _ => apply IHe in H
      | H : members _ _ _ = _ |- _ => apply IHm in H
      end; simpl in *; lia.
  - open_bind H. destruct x as [w q]. apply IHv in E. destruct (skip q) as [|c q'] eqn:Hs; [done|]. apply skip_cons in Hs.
    repeat case_match; simplify_eq; try lia. open_bind H. destruct x as [ws q'']. apply IHe in E0. simplify_eq. lia.
  - destruct (skip p) as [|c q] eqn:Hs; [done|]. apply skip_cons in Hs. destruct (negb _); [done|].
    open_bind H. destruct x as [k q1]. apply unquote_length in E. destruct (skip q1) as [|c1 q2] eqn:Hs1; [done|]. apply skip_cons in Hs1.
    destruct (negb _); [done|]. open_bind H. destruct x as [w q3]. apply IHv in E0. destruct (skip q3) as [|c3 q4] eqn:Hs3; [done|].
    apply skip_cons in Hs3. repeat case_match; simplify_eq; try lia. open_bind H. destruct x as [ms q5]. apply IHm in E1. simplify_eq. lia.
Qed.

Lemma bind_congr {A B} (o o' : option A) (f g : A → option B) :
  o = o' → (∀ a, o' = Some a → f a = g a) → o ≫= f = o' ≫= g.
Proof. intros -> H. destruct o' as [a|]; [by apply H|done]. Qed.

Lemma value_length fuel depth p v r : value fuel depth p = Some (v, r) → (length r < length p)%nat.
Proof. apply lengths. Qed.

Lemma fuel_irrelevant n :
  (∀ m depth p, 2 * length p + 1 <= n → 2 * length p + 1 <= m → value n depth p = value m depth p)%nat ∧
  (∀ m depth p, 2 * length p + 2 <= n → 2 * length p + 2 <= m → elements n depth p = elements m depth p)%nat ∧
  (∀ m depth p, 2 * length p + 2 <= n → 2 * length p + 2 <= m → members n depth p = members m depth p)%nat.
Proof.
  induction n as [|n (IHv & IHe & IHm)]; [split_and!; intros; lia|].
  split_and!; intros [|m] depth p Hn Hm; try lia; simpl.
  - destruct (skip p) as [|c q] eqn:Hs; [done|]. apply skip_cons in Hs.
    rewrite (IHe m (depth + 1) q), (IHm m (depth + 1) q) by lia. done.
  - apply bind_congr; [apply IHv; lia|]. intros [v r] Hv%value_length. destruct (skip r) as [|c q] eqn:Hs; [done|].
    apply skip_cons in Hs. rewrite (IHe m depth q) by lia. done.
  - destruct (skip p) as [|c q] eqn:Hs; [done|]. apply skip_cons in Hs. destruct (negb _); [done|].
    apply bind_congr; [done|]. intros [k r] Hk%unquote_length. destruct (skip r) as [|c1 q1] eqn:Hs1; [done|].
    apply skip_cons in Hs1. destruct (negb _); [done|]. apply bind_congr; [apply IHv; lia|]. intros [v r2] Hv%value_length.
    destruct (skip r2) as [|c2 q2] eqn:Hs2; [done|]. apply skip_cons in Hs2. rewrite (IHm m depth q2) by lia. done.
Qed.

(** Any larger amount of fuel gives the same answer. *)
Lemma parse_fuel n p :
  (2 * length p + 2 <= n)%nat → parse p = '(v, r) ← value n 0 p; match skip r with [] => Some v | _ => None end.
Proof. intros Hn. unfold parse. apply bind_congr; [apply fuel_irrelevant; lia|done]. Qed.

(** ** Literals of plain text *)

(** A byte that stands for itself in a string literal. *)
Definition plain (c : Z) : bool := (32 <=? c) && (c <? 128) && negb (c =? 34) && negb (c =? 92).

Definition quoted (p : list Z) : list Z := 34 :: p ++ [34].

Lemma unquote_plain p rest : Forall (λ c, plain c = true) p → unquote (p ++ 34 :: rest) = Some (p, rest).
Proof.
  induction 1 as [|c p Hc _ IH]; [done|]. unfold plain in Hc. go_bool. cbn [app unquote].
  rewrite (proj2 (Z.eqb_neq c 34)), (proj2 (Z.eqb_neq c 92)), (proj2 (Z.ltb_ge c 32)) by lia.
  assert (Hs : sequence (c :: p ++ 34 :: rest) = 1%nat) by (simpl; by rewrite (proj2 (Z.ltb_lt c 128)) by lia).
  rewrite Hs, IH. done.
Qed.

Lemma parse_quoted p : Forall (λ c, plain c = true) p → parse (quoted p) = Some (JString p).
Proof.
  intros Hp. remember (2 * length (quoted p) + 2)%nat as n eqn:Hn. rewrite (parse_fuel (S n)) by lia. clear Hn. unfold quoted.
  simpl. by rewrite unquote_plain.
Qed.

(** Texts written with the apostrophe for the double quote. *)
Definition text (s : string) : list Z := map (λ c, if c =? 39 then 34 else c) (sbytes s).

Example parse_nested :
  parse (text " { 'k' : [ 1 , -2.5e+3 , true , null , '\u0041\ud83d\ude00\ud83d' ] } ") =
  Some (JObject [(sbytes "k", JArray [JNumber (sbytes "1"); JNumber (sbytes "-2.5e+3"); JBool true; JNull;
                                      JString [65; 240; 159; 152; 128; 239; 191; 189]])]).
Proof. vm_compute. reflexivity. Qed.
Example parse_refused :
  map parse [text "01"; text "1."; text "[1,]"; text "{'a':1,}"; text "'\x'"; text "tru"; text "1 2"; text ""] = repeat None 8.
Proof. vm_compute. reflexivity. Qed.
Example compact_example : compact_length false false (text " { 'a b' : [ 1 , '<\'' ] } ") = 22.
Proof. vm_compute. reflexivity. Qed.

End JSON.
