(* ===== verification/ConsentSession.v ===== *)
(** * The consent exchange of the local API

    [localapi/gateway_session.go], [resolver_session.go] and [https_session.go] are one
    protocol over different data, as are the three clients: a connection carries one
    request, one review, one decision and one result.  The class [SessionPackage] is what
    a check provides.  The connection, the clock, the contexts, the run control and the
    user are effects with arbitrary answers; requests and decisions are decoded from their
    bytes. *)

From Stdlib Require Import Ascii.
From S2P Require Import Prelude Regex GoTime NetAddr GoJSON RunControl Effects.

Module Session.
Import JSON.

(** ** Strict objects *)

Definition gatewayFrameLimit : Z := 8192.
Definition gatewayID : regex := RRep (RSet (λ c, alnum c || one_of "._-" c)) 1 64.
Definition gatewayChallenge : regex := hex_regex 32.

(** [utf8.Valid], one sequence at a time. *)
Fixpoint utf8_valid (fuel : nat) (p : list Z) : bool :=
  match fuel, p with
  | _, [] => true
  | O, _ => false
  | S fuel, _ => match sequence p with O => false | n => utf8_valid fuel (drop n p) end
  end.

(** The Go types the fields of these objects have, and what they hold. *)
Inductive field := FString | FBool | FInt | FRaw.
Inductive content := VString (s : string) | VBool (b : bool) | VInt (n : Z) | VRaw (raw : list Z).

(** [strconv.ParseInt] of a number token. *)
Definition decimal (ds : list Z) : option Z :=
  if forallb digit ds then Some (foldl (λ n d, 10 * n + (d - 48)) 0 ds) else None.
Definition ParseInt (token : list Z) : option Z :=
  n ← match token with
      | c :: ds => if c =? 45 then Z.opp <$> decimal ds else decimal token
      | [] => None
      end;
  if in_int64 n then Some n else None.

(** [json.Unmarshal] of the raw value of a member; [null] is refused before it. *)
Definition unmarshal (f : field) (raw : list Z) : option content :=
  v ← parse raw;
  match f, v with
  | _, JNull => None
  | FString, JString s => Some (VString (of_bytes s))
  | FBool, JBool b => Some (VBool b)
  | FInt, JNumber t => VInt <$> ParseInt t
  | FRaw, _ => Some (VRaw raw)
  | _, _ => None
  end.

(** The value at the front of the input, as it is written there. *)
Definition raw_value (p : list Z) : option (list Z * list Z) :=
  '(_, r) ← value (2 * length p + 2) 0 p;
  Some (take (length (skip p) - length r) (skip p), r).

(** The token loop after the opening brace.  [fields] are the names that may still come:
    a name that was seen, or that is unknown, is not among them. *)
Fixpoint object_loop (fuel : nat) (first : bool) (fields : list (string * field)) (p : list Z)
  : option (list (string * content) * list (string * field) * list Z) :=
  match fuel with
  | O => None
  | S fuel =>
      match skip p with
      | [] => None
      | c :: r =>
          if c =? 125 then Some ([], fields, r) else
          q ← (if first then Some (c :: r) else if c =? 44 then Some (skip r) else None);
          match q with
          | [] => None
          | d :: r =>
              if negb (d =? 34) then None else
              '(name, r) ← unquote r;
              '(_, f) ← snd <$> list_find (λ f, f.1 = of_bytes name) fields;
              match skip r with
              | [] => None
              | colon :: r =>
                  if negb (colon =? 58) then None else
                  '(raw, r) ← raw_value r;
                  v ← unmarshal f raw;
                  '(ms, missing, r) ← object_loop fuel false (filter (λ g, g.1 ≠ of_bytes name) fields) r;
                  Some ((of_bytes name, v) :: ms, missing, r)
              end
          end
      end
  end.

Definition decodeGatewayObject (raw : list Z) (fields : list (string * field)) : option (list (string * content)) :=
  if (llen raw =? 0) || (gatewayFrameLimit <? llen raw) || negb (utf8_valid (length raw) raw) then None
  else match skip raw with
       | 123 :: r =>
           '(ms, missing, r) ← object_loop (S (length r)) true fields r;
           match missing, skip r with [], [] => Some ms | _, _ => None end
       | _ => None
       end.

Definition member (name : string) (ms : list (string * content)) : option content :=
  (λ x, x.2.2) <$> list_find (λ m, m.1 = name) ms.

Definition request_fields : list (string * field) :=
  [("version", FInt); ("id", FString); ("method", FString); ("auth", FString); ("params", FRaw)].
Definition decision_fields : list (string * field) := [("challenge", FString); ("approve", FBool)].

(** The decision of a frame: the challenge it answers and the approval. *)
Definition decision (frame : list Z) : option (string * bool) :=
  ms ← decodeGatewayObject frame decision_fields;
  match member "challenge" ms, member "approve" ms with
  | Some (VString c), Some (VBool b) => Some (c, b)
  | _, _ => None
  end.

(** [json.NewEncoder(conn).Encode(api.GatewayCheckDecision{...})]: a challenge that was
    validated needs no escapes. *)
Definition encode_decision (challenge : string) (approve : bool) : list Z :=
  text "{'challenge':'" ++ sbytes challenge ++ text "','approve':" ++ sbytes (if approve then "true" else "false") ++ [125; 10].

Example decision_example : decision (encode_decision "0123456789abcdef0123456789abcdef" true) = Some ("0123456789abcdef0123456789abcdef", true).
Proof. vm_compute. reflexivity. Qed.
Example decision_refused :
  map decision [text "{'challenge':'a','approve':null}"; text "{'challenge':'a'}"; text "{'challenge':'a','approve':true,'approve':true}";
                text "{'Challenge':'a','approve':true}"; text "{'challenge':'a','approve':true,'x':1}"; text "{'challenge':'a','approve':'true'}";
                text "{'challenge':'a','approve':true} {}"; text "{'challenge':'a','approve':true,}"; text "{,'challenge':'a','approve':true}"; text ""] = repeat None 10.
Proof. vm_compute. reflexivity. Qed.
Example decision_spaced : decision (text " { 'approve' : false , 'challenge' : 'a\u0062' } ") = Some ("ab", false).
Proof. vm_compute. reflexivity. Qed.

(** *** Decisions survive their encoding *)

Lemma utf8_ascii fuel p : Forall (λ c, 0 <= c < 128) p → (length p <= fuel)%nat → utf8_valid fuel p = true.
Proof.
  intros Hp. revert fuel. induction Hp as [|c p Hc _ IH]; intros fuel Hf; [by destruct fuel|]. destruct fuel as [|fuel]; simpl in Hf; [lia|].
  cbn [utf8_valid]. assert (sequence (c :: p) = 1%nat) as -> by (simpl; by rewrite (proj2 (Z.ltb_lt c 128)) by lia). simpl. apply IH. lia.
Qed.

Lemma raw_value_quoted p rest : Forall (λ c, plain c = true) p → raw_value (quoted p ++ rest) = Some (quoted p, rest).
Proof.
  intros Hp. unfold raw_value. remember (2 * length (quoted p ++ rest) + 1)%nat as n eqn:Hn.
  replace (2 * length (quoted p ++ rest) + 2)%nat with (S n) by lia. clear Hn.
  unfold quoted. cbn [app value skip space Z.eqb Pos.eqb orb]. rewrite <- app_assoc. simpl. rewrite unquote_plain by done. simpl.
  do 2 f_equal. rewrite length_app. simpl. replace (S (length p + S (length rest)) - length rest)%nat with (S (length (p ++ [34]))) by (rewrite length_app; simpl; lia).
  cbn [take]. f_equal. replace (p ++ 34 :: rest) with ((p ++ [34]) ++ rest) by by rewrite <- app_assoc. by rewrite take_app_length.
Qed.

Lemma unmarshal_quoted s : Forall (λ c, plain c = true) (sbytes s) → unmarshal FString (quoted (sbytes s)) = Some (VString s).
Proof. intros Hs. unfold unmarshal. rewrite parse_quoted by done. simpl. by rewrite of_sbytes. Qed.

Lemma challenge_plain c : MatchString gatewayChallenge c = true → length (sbytes c) = 32%nat ∧ Forall (λ c, plain c = true) (sbytes c).
Proof.
  intros [Hl Hd]%hex_regex_spec. unfold sbytes. rewrite length_map, list_ascii_length. split; [done|].
  apply Forall_fmap. eapply Forall_impl; [exact Hd|]. intros d Hx. simpl. unfold Regex.hex_digit, is_digit, in_range, plain in *.
  change (byte_of "0"%char) with 48 in *. change (byte_of "9"%char) with 57 in *. change (byte_of "a"%char) with 97 in *. change (byte_of "f"%char) with 102 in *.
  go_bool. lia.
Qed.

(** One member of an object that is written without white space. *)
Lemma object_loop_member fuel first fields name f i rest raw v r :
  Forall (λ c, plain c = true) (sbytes name) → list_find (λ g, g.1 = name) fields = Some (i, (name, f)) →
  raw_value rest = Some (raw, r) → unmarshal f raw = Some v →
  object_loop (S fuel) first fields ((if first then [] else [44]) ++ quoted (sbytes name) ++ 58 :: rest) =
  '(ms, missing, r) ← object_loop fuel false (filter (λ g, g.1 ≠ name) fields) r; Some ((name, v) :: ms, missing, r).
Proof.
  intros Hn Hf Hr Hv.
  assert (Hq : unquote ((sbytes name ++ [34]) ++ 58 :: rest) = Some (sbytes name, 58 :: rest)) by (rewrite <- app_assoc; by apply unquote_plain).
  destruct first; unfold quoted; cbn -[raw_value unmarshal sbytes]; rewrite Hq; cbn -[raw_value unmarshal sbytes];
    rewrite !of_sbytes, Hf; cbn -[raw_value unmarshal sbytes]; rewrite Hr; cbn -[raw_value unmarshal sbytes]; by rewrite Hv.
Qed.

Lemma decision_roundtrip_aux challenge approve :
  MatchString gatewayChallenge challenge = true → decision (encode_decision challenge approve) = Some (challenge, approve).
Proof.
  intros [Hl Hp]%challenge_plain.
  assert (Hu : Forall (λ c, 0 <= c < 128) (encode_decision challenge approve)).
  { unfold encode_decision. rewrite !Forall_app. split_and!; [by repeat constructor| |by repeat constructor|by destruct approve; repeat constructor|by repeat constructor].
    eapply Forall_impl; [exact Hp|]. intros c Hc. unfold plain in Hc. go_bool. lia. }
  assert (He : (length (encode_decision challenge approve) <= 66)%nat).
  { unfold encode_decision. rewrite !length_app, Hl. destruct approve; vm_compute; lia. }
  unfold decision, decodeGatewayObject. rewrite utf8_ascii by done.
  replace (llen _ =? 0) with false by (symmetry; apply Z.eqb_neq; unfold encode_decision, llen; rewrite !length_app; destruct approve; cbn; lia).
  replace (_ <? llen _) with false by (symmetry; apply Z.ltb_ge; unfold llen, gatewayFrameLimit; lia).
  cbn [orb negb]. set (tail := sbytes (if approve then "true" else "false") ++ [125; 10]).
  assert (encode_decision challenge approve = 123 :: text "'challenge':" ++ quoted (sbytes challenge) ++ text ",'approve':" ++ tail) as ->
    by (unfold encode_decision, quoted; simpl; by rewrite <- !app_assoc).
  cbn [skip space Z.eqb Pos.eqb orb]. match goal with |- context [object_loop (S ?k)] => assert (∃ n, k = S (S n)) as [n ->] by (eexists; reflexivity) end.
  change (text "'challenge':" ++ quoted (sbytes challenge) ++ text ",'approve':" ++ tail)
    with ((if true then [] else [44]) ++ quoted (sbytes "challenge") ++ 58 :: quoted (sbytes challenge) ++ text ",'approve':" ++ tail).
  erewrite object_loop_member; [|by repeat constructor|reflexivity|by apply raw_value_quoted|by apply unmarshal_quoted].
  change (text ",'approve':" ++ tail) with ((if false then [] else [44]) ++ quoted (sbytes "approve") ++ 58 :: tail).
  erewrite (object_loop_member _ _ _ _ _ _ _ (sbytes (if approve then "true" else "false")) (VBool approve) [125; 10]);
    [|by repeat constructor|reflexivity|by destruct approve|by destruct approve].
  reflexivity.
Qed.

(** Decisions survive their encoding.  The frame a client writes for a validated challenge is decoded
    by the server, which requires exact, unique and complete members, to that challenge and answer. *)
Theorem decision_roundtrip challenge approve :
  MatchString gatewayChallenge challenge = true → decision (encode_decision challenge approve) = Some (challenge, approve).
Proof. apply decision_roundtrip_aux. Qed.

Lemma decision_roundtrip_witness : decision (encode_decision "0123456789abcdef0123456789abcdef" false) = Some ("0123456789abcdef0123456789abcdef", false).
Proof. apply decision_roundtrip. vm_compute. reflexivity. Defined.

(** ** What a check provides *)

Class SessionPackage (P : RunPackage) := {
  WireReview : Type;
  WireResult : Type;
  (** the method, and the one parameter a request carries *)
  method : string;
  param_name : string;
  param_ok : string → bool;
  param_target : string → Target;
  challenge_of : WireReview → string;
  expires_of : WireReview → Time;
  project_review : Review → string → WireReview;
  validate_review : WireReview → string → Time → bool;
  declined : WireReview → WireResult;
  outcome_of : WireResult → string;
  project_result : WireReview → Result → option run_err → WireResult;
  validate_result : WireResult → WireReview → Time → bool;
  operation_timeout : Duration;
  audit_timeout : Duration;
  (** the longest frame a client reads, and how long it waits for the review *)
  response_limit : Z;
  request_timeout : Duration;
  (** whether the client compares the outcome with its decision *)
  compares_outcome : bool;
  challenge_project : ∀ r c, challenge_of (project_review r c) = c;
  challenge_valid : ∀ w p t, validate_review w p t = true → MatchString gatewayChallenge (challenge_of w) = true;
  declined_valid : ∀ w t, validate_result (declined w) w t = true;
}.

(** [gatewayErrorCode], [resolverErrorCode], [httpsErrorCode] *)
Definition errorCode (e : run_err) : string :=
  match e with
  | ErrCooldown => "cooldown"
  | ErrBusy => "busy"
  | ErrReview => "review_expired"
  | ErrPreflight => "precondition_failed"
  | ErrAudit => "audit_unconfirmed"
  | ErrClock => "clock_invalid"
  | ErrCtx _ => "canceled"
  | ErrExecution => "execution_failed"
  | ErrUnavailable | ErrConsent => "unavailable"
  end.

Definition minTime (a b : Time) : Time := if Before a b then a else b.

Section Protocol.
Context {P : RunPackage} {S : SessionPackage P}.

(** When results may still be delivered after the measurement has to end. *)
Definition delivery_deadline (now expires : Time) : Time :=
  minTime (Add now (operation_timeout + audit_timeout + Second)) (Add expires (audit_timeout + Second)).

(** ** The server *)

(** Writing answers whether it succeeded: the encoded text may also be too long. *)
Inductive effect : Type :=
| Buffered | GetControl | CallPrepare (t : Target) | CallDiscard (tk : Ticket) | CallRun (tk : Ticket) (consent : bool)
| RandomBytes | Now | Ctx | SetDeadline (t : Time) | WriteReview (id : string) (w : WireReview)
| WriteResult (id : string) (w : WireResult) | WriteError (id code : string) | ReadSlice | Monitor | CloseJoin.

Definition answer (e : effect) : Type :=
  match e with
  | Buffered => Z
  | GetControl | SetDeadline _ | WriteReview _ _ | WriteResult _ _ => bool
  | CallPrepare _ => result run_err Review
  | CallRun _ _ => option Result * option run_err
  | RandomBytes => option string
  | Now => Time
  | Ctx => option ctx_err
  | ReadSlice => option (list Z)
  | CallDiscard _ | WriteError _ _ | Monitor | CloseJoin => unit
  end.

Local Notation prog := (@Effects.prog effect answer).
Local Notation obs := (@Effects.obs effect answer).
Local Notation "x <~ e ;; k" := (Do e (λ x, k)) (at level 60, e at next level, right associativity).
Local Notation "x <== p ;; k" := (bind p (λ x, k)) (at level 60, p at next level, right associativity).

Definition fail (id code : string) : prog unit := u <~ WriteError id code ;; Ret tt.

Definition gatewayFrame (k : option (list Z) → prog unit) : prog unit :=
  frame <~ ReadSlice ;;
  k (match frame with Some f => if gatewayFrameLimit <? llen f then None else Some f | None => None end).

(** The parameter of a decoded request. *)
Definition parameter (exact : list (string * content)) : option string :=
  match member "params" exact with
  | Some (VRaw raw) =>
      ms ← decodeGatewayObject raw [(param_name, FString)];
      match member param_name ms with Some (VString p) => Some p | _ => None end
  | _ => None
  end.

(** After the approval: one run, watched for any sign of the peer leaving, and its result. *)
Definition execute (id : string) (tk : Ticket) (wire : WireReview) : prog unit :=
  now <~ Now ;;
  set <~ SetDeadline (delivery_deadline now (expires_of wire)) ;;
  if negb set then Ret tt
  else
    m <~ Monitor ;;
    out <~ CallRun tk true ;;
    let '(res, runErr) := (out : option Result * option run_err) in
    u <== match res with
          | None => fail id (match runErr with Some e => errorCode e | None => "unavailable" end)
          | Some res =>
              if result_run res == "" then fail id (match runErr with Some e => errorCode e | None => "unavailable" end)
              else
                now <~ Now ;;
                let output := project_result wire res runErr in
                if negb (validate_result output wire now) then fail id "unavailable"
                else (w <~ WriteResult id output ;; Ret tt)
          end ;;
    j <~ CloseJoin ;;
    Ret tt.

(** The decision about a delivered review. *)
Definition decide_on (id : string) (tk : Ticket) (wire : WireReview) : prog unit :=
  gatewayFrame (λ frame,
    match frame ≫= decision with
    | None => fail id "invalid_request"
    | Some (challenge, approve) =>
        if challenge != challenge_of wire then fail id "invalid_request"
        else
          b <~ Buffered ;;
          if negb (b =? 0) then fail id "invalid_request"
          else
            now <~ Now ;;
            if negb (Before now (expires_of wire)) then fail id "review_expired"
            else
              ctx <~ Ctx ;;
              if is_some ctx then fail id "review_expired"
              else if negb approve then
                u <~ CallDiscard tk ;;
                w <~ WriteResult id (declined wire) ;;
                Ret tt
              else execute id tk wire
    end).

(** Between [Prepare] and the deferred [Discard]. *)
Definition deliver (id param : string) (review : Review) : prog unit :=
  random <~ RandomBytes ;;
  match random with
  | None => fail id "unavailable"
  | Some random =>
      let wire := project_review review (EncodeToString random) in
      now <~ Now ;;
      if negb (validate_review wire param now) then fail id "review_expired"
      else
        set <~ SetDeadline (expires_of wire) ;;
        if negb set then Ret tt
        else
          written <~ WriteReview id wire ;;
          if negb written then Ret tt else decide_on id (review_ticket review) wire
  end.

(** [id]: the identifier of the authenticated request; [payload]: its bytes. *)
Definition check (id : string) (payload : list Z) : prog unit :=
  match (if MatchString gatewayID id && bool_decide (last payload = Some 10) then decodeGatewayObject payload request_fields else None) with
  | None => fail "" "invalid_request"
  | Some exact =>
      match parameter exact with
      | None => fail id "invalid_request"
      | Some param =>
          if negb (param_ok param) then fail id "invalid_request"
          else
            b <~ Buffered ;;
            if negb (b =? 0) then fail id "invalid_request"
            else
              present <~ GetControl ;;
              if negb present then fail id "unavailable"
              else
                prepared <~ CallPrepare (param_target param) ;;
                match prepared with
                | Err e => fail id (errorCode e)
                | Ok review =>
                    u <== deliver id param review ;;
                    d <~ CallDiscard (review_ticket review) ;;
                    Ret tt
                end
      end
  end.

(** *** What every exchange keeps *)

Definition is_run (o : obs) : bool := match o with Obs (CallRun _ _) _ => true | _ => false end.
Definition no_run (tr : list obs) : Prop := forallb (λ o, negb (is_run o)) tr = true.

(** The parameter a payload asks for. *)
Definition requested (payload : list Z) : option string := decodeGatewayObject payload request_fields ≫= parameter.

(** Before: a review was prepared for the parameter and delivered under a fresh challenge
    while it was valid, and a later frame approved that challenge before the expiry. *)
Definition approved (param : string) (before : list obs) (tk : Ticket) : Prop :=
  ∃ id review random checked wire frame decided,
    [Obs (CallPrepare (param_target param)) (Ok review); Obs RandomBytes (Some random); Obs Now checked;
     Obs (WriteReview id wire) true; Obs ReadSlice (Some frame); Obs Now decided; Obs Ctx None] `sublist_of` before ∧
    wire = project_review review (EncodeToString random) ∧ tk = review_ticket review ∧
    validate_review wire param checked = true ∧ decision frame = Some (challenge_of wire, true) ∧ Before decided (expires_of wire) = true.

(** The result of a decline, or of the run. *)
Definition settled (before : list obs) (w : WireResult) : Prop :=
  ∃ id wire now, Obs (WriteReview id wire) true ∈ before ∧ validate_result w wire now = true ∧
    ((w = declined wire ∧ no_run before ∧ ∃ frame, Obs ReadSlice (Some frame) ∈ before ∧ decision frame = Some (challenge_of wire, false)) ∨
     (∃ tk res err, Obs (CallRun tk true) (Some res, err) ∈ before ∧ w = project_result wire res err)).

Definition lawful (param : string) (before : list obs) (e : effect) : answer e → list obs → Prop :=
  match e with
  | CallPrepare _ => λ a after, ∀ review, a = Ok review → Obs (CallDiscard (review_ticket review)) tt ∈ after
  | CallRun tk consent => λ _ after, consent = true ∧ approved param before tk ∧ no_run (before ++ after) ∧ Obs (CallDiscard tk) tt ∈ after
  | WriteResult _ w => λ _ after, settled before w ∧ no_run after
  | _ => λ _ _, True
  end.

(** Finds a subsequence, or one, of known observations. *)
Ltac solve_sublist := repeat (apply sublist_skip || apply sublist_cons || apply sublist_nil_l).
Ltac solve_elem := repeat first [apply list_elem_of_here | apply list_elem_of_further].
(** The end of a run: its trace is known. *)
Ltac ended := repeat match goal with a : answer (CallDiscard _) |- _ => destruct a end; unfold gstep, history; cbn [app every lawful]; split_and!; try done; try (intros ? [= <-]); try solve [solve_elem].
Ltac branch := match goal with |- context [if negb ?b then _ else _] => destruct b eqn:?; cbn [negb wp bind]; [|try (intros; by ended)] end.

Lemma session_lawful id payload tr x : run (check id payload) tr x → every (lawful (default "" (requested payload))) [] tr.
Proof.
  intros Hr. apply (history_run _ _ _ (λ tr _, every _ [] tr) Hr). clear Hr tr x.
  unfold check, requested. destruct (_ && _); cbn [wp]; [|done]. destruct (decodeGatewayObject payload _) as [exact|]; cbn [mbind option_bind]; [|done].
  destruct (parameter exact) as [param|]; cbn [default]; [|done].
  unfold deliver, decide_on, gatewayFrame, execute, fail.
  destruct (param_ok param); cbn [negb wp]; [|done]. intros b _. destruct (b =? 0); cbn [negb wp]; [|done].
  intros [] _; cbn [negb wp]; [|done]. intros [review|e] _; cbn [wp bind]; [|done].
  intros [random|] _; cbn [wp bind]; [|intros; by ended].
  intros checked _. branch. intros [] _; cbn [negb wp bind]; [|intros; by ended]. intros [] _; cbn [negb wp bind]; [|intros; by ended].
  intros [frame|] _; [destruct (_ <? _)|]; cbn [wp bind mbind option_bind]; [intros; by ended| |intros; by ended].
  destruct (decision frame) as [[challenge approve]|] eqn:Hd; cbn [wp bind]; [|intros; by ended].
  destruct (bool_decide (challenge = _)) eqn:Hc; cbn [negb wp bind]; [|intros; by ended]. apply bool_decide_eq_true in Hc. subst challenge.
  intros b' _. branch. intros decided _. branch. intros [e|] _; cbn [wp bind is_some]; [intros; by ended|].
  destruct approve; cbn [negb wp bind].
  - intros now _ [] _; cbn [negb wp bind]; [|intros; by ended]. intros [] _.
    assert (Ha : ∀ id' w', approved param
      [Obs Buffered b; Obs GetControl true; Obs (CallPrepare (param_target param)) (Ok review); Obs RandomBytes (Some random); Obs Now checked;
       Obs (SetDeadline w') true; Obs (WriteReview id' (project_review review (EncodeToString random))) true; Obs ReadSlice (Some frame); Obs Buffered b'; Obs Now decided; Obs Ctx None;
       Obs Now now; Obs (SetDeadline (delivery_deadline now (expires_of (project_review review (EncodeToString random))))) true; Obs Monitor ()] (review_ticket review)).
    { intros id' w'. exists id', review, random, checked, (project_review review (EncodeToString random)), frame, decided. split; [solve_sublist|]. done. }
    intros [[res|] runErr] _; cbn [wp bind]; [|intros; by ended].
    destruct (bool_decide (result_run res = "")); cbn [wp bind]; [intros; by ended|].
    intros now' _. branch.
    intros. ended. eexists _, _, now'. split_and!; [solve_elem|done|]. right. eexists _, _, _. split; [solve_elem|done].
  - intros [] _ written _ [] _. ended. eexists _, _, checked. split_and!; [solve_elem|apply declined_valid|]. left. split_and!; [done..|].
    exists frame. split; [solve_elem|done].
Qed.


(** C37: a check runs only with consent.  In every run of the server's side of the exchange, whatever the
    connection, the clock and the control answer: the control is run at most once, only for the ticket of
    the review prepared for the requested parameter, after that review was validated and delivered under a
    fresh challenge and a later frame approved this challenge before the review expired; every ticket that
    was issued is discarded in the end, and the one result that is written belongs to the delivered review
    and is valid, either a decline without a run or what the run returned. *)
Theorem consent_gated id payload tr x : run (check id payload) tr x → every (lawful (default "" (requested payload))) [] tr.
Proof. apply session_lawful. Qed.

(** ** The client *)

(** [api.Response]; of an error only the code is kept. *)
Record Response := mkResponse { rVersion : Z; rID : string; rError : option string; rResult : list Z }.

Definition apiVersion : Z := 1.
Definition known_codes : list string :=
  ["unauthorized"; "unavailable"; "cooldown"; "busy"; "review_expired"; "invalid_request"; "precondition_failed";
   "audit_unconfirmed"; "clock_invalid"; "canceled"; "execution_failed"].

Inductive client_err : Type :=
| CProtocol | CInterrupted | CSecret | CIdentity | CConfirm | CContext (e : ctx_err) | CResponse (code : string).

Inductive client_effect : Type :=
| ParentErr | LoadSecret | Dial | VerifyPeer | CNow | CSetDeadline (t : Time) | SendRequest (secret param : string) | CRead
| Confirm (w : WireReview) | DecisionErr | SendDecision (challenge : string) (approve : bool) | CtxErr.

(** The peer's identity: whether it is verified, and the user; [Confirm] may fail. *)
Definition client_answer (e : client_effect) : Type :=
  match e with
  | ParentErr | DecisionErr | CtxErr => option ctx_err
  | LoadSecret => option string
  | Dial | SendRequest _ _ | SendDecision _ _ => bool
  | VerifyPeer => option (bool * Z)
  | CNow => Time
  | CSetDeadline _ => unit
  | CRead => option (list Z)
  | Confirm _ => option bool
  end.

Local Notation cprog := (@Effects.prog client_effect client_answer).
Local Notation cobs := (@Effects.obs client_effect client_answer).

Section Client.
(** The strict struct decoders of [encoding/json], and the effective user. *)
Context (decode_response : list Z → option Response) (decode_review : list Z → option WireReview).
Context (decode_result : list Z → option WireResult) (euid : Z) (client_id : string).

(** The content of a response frame. *)
Definition response (frame : option (list Z)) : result client_err (list Z) :=
  match frame with
  | None => Err CInterrupted
  | Some f =>
      if response_limit <? llen f then Err CInterrupted
      else match decode_response f with
           | None => Err CProtocol
           | Some r =>
               if negb (rVersion r =? apiVersion) || (rID r != client_id) || Bool.eqb (negb (is_some (rError r))) (llen (rResult r) =? 0) then Err CProtocol
               else match rError r with
                    | Some code => Err (CResponse (if bool_decide (code ∈ known_codes) then code else "unavailable"))
                    | None => Ok (rResult r)
                    end
           end
  end.

(** From the approval or the decline to the result. *)
Definition conclude (review : WireReview) (approve : bool) : cprog (result client_err WireResult) :=
  now <~ CNow ;;
  u <~ CSetDeadline (delivery_deadline now (expires_of review)) ;;
  sent <~ SendDecision (challenge_of review) approve ;;
  if negb sent then Ret (Err CInterrupted)
  else
    frame <~ CRead ;;
    match response frame with
    | Err e =>
        ctx <~ CtxErr ;;
        Ret (Err (match ctx with Some c => CContext c | None => e end))
    | Ok raw =>
        match decode_result raw with
        | None => Ret (Err CProtocol)
        | Some res =>
            now <~ CNow ;;
            if negb (validate_result res review now) then Ret (Err CProtocol)
            else if compares_outcome && Bool.eqb approve (outcome_of res == "declined") then Ret (Err CProtocol)
            else Ret (Ok res)
        end
    end.

(** The user is asked about a validated review. *)
Definition ask (review : WireReview) : cprog (result client_err WireResult) :=
  confirmed <~ Confirm review ;;
  match confirmed with
  | None => Ret (Err CConfirm)
  | Some approve =>
      ctx <~ DecisionErr ;;
      match ctx with
      | Some e => Ret (Err (CContext e))
      | None =>
          now <~ CNow ;;
          if negb (Before now (expires_of review)) then Ret (Err (CContext DeadlineExceeded)) else conclude review approve
      end
  end.

(** On a verified connection. *)
Definition converse (secret param : string) : cprog (result client_err WireResult) :=
  now <~ CNow ;;
  u <~ CSetDeadline (Add now request_timeout) ;;
  sent <~ SendRequest secret param ;;
  if negb sent then Ret (Err CInterrupted)
  else
    frame <~ CRead ;;
    match response frame with
    | Err e => Ret (Err e)
    | Ok raw =>
        match decode_review raw with
        | None => Ret (Err CProtocol)
        | Some review =>
            now <~ CNow ;;
            if negb (validate_review review param now) then Ret (Err CProtocol) else ask review
        end
    end.

(** [CheckGateway], [CheckResolver], [CheckHTTPS]; [present]: the client and the callback are. *)
Definition client (present : bool) (param : string) : cprog (result client_err WireResult) :=
  if negb present || negb (param_ok param) then Ret (Err CProtocol)
  else
    ctx <~ ParentErr ;;
    match ctx with
    | Some e => Ret (Err (CContext e))
    | None =>
        secret <~ LoadSecret ;;
        match secret with
        | None => Ret (Err CSecret)
        | Some secret =>
            conn <~ Dial ;;
            if negb conn then Ret (Err CInterrupted)
            else
              peer <~ VerifyPeer ;;
              match peer with
              | Some (true, uid) => if uid =? euid then converse secret param else Ret (Err CIdentity)
              | _ => Ret (Err CIdentity)
              end
        end
    end.

(** *** What every client keeps *)

Definition asks (o : cobs) : bool := match o with Obs (Confirm _) _ | Obs (SendDecision _ _) _ => true | _ => false end.
Definition not_asked (tr : list cobs) : Prop := forallb (λ o, negb (asks o)) tr = true.

(** The user sees a review of the request, from the verified peer, that is valid. *)
Definition shown (param : string) (before : list cobs) (w : WireReview) : Prop :=
  ∃ secret frame raw t,
    [Obs VerifyPeer (Some (true, euid)); Obs (SendRequest secret param) true; Obs CRead (Some frame); Obs CNow t] `sublist_of` before ∧
    response (Some frame) = Ok raw ∧ decode_review raw = Some w ∧ validate_review w param t = true.

(** The user's answer to the review, given in time. *)
Definition answered (before : list cobs) (challenge : string) (approve : bool) : Prop :=
  ∃ w t, [Obs (Confirm w) (Some approve); Obs DecisionErr None; Obs CNow t] `sublist_of` before ∧
    challenge = challenge_of w ∧ Before t (expires_of w) = true.

Definition honest (param : string) (before : list cobs) (e : client_effect) : client_answer e → list cobs → Prop :=
  match e with
  | Confirm w => λ _ _, shown param before w ∧ not_asked before
  | SendDecision challenge approve => λ _ after, answered before challenge approve ∧ not_asked after
  | _ => λ _ _, True
  end.

(** A returned result belongs to the review the user answered; where the client compares
    them, it is a decline exactly if the user declined. *)
Definition accepted (tr : list cobs) (x : result client_err WireResult) : Prop :=
  ∀ res, x = Ok res → ∃ w approve t,
    [Obs (Confirm w) (Some approve); Obs (SendDecision (challenge_of w) approve) true] `sublist_of` tr ∧
    validate_result res w t = true ∧ (compares_outcome = true → (outcome_of res = "declined" ↔ approve = false)).

Ltac told := unfold gstep, history; cbn [app every honest]; split_and!; try done.

Lemma client_honest present param tr x : run (client present param) tr x → every (honest param) [] tr ∧ accepted tr x.
Proof.
  intros Hr. apply (history_run _ _ _ (λ tr x, every _ [] tr ∧ accepted tr x) Hr). clear Hr tr x.
  assert (Hq : ∀ tr e, every (honest param) [] tr → every (honest param) [] tr ∧ accepted tr (Err e)) by (intros; split; [done|by intros ? [=]]).
  unfold client, converse, ask, conclude. destruct (_ || _); cbn [wp]; [by apply Hq|].
  intros [e|] _; cbn [wp]; [by apply Hq|]. intros [secret|] _; cbn [wp]; [|by apply Hq].
  intros [] _; cbn [wp negb]; [|by apply Hq]. intros [[[] uid]|] _; cbn [wp]; [|by apply Hq..].
  destruct (uid =? euid) eqn:Hu; cbn [wp]; [|by apply Hq]. apply Z.eqb_eq in Hu. subst uid.
  intros now _ u _ [] _; cbn [wp negb]; [|by apply Hq]. intros frame _.
  destruct (response frame) as [raw|e] eqn:Hresp; cbn [wp]; [|by apply Hq].
  destruct (decode_review raw) as [review|] eqn:Hrev; cbn [wp]; [|by apply Hq]. intros t _.
  destruct (validate_review review param t) eqn:Hv; cbn [wp negb]; [|by apply Hq].
  destruct frame as [frame|]; [|done].
  assert (Hs : ∀ c d, shown param [Obs ParentErr None; Obs LoadSecret (Some secret); Obs Dial true; Obs VerifyPeer (Some (true, euid)); Obs CNow c;
     Obs (CSetDeadline d) u; Obs (SendRequest secret param) true; Obs CRead (Some frame); Obs CNow t] review).
  { intros c d. exists secret, frame, raw, t. split; [solve_sublist|done]. }
  assert (Hd : ∀ approve t' before, [Obs (Confirm review) (Some approve); Obs DecisionErr None; Obs CNow t'] `sublist_of` before →
    Before t' (expires_of review) = true → answered before (challenge_of review) approve) by (intros approve t' before; exists review, t'; done).
  intros [approve|] _; cbn [wp]; [|apply Hq; by told]. intros [e|] _; cbn [wp]; [apply Hq; by told|]. intros t1 _.
  destruct (Before t1 _) eqn:Hb; cbn [wp negb]; [|apply Hq; by told]. intros t2 _ u2 _ sent _.
  specialize (λ before H, Hd approve t1 before H Hb).
  destruct sent; cbn [wp negb]; [|apply Hq; told; apply Hd; solve_sublist].
  intros frame' _. destruct (response frame') as [raw'|e]; cbn [wp]; [|intros ctx _; apply Hq; told; apply Hd; solve_sublist].
  destruct (decode_result raw') as [res|]; cbn [wp]; [|apply Hq; told; apply Hd; solve_sublist]. intros t3 _.
  destruct (validate_result res review t3) eqn:Hr; cbn [wp negb]; [|apply Hq; told; apply Hd; solve_sublist].
  destruct (compares_outcome && _) eqn:Ho; cbn [wp]; [apply Hq; told; apply Hd; solve_sublist|].
  split; [told; apply Hd; solve_sublist|]. intros res' [= <-]. exists review, approve, t3. split; [solve_sublist|]. split; [done|].
  intros Hc. rewrite Hc in Ho. cbn [andb] in Ho. destruct approve, (bool_decide (outcome_of res = _)) eqn:Hx; try done;
    [apply bool_decide_eq_false in Hx|apply bool_decide_eq_true in Hx]; naive_solver.
Qed.

(** *** End to end *)

Lemma sublist_elem {A} (x : A) (l k : list A) : l `sublist_of` k → x ∈ l → x ∈ k.
Proof. induction 1 as [|y l k _ IH|y l k _ IH]; [done|..]; rewrite !elem_of_cons; naive_solver. Qed.

(** A decision that was sent answers a validated review as the user did. *)
Lemma decision_confirmed present param ctr res c b sent :
  run (client present param) ctr res → Obs (SendDecision c b) sent ∈ ctr →
  ∃ w t, Obs (Confirm w) (Some b) ∈ ctr ∧ c = challenge_of w ∧ validate_review w param t = true.
Proof.
  intros [He _]%client_honest Hs. destruct (every_elem _ _ _ _ He Hs) as (before & after & -> & (w & t & Hsub & -> & _) & _).
  assert (Hc : Obs (Confirm w) (Some b) ∈ before ++ Obs (SendDecision (challenge_of w) b) sent :: after).
  { apply elem_of_app. left. eapply sublist_elem; [exact Hsub|]. apply list_elem_of_here. }
  destruct (every_elem _ _ _ _ He Hc) as (? & ? & _ & (? & ? & ? & t' & _ & _ & _ & Hv) & _). by exists w, t'.
Qed.

Lemma end_to_end id payload tr x present param ctr res tk consent a :
  run (check id payload) tr x → run (client present param) ctr res →
  (∀ frame, Obs ReadSlice (Some frame) ∈ tr → ∃ c b sent, Obs (SendDecision c b) sent ∈ ctr ∧ frame = encode_decision c b) →
  Obs (CallRun tk consent) a ∈ tr →
  ∃ id' wire w checked seen,
    Obs (WriteReview id' wire) true ∈ tr ∧ Obs (Confirm w) (Some true) ∈ ctr ∧ challenge_of w = challenge_of wire ∧
    validate_review wire (default "" (requested payload)) checked = true ∧ validate_review w param seen = true.
Proof.
  intros Hserver Hclient Hlink Hrun. apply session_lawful in Hserver.
  destruct (every_elem _ _ _ _ Hserver Hrun) as (before & after & -> & _ & (id' & review & random & checked & wire & frame & decided & Hsub & _ & _ & Hv & Hd & _) & _).
  assert (Hin : ∀ o, o ∈ [Obs (WriteReview id' wire) true; Obs ReadSlice (Some frame)] → o ∈ before ++ Obs (CallRun tk consent) a :: after).
  { intros o Ho. apply elem_of_app. left. eapply sublist_elem; [exact Hsub|]. set_solver. }
  destruct (Hlink frame) as (c & b & sent & Hs & ->); [apply Hin; set_solver|].
  destruct (decision_confirmed _ _ _ _ _ _ _ Hclient Hs) as (w & t & Hw & -> & Hvw).
  rewrite decision_roundtrip_aux in Hd by by eapply challenge_valid. injection Hd as Hc ->.
  exists id', wire, w, checked, t. split_and!; [apply Hin; set_solver|done..].
Qed.

(** The client decides for its user.  In every run of the client's side of the exchange, the user is
    asked at most once, about a review for the requested parameter that the verified peer of the same user
    sent and that is valid when it is shown; the decision that is sent repeats the challenge of that review
    and the user's answer, while the review is live; and a result is returned only if it is valid for that
    review and, where the client compares them, declined exactly if the user declined. *)
Theorem client_consents present param tr x : run (client present param) tr x → every (honest param) [] tr ∧ accepted tr x.
Proof. apply client_honest. Qed.

(** C38: consent is end to end.  If the frames a server reads are decisions of a client on that connection,
    then the control is run only if that client's user was shown a valid review with the challenge of the
    review the server delivered for the requested parameter, and approved it. *)
Theorem consent_end_to_end id payload tr x present param ctr res tk consent a :
  run (check id payload) tr x → run (client present param) ctr res →
  (∀ frame, Obs ReadSlice (Some frame) ∈ tr → ∃ c b sent, Obs (SendDecision c b) sent ∈ ctr ∧ frame = encode_decision c b) →
  Obs (CallRun tk consent) a ∈ tr →
  ∃ id' wire w checked seen,
    Obs (WriteReview id' wire) true ∈ tr ∧ Obs (Confirm w) (Some true) ∈ ctr ∧ challenge_of w = challenge_of wire ∧
    validate_review wire (default "" (requested payload)) checked = true ∧ validate_review w param seen = true.
Proof. apply end_to_end. Qed.

End Client.
End Protocol.
End Session.
