(* ===== verification/GoMarshal.v ===== *)
(** * JSON between maps and structs

    What the controller uses of [encoding/json] to hand a record from one package to another:
    [json.Marshal] of a [map[string]any] (keys in order, strings escaped for HTML) and
    [json.Unmarshal] into a struct with tags (keys matched exactly or by case folding,
    unknown keys ignored, a later key overwriting an earlier one, [null] leaving the field as
    it is).  The keys of a map and the tags of a struct are written out by the components
    that use them. *)

From Stdlib Require Import Ascii.
From S2P Require Import Prelude Regex GoJSON ConsentSession.

Module Marshal.
Import JSON.

(** ** Writing *)

Definition hex_of (d : Z) : Z := if d <? 10 then 48 + d else 87 + d.

(** A byte below 128 as the encoder writes it. *)
Definition escape_byte (c : Z) : list Z :=
  if (c =? 34) || (c =? 92) then [92; c]
  else if c =? 8 then [92; 98] else if c =? 12 then [92; 102] else if c =? 10 then [92; 110]
  else if c =? 13 then [92; 114] else if c =? 9 then [92; 116]
  else if (c <? 32) || html c then [92; 117; 48; 48; hex_of (c / 16); hex_of (c mod 16)]
  else [c].

Fixpoint escape (p : list Z) : list Z :=
  match p with
  | [] => []
  | c :: r =>
      match sequence p, r with
      | 1%nat, _ => escape_byte c ++ escape r
      | 2%nat, d :: r2 => c :: d :: escape r2
      | 3%nat, d :: e :: r3 => (if line_separator p then [92; 117; 50; 48; 50; hex_of (e - 160)] else [c; d; e]) ++ escape r3
      | 4%nat, d :: e :: f :: r4 => c :: d :: e :: f :: escape r4
      | _, _ => [92; 117; 102; 102; 102; 100] ++ escape r
      end
  end.

Definition quote (p : list Z) : list Z := quoted (escape p).

Definition join (parts : list (list Z)) : list Z :=
  match parts with [] => [] | x :: rest => x ++ flat_map (λ y, 44 :: y) rest end.

Fixpoint write (v : json) : list Z :=
  match v with
  | JNull => sbytes "null"
  | JBool b => sbytes (if b then "true" else "false")
  | JNumber t => t
  | JString s => quote s
  | JArray xs => 91 :: join (map write xs) ++ [93]
  | JObject ms => 123 :: join (map (λ m, match m with (k, v) => quote k ++ 58 :: write v end) ms) ++ [125]
  end.

(** A map is written with its keys in order. *)
Definition key_le (x y : string * json) : Prop := String.le x.1 y.1.
#[export] Instance key_le_dec : RelDecision key_le.
Proof. intros x y. unfold key_le. apply _. Defined.
Definition map_value (ms : list (string * json)) : json := JObject (map (λ m, (sbytes m.1, m.2)) (merge_sort key_le ms)).
Definition marshal_map (ms : list (string * json)) : string := of_bytes (write (map_value ms)).
Definition text_value (s : string) : json := JString (sbytes s).

(** ** Reading *)

(** The folding of a key: besides the capitals, U+212A folds to [k] and U+017F to [s]; no other
    rune folds to an ASCII letter. *)
Fixpoint fold_name (p : list Z) : list Z :=
  match p with
  | [] => []
  | c :: r =>
      match r with
      | d :: r' =>
          if (c =? 197) && (d =? 191) then 115 :: fold_name r'
          else match r' with
               | e :: r'' => if (c =? 226) && (d =? 132) && (e =? 170) then 107 :: fold_name r''
                             else (if between 65 90 c then c + 32 else c) :: fold_name r
               | [] => (if between 65 90 c then c + 32 else c) :: fold_name r
               end
      | [] => [if between 65 90 c then c + 32 else c]
      end
  end.

(** The field of a key: the one with this tag, or the first whose tag folds alike. *)
Definition field_of {F} (fields : list (string * F)) (key : list Z) : option (string * F) :=
  match list_find (λ f, sbytes f.1 = key) fields with
  | Some (_, f) => Some f
  | None => snd <$> list_find (λ f, fold_name (sbytes f.1) = fold_name key) fields
  end.

(** The kinds of fields, and what they hold. *)
Inductive kind := KString | KInt.
Definition store (k : kind) (v : json) (old : option Session.content) : option (option Session.content) :=
  match k, v with
  | _, JNull => Some old
  | KString, JString s => Some (Some (Session.VString (of_bytes s)))
  | KInt, JNumber t => n ← Session.ParseInt t; Some (Some (Session.VInt n))
  | _, _ => None
  end.

(** The members of an object into the fields of a struct; [None] for a value of another type. *)
Definition store_member (fields : list (string * kind)) (s : string → option Session.content) (m : list Z * json)
  : option (string → option Session.content) :=
  match field_of fields m.1 with
  | None => Some s
  | Some (tag, k) => c ← store k m.2 (s tag); Some (λ t, if t == tag then c else s t)
  end.

Fixpoint store_members (fields : list (string * kind)) (ms : list (list Z * json)) (s : string → option Session.content)
  : option (string → option Session.content) :=
  match ms with [] => Some s | m :: ms => s ← store_member fields s m; store_members fields ms s end.

Definition unmarshal_struct (fields : list (string * kind)) (raw : string) : option (string → option Session.content) :=
  v ← parse (sbytes raw);
  match v with
  | JNull => Some (λ _, None)
  | JObject ms => store_members fields ms (λ _, None)
  | _ => None
  end.

Definition text_field (s : string → option Session.content) (tag : string) : string :=
  match s tag with Some (Session.VString x) => x | _ => "" end.
Definition int_field (s : string → option Session.content) (tag : string) : Z :=
  match s tag with Some (Session.VInt n) => n | _ => 0 end.

(** ** Texts that need no escapes *)

Definition verbatim (c : Z) : bool := plain c && negb (html c).
Definition verbatim_text (s : string) : Prop := Forall (λ c, verbatim c = true) (sbytes s).

Lemma escape_verbatim p : Forall (λ c, verbatim c = true) p → escape p = p.
Proof.
  induction 1 as [|c p Hc _ IH]; [done|]. unfold verbatim, plain in Hc. go_bool. cbn [escape].
  assert (Hs : sequence (c :: p) = 1%nat) by (simpl; by rewrite (proj2 (Z.ltb_lt c 128)) by lia). rewrite Hs, IH. unfold escape_byte.
  assert (Hh : html c = false) by done. rewrite Hh. repeat rewrite (proj2 (Z.eqb_neq c _)) by lia. by rewrite (proj2 (Z.ltb_ge c 32)) by lia.
Qed.

Lemma verbatim_plain p : Forall (λ c, verbatim c = true) p → Forall (λ c, plain c = true) p.
Proof. intros Hp. eapply Forall_impl; [exact Hp|]. intros c Hc. unfold verbatim in Hc. by apply andb_true_iff in Hc as [? _]. Qed.

(** A value that is read back wherever a member ends. *)
Definition ends (rest : list Z) : Prop := ∃ c r, rest = c :: r ∧ (c = 44 ∨ c = 125).
Definition reads (v : json) : Prop := ∀ fuel depth rest, ends rest → value (S fuel) depth (write v ++ rest) = Some (v, rest).

Lemma reads_text s : verbatim_text s → reads (JString (sbytes s)).
Proof.
  intros Hs fuel depth rest _. unfold write, quote. rewrite escape_verbatim by done. unfold quoted. cbn [app value skip]. simpl.
  rewrite <- app_assoc. simpl. by rewrite unquote_plain by (by apply verbatim_plain).
Qed.

Lemma reads_one : reads (JNumber [49]).
Proof. intros fuel depth rest (c & r & -> & [-> | ->]); reflexivity. Qed.

(** What is written is bytes. *)
Definition bytes (p : list Z) : Prop := Forall (λ c, 0 <= c < 256) p.

Lemma sbytes_of_bytes p : bytes p → sbytes (of_bytes p) = p.
Proof.
  intros Hp. unfold sbytes, of_bytes. rewrite String.list_ascii_of_string_of_list_ascii, map_map.
  induction Hp as [|c p Hc _ IH]; [done|]. simpl. rewrite IH. unfold byte_of. rewrite N_ascii_embedding by lia. f_equal. lia.
Qed.

Lemma verbatim_bytes p : Forall (λ c, verbatim c = true) p → bytes p.
Proof. intros Hp. eapply Forall_impl; [exact Hp|]. intros c Hc. unfold verbatim, plain in Hc. go_bool. lia. Qed.

Lemma quote_bytes p : Forall (λ c, verbatim c = true) p → bytes (quote p).
Proof.
  intros Hp. unfold quote. rewrite escape_verbatim by done. unfold quoted, bytes. constructor; [lia|]. apply Forall_app. split; [by apply verbatim_bytes|].
  repeat constructor; lia.
Qed.

Definition flat (m : list Z * json) : Prop := Forall (λ c, verbatim c = true) m.1 ∧ reads m.2 ∧ bytes (write m.2).

Lemma flat_text k s : verbatim_text k → verbatim_text s → flat (sbytes k, text_value s).
Proof. intros Hk Hs. split; [done|]. split; [by apply reads_text|by apply quote_bytes]. Qed.

Lemma flat_one k : verbatim_text k → flat (sbytes k, JNumber [49]).
Proof. intros Hk. split; [done|]. split; [apply reads_one|repeat constructor; simpl; lia]. Qed.

Definition member_text (m : list Z * json) : list Z := match m with (k, v) => quote k ++ 58 :: write v end.

(** One member, up to its value. *)
Lemma members_step fuel depth k p : Forall (λ c, verbatim c = true) k →
  members (S fuel) depth (quote k ++ 58 :: p) =
  '(v, r) ← value fuel depth p;
  match skip r with
  | [] => None
  | c :: r => if c =? 44 then '(ms, r) ← members fuel depth r; Some ((k, v) :: ms, r) else if c =? 125 then Some ([(k, v)], r) else None
  end.
Proof.
  intros Hk. unfold quote. rewrite escape_verbatim by done. unfold quoted. cbn [app]. rewrite <- app_assoc. cbn [app members].
  change (skip (34 :: k ++ 34 :: 58 :: p)) with (34 :: k ++ 34 :: 58 :: p). cbv iota. change (negb (34 =? 34)) with false. cbv iota.
  rewrite unquote_plain by (by apply verbatim_plain). cbn [mbind option_bind]. change (skip (58 :: p)) with (58 :: p). cbv iota.
  change (negb (58 =? 58)) with false. done.
Qed.

Lemma members_read ms : ∀ fuel depth rest m, Forall flat (m :: ms) → (length ms < fuel)%nat →
  members (S fuel) depth (join (map member_text (m :: ms)) ++ 125 :: rest) = Some (m :: ms, rest).
Proof.
  induction ms as [|m' ms IH]; intros fuel depth rest [k v] Hf Hl; apply Forall_cons in Hf as [(Hk & Hv & _) Hf]; simpl in Hk, Hv;
    (destruct fuel as [|fuel]; [simpl in Hl; lia|]); cbn [map join flat_map member_text].
  - rewrite app_nil_r, <- app_assoc. cbn [app]. rewrite members_step by done.
    rewrite Hv by (eexists _, _; split; [done|by right]). done.
  - rewrite <- !app_assoc. cbn [app]. rewrite members_step by done. rewrite Hv by (eexists _, _; split; [done|by left]).
    cbn [mbind option_bind]. change (skip (44 :: ?q)) with (44 :: q). cbv iota. change (44 =? 44) with true. cbv iota.
    specialize (IH fuel depth rest m' Hf). cbn [map join] in IH. rewrite <- app_assoc in *. rewrite IH by (simpl in Hl; lia). done.
Qed.

Lemma value_object fuel depth p : p ≠ [] → head p = Some 34 → depth < maxNestingDepth →
  value (S fuel) depth (123 :: p) = '(ms, r) ← members fuel (depth + 1) p; Some (JObject ms, r).
Proof.
  destruct p as [|c p]; [done|]. intros _ [= ->] Hd. cbn [value]. change (skip (123 :: ?q)) with (123 :: q). cbv iota.
  change (123 =? 34) with false. change (123 =? 123) with true. cbv iota. rewrite (proj2 (Z.leb_gt _ _) Hd).
  change (skip (34 :: p)) with (34 :: p). cbv iota. by change (34 =? 125) with false.
Qed.

(** A flat object is read back. *)
Lemma parse_object m ms : Forall flat (m :: ms) → parse (write (JObject (m :: ms))) = Some (JObject (m :: ms)).
Proof.
  intros Hf. set (n := (2 * length (write (JObject (m :: ms))) + 2 + length ms)%nat). rewrite (parse_fuel (S (S n))) by lia.
  cbn [write]. fold member_text.
  change (map (λ m, match m with (k, v) => quote k ++ 58 :: write v end) (m :: ms)) with (map member_text (m :: ms)).
  assert (Hq : head (join (map member_text (m :: ms)) ++ [125]) = Some 34) by (by destruct m).
  rewrite value_object; [|by destruct (join _)|done|done]. rewrite members_read by (done || lia). done.
Qed.

Lemma join_bytes ps : Forall bytes ps → bytes (join ps).
Proof.
  intros Hp. destruct Hp as [|p ps Hp Hps]; [constructor|]. unfold join. apply Forall_app. split; [done|].
  induction Hps as [|q ps Hq _ IH]; [constructor|]. constructor; [lia|]. apply Forall_app. by split.
Qed.

Lemma object_bytes ms : Forall flat ms → bytes (write (JObject ms)).
Proof.
  intros Hf. cbn [write]. constructor; [lia|]. apply Forall_app. split; [|repeat constructor; lia]. apply join_bytes, Forall_map.
  eapply Forall_impl; [exact Hf|]. intros [k v] (Hk & _ & Hv). apply Forall_app. split; [by apply quote_bytes|]. by constructor; [lia|].
Qed.

(** A struct reads the members of a flat map. *)
Lemma unmarshal_flat fields ms m rest :
  map (λ m, (sbytes m.1, m.2)) (merge_sort key_le ms) = m :: rest → Forall flat (m :: rest) →
  unmarshal_struct fields (marshal_map ms) = store_members fields (m :: rest) (λ _, None).
Proof.
  intros E Hf. unfold unmarshal_struct, marshal_map, map_value. rewrite E, sbytes_of_bytes by (by apply object_bytes). by rewrite parse_object.
Qed.

End Marshal.
