(* ===== verification/NetText.v ===== *)
(** * The text of an IPv6 address

    [netip.Addr.String] and [netip.ParseAddr] are inverse: the canonical text of RFC 5952,
    with its longest run of zero groups elided and the mapped IPv4 form, parses to the
    address it was printed from.  With the IPv4 case of [NetAddr.v] this makes the canonical
    text of an address a normal form. *)

From Stdlib Require Import Ascii.
From S2P Require Import Prelude Regex NetAddr.

(** ** The digits of a group *)

Lemma sixteen_cases (P : Z → Prop) : Forall P (map Z.of_nat (seq 0 16)) → ∀ d, 0 <= d < 16 → P d.
Proof.
  rewrite Forall_forall. intros HP d Hd. apply HP. apply list_elem_of_fmap. exists (Z.to_nat d). split; [lia|].
  apply elem_of_seq. lia.
Qed.

Lemma hex_value_char d : 0 <= d < 16 → hex_value (hex_char d) = Some d.
Proof. revert d. apply sixteen_cases. simpl map. repeat constructor. Qed.

(** One to four digits, the first of them not a separator. *)
Lemma hex_cases g :
  is_group g → ∃ ds, hex g = map hex_char ds ∧ Forall (λ d, 0 <= d < 16) ds ∧ (1 <= length ds <= 4)%nat ∧
    foldl (λ acc d, acc * 16 + d) 0 ds = g.
Proof.
  intros Hg. unfold is_group in Hg. unfold hex. cbn [digits_fuel].
  assert (Hm : ∀ x, 0 <= x mod 16 < 16) by (intros x; apply Z.mod_pos_bound; lia).
  destruct (Z.eqb_spec (g / 16) 0).
  { exists [g mod 16]. split_and!; [done|by repeat constructor; apply Hm|simpl; lia..|]. simpl. Z.to_euclidean_division_equations; lia. }
  destruct (Z.eqb_spec (g / 16 / 16) 0).
  { exists [g / 16 mod 16; g mod 16]. split_and!; [done|by repeat constructor; apply Hm|simpl; lia..|]. simpl. Z.to_euclidean_division_equations; lia. }
  destruct (Z.eqb_spec (g / 16 / 16 / 16) 0).
  { exists [g / 16 / 16 mod 16; g / 16 mod 16; g mod 16]. split_and!; [done|by repeat constructor; apply Hm|simpl; lia..|]. simpl.
    Z.to_euclidean_division_equations; lia. }
  assert (E : g / 16 / 16 / 16 / 16 = 0) by (Z.to_euclidean_division_equations; lia). rewrite E. simpl (0 =? 0). cbv iota.
  exists [g / 16 / 16 / 16 mod 16; g / 16 / 16 mod 16; g / 16 mod 16; g mod 16].
  split_and!; [done|by repeat constructor; apply Hm|simpl; lia..|]. simpl. Z.to_euclidean_division_equations; lia.
Qed.

(** A separator ends a group. *)
Definition stops (w : list ascii) : Prop := match w with [] => True | c :: _ => hex_value c = None end.

Lemma hex_group_digits ds acc n rest :
  Forall (λ d, 0 <= d < 16) ds → (n + length ds <= 4)%nat → stops rest →
  hex_group (map hex_char ds ++ rest) acc n = Some (foldl (λ acc d, acc * 16 + d) acc ds, (n + length ds)%nat, rest).
Proof.
  revert acc n. induction ds as [|d ds IH]; intros acc n Hd Hn Hs; cbn [map app length foldl].
  - rewrite Nat.add_0_r. destruct rest as [|c rest]; [done|]. simpl in *. by rewrite Hs.
  - apply Forall_cons in Hd as [Hd Hds]. cbn [hex_group]. rewrite hex_value_char by done. simpl length in Hn.
    destruct (Nat.ltb_spec 3 n); [lia|]. rewrite IH by (done || lia). do 2 f_equal. f_equal. lia.
Qed.

Lemma hex_group_hex g rest :
  is_group g → stops rest → ∃ k, hex_group (hex g ++ rest) 0 0 = Some (g, S k, rest).
Proof.
  intros Hg Hs. destruct (hex_cases g Hg) as (ds & -> & Hd & Hl & <-). rewrite hex_group_digits by (done || lia).
  exists (length ds - 1)%nat. do 2 f_equal. f_equal. lia.
Qed.

(** The first character of a group is a digit. *)
Lemma hex_head g rest : is_group g → ∃ c w, hex g ++ rest = c :: w ∧ c ≠ ":"%char.
Proof.
  intros Hg. destruct (hex_cases g Hg) as ([|d ds] & -> & Hd & Hl & _); [simpl in Hl; lia|]. apply Forall_cons in Hd as [Hd _].
  do 2 eexists. split; [done|]. intros E. apply (f_equal hex_value) in E. rewrite hex_value_char in E by done. discriminate E.
Qed.

(** ** The shape of the text *)

Definition tail_join (gs : list Z) : list ascii := flat_map (λ g, ":"%char :: hex g) gs.
Definition join (gs : list Z) : list ascii := match gs with [] => [] | g :: gs => hex g ++ tail_join gs end.

Lemma print_all i gs : print_groups (S i) gs (0, 0)%nat = tail_join gs.
Proof.
  revert i. induction gs as [|g gs IH]; intros i; [done|]. cbn [print_groups tail_join flat_map fst snd].
  rewrite (proj2 (Nat.ltb_ge (S i) 0)) by lia. simpl. by rewrite IH.
Qed.

Lemma print_after i a e gs : (e < i)%nat → print_groups i gs (a, e) = tail_join gs.
Proof.
  revert i. induction gs as [|g gs IH]; intros i Hi; [done|]. cbn [print_groups tail_join flat_map fst snd].
  rewrite (proj2 (Nat.ltb_ge i e)), (proj2 (Nat.ltb_lt 0 i)), (proj2 (Nat.eqb_neq i e)) by lia. simpl. rewrite IH by lia. done.
Qed.

Lemma print_end a e gs : (a < e)%nat → print_groups e gs (a, e) = join gs.
Proof.
  intros Ha. destruct gs as [|g gs]; [done|]. cbn [print_groups join fst snd].
  rewrite (proj2 (Nat.ltb_ge e e)), Nat.eqb_refl, (proj2 (Nat.ltb_lt 0 e)), (proj2 (Nat.eqb_neq e 0)) by lia. simpl.
  by rewrite print_after by lia.
Qed.

Lemma print_within i a e zs post :
  (a < i)%nat → length zs = (e - i)%nat → (i <= e)%nat → print_groups i (zs ++ post) (a, e) = join post.
Proof.
  revert i. induction zs as [|z zs IH]; intros i Ha Hl Hi; cbn [length app] in *.
  - assert (i = e) as -> by lia. by apply print_end.
  - cbn [print_groups fst snd]. rewrite (proj2 (Nat.ltb_lt i e)), (proj2 (Nat.leb_le a i)), (proj2 (Nat.eqb_neq i a)) by lia.
    simpl. apply IH; lia.
Qed.

Lemma print_before i a e pre zs post :
  length pre = (a - i)%nat → (i <= a)%nat → length zs = (e - a)%nat → (a < e)%nat →
  print_groups i (pre ++ zs ++ post) (a, e) =
  (if (i =? 0)%nat then join pre else tail_join pre) ++ ":"%char :: ":"%char :: join post.
Proof.
  revert i. induction pre as [|g pre IH]; intros i Hl Hi Hz Ha; cbn [length app] in *.
  - assert (i = a) as -> by lia. destruct zs as [|z zs]; [simpl in Hz; lia|]. cbn [app print_groups fst snd].
    rewrite (proj2 (Nat.ltb_lt a e)), Nat.leb_refl, Nat.eqb_refl by lia. simpl.
    rewrite print_within; [by destruct (a =? 0)%nat|lia|simpl in Hz; lia|lia].
  - cbn [print_groups fst snd]. rewrite (proj2 (Nat.leb_gt a i)), andb_false_r by lia. cbv iota. rewrite IH by lia.
    destruct (Nat.eqb_spec i 0) as [->|Hne]; simpl.
    + by rewrite <- app_assoc.
    + rewrite (proj2 (Nat.ltb_lt 0 i)), (proj2 (Nat.eqb_neq i e)) by lia. simpl. by rewrite <- app_assoc.
Qed.

(** The run that is elided is one of at least two zero groups. *)
Definition elided (gs : list Z) (run : nat * nat) : Prop :=
  run = (0, 0)%nat ∨
  ∃ pre k post, gs = pre ++ replicate k 0 ++ post ∧ (2 <= k)%nat ∧ run = (length pre, length pre + k)%nat.

Lemma zero_run_split gs : gs = replicate (zero_run gs) 0 ++ drop (zero_run gs) gs.
Proof. induction gs as [|g gs IH]; [done|]. simpl. destruct (Z.eqb_spec g 0) as [->|]; simpl; [by f_equal|done]. Qed.

Lemma best_run_elided full gs pre best :
  full = pre ++ gs → elided full best → elided full (best_run (length pre) gs best).
Proof.
  revert pre best. induction gs as [|g gs IH]; intros pre best Hf Hb; cbn [best_run]; [done|].
  replace (S (length pre)) with (length (pre ++ [g])) by (rewrite length_app; simpl; lia).
  apply IH; [by rewrite <- app_assoc|]. destruct (_ && _) eqn:E; [|done]. apply andb_true_iff in E as [E _]. apply Nat.leb_le in E.
  right. exists pre, (zero_run (g :: gs)), (drop (zero_run (g :: gs)) (g :: gs)). split_and!; [|done..].
  by rewrite <- zero_run_split.
Qed.


(** ** Parsing the text *)

Lemma stops_tail gs rest : stops rest → stops (tail_join gs ++ rest).
Proof. destruct gs; simpl; [done|]. intros _. reflexivity. Qed.

Lemma parse6_last fuel g gs ell :
  is_group g → parse6 (S fuel) (hex g) gs ell = Some (g :: gs, ell, []).
Proof.
  intros Hg. destruct (hex_group_hex g [] Hg I) as [k Hk]. rewrite app_nil_r in Hk. cbn [parse6]. by rewrite Hk.
Qed.

Lemma parse6_more fuel g h gs ell rest :
  is_group g → is_group h →
  parse6 (S fuel) (hex g ++ ":"%char :: hex h ++ rest) gs ell = parse6 fuel (hex h ++ rest) (g :: gs) ell.
Proof.
  intros Hg Hh. destruct (hex_group_hex g (":"%char :: hex h ++ rest) Hg eq_refl) as [k Hk]. cbn [parse6]. rewrite Hk.
  destruct (hex_head h rest Hh) as (c & w & -> & Hc). destruct c as [[] [] [] [] [] [] [] []]; try reflexivity. done.
Qed.

Lemma parse6_ellipsis fuel g gs rest :
  is_group g →
  parse6 (S fuel) (hex g ++ ":"%char :: ":"%char :: rest) gs None =
  match rest with [] => Some (g :: gs, Some (S (length gs)), []) | _ => parse6 fuel rest (g :: gs) (Some (S (length gs))) end.
Proof.
  intros Hg. destruct (hex_group_hex g (":"%char :: ":"%char :: rest) Hg eq_refl) as [k Hk]. cbn [parse6]. rewrite Hk. by destruct rest.
Qed.

Lemma parse6_join fuel g gs acc ell :
  Forall is_group (g :: gs) → (length (g :: gs) <= fuel)%nat →
  parse6 fuel (join (g :: gs)) acc ell = Some (rev (g :: gs) ++ acc, ell, []).
Proof.
  revert fuel g acc. induction gs as [|h gs IH]; intros fuel g acc Hg Hl; (destruct fuel as [|fuel]; [simpl in Hl; lia|]).
  - apply Forall_cons in Hg as [Hg _]. cbn [join tail_join flat_map]. rewrite app_nil_r. by apply parse6_last.
  - apply Forall_cons in Hg as [Hg Hgs]. pose proof Hgs as Hh. apply Forall_cons in Hh as [Hh _].
    change (join (g :: h :: gs)) with (hex g ++ ":"%char :: hex h ++ tail_join gs). rewrite parse6_more by done.
    change (hex h ++ tail_join gs) with (join (h :: gs)). rewrite IH by (done || (simpl in *; lia)). cbn [rev]. by rewrite <- !app_assoc.
Qed.

Lemma parse6_elided fuel g pre post acc :
  Forall is_group (g :: pre) → Forall is_group post → (length (g :: pre) + length post <= fuel)%nat →
  parse6 fuel (join (g :: pre) ++ ":"%char :: ":"%char :: join post) acc None =
  Some (rev post ++ rev (g :: pre) ++ acc, Some (length (g :: pre) + length acc)%nat, []).
Proof.
  revert fuel g acc. induction pre as [|h pre IH]; intros fuel g acc Hg Hp Hl; (destruct fuel as [|fuel]; [simpl in Hl; lia|]).
  - apply Forall_cons in Hg as [Hg _]. cbn [join tail_join flat_map]. rewrite app_nil_r, parse6_ellipsis by done.
    destruct post as [|p post]; [done|]. simpl in Hl. pose proof Hp as Hp1. apply Forall_cons in Hp1 as [Hp1 _].
    destruct (hex_head p (tail_join post) Hp1) as (c & w & Hw & _). cbn [join]. rewrite Hw, <- Hw.
    change (hex p ++ tail_join post) with (join (p :: post)). rewrite parse6_join by (done || simpl; lia). done.
  - apply Forall_cons in Hg as [Hg Hgs]. pose proof Hgs as Hh. apply Forall_cons in Hh as [Hh _].
    change (join (g :: h :: pre)) with (hex g ++ ":"%char :: hex h ++ tail_join pre). rewrite <- app_assoc. cbn [app].
    rewrite <- app_assoc, parse6_more by done. rewrite app_assoc.
    change (hex h ++ tail_join pre) with (join (h :: pre)). rewrite IH by (done || (simpl in *; lia)).
    cbn [rev length]. rewrite <- !app_assoc. do 2 f_equal. f_equal. f_equal. lia.
Qed.

(** ** Groups and numbers *)

Lemma group_range n i : is_group (group n i).
Proof.
  unfold is_group, group. change 65535 with (Z.ones 16). rewrite Z.land_ones by lia. apply Z.mod_pos_bound. lia.
Qed.
Lemma groups_range n : Forall is_group (groups n).
Proof. unfold groups. apply Forall_map, Forall_true. intros i. apply group_range. Qed.
Lemma groups_length n : length (groups n) = 8%nat.
Proof. done. Qed.

Lemma group_step n i : (i < 8)%nat → n / 65536 ^ (7 - Z.of_nat i) = n / 65536 ^ (8 - Z.of_nat i) * 65536 + group n i.
Proof.
  intros Hi. unfold group. change 65535 with (Z.ones 16). rewrite Z.land_ones, Z.shiftr_div_pow2 by lia.
  rewrite Z.pow_mul_r by lia. change (2 ^ 16) with 65536.
  replace (8 - Z.of_nat i) with ((7 - Z.of_nat i) + 1) by lia. rewrite Z.pow_add_r, Z.pow_1_r by lia.
  rewrite <- Z.div_div by lia. rewrite (Z.mul_comm _ 65536). apply Z.div_mod. lia.
Qed.

Lemma number_of_from n k i :
  (i + k <= 8)%nat →
  number_of (map (group n) (seq i k)) (n / 65536 ^ (8 - Z.of_nat i)) = n / 65536 ^ (8 - Z.of_nat (i + k)).
Proof.
  revert i. induction k as [|k IH]; intros i Hi; cbn [seq map number_of]; [by rewrite Nat.add_0_r|].
  rewrite <- group_step by lia. replace (7 - Z.of_nat i) with (8 - Z.of_nat (S i)) by lia. rewrite IH by lia. do 4 f_equal. lia.
Qed.

Lemma number_of_groups n : 0 <= n < 2 ^ 128 → number_of (groups n) 0 = n.
Proof.
  intros Hn. pose proof (number_of_from n 8 0 ltac:(lia)) as H. change (8 - Z.of_nat 0) with 8 in H.
  change (8 - Z.of_nat (0 + 8)) with 0 in H. rewrite Z.div_small, Z.div_1_r in H by done. exact H.
Qed.

(** ** Characters of the text *)

Definition not_percent (c : ascii) : Prop := c ≠ "%"%char.

Lemma hex_not_percent g : is_group g → Forall not_percent (hex g).
Proof.
  intros Hg. destruct (hex_cases g Hg) as (ds & -> & Hd & _). apply Forall_map. eapply Forall_impl; [exact Hd|].
  intros d Hr E. apply (f_equal hex_value) in E. rewrite hex_value_char in E by done. discriminate E.
Qed.

Lemma print_not_percent i gs run : Forall is_group gs → Forall not_percent (print_groups i gs run).
Proof.
  intros Hg. revert i. induction Hg as [|g gs Hg _ IH]; intros i; cbn [print_groups]; [constructor|].
  repeat case_match; rewrite ?Forall_app; split_and!; auto using hex_not_percent; repeat constructor; done.
Qed.

Lemma dec_not_percent o : 0 <= o < 256 → Forall not_percent (dec o).
Proof.
  intros Ho. assert (H : forallb (λ c, bool_decide (c ≠ "%"%char)) (dec o) = true).
  { revert o Ho. refine (octet_cases _ _). vm_compute seq. simpl map. repeat constructor. }
  apply forallb_true_iff in H. eapply Forall_impl; [exact H|]. intros c Hc. by apply bool_decide_eq_true in Hc.
Qed.

Lemma string4_not_percent n : Forall not_percent (string4 n).
Proof.
  unfold string4. repeat first [apply Forall_app; split|apply Forall_cons; split|apply dec_not_percent, octet_range|done].
Qed.

Lemma split_at_suffix s z :
  Forall not_percent s →
  split_at "%" (s ++ zone_suffix z) = (s, if z == "" then None else Some (String.list_ascii_of_string z)).
Proof.
  intros Hs. induction Hs as [|c s Hc _ IH]; cbn [app split_at].
  - unfold zone_suffix. by case_bool_decide.
  - rewrite bool_decide_eq_false_2 by (intros <-; done). by rewrite IH.
Qed.

(** ** The round trip *)

Lemma mapped_number n :
  0 <= n < 2 ^ 128 → Is4In6 (V6 n "") = true → n = 65535 * 2 ^ 32 + Z.land n (2 ^ 32 - 1) ∧ 0 <= Z.land n (2 ^ 32 - 1) < 2 ^ 32.
Proof.
  intros Hn H. unfold Is4In6 in H. apply Z.eqb_eq in H. rewrite Z.shiftr_div_pow2 in H by lia.
  change (2 ^ 32 - 1) with (Z.ones 32). rewrite Z.land_ones by lia. pose proof (Z.mod_pos_bound n (2 ^ 32) ltac:(lia)).
  split; [|done]. pose proof (Z.div_mod n (2 ^ 32) ltac:(lia)) as Hd. rewrite H in Hd. lia.
Qed.

Lemma hex_group_some w acc n rest :
  Forall (λ c, hex_value c ≠ None) w → (n + length w <= 4)%nat → stops rest →
  ∃ v, hex_group (w ++ rest) acc n = Some (v, (n + length w)%nat, rest).
Proof.
  intros Hw. revert acc n. induction Hw as [|c w Hc _ IH]; intros acc n Hn Hs; cbn [app length] in *.
  - rewrite Nat.add_0_r. exists acc. destruct rest as [|c rest]; [done|]. simpl in *. by rewrite Hs.
  - cbn [hex_group]. destruct (hex_value c) as [d|]; [|done]. destruct (Nat.ltb_spec 3 n); [lia|].
    destruct (IH (acc * 16 + d) (S n) ltac:(lia) Hs) as [v Hv]. exists v. rewrite Hv. do 2 f_equal. f_equal. lia.
Qed.

Lemma dec_digits o : 0 <= o < 256 → Forall (λ c, hex_value c ≠ None) (dec o).
Proof.
  intros Ho. assert (H : forallb (λ c, is_some (hex_value c)) (dec o) = true).
  { revert o Ho. refine (octet_cases _ _). vm_compute seq. simpl map. repeat constructor. }
  apply forallb_true_iff in H. eapply Forall_impl; [exact H|]. intros c Hc. by apply is_some_spec.
Qed.

Lemma hex_group_dec o rest :
  0 <= o < 256 → ∃ v k, hex_group (dec o ++ "."%char :: rest) 0 0 = Some (v, S k, "."%char :: rest).
Proof.
  intros Ho. pose proof (dec_length o Ho) as Hl.
  destruct (hex_group_some (dec o) 0 0 ("."%char :: rest) (dec_digits o Ho) ltac:(lia) eq_refl) as [v Hv].
  exists v, (length (dec o) - 1)%nat. rewrite Hv. do 2 f_equal. f_equal. lia.
Qed.

Lemma dec_head o rest : 0 <= o < 256 → ∃ c w, dec o ++ rest = c :: w ∧ c ≠ ":"%char.
Proof.
  intros Ho. pose proof (dec_length o Ho) as Hl. pose proof (dec_digits o Ho) as Hd. destruct (dec o) as [|c w]; [simpl in Hl; lia|].
  apply Forall_cons in Hd as [Hc _]. do 2 eexists. split; [done|]. by intros ->.
Qed.

#[local] Opaque dec octet parseIPv4.

Lemma parse6_next fuel w v k c more gs ell :
  hex_group w 0 0 = Some (v, S k, ":"%char :: c :: more) → c ≠ ":"%char →
  parse6 (S fuel) w gs ell = parse6 fuel (c :: more) (v :: gs) ell.
Proof.
  intros Hw Hc. cbn [parse6]. rewrite Hw. destruct c as [[] [] [] [] [] [] [] []]; try reflexivity. done.
Qed.

Lemma parse6_dotted fuel w v k more gs e m :
  hex_group w 0 0 = Some (v, S k, "."%char :: more) → parseIPv4 w = Some m → (length gs <= 6)%nat →
  parse6 (S fuel) w gs (Some e) = Some (Z.land m 65535 :: Z.shiftr m 16 :: gs, Some e, []).
Proof.
  intros Hw Hm Hl. cbn [parse6]. rewrite Hw, Hm, bool_decide_eq_false_2 by done.
  rewrite (proj2 (Nat.ltb_ge 6 (length gs))) by lia. reflexivity.
Qed.

Lemma parse6_mapped m :
  0 <= m < 2 ^ 32 →
  parse6 8 (String.list_ascii_of_string "ffff:" ++ string4 m) [] (Some 0%nat) =
  Some ([Z.land m 65535; Z.shiftr m 16; 65535], Some 0%nat, []).
Proof.
  intros Hm. assert (Hs : ∃ c w, string4 m = c :: w ∧ c ≠ ":"%char) by (apply dec_head, octet_range).
  destruct (hex_group_dec (octet m 0) (dec (octet m 1) ++ "."%char :: dec (octet m 2) ++ "."%char :: dec (octet m 3)) (octet_range m 0))
    as (v & k & Hk). change (dec (octet m 0) ++ _) with (string4 m) in Hk.
  assert (H7 := parse6_dotted 6 (string4 m) v k _ [65535] 0 m Hk (parseIPv4_string4 m Hm) ltac:(simpl; lia)).
  rewrite <- H7. destruct Hs as (c & w & -> & Hc). apply (parse6_next 7 _ _ 3); [reflexivity|done].
Qed.

(** The text of an address is [string6] without the zone. *)
Definition body6 (n : Z) : list ascii :=
  if Is4In6 (V6 n "") then String.list_ascii_of_string "::ffff:" ++ string4 (Z.land n (2 ^ 32 - 1))
  else print_groups 0 (groups n) (best_run 0 (groups n) (0, 0)%nat).

Lemma body6_not_percent n : Forall not_percent (body6 n).
Proof.
  unfold body6. destruct (Is4In6 _); [|apply print_not_percent, groups_range].
  apply Forall_app. split; [|apply string4_not_percent]. simpl. repeat constructor; done.
Qed.

(** Where the parser of groups starts, and the groups it must find. *)
Definition reads (s : list ascii) (n : Z) : Prop :=
  let start := match s with ":"%char :: ":"%char :: rest => (rest, Some O) | _ => (s, None) end in
  if (bool_decide (snd start = Some O)) && (fst start == []) then n = 0
  else ∃ gs ell, parse6 8 (fst start) [] (snd start) = Some (gs, ell, []) ∧ expand6 gs ell = Some n.

Lemma reads_plain g gs :
  Forall is_group (g :: gs) → length (g :: gs) = 8%nat → reads (join (g :: gs)) (number_of (g :: gs) 0).
Proof.
  intros Hg Hl. pose proof Hg as Hg1. apply Forall_cons in Hg1 as [Hg1 _].
  assert (Hp := parse6_join 8 g gs [] None Hg ltac:(lia)). rewrite app_nil_r in Hp.
  destruct (hex_head g (tail_join gs) Hg1) as (c & w & Hw & Hc). cbn [join] in *. rewrite Hw in *. unfold reads.
  assert (Hs : match c :: w with ":"%char :: ":"%char :: rest => (rest, Some O) | _ => (c :: w, None) end = (c :: w, None))
    by (destruct c as [[] [] [] [] [] [] [] []]; try reflexivity; done).
  cbv zeta. rewrite Hs. cbn [fst snd]. exists (rev (g :: gs)), None. split; [exact Hp|].
  unfold expand6. cbv zeta. rewrite rev_involutive, Hl. done.
Qed.

Lemma expand_elided pre k post :
  (2 <= k)%nat → (length pre + k + length post = 8)%nat →
  expand6 (rev post ++ rev pre) (Some (length pre)) = Some (number_of (pre ++ replicate k 0 ++ post) 0).
Proof.
  intros Hk Hl. unfold expand6. cbv zeta. rewrite rev_app_distr, !rev_involutive.
  rewrite length_app, (proj2 (Nat.ltb_lt _ 8)) by lia. rewrite take_app_length, drop_app_length.
  do 4 f_equal. f_equal. lia.
Qed.

Lemma reads_elided pre k post :
  Forall is_group pre → Forall is_group post → (2 <= k)%nat → (length pre + k + length post = 8)%nat →
  reads (join pre ++ ":"%char :: ":"%char :: join post) (number_of (pre ++ replicate k 0 ++ post) 0).
Proof.
  intros Hpre Hpost Hk Hl. destruct pre as [|g pre].
  - cbn [join app]. unfold reads. cbv zeta. cbn [fst snd]. rewrite bool_decide_eq_true_2 by done. simpl (true && _).
    pose proof (expand_elided [] k post Hk Hl) as He. cbn [rev app length] in He. rewrite app_nil_r in He.
    destruct post as [|p post].
    { rewrite bool_decide_eq_true_2 by done. cbn [app]. rewrite app_nil_r. simpl in Hl.
      assert (k = 8%nat) as -> by lia. reflexivity. }
    pose proof Hpost as Hp. apply Forall_cons in Hp as [Hp _]. destruct (hex_head p (tail_join post) Hp) as (c & w & Hw & _).
    rewrite bool_decide_eq_false_2 by (cbn [join]; rewrite Hw; done).
    exists (rev (p :: post)), (Some 0%nat). split; [|exact He].
    rewrite parse6_join by (done || (simpl in *; lia)). by rewrite app_nil_r.
  - pose proof Hpre as Hg. apply Forall_cons in Hg as [Hg _].
    assert (Hp := parse6_elided 8 g pre post [] Hpre Hpost ltac:(lia)). rewrite app_nil_r, Nat.add_0_r in Hp.
    pose proof (expand_elided (g :: pre) k post Hk Hl) as He.
    destruct (hex_head g (tail_join pre ++ ":"%char :: ":"%char :: join post) Hg) as (c & w & Hw & Hc).
    assert (Hj : join (g :: pre) ++ ":"%char :: ":"%char :: join post = c :: w) by (cbn [join]; by rewrite <- app_assoc).
    rewrite Hj in *. unfold reads.
    assert (Hs : match c :: w with ":"%char :: ":"%char :: rest => (rest, Some O) | _ => (c :: w, None) end = (c :: w, None))
      by (destruct c as [[] [] [] [] [] [] [] []]; try reflexivity; done).
    cbv zeta. rewrite Hs. cbn [fst snd]. exists (rev post ++ rev (g :: pre)), (Some (length (g :: pre))). done.
Qed.

Lemma expand_mapped m :
  0 <= m < 2 ^ 32 → expand6 [Z.land m 65535; Z.shiftr m 16; 65535] (Some 0%nat) = Some (65535 * 2 ^ 32 + m).
Proof.
  intros Hm. unfold expand6. cbn -[Z.land Z.shiftr Z.mul Z.add Z.pow]. f_equal. change 65535 with (Z.ones 16) at 2.
  rewrite Z.land_ones, Z.shiftr_div_pow2 by lia. change (2 ^ 16) with 65536. change (2 ^ 32) with 4294967296.
  pose proof (Z.div_mod m 65536 ltac:(lia)). lia.
Qed.

Lemma reads_body n : 0 <= n < 2 ^ 128 → reads (body6 n) n.
Proof.
  intros Hn. unfold body6. destruct (Is4In6 (V6 n "")) eqn:E.
  - destruct (mapped_number n Hn E) as [Heq Hm]. set (m := Z.land n (2 ^ 32 - 1)) in *.
    unfold reads. cbn [String.list_ascii_of_string app]. cbv zeta. cbn [fst snd].
    rewrite bool_decide_eq_true_2, bool_decide_eq_false_2 by done. simpl (true && false). cbv iota.
    exists [Z.land m 65535; Z.shiftr m 16; 65535], (Some 0%nat). split; [by apply parse6_mapped|].
    rewrite expand_mapped by done. by rewrite <- Heq.
  - pose proof (groups_range n) as Hg. pose proof (number_of_groups n Hn) as Hnum.
    destruct (best_run_elided (groups n) (groups n) [] (0, 0)%nat eq_refl (or_introl eq_refl)) as [Hr|(pre & k & post & Hs & Hk & Hr)];
      cbn [length] in Hr; rewrite Hr.
    + unfold groups in *. cbn [seq map] in *. change (print_groups 0 (?g :: ?gs) (0, 0)%nat) with (hex g ++ print_groups 1 gs (0, 0)%nat).
      rewrite print_all. rewrite <- Hnum at 9. by apply reads_plain.
    + rewrite Hs in *. rewrite !Forall_app in Hg. destruct Hg as (Hpre & _ & Hpost).
      pose proof (groups_length n) as Hl. rewrite Hs, !length_app, length_replicate in Hl.
      rewrite (print_before 0 (length pre) (length pre + k) pre (replicate k 0) post) by (rewrite ?length_replicate; lia).
      rewrite <- Hnum. apply reads_elided; (done || lia).
Qed.

Lemma parseIPv6_body n z : 0 <= n < 2 ^ 128 → parseIPv6 (body6 n ++ zone_suffix z) = Some (V6 n z).
Proof.
  intros Hn. unfold parseIPv6. rewrite split_at_suffix by apply body6_not_percent.
  assert (Hz : (if z == "" then None else Some (String.list_ascii_of_string z)) ≠ Some []).
  { case_bool_decide; [done|]. destruct z; done. }
  rewrite (bool_decide_eq_false_2 (_ = Some [])) by done.
  assert (Hzone : match (if z == "" then None else Some (String.list_ascii_of_string z)) with
                  | Some z => String.string_of_list_ascii z | None => "" end = z).
  { case_bool_decide; [done|]. apply String.string_of_list_ascii_of_string. }
  rewrite Hzone. pose proof (reads_body n Hn) as Hr. unfold reads in Hr. cbv zeta in Hr |- *.
  destruct (_ && _); [by subst|]. destruct Hr as (gs & ell & -> & ->). done.
Qed.

Lemma ParseAddr_V6 n z : 0 <= n < 2 ^ 128 → ParseAddr (AddrString (V6 n z)) = Some (V6 n z).
Proof.
  intros Hn. unfold ParseAddr. rewrite AddrString_list. cbn [addr_list].
  rewrite <- (app_nil_r (string6 n z)) at 1. rewrite parse_string6. by apply parseIPv6_body.
Qed.

(** Every address is read back from its text. *)
Lemma ParseAddr_AddrString a : a ≠ AddrNone → well_formed_addr a → ParseAddr (AddrString a) = Some a.
Proof. destruct a; [done|intros _; apply ParseAddr_V4|intros _; apply ParseAddr_V6]. Qed.

(** The canonical text of a parsed address is a fixed point. *)
Lemma ParseAddr_canonical s a : ParseAddr s = Some a → ParseAddr (AddrString a) = Some a.
Proof. intros H. apply parse_addr_wf in H as [? ?]. by apply ParseAddr_AddrString. Qed.
