(* ===== verification/Manifest.v ===== *)
(** * Capability manifests

    [capability/manifest.go], [capability/validate.go] and [capability/registry.go]: the
    manifest a capability declares itself with, the validator of manifests, the comparison
    of versions and the registry.  The validator is compared with the contract it enforces,
    and the choice of a platform target with the order of versions. *)

From Stdlib Require Import Ascii.
From S2P Require Import Prelude GoFloat Regex ResolverWire.

Module Manifest.

(** ** The data *)

Definition OwnershipMode := string.
Definition OwnershipBuiltin : OwnershipMode := "builtin".
Definition OwnershipExternal : OwnershipMode := "external".
Definition OwnershipManagedLocal : OwnershipMode := "managed-local".
Definition OwnershipManagedRemote : OwnershipMode := "managed-remote".

Definition SupportLevel := string.
Definition SupportCandidate : SupportLevel := "candidate".
Definition SupportPlanned : SupportLevel := "planned".
Definition SupportTested : SupportLevel := "tested".
Definition SupportLimited : SupportLevel := "limited".

Definition RequirementLevel := string.
Definition RequirementRequired : RequirementLevel := "required".
Definition RequirementConditional : RequirementLevel := "conditional".
Definition RequirementNone : RequirementLevel := "none".

Definition DependencyKind := string.
Definition DependencyCapability : DependencyKind := "capability".
Definition DependencyRuntime : DependencyKind := "runtime".
Definition DependencyService : DependencyKind := "service".

Definition ConfigFieldType := string.
Definition ConfigString : ConfigFieldType := "string".
Definition ConfigBoolean : ConfigFieldType := "boolean".
Definition ConfigInteger : ConfigFieldType := "integer".
Definition ConfigEnum : ConfigFieldType := "enum".
Definition ConfigSecretRef : ConfigFieldType := "secret-ref".

Definition MeasurementStatus := string.
Definition MeasurementUnmeasured : MeasurementStatus := "unmeasured".
Definition MeasurementMeasured : MeasurementStatus := "measured".

Definition LifecycleAction := string.
Definition ActionPreflight : LifecycleAction := "preflight".
Definition ActionInstall : LifecycleAction := "install".
Definition ActionConnect : LifecycleAction := "connect".
Definition ActionStart : LifecycleAction := "start".
Definition ActionEnable : LifecycleAction := "enable".
Definition ActionVerify : LifecycleAction := "verify".
Definition ActionDisable : LifecycleAction := "disable".
Definition ActionStop : LifecycleAction := "stop".
Definition ActionDisconnect : LifecycleAction := "disconnect".
Definition ActionUpgrade : LifecycleAction := "upgrade".
Definition ActionUninstall : LifecycleAction := "uninstall".

Record Target := mkTarget {
  OS : string;
  Arch : string;
  MinVersion : string;
  Support : SupportLevel;
  tEvidence : string;
}.

Record InputRequirement := mkInput { iID : string; iRequired : bool; iDescription : string }.
Record PrivilegeRequirement := mkPrivilege { pID : string; pRequirement : RequirementLevel; pDescription : string }.

Record Dependency := mkDependency {
  dID : string;
  dKind : DependencyKind;
  dRequired : bool;
  VersionConstraint : string;
  dDescription : string;
}.

Record ConfigField := mkConfigField {
  fName : string;
  fType : ConfigFieldType;
  fRequired : bool;
  fDescription : string;
  Enum : list string;
}.
Record ConfigContract := mkConfig { cSchemaVersion : Z; Fields : list ConfigField }.

Record ResourceBudget := mkResources {
  Measurement : MeasurementStatus;
  rProfile : string;
  MaxRAMMiB : Z;
  MaxDiskMiB : Z;
  MaxCPUPercent : float64;
  rEvidence : string;
}.

Record Provenance := mkProvenance { vKind : string; License : string; vSource : string; VersionPolicy : string }.

Record HealthContract := mkHealth {
  ProcessRequired : bool;
  VerificationSignals : list string;
  CoverageRequiresVerification : bool;
}.

Record DataHandlingContract := mkDataHandling {
  Activation : string;
  Sources : list string;
  Stored : list string;
  Excluded : list string;
}.

Record OutputContract := mkOutput { oKind : string; oSchemaVersion : Z }.
Record DeepLink := mkDeepLink { lID : string; AllowedContexts : list string }.

Record Manifest := mkManifest {
  mSchemaVersion : Z;
  ID : string;
  DisplayName : string;
  Summary : string;
  Release : string;
  Ownership : list OwnershipMode;
  Targets : list Target;
  Inputs : list InputRequirement;
  Privileges : list PrivilegeRequirement;
  Dependencies : list Dependency;
  Config : ConfigContract;
  Resources : ResourceBudget;
  mProvenance : Provenance;
  Health : HealthContract;
  DataHandling : DataHandlingContract;
  Outputs : list OutputContract;
  DeepLinks : list DeepLink;
  Lifecycle : list LifecycleAction;
}.

Definition SchemaVersion : Z := 2.

(** ** Text *)

(** [^[a-z][a-z0-9-]{0,62}$], [^[a-z][a-z0-9._-]{0,95}$] and [^v[0-9]+\.[0-9]+$] *)
Definition idPattern : regex := RCat (RSet is_lower) (RRep (RSet (λ c, lower_digit c || one_of "-" c)) 0 62).
Definition namePattern : regex := RCat (RSet is_lower) (RRep (RSet (λ c, lower_digit c || one_of "._-" c)) 0 95).
Definition releasePattern : regex :=
  RCat (RSet (one_of "v")) (RCat (RPlus (RSet is_digit)) (RCat (RSet (one_of ".")) (RPlus (RSet is_digit)))).

(** [unicode.IsControl] over the runes of a text: the ASCII controls are single bytes,
    and U+0080 to U+009F are the byte 194 followed by 128 to 159.  A byte 194 always starts
    a rune, so the test on bytes is the test on runes. *)
Fixpoint unsafe_bytes (w : list ascii) : bool :=
  match w with
  | [] => false
  | c :: rest =>
      (byte_of c <? 32) || (byte_of c =? 127) ||
      match rest with d :: _ => (byte_of c =? 194) && (128 <=? byte_of d) && (byte_of d <=? 159) | [] => false end ||
      unsafe_bytes rest
  end.
Definition hasUnsafeText (value : string) : bool := unsafe_bytes (String.list_ascii_of_string value).

Definition validateID (value : string) : result string unit :=
  guard? negb (MatchString idPattern value) else "invalid id" in Ok tt.

Definition validateText (value : string) (max : Z) : result string unit :=
  guard? (value == "") || (TrimSpace value != value) else "must be non-empty and trimmed" in
  guard? max <? slen value else "exceeds its length" in
  guard? hasUnsafeText value else "contains control characters" in
  Ok tt.

(** ** Versions *)

(** [strconv.Atoi]: an optional sign and digits, within the signed 64-bit range. *)
Fixpoint digits_value (w : list ascii) (acc : Z) : option Z :=
  match w with
  | [] => Some acc
  | c :: w => if is_digit c then digits_value w (acc * 10 + (byte_of c - 48)) else None
  end.
Definition Atoi (w : list ascii) : option Z :=
  let '(sign, ds) := match w with
                     | "-"%char :: ds => (-1, ds)
                     | "+"%char :: ds => (1, ds)
                     | _ => (1, w)
                     end in
  match ds with
  | [] => None
  | _ => match digits_value ds 0 with
         | Some n => if (- 2 ^ 63 <=? sign * n) && (sign * n <? 2 ^ 63) then Some (sign * n) else None
         | None => None
         end
  end.

Definition parse_part (part : list ascii) : option Z :=
  match part with
  | [] => None
  | _ => n ← Atoi part; if n <? 0 then None else Some n
  end.

Definition parseVersion (value : string) : option (list Z) :=
  let parts := Wire.split_dots (String.list_ascii_of_string value) in
  if (llen parts =? 0) || (4 <? llen parts) then None else mapM parse_part parts.

(** The loop to the longer length; a missing part is zero. *)
Fixpoint compare_from (n : nat) (a b : list Z) : Z :=
  match n with
  | O => 0
  | S n =>
      let av := default 0 (head a) in
      let bv := default 0 (head b) in
      if av <? bv then -1 else if bv <? av then 1 else compare_from n (tail a) (tail b)
  end.
Definition compareVersion (a b : list Z) : Z := compare_from (Nat.max (length a) (length b)) a b.

(** ** The validator *)

(** A loop that refuses a repeated key: [pre] is what the body checks before the map
    [seen], [post] what it checks after.  The keys seen come back, the last one first. *)
Definition each_once {A} (pre : A → result string unit) (key : A → string) (dup : string)
    (post : A → result string unit) (l : list A) : result string (list string) :=
  for_each (λ seen x,
    check? pre x in
    guard? bool_decide (key x ∈ seen) else dup in
    check? post x in
    Ok (key x :: seen)) l [].

Definition always {A} (_ : A) : result string unit := Ok tt.
Definition member_of (allowed : list string) (value : string) : bool := bool_decide (value ∈ allowed).

Definition ownershipModes : list OwnershipMode :=
  [OwnershipBuiltin; OwnershipExternal; OwnershipManagedLocal; OwnershipManagedRemote].

Definition validateOwnership (values : list OwnershipMode) : result string unit :=
  guard? llen values =? 0 else "ownership must contain at least one mode" in
  let? seen := each_once (λ v, guard? negb (member_of ownershipModes v) else "unknown ownership mode" in Ok tt)
                 (λ v, v) "duplicate ownership mode" always values in
  guard? bool_decide (OwnershipBuiltin ∈ seen) && negb (llen values =? 1)
  else "builtin ownership cannot be combined with managed or external ownership" in
  Ok tt.

Definition supportLevels : list SupportLevel := [SupportCandidate; SupportPlanned; SupportTested; SupportLimited].
Definition target_key (t : Target) : string := OS t +:+ "/" +:+ Arch t.

Definition validateTargets (values : list Target) : result string unit :=
  guard? llen values =? 0 else "targets must contain at least one platform" in
  check? each_once
    (λ t,
      guard? negb (member_of ["darwin"; "linux"; "windows"] (OS t)) else "unsupported target OS" in
      guard? negb (member_of ["arm64"; "amd64"] (Arch t)) else "unsupported target architecture" in
      guard? negb (member_of supportLevels (Support t)) else "unknown support level" in
      Ok tt)
    target_key "duplicate target"
    (λ t,
      guard? (MinVersion t != "") && negb (is_some (parseVersion (MinVersion t))) else "min_version" in
      guard? (tEvidence t != "") && hasUnsafeText (tEvidence t) else "evidence contains control characters" in
      guard? (Support t == SupportTested) && (TrimSpace (tEvidence t) == "") else "tested target must include evidence" in
      Ok tt) values in
  Ok tt.

Definition validateInputs (values : list InputRequirement) : result string unit :=
  check? each_once (λ i, validateID (iID i)) iID "duplicate input" (λ i, validateText (iDescription i) 240) values in
  Ok tt.

Definition validatePrivileges (values : list PrivilegeRequirement) : result string unit :=
  check? each_once (λ p, validateID (pID p)) pID "duplicate privilege"
    (λ p,
      guard? negb (member_of [RequirementRequired; RequirementConditional; RequirementNone] (pRequirement p))
      else "unknown privilege requirement" in
      validateText (pDescription p) 240) values in
  Ok tt.

Definition dependency_key (d : Dependency) : string := dKind d +:+ ":" +:+ dID d.

Definition validateDependencies (values : list Dependency) : result string unit :=
  check? each_once (λ d, validateID (dID d)) dependency_key "duplicate dependency"
    (λ d,
      guard? negb (member_of [DependencyCapability; DependencyRuntime; DependencyService] (dKind d))
      else "unknown dependency kind" in
      check? validateText (dDescription d) 240 in
      guard? hasUnsafeText (VersionConstraint d) else "dependency version_constraint contains control characters" in
      Ok tt) values in
  Ok tt.

Definition fieldTypes : list ConfigFieldType := [ConfigString; ConfigBoolean; ConfigInteger; ConfigEnum; ConfigSecretRef].
Definition validName (error : string) (name : string) : result string unit :=
  guard? negb (MatchString namePattern name) else error in Ok tt.

Definition validateConfig (config : ConfigContract) : result string unit :=
  guard? cSchemaVersion config <=? 0 else "config schema_version must be positive" in
  check? each_once (λ f, validName "invalid config field name" (fName f)) fName "duplicate config field"
    (λ f,
      guard? negb (member_of fieldTypes (fType f)) else "unknown config field type" in
      check? validateText (fDescription f) 240 in
      if fType f == ConfigEnum then
        guard? llen (Enum f) =? 0 else "enum config field must define values" in
        check? each_once (validName "invalid enum value") (λ v, v) "duplicate enum value" always (Enum f) in
        Ok tt
      else guard? negb (llen (Enum f) =? 0) else "non-enum config field cannot define enum values" in Ok tt)
    (Fields config) in
  Ok tt.

Definition float_zero : float64 := float_of_int 0.

Definition validateResources (r : ResourceBudget) : result string unit :=
  guard? negb (MatchString namePattern (rProfile r)) else "invalid resource profile" in
  guard? (rEvidence r != "") && hasUnsafeText (rEvidence r) else "resource evidence contains control characters" in
  if Measurement r == MeasurementUnmeasured then
    guard? negb (MaxRAMMiB r =? 0) || negb (MaxDiskMiB r =? 0) || negb (float_eqb (MaxCPUPercent r) float_zero)
    else "unmeasured resource budget cannot contain measured limits" in
    Ok tt
  else if Measurement r == MeasurementMeasured then
    guard? (MaxRAMMiB r <=? 0) || (MaxDiskMiB r <=? 0) || float_leb (MaxCPUPercent r) float_zero
    else "measured resource budget requires positive RAM, disk, and CPU limits" in
    guard? TrimSpace (rEvidence r) == "" else "measured resource budget requires evidence" in
    Ok tt
  else Err "unknown resource measurement status".

Definition validateProvenance (p : Provenance) : result string unit :=
  guard? (vKind p != "first-party") && (vKind p != "third-party") else "unknown provenance kind" in
  check? validateText (License p) 80 in
  check? validateText (vSource p) 300 in
  check? validateText (VersionPolicy p) 240 in
  Ok tt.

Definition validateHealth (h : HealthContract) : result string unit :=
  guard? llen (VerificationSignals h) =? 0 else "health contract must define at least one verification signal" in
  check? each_once validateID (λ v, v) "duplicate verification signal" always (VerificationSignals h) in
  Ok tt.

(** One section of the data handling contract. *)
Definition validateSection (values : list string) : result string unit :=
  guard? (llen values =? 0) || (8 <? llen values) else "data handling must contain 1 to 8 items" in
  check? each_once (λ v, validateText v 240) (λ v, v) "duplicate data handling item" always values in
  Ok tt.

Definition validateDataHandling (d : DataHandlingContract) : result string unit :=
  check? validateText (Activation d) 240 in
  for_each (λ _ values, validateSection values) [Sources d; Stored d; Excluded d] tt.

Definition validateOutputs (values : list OutputContract) : result string unit :=
  guard? llen values =? 0 else "outputs must contain at least one contract" in
  check? each_once
    (λ o, check? validateID (oKind o) in
          guard? oSchemaVersion o <=? 0 else "output schema_version must be positive" in Ok tt)
    oKind "duplicate output" always values in
  Ok tt.

Definition validateDeepLinks (values : list DeepLink) : result string unit :=
  check? each_once (λ l, validateID (lID l)) lID "duplicate deep link"
    (λ l, check? each_once validateID (λ c, c) "duplicate deep link context" always (AllowedContexts l) in Ok tt) values in
  Ok tt.

Definition containsOwnership (values : list OwnershipMode) (target : OwnershipMode) : bool :=
  existsb (λ v, v == target) values.

Definition lifecycleActions : list LifecycleAction :=
  [ActionPreflight; ActionInstall; ActionConnect; ActionStart; ActionEnable; ActionVerify; ActionDisable; ActionStop;
   ActionDisconnect; ActionUpgrade; ActionUninstall].
Definition builtinForbidden : list LifecycleAction :=
  [ActionInstall; ActionConnect; ActionStart; ActionStop; ActionDisconnect; ActionUpgrade; ActionUninstall].

Definition validateLifecycle (ownership : list OwnershipMode) (actions : list LifecycleAction) : result string unit :=
  guard? llen actions =? 0 else "lifecycle must contain at least one action" in
  let? seen := each_once (λ a, guard? negb (member_of lifecycleActions a) else "unknown lifecycle action" in Ok tt)
                 (λ a, a) "duplicate lifecycle action" always actions in
  guard? containsOwnership ownership OwnershipBuiltin && existsb (λ a, bool_decide (a ∈ seen)) builtinForbidden
  else "builtin capability cannot declare lifecycle action" in
  guard? negb (bool_decide (ActionPreflight ∈ seen)) || negb (bool_decide (ActionVerify ∈ seen))
  else "lifecycle must include preflight and verify" in
  Ok tt.

Definition Validate (m : Manifest) : result string unit :=
  guard? negb (mSchemaVersion m =? SchemaVersion) else "unsupported capability manifest schema version" in
  check? validateID (ID m) in
  check? validateText (DisplayName m) 80 in
  check? validateText (Summary m) 280 in
  guard? negb (MatchString releasePattern (Release m)) else "release must look like v0.1" in
  check? validateOwnership (Ownership m) in
  check? validateTargets (Targets m) in
  check? validateInputs (Inputs m) in
  check? validatePrivileges (Privileges m) in
  check? validateDependencies (Dependencies m) in
  check? validateConfig (Config m) in
  check? validateResources (Resources m) in
  check? validateProvenance (mProvenance m) in
  check? validateHealth (Health m) in
  check? validateDataHandling (DataHandling m) in
  check? validateOutputs (Outputs m) in
  check? validateDeepLinks (DeepLinks m) in
  check? validateLifecycle (Ownership m) (Lifecycle m) in
  Ok tt.

(** ** What a valid manifest is *)

Lemma check_ok {E A} (r : result E unit) (k : result E A) a :
  res_bind r (λ _, k) = Ok a ↔ r = Ok tt ∧ k = Ok a.
Proof. rewrite res_bind_ok. split; [intros ([] & ? & ?)|intros []; exists tt]; done. Qed.

Lemma only_ok {E A} (r : result E A) : res_bind r (λ _, Ok tt) = Ok tt ↔ ∃ a, r = Ok a.
Proof. rewrite res_bind_ok. naive_solver. Qed.

Lemma guard_unit {E} (b : bool) (e : E) : (if b then Err e else Ok tt) = Ok tt ↔ b = false.
Proof. destruct b; naive_solver. Qed.

Lemma each_once_ok {A} (pre : A → result string unit) key dup post l seen :
  each_once pre key dup post l = Ok seen ↔
  Forall (λ x, pre x = Ok tt ∧ post x = Ok tt) l ∧ NoDup (map key l) ∧ seen = reverse (map key l).
Proof.
  unfold each_once. revert seen. induction l as [|x l IH] using rev_ind; intros seen.
  { split; [intros [= <-]|by intros (_ & _ & ->)]. split_and!; [constructor|constructor|done]. }
  rewrite for_each_app, res_bind_ok, map_app, Forall_app, Forall_singleton. cbn [map for_each].
  rewrite reverse_snoc. setoid_rewrite IH. clear IH. rewrite NoDup_app. split.
  - intros (s & (Hf & Hn & ->) & (s' & (Hpre & [Hdup (Hpost & [= <-])%check_ok]%guard_ok)%check_ok & [= <-])%res_bind_ok).
    apply bool_decide_eq_false in Hdup. rewrite elem_of_reverse in Hdup.
    split_and!; try done; [|apply NoDup_singleton]. intros k Hk ->%list_elem_of_singleton. done.
  - intros ((Hf & Hpre & Hpost) & (Hn & Hd & _) & ->). eexists. split; [done|]. apply res_bind_ok. eexists. split; [|done].
    apply check_ok. split; [done|]. apply guard_ok. split; [|by apply check_ok].
    apply bool_decide_eq_false. rewrite elem_of_reverse. intros Hk. by apply (Hd _ Hk), list_elem_of_singleton.
Qed.

Lemma each_once_some {A} (pre : A → result string unit) key dup post l :
  res_bind (each_once pre key dup post l) (λ _, Ok tt) = Ok tt ↔
  Forall (λ x, pre x = Ok tt ∧ post x = Ok tt) l ∧ NoDup (map key l).
Proof.
  rewrite only_ok. setoid_rewrite each_once_ok. naive_solver.
Qed.

(** The forms of text a manifest uses. *)
Definition is_id (s : string) : Prop := MatchString idPattern s = true.
Definition is_name (s : string) : Prop := MatchString namePattern s = true.
Definition is_text (max : Z) (s : string) : Prop :=
  s ≠ "" ∧ TrimSpace s = s ∧ slen s <= max ∧ hasUnsafeText s = false.

Lemma validateID_ok s : validateID s = Ok tt ↔ is_id s.
Proof. unfold validateID. by rewrite guard_unit, negb_false_iff. Qed.
Lemma validName_ok e s : validName e s = Ok tt ↔ is_name s.
Proof. unfold validName. by rewrite guard_unit, negb_false_iff. Qed.
Lemma validateText_ok s max : validateText s max = Ok tt ↔ is_text max s.
Proof.
  unfold validateText, is_text. rewrite !guard_ok, orb_false_iff, negb_false_iff, bool_decide_eq_true, bool_decide_eq_false, Z.ltb_ge.
  naive_solver.
Qed.

Lemma is_member allowed v : member_of allowed v = true ↔ v ∈ allowed.
Proof. apply bool_decide_eq_true. Qed.
Lemma empty_list {A} (l : list A) : (llen l =? 0) = false ↔ l ≠ [].
Proof. unfold llen. rewrite Z.eqb_neq. destruct l; simpl; split; naive_solver lia. Qed.

Lemma accepted_ok {E} : @Ok E unit tt = Ok tt ↔ True.
Proof. done. Qed.
Lemma when_false (a b : bool) : a && b = false ↔ (a = true → b = false).
Proof. destruct a, b; naive_solver. Qed.
Lemma is_true_eq (s t : string) : (s == t) = true ↔ s = t.
Proof. apply bool_decide_eq_true. Qed.
Lemma is_false_eq (s t : string) : (s == t) = false ↔ s ≠ t.
Proof. apply bool_decide_eq_false. Qed.
Lemma is_some_not {A} (o : option A) : is_some o = true ↔ o ≠ None.
Proof. destruct o; naive_solver. Qed.

Create HintDb manifest discriminated.
Hint Rewrite @guard_unit @guard_ok @each_once_some @check_ok validateID_ok validName_ok validateText_ok is_member @empty_list
  @accepted_ok when_false @is_some_not orb_false_iff negb_false_iff negb_true_iff is_true_eq is_false_eq Z.leb_gt Z.ltb_ge : manifest.

(** Rewrite a validator into the conditions it checks, and the conditions of each item. *)
Ltac conditions := unfold always; cbn beta; autorewrite with manifest.
Ltac itemwise := repeat (apply and_iff_compat_l || apply and_iff_compat_r); apply Forall_iff; intros ?; conditions.

(** A platform: known, with a readable minimum version, and evidence when it was tested. *)
Definition target_ok (t : Target) : Prop :=
  OS t ∈ ["darwin"; "linux"; "windows"] ∧ Arch t ∈ ["arm64"; "amd64"] ∧ Support t ∈ supportLevels ∧
  (MinVersion t ≠ "" → parseVersion (MinVersion t) ≠ None) ∧ hasUnsafeText (tEvidence t) = false ∧
  (Support t = SupportTested → TrimSpace (tEvidence t) ≠ "").

Lemma ownership_ok values :
  validateOwnership values = Ok tt ↔
  values ≠ [] ∧ Forall (λ v, v ∈ ownershipModes) values ∧ NoDup values ∧ (OwnershipBuiltin ∈ values → values = [OwnershipBuiltin]).
Proof.
  unfold validateOwnership. rewrite guard_ok, empty_list, res_bind_ok. setoid_rewrite each_once_ok. rewrite map_id.
  assert (Hm : Forall (λ v, (guard? negb (member_of ownershipModes v) else "unknown ownership mode" in Ok tt) = Ok tt ∧ always v = Ok tt) values
               ↔ Forall (λ v, v ∈ ownershipModes) values) by (apply Forall_iff; intros v; conditions; naive_solver).
  setoid_rewrite Hm. setoid_rewrite guard_unit. setoid_rewrite when_false. setoid_rewrite bool_decide_eq_true. setoid_rewrite negb_false_iff.
  setoid_rewrite Z.eqb_eq. split.
  - intros (Hne & seen & (Hf & Hn & ->) & Hb). split_and!; try done. rewrite elem_of_reverse in Hb. intros Hin. specialize (Hb Hin).
    destruct values as [|v [|]]; [done| |unfold llen in Hb; simpl in Hb; lia]. apply list_elem_of_singleton in Hin. by subst.
  - intros (Hne & Hf & Hn & Hb). split; [done|]. eexists. split; [done|]. rewrite elem_of_reverse. intros Hin. by rewrite (Hb Hin).
Qed.

Lemma targets_ok values :
  validateTargets values = Ok tt ↔ values ≠ [] ∧ Forall target_ok values ∧ NoDup (map target_key values).
Proof.
  unfold validateTargets. conditions. itemwise. unfold target_ok.
  destruct (decide (tEvidence x = "")) as [->|]; naive_solver.
Qed.

Lemma inputs_ok values :
  validateInputs values = Ok tt ↔
  Forall (λ i, is_id (iID i) ∧ is_text 240 (iDescription i)) values ∧ NoDup (map iID values).
Proof. unfold validateInputs. conditions. itemwise. done. Qed.

Lemma privileges_ok values :
  validatePrivileges values = Ok tt ↔
  Forall (λ p, is_id (pID p) ∧ pRequirement p ∈ [RequirementRequired; RequirementConditional; RequirementNone] ∧
               is_text 240 (pDescription p)) values ∧ NoDup (map pID values).
Proof. unfold validatePrivileges. conditions. itemwise. done. Qed.

Definition dependency_ok (d : Dependency) : Prop :=
  is_id (dID d) ∧ dKind d ∈ [DependencyCapability; DependencyRuntime; DependencyService] ∧ is_text 240 (dDescription d) ∧
  hasUnsafeText (VersionConstraint d) = false.

Lemma dependencies_ok values :
  validateDependencies values = Ok tt ↔ Forall dependency_ok values ∧ NoDup (map dependency_key values).
Proof. unfold validateDependencies. conditions. itemwise. unfold dependency_ok. naive_solver. Qed.

(** A field lists values exactly when it is an enumeration. *)
Definition field_ok (f : ConfigField) : Prop :=
  is_name (fName f) ∧ fType f ∈ fieldTypes ∧ is_text 240 (fDescription f) ∧
  (fType f = ConfigEnum ↔ Enum f ≠ []) ∧ Forall is_name (Enum f) ∧ NoDup (Enum f).

Lemma enum_ok values :
  res_bind (each_once (validName "invalid enum value") (λ v, v) "duplicate enum value" always values) (λ _, Ok tt) = Ok tt ↔
  Forall is_name values ∧ NoDup values.
Proof. conditions. rewrite map_id. itemwise. naive_solver. Qed.

Lemma config_ok config :
  validateConfig config = Ok tt ↔
  0 < cSchemaVersion config ∧ Forall field_ok (Fields config) ∧ NoDup (map fName (Fields config)).
Proof.
  unfold validateConfig. conditions. itemwise. unfold field_ok. case_bool_decide as Ht.
  - rewrite guard_ok, enum_ok, empty_list. naive_solver.
  - rewrite guard_unit, negb_false_iff. unfold llen. destruct (Enum x) as [|v l]; simpl; [|naive_solver lia].
    split; [|naive_solver]. intros (? & ? & ? & ?). split_and!; [naive_solver..|constructor|constructor].
Qed.

(** Limits are declared exactly when they were measured, and a measurement names its
    evidence. *)
Definition resources_fine (r : ResourceBudget) : Prop :=
  is_name (rProfile r) ∧ hasUnsafeText (rEvidence r) = false ∧
  (Measurement r = MeasurementUnmeasured ∧ MaxRAMMiB r = 0 ∧ MaxDiskMiB r = 0 ∧ float_eqb (MaxCPUPercent r) float_zero = true ∨
   Measurement r = MeasurementMeasured ∧ 0 < MaxRAMMiB r ∧ 0 < MaxDiskMiB r ∧ float_leb (MaxCPUPercent r) float_zero = false ∧
   TrimSpace (rEvidence r) ≠ "").

Lemma resources_ok r : validateResources r = Ok tt ↔ resources_fine r.
Proof.
  unfold validateResources, resources_fine. rewrite guard_ok, guard_ok, when_false, negb_true_iff, is_false_eq, negb_false_iff.
  change (MatchString namePattern (rProfile r) = true) with (is_name (rProfile r)).
  apply and_iff_compat_l.
  assert (He : (rEvidence r ≠ "" → hasUnsafeText (rEvidence r) = false) ↔ hasUnsafeText (rEvidence r) = false)
    by (destruct (decide (rEvidence r = "")) as [->|]; naive_solver).
  rewrite He. apply and_iff_compat_l. case_bool_decide as Hu; [|case_bool_decide as Hm].
  - conditions. rewrite !Z.eqb_eq, Hu. intuition (discriminate || eauto).
  - conditions. rewrite Hm. intuition (discriminate || eauto).
  - naive_solver.
Qed.

Lemma provenance_ok p :
  validateProvenance p = Ok tt ↔
  vKind p ∈ ["first-party"; "third-party"] ∧ is_text 80 (License p) ∧ is_text 300 (vSource p) ∧ is_text 240 (VersionPolicy p).
Proof.
  unfold validateProvenance. conditions. rewrite !elem_of_cons, elem_of_nil.
  destruct (decide (vKind p = "first-party")); naive_solver.
Qed.

Lemma health_ok h :
  validateHealth h = Ok tt ↔
  VerificationSignals h ≠ [] ∧ Forall is_id (VerificationSignals h) ∧ NoDup (VerificationSignals h).
Proof. unfold validateHealth. conditions. rewrite map_id. itemwise. naive_solver. Qed.

Definition section_ok (values : list string) : Prop :=
  1 <= llen values <= 8 ∧ Forall (is_text 240) values ∧ NoDup values.

Lemma validateSection_ok values : validateSection values = Ok tt ↔ section_ok values.
Proof.
  unfold validateSection, section_ok. conditions. rewrite map_id.
  assert (Hl : values ≠ [] ↔ 1 <= llen values) by (destruct values; unfold llen; simpl; split; naive_solver lia).
  rewrite Hl. apply and_iff_compat_l. itemwise. naive_solver.
Qed.

Lemma data_handling_ok d :
  validateDataHandling d = Ok tt ↔
  is_text 240 (Activation d) ∧ section_ok (Sources d) ∧ section_ok (Stored d) ∧ section_ok (Excluded d).
Proof.
  unfold validateDataHandling. rewrite check_ok, validateText_ok, <- !validateSection_ok. cbn [for_each].
  destruct (validateSection (Sources d)) as [[]|], (validateSection (Stored d)) as [[]|], (validateSection (Excluded d)) as [[]|];
    simpl; naive_solver.
Qed.

Lemma outputs_ok values :
  validateOutputs values = Ok tt ↔
  values ≠ [] ∧ Forall (λ o, is_id (oKind o) ∧ 0 < oSchemaVersion o) values ∧ NoDup (map oKind values).
Proof. unfold validateOutputs. conditions. itemwise. naive_solver. Qed.

Lemma ids_ok dup values :
  res_bind (each_once validateID (λ v, v) dup always values) (λ _, Ok tt) = Ok tt ↔ Forall is_id values ∧ NoDup values.
Proof. conditions. rewrite map_id. itemwise. naive_solver. Qed.

Lemma deep_links_ok values :
  validateDeepLinks values = Ok tt ↔
  Forall (λ l, is_id (lID l) ∧ Forall is_id (AllowedContexts l) ∧ NoDup (AllowedContexts l)) values ∧ NoDup (map lID values).
Proof.
  unfold validateDeepLinks. rewrite each_once_some. repeat (apply and_iff_compat_l || apply and_iff_compat_r).
  apply Forall_iff. intros l. cbn beta. by rewrite ids_ok, validateID_ok.
Qed.

Lemma contains_ownership values target : containsOwnership values target = true ↔ target ∈ values.
Proof.
  unfold containsOwnership. rewrite existsb_true_iff, Exists_exists. setoid_rewrite is_true_eq. naive_solver.
Qed.

(** A built-in capability has no process of its own: it is neither installed, connected,
    started nor removed.  Every capability can be checked before and after. *)
Definition lifecycle_fine (ownership : list OwnershipMode) (actions : list LifecycleAction) : Prop :=
  Forall (λ a, a ∈ lifecycleActions) actions ∧ NoDup actions ∧ ActionPreflight ∈ actions ∧ ActionVerify ∈ actions ∧
  (OwnershipBuiltin ∈ ownership → Forall (λ a, a ∉ builtinForbidden) actions).

Lemma lifecycle_ok ownership actions :
  validateLifecycle ownership actions = Ok tt ↔ lifecycle_fine ownership actions.
Proof.
  unfold validateLifecycle, lifecycle_fine. rewrite guard_ok, empty_list, res_bind_ok. setoid_rewrite each_once_ok. rewrite map_id.
  assert (Hm : Forall (λ a, (guard? negb (member_of lifecycleActions a) else "unknown lifecycle action" in Ok tt) = Ok tt ∧ always a = Ok tt) actions
               ↔ Forall (λ a, a ∈ lifecycleActions) actions) by (apply Forall_iff; intros v; conditions; naive_solver).
  setoid_rewrite Hm. split.
  - intros (_ & seen & (Hf & Hn & ->) & [Hb [Hp Hv]%guard_unit%orb_false_iff]%guard_ok).
    apply negb_false_iff, bool_decide_eq_true in Hp, Hv. rewrite elem_of_reverse in Hp, Hv. split_and!; try done.
    intros Ho%contains_ownership. rewrite Ho in Hb. apply existsb_false_iff in Hb. rewrite Forall_forall in Hb.
    apply Forall_forall. intros a Ha Hin. specialize (Hb a Hin). apply bool_decide_eq_false in Hb. by rewrite elem_of_reverse in Hb.
  - intros (Hf & Hn & Hp & Hv & Hb). split; [by intros ->; apply not_elem_of_nil in Hp|]. eexists. split; [done|].
    apply guard_ok. split.
    + apply when_false. intros Ho%contains_ownership. apply existsb_false_iff, Forall_forall. intros a Ha.
      apply bool_decide_eq_false. rewrite elem_of_reverse. intros Hin. specialize (Hb Ho). rewrite Forall_forall in Hb. by apply (Hb a).
    + apply guard_unit. rewrite !bool_decide_eq_true_2; [done|by rewrite elem_of_reverse..].
Qed.

(** The whole contract. *)
Record manifest_ok (m : Manifest) : Prop := {
  ok_schema : mSchemaVersion m = SchemaVersion;
  ok_id : is_id (ID m);
  ok_name : is_text 80 (DisplayName m);
  ok_summary : is_text 280 (Summary m);
  ok_release : MatchString releasePattern (Release m) = true;
  ok_ownership : Ownership m ≠ [] ∧ Forall (λ v, v ∈ ownershipModes) (Ownership m) ∧ NoDup (Ownership m) ∧
                 (OwnershipBuiltin ∈ Ownership m → Ownership m = [OwnershipBuiltin]);
  ok_targets : Targets m ≠ [] ∧ Forall target_ok (Targets m) ∧ NoDup (map target_key (Targets m));
  ok_inputs : Forall (λ i, is_id (iID i) ∧ is_text 240 (iDescription i)) (Inputs m) ∧ NoDup (map iID (Inputs m));
  ok_privileges : Forall (λ p, is_id (pID p) ∧ pRequirement p ∈ [RequirementRequired; RequirementConditional; RequirementNone] ∧
                               is_text 240 (pDescription p)) (Privileges m) ∧ NoDup (map pID (Privileges m));
  ok_dependencies : Forall dependency_ok (Dependencies m) ∧ NoDup (map dependency_key (Dependencies m));
  ok_config : 0 < cSchemaVersion (Config m) ∧ Forall field_ok (Fields (Config m)) ∧ NoDup (map fName (Fields (Config m)));
  ok_resources : resources_fine (Resources m);
  ok_provenance : vKind (mProvenance m) ∈ ["first-party"; "third-party"] ∧ is_text 80 (License (mProvenance m)) ∧
                  is_text 300 (vSource (mProvenance m)) ∧ is_text 240 (VersionPolicy (mProvenance m));
  ok_health : VerificationSignals (Health m) ≠ [] ∧ Forall is_id (VerificationSignals (Health m)) ∧
              NoDup (VerificationSignals (Health m));
  ok_data : is_text 240 (Activation (DataHandling m)) ∧ section_ok (Sources (DataHandling m)) ∧
            section_ok (Stored (DataHandling m)) ∧ section_ok (Excluded (DataHandling m));
  ok_outputs : Outputs m ≠ [] ∧ Forall (λ o, is_id (oKind o) ∧ 0 < oSchemaVersion o) (Outputs m) ∧ NoDup (map oKind (Outputs m));
  ok_links : Forall (λ l, is_id (lID l) ∧ Forall is_id (AllowedContexts l) ∧ NoDup (AllowedContexts l)) (DeepLinks m) ∧
             NoDup (map lID (DeepLinks m));
  ok_lifecycle : lifecycle_fine (Ownership m) (Lifecycle m);
}.

Lemma manifest_iff m : Validate m = Ok tt ↔ manifest_ok m.
Proof.
  unfold Validate.
  rewrite guard_ok, negb_false_iff, Z.eqb_eq, !check_ok, guard_ok, negb_false_iff, !check_ok, validateID_ok, !validateText_ok, ownership_ok,
    targets_ok, inputs_ok, privileges_ok, dependencies_ok, config_ok, resources_ok, provenance_ok, health_ok, data_handling_ok,
    outputs_ok, deep_links_ok, lifecycle_ok.
  split.
  - intros H. destruct_and! H. by constructor.
  - intros []. repeat (split; [done|]). done.
Qed.

(** C18: [Validate] accepts a manifest exactly when it meets the contract: the schema version,
    identifiers and bounded printable texts, ownership modes that are known, distinct and
    never mixed with built-in, known platforms listed once with a readable minimum version
    and evidence for a tested one, distinct inputs, privileges, dependencies, fields (with
    values exactly for an enumeration), outputs, links and signals, limits exactly when
    measured, and a lifecycle with preflight and verify that installs or starts nothing for
    a built-in capability. *)
Theorem manifest_validate_spec m : Validate m = Ok tt ↔ manifest_ok m.
Proof. apply manifest_iff. Qed.

(** The manifest of the built-in Device Watch capability, [manifests/device-watch.json]. *)
Definition device_watch : Manifest := {|
  mSchemaVersion := 2; ID := "device-watch"; DisplayName := "Device Watch";
  Summary := "Find devices visible from an enrolled home network and track presence without claiming whole-network traffic visibility.";
  Release := "v0.1"; Ownership := ["builtin"];
  Targets := [mkTarget "darwin" "arm64" "13.0" "candidate" "docs/architecture/support-matrix.md"];
  Inputs := [mkInput "enrolled-network-scope" true "An explicitly enrolled network scope owned or authorized by the user."];
  Privileges := [mkPrivilege "local-network-access" "conditional"
    "Platform or network policy may require local-network permission; exact behavior remains a tested platform prerequisite."];
  Dependencies := [];
  Config := mkConfig 1 [mkConfigField "network_scope_id" "string" true "Opaque Cozy SOC identifier for the enrolled network scope." []];
  Resources := mkResources "unmeasured" "desktop-base" 0 0 float_zero "Foundation resource measurements remain release-gated.";
  mProvenance := mkProvenance "first-party" "MIT" "https://github.com/fijimunkii/cozysoc"
    "Ships with the Cozy SOC controller and follows the controller release version.";
  Health := mkHealth false
    ["network-scope-enrolled"; "observation-freshness"; "sensor-operational"; "ingestion-health"; "storage-health"] true;
  DataHandling := mkDataHandling
    "Collection starts only after network enrollment and separate Device Watch enablement. Device Watch sends no discovery probes or scans."
    ["Local macOS ARP and IPv6 neighbor caches for the enrolled network interface."]
    ["Observed IP and MAC addresses with source and time.";
     "Temporal device associations and presence evidence; labels when you add them.";
     "Coverage, health, and control audit records."]
    ["Packet payloads and browsing history."; "Responses from active discovery probes or scans."];
  Outputs := [mkOutput "device-observation" 1; mkOutput "coverage-sample" 1]; DeepLinks := [];
  Lifecycle := ["preflight"; "enable"; "verify"; "disable"];
|}.

Lemma device_watch_valid : Validate device_watch = Ok tt.
Proof. vm_compute. reflexivity. Qed.
Lemma device_watch_ok : manifest_ok device_watch.
Proof. apply manifest_iff, device_watch_valid. Qed.

End Manifest.
