(* ===== verification/Capability.v ===== *)
(** * Capability registry and configured instances

    [capability/registry.go], [capability/instance.go], [capability/state.go] and the
    references of [secretstore/store.go]: the manifests a controller knows, the platform a
    manifest offers to a machine, the configuration of a capability and the instances they
    make.  A copy ([cloneManifest], [cloneConfiguration]) is the value itself; the methods
    of a nil pointer, which answer that nothing is available, are left out, and the lock of
    an instance set makes each method one step. *)

From Stdlib Require Import Ascii.
From S2P Require Import Prelude Regex Manifest GoJSON.

Module Capability.
Import Manifest JSON.

(** ** The registry *)

Definition Registry := gmap string Manifest.

Definition NewRegistry (manifests : list Manifest) : result string Registry :=
  for_each (λ byID manifest,
    check? Validate manifest in
    guard? is_some (byID !! ID manifest) else "duplicate capability id" in
    Ok (<[ID manifest := manifest]> byID)) manifests ∅.

Definition Get (r : Registry) (id : string) : option Manifest := r !! id.

Definition sorted_ids (r : Registry) : list string := merge_sort String.le (map fst (map_to_list r)).
Definition List (r : Registry) : list Manifest := omap (λ id, r !! id) (sorted_ids r).

Record Environment := mkEnvironment { eOS : string; eArch : string; OSVersion : string }.
Record TargetMatch := mkMatch { Matched : bool; mTarget : option Target; Reason : string }.

Fixpoint match_targets (targets : list Target) (env : Environment) : TargetMatch :=
  match targets with
  | [] => mkMatch false None ("no target for " +:+ eOS env +:+ "/" +:+ eArch env)
  | target :: rest =>
      if (OS target != eOS env) || (Arch target != eArch env) then match_targets rest env
      else if MinVersion target == "" then mkMatch true (Some target) ""
      else match parseVersion (OSVersion env) with
           | None => mkMatch false (Some target) "OS version is missing or invalid"
           | Some actual =>
               let minimum := default [] (parseVersion (MinVersion target)) in
               if compareVersion actual minimum <? 0
               then mkMatch false (Some target) ("requires " +:+ OS target +:+ " " +:+ MinVersion target +:+ " or newer")
               else mkMatch true (Some target) ""
           end
  end.
Definition MatchTarget (manifest : Manifest) (env : Environment) : TargetMatch := match_targets (Targets manifest) env.

(** ** References to secrets *)

Definition maxReferenceLength : Z := 128.
Definition reference_char (c : ascii) : bool := lower_digit c || one_of "._-/" c.

Definition ParseReference (value : string) : result string string :=
  guard? (slen value =? 0) || (maxReferenceLength <? slen value) else "length must be 1..128" in
  guard? negb (forallb reference_char (String.list_ascii_of_string value)) else "references use lowercase ASCII letters" in
  guard? negb (match String.list_ascii_of_string value with c :: _ => lower_digit c | [] => false end)
  else "reference must start with a letter or digit" in
  Ok value.

(** ** Instance state *)

Definition DesiredState := string.
Definition DesiredDisabled : DesiredState := "disabled".
Definition DesiredEnabled : DesiredState := "enabled".

Definition ProcessState := string.
Definition ProcessNotApplicable : ProcessState := "not-applicable".
Definition ProcessStopped : ProcessState := "stopped".
Definition ProcessStarting : ProcessState := "starting".
Definition ProcessRunning : ProcessState := "running".
Definition ProcessFailed : ProcessState := "failed".

Definition VerificationState := string.
Definition VerificationUnverified : VerificationState := "unverified".
Definition VerificationVerifying : VerificationState := "verifying".
Definition VerificationVerified : VerificationState := "verified".
Definition VerificationDegraded : VerificationState := "degraded".
Definition VerificationStale : VerificationState := "stale".

Record InstanceState := mkState { Desired : DesiredState; Process : ProcessState; Verification : VerificationState }.

Definition processStates : list ProcessState :=
  [ProcessNotApplicable; ProcessStopped; ProcessStarting; ProcessRunning; ProcessFailed].
Definition verificationStates : list VerificationState :=
  [VerificationUnverified; VerificationVerifying; VerificationVerified; VerificationDegraded; VerificationStale].

Definition validateState (s : InstanceState) (manifest : Manifest) : result string unit :=
  guard? (Desired s != DesiredDisabled) && (Desired s != DesiredEnabled) else "unknown desired state" in
  guard? negb (member_of processStates (Process s)) else "unknown process state" in
  guard? negb (member_of verificationStates (Verification s)) else "unknown verification state" in
  guard? containsOwnership (Ownership manifest) OwnershipBuiltin && (Process s != ProcessNotApplicable)
  else "builtin capability has no independent process state" in
  Ok tt.

(** ** Configurations *)

Definition MaxInstanceConfigBytes : Z := 32 * 1024.

(** The raw JSON text of each value. *)
Record Configuration := mkConfiguration {
  nID : string;
  nOwnership : OwnershipMode;
  nDesired : DesiredState;
  Values : gmap string string;
}.

(** [json.Marshal] of the values: every text must be JSON (an empty one is not); the length
    of the object is that of its members, with a colon and, but for the first, a comma. *)
Definition member_length (kv : string * string) : Z :=
  key_length (sbytes kv.1) + 1 + compact_length false false (sbytes kv.2).
Definition encoded_length (values : gmap string string) : option Z :=
  let members := map_to_list values in
  if forallb (λ kv, is_some (parse (sbytes kv.2))) members
  then Some (2 + foldr (λ kv n, member_length kv + n) 0 members + Z.max 0 (llen members - 1))
  else None.

(** [decodeConfiguredScalar] into a string and into a boolean: one value and nothing after it. *)
Definition decode_string (raw : string) : result string string :=
  match parse (sbytes raw) with
  | Some (JString s) => Ok (of_bytes s)
  | Some JNull => Ok ""
  | _ => Err "invalid value"
  end.
Definition decode_bool (raw : string) : result string bool :=
  match parse (sbytes raw) with
  | Some (JBool b) => Ok b
  | Some JNull => Ok false
  | _ => Err "invalid value"
  end.

Definition validateConfiguredValue (field : ConfigField) (raw : string) : result string unit :=
  let trimmed := TrimSpace raw in
  guard? slen trimmed =? 0 else "value is empty" in
  guard? trimmed == "null" else "null is not a configured value" in
  if fType field == ConfigString then
    let? value := decode_string raw in
    guard? (2048 <? slen value) || hasUnsafeText value else "string value is invalid" in
    guard? fRequired field && (value == "") else "required string value is empty" in
    Ok tt
  else if fType field == ConfigBoolean then
    let? _ := decode_bool raw in Ok tt
  else if fType field == ConfigInteger then
    match parse (sbytes raw) with
    | None => Err "expected integer"
    | Some (JNumber number) =>
        guard? negb (is_some (Atoi (String.list_ascii_of_string (of_bytes number)))) else "expected integer" in Ok tt
    | Some _ => Err "expected integer"
    end
  else if fType field == ConfigEnum then
    let? value := decode_string raw in
    guard? negb (existsb (λ candidate, value == candidate) (Enum field)) else "value is not in the allowed enum" in
    Ok tt
  else if fType field == ConfigSecretRef then
    let? value := decode_string raw in
    check? ParseReference value in Ok tt
  else Err "unsupported config field type".

(** The map [fields]: the last field of a name. *)
Definition fields_of (fields : list ConfigField) : gmap string ConfigField :=
  foldl (λ acc field, <[fName field := field]> acc) ∅ fields.

Definition sorted_names (values : gmap string string) : list string := merge_sort String.le (map fst (map_to_list values)).

Definition ValidateConfiguration (registry : Registry) (configuration : Configuration) : result string unit :=
  match Get registry (nID configuration) with
  | None => Err "unknown capability"
  | Some manifest =>
      guard? (nDesired configuration != DesiredDisabled) && (nDesired configuration != DesiredEnabled)
      else "unknown desired state" in
      guard? negb (containsOwnership (Ownership manifest) (nOwnership configuration))
      else "ownership is not supported by capability" in
      match encoded_length (Values configuration) with
      | None => Err "encode configured values"
      | Some encoded =>
          guard? MaxInstanceConfigBytes <? encoded else "configured values exceed 32768 bytes" in
          let fields := fields_of (Fields (Config manifest)) in
          check? for_each (λ _ name,
            match fields !! name with
            | None => Err "unknown config field"
            | Some field => validateConfiguredValue field (default "" (Values configuration !! name))
            end) (sorted_names (Values configuration)) tt in
          guard? (nDesired configuration == DesiredEnabled) &&
                 existsb (λ field, fRequired field && negb (is_some (Values configuration !! fName field)))
                   (Fields (Config manifest))
          else "required config field is missing while enabled" in
          Ok tt
      end
  end.

(** ** Instances *)

Record Instance_ := mkInstance {
  iManifest : Manifest;
  Configured : bool;
  iOwnership : OwnershipMode;
  State : InstanceState;
}.

Record Instances := mkInstances { registry : Registry; configured : gmap string Configuration }.

Definition NewInstances (r : option Registry) (configurations : list Configuration) : result string Instances :=
  match r with
  | None => Err "capability registry is required"
  | Some r =>
      let? configured := for_each (λ acc configuration,
        guard? is_some (acc !! nID configuration) else "duplicate capability configuration" in
        check? ValidateConfiguration r configuration in
        Ok (<[nID configuration := configuration]> acc)) configurations ∅ in
      Ok (mkInstances r configured)
  end.

(** A manifest in the registry has at least one ownership mode. *)
Definition defaultConfiguration (manifest : Manifest) : Configuration :=
  mkConfiguration (ID manifest) (default "" (head (Ownership manifest))) DesiredDisabled ∅.

Definition instanceForLocked (i : Instances) (manifest : Manifest) : Instance_ :=
  let explicit := configured i !! ID manifest in
  let configuration := default (defaultConfiguration manifest) explicit in
  let process := if ProcessRequired (Health manifest) then ProcessStopped else ProcessNotApplicable in
  mkInstance manifest (is_some explicit) (nOwnership configuration)
    (mkState (nDesired configuration) process VerificationUnverified).

Definition ListInstances (i : Instances) : list Instance_ := map (instanceForLocked i) (List (registry i)).
Definition GetInstance (i : Instances) (id : string) : option Instance_ :=
  manifest ← Get (registry i) id; Some (instanceForLocked i manifest).
Definition ConfigurationOf (i : Instances) (id : string) : option Configuration := configured i !! id.

Definition SetConfiguration (i : Instances) (configuration : Configuration) : result string Instances :=
  check? ValidateConfiguration (registry i) configuration in
  Ok (mkInstances (registry i) (<[nID configuration := configuration]> (configured i))).

Definition RemoveConfiguration (i : Instances) (id : string) : result string Instances :=
  match Get (registry i) id with
  | None => Err "unknown capability"
  | Some _ => Ok (mkInstances (registry i) (delete id (configured i)))
  end.

(** ** Maps filled by a loop that refuses a repeated key *)

Section Keyed.
Context {A : Type} (key : A → string).

Definition keyed (l : list A) : gmap string A := list_to_map ((λ x, (key x, x)) <$> l).

Lemma keys_of l : ((λ x, (key x, x)) <$> l).*1 = map key l.
Proof. rewrite <- list_fmap_compose. apply list_fmap_ext. done. Qed.

Lemma keyed_lookup l k x : NoDup (map key l) → keyed l !! k = Some x ↔ x ∈ l ∧ key x = k.
Proof.
  intros Hn. unfold keyed. rewrite <- elem_of_list_to_map by (by rewrite keys_of). rewrite list_elem_of_fmap. naive_solver.
Qed.

Lemma keyed_none l k : keyed l !! k = None ↔ k ∉ map key l.
Proof. unfold keyed. by rewrite <- not_elem_of_list_to_map, keys_of. Qed.

Lemma keyed_snoc l x : key x ∉ map key l → keyed (l ++ [x]) = <[key x := x]> (keyed l).
Proof. intros H. unfold keyed. rewrite fmap_app. apply list_to_map_snoc. by rewrite keys_of. Qed.

Lemma keyed_loop {E} (body : gmap string A → A → result E (gmap string A)) (P : A → Prop) :
  (∀ acc x acc', body acc x = Ok acc' ↔ P x ∧ acc !! key x = None ∧ acc' = <[key x := x]> acc) →
  ∀ l r, for_each body l ∅ = Ok r ↔ Forall P l ∧ NoDup (map key l) ∧ r = keyed l.
Proof.
  intros Hbody l. induction l as [|x l IH] using rev_ind; intros r.
  { split; [intros [= <-]|by intros (_ & _ & ->)]. split_and!; [constructor|constructor|done]. }
  rewrite for_each_app, res_bind_ok, map_app, Forall_app, Forall_singleton, NoDup_app. setoid_rewrite IH. cbn [map for_each].
  setoid_rewrite res_bind_ok. setoid_rewrite Hbody. split.
  - intros (? & (Hf & Hn & ->) & ? & (HP & Hk%keyed_none & ->) & [= <-]). split_and!; try done; [|apply NoDup_singleton|by rewrite keyed_snoc].
    intros k Hin ->%list_elem_of_singleton. done.
  - intros ((Hf & HP) & (Hn & Hd & _) & ->).
    assert (Hk : key x ∉ map key l) by (intros Hin; by apply (Hd _ Hin), list_elem_of_singleton).
    eexists. split; [done|]. eexists. split; [|done]. split_and!; [done|by apply keyed_none|by apply keyed_snoc].
Qed.

(** A map filled by assignment is the same one when no key repeats. *)
Lemma assigned_keyed l : NoDup (map key l) → foldl (λ acc x, <[key x := x]> acc) ∅ l = keyed l.
Proof.
  induction l as [|x l IH] using rev_ind; [done|]. rewrite map_app, NoDup_app. intros (Hn & Hd & _).
  rewrite foldl_snoc, IH by done. symmetry. apply keyed_snoc. intros Hin. by apply (Hd _ Hin), list_elem_of_singleton.
Qed.
End Keyed.

(** ** The registry holds the manifests it was given *)

Definition registry_ok (r : Registry) : Prop := map_Forall (λ id m, ID m = id ∧ manifest_ok m) r.

Lemma new_registry_ok manifests r :
  NewRegistry manifests = Ok r ↔ Forall manifest_ok manifests ∧ NoDup (map ID manifests) ∧ r = keyed ID manifests.
Proof.
  apply keyed_loop. intros acc m acc'. rewrite check_ok, manifest_iff, guard_ok, is_some_false. naive_solver.
Qed.

Lemma new_registry_wf manifests r : NewRegistry manifests = Ok r → registry_ok r.
Proof.
  intros (Hf & Hn & ->)%new_registry_ok id m [Hin <-]%keyed_lookup; [|done]. rewrite Forall_forall in Hf. auto.
Qed.

Lemma list_elem_of r m : registry_ok r → m ∈ List r ↔ r !! ID m = Some m.
Proof.
  intros Hr. unfold List, sorted_ids. rewrite list_elem_of_omap. setoid_rewrite merge_sort_Permutation.
  setoid_rewrite list_elem_of_In. setoid_rewrite in_map_iff. setoid_rewrite <- list_elem_of_In. split.
  - intros (id & _ & Hm). by destruct (Hr _ _ Hm) as [-> _].
  - intros Hm. exists (ID m). split; [|done]. exists (ID m, m). split; [done|]. by apply elem_of_map_to_list.
Qed.

(** The listing has one manifest per identifier, in the order of identifiers. *)
Lemma list_ids r : registry_ok r → map ID (List r) = sorted_ids r.
Proof.
  intros Hr. unfold List. assert (Hall : ∀ id, id ∈ sorted_ids r → is_Some (r !! id)).
  { intros id. unfold sorted_ids. rewrite merge_sort_Permutation, list_elem_of_In, in_map_iff.
    intros ([k m] & <- & Hin%list_elem_of_In). apply elem_of_map_to_list in Hin. eauto. }
  revert Hall. induction (sorted_ids r) as [|id ids IH]; intros Hall; [done|]. simpl.
  destruct (Hall id) as [m Hm]; [by left|]. rewrite Hm. simpl. f_equal; [by destruct (Hr _ _ Hm) as [-> _]|].
  apply IH. intros k Hk. apply Hall. by right.
Qed.

(** ** The order of versions *)

Definition part (v : list Z) (i : nat) : Z := default 0 (v !! i).

Lemma part_head v : default 0 (head v) = part v 0.
Proof. by destruct v. Qed.
Lemma part_tail v i : part (tail v) i = part v (S i).
Proof. by destruct v; [destruct i|]. Qed.

(** The first part that differs decides. *)
Inductive decided (a b : list Z) : Z → Prop :=
| decided_lt i : (∀ j, (j < i)%nat → part a j = part b j) → part a i < part b i → decided a b (-1)
| decided_gt i : (∀ j, (j < i)%nat → part a j = part b j) → part b i < part a i → decided a b 1
| decided_eq : (∀ i, part a i = part b i) → decided a b 0.

Lemma decided_step a b n :
  part a 0 = part b 0 → decided (tail a) (tail b) n → decided a b n.
Proof.
  intros H0 Hd. destruct Hd as [i Hj Hi|i Hj Hi|Hi].
  - apply (decided_lt _ _ (S i)); [|by rewrite !part_tail in Hi]. intros [|j] Hlt; [done|]. rewrite <- !part_tail. apply Hj. lia.
  - apply (decided_gt _ _ (S i)); [|by rewrite !part_tail in Hi]. intros [|j] Hlt; [done|]. rewrite <- !part_tail. apply Hj. lia.
  - apply decided_eq. intros [|i]; [done|]. rewrite <- !part_tail. apply Hi.
Qed.

Lemma compare_decided a b : decided a b (compareVersion a b).
Proof.
  unfold compareVersion. remember (Nat.max (length a) (length b)) as n eqn:Hn.
  assert (Hle : (length a <= n ∧ length b <= n)%nat) by lia. clear Hn. revert a b Hle.
  induction n as [|n IH]; intros a b [Ha Hb].
  - destruct a, b; simpl in *; try lia. apply decided_eq. done.
  - cbn [compare_from]. cbv zeta. rewrite !part_head.
    destruct (Z.ltb_spec (part a 0) (part b 0)); [by apply (decided_lt _ _ 0); [lia|]|].
    destruct (Z.ltb_spec (part b 0) (part a 0)); [by apply (decided_gt _ _ 0); [lia|]|].
    apply decided_step; [lia|]. apply IH. destruct a, b; simpl in *; lia.
Qed.

Lemma decided_unique a b n m : decided a b n → decided a b m → n = m.
Proof.
  intros [i Hi Hlt|i Hi Hlt|Hi] [j Hj Hlt'|j Hj Hlt'|Hj]; try done;
    try (specialize (Hj i); lia); try (specialize (Hi j); lia);
    destruct (Nat.lt_trichotomy i j) as [Hc|[->|Hc]]; try lia;
    first [specialize (Hj i Hc); lia | specialize (Hi j Hc); lia].
Qed.

(** ** The platform of a machine *)

(** The platform a manifest lists for an operating system and architecture is unique. *)
Definition offers (t : Target) (env : Environment) : Prop := OS t = eOS env ∧ Arch t = eArch env.

(** The machine is at least as recent as the platform asks. *)
Definition recent (t : Target) (env : Environment) : Prop :=
  MinVersion t = "" ∨
  ∃ actual minimum, parseVersion (OSVersion env) = Some actual ∧ parseVersion (MinVersion t) = Some minimum ∧
    ¬ decided actual minimum (-1).

Lemma not_older a b : (compareVersion a b <? 0) = false ↔ ¬ decided a b (-1).
Proof.
  pose proof (compare_decided a b) as Hd. rewrite Z.ltb_ge. split.
  - intros Hge Hlt. rewrite (decided_unique _ _ _ _ Hd Hlt) in Hge. lia.
  - intros Hn. destruct Hd; try lia. exfalso. by eapply Hn, decided_lt.
Qed.

Lemma match_first targets env :
  Forall target_ok targets →
  Matched (match_targets targets env) = true ↔
  ∃ t, find (λ t, negb ((OS t != eOS env) || (Arch t != eArch env))) targets = Some t ∧ recent t env.
Proof.
  induction 1 as [|t ts Ht _ IH]; simpl; [naive_solver|]. destruct (_ || _) eqn:E; simpl; [done|].
  unfold recent. clear E. case_bool_decide as Hm; simpl; [split; eauto|]. destruct Ht as (_ & _ & _ & Hp & _).
  destruct (parseVersion (MinVersion t)) as [minimum|] eqn:Emin; [|naive_solver].
  destruct (parseVersion (OSVersion env)) as [actual|] eqn:Eact; simpl;
    [|by split; [|intros (? & [= <-] & [?|(? & ? & ? & ?)])]].
  destruct (compareVersion actual minimum <? 0) eqn:Ec; simpl.
  - split; [done|]. intros (? & [= <-] & [?|(? & ? & [= <-] & Hmin & Hd%not_older)]); congruence.
  - apply not_older in Ec. split; [|done]. intros _. exists t. split; [done|]. right. by exists actual, minimum.
Qed.

Lemma find_target targets env t :
  NoDup (map target_key targets) →
  find (λ t, negb ((OS t != eOS env) || (Arch t != eArch env))) targets = Some t ↔ t ∈ targets ∧ offers t env.
Proof.
  intros Hn. unfold offers. induction targets as [|u ts IH]; simpl; [set_solver|]. apply NoDup_cons in Hn as [Hu Hn].
  match goal with |- (if ?b then _ else _) = _ ↔ _ => destruct b eqn:E end.
  - go_bool. split.
    + intros [= <-]. by repeat split; [left|..].
    + intros ([->|Hin]%elem_of_cons & Ho & Ha); [done|]. exfalso. apply Hu. apply list_elem_of_In, in_map_iff. exists t.
      split; [|by apply list_elem_of_In]. unfold target_key. congruence.
  - rewrite (IH Hn), elem_of_cons. apply negb_false_iff, orb_true_iff in E. setoid_rewrite negb_true_iff in E.
    setoid_rewrite bool_decide_eq_false in E. naive_solver.
Qed.

Lemma match_target_iff m env :
  manifest_ok m → Matched (MatchTarget m env) = true ↔ ∃ t, t ∈ Targets m ∧ offers t env ∧ recent t env.
Proof.
  intros Hm. destruct (ok_targets m Hm) as (_ & Hf & Hn). unfold MatchTarget. rewrite match_first by done.
  setoid_rewrite find_target; [|done]. naive_solver.
Qed.

(** A validated manifest supports a machine exactly when it lists the machine's operating
    system and architecture and the machine is not older than the version that platform
    asks for, versions being compared part by part with missing parts read as zero. *)
Theorem match_target_spec m env :
  manifest_ok m → Matched (MatchTarget m env) = true ↔ ∃ t, t ∈ Targets m ∧ offers t env ∧ recent t env.
Proof. apply match_target_iff. Qed.

Lemma match_target_spec_witness :
  Matched (MatchTarget device_watch (mkEnvironment "darwin" "arm64" "14.2.1")) = true ∧
  ∃ t, t ∈ Targets device_watch ∧ offers t (mkEnvironment "darwin" "arm64" "14.2.1") ∧ recent t (mkEnvironment "darwin" "arm64" "14.2.1").
Proof.
  assert (H : Matched (MatchTarget device_watch (mkEnvironment "darwin" "arm64" "14.2.1")) = true) by reflexivity.
  split; [exact H|]. exact (proj1 (match_target_spec device_watch _ device_watch_ok) H).
Defined.

(** ** Configurations *)

(** What a configured value must be, by the type of its field. *)
Definition value_ok (f : ConfigField) (raw : string) : Prop :=
  TrimSpace raw ≠ "" ∧ TrimSpace raw ≠ "null" ∧
  (fType f = ConfigString ∧ (∃ v, decode_string raw = Ok v ∧ slen v <= 2048 ∧ hasUnsafeText v = false ∧ (fRequired f = true → v ≠ "")) ∨
   fType f = ConfigBoolean ∧ (∃ b, decode_bool raw = Ok b) ∨
   fType f = ConfigInteger ∧ (∃ n, parse (sbytes raw) = Some (JNumber n) ∧ Atoi (String.list_ascii_of_string (of_bytes n)) ≠ None) ∨
   fType f = ConfigEnum ∧ (∃ v, decode_string raw = Ok v ∧ v ∈ Enum f) ∨
   fType f = ConfigSecretRef ∧ (∃ v, decode_string raw = Ok v ∧ ParseReference v = Ok v)).

Lemma reference_value v w : ParseReference v = Ok w → w = v.
Proof. unfold ParseReference. intros H. inv_ok H. congruence. Qed.

Lemma slen_zero s : (slen s =? 0) = false ↔ s ≠ "".
Proof. unfold slen. rewrite Z.eqb_neq. destruct s; simpl; split; naive_solver lia. Qed.

Lemma enum_member (v : string) (l : list string) : existsb (λ candidate, v == candidate) l = true ↔ v ∈ l.
Proof. rewrite existsb_true_iff, Exists_exists. setoid_rewrite bool_decide_eq_true. naive_solver. Qed.

Lemma types_differ t : t ∈ fieldTypes →
  t = ConfigString ∨ t = ConfigBoolean ∨ t = ConfigInteger ∨ t = ConfigEnum ∨ t = ConfigSecretRef.
Proof. unfold fieldTypes. rewrite !elem_of_cons, elem_of_nil. naive_solver. Qed.

Lemma configured_value_ok f raw : validateConfiguredValue f raw = Ok tt ↔ value_ok f raw.
Proof.
  unfold validateConfiguredValue, value_ok. cbv zeta. rewrite guard_ok, slen_zero, guard_ok, bool_decide_eq_false.
  do 2 apply and_iff_compat_l.
  case_bool_decide as H1; [|case_bool_decide as H2; [|case_bool_decide as H3; [|case_bool_decide as H4; [|case_bool_decide as H5]]]].
  - rewrite H1, res_bind_ok. setoid_rewrite guard_ok. setoid_rewrite guard_unit. setoid_rewrite orb_false_iff. setoid_rewrite Z.ltb_ge.
    setoid_rewrite when_false. setoid_rewrite bool_decide_eq_false.
    split; [naive_solver|]. intros [[_ H]|[[? _]|[[? _]|[[? _]|[? _]]]]]; try done. naive_solver.
  - rewrite H2, res_bind_ok. split; [naive_solver|]. intros [[? _]|[[_ H]|[[? _]|[[? _]|[? _]]]]]; try done. naive_solver.
  - rewrite H3. destruct (parse (sbytes raw)) as [[]|] eqn:E; try (split; [done|]; naive_solver).
    rewrite guard_unit, negb_false_iff, is_some_not. split; [naive_solver|].
    intros [[? _]|[[? _]|[[_ H]|[[? _]|[? _]]]]]; try done. naive_solver.
  - rewrite H4, res_bind_ok. setoid_rewrite guard_unit. setoid_rewrite negb_false_iff. setoid_rewrite enum_member.
    split; [naive_solver|]. intros [[? _]|[[? _]|[[? _]|[[_ H]|[? _]]]]]; try done.
  - rewrite H5, res_bind_ok. setoid_rewrite only_ok. split.
    + intros (v & Hv & w & Hw). pose proof (reference_value _ _ Hw) as ->. naive_solver.
    + intros [[? _]|[[? _]|[[? _]|[[? _]|[_ H]]]]]; try done. naive_solver.
  - naive_solver.
Qed.

(** A configuration for a manifest: each value belongs to a field and fits it, and an
    enabled capability has a value for every required field. *)
Record configuration_ok (m : Manifest) (c : Configuration) : Prop := {
  fits_desired : nDesired c = DesiredDisabled ∨ nDesired c = DesiredEnabled;
  fits_ownership : nOwnership c ∈ Ownership m;
  fits_size : ∃ n, encoded_length (Values c) = Some n ∧ n <= MaxInstanceConfigBytes;
  fits_values : ∀ name raw, Values c !! name = Some raw → ∃ f, f ∈ Fields (Config m) ∧ fName f = name ∧ value_ok f raw;
  fits_required : nDesired c = DesiredEnabled →
    ∀ f, f ∈ Fields (Config m) → fRequired f = true → is_Some (Values c !! fName f);
}.

Lemma elem_of_names values name : name ∈ sorted_names values ↔ is_Some (values !! name).
Proof.
  unfold sorted_names. rewrite merge_sort_Permutation, list_elem_of_In, in_map_iff. setoid_rewrite <- list_elem_of_In. split.
  - intros ([k v] & <- & Hin%elem_of_map_to_list). eauto.
  - intros [v Hv]. exists (name, v). split; [done|]. by apply elem_of_map_to_list.
Qed.

Lemma for_all_ok {E A} (f : A → result E unit) l : for_each (λ _ x, f x) l tt = Ok tt ↔ Forall (λ x, f x = Ok tt) l.
Proof.
  induction l as [|x l IH]; simpl; [naive_solver|]. rewrite Forall_cons, <- IH. destruct (f x) as [[]|]; simpl; naive_solver.
Qed.

Lemma values_ok m c :
  NoDup (map fName (Fields (Config m))) →
  for_each (λ _ name,
    match fields_of (Fields (Config m)) !! name with
    | None => Err "unknown config field"
    | Some field => validateConfiguredValue field (default "" (Values c !! name))
    end) (sorted_names (Values c)) tt = Ok tt ↔
  ∀ name raw, Values c !! name = Some raw → ∃ f, f ∈ Fields (Config m) ∧ fName f = name ∧ value_ok f raw.
Proof.
  intros Hn. rewrite for_all_ok, Forall_forall. setoid_rewrite elem_of_names. unfold fields_of. rewrite assigned_keyed by done. split.
  - intros H name raw Hraw. specialize (H name ltac:(eauto)). rewrite Hraw in H. destruct (keyed _ _ !! name) as [f|] eqn:E; [|done].
    apply keyed_lookup in E as [Hin <-]; [|done]. exists f. by apply configured_value_ok in H.
  - intros H name [raw Hraw]. destruct (H _ _ Hraw) as (f & Hin & Hf & Hv).
    rewrite (proj2 (keyed_lookup fName _ name f Hn)) by done. rewrite Hraw. by apply configured_value_ok.
Qed.

Lemma validate_configuration_iff r c :
  registry_ok r → ValidateConfiguration r c = Ok tt ↔ ∃ m, r !! nID c = Some m ∧ configuration_ok m c.
Proof.
  intros Hr. unfold ValidateConfiguration, Get. destruct (r !! nID c) as [m|] eqn:Em; [|naive_solver].
  destruct (Hr _ _ Em) as [_ Hm]. destruct (ok_config m Hm) as (_ & _ & Hn).
  assert (Hd : (nDesired c != DesiredDisabled) && (nDesired c != DesiredEnabled) = false ↔
               nDesired c = DesiredDisabled ∨ nDesired c = DesiredEnabled) by (do 2 case_bool_decide; naive_solver).
  rewrite guard_ok, Hd, guard_ok, negb_false_iff, contains_ownership.
  assert (Hreq : (nDesired c == DesiredEnabled) &&
                 existsb (λ f, fRequired f && negb (is_some (Values c !! fName f))) (Fields (Config m)) = false ↔
                 (nDesired c = DesiredEnabled → ∀ f, f ∈ Fields (Config m) → fRequired f = true → is_Some (Values c !! fName f))).
  { rewrite when_false, bool_decide_eq_true, existsb_false_iff, Forall_forall. setoid_rewrite when_false.
    setoid_rewrite negb_false_iff. setoid_rewrite is_some_not. setoid_rewrite <- not_eq_None_Some. done. }
  split.
  - intros (H1 & H2 & H3). destruct (encoded_length (Values c)) as [n|] eqn:En; [|done].
    apply guard_ok in H3 as [Hs%Z.ltb_ge [Hv Hq%guard_unit]%check_ok]. exists m. split; [done|]. constructor; eauto.
    + by apply values_ok.
    + by apply Hreq.
  - intros (? & [= <-] & [H1 H2 (n & Hs & Hle) Hv Hq]). split_and!; [done..|]. rewrite Hs. apply guard_ok.
    split; [by apply Z.ltb_ge|]. apply check_ok. split; [by apply values_ok|]. apply guard_unit. by apply Hreq.
Qed.

(** C19: [ValidateConfiguration] accepts a configuration exactly when the capability is
    registered, the desired state and ownership are ones the manifest knows, the values are
    JSON of at most 32 KiB in compact form, each belongs to a field of the manifest and fits
    its type (a bounded printable string, a boolean, a 64-bit integer, a listed value, a
    well-formed secret reference), and, when the capability is enabled, every required
    field has one. *)
Theorem validate_configuration_spec r c :
  registry_ok r → ValidateConfiguration r c = Ok tt ↔ ∃ m, r !! nID c = Some m ∧ configuration_ok m c.
Proof. apply validate_configuration_iff. Qed.

(** A text between double quotes. *)
Definition json_string (s : string) : string := of_bytes (quoted (sbytes s)).

Definition home_registry : Registry := {[ "device-watch" := device_watch ]}.
Definition home_configuration : Configuration :=
  mkConfiguration "device-watch" "builtin" "enabled" {[ "network_scope_id" := json_string "scope.home" ]}.

Lemma home_registry_built : NewRegistry [device_watch] = Ok home_registry.
Proof.
  apply new_registry_ok. split_and!; [by constructor; [apply device_watch_ok|]|apply NoDup_singleton|reflexivity].
Qed.
Lemma home_registry_ok : registry_ok home_registry.
Proof. by apply (new_registry_wf [device_watch]), home_registry_built. Qed.

Lemma validate_configuration_spec_witness :
  ValidateConfiguration home_registry home_configuration = Ok tt ∧ configuration_ok device_watch home_configuration.
Proof.
  assert (H : ValidateConfiguration home_registry home_configuration = Ok tt) by (vm_compute; reflexivity).
  split; [exact H|]. destruct (proj1 (validate_configuration_spec home_registry home_configuration home_registry_ok) H) as (m & Hm & Hc).
  injection Hm as <-. exact Hc.
Defined.

(** ** Instances *)

Definition instances_ok (i : Instances) : Prop :=
  registry_ok (registry i) ∧
  map_Forall (λ id c, nID c = id ∧ ValidateConfiguration (registry i) c = Ok tt) (configured i).

Lemma new_instances_ok r cs i : registry_ok r → NewInstances (Some r) cs = Ok i → instances_ok i.
Proof.
  intros Hr (configured & Hc & [= <-])%res_bind_ok. split; [done|].
  apply (keyed_loop nID _ (λ c, ValidateConfiguration r c = Ok tt)) in Hc as (Hf & Hn & ->).
  - intros id c [Hin <-]%keyed_lookup; [|done]. rewrite Forall_forall in Hf. auto.
  - intros acc c acc'. rewrite guard_ok, is_some_false, check_ok. naive_solver.
Qed.

Lemma set_configuration_ok i c i' :
  instances_ok i → SetConfiguration i c = Ok i' →
  instances_ok i' ∧ registry i' = registry i ∧ configured i' = <[nID c := c]> (configured i).
Proof.
  intros [Hr Hc] [Hv [= <-]]%check_ok. split_and!; [|done..]. split; [done|]. by apply map_Forall_insert_2.
Qed.

Lemma remove_configuration_ok i id i' :
  instances_ok i → RemoveConfiguration i id = Ok i' →
  instances_ok i' ∧ registry i' = registry i ∧ configured i' = delete id (configured i).
Proof.
  intros [Hr Hc] H. unfold RemoveConfiguration in H. destruct (Get _ _); [|done]. injection H as <-.
  split_and!; [|done..]. split; [done|]. by apply map_Forall_delete.
Qed.

(** The configuration an instance shows: the explicit one, or the manifest's default. *)
Lemma get_instance_some i id n :
  registry_ok (registry i) → GetInstance i id = Some n →
  ∃ m, registry i !! id = Some m ∧ ID m = id ∧ manifest_ok m ∧ iManifest n = m ∧
       Desired (State n) = nDesired (default (defaultConfiguration m) (ConfigurationOf i id)) ∧
       iOwnership n = nOwnership (default (defaultConfiguration m) (ConfigurationOf i id)).
Proof.
  intros Hr (m & Hm & [= <-])%bind_Some. destruct (Hr _ _ Hm) as [Hid Hok]. exists m.
  unfold instanceForLocked, ConfigurationOf. rewrite Hid. done.
Qed.

Lemma get_instance_none i id : GetInstance i id = None ↔ registry i !! id = None.
Proof. unfold GetInstance, Get. destruct (registry i !! id); naive_solver. Qed.

End Capability.
