(* ===== verification/Lifecycle.v ===== *)
(** * The capability lifecycle engine

    [capability/lifecycle.go] and [capability/lifecycle_config.go]: the engine that runs the
    declared actions of a capability through its driver, retries them, and keeps the runtime
    state of every instance.  A driver is the environment: each attempt has an arbitrary
    answer, and the context may be cancelled before it and while waiting for the next one.
    An operation returns the engine it leaves, its result and error, and the calls it made
    on the driver with their answers.  The lock of a capability makes each operation on it
    one step; operations on different capabilities touch different entries
    ([run_elsewhere]).  Logging is left out. *)

From S2P Require Import Prelude Regex Manifest GoJSON Capability.

Module Lifecycle.
Import Manifest Capability.

(** ** Reports *)

Definition CheckStatus := string.
Definition CheckPass : CheckStatus := "pass".
Definition CheckFail : CheckStatus := "fail".
Definition CheckUnknown : CheckStatus := "unknown".

Record PreflightCheck := mkCheck { kID : string; kStatus : CheckStatus; Blocking : bool; kMessage : string }.
Definition PreflightReport := list PreflightCheck.

Definition Ready (r : PreflightReport) : bool :=
  negb (existsb (λ check, Blocking check && (kStatus check != CheckPass)) r).

Definition SignalStatus := string.
Definition SignalFresh : SignalStatus := "fresh".
Definition SignalMissing : SignalStatus := "missing".
Definition SignalStale : SignalStatus := "stale".
Definition SignalFailed : SignalStatus := "failed".

Record VerificationSignal := mkSignal { gID : string; gStatus : SignalStatus; gMessage : string }.
Definition VerificationReport := list VerificationSignal.

Record DriverRequest := mkRequest {
  qManifest : Manifest;
  qConfiguration : Configuration;
  qOwnership : OwnershipMode;
  qAction : LifecycleAction;
}.

Record StepResult := mkStep { sChanged : bool; sProcess : option ProcessState }.

(** ** Errors *)

(** A driver's error: [errors.Is] of a cancelled or expired context, and the answer of its
    [Retryable] method if it has one. *)
Inductive error :=
| UnknownCapability
| ErrActionNotDeclared
| ErrOwnershipAction
| ErrDesiredStateMismatch
| ErrDriverUnavailable
| ErrPreflightBlocked
| InvalidPreflight (what : string)
| InvalidVerification (what : string)
| UndeclaredSignal
| InvalidState (what : string)
| DesiredChanged
| InvalidConfiguration (what : string)
| DriverError (cancelled : bool) (retryable : option bool)
| ContextDone
| RetryExhausted.

Definition IsRetryable (err : error) : bool :=
  match err with
  | DriverError cancelled retryable => if cancelled then false else default false retryable
  | _ => false
  end.

Definition wrap {A} (f : string → error) (r : result string A) : result error A :=
  match r with Ok a => Ok a | Err e => Err (f e) end.

(** ** Retries *)

(** One attempt: whether the context is done before it, the answer, and whether the context
    is done while waiting for the next. *)
Record Try (T : Type) := mkTry { done_before : bool; answer : result error T; done_waiting : bool }.
Arguments mkTry {T}. Arguments done_before {T}. Arguments answer {T}. Arguments done_waiting {T}.

(** The result, the attempts reported and the answers received. *)
Fixpoint retry_loop {T} (remaining : nat) (attempt maxAttempts : Z) (tries : Z → Try T)
  : result error T * Z * list (result error T) :=
  match remaining with
  | O => (Err RetryExhausted, maxAttempts, [])
  | S remaining =>
      let try := tries attempt in
      if done_before try then (Err ContextDone, attempt - 1, [])
      else match answer try with
           | Ok value => (Ok value, attempt, [answer try])
           | Err err =>
               if negb (IsRetryable err) || (attempt =? maxAttempts) then (Err err, attempt, [answer try])
               else if done_waiting try then (Err ContextDone, attempt, [answer try])
               else let '(r, n, answers) := retry_loop remaining (attempt + 1) maxAttempts tries in (r, n, answer try :: answers)
           end
  end.
Definition retryCall {T} (maxAttempts : Z) (tries : Z → Try T) : result error T * Z * list (result error T) :=
  let maxAttempts := if maxAttempts <? 1 then 1 else maxAttempts in
  retry_loop (Z.to_nat maxAttempts) 1 maxAttempts tries.

(** ** The validation of reports *)

Definition validMessage (message : string) : result string unit :=
  guard? (240 <? slen message) || hasUnsafeText message else "message is invalid" in Ok tt.

Definition validatePreflightReport (report : PreflightReport) : result string unit :=
  check? each_once (λ c, validateID (kID c)) kID "duplicate preflight check"
    (λ c,
      guard? negb (member_of [CheckPass; CheckFail; CheckUnknown] (kStatus c)) else "unknown preflight status" in
      validMessage (kMessage c)) report in
  Ok tt.

Definition validateVerificationReport (report : VerificationReport) : result string unit :=
  check? each_once (λ s, validateID (gID s)) gID "duplicate verification signal"
    (λ s,
      guard? negb (member_of [SignalFresh; SignalMissing; SignalStale; SignalFailed] (gStatus s))
      else "unknown verification signal status" in
      validMessage (gMessage s)) report in
  Ok tt.

(** The map [observed], refusing a signal the manifest does not declare. *)
Definition observe (expected : list string) (report : VerificationReport) : result error (gmap string SignalStatus) :=
  for_each (λ observed signal,
    guard? negb (bool_decide (gID signal ∈ expected)) else UndeclaredSignal in
    Ok (<[gID signal := gStatus signal]> observed)) report ∅.

Definition weigh (observed : gmap string SignalStatus) (state : VerificationState) (id : string) : VerificationState :=
  match observed !! id with
  | None => if state == VerificationVerified then VerificationUnverified else state
  | Some status =>
      if status == SignalMissing then (if state == VerificationVerified then VerificationUnverified else state)
      else if status == SignalFailed then VerificationDegraded
      else if status == SignalStale then (if state != VerificationDegraded then VerificationStale else state)
      else state
  end.

Definition evaluateVerification (manifest : Manifest) (report : VerificationReport) : result error VerificationState :=
  let? observed := observe (VerificationSignals (Health manifest)) report in
  Ok (foldl (weigh observed) VerificationVerified (VerificationSignals (Health manifest))).

(** ** Which actions are possible *)

Definition hasLifecycleAction (manifest : Manifest) (action : LifecycleAction) : bool :=
  existsb (λ declared, declared == action) (Lifecycle manifest).

Definition ownershipAllowsAction (ownership : OwnershipMode) (action : LifecycleAction) : bool :=
  if ownership == OwnershipBuiltin then member_of [ActionPreflight; ActionEnable; ActionVerify; ActionDisable] action
  else if ownership == OwnershipExternal then
    member_of [ActionPreflight; ActionConnect; ActionEnable; ActionVerify; ActionDisable; ActionDisconnect] action
  else member_of [OwnershipManagedLocal; OwnershipManagedRemote] ownership.

Definition desiredAllowsAction (desired : DesiredState) (action : LifecycleAction) : bool :=
  if action == ActionPreflight then true
  else if member_of [ActionInstall; ActionConnect; ActionStart; ActionEnable; ActionVerify; ActionUpgrade] action
  then desired == DesiredEnabled
  else if member_of [ActionDisable; ActionStop; ActionDisconnect; ActionUninstall] action then desired == DesiredDisabled
  else false.

(** ** The engine *)

Record Engine := mkEngine {
  instances : Instances;
  drivers : gset string;
  states : gmap string InstanceState;
  maxAttempts : Z;
}.

Definition defaultLifecycleMaxAttempts : Z := 3.

(** [drivers] says of each driver whether it is not nil. *)
Definition NewLifecycleEngine (i : Instances) (drivers : list (string * bool)) : result error Engine :=
  let states := foldl (λ acc instance, <[ID (iManifest instance) := State instance]> acc) ∅ (ListInstances i) in
  let? registered := for_each (λ acc driver,
    guard? negb driver.2 else ErrDriverUnavailable in
    guard? negb (is_some (GetInstance i driver.1)) else UnknownCapability in
    Ok (acc ∪ {[driver.1]})) drivers ∅ in
  Ok (mkEngine i registered states defaultLifecycleMaxAttempts).

Definition ListStates (e : Engine) : list Instance_ :=
  map (λ n, match states e !! ID (iManifest n) with
            | Some state => mkInstance (iManifest n) (Configured n) (iOwnership n) state
            | None => n
            end) (ListInstances (instances e)).

Definition operationSnapshot (e : Engine) (id : string) : result error (Instance_ * Configuration) :=
  match GetInstance (instances e) id with
  | None => Err UnknownCapability
  | Some instance =>
      Ok (instance, default (defaultConfiguration (iManifest instance)) (ConfigurationOf (instances e) id))
  end.

Definition currentState (e : Engine) (id : string) (fallback : InstanceState) : InstanceState :=
  default fallback (states e !! id).

Definition with_states (e : Engine) (s : gmap string InstanceState) : Engine :=
  mkEngine (instances e) (drivers e) s (maxAttempts e).
Definition with_instances (e : Engine) (i : Instances) : Engine :=
  mkEngine i (drivers e) (states e) (maxAttempts e).

Definition setState (e : Engine) (id : string) (manifest : Manifest) (state : InstanceState) : result error Engine :=
  check? wrap InvalidState (validateState state manifest) in
  guard? match states e !! id with Some previous => Desired previous != Desired state | None => false end
  else DesiredChanged in
  Ok (with_states e (<[id := state]> (states e))).

(** ** Calls of the driver *)

Inductive Call :=
| PreflightCall (request : DriverRequest) (answer : result error PreflightReport)
| ExecuteCall (request : DriverRequest) (answer : result error StepResult)
| VerifyCall (request : DriverRequest) (answer : result error VerificationReport).

(** What the driver and the context do during one operation. *)
Record Answers := mkAnswers {
  preflights : Z → Try PreflightReport;
  executes : Z → Try StepResult;
  verifies : Z → Try VerificationReport;
}.

Definition callPreflight (e : Engine) (env : Answers) (request : DriverRequest)
  : result error PreflightReport * Z * list Call :=
  let '(r, attempts, answers) := retryCall (maxAttempts e) (preflights env) in
  let r := let? report := r in
           check? wrap InvalidPreflight (validatePreflightReport report) in
           Ok report in
  (r, attempts, map (PreflightCall request) answers).

Definition callExecute (e : Engine) (env : Answers) (request : DriverRequest)
  : result error StepResult * Z * list Call :=
  let '(r, attempts, answers) := retryCall (maxAttempts e) (executes env) in
  (r, attempts, map (ExecuteCall request) answers).

Definition callVerify (e : Engine) (env : Answers) (request : DriverRequest)
  : result error VerificationReport * Z * list Call :=
  let '(r, attempts, answers) := retryCall (maxAttempts e) (verifies env) in
  let r := let? report := r in
           check? wrap InvalidVerification (validateVerificationReport report) in
           Ok report in
  (r, attempts, map (VerifyCall request) answers).

Record LifecycleResult := mkResult {
  Action : LifecycleAction;
  Attempts : Z;
  PreflightAttempts : Z;
  Changed : bool;
  rState : InstanceState;
  Preflight : option PreflightReport;
  Verification_ : option VerificationReport;
}.

Definition zeroState : InstanceState := mkState "" "" "".

(** What an operation leaves: the engine, the result, the error and the calls. *)
Definition Outcome : Type := Engine * LifecycleResult * option error * list Call.

Definition run_preflight (e : Engine) (env : Answers) (request : DriverRequest) (state : InstanceState) : Outcome :=
  let '(r, attempts, calls) := callPreflight e env request in
  match r with
  | Err err => (e, mkResult (qAction request) attempts 0 false state None None, Some err, calls)
  | Ok report => (e, mkResult (qAction request) attempts 0 false state (Some report) None, None, calls)
  end.

Definition run_verify (e : Engine) (env : Answers) (id : string) (request : DriverRequest) (state : InstanceState) : Outcome :=
  let '(r, attempts, calls) := callVerify e env request in
  let failed err := (e, mkResult (qAction request) attempts 0 false state None None, Some err, calls) in
  match r with
  | Err err => failed err
  | Ok report =>
      match evaluateVerification (qManifest request) report with
      | Err err => failed err
      | Ok verification =>
          let next := mkState (Desired state) (Process state) verification in
          match setState e id (qManifest request) next with
          | Err err => failed err
          | Ok e' => (e', mkResult (qAction request) attempts 0 false next None (Some report), None, calls)
          end
      end
  end.

Definition run_execute (e : Engine) (env : Answers) (id : string) (request : DriverRequest) (state : InstanceState) : Outcome :=
  let '(r, pre, calls) := callPreflight e env request in
  match r with
  | Err err => (e, mkResult (qAction request) 0 pre false state None None, Some err, calls)
  | Ok report =>
      if negb (Ready report)
      then (e, mkResult (qAction request) 0 pre false state (Some report) None, Some ErrPreflightBlocked, calls)
      else
        let '(r, attempts, more) := callExecute e env request in
        let failed err := (e, mkResult (qAction request) attempts pre false state (Some report) None, Some err, calls ++ more) in
        match r with
        | Err err => failed err
        | Ok step =>
            let next := mkState (Desired state) (default (Process state) (sProcess step)) VerificationUnverified in
            match setState e id (qManifest request) next with
            | Err err => failed err
            | Ok e' => (e', mkResult (qAction request) attempts pre (sChanged step) next (Some report) None, None, calls ++ more)
            end
        end
  end.

Definition Run (e : Engine) (env : Answers) (id : string) (action : LifecycleAction) : Outcome :=
  match operationSnapshot e id with
  | Err err => (e, mkResult action 0 0 false zeroState None None, Some err, [])
  | Ok (instance, configuration) =>
      let state := currentState e id (State instance) in
      let refuse err := (e, mkResult action 0 0 false state None None, Some err, []) in
      if negb (hasLifecycleAction (iManifest instance) action) then refuse ErrActionNotDeclared
      else if negb (ownershipAllowsAction (iOwnership instance) action) then refuse ErrOwnershipAction
      else if negb (desiredAllowsAction (nDesired configuration) action) then refuse ErrDesiredStateMismatch
      else if negb (bool_decide (id ∈ drivers e)) then refuse ErrDriverUnavailable
      else
        let request := mkRequest (iManifest instance) configuration (iOwnership instance) action in
        if action == ActionPreflight then run_preflight e env request state
        else if action == ActionVerify then run_verify e env id request state
        else run_execute e env id request state
  end.

(** ** Configuration changes *)

Definition PreflightConfiguration (e : Engine) (env : Answers) (configuration : Configuration) (action : LifecycleAction)
  : PreflightReport * option error * list Call :=
  match ValidateConfiguration (registry (instances e)) configuration with
  | Err what => ([], Some (InvalidConfiguration what), [])
  | Ok _ =>
      match GetInstance (instances e) (nID configuration) with
      | None => ([], Some UnknownCapability, [])
      | Some instance =>
          if negb (hasLifecycleAction (iManifest instance) action) then ([], Some ErrActionNotDeclared, [])
          else if negb (ownershipAllowsAction (nOwnership configuration) action) then ([], Some ErrOwnershipAction, [])
          else if negb (desiredAllowsAction (nDesired configuration) action) then ([], Some ErrDesiredStateMismatch, [])
          else if negb (bool_decide (nID configuration ∈ drivers e)) then ([], Some ErrDriverUnavailable, [])
          else
            let request := mkRequest (iManifest instance) configuration (nOwnership configuration) action in
            let '(r, _, calls) := callPreflight e env request in
            match r with
            | Err err => ([], Some err, calls)
            | Ok report => (report, if Ready report then None else Some ErrPreflightBlocked, calls)
            end
      end
  end.

Definition ApplyConfiguration (e : Engine) (configuration : Configuration) : Engine * option error :=
  match ValidateConfiguration (registry (instances e)) configuration with
  | Err what => (e, Some (InvalidConfiguration what))
  | Ok _ =>
      match GetInstance (instances e) (nID configuration) with
      | None => (e, Some UnknownCapability)
      | Some instance =>
          let previous := currentState e (nID configuration) (State instance) in
          match SetConfiguration (instances e) configuration with
          | Err what => (e, Some (InvalidConfiguration what))
          | Ok i =>
              let e := with_instances e i in
              let next := mkState (nDesired configuration) (Process previous)
                            (if Desired previous != nDesired configuration then VerificationUnverified
                             else Verification previous) in
              match validateState next (iManifest instance) with
              | Err what => (e, Some (InvalidState what))
              | Ok _ => (with_states e (<[nID configuration := next]> (states e)), None)
              end
          end
      end
  end.

Definition RemoveConfiguration (e : Engine) (id : string) : Engine * option error :=
  match GetInstance (instances e) id with
  | None => (e, Some UnknownCapability)
  | Some instance =>
      match Capability.RemoveConfiguration (instances e) id with
      | Err what => (e, Some UnknownCapability)
      | Ok i =>
          let e := with_instances e i in
          let previous := currentState e id (State instance) in
          let next := mkState DesiredDisabled (Process previous) VerificationUnverified in
          match validateState next (iManifest instance) with
          | Err what => (e, Some (InvalidState what))
          | Ok _ => (with_states e (<[id := next]> (states e)), None)
          end
      end
  end.

(** ** Retries are bounded, and counted *)

Definition again {T} (a : result error T) : Prop := ∃ err, a = Err err ∧ IsRetryable err = true.

(** The attempts reported are the answers received, at most the limit; every answer but the
    last is a retryable error, and the result is the last answer unless the context ended. *)
Definition retried {T} (limit : Z) (r : result error T) (n : Z) (answers : list (result error T)) : Prop :=
  n = llen answers ∧ n <= limit ∧
  ((∃ more, answers = more ++ [r] ∧ Forall again more) ∨ r = Err ContextDone ∧ Forall again answers).

Lemma retry_loop_spec {T} remaining attempt limit (tries : Z → Try T) r n answers :
  1 <= attempt → attempt + Z.of_nat remaining = limit + 1 → (0 < remaining)%nat →
  retry_loop remaining attempt limit tries = (r, n, answers) →
  n = attempt - 1 + llen answers ∧ n <= limit ∧
  ((∃ more, answers = more ++ [r] ∧ Forall again more) ∨ r = Err ContextDone ∧ Forall again answers).
Proof.
  revert attempt r n answers. induction remaining as [|k IH]; intros attempt r n answers Ha Hl Hk H; [lia|]. cbn [retry_loop] in H.
  destruct (done_before (tries attempt)).
  { injection H as <- <- <-. split_and!; [unfold llen; simpl; lia|lia|]. by right. }
  destruct (answer (tries attempt)) as [v|err] eqn:E.
  { injection H as <- <- <-. split_and!; [unfold llen; simpl; lia|lia|]. left. by exists []. }
  destruct (negb (IsRetryable err) || (attempt =? limit)) eqn:Eg.
  { injection H as <- <- <-. split_and!; [unfold llen; simpl; lia|lia|]. left. by exists []. }
  apply orb_false_iff in Eg as [Hr%negb_false_iff Hlim%Z.eqb_neq].
  destruct (done_waiting (tries attempt)).
  { injection H as <- <- <-. split_and!; [unfold llen; simpl; lia|lia|]. right. split; [done|]. repeat constructor. exists err. eauto. }
  destruct (retry_loop k (attempt + 1) limit tries) as [[r' n'] answers'] eqn:Er. injection H as <- <- <-.
  apply IH in Er as (-> & Hle & Hlast); [|lia..]. split_and!; [unfold llen; simpl; lia|lia|].
  destruct Hlast as [(more & -> & Hm)|[-> Hm]].
  - left. exists (Err err :: more). split; [done|]. constructor; [exists err|]; eauto.
  - right. split; [done|]. constructor; [exists err|]; eauto.
Qed.

Lemma retry_call_spec {T} limit (tries : Z → Try T) r n answers :
  retryCall limit tries = (r, n, answers) → retried (Z.max 1 limit) r n answers.
Proof.
  unfold retryCall. assert ((if limit <? 1 then 1 else limit) = Z.max 1 limit) as -> by (destruct (Z.ltb_spec limit 1); lia).
  intros H. apply retry_loop_spec in H as (-> & Hle & Hlast); [|lia..]. split_and!; [lia|lia|done].
Qed.

(** ** The verdict of a verification *)

Definition has_status (observed : gmap string SignalStatus) (s : SignalStatus) (id : string) : bool :=
  bool_decide (observed !! id = Some s).
Definition accounted (observed : gmap string SignalStatus) (id : string) : bool :=
  match observed !! id with Some s => s != SignalMissing | None => false end.

Definition verdict (observed : gmap string SignalStatus) (ids : list string) : VerificationState :=
  if existsb (has_status observed SignalFailed) ids then VerificationDegraded
  else if existsb (has_status observed SignalStale) ids then VerificationStale
  else if forallb (accounted observed) ids then VerificationVerified
  else VerificationUnverified.

Lemma weigh_verdict observed ids : foldl (weigh observed) VerificationVerified ids = verdict observed ids.
Proof.
  induction ids as [|id ids IH] using rev_ind; [done|]. rewrite foldl_snoc, IH. unfold verdict.
  rewrite !existsb_app, forallb_app. cbn [existsb forallb]. rewrite !orb_false_r, andb_true_r.
  generalize (existsb (has_status observed SignalFailed) ids) as failed, (existsb (has_status observed SignalStale) ids) as stale,
    (forallb (accounted observed) ids) as all.
  unfold weigh, has_status, accounted. intros failed stale all. destruct (observed !! id) as [s|].
  - destruct (decide (s = SignalFailed)) as [->|H1]; [by destruct failed, stale, all|].
    destruct (decide (s = SignalStale)) as [->|H2]; [by destruct failed, stale, all|].
    destruct (decide (s = SignalMissing)) as [->|H3]; [by destruct failed, stale, all|].
    rewrite !(bool_decide_eq_false_2 (s = _)), !(bool_decide_eq_false_2 (Some s = _)) by congruence. by destruct failed, stale, all.
  - by destruct failed, stale, all.
Qed.

Lemma observe_ok expected report observed :
  NoDup (map gID report) → observe expected report = Ok observed ↔
  Forall (λ g, gID g ∈ expected) report ∧ observed = gStatus <$> keyed gID report.
Proof.
  intros Hn. unfold observe. revert observed. induction report as [|g report IH] using rev_ind; intros observed.
  { split; [intros [= <-]|by intros [_ ->]]. split; [constructor|done]. }
  rewrite map_app in Hn. apply NoDup_app in Hn as (Hn & Hd & _).
  rewrite for_each_app, res_bind_ok, Forall_app, Forall_singleton. setoid_rewrite (IH Hn). cbn [for_each].
  assert (Hk : gID g ∉ map gID report) by (intros Hin; by apply (Hd _ Hin), list_elem_of_singleton).
  rewrite keyed_snoc, fmap_insert by done. split.
  - intros (? & [Hf ->] & (? & [Hg%negb_false_iff%bool_decide_eq_true [= <-]]%guard_ok & [= <-])%res_bind_ok). done.
  - intros ((Hf & Hg) & ->). eexists. split; [done|]. apply res_bind_ok. eexists. split; [|done].
    rewrite bool_decide_eq_true_2 by done. done.
Qed.

Lemma valid_verification report :
  validateVerificationReport report = Ok tt →
  NoDup (map gID report) ∧ Forall (λ g, gStatus g ∈ [SignalFresh; SignalMissing; SignalStale; SignalFailed]) report.
Proof.
  unfold validateVerificationReport. rewrite each_once_some. intros [Hf Hn]. split; [done|].
  eapply Forall_impl; [exact Hf|]. intros g [_ [Hs _]%guard_ok]. by apply negb_false_iff, is_member in Hs.
Qed.

(** [report] says of the signal [id] that it is [s]. *)
Definition says (report : VerificationReport) (id : string) (s : SignalStatus) : Prop :=
  ∃ g, g ∈ report ∧ gID g = id ∧ gStatus g = s.

Lemma says_lookup report id s :
  NoDup (map gID report) → (gStatus <$> keyed gID report) !! id = Some s ↔ says report id s.
Proof. intros Hn. rewrite lookup_fmap_Some. setoid_rewrite keyed_lookup; [|done]. unfold says. naive_solver. Qed.

(** What a report with the declared signals amounts to. *)
Inductive amounts (declared : list string) (report : VerificationReport) : VerificationState → Prop :=
| amounts_degraded id : says report id SignalFailed → amounts declared report VerificationDegraded
| amounts_stale id :
    (∀ id, ¬ says report id SignalFailed) → says report id SignalStale → amounts declared report VerificationStale
| amounts_unverified id :
    (∀ id, ¬ says report id SignalFailed) → (∀ id, ¬ says report id SignalStale) →
    id ∈ declared → ¬ says report id SignalFresh → amounts declared report VerificationUnverified
| amounts_verified :
    (∀ id, ¬ says report id SignalFailed) → (∀ id, ¬ says report id SignalStale) →
    (∀ id, id ∈ declared → says report id SignalFresh) → amounts declared report VerificationVerified.

Lemma amounts_unique declared report v w : amounts declared report v → amounts declared report w → v = w.
Proof. intros [] []; naive_solver. Qed.

Section verdict.
Context (declared : list string) (report : VerificationReport).
Context (Hvalid : validateVerificationReport report = Ok tt).
Context (Hdeclared : Forall (λ g, gID g ∈ declared) report).

Notation observed := (gStatus <$> keyed gID report).

Lemma some_status s : existsb (has_status observed s) declared = true ↔ ∃ id, says report id s.
Proof.
  destruct (valid_verification _ Hvalid) as [Hn _]. rewrite existsb_true_iff, Exists_exists. unfold has_status.
  setoid_rewrite bool_decide_eq_true. setoid_rewrite says_lookup; [|done]. split; [naive_solver|].
  intros (id & g & Hg & <- & Hs). rewrite Forall_forall in Hdeclared. exists (gID g). split; [by apply Hdeclared|]. by exists g.
Qed.

Lemma none_status s : existsb (has_status observed s) declared = false ↔ ∀ id, ¬ says report id s.
Proof. rewrite <- not_true_iff_false, some_status. naive_solver. Qed.

Lemma accounted_fresh id :
  (∀ id, ¬ says report id SignalFailed) → (∀ id, ¬ says report id SignalStale) →
  accounted observed id = true ↔ says report id SignalFresh.
Proof.
  destruct (valid_verification _ Hvalid) as [Hn Hs]. intros Hf Ht. unfold accounted.
  destruct (observed !! id) as [s|] eqn:E.
  - apply says_lookup in E as (g & Hg & <- & <-); [|done]. rewrite Forall_forall in Hs. specialize (Hs _ Hg).
    rewrite !elem_of_cons, elem_of_nil in Hs. rewrite negb_true_iff, bool_decide_eq_false. split.
    + intros Hm. exists g. specialize (Hf (gID g)). specialize (Ht (gID g)). unfold says in Hf, Ht. naive_solver.
    + intros Hfresh Hm. apply says_lookup in Hfresh; [|done].
      assert (Hmiss : observed !! gID g = Some SignalMissing) by (apply says_lookup; [done|by exists g]).
      rewrite Hfresh in Hmiss. discriminate Hmiss.
  - split; [done|]. intros Hfresh. apply says_lookup in Hfresh; [|done]. congruence.
Qed.

Lemma verdict_amounts : amounts declared report (verdict observed declared).
Proof.
  unfold verdict. destruct (existsb (has_status observed SignalFailed) declared) eqn:Ef.
  { apply some_status in Ef as [id Hid]. by eapply amounts_degraded. }
  destruct (existsb (has_status observed SignalStale) declared) eqn:Es.
  { apply some_status in Es as [id Hid]. eapply amounts_stale; [by apply none_status|done]. }
  rewrite none_status in Ef, Es. destruct (forallb (accounted observed) declared) eqn:Ea.
  - apply amounts_verified; [done..|]. intros id Hid. apply accounted_fresh; [done..|].
    rewrite forallb_true_iff, Forall_forall in Ea. auto.
  - apply not_true_iff_false in Ea. rewrite forallb_true_iff in Ea. apply not_Forall_Exists in Ea; [|solve_decision].
    apply Exists_exists in Ea as (id & Hid & Ha). eapply (amounts_unverified _ _ id); [done..|].
    intros Hfresh. apply Ha. by apply accounted_fresh.
Qed.
End verdict.

Lemma evaluate_iff m report v :
  validateVerificationReport report = Ok tt →
  evaluateVerification m report = Ok v ↔
  Forall (λ g, gID g ∈ VerificationSignals (Health m)) report ∧ amounts (VerificationSignals (Health m)) report v.
Proof.
  intros Hv. destruct (valid_verification _ Hv) as [Hn _]. unfold evaluateVerification. rewrite res_bind_ok.
  setoid_rewrite observe_ok; [|done]. setoid_rewrite weigh_verdict. split.
  - intros (? & [Hd ->] & [= <-]). split; [done|]. by apply verdict_amounts.
  - intros [Hd Ha]. eexists. split; [done|]. f_equal. eapply amounts_unique; [by apply verdict_amounts|done].
Qed.

(** On a well-formed report, [evaluateVerification] refuses a signal the manifest does not
    declare, and otherwise gives the worst of what is reported whatever the order: degraded
    if any signal failed, else stale if any is stale, else verified only if every declared
    signal is fresh, and unverified when one is missing or not reported. *)
Theorem evaluate_verification_spec m report v :
  validateVerificationReport report = Ok tt →
  evaluateVerification m report = Ok v ↔
  Forall (λ g, gID g ∈ VerificationSignals (Health m)) report ∧ amounts (VerificationSignals (Health m)) report v.
Proof. apply evaluate_iff. Qed.

Definition stale_report : VerificationReport :=
  [mkSignal "observation-freshness" "stale" "no observation for an hour"; mkSignal "storage-health" "fresh" ""].

Lemma evaluate_verification_spec_witness :
  evaluateVerification device_watch stale_report = Ok VerificationStale ∧
  amounts (VerificationSignals (Health device_watch)) stale_report VerificationStale.
Proof.
  assert (H : evaluateVerification device_watch stale_report = Ok VerificationStale) by (vm_compute; reflexivity).
  split; [exact H|]. apply (evaluate_verification_spec device_watch stale_report VerificationStale); [vm_compute; reflexivity|exact H].
Defined.

(** ** Calls of the driver *)

Definition limit (e : Engine) : Z := Z.max 1 (maxAttempts e).

Lemma wrap_ok {A} f (r : result string A) a : wrap f r = Ok a ↔ r = Ok a.
Proof. destruct r; naive_solver. Qed.

Lemma preflight_calls e env request r n calls :
  callPreflight e env request = (r, n, calls) →
  n = llen calls ∧ n <= limit e ∧ Forall (λ c, ∃ a, c = PreflightCall request a) calls ∧
  ∀ report, r = Ok report → validatePreflightReport report = Ok tt ∧ ∃ more, calls = more ++ [PreflightCall request (Ok report)].
Proof.
  unfold callPreflight. destruct (retryCall _ _) as [[r0 n0] answers] eqn:E. apply retry_call_spec in E as (-> & Hle & Hlast).
  intros [= <- <- <-]. split_and!; [by unfold llen; rewrite length_map|done|apply Forall_map, Forall_true; eauto|].
  intros report (v & -> & [Hv [= ->]]%check_ok)%res_bind_ok. rewrite wrap_ok in Hv. split; [done|].
  destruct Hlast as [(more & -> & _)|[? _]]; [|done]. rewrite map_app. by eexists.
Qed.

Lemma execute_calls e env request r n calls :
  callExecute e env request = (r, n, calls) →
  n = llen calls ∧ n <= limit e ∧ Forall (λ c, ∃ a, c = ExecuteCall request a) calls ∧
  ∀ step, r = Ok step → ∃ more, calls = more ++ [ExecuteCall request (Ok step)].
Proof.
  unfold callExecute. destruct (retryCall _ _) as [[r0 n0] answers] eqn:E. apply retry_call_spec in E as (-> & Hle & Hlast).
  intros [= <- <- <-]. split_and!; [by unfold llen; rewrite length_map|done|apply Forall_map, Forall_true; eauto|].
  intros step ->. destruct Hlast as [(more & -> & _)|[? _]]; [|done]. rewrite map_app. by eexists.
Qed.

Lemma verify_calls e env request r n calls :
  callVerify e env request = (r, n, calls) →
  n = llen calls ∧ n <= limit e ∧ Forall (λ c, ∃ a, c = VerifyCall request a) calls ∧
  ∀ report, r = Ok report → validateVerificationReport report = Ok tt ∧ ∃ more, calls = more ++ [VerifyCall request (Ok report)].
Proof.
  unfold callVerify. destruct (retryCall _ _) as [[r0 n0] answers] eqn:E. apply retry_call_spec in E as (-> & Hle & Hlast).
  intros [= <- <- <-]. split_and!; [by unfold llen; rewrite length_map|done|apply Forall_map, Forall_true; eauto|].
  intros report (v & -> & [Hv [= ->]]%check_ok)%res_bind_ok. rewrite wrap_ok in Hv. split; [done|].
  destruct Hlast as [(more & -> & _)|[? _]]; [|done]. rewrite map_app. by eexists.
Qed.

Lemma set_state_ok e id m state e' :
  setState e id m state = Ok e' →
  validateState state m = Ok tt ∧ e' = with_states e (<[id := state]> (states e)) ∧
  (∀ previous, states e !! id = Some previous → Desired previous = Desired state).
Proof.
  unfold setState. intros [Hv [Hg [= <-]]%guard_ok]%check_ok. apply wrap_ok in Hv. split_and!; [done..|].
  intros previous Hp. rewrite Hp in Hg. by apply negb_false_iff, bool_decide_eq_true in Hg.
Qed.

(** What the engine checks before it calls the driver. *)
Record permitted (e : Engine) (id : string) (action : LifecycleAction) (request : DriverRequest) : Prop := {
  permitted_instance : ∃ n, operationSnapshot e id = Ok (n, qConfiguration request) ∧
                            qManifest request = iManifest n ∧ qOwnership request = iOwnership n;
  permitted_declared : action ∈ Lifecycle (qManifest request);
  permitted_ownership : ownershipAllowsAction (qOwnership request) action = true;
  permitted_desired : desiredAllowsAction (nDesired (qConfiguration request)) action = true;
  permitted_driver : id ∈ drivers e;
  permitted_action : qAction request = action;
}.

Lemma declared_action m action : hasLifecycleAction m action = true ↔ action ∈ Lifecycle m.
Proof. unfold hasLifecycleAction. rewrite existsb_true_iff, Exists_exists. setoid_rewrite bool_decide_eq_true. naive_solver. Qed.

Lemma run_cases e env id action :
  (∃ res err, Run e env id action = (e, res, Some err, []) ∧ Attempts res = 0 ∧ PreflightAttempts res = 0) ∨
  ∃ request n, permitted e id action request ∧ operationSnapshot e id = Ok (n, qConfiguration request) ∧
    Run e env id action =
      let state := currentState e id (State n) in
      if action == ActionPreflight then run_preflight e env request state
      else if action == ActionVerify then run_verify e env id request state
      else run_execute e env id request state.
Proof.
  unfold Run. destruct (operationSnapshot e id) as [[n c]|err] eqn:Es; [|left; by do 2 eexists].
  destruct (hasLifecycleAction (iManifest n) action) eqn:E1; [|left; by do 2 eexists].
  destruct (ownershipAllowsAction (iOwnership n) action) eqn:E2; [|left; by do 2 eexists].
  destruct (desiredAllowsAction (nDesired c) action) eqn:E3; [|left; by do 2 eexists].
  destruct (bool_decide (id ∈ drivers e)) eqn:E4; [|left; by do 2 eexists].
  right. exists (mkRequest (iManifest n) c (iOwnership n) action), n. split_and!; [|done..].
  apply declared_action in E1. apply bool_decide_eq_true in E4. constructor; eauto.
Qed.

(** ** What an operation does *)

Definition is_preflight (q : DriverRequest) (c : Call) : Prop := ∃ a, c = PreflightCall q a.
Definition is_execute (q : DriverRequest) (c : Call) : Prop := ∃ a, c = ExecuteCall q a.
Definition is_verify (q : DriverRequest) (c : Call) : Prop := ∃ a, c = VerifyCall q a.

(** The calls: either no execution, or preflights that end in a well-formed report without a
    blocking failure, and then executions. *)
Definition gated (q : DriverRequest) (calls : list Call) : Prop :=
  Forall (λ c, is_preflight q c ∨ is_verify q c) calls ∨
  ∃ pre report more, calls = pre ++ PreflightCall q (Ok report) :: more ∧
    Forall (is_preflight q) pre ∧ Forall (is_execute q) more ∧
    validatePreflightReport report = Ok tt ∧ Ready report = true.

(** The state an operation leaves for its capability. *)
Definition effect (q : DriverRequest) (state next : InstanceState) (calls : list Call) : Prop :=
  Desired next = Desired state ∧ validateState next (qManifest q) = Ok tt ∧
  if qAction q == ActionVerify then
    Process next = Process state ∧
    ∃ report, (∃ more, calls = more ++ [VerifyCall q (Ok report)]) ∧
      evaluateVerification (qManifest q) report = Ok (Verification next)
  else
    Verification next = VerificationUnverified ∧
    ∃ step, (∃ more, calls = more ++ [ExecuteCall q (Ok step)]) ∧ Process next = default (Process state) (sProcess step).

Definition settled (e : Engine) (id : string) (q : DriverRequest) (state : InstanceState) (o : Outcome) : Prop :=
  let '(e', res, err, calls) := o in
  gated q calls ∧
  Attempts res + PreflightAttempts res = llen calls ∧ 0 <= Attempts res <= limit e ∧ 0 <= PreflightAttempts res <= limit e ∧
  match err with
  | Some _ => e' = e
  | None =>
      if qAction q == ActionPreflight then e' = e
      else e' = with_states e (<[id := rState res]> (states e)) ∧ effect q state (rState res) calls
  end.

Lemma limit_pos e : 1 <= limit e.
Proof. unfold limit. lia. Qed.
Lemma llen_nonneg {A} (l : list A) : 0 <= llen l.
Proof. unfold llen. lia. Qed.
Hint Resolve limit_pos llen_nonneg : cozy.

Lemma only_preflights q calls : Forall (λ c, ∃ a, c = PreflightCall q a) calls → gated q calls.
Proof. intros H. left. eapply Forall_impl; [exact H|]. intros c Hc. by left. Qed.
Lemma only_verifies q calls : Forall (λ c, ∃ a, c = VerifyCall q a) calls → gated q calls.
Proof. intros H. left. eapply Forall_impl; [exact H|]. intros c Hc. by right. Qed.

Lemma preflight_settled e env id q state :
  qAction q = ActionPreflight → settled e id q state (run_preflight e env q state).
Proof.
  intros Ha. unfold run_preflight. destruct (callPreflight e env q) as [[r n] calls] eqn:E.
  apply preflight_calls in E as (-> & Hle & Hc & _). pose proof (limit_pos e). pose proof (llen_nonneg calls).
  destruct r as [report|err]; unfold settled; cbn [Attempts PreflightAttempts]; rewrite ?Ha, ?bool_decide_eq_true_2 by done;
    (split_and!; [by apply only_preflights|lia..|done]).
Qed.

Lemma verify_settled e env id q state :
  qAction q = ActionVerify → settled e id q state (run_verify e env id q state).
Proof.
  intros Ha. unfold run_verify. destruct (callVerify e env q) as [[r n] calls] eqn:E.
  apply verify_calls in E as (-> & Hle & Hc & Hr). pose proof (limit_pos e). pose proof (llen_nonneg calls).
  assert (Hfail : ∀ err, settled e id q state (e, mkResult (qAction q) (llen calls) 0 false state None None, Some err, calls)).
  { intros err. split_and!; [by apply only_verifies|simpl; lia..|done]. }
  destruct r as [report|err]; [|apply Hfail]. destruct (Hr report eq_refl) as [Hv Hlast].
  destruct (evaluateVerification (qManifest q) report) as [v|err] eqn:Ev; [|apply Hfail].
  destruct (setState _ _ _ _) as [e'|err] eqn:Es; [|apply Hfail]. apply set_state_ok in Es as (Hs & -> & _).
  split_and!; [by apply only_verifies|simpl; lia..|]. rewrite Ha. split; [done|].
  unfold effect. rewrite Ha, (bool_decide_eq_true_2 (ActionVerify = ActionVerify)) by done. eauto 10.
Qed.

Lemma execute_settled e env id q state :
  qAction q ≠ ActionPreflight → qAction q ≠ ActionVerify → settled e id q state (run_execute e env id q state).
Proof.
  intros Hp Hv. unfold run_execute. destruct (callPreflight e env q) as [[r n] calls] eqn:E.
  apply preflight_calls in E as (-> & Hle & Hc & Hr). pose proof (limit_pos e). pose proof (llen_nonneg calls).
  destruct r as [report|err]; [|by split_and!; [by apply only_preflights|simpl; lia..|]].
  destruct (Hr report eq_refl) as [Hvalid [pre Hpre]]. destruct (Ready report) eqn:Er; simpl negb; cbv iota;
    [|by split_and!; [by apply only_preflights|simpl; lia..|]].
  destruct (callExecute e env q) as [[r n] more] eqn:E. apply execute_calls in E as (-> & Hle' & Hm & Hr').
  pose proof (llen_nonneg more).
  assert (Hg : gated q (calls ++ more)).
  { right. exists pre, report, more. rewrite Hpre, <- app_assoc. split_and!; try done.
    rewrite Hpre in Hc. by apply Forall_app in Hc as [? _]. }
  assert (Hl : llen more + llen calls = llen (calls ++ more)) by (unfold llen; rewrite length_app; lia).
  assert (Hfail : ∀ err, settled e id q state
    (e, mkResult (qAction q) (llen more) (llen calls) false state (Some report) None, Some err, calls ++ more)).
  { intros err. by split_and!; [|simpl; lia..|]. }
  destruct r as [step|err]; [|apply Hfail]. destruct (Hr' step eq_refl) as [more' ->].
  destruct (setState _ _ _ _) as [e'|err] eqn:Es; [|apply Hfail]. apply set_state_ok in Es as (Hs & -> & _).
  split_and!; [done|simpl; lia..|]. rewrite bool_decide_eq_false_2 by done. split; [done|].
  unfold effect. rewrite bool_decide_eq_false_2 by done. split_and!; [done..|]. exists step. split; [|done].
  exists (calls ++ more'). by rewrite app_assoc.
Qed.

Lemma run_settled e env id action :
  (∃ res err, Run e env id action = (e, res, Some err, []) ∧ Attempts res = 0 ∧ PreflightAttempts res = 0) ∨
  ∃ request n, permitted e id action request ∧ operationSnapshot e id = Ok (n, qConfiguration request) ∧
    settled e id request (currentState e id (State n)) (Run e env id action).
Proof.
  destruct (run_cases e env id action) as [H|(request & n & Hp & Hn & Hrun)]; [by left|]. right. exists request, n.
  split_and!; [done..|]. rewrite Hrun. pose proof (permitted_action _ _ _ _ Hp) as Ha. cbv zeta.
  case_bool_decide; [apply preflight_settled; congruence|].
  case_bool_decide; [apply verify_settled; congruence|apply execute_settled; congruence].
Qed.

Lemma execute_gated e env id action e' res err calls q a :
  Run e env id action = (e', res, err, calls) → ExecuteCall q a ∈ calls →
  permitted e id action q ∧
  ∃ pre report more, calls = pre ++ PreflightCall q (Ok report) :: more ∧ Forall (is_preflight q) pre ∧
    Forall (is_execute q) more ∧ validatePreflightReport report = Ok tt ∧ Ready report = true.
Proof.
  intros Hrun Hin. destruct (run_settled e env id action) as [(? & ? & H & _)|(request & n & Hp & _ & Hs)].
  { rewrite Hrun in H. injection H as -> -> -> ->. by apply not_elem_of_nil in Hin. }
  rewrite Hrun in Hs. destruct Hs as [[Hall|(pre & report & more & -> & Hpre & Hmore & Hrest)] _].
  { rewrite Forall_forall in Hall. by destruct (Hall _ Hin) as [[? ?]|[? ?]]. }
  assert (q = request) as ->.
  { apply elem_of_app in Hin as [Hin|[?|Hin]%elem_of_cons]; [|done|].
    - rewrite Forall_forall in Hpre. by destruct (Hpre _ Hin).
    - rewrite Forall_forall in Hmore. destruct (Hmore _ Hin). by simplify_eq. }
  split; [done|]. eauto 10.
Qed.

(** What a driver may execute for a capability, by its ownership and by its desired state. *)
Definition executable (ownership : OwnershipMode) (action : LifecycleAction) : Prop :=
  ownership = "builtin" ∧ action ∈ ["enable"; "disable"] ∨
  ownership = "external" ∧ action ∈ ["connect"; "enable"; "disable"; "disconnect"] ∨
  ownership = "managed-local" ∨ ownership = "managed-remote".
Definition intended (desired : DesiredState) (action : LifecycleAction) : Prop :=
  desired = "enabled" ∧ action ∈ ["install"; "connect"; "start"; "enable"; "upgrade"] ∨
  desired = "disabled" ∧ action ∈ ["disable"; "stop"; "disconnect"; "uninstall"].

(** The request that the driver is handed, and why. *)
Record granted (e : Engine) (id : string) (action : LifecycleAction) (q : DriverRequest) : Prop := {
  granted_manifest : registry (instances e) !! id = Some (qManifest q);
  granted_configuration : qConfiguration q = default (defaultConfiguration (qManifest q)) (configured (instances e) !! id);
  granted_action : qAction q = action;
  granted_declared : action ∈ Lifecycle (qManifest q);
  granted_ownership : executable (qOwnership q) action;
  granted_desired : intended (nDesired (qConfiguration q)) action;
  granted_driver : id ∈ drivers e;
}.

(** Every blocking check of a report passed. *)
Definition passes (report : PreflightReport) : Prop := ∀ c, c ∈ report → Blocking c = true → kStatus c = "pass".

Lemma ready_passes report : Ready report = true ↔ passes report.
Proof.
  unfold Ready, passes. rewrite negb_true_iff, <- not_true_iff_false, existsb_true_iff, Exists_exists. split.
  - intros H c Hc Hb. destruct (decide (kStatus c = "pass")) as [|Hn]; [done|]. exfalso. apply H. exists c. split; [done|].
    rewrite Hb. simpl. by apply negb_true_iff, bool_decide_eq_false_2.
  - intros H (c & Hc & [Hb Hs]%andb_true_iff). apply negb_true_iff, bool_decide_eq_false in Hs. by apply Hs, H.
Qed.

(** Only actions other than preflight and verify are executed. *)
Lemma executed_action e env id action e' res err calls q a :
  Run e env id action = (e', res, err, calls) → ExecuteCall q a ∈ calls → action ≠ ActionPreflight ∧ action ≠ ActionVerify.
Proof.
  intros Hrun Hin. destruct (run_cases e env id action) as [(? & ? & H & _)|(request & n & _ & _ & H)]; rewrite Hrun in H.
  { injection H as -> -> -> ->. by apply not_elem_of_nil in Hin. }
  assert (Hno : ∀ P, (∀ q a, ¬ P (ExecuteCall q a)) → Forall P calls → False) by (intros P HP HF; rewrite Forall_forall in HF; by eapply HP, HF).
  cbv zeta in H. case_bool_decide as Hp; [|case_bool_decide as Hv]; [exfalso..|done].
  - unfold run_preflight in H. destruct (callPreflight e env request) as [[r k] cs] eqn:E. apply preflight_calls in E as (_ & _ & Hc & _).
    assert (calls = cs) as -> by (destruct r; by injection H).
    apply (Hno (λ c, ∃ a, c = PreflightCall request a)); [by intros ? ? [? ?]|done].
  - unfold run_verify in H. destruct (callVerify e env request) as [[r k] cs] eqn:E. apply verify_calls in E as (_ & _ & Hc & _).
    assert (calls = cs) as -> by (destruct r; repeat case_match; by injection H).
    apply (Hno (λ c, ∃ a, c = VerifyCall request a)); [by intros ? ? [? ?]|done].
Qed.

Lemma permitted_granted e id action q :
  permitted e id action q → action ≠ ActionPreflight → action ≠ ActionVerify → granted e id action q.
Proof.
  intros [(n & Hs & Hm & Ho) Hdec How Hdes Hdr Hact] Hp Hv. unfold operationSnapshot in Hs.
  destruct (GetInstance _ _) as [n'|] eqn:E; [|done]. injection Hs as -> Hc. apply bind_Some in E as (m & Em & [= <-]). simpl in Hm.
  constructor; try done; [by rewrite Hm|by rewrite <- Hc, Hm| |].
  - unfold ownershipAllowsAction in How. unfold executable. destruct (decide (qOwnership q = OwnershipBuiltin)) as [E1|E1]; [left; split; [done|]|right].
    + rewrite (bool_decide_eq_true_2 _ E1), is_member, !elem_of_cons in How. set_solver.
    + rewrite (bool_decide_eq_false_2 _ E1) in How. destruct (decide (qOwnership q = OwnershipExternal)) as [E2|E2]; [left; split; [done|]|right].
      * rewrite (bool_decide_eq_true_2 _ E2), is_member, !elem_of_cons in How. set_solver.
      * rewrite (bool_decide_eq_false_2 _ E2), is_member, !elem_of_cons, elem_of_nil in How. naive_solver.
  - unfold desiredAllowsAction in Hdes. rewrite (bool_decide_eq_false_2 _ Hp) in Hdes. unfold intended.
    destruct (member_of [ActionInstall; _; _; _; _; _] action) eqn:E1.
    { left. apply bool_decide_eq_true in Hdes. apply is_member in E1. rewrite !elem_of_cons in E1. split; [done|]. set_solver. }
    destruct (member_of [ActionDisable; _; _; _] action) eqn:E2; [|done].
    right. apply bool_decide_eq_true in Hdes. by apply is_member in E2.
Qed.

(** C20: The engine asks a driver to execute an action only when the capability is registered and
    its manifest declares the action, for its stored or default configuration; when its
    ownership allows it (a built-in capability is only enabled or disabled, an external one
    is also connected or disconnected, a managed one allows every action); when the desired
    state is the one the action leads to (enabled for install, connect, start, enable and
    upgrade, disabled for disable, stop, disconnect and uninstall); when it has a driver; and
    only after a preflight for the same request that ended in a well-formed report in which
    every blocking check passed.  Nothing but executions of that request follows. *)
Theorem run_execute_gated e env id action e' res err calls q a :
  Run e env id action = (e', res, err, calls) → ExecuteCall q a ∈ calls →
  granted e id action q ∧
  ∃ pre report more, calls = pre ++ PreflightCall q (Ok report) :: more ∧ Forall (is_preflight q) pre ∧
    Forall (is_execute q) more ∧ validatePreflightReport report = Ok tt ∧ passes report.
Proof.
  intros Hrun Hin. destruct (executed_action _ _ _ _ _ _ _ _ _ _ Hrun Hin) as [Hp Hv].
  destruct (execute_gated _ _ _ _ _ _ _ _ _ _ Hrun Hin) as [Hperm (pre & report & more & Hc & H1 & H2 & H3 & Hr)].
  split; [by apply permitted_granted|]. exists pre, report, more. split_and!; try done. by apply ready_passes.
Qed.

Lemma run_outcome e env id action e' res err calls :
  Run e env id action = (e', res, err, calls) →
  Attempts res + PreflightAttempts res = llen calls ∧ Attempts res <= limit e ∧ PreflightAttempts res <= limit e ∧
  (err ≠ None → e' = e) ∧
  (err = None → ∃ q n, permitted e id action q ∧ operationSnapshot e id = Ok (n, qConfiguration q) ∧
     if action == ActionPreflight then e' = e
     else e' = with_states e (<[id := rState res]> (states e)) ∧ effect q (currentState e id (State n)) (rState res) calls).
Proof.
  intros Hrun. pose proof (limit_pos e). destruct (run_settled e env id action) as [(? & ? & H' & Ha & Hb)|(q & n & Hp & Hn & Hs)].
  { rewrite Hrun in H'. injection H' as -> -> -> ->. rewrite Ha, Hb. unfold llen. simpl. split_and!; [lia..|done|done]. }
  rewrite Hrun in Hs. destruct Hs as (_ & Hc & H1 & H2 & Heff). split_and!; [lia..| |].
  - intros He. by destruct err.
  - intros ->. rewrite (permitted_action _ _ _ _ Hp) in Heff. eauto 10.
Qed.

(** C21: An operation reports as many attempts as it made calls, at most the maximum for each
    phase.  When it returns an error the engine is unchanged.  When it succeeds, a preflight
    changes nothing and any other action updates the state of its own capability only: the
    desired state stays, the new state is valid for the manifest, a verification records the
    verdict of the report the driver answered, and an execution takes the process state of
    the driver's last answer and forgets the verification. *)
Theorem run_effect e env id action e' res err calls :
  Run e env id action = (e', res, err, calls) →
  Attempts res + PreflightAttempts res = llen calls ∧ Attempts res <= limit e ∧ PreflightAttempts res <= limit e ∧
  (err ≠ None → e' = e) ∧
  (err = None → ∃ q n, permitted e id action q ∧ operationSnapshot e id = Ok (n, qConfiguration q) ∧
     if action == ActionPreflight then e' = e
     else e' = with_states e (<[id := rState res]> (states e)) ∧ effect q (currentState e id (State n)) (rState res) calls).
Proof. apply run_outcome. Qed.

(** An operation leaves the other capabilities alone. *)
Lemma run_elsewhere e env id action e' res err calls other :
  Run e env id action = (e', res, err, calls) → other ≠ id → states e' !! other = states e !! other.
Proof.
  intros Hrun Hne. destruct (run_outcome _ _ _ _ _ _ _ _ Hrun) as (_ & _ & _ & He & Ho).
  destruct err as [err|]; [by rewrite He|]. destruct (Ho eq_refl) as (q & n & _ & _ & Heff). case_bool_decide; [by subst|].
  destruct Heff as [-> _]. simpl. by rewrite lookup_insert_ne.
Qed.

(** ** The invariant of the engine *)

(** The durable intent for a capability. *)
Definition intent (i : Instances) (m : Manifest) : DesiredState :=
  nDesired (default (defaultConfiguration m) (configured i !! ID m)).

(** A built-in capability does not ask for a process. *)
Definition processes_agree (r : Registry) : Prop :=
  map_Forall (λ _ m, OwnershipBuiltin ∈ Ownership m → ProcessRequired (Health m) = false) r.

Record engine_ok (e : Engine) : Prop := {
  engine_instances : instances_ok (instances e);
  engine_processes : processes_agree (registry (instances e));
  engine_states : ∀ id m, registry (instances e) !! id = Some m → ∃ s, states e !! id = Some s ∧
    validateState s m = Ok tt ∧ Desired s = intent (instances e) m ∧
    (Verification s ≠ VerificationUnverified → Desired s = DesiredEnabled);
  engine_known : ∀ id s, states e !! id = Some s → is_Some (registry (instances e) !! id);
}.

(** The operations that change the engine. *)
Inductive Operation :=
| OpRun (env : Answers) (id : string) (action : LifecycleAction)
| OpApply (configuration : Configuration)
| OpRemove (id : string).

Definition perform (e : Engine) (op : Operation) : Engine :=
  match op with
  | OpRun env id action => let '(e', _, _, _) := Run e env id action in e'
  | OpApply configuration => (ApplyConfiguration e configuration).1
  | OpRemove id => (RemoveConfiguration e id).1
  end.

Lemma state_valid s m :
  validateState s m = Ok tt ↔
  (Desired s = DesiredDisabled ∨ Desired s = DesiredEnabled) ∧ Process s ∈ processStates ∧ Verification s ∈ verificationStates ∧
  (OwnershipBuiltin ∈ Ownership m → Process s = ProcessNotApplicable).
Proof.
  unfold validateState. rewrite !guard_ok, !negb_false_iff, !is_member, when_false, when_false, contains_ownership, !negb_true_iff,
    !negb_false_iff, bool_decide_eq_false, !bool_decide_eq_true.
  destruct (decide (Desired s = DesiredDisabled)); naive_solver.
Qed.

Lemma configured_intent i c id :
  instances_ok i → configured i !! id = Some c → nDesired c = DesiredDisabled ∨ nDesired c = DesiredEnabled.
Proof.
  intros [Hr Hc] Hid. destruct (Hc _ _ Hid) as [_ Hv]. apply validate_configuration_iff in Hv as (m & _ & Hok); [|done].
  apply (fits_desired _ _ Hok).
Qed.

Lemma intent_known i m : instances_ok i → intent i m = DesiredDisabled ∨ intent i m = DesiredEnabled.
Proof.
  intros Hi. unfold intent. destruct (configured i !! ID m) as [c|] eqn:E; [|by left]. by apply (configured_intent i c (ID m)).
Qed.

Lemma snapshot_intent e id n c :
  instances_ok (instances e) → operationSnapshot e id = Ok (n, c) →
  ∃ m, registry (instances e) !! id = Some m ∧ ID m = id ∧ iManifest n = m ∧ nDesired c = intent (instances e) m.
Proof.
  intros [Hr _]. unfold operationSnapshot. destruct (GetInstance _ _) as [n'|] eqn:E; [|done]. intros [= <- <-].
  apply get_instance_some in E as (m & Hm & Hid & _ & Hn & _); [|done]. exists m. rewrite Hn. split_and!; [done..|].
  unfold intent, ConfigurationOf. by rewrite Hid.
Qed.

Lemma sorted_ids_nodup r : NoDup (sorted_ids r).
Proof. unfold sorted_ids. rewrite merge_sort_Permutation. apply NoDup_fst_map_to_list. Qed.

Lemma assigned_fmap {A B} (key : A → string) (f : A → B) l :
  foldl (λ acc x, <[key x := f x]> acc) (∅ : gmap string B) l = f <$> foldl (λ acc x, <[key x := x]> acc) (∅ : gmap string A) l.
Proof. induction l as [|x l IH] using rev_ind; [done|]. by rewrite !foldl_snoc, IH, fmap_insert. Qed.

Lemma initial_state i id s :
  registry_ok (registry i) →
  foldl (λ acc n, <[ID (iManifest n) := State n]> acc) (∅ : gmap string InstanceState) (ListInstances i) !! id = Some s ↔
  ∃ m, registry i !! id = Some m ∧ s = State (instanceForLocked i m).
Proof.
  intros Hr. rewrite (assigned_fmap (λ n, ID (iManifest n)) State), assigned_keyed.
  - rewrite lookup_fmap_Some. setoid_rewrite keyed_lookup.
    + unfold ListInstances. setoid_rewrite list_elem_of_In. setoid_rewrite in_map_iff. setoid_rewrite <- list_elem_of_In. split.
      * intros (n & <- & (m & <- & Hm) & <-). exists m. split; [|done]. by apply list_elem_of.
      * intros (m & Hm & ->). destruct (Hr _ _ Hm) as [Hid _]. exists (instanceForLocked i m). split; [done|].
        split; [|done]. exists m. split; [done|]. apply list_elem_of; [done|]. by rewrite Hid.
    + unfold ListInstances. rewrite map_map. simpl. rewrite list_ids by done. apply sorted_ids_nodup.
  - unfold ListInstances. rewrite map_map. simpl. rewrite list_ids by done. apply sorted_ids_nodup.
Qed.

Lemma new_engine_ok i ds e :
  instances_ok i → processes_agree (registry i) → NewLifecycleEngine i ds = Ok e → engine_ok e.
Proof.
  intros Hi Hp (registered & _ & [= <-])%res_bind_ok. constructor; simpl; [done..| |].
  - intros id m Hm. exists (State (instanceForLocked i m)). split_and!.
    + apply initial_state; [apply Hi|]. eauto.
    + apply state_valid. simpl. split_and!; [by apply intent_known| |by left|].
      * destruct (ProcessRequired _); unfold processStates; rewrite !elem_of_cons; tauto.
      * intros Hb. by rewrite (Hp _ _ Hm Hb).
    + done.
    + done.
  - intros id s Hs. apply initial_state in Hs as (m & Hm & _); [|apply Hi]. eauto.
Qed.

Lemma current_state_known e id m fallback :
  engine_ok e → registry (instances e) !! id = Some m →
  states e !! id = Some (currentState e id fallback) ∧ validateState (currentState e id fallback) m = Ok tt ∧
  Desired (currentState e id fallback) = intent (instances e) m ∧
  (Verification (currentState e id fallback) ≠ VerificationUnverified → Desired (currentState e id fallback) = DesiredEnabled).
Proof. intros He Hm. destruct (engine_states _ He _ _ Hm) as (s & Hs & H). unfold currentState. by rewrite Hs. Qed.

(** Writing a fitting state for one capability, under the same registry and the same intent
    for the others, keeps the invariant. *)
Lemma engine_update e i id m s :
  engine_ok e → instances_ok i → registry i = registry (instances e) → registry i !! id = Some m →
  (∀ id', id' ≠ id → configured i !! id' = configured (instances e) !! id') →
  validateState s m = Ok tt → Desired s = intent i m →
  (Verification s ≠ VerificationUnverified → Desired s = DesiredEnabled) →
  engine_ok (mkEngine i (drivers e) (<[id := s]> (states e)) (maxAttempts e)).
Proof.
  intros He Hi Hr Hm Hother Hv Hd Hen. constructor; simpl; [done|rewrite Hr; apply He| |].
  - intros id' m' Hm'. destruct (decide (id' = id)) as [->|Hne].
    + rewrite Hm in Hm'. injection Hm' as <-. exists s. by rewrite lookup_insert_eq.
    + rewrite lookup_insert_ne by done. pose proof Hm' as Hm''. rewrite Hr in Hm''. destruct (engine_states _ He _ _ Hm'') as (t & Ht & Hvt & Hdt & Het).
      exists t. split_and!; [done..| |done]. rewrite Hdt. unfold intent. destruct Hi as [Hreg _]. destruct (Hreg _ _ Hm') as [-> _].
      by rewrite Hother.
  - intros id' t. destruct (decide (id' = id)) as [->|Hne]; [eauto|]. rewrite lookup_insert_ne by done. rewrite Hr. apply He.
Qed.

Lemma run_keeps e env id action : engine_ok e → engine_ok (perform e (OpRun env id action)).
Proof.
  intros He. simpl. destruct (Run e env id action) as [[[e' res] err] calls] eqn:Hrun.
  destruct (run_outcome _ _ _ _ _ _ _ _ Hrun) as (_ & _ & _ & Herr & Hok). destruct err as [err|]; [by rewrite Herr|].
  destruct (Hok eq_refl) as (q & n & Hp & Hn & Heff). case_bool_decide as Hact; [by subst|].
  destruct (snapshot_intent _ _ _ _ (engine_instances _ He) Hn) as (m & Hm & Hid & Hman & Hint).
  destruct (permitted_instance _ _ _ _ Hp) as (n' & Hn' & Hq & _). rewrite Hn in Hn'. injection Hn' as <-.
  destruct (current_state_known e id m (State n) He Hm) as (_ & Hv & Hd & _).
  destruct Heff as [-> (Hdes & Hval & Heff)]. rewrite Hq, Hman in Hval. apply (engine_update e (instances e) id m); try done.
  - apply He.
  - congruence.
  - rewrite (permitted_action _ _ _ _ Hp) in Heff. case_bool_decide as Hver; [|by destruct Heff as [-> _]].
    intros _. pose proof (permitted_desired _ _ _ _ Hp) as Hdesired. rewrite Hver in Hdesired.
    apply (bool_decide_eq_true (nDesired (qConfiguration q) = DesiredEnabled)) in Hdesired. congruence.
Qed.

Lemma apply_keeps e c : engine_ok e → engine_ok (ApplyConfiguration e c).1.
Proof.
  intros He. pose proof (engine_instances _ He) as Hi. unfold ApplyConfiguration.
  destruct (ValidateConfiguration _ _) as [[]|what] eqn:Ev; [|done]. destruct (GetInstance _ _) as [n|] eqn:Eg; [|done].
  apply get_instance_some in Eg as (m & Hm & Hid & _ & Hman & _); [|apply Hi].
  destruct (SetConfiguration _ _) as [i|what] eqn:Es; [|done]. apply set_configuration_ok in Es as (Hi' & Hr & Hc); [|done].
  destruct (current_state_known e (nID c) m (State n) He Hm) as (_ & Hv & Hd & Hen). cbv zeta.
  set (previous := currentState e (nID c) (State n)) in *.
  set (next := mkState _ _ _).
  assert (Hintent : Desired next = intent i m) by (unfold intent; by rewrite Hc, Hid, lookup_insert_eq).
  assert (Hnext : validateState next m = Ok tt).
  { apply state_valid. apply state_valid in Hv as (_ & Hpr & Hver & Hb). split_and!; [rewrite Hintent; by apply intent_known|done| |done].
    simpl. case_match; [by left|done]. }
  rewrite Hman, Hnext. simpl. apply (engine_update e i (nID c) m); try done; [by rewrite Hr| |].
  - intros id' Hne. by rewrite Hc, lookup_insert_ne.
  - simpl. case_bool_decide as Hsame; simpl; [rewrite <- Hsame; done|done].
Qed.

Lemma remove_keeps e id : engine_ok e → engine_ok (RemoveConfiguration e id).1.
Proof.
  intros He. pose proof (engine_instances _ He) as Hi. unfold RemoveConfiguration.
  destruct (GetInstance _ _) as [n|] eqn:Eg; [|done]. apply get_instance_some in Eg as (m & Hm & Hid & _ & Hman & _); [|apply Hi].
  destruct (Capability.RemoveConfiguration _ _) as [i|what] eqn:Es; [|done].
  apply remove_configuration_ok in Es as (Hi' & Hr & Hc); [|done].
  destruct (current_state_known e id m (State n) He Hm) as (_ & Hv & _). cbv zeta.
  change (currentState (with_instances e i) id (State n)) with (currentState e id (State n)).
  set (next := mkState _ _ _).
  assert (Hnext : validateState next m = Ok tt).
  { apply state_valid. apply state_valid in Hv as (_ & Hpr & Hver & Hb). split_and!; [by left|done|by left|done]. }
  rewrite Hman, Hnext. simpl. apply (engine_update e i id m); try done; [by rewrite Hr| |].
  - intros id' Hne. by rewrite Hc, lookup_delete_ne.
  - unfold intent. by rewrite Hc, Hid, lookup_delete_eq.
Qed.

Lemma perform_keeps e op : engine_ok e → engine_ok (perform e op).
Proof. destruct op; [apply run_keeps|apply apply_keeps|apply remove_keeps]. Qed.

Lemma engine_reachable manifests cs ds r i e ops :
  NewRegistry manifests = Ok r → processes_agree r → NewInstances (Some r) cs = Ok i → NewLifecycleEngine i ds = Ok e →
  engine_ok (foldl perform e ops).
Proof.
  intros Hr Hp Hi He. assert (Hreg : registry i = r) by (apply res_bind_ok in Hi as (? & _ & [= <-]); done).
  assert (Hok : engine_ok e).
  { eapply new_engine_ok; [|by rewrite Hreg|done]. eapply new_instances_ok; [|done]. by eapply new_registry_wf. }
  clear Hr Hp Hi He Hreg. revert e Hok. induction ops as [|op ops IH]; intros e Hok; [done|]. by apply IH, perform_keeps.
Qed.

(** C22: Whatever operations are run on an engine built from a valid registry in which no
    built-in capability asks for a process, every capability keeps a state that is valid for
    its manifest and whose desired state is that of the stored configuration (or of the
    default), no capability shows any verification while it is not desired to be enabled,
    and the stored configurations are valid. *)
Theorem engine_invariant manifests cs ds r i e ops :
  NewRegistry manifests = Ok r → processes_agree r → NewInstances (Some r) cs = Ok i → NewLifecycleEngine i ds = Ok e →
  engine_ok (foldl perform e ops).
Proof. apply engine_reachable. Qed.

(** A home with Device Watch, enabled, verified and then disabled. *)
Definition home_instances : Instances := mkInstances home_registry {[ "device-watch" := home_configuration ]}.
Definition home_engine : Engine :=
  mkEngine home_instances {[ "device-watch" ]}
    {[ "device-watch" := mkState "enabled" "not-applicable" "unverified" ]} 3.

Definition fresh_signals : VerificationReport :=
  map (λ id, mkSignal id "fresh" "") (VerificationSignals (Health device_watch)).

Definition calm {T} (a : result error T) : Z → Try T := λ _, mkTry false a false.

(** The first preflight fails with a retryable error, the second is ready. *)
Definition home_answers : Answers :=
  mkAnswers
    (λ n, mkTry false (if n =? 1 then Err (DriverError false (Some true)) else Ok [mkCheck "scope" "pass" true ""]) false)
    (calm (Ok (mkStep true None))) (calm (Ok fresh_signals)).

Definition home_disabled : Configuration := mkConfiguration "device-watch" "builtin" "disabled" ∅.
Definition home_operations : list Operation :=
  [OpRun home_answers "device-watch" ActionEnable; OpRun home_answers "device-watch" ActionVerify; OpApply home_disabled;
   OpRun home_answers "device-watch" ActionDisable; OpRemove "device-watch"].

Lemma home_engine_built :
  NewRegistry [device_watch] = Ok home_registry ∧ NewInstances (Some home_registry) [home_configuration] = Ok home_instances ∧
  NewLifecycleEngine home_instances [("device-watch", true)] = Ok home_engine.
Proof. split_and!; [apply home_registry_built|vm_compute; reflexivity..]. Qed.

Lemma home_processes : processes_agree home_registry.
Proof. apply map_Forall_singleton. done. Qed.

Lemma engine_invariant_witness :
  engine_ok (foldl perform home_engine home_operations) ∧
  states (foldl perform home_engine (take 2 home_operations)) !! "device-watch" =
    Some (mkState "enabled" "not-applicable" "verified") ∧
  states (foldl perform home_engine (take 3 home_operations)) !! "device-watch" =
    Some (mkState "disabled" "not-applicable" "unverified").
Proof.
  destruct home_engine_built as (Hr & Hi & He). split; [|split; vm_compute; reflexivity].
  exact (engine_invariant [device_watch] [home_configuration] [("device-watch", true)] home_registry home_instances home_engine
           home_operations Hr home_processes Hi He).
Defined.

Definition home_request (action : LifecycleAction) : DriverRequest :=
  mkRequest device_watch home_configuration "builtin" action.

Lemma run_execute_gated_witness :
  ∃ pre report more, (Run home_engine home_answers "device-watch" ActionEnable).2 =
    pre ++ PreflightCall (home_request ActionEnable) (Ok report) :: more ∧ passes report.
Proof.
  destruct (Run home_engine home_answers "device-watch" ActionEnable) as [[[e' res] err] calls] eqn:E.
  assert (Hin : ExecuteCall (home_request ActionEnable) (Ok (mkStep true None)) ∈ calls).
  { replace calls with (Run home_engine home_answers "device-watch" ActionEnable).2 by (rewrite E; reflexivity).
    vm_compute. do 2 right. left. }
  destruct (run_execute_gated home_engine home_answers "device-watch" ActionEnable e' res err calls _ _ E Hin)
    as [_ (pre & report & more & Hc & _ & _ & _ & Hr)].
  exists pre, report, more. exact (conj Hc Hr).
Defined.

Lemma run_effect_witness :
  ∃ e' res calls, Run home_engine home_answers "device-watch" ActionEnable = (e', res, None, calls) ∧
    Attempts res + PreflightAttempts res = llen calls ∧ PreflightAttempts res = 2.
Proof.
  destruct (Run home_engine home_answers "device-watch" ActionEnable) as [[[e' res] err] calls] eqn:E.
  destruct (run_effect _ _ _ _ _ _ _ _ E) as [Hc _].
  assert (Hr : err = None ∧ PreflightAttempts res = 2) by (vm_compute in E; injection E as _ <- <- _; split; reflexivity).
  destruct Hr as [-> Hp]. exists e', res, calls. exact (conj eq_refl (conj Hc Hp)).
Defined.

(** ** A configuration change that is refused half way

    A manifest may declare built-in ownership and a process: [Validate] accepts it, and the
    initial state of its instance is one [InstanceState.Validate] refuses.
    [ApplyConfiguration] stores the configuration before it validates the state, so it
    returns an error with the new configuration in place and the old runtime state: the
    intent and the state disagree from then on. *)
Definition odd_manifest : Manifest :=
  mkManifest (mSchemaVersion device_watch) (ID device_watch) (DisplayName device_watch) (Summary device_watch) (Release device_watch)
    (Ownership device_watch) (Targets device_watch) (Inputs device_watch) (Privileges device_watch) (Dependencies device_watch)
    (Config device_watch) (Resources device_watch) (mProvenance device_watch)
    (mkHealth true (VerificationSignals (Health device_watch)) true) (DataHandling device_watch) (Outputs device_watch)
    (DeepLinks device_watch) (Lifecycle device_watch).
Definition odd_engine : Engine :=
  mkEngine (mkInstances {[ "device-watch" := odd_manifest ]} ∅) ∅ {[ "device-watch" := mkState "disabled" "stopped" "unverified" ]} 3.

Lemma apply_configuration_torn :
  NewRegistry [odd_manifest] = Ok {[ "device-watch" := odd_manifest ]} ∧
  NewLifecycleEngine (mkInstances {[ "device-watch" := odd_manifest ]} ∅) [] = Ok odd_engine ∧
  let '(e, err) := ApplyConfiguration odd_engine home_configuration in
  err = Some (InvalidState "builtin capability has no independent process state") ∧
  configured (instances e) !! "device-watch" = Some home_configuration ∧
  states e !! "device-watch" = Some (mkState "disabled" "stopped" "unverified").
Proof. do 2 (split; [vm_compute; reflexivity|]). vm_compute. auto. Qed.

End Lifecycle.
