(* ===== verification/Domain.v ===== *)
(** * Records of the domain

    [domain/model.go] and [domain/validate.go]: the observations, devices, identity claims,
    links, coverage samples, findings, audit events and checkpoints the controller stores,
    their validators, and the canonical form of an identity claim.  The Unicode tables behind
    [unicode.IsLower] and [unicode.IsDigit] are a parameter for the characters above ASCII. *)

From Stdlib Require Import Ascii SpecFloat.
From S2P Require Import Prelude Regex GoTime GoFloat NetAddr NetText Manifest GoJSON.

Module Domain.
Import JSON.

Definition SchemaVersion : Z := 1.
Definition MaxJSONBytes : Z := 64 * 1024.

Definition RetentionClass := string.
Definition RetentionEphemeral : RetentionClass := "ephemeral".
Definition RetentionShort : RetentionClass := "short".
Definition RetentionStandard : RetentionClass := "standard".
Definition RetentionAudit : RetentionClass := "audit".

Definition ClaimKind := string.
Definition ClaimIPv4 : ClaimKind := "ipv4".
Definition ClaimIPv6 : ClaimKind := "ipv6".
Definition ClaimMAC : ClaimKind := "mac".
Definition ClaimHostname : ClaimKind := "hostname".
Definition ClaimServiceName : ClaimKind := "service-name".
Definition ClaimDHCPClientID : ClaimKind := "dhcp-client-id".
Definition ClaimEndpointID : ClaimKind := "endpoint-id".

Definition LinkAuthority := string.
Definition LinkInferred : LinkAuthority := "inferred".
Definition LinkUser : LinkAuthority := "user".

(** Raw JSON texts are strings; a pointer is an option. *)
Record NetworkScope := mkScope { nsID : string; nsKind : string; EnrolledAt : Time; nsRetiredAt : option Time; nsMetadata : string }.
Record Sensor := mkSensor {
  seID : string; seScopeID : string; seKind : string; seOwnership : string; RegisteredAt : Time; seMetadata : string }.
Record Observation := mkObservation {
  obID : string; obScopeID : string; obSensorID : string; obKind : string;
  SourceStream : string; SourceKey : string; SourceEventID : string; SourceTime : option Time; IngestedAt : Time;
  obSchemaVersion : Z; obConfidence : option float64; Attribution : string; obPayload : string; obRetention : RetentionClass }.
Record Device := mkDevice { deID : string; UserLabel : string; deCreatedAt : Time; deRetiredAt : option Time }.
Record IdentityClaim := mkClaim {
  clID : string; clScopeID : string; clKind : ClaimKind; clValue : string; clObservedAt : Time; clValidUntil : option Time;
  clConfidence : option float64; SourceSensorID : string; SourceObservationID : string; clRetention : RetentionClass }.
Record DeviceClaimLink := mkLink {
  liID : string; liDeviceID : string; ClaimID : string; ValidFrom : Time; liValidUntil : option Time;
  liConfidence : option float64; Authority : LinkAuthority; liReason : string; EvidenceObservationID : string; liCreatedAt : Time }.
Record CoverageSample := mkCoverage {
  coID : string; coScopeID : string; coSensorID : string; CapabilityID : string; coStatus : string;
  coStartedAt : Time; EndedAt : Time; coSchemaVersion : Z; coEvidence : string; coRetention : RetentionClass }.

(** [fiEvidence] tells a nil list from an empty one, which [reflect.DeepEqual] does too. *)
Record Finding := mkFinding {
  fiID : string; fiScopeID : string; DetectorID : string; DetectorVersion : string; Category : string; Severity : string;
  fiConfidence : option float64; fiObservedAt : Time; fiCreatedAt : Time; fiSchemaVersion : Z; fiPayload : string;
  fiEvidence : option (list string); fiRetention : RetentionClass }.
Record AuditEvent := mkAudit {
  auID : string; auKind : string; Actor : string; OccurredAt : Time; auSchemaVersion : Z; auPayload : string;
  auRetention : RetentionClass }.
Record IngestionCheckpoint := mkCheckpoint { chSensorID : string; StreamID : string; Cursor : string; UpdatedAt : Time }.

(** ** Hardware addresses *)

Definition hex_byte (h l : ascii) : option Z := a ← hex_value h; b ← hex_value l; Some (a * 16 + b).

Fixpoint mac_pairs (e : ascii) (w : list ascii) : option (list Z) :=
  match w with
  | [h; l] => b ← hex_byte h l; Some [b]
  | h :: l :: c :: rest => b ← hex_byte h l; if c == e then bs ← mac_pairs e rest; Some (b :: bs) else None
  | _ => None
  end.

Fixpoint mac_quads (e : ascii) (w : list ascii) : option (list Z) :=
  match w with
  | [h; l; h'; l'] => a ← hex_byte h l; b ← hex_byte h' l'; Some [a; b]
  | h :: l :: h' :: l' :: c :: rest =>
      a ← hex_byte h l; b ← hex_byte h' l';
      if c == e then bs ← mac_quads e rest; Some (a :: b :: bs) else None
  | _ => None
  end.

Definition mac_length (n : Z) : bool := (n =? 6) || (n =? 8) || (n =? 20).

(** [net.ParseMAC]: six, eight or twenty bytes as pairs with colons or hyphens, or as
    groups of four digits with dots. *)
Definition ParseMAC (s : string) : option (list Z) :=
  let w := String.list_ascii_of_string s in
  let len := llen w in
  if len <? 14 then None
  else
    let c2 := default " "%char (w !! 2%nat) in
    let c4 := default " "%char (w !! 4%nat) in
    if (c2 == ":"%char) || (c2 == "-"%char) then
      if negb ((len + 1) mod 3 =? 0) || negb (mac_length ((len + 1) / 3)) then None else mac_pairs c2 w
    else if c4 == "."%char then
      if negb ((len + 1) mod 5 =? 0) || negb (mac_length (2 * (len + 1) / 5)) then None else mac_quads c4 w
    else None.

Fixpoint mac_text (bs : list Z) : list ascii :=
  match bs with
  | [] => []
  | b :: rest => hex_char (b / 16) :: hex_char (b mod 16) :: match rest with [] => [] | _ => ":"%char :: mac_text rest end
  end.

(** [HardwareAddr.String]. *)
Definition MACString (bs : list Z) : string := String.string_of_list_ascii (mac_text bs).

(** ** Text *)

(** The runes of a text, U+FFFD for a byte that starts no sequence. *)
Fixpoint runes (p : list Z) : list Z :=
  match p with
  | [] => []
  | c :: r =>
      match sequence p, r with
      | 1%nat, _ => c :: runes r
      | 2%nat, d :: r => ((c - 192) * 64 + (d - 128)) :: runes r
      | 3%nat, d :: e :: r => (((c - 224) * 64 + (d - 128)) * 64 + (e - 128)) :: runes r
      | 4%nat, d :: e :: f :: r => ((((c - 240) * 64 + (d - 128)) * 64 + (e - 128)) * 64 + (f - 128)) :: runes r
      | _, _ => 65533 :: runes r
      end
  end.

(** [^[a-z][a-z0-9._:-]{0,127}$] *)
Definition idPattern : regex := RCat (RSet is_lower) (RRep (RSet (λ c, lower_digit c || one_of "._:-" c)) 0 127).

Definition validateID (value : string) : result string unit :=
  guard? negb (MatchString idPattern value) else "invalid id" in Ok tt.

Definition validateRetention (retention : RetentionClass) : result string unit :=
  guard? negb (Manifest.member_of [RetentionEphemeral; RetentionShort; RetentionStandard; RetentionAudit] retention)
  else "unknown retention class" in
  Ok tt.

Definition validateOpaque (value : string) (max : Z) : result string unit :=
  guard? (value == "") || (max <? slen value) || (TrimSpace value != value) else "is empty, oversized, or untrimmed" in
  guard? Manifest.hasUnsafeText value else "contains control characters" in
  Ok tt.

Definition float_ltb (x y : float64) : bool := SFltb x y.
Definition zero : float64 := float_of_int 0.
Definition one : float64 := float_of_int 1.

Definition validateConfidence (value : option float64) : result string unit :=
  match value with
  | None => Ok tt
  | Some v => guard? float_ltb v zero || float_ltb one v else "must be between 0 and 1" in Ok tt
  end.

Definition validateJSON (value : string) : result string unit :=
  let trimmed := TrimSpace value in
  guard? slen trimmed =? 0 else "is required" in
  guard? MaxJSONBytes <? slen trimmed else "exceeds 65536 bytes" in
  guard? negb (is_some (parse (sbytes trimmed))) else "is not valid JSON" in
  Ok tt.

(** The canonical form of an identity claim. *)
Definition NormalizeClaimValue (kind : ClaimKind) (value : string) : result string string :=
  if kind == ClaimIPv4 then
    match ParseAddr value with
    | Some address => guard? negb (Is4 address) else "invalid IPv4 identity claim" in Ok (AddrString address)
    | None => Err "invalid IPv4 identity claim"
    end
  else if kind == ClaimIPv6 then
    match ParseAddr value with
    | Some address => guard? negb (Is6 address) else "invalid IPv6 identity claim" in Ok (AddrString address)
    | None => Err "invalid IPv6 identity claim"
    end
  else if kind == ClaimMAC then
    match ParseMAC value with
    | Some address => Ok (ToLower (MACString address))
    | None => Err "invalid MAC identity claim"
    end
  else if Manifest.member_of [ClaimHostname; ClaimServiceName; ClaimDHCPClientID; ClaimEndpointID] kind then
    check? validateOpaque value 512 in Ok value
  else Err "unknown identity claim kind".

(** ** Validators *)

Section Validators.
(** [unicode.IsLower] or [unicode.IsDigit], above ASCII. *)
Context (lower_or_digit : Z → bool).

Definition token_rune (r : Z) : bool :=
  if r <? 128 then between 97 122 r || between 48 57 r || (r =? 45) || (r =? 46) || (r =? 95) || (r =? 58)
  else lower_or_digit r.

Definition validateToken (value : string) (max : Z) : result string unit :=
  guard? (value == "") || (max <? slen value) || (TrimSpace value != value) else "is empty, oversized, or untrimmed" in
  guard? negb (forallb token_rune (runes (sbytes value))) else "contains unsupported characters" in
  Ok tt.

(** A deadline that is not before the start. *)
Definition follows (end_ : option Time) (start : Time) : bool :=
  match end_ with Some e => negb (Before e start) | None => true end.

(** An identifier that may be left out. *)
Definition optionalID (value : string) : result string unit := if value != "" then validateID value else Ok tt.

Definition ValidateNetworkScope (s : NetworkScope) : result string unit :=
  check? validateID (nsID s) in
  check? validateToken (nsKind s) 64 in
  guard? IsZero (EnrolledAt s) else "network scope enrolled_at is required" in
  guard? negb (follows (nsRetiredAt s) (EnrolledAt s)) else "network scope retired_at precedes enrolled_at" in
  validateJSON (nsMetadata s).

Definition ValidateSensor (s : Sensor) : result string unit :=
  check? validateID (seID s) in
  check? validateID (seScopeID s) in
  check? validateToken (seKind s) 64 in
  check? validateToken (seOwnership s) 64 in
  guard? IsZero (RegisteredAt s) else "sensor registered_at is required" in
  validateJSON (seMetadata s).

Definition ValidateObservation (o : Observation) : result string unit :=
  check? for_each (λ _ value, validateID value) [obID o; obScopeID o; obSensorID o] tt in
  check? validateToken (obKind o) 96 in
  check? validateOpaque (SourceStream o) 128 in
  check? validateOpaque (SourceKey o) 512 in
  check? (if SourceEventID o != "" then validateOpaque (SourceEventID o) 512 else Ok tt) in
  guard? IsZero (IngestedAt o) else "observation ingested_at is required" in
  guard? obSchemaVersion o <=? 0 else "observation schema_version must be positive" in
  check? validateConfidence (obConfidence o) in
  check? validateOpaque (Attribution o) 256 in
  check? validateJSON (obPayload o) in
  validateRetention (obRetention o).

Definition ValidateDevice (d : Device) : result string unit :=
  check? validateID (deID d) in
  check? (if UserLabel d != "" then validateOpaque (UserLabel d) 160 else Ok tt) in
  guard? IsZero (deCreatedAt d) else "device created_at is required" in
  guard? negb (follows (deRetiredAt d) (deCreatedAt d)) else "device retired_at precedes created_at" in
  Ok tt.

Definition ValidateIdentityClaim (c : IdentityClaim) : result string unit :=
  check? validateID (clID c) in
  check? validateID (clScopeID c) in
  check? validateID (SourceSensorID c) in
  check? optionalID (SourceObservationID c) in
  guard? IsZero (clObservedAt c) else "identity claim observed_at is required" in
  guard? negb (follows (clValidUntil c) (clObservedAt c)) else "identity claim valid_until precedes observed_at" in
  check? NormalizeClaimValue (clKind c) (clValue c) in
  check? validateConfidence (clConfidence c) in
  validateRetention (clRetention c).

Definition ValidateDeviceClaimLink (l : DeviceClaimLink) : result string unit :=
  check? for_each (λ _ value, validateID value) [liID l; liDeviceID l; ClaimID l] tt in
  check? optionalID (EvidenceObservationID l) in
  guard? IsZero (ValidFrom l) else "device claim link valid_from is required" in
  guard? negb (follows (liValidUntil l) (ValidFrom l)) else "device claim link valid_until precedes valid_from" in
  check? validateConfidence (liConfidence l) in
  guard? (Authority l != LinkInferred) && (Authority l != LinkUser) else "unknown device claim link authority" in
  validateOpaque (liReason l) 512.

Definition ValidateCoverageSample (s : CoverageSample) : result string unit :=
  check? for_each (λ _ value, validateID value) [coID s; coScopeID s; coSensorID s; CapabilityID s] tt in
  check? validateToken (coStatus s) 64 in
  guard? IsZero (coStartedAt s) || IsZero (EndedAt s) else "coverage interval is required" in
  guard? Before (EndedAt s) (coStartedAt s) else "coverage ended_at precedes started_at" in
  guard? coSchemaVersion s <=? 0 else "coverage schema_version must be positive" in
  check? validateJSON (coEvidence s) in
  validateRetention (coRetention s).

Definition ValidateFinding (f : Finding) : result string unit :=
  check? validateID (fiID f) in
  check? validateID (fiScopeID f) in
  check? validateToken (DetectorID f) 128 in
  check? validateOpaque (DetectorVersion f) 128 in
  check? validateToken (Category f) 128 in
  check? validateToken (Severity f) 32 in
  check? validateConfidence (fiConfidence f) in
  guard? IsZero (fiObservedAt f) || IsZero (fiCreatedAt f) else "finding observed_at and created_at are required" in
  guard? fiSchemaVersion f <=? 0 else "finding schema_version must be positive" in
  check? validateJSON (fiPayload f) in
  check? Manifest.each_once validateID (λ id, id) "duplicate finding evidence observation id" Manifest.always
           (default [] (fiEvidence f)) in
  validateRetention (fiRetention f).

Definition ValidateAuditEvent (e : AuditEvent) : result string unit :=
  check? validateID (auID e) in
  check? validateToken (auKind e) 128 in
  check? validateOpaque (Actor e) 128 in
  guard? IsZero (OccurredAt e) else "audit event occurred_at is required" in
  guard? auSchemaVersion e <=? 0 else "audit event schema_version must be positive" in
  check? validateJSON (auPayload e) in
  validateRetention (auRetention e).

Definition ValidateCheckpoint (c : IngestionCheckpoint) : result string unit :=
  check? validateID (chSensorID c) in
  check? validateOpaque (StreamID c) 128 in
  check? validateOpaque (Cursor c) 4096 in
  guard? IsZero (UpdatedAt c) else "checkpoint updated_at is required" in
  Ok tt.

End Validators.

(** ** The text of a hardware address *)

Definition mac_ok (bs : list Z) : Prop := Forall (λ b, 0 <= b < 256) bs ∧ mac_length (llen bs) = true.

Lemma hex_byte_range h l b : hex_byte h l = Some b → 0 <= b < 256.
Proof.
  unfold hex_byte. intros (x & Hx%hex_value_range & (y & Hy%hex_value_range & [= <-])%bind_Some)%bind_Some. lia.
Qed.

Lemma hex_byte_text b : 0 <= b < 256 → hex_byte (hex_char (b / 16)) (hex_char (b mod 16)) = Some b.
Proof.
  intros Hb. assert (0 <= b / 16 < 16) by (split; [apply Z.div_pos|apply Z.div_lt_upper_bound]; lia).
  unfold hex_byte. rewrite !hex_value_char by (done || (apply Z.mod_pos_bound; lia)). simpl. f_equal.
  rewrite (Z.div_mod b 16) at 3 by lia. lia.
Qed.

Lemma mac_pairs_text b bs :
  Forall (λ b, 0 <= b < 256) (b :: bs) → mac_pairs ":" (mac_text (b :: bs)) = Some (b :: bs).
Proof.
  revert b. induction bs as [|c bs IH]; intros b Hb; apply Forall_cons in Hb as [Hb Hbs].
  - cbn [mac_text mac_pairs]. by rewrite hex_byte_text.
  - change (mac_text (b :: c :: bs)) with (hex_char (b / 16) :: hex_char (b mod 16) :: ":"%char :: mac_text (c :: bs)).
    cbn [mac_pairs]. rewrite hex_byte_text by done. cbn [mbind option_bind]. rewrite bool_decide_eq_true_2 by done. by rewrite IH.
Qed.

Lemma mac_text_length b bs : llen (mac_text (b :: bs)) = 3 * llen (b :: bs) - 1.
Proof.
  revert b. induction bs as [|c bs IH]; intros b; [done|]. specialize (IH c).
  change (mac_text (b :: c :: bs)) with (hex_char (b / 16) :: hex_char (b mod 16) :: ":"%char :: mac_text (c :: bs)).
  unfold llen in *. cbn [length] in *. lia.
Qed.

Lemma ParseMAC_text bs : mac_ok bs → ParseMAC (MACString bs) = Some bs.
Proof.
  intros [Hb Hl]. unfold ParseMAC, MACString. rewrite String.list_ascii_of_string_of_list_ascii. cbv zeta.
  assert (Hn : llen bs = 6 ∨ llen bs = 8 ∨ llen bs = 20) by (unfold mac_length in Hl; go_bool; lia).
  destruct bs as [|b [|c bs]]; [by destruct Hn as [|[]]..|].
  pose proof (mac_pairs_text b (c :: bs) Hb) as Hp. pose proof (mac_text_length b (c :: bs)) as Ht. rewrite Ht.
  assert (H2 : mac_text (b :: c :: bs) !! 2%nat = Some ":"%char) by done. rewrite H2. cbn [default from_option id].
  rewrite (bool_decide_eq_true_2 (":"%char = ":"%char)) by done. cbn [orb].
  replace (3 * llen (b :: c :: bs) - 1 + 1) with (llen (b :: c :: bs) * 3) by lia. rewrite Z.mod_mul, Z.div_mul, Hl by lia.
  rewrite (proj2 (Z.ltb_ge _ 14)) by lia. exact Hp.
Qed.

Lemma mac_pairs_length e w bs : mac_pairs e w = Some bs → llen w = 3 * llen bs - 1 ∧ Forall (λ b, 0 <= b < 256) bs.
Proof.
  remember (length w) as n eqn:Hn. revert w bs Hn. induction n as [n IH] using lt_wf_ind. intros w bs -> H.
  destruct w as [|h [|l [|c rest]]]; try done; cbn [mac_pairs] in H.
  - apply bind_Some in H as (b & Hb%hex_byte_range & [= <-]). split; [done|by apply Forall_singleton].
  - apply bind_Some in H as (b & Hb%hex_byte_range & H). destruct (c == e); [|done]. apply bind_Some in H as (cs & Hc & [= <-]).
    destruct (IH (length rest) ltac:(simpl; lia) rest cs eq_refl Hc) as [Hl Hr]. unfold llen in *. simpl length.
    split; [lia|by constructor].
Qed.

Lemma mac_quads_length e w bs : mac_quads e w = Some bs → 2 * llen w = 5 * llen bs - 2 ∧ Forall (λ b, 0 <= b < 256) bs.
Proof.
  remember (length w) as n eqn:Hn. revert w bs Hn. induction n as [n IH] using lt_wf_ind. intros w bs -> H.
  destruct w as [|h [|l [|h' [|l' [|c rest]]]]]; try done; cbn [mac_quads] in H.
  - apply bind_Some in H as (a & Ha%hex_byte_range & H). apply bind_Some in H as (b & Hb%hex_byte_range & [= <-]).
    split; [done|]. constructor; [done|by apply Forall_singleton].
  - apply bind_Some in H as (a & Ha%hex_byte_range & H). apply bind_Some in H as (b & Hb%hex_byte_range & H).
    destruct (c == e); [|done]. apply bind_Some in H as (cs & Hc & [= <-]).
    destruct (IH (length rest) ltac:(simpl; lia) rest cs eq_refl Hc) as [Hl Hr]. unfold llen in *. simpl length.
    split; [lia|by do 2 (constructor; [done|])].
Qed.

Lemma ParseMAC_ok s bs : ParseMAC s = Some bs → mac_ok bs.
Proof.
  unfold ParseMAC. cbv zeta. set (w := String.list_ascii_of_string s). destruct (_ <? _); [done|].
  destruct (_ || _); [|destruct (_ == "."%char); [|done]].
  - destruct (negb _ || negb _) eqn:E; [done|]. go_bool. intros [Hl Hb]%mac_pairs_length. split; [done|].
    replace (llen bs) with ((llen w + 1) / 3); [done|]. rewrite Hl. replace (3 * llen bs - 1 + 1) with (llen bs * 3) by lia.
    apply Z.div_mul. lia.
  - destruct (negb _ || negb _) eqn:E; [done|]. go_bool. intros [Hl Hb]%mac_quads_length. split; [done|].
    replace (llen bs) with (2 * (llen w + 1) / 5); [done|]. replace (2 * (llen w + 1)) with (llen bs * 5) by lia.
    apply Z.div_mul. lia.
Qed.

(** The text is in lower case. *)
Lemma lower_hex d : 0 <= d < 16 → lower_ascii (hex_char d) = hex_char d.
Proof. revert d. apply sixteen_cases. simpl map. repeat constructor. Qed.

Lemma lower_text bs : Forall (λ b, 0 <= b < 256) bs → map lower_ascii (mac_text bs) = mac_text bs.
Proof.
  induction 1 as [|b bs Hb _ IH]; [done|]. cbn [mac_text map].
  assert (0 <= b / 16 < 16) by (split; [apply Z.div_pos|apply Z.div_lt_upper_bound]; lia).
  rewrite !lower_hex by (done || (apply Z.mod_pos_bound; lia)). do 2 f_equal. destruct bs as [|c bs]; [done|].
  cbn [map]. by rewrite IH.
Qed.

Lemma ToLower_text bs : mac_ok bs → ToLower (MACString bs) = MACString bs.
Proof.
  intros [Hb _]. unfold ToLower, MACString. rewrite String.list_ascii_of_string_of_list_ascii. by rewrite lower_text.
Qed.

(** What a claim denotes: an address, a hardware address or the text itself. *)
Inductive denoted := DenotesAddr (a : Addr) | DenotesMAC (bs : list Z) | DenotesText (s : string).
Definition denotes (kind : ClaimKind) (value : string) : option denoted :=
  if (kind == ClaimIPv4) || (kind == ClaimIPv6) then a ← ParseAddr value; Some (DenotesAddr a)
  else if kind == ClaimMAC then bs ← ParseMAC value; Some (DenotesMAC bs)
  else Some (DenotesText value).

Lemma normalize_fixed kind v w :
  NormalizeClaimValue kind v = Ok w → NormalizeClaimValue kind w = Ok w ∧ denotes kind w = denotes kind v.
Proof.
  unfold NormalizeClaimValue, denotes.
  destruct (kind == ClaimIPv4) eqn:E4; [|destruct (kind == ClaimIPv6) eqn:E6; [|destruct (kind == ClaimMAC) eqn:Em]]; cbn [orb].
  - destruct (ParseAddr v) as [a|] eqn:Ea; [|done]. intros [H4 [= <-]]%guard_ok. rewrite (ParseAddr_canonical _ _ Ea). by rewrite H4.
  - destruct (ParseAddr v) as [a|] eqn:Ea; [|done]. intros [H6 [= <-]]%guard_ok. rewrite (ParseAddr_canonical _ _ Ea). by rewrite H6.
  - destruct (ParseMAC v) as [bs|] eqn:Eb; [|done]. apply ParseMAC_ok in Eb. intros [= <-].
    by rewrite ToLower_text, ParseMAC_text, ToLower_text.
  - destruct (Manifest.member_of _ _); [|done]. intros [Hv [= ->]]%Manifest.check_ok. by rewrite Hv.
Qed.

(** Two claims about the same address have one canonical form. *)
Lemma normalize_same kind v v' w w' :
  NormalizeClaimValue kind v = Ok w → NormalizeClaimValue kind v' = Ok w' → denotes kind v = denotes kind v' ↔ w = w'.
Proof.
  intros H H'. split; [|intros <-; destruct (normalize_fixed _ _ _ H) as [_ <-]; by destruct (normalize_fixed _ _ _ H') as [_ <-]].
  revert H H'. unfold NormalizeClaimValue, denotes.
  destruct (kind == ClaimIPv4) eqn:E4; [|destruct (kind == ClaimIPv6) eqn:E6; [|destruct (kind == ClaimMAC) eqn:Em]]; cbn [orb].
  - destruct (ParseAddr v), (ParseAddr v'); try done. intros [_ [= <-]]%guard_ok [_ [= <-]]%guard_ok. by intros [= ->].
  - destruct (ParseAddr v), (ParseAddr v'); try done. intros [_ [= <-]]%guard_ok [_ [= <-]]%guard_ok. by intros [= ->].
  - destruct (ParseMAC v), (ParseMAC v'); try done. intros [= <-] [= <-]. by intros [= ->].
  - destruct (Manifest.member_of _ _); [|done]. intros [_ [= ->]]%Manifest.check_ok [_ [= ->]]%Manifest.check_ok. by intros [= ->].
Qed.

(** The canonical form of an identity claim is a normal form: normalising it again gives
    the same text, it denotes the same IPv4, IPv6 or hardware address as the original, and
    two claims of a kind have the same canonical form exactly when they denote the same. *)
Theorem normalize_canonical kind v v' w w' :
  NormalizeClaimValue kind v = Ok w → NormalizeClaimValue kind v' = Ok w' →
  NormalizeClaimValue kind w = Ok w ∧ denotes kind w = denotes kind v ∧ (denotes kind v = denotes kind v' ↔ w = w').
Proof.
  intros H H'. destruct (normalize_fixed _ _ _ H) as [Hw Hd]. split; [exact Hw|]. split; [exact Hd|].
  by apply (normalize_same kind v v' w w').
Qed.

Lemma normalize_canonical_witness :
  NormalizeClaimValue ClaimIPv6 "2001:0DB8:0:0:0::1" = Ok "2001:db8::1" ∧
  NormalizeClaimValue ClaimMAC "AABB.CCDD.EEFF" = Ok "aa:bb:cc:dd:ee:ff" ∧
  denotes ClaimIPv6 "2001:0DB8:0:0:0::1" = denotes ClaimIPv6 "2001:db8::0:1".
Proof.
  assert (H : NormalizeClaimValue ClaimIPv6 "2001:0DB8:0:0:0::1" = Ok "2001:db8::1") by (vm_compute; reflexivity).
  assert (H' : NormalizeClaimValue ClaimIPv6 "2001:db8::0:1" = Ok "2001:db8::1") by (vm_compute; reflexivity).
  split; [exact H|]. split; [vm_compute; reflexivity|].
  apply (proj2 (proj2 (normalize_canonical ClaimIPv6 _ _ _ _ H H'))). reflexivity.
Defined.

(** A confidence that is not a number passes. *)
Lemma confidence_nan : validateConfidence (Some S754_nan) = Ok tt.
Proof. reflexivity. Qed.

End Domain.
