(* ===== verification/Incident.v ===== *)
(** * Incident correlation

    [incident/correlate.go]: findings that concern one user-confirmed device in one window of
    fifteen minutes become one incident.  SHA-256 (the identifier of an incident is the
    hexadecimal text of half a digest) and the RFC 3339 text of an instant are parameters, and
    so is the order in which a map is ranged over, which Go leaves open. *)

From Stdlib Require Import Ascii SpecFloat.
From S2P Require Import Prelude Regex GoTime GoFloat Manifest GoJSON Domain.

Module Incident.
Import Domain.

Definition MaxFindings : Z := 128.
Definition Window : Duration := 15 * Minute.

(** [^[a-z][a-z0-9._:-]{0,127}$] and [^[a-z][a-z0-9-]{0,63}$] *)
Definition token : regex := Domain.idPattern.
Definition source : regex := RCat (RSet is_lower) (RRep (RSet (λ c, lower_digit c || one_of "-" c)) 0 63).

Record Signal := mkSignal { sFinding : Finding; DeviceID : string; IdentityAuthority : LinkAuthority; SourceFamily : string }.

Record Incident := mkIncident {
  inID : string; ScopeID : string; inDeviceID : string; WindowStart : Time; WindowEnd : Time; inSeverity : string;
  inConfidence : option float64; FindingIDs : list string; EvidenceObservationIDs : list string; SourceFamilies : list string;
  CorrelationReason : string;
}.
Record group := mkGroup { incident : Incident; unknown : bool }.

Definition severityRank (value : string) : Z :=
  if value == "informational" then 1 else if value == "low" then 2 else if value == "medium" then 3
  else if value == "high" then 4 else if value == "critical" then 5 else 0.

Definition correlatableCategory (category : string) : bool :=
  Manifest.member_of ["new-device"; "suspicious-connection"; "tripwire"] category.

(** [reflect.DeepEqual] of pointers to numbers: the numbers compare equal (the same pointer
    to a value that is not a number would count as equal too). *)
Definition same_confidence (a b : option float64) : bool :=
  match a, b with
  | Some x, Some y => float_eqb x y
  | None, None => true
  | _, _ => false
  end.
#[local] Instance Time_eq_dec : EqDecision Time.
Proof. solve_decision. Defined.
Definition sameFinding (a b : Finding) : bool :=
  (fiID a == fiID b) && (fiScopeID a == fiScopeID b) && (DetectorID a == DetectorID b) && (DetectorVersion a == DetectorVersion b) &&
  (Category a == Category b) && (Severity a == Severity b) && same_confidence (fiConfidence a) (fiConfidence b) &&
  (fiObservedAt a == fiObservedAt b) && (fiCreatedAt a == fiCreatedAt b) && (fiSchemaVersion a =? fiSchemaVersion b) &&
  (fiPayload a == fiPayload b) && (fiEvidence a == fiEvidence b) && (fiRetention a == fiRetention b).
Definition sameSignal (a b : Signal) : bool :=
  if (DeviceID a != DeviceID b) || (IdentityAuthority a != IdentityAuthority b) || (SourceFamily a != SourceFamily b) then false
  else sameFinding (sFinding a) (sFinding b).

(** [slices.Compact] *)
Fixpoint Compact (l : list string) : list string :=
  match l with
  | a :: ((b :: _) as rest) => if a == b then Compact rest else a :: Compact rest
  | _ => l
  end.

Definition Sort (l : list string) : list string := merge_sort String.le l.

(** [ErrInput], and the error that wraps it for two signals with one finding ID. *)
Inductive correlate_err := ErrInput | ErrConflict.

Section Correlate.
Context (lower_or_digit : Z → bool) (digest : string → string) (rfc3339 : Time → string).

Definition validateSignal (input : Signal) : result correlate_err unit :=
  guard? negb (is_ok (ValidateFinding lower_or_digit (sFinding input))) || negb (MatchString source (SourceFamily input)) ||
         (severityRank (Severity (sFinding input)) =? 0)
  else ErrInput in
  if DeviceID input == "" then guard? IdentityAuthority input != "" else ErrInput in Ok tt
  else
    guard? negb (MatchString token (DeviceID input)) ||
           ((IdentityAuthority input != LinkUser) && (IdentityAuthority input != LinkInferred))
    else ErrInput in
    Ok tt.

Definition start_of (s : Signal) : Time := Truncate (UTC (fiObservedAt (sFinding s))) Window.
Definition device_of (s : Signal) : string := if IdentityAuthority s == LinkUser then DeviceID s else "".

Definition nul : ascii := ascii_of_N 0.

(** The signals of one key make one incident. *)
Definition shared (s : Signal) : bool := (IdentityAuthority s == LinkUser) && correlatableCategory (Category (sFinding s)).
Definition chars (s : string) : list ascii := String.list_ascii_of_string s.
Definition key_of (s : Signal) : string :=
  String.string_of_list_ascii
    (if shared s
     then chars "device" ++ nul :: chars (fiScopeID (sFinding s)) ++ nul :: chars (device_of s) ++ nul :: chars (rfc3339 (start_of s))
     else chars "finding" ++ nul :: chars (fiID (sFinding s))).

Definition open (s : Signal) : group :=
  mkGroup (mkIncident ("incident." +:+ digest (key_of s)) (fiScopeID (sFinding s)) (device_of s) (start_of s)
             (Add (start_of s) Window) (Severity (sFinding s)) None [] [] [] "single-finding") false.

(** A finding joins its group. *)
Definition join (g : group) (s : Signal) : group :=
  let f := sFinding s in
  let i := incident g in
  let severity := if severityRank (inSeverity i) <? severityRank (Severity f) then Severity f else inSeverity i in
  let confidence := match fiConfidence f with
                    | None => inConfidence i
                    | Some c => match inConfidence i with
                                | None => Some c
                                | Some best => if float_ltb best c then Some c else Some best
                                end
                    end in
  mkGroup (mkIncident (inID i) (ScopeID i) (inDeviceID i) (WindowStart i) (WindowEnd i) severity confidence
             (FindingIDs i ++ [fiID f]) (EvidenceObservationIDs i ++ default [] (fiEvidence f))
             (SourceFamilies i ++ [SourceFamily s]) (CorrelationReason i))
    (unknown g || negb (is_some (fiConfidence f))).

Definition correlate_step (st : gmap string Signal * gmap string group) (input : Signal)
  : result correlate_err (gmap string Signal * gmap string group) :=
  let '(seen, groups) := st in
  check? validateSignal input in
  match seen !! fiID (sFinding input) with
  | Some previous => guard? negb (sameSignal previous input) else ErrConflict in Ok st
  | None =>
      let key := key_of input in
      Ok (<[fiID (sFinding input) := input]> seen,
          <[key := join (default (open input) (groups !! key)) input]> groups)
  end.

Definition finish (g : group) : Incident :=
  let i := incident g in
  mkIncident (inID i) (ScopeID i) (inDeviceID i) (WindowStart i) (WindowEnd i) (inSeverity i)
    (if unknown g then None else inConfidence i) (Sort (FindingIDs i)) (Compact (Sort (EvidenceObservationIDs i)))
    (Compact (Sort (SourceFamilies i)))
    (if 1 <? llen (FindingIDs i) then "same-user-confirmed-device-and-utc-window" else CorrelationReason i).

(** The order of the result. *)
Definition less (a b : Incident) : bool :=
  if Equal (WindowStart a) (WindowStart b) then string_ltb (inID a) (inID b) else Before (WindowStart a) (WindowStart b).
Definition not_after (a b : Incident) : Prop := less b a = false.
#[local] Instance not_after_dec : RelDecision not_after := λ a b, bool_eq_dec (less b a) false.

(** [range_] lists the groups in some order. *)
Definition Correlate (range_ : gmap string group → list group) (inputs : list Signal) : result correlate_err (list Incident) :=
  guard? MaxFindings <? llen inputs else ErrInput in
  let? st := for_each correlate_step inputs (∅, ∅) in
  Ok (merge_sort not_after (map finish (range_ st.2))).

(** ** Confidences in order

    A confidence that is a number and not a negative zero: then the comparison of numbers is
    a total order on values. *)
Definition plain (x : float64) : Prop :=
  match x with S754_zero false | S754_finite false _ _ => True | _ => False end.

Lemma plain_total x y : plain x → plain y → float_ltb x y = false → float_ltb y x = false → x = y.
Proof.
  destruct x as [[]|[]| |[] m e], y as [[]|[]| |[] m' e']; try done. intros _ _. unfold float_ltb, SFltb, SFcompare.
  destruct (Z.compare_spec e e') as [->|?|?]; [|done|rewrite (proj2 (Z.compare_lt_iff e' e)) by lia; done].
  rewrite Z.compare_refl. change (Pos.compare_cont Eq m m') with (m ?= m')%positive. change (Pos.compare_cont Eq m' m) with (m' ?= m)%positive.
  destruct (Pos.compare_spec m m') as [->|?|?]; [done|done|]. rewrite (proj2 (Pos.compare_lt_iff m' m)) by done. done.
Qed.

Lemma plain_trans x r y : plain x → plain r → plain y → float_ltb r x = false → float_ltb r y = true → float_ltb y x = false.
Proof.
  destruct x as [[]|[]| |[] m e], r as [[]|[]| |[] m1 e1], y as [[]|[]| |[] m2 e2]; try done. intros _ _ _.
  unfold float_ltb, SFltb, SFcompare. change (Pos.compare_cont Eq) with Pos.compare.
  destruct (Z.compare_spec e1 e), (Z.compare_spec e1 e2), (Z.compare_spec e2 e); try done; try lia;
    destruct (Pos.compare_spec m1 m), (Pos.compare_spec m1 m2), (Pos.compare_spec m2 m); try done; try lia.
Qed.

Lemma plain_eqb x y : plain x → plain y → float_eqb x y = true ↔ x = y.
Proof.
  intros Hx Hy. split.
  - intros H. apply plain_total; try done; revert H; unfold float_eqb, SFeqb, float_ltb, SFltb.
    + by destruct (SFcompare x y) as [[]|].
    + destruct x as [[]|[]| |[] m e], y as [[]|[]| |[] m' e']; try done. unfold SFcompare. change (Pos.compare_cont Eq) with Pos.compare.
      destruct (Z.compare_spec e e') as [->|?|?]; try done. rewrite Z.compare_refl.
      destruct (Pos.compare_spec m m') as [->|?|?]; try done. by rewrite Pos.compare_refl.
  - intros ->. destruct y as [[]|[]| |[] m e]; try done. unfold float_eqb, SFeqb, SFcompare.
    change (Pos.compare_cont Eq) with Pos.compare. by rewrite Z.compare_refl, Pos.compare_refl.
Qed.

Definition plain_signal (s : Signal) : Prop :=
  match fiConfidence (sFinding s) with Some c => plain c | None => True end.

Lemma same_signal_eq a b : plain_signal a → plain_signal b → sameSignal a b = true ↔ a = b.
Proof.
  intros Ha Hb. unfold sameSignal, sameFinding, plain_signal in *. destruct a as [fa da ia sa], b as [fb db ib sb]. simpl in *.
  assert (Hc : same_confidence (fiConfidence fa) (fiConfidence fb) = true ↔ fiConfidence fa = fiConfidence fb).
  { unfold same_confidence. destruct (fiConfidence fa), (fiConfidence fb); try naive_solver. rewrite plain_eqb by done. naive_solver. }
  rewrite if_false_iff, !orb_false_iff, !negb_false_iff, !andb_true_iff, !bool_decide_eq_true, Z.eqb_eq, Hc.
  destruct fa, fb. simpl. split; [intros [[[-> ->] ->] ?]; naive_solver congruence|]. intros [=]. subst. naive_solver.
Qed.

(** ** What a group gathers *)

Definition confidences (l : list Signal) : list float64 := omap (λ s, fiConfidence (sFinding s)) l.

Record gathers (l : list Signal) (g : group) : Prop := {
  g_first : ∃ s, s ∈ l ∧ inID (incident g) = "incident." +:+ digest (key_of s) ∧ ScopeID (incident g) = fiScopeID (sFinding s) ∧
              inDeviceID (incident g) = device_of s ∧ WindowStart (incident g) = start_of s ∧
              WindowEnd (incident g) = Add (start_of s) Window ∧ CorrelationReason (incident g) = "single-finding";
  g_ids : FindingIDs (incident g) = map (λ s, fiID (sFinding s)) l;
  g_evidence : EvidenceObservationIDs (incident g) = flat_map (λ s, default [] (fiEvidence (sFinding s))) l;
  g_families : SourceFamilies (incident g) = map SourceFamily l;
  g_severity : inSeverity (incident g) ∈ map (λ s, Severity (sFinding s)) l ∧
               ∀ s, s ∈ l → severityRank (Severity (sFinding s)) <= severityRank (inSeverity (incident g));
  g_confidence : match inConfidence (incident g) with
                 | None => confidences l = []
                 | Some c => c ∈ confidences l ∧ ∀ d, d ∈ confidences l → float_ltb c d = false
                 end;
  g_unknown : unknown g = existsb (λ s, negb (is_some (fiConfidence (sFinding s)))) l;
}.

Lemma confidences_snoc l s :
  confidences (l ++ [s]) = confidences l ++ match fiConfidence (sFinding s) with Some c => [c] | None => [] end.
Proof. unfold confidences. rewrite omap_app. simpl. by destruct (fiConfidence (sFinding s)). Qed.

Lemma plain_confidences l : Forall plain_signal l → Forall plain (confidences l).
Proof.
  intros H. apply Forall_forall. intros c Hc. apply list_elem_of_omap in Hc as (s & Hs & Hc). rewrite Forall_forall in H.
  specialize (H _ Hs). unfold plain_signal in H. by rewrite Hc in H.
Qed.

Lemma ltb_irrefl c : plain c → float_ltb c c = false.
Proof.
  destruct c as [[]|[]| |[] m e]; try done. intros _. unfold float_ltb, SFltb, SFcompare. change (Pos.compare_cont Eq) with Pos.compare.
  by rewrite Z.compare_refl, Pos.compare_refl.
Qed.

Lemma gathers_open s : plain_signal s → gathers [s] (join (open s) s).
Proof.
  intros Hp. constructor; cbn -[severityRank is_some].
  - exists s. split; [by apply list_elem_of_singleton|done].
  - done.
  - by rewrite app_nil_r.
  - done.
  - rewrite (Z.ltb_irrefl _). split; [by left|]. intros t ->%list_elem_of_singleton. lia.
  - destruct (fiConfidence (sFinding s)) as [c|] eqn:E; [|done].
    split; [by left|]. intros d ->%list_elem_of_singleton. apply ltb_irrefl.
    unfold plain_signal in Hp. by rewrite E in Hp.
  - by rewrite orb_false_r.
Qed.

Lemma gathers_join l g s :
  Forall plain_signal (l ++ [s]) → gathers l g → gathers (l ++ [s]) (join g s).
Proof.
  intros Hp Hg. destruct Hg as [(t & Ht & Hf) Hids Hev Hfam [Hsev Hmax] Hconf Hun]. constructor; cbn -[severityRank is_some confidences].
  - exists t. split; [apply elem_of_app; by left|done].
  - by rewrite Hids, map_app.
  - rewrite Hev, flat_map_app. simpl. by rewrite app_nil_r.
  - by rewrite Hfam, map_app.
  - rewrite map_app, elem_of_app. destruct (Z.ltb_spec (severityRank (inSeverity (incident g))) (severityRank (Severity (sFinding s)))) as [Hlt|Hge].
    + split; [right; by left|]. intros u [Hu| ->%list_elem_of_singleton]%elem_of_app; [|lia]. specialize (Hmax u Hu). lia.
    + split; [by left|]. intros u [Hu| ->%list_elem_of_singleton]%elem_of_app; [auto|lia].
  - rewrite confidences_snoc. apply plain_confidences in Hp. rewrite confidences_snoc in Hp.
    destruct (fiConfidence (sFinding s)) as [c|]; [|by rewrite app_nil_r].
    apply Forall_app in Hp as [Hpl Hpc]. rewrite Forall_singleton in Hpc. rewrite Forall_forall in Hpl.
    destruct (inConfidence (incident g)) as [best|].
    + destruct Hconf as [Hin Hbest]. destruct (float_ltb best c) eqn:E.
      * split; [apply elem_of_app; right; by left|]. intros d [Hd| ->%list_elem_of_singleton]%elem_of_app; [|by apply ltb_irrefl].
        apply (plain_trans d best c); auto.
      * split; [apply elem_of_app; by left|]. intros d [Hd| ->%list_elem_of_singleton]%elem_of_app; auto.
    + rewrite Hconf. split; [by left|]. intros d ->%list_elem_of_singleton. by apply ltb_irrefl.
  - rewrite Hun, existsb_app. simpl. by rewrite orb_false_r.
Qed.

(** ** The loop *)

Definition valid (s : Signal) : Prop := validateSignal s = Ok tt.
Definition consistent (l : list Signal) : Prop := ∀ s t, s ∈ l → t ∈ l → fiID (sFinding s) = fiID (sFinding t) → s = t.

(** The members of a key among the signals handled so far. *)
Definition members (done_ : list Signal) (k : string) (l : list Signal) : Prop :=
  l ≠ [] ∧ NoDup l ∧ ∀ s, s ∈ l ↔ s ∈ done_ ∧ key_of s = k.

Record handled (done_ : list Signal) (st : gmap string Signal * gmap string group) : Prop := {
  h_valid : Forall valid done_;
  h_consistent : consistent done_;
  h_seen : ∀ id s, st.1 !! id = Some s ↔ s ∈ done_ ∧ fiID (sFinding s) = id;
  h_groups : ∀ k g, st.2 !! k = Some g → ∃ l, members done_ k l ∧ gathers l g;
  h_none : ∀ k, st.2 !! k = None → ∀ s, s ∈ done_ → key_of s ≠ k;
}.

Lemma handled_nil : handled [] (∅, ∅).
Proof. constructor; simpl; [constructor|by intros s t Hs%not_elem_of_nil|set_solver|set_solver|set_solver]. Qed.

(** A signal that was handled before adds nothing. *)
Lemma handled_again done_ st s : handled done_ st → s ∈ done_ → handled (done_ ++ [s]) st.
Proof.
  intros H Hs. assert (Hin : ∀ t, t ∈ done_ ++ [s] ↔ t ∈ done_).
  { intros t. rewrite elem_of_app, list_elem_of_singleton. naive_solver. }
  constructor.
  - apply Forall_app. split; [apply H|]. apply Forall_singleton. pose proof (h_valid _ _ H) as Hv. rewrite Forall_forall in Hv. auto.
  - intros t u. rewrite !Hin. apply H.
  - intros id t. rewrite Hin. apply H.
  - intros k g Hg. destruct (h_groups _ _ H _ _ Hg) as (l & (Hne & Hn & Hl) & Hga). exists l. split; [|done]. split_and!; [done..|].
    intros t. by rewrite Hin, Hl.
  - intros k Hk t. rewrite Hin. by apply (h_none _ _ H).
Qed.

Lemma handled_new done_ seen groups s :
  handled done_ (seen, groups) → Forall plain_signal (done_ ++ [s]) → valid s → seen !! fiID (sFinding s) = None →
  handled (done_ ++ [s])
    (<[fiID (sFinding s) := s]> seen, <[key_of s := join (default (open s) (groups !! key_of s)) s]> groups).
Proof.
  intros H Hp Hv Hnew. assert (Hfresh : ∀ t, t ∈ done_ → fiID (sFinding t) ≠ fiID (sFinding s)).
  { intros t Ht E. assert (Hs : seen !! fiID (sFinding s) = Some t) by (apply (h_seen _ _ H); done). congruence. }
  assert (Hs : s ∉ done_) by (intros Hs; by apply (Hfresh s Hs)). constructor; simpl.
  - apply Forall_app. split; [apply H|by apply Forall_singleton].
  - intros t u. rewrite !elem_of_app, !list_elem_of_singleton. intros [Ht| ->] [Hu| ->] E; [by apply (h_consistent _ _ H)| | |done].
    + by apply Hfresh in E.
    + by destruct (Hfresh u Hu).
  - intros id t. rewrite elem_of_app, list_elem_of_singleton. destruct (decide (id = fiID (sFinding s))) as [->|Hne].
    + rewrite lookup_insert_eq. split; [intros [= <-]; auto|]. intros [[Ht| ->] E]; [by apply Hfresh in E|done].
    + rewrite lookup_insert_ne by done. rewrite (h_seen _ _ H id t). simpl. naive_solver.
  - intros k g. destruct (decide (k = key_of s)) as [->|Hne].
    + rewrite lookup_insert_eq. intros [= <-]. destruct (groups !! key_of s) as [g|] eqn:Eg; simpl.
      * destruct (h_groups _ _ H _ _ Eg) as (l & (Hl & Hn & Hm) & Hg). exists (l ++ [s]). split.
        -- split_and!; [by destruct l| |].
           ++ apply NoDup_app. split_and!; [done| |apply NoDup_singleton]. intros t Ht ->%list_elem_of_singleton. apply Hm in Ht as [? _]. done.
           ++ intros t. rewrite !elem_of_app, !list_elem_of_singleton, Hm. naive_solver.
        -- apply gathers_join; [|done]. apply Forall_forall. intros t. rewrite elem_of_app, list_elem_of_singleton, Hm.
           rewrite Forall_app, Forall_singleton, Forall_forall in Hp. naive_solver.
      * exists [s]. split; [|apply gathers_open; rewrite Forall_app, Forall_singleton in Hp; by destruct Hp].
        split_and!; [done|apply NoDup_singleton|]. intros t. rewrite elem_of_app, !list_elem_of_singleton. split; [naive_solver|].
        intros [[Ht| ->] Hk]; [|done]. by destruct (h_none _ _ H _ Eg t Ht).
    + rewrite lookup_insert_ne by done. intros Hg. destruct (h_groups _ _ H _ _ Hg) as (l & (Hl & Hn & Hm) & Hga). exists l.
      split; [|done]. split_and!; [done..|]. intros t. rewrite elem_of_app, list_elem_of_singleton, Hm. naive_solver.
  - intros k. destruct (decide (k = key_of s)) as [->|Hne]; [by rewrite lookup_insert_eq|]. rewrite lookup_insert_ne by done.
    intros Hk t [Ht| ->%list_elem_of_singleton]%elem_of_app; [by apply (h_none _ _ H)|done].
Qed.

Lemma step_handled done_ st s st' :
  handled done_ st → Forall plain_signal (done_ ++ [s]) → correlate_step st s = Ok st' → handled (done_ ++ [s]) st'.
Proof.
  destruct st as [seen groups]. intros H Hp. unfold correlate_step. rewrite res_bind_ok. intros ([] & Hv & Hst).
  destruct (seen !! _) as [t|] eqn:E; [|injection Hst as <-; by apply handled_new].
  rewrite guard_ok, negb_false_iff in Hst. destruct Hst as [Hsame [= <-]]. apply (h_seen _ _ H) in E as [Ht _].
  rewrite Forall_app, Forall_singleton, Forall_forall in Hp. rewrite same_signal_eq in Hsame by naive_solver. subst t. by apply handled_again.
Qed.

Lemma loop_handled inputs st :
  Forall plain_signal inputs → for_each correlate_step inputs (∅, ∅) = Ok st → handled inputs st.
Proof.
  intros Hp Hl. revert Hp. revert Hl. apply (for_each_inv _ (λ l st, Forall plain_signal l → handled l st)); [intros _; apply handled_nil|].
  intros l s t t' IH Hb Hp. eapply step_handled; [|done..]. apply IH. by rewrite Forall_app in Hp; destruct Hp.
Qed.

Lemma loop_total inputs :
  Forall plain_signal inputs → Forall valid inputs → consistent inputs →
  ∃ st, for_each correlate_step inputs (∅, ∅) = Ok st ∧ handled inputs st.
Proof.
  intros Hp Hv Hc. apply for_each_total; [apply handled_nil|]. intros seen s rest [se gr] -> H.
  assert (Hps : Forall plain_signal (seen ++ [s])) by (rewrite !Forall_app, Forall_cons in *; naive_solver).
  assert (∃ st', correlate_step (se, gr) s = Ok st') as [st' Hst']; [|exists st'; split; [done|by eapply step_handled]].
  unfold correlate_step. rewrite Forall_app, Forall_cons in Hv. destruct Hv as (_ & Hv & _). unfold valid in Hv. rewrite Hv. simpl.
  destruct (se !! _) as [t|] eqn:E; [|eauto]. apply (h_seen _ _ H) in E as [Ht Hid]. assert (t = s) as -> by (apply Hc; set_solver).
  rewrite Forall_app, Forall_singleton in Hps. rewrite (proj2 (same_signal_eq s s (proj2 Hps) (proj2 Hps))) by done. simpl. eauto.
Qed.

(** The loop accepts exactly valid signals of which no two share an identifier. *)
Lemma loop_iff inputs :
  Forall plain_signal inputs →
  is_ok (for_each correlate_step inputs (∅, ∅)) = true ↔ Forall valid inputs ∧ consistent inputs.
Proof.
  intros Hp. rewrite is_ok_true. split.
  - intros [st H%loop_handled]; [|done]. split; apply H.
  - intros [Hv Hc]. destruct (loop_total inputs Hp Hv Hc) as (st & -> & _). eauto.
Qed.

(** ** Keys *)

Lemma nul_split u v u' v' : nul ∉ u → nul ∉ u' → u ++ nul :: v = u' ++ nul :: v' → u = u' ∧ v = v'.
Proof.
  revert u'. induction u as [|c u IH]; intros [|c' u'] Hu Hu' E; simplify_eq/=; [done|set_solver|set_solver|].
  destruct (IH u') as [-> ->]; [set_solver|set_solver|done|done].
Qed.

Lemma id_plain s : MatchString Domain.idPattern s = true → nul ∉ chars s.
Proof.
  unfold Domain.idPattern. rewrite matches_spec. unfold chars. generalize (String.list_ascii_of_string s). intros w.
  intros (u & v & -> & (c & -> & Hc) & Hv). rewrite denote_rep_set, Forall_forall in Hv. destruct Hv as [_ Hv]. intros Hin.
  rewrite elem_of_app, list_elem_of_singleton in Hin. destruct Hin as [<-|Hin]; [done|]. by specialize (Hv _ Hin).
Qed.

Lemma chars_inj a b : chars a = chars b → a = b.
Proof. intros E. apply (f_equal String.string_of_list_ascii) in E. unfold chars in E. by rewrite !String.string_of_list_ascii_of_string in E. Qed.

Lemma valid_parts s :
  valid s → nul ∉ chars (fiID (sFinding s)) ∧ nul ∉ chars (fiScopeID (sFinding s)) ∧ nul ∉ chars (device_of s) ∧
            severityRank (Severity (sFinding s)) ≠ 0.
Proof.
  unfold valid, validateSignal. rewrite guard_ok, !orb_false_iff, !negb_false_iff, Z.eqb_neq. intros [[[Hf Hs] Hr] Hd].
  apply is_ok_true in Hf as [[] Hf]. unfold ValidateFinding, validateID in Hf. rewrite !res_bind_ok in Hf.
  destruct Hf as ([] & Hid & Hf). rewrite guard_ok, negb_false_iff in Hid.
  rewrite res_bind_ok in Hf. destruct Hf as ([] & Hsc & _). rewrite guard_ok, negb_false_iff in Hsc.
  split_and!; [apply id_plain; naive_solver..| |done]. unfold device_of. destruct (IdentityAuthority s == LinkUser); [|apply not_elem_of_nil].
  destruct (decide (DeviceID s = "")) as [->|He]; [apply not_elem_of_nil|]. rewrite bool_decide_false in Hd by done. rewrite guard_ok, orb_false_iff, negb_false_iff in Hd.
  apply id_plain. naive_solver.
Qed.

(** A key tells what it was made of. *)
Lemma key_inv s t :
  valid s → valid t → key_of s = key_of t →
  (shared s = true ∧ shared t = true ∧ fiScopeID (sFinding s) = fiScopeID (sFinding t) ∧ device_of s = device_of t ∧
   rfc3339 (start_of s) = rfc3339 (start_of t)) ∨
  (shared s = false ∧ shared t = false ∧ fiID (sFinding s) = fiID (sFinding t)).
Proof.
  intros (_ & Hss & Hds & _)%valid_parts (_ & Hst & Hdt & _)%valid_parts E. unfold key_of in E.
  apply (f_equal String.list_ascii_of_string) in E. rewrite !String.list_ascii_of_string_of_list_ascii in E.
  destruct (shared s), (shared t); [left| | |right].
  - apply app_inv_head in E. injection E as E. apply nul_split in E as [E1 E]; [|done..]. apply nul_split in E as [E2 E3]; [|done..].
    split_and!; try done; by apply chars_inj.
  - discriminate E.
  - discriminate E.
  - apply app_inv_head in E. injection E as E. split_and!; try done. by apply chars_inj.
Qed.

Lemma key_shared s t :
  shared s = true → shared t = true → fiScopeID (sFinding s) = fiScopeID (sFinding t) → device_of s = device_of t →
  start_of s = start_of t → key_of s = key_of t.
Proof. unfold key_of. by intros -> -> -> -> ->. Qed.

Lemma key_single s t : shared s = false → shared t = false → fiID (sFinding s) = fiID (sFinding t) → key_of s = key_of t.
Proof. unfold key_of. by intros -> -> ->. Qed.

(** ** What is reported of a group does not depend on the order of its members *)

Definition alike (l : list Signal) : Prop :=
  ∀ s t, s ∈ l → t ∈ l → key_of s = key_of t ∧ fiScopeID (sFinding s) = fiScopeID (sFinding t) ∧
                          device_of s = device_of t ∧ start_of s = start_of t.

Lemma rank_inj a b : severityRank a ≠ 0 → severityRank a = severityRank b → a = b.
Proof. unfold severityRank. repeat case_bool_decide; subst; done || lia. Qed.

Lemma existsb_perm {A} (p : A → bool) l l' : l ≡ₚ l' → existsb p l = existsb p l'.
Proof.
  intros H. apply eq_true_iff_eq. rewrite !existsb_true_iff. by setoid_rewrite H.
Qed.

Lemma best_confidence l l' g g' :
  l ≡ₚ l' → Forall plain_signal l → gathers l g → gathers l' g' → inConfidence (incident g) = inConfidence (incident g').
Proof.
  intros H Hp Hg Hg'. assert (Hc : confidences l ≡ₚ confidences l') by (unfold confidences; by rewrite H).
  apply plain_confidences in Hp. rewrite Forall_forall in Hp.
  pose proof (g_confidence _ _ Hg) as Hb. pose proof (g_confidence _ _ Hg') as Hb'.
  destruct (inConfidence (incident g)) as [c|], (inConfidence (incident g')) as [c'|]; [| | |done].
  - f_equal. destruct Hb as [Hin Hmax], Hb' as [Hin' Hmax']. setoid_rewrite <- Hc in Hin'. setoid_rewrite <- Hc in Hmax'.
    apply plain_total; auto.
  - rewrite Hb' in Hc. apply Permutation_nil_r in Hc. rewrite Hc in Hb. destruct Hb as [Hb _]. by apply not_elem_of_nil in Hb.
  - rewrite Hb in Hc. symmetry in Hc. apply Permutation_nil_r in Hc. rewrite Hc in Hb'. destruct Hb' as [Hb' _]. by apply not_elem_of_nil in Hb'.
Qed.

Lemma top_severity l l' g g' :
  l ≡ₚ l' → Forall valid l → gathers l g → gathers l' g' → inSeverity (incident g) = inSeverity (incident g').
Proof.
  intros H Hv Hg Hg'. rewrite Forall_forall in Hv.
  destruct (g_severity _ _ Hg) as [(s & Es & Hs)%list_elem_of_In%in_map_iff Hmax].
  destruct (g_severity _ _ Hg') as [(t & Et & Ht)%list_elem_of_In%in_map_iff Hmax'].
  rewrite <- list_elem_of_In in Hs, Ht. rewrite <- H in Ht. setoid_rewrite <- H in Hmax'.
  pose proof (Hmax t Ht). pose proof (Hmax' s Hs). rewrite <- Es, <- Et in *. apply rank_inj; [|lia]. by apply valid_parts, Hv.
Qed.

Lemma finish_same l l' g g' :
  l ≡ₚ l' → Forall valid l → Forall plain_signal l → alike l → gathers l g → gathers l' g' → finish g = finish g'.
Proof.
  intros H Hv Hp Ha Hg Hg'.
  destruct (g_first _ _ Hg) as (s & Hs & E1 & E2 & E3 & E4 & E5 & E6). destruct (g_first _ _ Hg') as (t & Ht & F1 & F2 & F3 & F4 & F5 & F6).
  rewrite <- H in Ht. destruct (Ha s t Hs Ht) as (K1 & K2 & K3 & K4). unfold finish.
  rewrite E1, E2, E3, E4, E5, E6, F1, F2, F3, F4, F5, F6, K1, K2, K3, K4, (top_severity l l' g g'), (best_confidence l l' g g') by done.
  rewrite (g_unknown _ _ Hg), (g_unknown _ _ Hg'), (existsb_perm _ l l' H), (g_ids _ _ Hg), (g_ids _ _ Hg'), (g_evidence _ _ Hg),
    (g_evidence _ _ Hg'), (g_families _ _ Hg), (g_families _ _ Hg').
  unfold Sort, llen. rewrite !length_map, (Permutation_length H). f_equal.
  - apply sort_strings_perm. by apply Permutation_map.
  - f_equal. apply sort_strings_perm. by apply Permutation_flat_map.
  - f_equal. apply sort_strings_perm. by apply Permutation_map.
Qed.

(** ** The order of the result *)

Definition in_order (a b : Incident) : Prop :=
  wall (WindowStart a) < wall (WindowStart b) ∨ wall (WindowStart a) = wall (WindowStart b) ∧ String.le (inID a) (inID b).

#[local] Instance in_order_trans : Transitive in_order.
Proof.
  intros a b c [?|[? Hab]] [?|[? Hbc]]; [left; lia|left; lia|left; lia|]. right. split; [lia|]. by transitivity (inID b).
Qed.

Lemma ltb_le a b : string_ltb a b = false → String.le b a.
Proof.
  unfold string_ltb, String.ltb, String.le, String.leb. rewrite (String.compare_antisym b a). by destruct (String.compare a b).
Qed.

Lemma le_antisym a b : String.le a b → String.le b a → a = b.
Proof. intros H H'. by apply (anti_symm String.le). Qed.

Lemma not_after_iff a b : canonical (WindowStart a) → canonical (WindowStart b) → not_after a b → in_order a b.
Proof.
  intros Ha Hb. unfold not_after, less. rewrite (Equal_wall _ _ (or_introl Hb)), (Before_wall _ _ (or_introl Hb)).
  destruct (Z.eqb_spec (wall (WindowStart b)) (wall (WindowStart a))) as [E|E].
  - intros H%ltb_le. right. split; [done|done].
  - intros H%Z.ltb_ge. left. lia.
Qed.

Lemma Equal_sym t u : Equal t u = Equal u t.
Proof. unfold Equal. rewrite (readings_swap t u). destruct (readings t u). simpl. apply Z.eqb_sym. Qed.

#[local] Instance not_after_total : Total not_after.
Proof.
  intros a b. unfold not_after, less. rewrite (Equal_sym (WindowStart b) (WindowStart a)).
  destruct (Equal (WindowStart a) (WindowStart b)).
  - unfold string_ltb, String.ltb. rewrite (String.compare_antisym (inID b) (inID a)). destruct (String.compare (inID a) (inID b)); simpl; auto.
  - destruct (Before (WindowStart b) (WindowStart a)) eqn:E; [|by left]. right. by apply Before_asym.
Qed.

Lemma Sorted_in_order l : Forall (λ i, canonical (WindowStart i)) l → Sorted not_after l → Sorted in_order l.
Proof.
  intros Hc. induction 1 as [|a l Hs IH Hd]; [constructor|]. apply Forall_cons in Hc as [Ha Hl]. constructor; [auto|].
  destruct Hd as [|b l Hab]; constructor. apply Forall_cons in Hl as [Hb _]. by apply not_after_iff.
Qed.

Lemma sorted_result l l' :
  l ≡ₚ l' → Forall (λ i, canonical (WindowStart i)) l → (∀ a b, a ∈ l → b ∈ l → inID a = inID b → a = b) →
  merge_sort not_after l = merge_sort not_after l'.
Proof.
  intros H Hc Hid. apply (Sorted_unique_strong in_order).
  - intros a b Ha Hb. rewrite merge_sort_Permutation in Ha, Hb. rewrite <- H in Hb. intros [?|[? Hab]] [?|[? Hba]]; try lia.
    apply Hid; [done..|]. by apply le_antisym.
  - apply Sorted_in_order; [by rewrite merge_sort_Permutation|apply (Sorted_merge_sort not_after)].
  - apply Sorted_in_order; [by rewrite merge_sort_Permutation, <- H|apply (Sorted_merge_sort not_after)].
  - by rewrite !merge_sort_Permutation.
Qed.

(** ** Correlate *)

(** What the parameters are relied on for: half a SHA-256 digest tells the keys at hand
    apart, and the RFC 3339 text tells the starts of their windows apart. *)
Definition digest_separates (l : list Signal) : Prop :=
  ∀ s t, s ∈ l → t ∈ l → digest (key_of s) = digest (key_of t) → key_of s = key_of t.
Definition rfc3339_separates (l : list Signal) : Prop :=
  ∀ s t, s ∈ l → t ∈ l → rfc3339 (start_of s) = rfc3339 (start_of t) → start_of s = start_of t.
(** Go ranges over a map in any order. *)
Definition ranges (r : gmap string group → list group) : Prop := ∀ m, r m ≡ₚ map snd (map_to_list m).

Lemma members_alike inputs k l :
  Forall valid inputs → consistent inputs → rfc3339_separates inputs → members inputs k l → alike l.
Proof.
  intros Hv Hc Hr (_ & _ & Hl) s t [Hs <-]%Hl [Ht E]%Hl. rewrite Forall_forall in Hv. split; [done|]. symmetry in E.
  destruct (key_inv s t (Hv s Hs) (Hv t Ht) E) as [(_ & _ & Hsc & Hd & Hw)|(_ & _ & Hid)]; [auto|].
  by rewrite (Hc s t Hs Ht Hid).
Qed.

Lemma members_unique done_ done_' k l l' :
  (∀ s, s ∈ done_ ↔ s ∈ done_') → members done_ k l → members done_' k l' → l ≡ₚ l'.
Proof. intros Hd (_ & Hn & Hl) (_ & Hn' & Hl'). apply NoDup_Permutation; [done..|]. intros s. by rewrite Hl, Hl', Hd. Qed.

Lemma members_none done_ done_' k l st :
  (∀ s, s ∈ done_ ↔ s ∈ done_') → members done_ k l → handled done_' st → st.2 !! k = None → False.
Proof.
  intros Hd (Hne & _ & Hl) H Hk. destruct l as [|s l]; [done|]. destruct (proj1 (Hl s)) as [Hs Ek]; [by left|].
  rewrite Hd in Hs. by apply (h_none _ _ H k Hk s Hs).
Qed.

Lemma groups_same inputs inputs' st st' :
  (∀ s, s ∈ inputs ↔ s ∈ inputs') → Forall plain_signal inputs → rfc3339_separates inputs →
  handled inputs st → handled inputs' st' → finish <$> st.2 = finish <$> st'.2.
Proof.
  intros Hs Hp Hr H H'. apply map_eq. intros k. rewrite !lookup_fmap.
  destruct (st.2 !! k) as [g|] eqn:Eg, (st'.2 !! k) as [g'|] eqn:Eg'; [| | |done].
  - destruct (h_groups _ _ H _ _ Eg) as (l & Hl & Hg), (h_groups _ _ H' _ _ Eg') as (l' & Hl' & Hg'). simpl. f_equal.
    assert (Hsub : ∀ P, Forall P inputs → Forall P l).
    { intros P. rewrite !Forall_forall. intros HP s Hin. apply HP. by apply Hl in Hin as [? _]. }
    apply (finish_same l l'); try done; [by eapply members_unique|apply Hsub, H|by apply Hsub|]. eapply members_alike; [apply H|apply H|done|done].
  - destruct (h_groups _ _ H _ _ Eg) as (l & Hl & _). by destruct (members_none _ _ _ _ _ Hs Hl H' Eg').
  - destruct (h_groups _ _ H' _ _ Eg') as (l & Hl & _). edestruct (members_none inputs' inputs) as []; [|done..]. intros s. by rewrite Hs.
Qed.

Lemma group_id done_ st k g :
  handled done_ st → st.2 !! k = Some g →
  inID (incident g) = "incident." +:+ digest k ∧ canonical (WindowStart (incident g)) ∧ ∃ s, s ∈ done_ ∧ key_of s = k.
Proof.
  intros H Hk. destruct (h_groups _ _ H _ _ Hk) as (l & Hl & Hg). destruct (g_first _ _ Hg) as (s & Hs & Eid & _ & _ & Ew & _).
  apply Hl in Hs as [Hs <-]. rewrite Eid, Ew. split_and!; [done|done|eauto].
Qed.

Lemma range_map r m : ranges r → map finish (r m) ≡ₚ map snd (map_to_list (finish <$> m)).
Proof.
  intros Hr. rewrite (Hr m), map_to_list_fmap. change (prod_map id finish <$> ?x) with (map (prod_map id finish) x).
  rewrite !map_map. apply reflexive_eq, map_ext. by intros [].
Qed.

Lemma elem_of_range r m i : ranges r → i ∈ map finish (r m) ↔ ∃ k g, m !! k = Some g ∧ i = finish g.
Proof.
  intros Hr. assert (Hm : ∀ g, g ∈ r m ↔ g ∈ map snd (map_to_list m)) by (intros g; by rewrite (Hr m)).
  rewrite list_elem_of_In, in_map_iff. setoid_rewrite <- list_elem_of_In. setoid_rewrite Hm. clear Hm. setoid_rewrite list_elem_of_In. setoid_rewrite in_map_iff. setoid_rewrite <- list_elem_of_In. split.
  - intros (g & <- & [k g'] & <- & Hm%elem_of_map_to_list). eauto.
  - intros (k & g & Hm & ->). exists g. split; [done|]. exists (k, g). split; [done|]. by apply elem_of_map_to_list.
Qed.

Lemma result_same inputs st r r' m' :
  handled inputs st → digest_separates inputs → ranges r → ranges r' → finish <$> st.2 = finish <$> m' →
  merge_sort not_after (map finish (r st.2)) = merge_sort not_after (map finish (r' m')).
Proof.
  intros H Hd Hr Hr' E. apply sorted_result.
  - by rewrite !range_map, E.
  - apply Forall_forall. intros i (k & g & Hg & ->)%elem_of_range; [|done]. by destruct (group_id _ _ _ _ H Hg) as (_ & ? & _).
  - intros i j (k & g & Hg & ->)%elem_of_range (k' & g' & Hg' & ->)%elem_of_range; [|done..]. simpl. intros Eid.
    destruct (group_id _ _ _ _ H Hg) as (E1 & _ & s & Hs & Ks). destruct (group_id _ _ _ _ H Hg') as (E2 & _ & t & Ht & Kt).
    rewrite E1, E2 in Eid. apply (inj (String.append "incident.")) in Eid. subst k k'. apply Hd in Eid; [|done..]. congruence.
Qed.

Lemma consistent_same l l' : (∀ s, s ∈ l ↔ s ∈ l') → consistent l → consistent l'.
Proof. intros Hs Hc s t. rewrite <- !Hs. apply Hc. Qed.

Lemma Forall_same {A} (P : A → Prop) l l' : (∀ s, s ∈ l ↔ s ∈ l') → Forall P l → Forall P l'.
Proof. intros Hs. rewrite !Forall_forall. intros HP s. rewrite <- Hs. apply HP. Qed.

(** A loop that fails does so at one element, after those before it. *)
Lemma for_each_err {E S A} (body : S → A → result E S) xs : ∀ s e,
  for_each body xs s = Err e → ∃ before x after t, xs = before ++ x :: after ∧ for_each body before s = Ok t ∧ body t x = Err e.
Proof.
  induction xs as [|x xs IH]; intros s e; [done|]. cbn [for_each]. destruct (body s x) as [t|e'] eqn:Eb; simpl.
  - intros (before & y & after & u & -> & Hb & Hy)%IH. exists (x :: before), y, after, u. split_and!; try done. cbn [for_each]. by rewrite Eb.
  - intros [= ->]. by exists [], x, xs, s.
Qed.

(** Why a list of signals is refused. *)
Definition causes (e : correlate_err) (l : list Signal) : Prop :=
  match e with ErrInput => ∃ s, s ∈ l ∧ validateSignal s = Err ErrInput | ErrConflict => ¬ consistent l end.

Lemma validate_err s e : validateSignal s = Err e → e = ErrInput.
Proof. unfold validateSignal. repeat case_match; simpl; try done; by intros [= <-]. Qed.

Lemma loop_err inputs e : Forall plain_signal inputs → for_each correlate_step inputs (∅, ∅) = Err e → causes e inputs.
Proof.
  intros Hp Hl. apply for_each_err in Hl as (done_ & s & rest & [seen groups] & -> & Hd & Hs).
  assert (Hpd : Forall plain_signal done_) by (by apply Forall_app in Hp as [? _]). apply loop_handled in Hd; [|done].
  unfold correlate_step in Hs. destruct (validateSignal s) as [[]|e'] eqn:Ev.
  - simpl in Hs. destruct (seen !! _) as [t|] eqn:Et; [|done]. destruct (sameSignal t s) eqn:Es; [done|]. simpl in Hs. injection Hs as <-.
    apply (h_seen _ _ Hd) in Et as [Ht Hid]. intros Hc. assert (t = s) as -> by (apply Hc; [set_solver|set_solver|done]).
    rewrite Forall_app, Forall_cons in Hp. destruct Hp as (_ & Hps & _). apply not_true_iff_false in Es. apply Es. by apply same_signal_eq.
  - simpl in Hs. injection Hs as <-. apply validate_err in Ev as E. subst e'. exists s. split; [set_solver|done].
Qed.

(** Both lists give the same incidents, or both are refused for a cause they share. *)
Definition same_outcome (l : list Signal) (a b : result correlate_err (list Incident)) : Prop :=
  match a, b with
  | Ok out, Ok out' => out = out' ∧ Forall valid l ∧ consistent l
  | Err e, Err e' => causes e l ∧ causes e' l
  | _, _ => False
  end.

Lemma correlate_same r r' inputs inputs' :
  ranges r → ranges r' → (∀ s, s ∈ inputs ↔ s ∈ inputs') → llen inputs <= MaxFindings → llen inputs' <= MaxFindings →
  Forall plain_signal inputs → digest_separates inputs → rfc3339_separates inputs →
  same_outcome inputs (Correlate r inputs) (Correlate r' inputs').
Proof.
  intros Hr Hr' Hs Hn Hn' Hp Hd Hw. unfold Correlate. rewrite (proj2 (Z.ltb_ge _ _) Hn), (proj2 (Z.ltb_ge _ _) Hn').
  pose proof (Forall_same _ _ _ Hs Hp) as Hp'. assert (Hs' : ∀ s, s ∈ inputs' ↔ s ∈ inputs) by (intros s; by rewrite Hs).
  assert (Hok : is_ok (for_each correlate_step inputs (∅, ∅)) = is_ok (for_each correlate_step inputs' (∅, ∅))).
  { apply eq_true_iff_eq. rewrite !loop_iff by done. split; intros [? ?]; split; eauto using Forall_same, consistent_same. }
  destruct (for_each correlate_step inputs _) as [st|e] eqn:E, (for_each correlate_step inputs' _) as [st'|e'] eqn:E'; try done; simpl.
  - apply loop_handled in E; [|done]. apply loop_handled in E'; [|done]. split_and!; [|apply E..].
    eapply result_same; [done..|]. by apply (groups_same inputs inputs').
  - apply loop_err in E; [|done]. apply loop_err in E'; [|done]. split; [done|].
    destruct e'; [destruct E' as (s & ? & ?); exists s; by rewrite Hs|]. intros Hc. apply E'. by eapply consistent_same.
Qed.

(** C23: Correlate is order-independent and idempotent: for two lists of at most 128 signals with the same
    members, in any order and with any repetitions, and any two orders in which Go may range over the map
    of groups, either both succeed, with the same incidents in the same order, or both fail.  They succeed
    only when every signal is valid and no two signals share a finding ID; the error is [ErrInput] only
    when some signal is invalid and the conflict error only when two signals share an ID (a list with
    both faults may give either, by its order).  This is stated for confidences that are absent or
    numbers other than a negative zero, and for a digest and a time text that tell the keys and windows of
    the signals at hand apart. *)
Theorem correlate_order_independent r r' inputs inputs' :
  ranges r → ranges r' → (∀ s, s ∈ inputs ↔ s ∈ inputs') → llen inputs <= MaxFindings → llen inputs' <= MaxFindings →
  Forall plain_signal inputs → digest_separates inputs → rfc3339_separates inputs →
  same_outcome inputs (Correlate r inputs) (Correlate r' inputs').
Proof. apply correlate_same. Qed.

(** ** What an incident is *)

Definition in_incident (s : Signal) (i : Incident) : Prop := fiID (sFinding s) ∈ FindingIDs i.
(** The only way two findings may meet. *)
Definition connected (s t : Signal) : Prop :=
  IdentityAuthority s = LinkUser ∧ IdentityAuthority t = LinkUser ∧
  correlatableCategory (Category (sFinding s)) = true ∧ correlatableCategory (Category (sFinding t)) = true ∧
  fiScopeID (sFinding s) = fiScopeID (sFinding t) ∧ DeviceID s = DeviceID t ∧ start_of s = start_of t.

Lemma shared_iff s : shared s = true ↔ IdentityAuthority s = LinkUser ∧ correlatableCategory (Category (sFinding s)) = true.
Proof. unfold shared. by rewrite andb_true_iff, bool_decide_eq_true. Qed.

Lemma device_user s : IdentityAuthority s = LinkUser → device_of s = DeviceID s.
Proof. unfold device_of. intros ->. done. Qed.

Lemma key_connected inputs s t :
  Forall valid inputs → consistent inputs → rfc3339_separates inputs → s ∈ inputs → t ∈ inputs →
  key_of s = key_of t ↔ s = t ∨ connected s t.
Proof.
  intros Hv Hc Hr Hs Ht. rewrite Forall_forall in Hv. unfold connected. split.
  - intros [(Hss & Hst & Hsc & Hd & Hw)|(_ & _ & Hid)]%key_inv; [right|left; auto|auto..].
    rewrite shared_iff in Hss, Hst. destruct Hss as [Us Cs], Hst as [Ut Ct]. rewrite !device_user in Hd by done. naive_solver.
  - intros [->|(Us & Ut & Cs & Ct & Hsc & Hd & Hw)]; [done|]. apply key_shared; [by apply shared_iff..|done| |done]. by rewrite !device_user.
Qed.

Lemma in_finish inputs st k g s :
  handled inputs st → st.2 !! k = Some g → s ∈ inputs → in_incident s (finish g) ↔ key_of s = k.
Proof.
  intros H Hk Hs. destruct (h_groups _ _ H _ _ Hk) as (l & (_ & _ & Hl) & Hg). unfold in_incident. simpl. unfold Sort.
  rewrite merge_sort_Permutation, (g_ids _ _ Hg), list_elem_of_In, in_map_iff. setoid_rewrite <- list_elem_of_In. setoid_rewrite Hl. split.
  - intros (t & Hid & Ht & <-). by rewrite (h_consistent _ _ H t s Ht Hs Hid).
  - eauto.
Qed.

Lemma correlate_ok r inputs out :
  Forall plain_signal inputs → Correlate r inputs = Ok out →
  ∃ st, handled inputs st ∧ out = merge_sort not_after (map finish (r st.2)) ∧ llen inputs <= MaxFindings.
Proof.
  intros Hp. unfold Correlate. rewrite guard_ok, res_bind_ok, Z.ltb_ge. intros [Hn (st & Hl & [= <-])].
  exists st. split_and!; [by apply loop_handled|done|done].
Qed.

Lemma window_holds t : wall (Truncate (UTC t) Window) <= wall t < wall (Add (Truncate (UTC t) Window) Window).
Proof. rewrite wall_Add. unfold Truncate. simpl. pose proof (Z.mod_pos_bound (wall t - zero_wall) Window eq_refl). lia. Qed.

(** C24: Correlate groups conservatively: every finding is in an incident; two findings are in the same one
    exactly when both are of a correlatable category, with a user-confirmed identity of the same device of
    the same scope, observed in the same fifteen-minute window, so an inferred device never connects
    anything; and an incident's window holds every one of its findings, none of which is more severe. *)
Theorem correlate_groups r inputs out :
  ranges r → Forall plain_signal inputs → rfc3339_separates inputs → Correlate r inputs = Ok out →
  (∀ s, s ∈ inputs → ∃ i, i ∈ out ∧ in_incident s i) ∧
  (∀ i s t, i ∈ out → s ∈ inputs → t ∈ inputs → in_incident s i → in_incident t i ↔ s = t ∨ connected s t) ∧
  (∀ i s, i ∈ out → s ∈ inputs → in_incident s i →
     ScopeID i = fiScopeID (sFinding s) ∧ inDeviceID i = device_of s ∧
     wall (WindowStart i) <= wall (fiObservedAt (sFinding s)) < wall (WindowEnd i) ∧
     severityRank (Severity (sFinding s)) <= severityRank (inSeverity i)).
Proof.
  intros Hr Hp Hw (st & H & -> & _)%correlate_ok; [|done]. pose proof (h_valid _ _ H) as Hv. pose proof (h_consistent _ _ H) as Hc.
  setoid_rewrite merge_sort_Permutation. setoid_rewrite (elem_of_range r st.2 _ Hr). split_and!.
  - intros s Hs. destruct (st.2 !! key_of s) as [g|] eqn:E; [|by destruct (h_none _ _ H _ E s Hs)].
    exists (finish g). split; [eauto|]. by apply (in_finish inputs st (key_of s)).
  - intros i s t (k & g & Hg & ->) Hs Ht. rewrite !(in_finish inputs st k g) by done. intros <-. rewrite <- (key_connected inputs) by done.
    naive_solver.
  - intros i s (k & g & Hg & ->) Hs. rewrite (in_finish inputs st k g) by done. intros Ek.
    destruct (h_groups _ _ H _ _ Hg) as (l & Hl & Hga). assert (Hin : s ∈ l) by by apply Hl.
    destruct (g_first _ _ Hga) as (t & Ht & _ & E2 & E3 & E4 & E5 & _). destruct (members_alike _ _ _ Hv Hc Hw Hl s t Hin Ht) as (_ & K2 & K3 & K4).
    simpl. rewrite E2, E3, E4, E5, <- K2, <- K3, <- K4. split_and!; try done; try apply window_holds. by apply (g_severity _ _ Hga).
Qed.

End Correlate.

(** ** Concrete signals *)

Definition sample_finding (id category severity : string) (confidence : option float64) (at_ : Z) : Finding :=
  mkFinding id "scope.home" "detector.dns" "1.0" category severity confidence (mkTime (at_ * Second) None "") (mkTime (at_ * Second) None "")
    1 "{}" (Some ["observation." +:+ id]) RetentionStandard.
Definition sample_a : Signal := mkSignal (sample_finding "finding.a" "tripwire" "high" (Some one) 1800000000) "device.a" LinkUser "tripwire".
Definition sample_b : Signal := mkSignal (sample_finding "finding.b" "new-device" "low" (Some zero) 1800000060) "device.a" LinkUser "watch".
Definition sample_c : Signal := mkSignal (sample_finding "finding.c" "tripwire" "low" None 1800000060) "device.a" LinkInferred "watch".
Definition any_token (r : Z) : bool := true.
Definition any_time (t : Time) : string := if wall t =? 1800000000 * Second then "now" else "then".
Definition in_key_order (m : gmap string group) : list group := map snd (map_to_list m).

Ltac each_signal := repeat match goal with H : _ ∈ _ :: _ |- _ => apply elem_of_cons in H as [->|H] end;
  match goal with H : _ ∈ [] |- _ => by apply not_elem_of_nil in H | _ => idtac end.

Example correlate_three :
  (λ r, map (λ i, (inSeverity i, FindingIDs i, CorrelationReason i)) <$> match r with Ok l => Some l | Err _ => None end)
    (Correlate any_token (λ k, k) any_time in_key_order [sample_b; sample_c; sample_a]) =
  Some [("high", ["finding.a"; "finding.b"], "same-user-confirmed-device-and-utc-window"); ("low", ["finding.c"], "single-finding")].
Proof. vm_compute. reflexivity. Qed.

Lemma samples_separate :
  digest_separates (λ k, k) any_time [sample_a; sample_b; sample_c] ∧ rfc3339_separates any_time [sample_a; sample_b; sample_c].
Proof. split; [by intros s t _ _|]. intros s t Hs Ht _. each_signal; reflexivity. Qed.

Lemma samples_plain : Forall plain_signal [sample_a; sample_b; sample_c].
Proof. repeat constructor. Qed.

Lemma in_key_order_ranges : ranges in_key_order.
Proof. by intros m. Qed.

Lemma correlate_order_independent_witness :
  same_outcome any_token [sample_a; sample_b; sample_c] (Correlate any_token (λ k, k) any_time in_key_order [sample_a; sample_b; sample_c])
    (Correlate any_token (λ k, k) any_time (λ m, reverse (in_key_order m)) [sample_c; sample_b; sample_a; sample_b]).
Proof.
  apply correlate_order_independent; [apply in_key_order_ranges|intros m; apply reverse_Permutation|set_solver|done|done|apply samples_plain|apply samples_separate..].
Defined.

Lemma correlate_groups_witness :
  ∃ out, Correlate any_token (λ k, k) any_time in_key_order [sample_a; sample_b; sample_c] = Ok out ∧
    ∀ i, i ∈ out → in_incident sample_a i → in_incident sample_b i ∧ ¬ in_incident sample_c i.
Proof.
  destruct (Correlate any_token (λ k, k) any_time in_key_order [sample_a; sample_b; sample_c]) as [out|] eqn:E;
    [|by apply (f_equal is_ok) in E; vm_compute in E]. exists out. split; [reflexivity|]. intros i Hi Ha.
  destruct (correlate_groups any_token (λ k, k) any_time in_key_order [sample_a; sample_b; sample_c] out) as (_ & Hg & _);
    [apply in_key_order_ranges|apply samples_plain|apply samples_separate|exact E|]. clear E. split.
  - apply (Hg i sample_a sample_b); [done|set_solver|set_solver|done|]. right. split_and!; done.
  - rewrite (Hg i sample_a sample_c) by (done || set_solver). by intros [?|(_ & ? & _)].
Defined.

(** A list with both faults: the error depends on the order. *)
Definition sample_twin : Signal := mkSignal (sample_finding "finding.a" "tripwire" "low" None 1800000000) "device.a" LinkUser "tripwire".
Definition sample_invalid : Signal := mkSignal (sample_finding "finding.b" "tripwire" "low" None 1800000000) "" LinkUser "tripwire".
Example correlate_errors :
  (Correlate any_token (λ k, k) any_time in_key_order [sample_a; sample_twin; sample_invalid],
   Correlate any_token (λ k, k) any_time in_key_order [sample_invalid; sample_a; sample_twin]) = (Err ErrConflict, Err ErrInput).
Proof. vm_compute. reflexivity. Qed.

(** A confidence that is not a number passes the validation, and what is reported then depends on the order. *)
Definition sample_nan : Signal := mkSignal (sample_finding "finding.n" "tripwire" "low" (Some S754_nan) 1800000000) "device.a" LinkUser "tripwire".
Lemma correlate_nan_order :
  is_ok (Correlate any_token (λ k, k) any_time in_key_order [sample_nan; sample_a]) = true ∧
  Correlate any_token (λ k, k) any_time in_key_order [sample_nan; sample_a] ≠
  Correlate any_token (λ k, k) any_time in_key_order [sample_a; sample_nan].
Proof.
  split; [vm_compute; reflexivity|].
  set (best := λ r : result correlate_err (list Incident), match r with Ok l => map inConfidence l | Err _ => [] end).
  intros E%(f_equal best). vm_compute in E. discriminate E.
Qed.

End Incident.
