(* ===== verification/Coverage.v ===== *)
(** * The coverage contract

    [coverage/model.go] and [coverage/single_point.go]: what a capability may claim about
    what it observes.  A report lists observation points, each with the scope it was
    configured for, the part of it that evidence verified, the sources, the window of the
    evidence and the known gaps; the validators decide whether a report is one a user may be
    shown.  An error keeps its text without the quoted value. *)

From Stdlib Require Import Ascii.
From S2P Require Import Prelude Regex GoTime Manifest.

Module Coverage.
Import Manifest.

Definition maxObservationPoints : Z := 32.
Definition maxDimensions : Z := 128.
Definition maxSources : Z := 32.
Definition maxDirections : Z := 8.
Definition maxGaps : Z := 32.
Definition maxValueLength : Z := 256.
Definition maxSummaryLength : Z := 256.
Definition maxDetailLength : Z := 1024.
Definition maxNextStepLength : Z := 512.

Definition tokenPattern : regex := token_regex.

Definition State := string.
Definition StateUnconfigured : State := "unconfigured".
Definition StateUnavailable : State := "unavailable".
Definition StatePermissionRequired : State := "permission-required".
Definition StateUnverified : State := "unverified".
Definition StateActiveLimited : State := "active-limited".
Definition StateDegraded : State := "degraded".
Definition StateStale : State := "stale".
Definition StateDisconnected : State := "disconnected".

Definition SourceState := string.
Definition SourceExpectedUnverified : SourceState := "expected-unverified".
Definition SourceCurrent : SourceState := "current".
Definition SourcePermissionRequired : SourceState := "permission-required".
Definition SourceUnavailable : SourceState := "unavailable".
Definition SourceDegraded : SourceState := "degraded".
Definition SourceStale : SourceState := "stale".
Definition SourceDisconnected : SourceState := "disconnected".
Definition SourceUnknown : SourceState := "unknown".

Definition DimensionKind := string.
Definition DimensionNetwork : DimensionKind := "network".
Definition DimensionInterface : DimensionKind := "interface".
Definition DimensionVLAN : DimensionKind := "vlan".
Definition DimensionDevice : DimensionKind := "device".
Definition DimensionAddressFamily : DimensionKind := "address-family".
Definition DimensionWirelessBand : DimensionKind := "wireless-band".
Definition DimensionWirelessChannel : DimensionKind := "wireless-channel".

Definition Direction := string.
Definition DirectionIngress : Direction := "ingress".
Definition DirectionEgress : Direction := "egress".
Definition DirectionEastWest : Direction := "east-west".
Definition DirectionClientToService : Direction := "client-to-service".
Definition DirectionServiceToClient : Direction := "service-to-client".

Definition CadenceMode := string.
Definition CadenceUnknown : CadenceMode := "unknown".
Definition CadenceContinuous : CadenceMode := "continuous".
Definition CadencePeriodic : CadenceMode := "periodic".
Definition CadenceEventDriven : CadenceMode := "event-driven".
Definition CadenceHopping : CadenceMode := "hopping".

Record Dimension := mkDimension { Kind : DimensionKind; Value : string }.
#[export] Instance Dimension_eq_dec : EqDecision Dimension.
Proof. solve_decision. Defined.
Record Scope := mkScope { Configured : list Dimension; Verified : list Dimension; ExpectedUnverified : list Dimension }.
Record Source := mkSource {
  soID : string; soKind : string; soState : SourceState; Expected : bool; Observed : bool; soNextStep : string }.
Record EvidenceWindow := mkWindow { HasEvidence : bool; StartedAt : Time; EndedAt : Time; FreshUntil : Time }.
Record Cadence := mkCadence { Mode : CadenceMode; Interval : Duration; Dwell : Duration }.
Record Gap := mkGap {
  gID : string; gKind : string; gSummary : string; Detail : string; gNextStep : string;
  Dimensions : list Dimension; gDirections : list Direction }.
Record ObservationPoint := mkPoint {
  oID : string; oPKind : string; SensorID : string; oState : State; oReason : string; oScope : Scope; oSources : list Source;
  oDirections : list Direction; Window : EvidenceWindow; oCadence : Cadence; Gaps : list Gap; oNextStep : string }.
Record Report := mkReport {
  CapabilityID : string; rConfigured : bool; rState : State; rReason : string; ObservationPoints : list ObservationPoint;
  rNextStep : string }.

(** ** Validators *)

Definition validState (state : State) : bool :=
  member_of [StateUnconfigured; StateUnavailable; StatePermissionRequired; StateUnverified; StateActiveLimited; StateDegraded;
             StateStale; StateDisconnected] state.
Definition validSourceState (state : SourceState) : bool :=
  member_of [SourceExpectedUnverified; SourceCurrent; SourcePermissionRequired; SourceUnavailable; SourceDegraded; SourceStale;
             SourceDisconnected; SourceUnknown] state.
Definition validDimensionKind (kind : DimensionKind) : bool :=
  member_of [DimensionNetwork; DimensionInterface; DimensionVLAN; DimensionDevice; DimensionAddressFamily; DimensionWirelessBand;
             DimensionWirelessChannel] kind.
Definition validDirection (direction : Direction) : bool :=
  member_of [DirectionIngress; DirectionEgress; DirectionEastWest; DirectionClientToService; DirectionServiceToClient] direction.

Definition validToken (value : string) : bool :=
  (0 <? slen value) && (slen value <=? maxValueLength) && MatchString tokenPattern value.

Definition validateValue (value : string) : result string unit :=
  guard? (value == "") || (maxValueLength <? slen value) || (TrimSpace value != value) || ContainsAny [13%N; 10%N; 0%N] value
  else "coverage dimension is invalid" in
  Ok tt.

Definition validateOptionalText (value : string) (maxLength : Z) : result string unit :=
  guard? (maxLength <? slen value) || (TrimSpace value != value) || ContainsAny [0%N] value else "is invalid" in Ok tt.

Definition validateText (value : string) (maxLength : Z) : result string unit :=
  guard? value == "" else "is required" in validateOptionalText value maxLength.

Definition nul : string := String (ascii_of_N 0) "".
Definition key (d : Dimension) : string := Kind d +:+ nul +:+ Value d.

(** The keys come back, the last one first. *)
Definition validateDimensionList (dimensions : list Dimension) : result string (list string) :=
  guard? maxDimensions <? llen dimensions else "has too many dimensions" in
  each_once (λ d, guard? negb (validDimensionKind (Kind d)) else "contains invalid kind" in validateValue (Value d))
    key "contains duplicate dimension" always dimensions.

(** The source ranges over a map of keys; the order decides only which error is reported. *)
Definition validateScope (scope : Scope) : result string unit :=
  let? configured := validateDimensionList (Configured scope) in
  let? verified := validateDimensionList (Verified scope) in
  let? expected := validateDimensionList (ExpectedUnverified scope) in
  for_each (λ _ k,
    guard? negb (bool_decide (k ∈ configured)) else "expected-unverified dimension is not configured" in
    guard? bool_decide (k ∈ verified) else "dimension cannot be both verified and expected-unverified" in
    Ok tt) expected tt.

Definition validateSources (sources : list Source) : result string unit :=
  guard? maxSources <? llen sources else "too many coverage sources" in
  check? each_once
    (λ s, guard? negb (validToken (soID s)) || negb (validToken (soKind s)) || negb (validSourceState (soState s))
          else "coverage source is invalid" in Ok tt)
    soID "duplicate coverage source"
    (λ s,
      guard? (soState s == SourceCurrent) && negb (Observed s) else "current coverage source must have observed evidence" in
      if soState s != SourceCurrent then validateText (soNextStep s) maxNextStepLength
      else if soNextStep s != "" then validateOptionalText (soNextStep s) maxNextStepLength
      else Ok tt) sources in
  Ok tt.

Definition validateDirections (directions : list Direction) : result string unit :=
  guard? maxDirections <? llen directions else "too many coverage directions" in
  check? each_once (λ d, guard? negb (validDirection d) else "coverage direction is invalid" in Ok tt) (λ d, d)
    "duplicate coverage direction" always directions in
  Ok tt.

Definition validateWindow (w : EvidenceWindow) : result string unit :=
  if negb (HasEvidence w) then
    guard? negb (IsZero (StartedAt w)) || negb (IsZero (EndedAt w)) || negb (IsZero (FreshUntil w))
    else "coverage window without evidence must not contain timestamps" in
    Ok tt
  else
    guard? IsZero (StartedAt w) || IsZero (EndedAt w) || IsZero (FreshUntil w)
    else "coverage evidence window requires started, ended, and fresh-until timestamps" in
    guard? Before (EndedAt w) (StartedAt w) || Before (FreshUntil w) (EndedAt w)
    else "coverage evidence window timestamps are inconsistent" in
    Ok tt.

Definition validateCadence (c : Cadence) : result string unit :=
  guard? (Interval c <? 0) || (Dwell c <? 0) else "coverage cadence durations cannot be negative" in
  if member_of [CadenceUnknown; CadenceContinuous; CadenceEventDriven] (Mode c) then
    guard? negb (Interval c =? 0) || negb (Dwell c =? 0) else "coverage cadence cannot carry interval or dwell" in Ok tt
  else if Mode c == CadencePeriodic then
    guard? (Interval c <=? 0) || negb (Dwell c =? 0) else "periodic coverage cadence requires a positive interval and no dwell" in Ok tt
  else if Mode c == CadenceHopping then
    guard? Dwell c <=? 0 else "hopping coverage cadence requires a positive dwell" in
    guard? (0 <? Interval c) && (Interval c <? Dwell c) else "hopping coverage interval cannot be shorter than dwell" in Ok tt
  else Err "coverage cadence mode is invalid".

Definition validateGap (g : Gap) : result string unit :=
  guard? negb (validToken (gID g)) || negb (validToken (gKind g)) else "coverage gap id or kind is invalid" in
  check? validateText (gSummary g) maxSummaryLength in
  check? validateText (Detail g) maxDetailLength in
  check? validateText (gNextStep g) maxNextStepLength in
  check? validateDimensionList (Dimensions g) in
  validateDirections (gDirections g).

Definition validateObservationPoint (p : ObservationPoint) : result string unit :=
  guard? negb (validToken (oID p)) || negb (validToken (oPKind p)) else "id or kind is invalid" in
  guard? (SensorID p != "") && negb (validToken (SensorID p)) else "sensor_id is invalid" in
  guard? negb (validState (oState p)) || (oState p == StateUnconfigured)
  else "state is invalid for a configured observation point" in
  guard? negb (validToken (oReason p)) else "reason is invalid" in
  check? validateText (oNextStep p) maxNextStepLength in
  check? validateScope (oScope p) in
  check? validateSources (oSources p) in
  check? validateDirections (oDirections p) in
  check? validateWindow (Window p) in
  check? (if negb (HasEvidence (Window p)) then
            guard? negb (llen (Verified (oScope p)) =? 0) || negb (llen (oDirections p) =? 0)
            else "verified scope or observed directions require an evidence window" in
            for_each (λ _ s, guard? (soState s == SourceCurrent) || Observed s
                             else "current or observed source requires an evidence window" in Ok tt) (oSources p) tt
          else Ok tt) in
  check? validateCadence (oCadence p) in
  guard? maxGaps <? llen (Gaps p) else "too many gaps" in
  check? each_once validateGap gID "duplicate gap" always (Gaps p) in
  Ok tt.

Definition ValidateReport (r : Report) : result string unit :=
  guard? negb (validToken (CapabilityID r)) else "coverage capability_id is invalid" in
  guard? negb (validState (rState r)) else "coverage state is invalid" in
  guard? negb (validToken (rReason r)) else "coverage reason is invalid" in
  check? validateText (rNextStep r) maxNextStepLength in
  if negb (rConfigured r) then
    guard? rState r != StateUnconfigured else "unconfigured coverage must use state unconfigured" in
    guard? negb (llen (ObservationPoints r) =? 0) else "unconfigured coverage cannot contain observation points" in
    Ok tt
  else
    guard? rState r == StateUnconfigured else "configured coverage cannot use state unconfigured" in
    guard? (llen (ObservationPoints r) =? 0) || (maxObservationPoints <? llen (ObservationPoints r))
    else "configured coverage must contain 1..32 observation points" in
    check? each_once validateObservationPoint oID "duplicate observation point" always (ObservationPoints r) in
    Ok tt.

Definition ValidateSinglePointReport (r : Report) : result string unit :=
  check? ValidateReport r in
  if negb (rConfigured r) then Ok tt
  else
    match ObservationPoints r with
    | [p] =>
        guard? (rState r != oState p) || (rReason r != oReason p) || (rNextStep r != oNextStep p)
        else "single-point coverage aggregate must match its observation point" in
        Ok tt
    | _ => Err "single-point coverage validation requires exactly one observation point"
    end.

(** ** What a valid report is *)

Definition text_ok (max : Z) (s : string) : Prop := s ≠ "" ∧ slen s <= max ∧ TrimSpace s = s ∧ ContainsAny [0%N] s = false.

Definition dimension_ok (d : Dimension) : Prop :=
  validDimensionKind (Kind d) = true ∧ Value d ≠ "" ∧ slen (Value d) <= maxValueLength ∧ TrimSpace (Value d) = Value d ∧
  ContainsAny [13%N; 10%N; 0%N] (Value d) = false.
Definition dimensions_ok (l : list Dimension) : Prop := llen l <= maxDimensions ∧ Forall dimension_ok l ∧ NoDup l.

(** What is expected was configured, and is not also claimed as verified. *)
Definition scope_ok (s : Scope) : Prop :=
  dimensions_ok (Configured s) ∧ dimensions_ok (Verified s) ∧ dimensions_ok (ExpectedUnverified s) ∧
  ∀ d, d ∈ ExpectedUnverified s → d ∈ Configured s ∧ d ∉ Verified s.

(** A current source has been observed, and any other says what to do next. *)
Definition source_ok (s : Source) : Prop :=
  validToken (soID s) = true ∧ validToken (soKind s) = true ∧ validSourceState (soState s) = true ∧
  (soState s = SourceCurrent → Observed s = true) ∧
  (soState s ≠ SourceCurrent ∨ soNextStep s ≠ "" → text_ok maxNextStepLength (soNextStep s)).
Definition sources_ok (l : list Source) : Prop := llen l <= maxSources ∧ Forall source_ok l ∧ NoDup (map soID l).

Definition directions_ok (l : list Direction) : Prop := llen l <= maxDirections ∧ Forall (λ d, validDirection d = true) l ∧ NoDup l.

Definition window_ok (w : EvidenceWindow) : Prop :=
  if HasEvidence w
  then IsZero (StartedAt w) = false ∧ IsZero (EndedAt w) = false ∧ IsZero (FreshUntil w) = false ∧
       Before (EndedAt w) (StartedAt w) = false ∧ Before (FreshUntil w) (EndedAt w) = false
  else IsZero (StartedAt w) = true ∧ IsZero (EndedAt w) = true ∧ IsZero (FreshUntil w) = true.

Inductive cadence_ok : Cadence → Prop :=
| cadence_plain m : m ∈ [CadenceUnknown; CadenceContinuous; CadenceEventDriven] → cadence_ok (mkCadence m 0 0)
| cadence_periodic i : 0 < i → cadence_ok (mkCadence CadencePeriodic i 0)
| cadence_hopping i d : 0 < d → i = 0 ∨ d <= i → cadence_ok (mkCadence CadenceHopping i d).

Definition gap_ok (g : Gap) : Prop :=
  validToken (gID g) = true ∧ validToken (gKind g) = true ∧ text_ok maxSummaryLength (gSummary g) ∧
  text_ok maxDetailLength (Detail g) ∧ text_ok maxNextStepLength (gNextStep g) ∧ dimensions_ok (Dimensions g) ∧
  directions_ok (gDirections g).

(** Nothing is verified, current or observed without evidence. *)
Definition evidenced (p : ObservationPoint) : Prop :=
  HasEvidence (Window p) = false →
  Verified (oScope p) = [] ∧ oDirections p = [] ∧ Forall (λ s, soState s ≠ SourceCurrent ∧ Observed s = false) (oSources p).

Definition point_ok (p : ObservationPoint) : Prop :=
  validToken (oID p) = true ∧ validToken (oPKind p) = true ∧ (SensorID p ≠ "" → validToken (SensorID p) = true) ∧
  validState (oState p) = true ∧ oState p ≠ StateUnconfigured ∧ validToken (oReason p) = true ∧
  text_ok maxNextStepLength (oNextStep p) ∧ scope_ok (oScope p) ∧ sources_ok (oSources p) ∧ directions_ok (oDirections p) ∧
  window_ok (Window p) ∧ evidenced p ∧ cadence_ok (oCadence p) ∧
  llen (Gaps p) <= maxGaps ∧ Forall gap_ok (Gaps p) ∧ NoDup (map gID (Gaps p)).

Definition report_ok (r : Report) : Prop :=
  validToken (CapabilityID r) = true ∧ validState (rState r) = true ∧ validToken (rReason r) = true ∧
  text_ok maxNextStepLength (rNextStep r) ∧
  (rConfigured r = false → rState r = StateUnconfigured ∧ ObservationPoints r = []) ∧
  (rConfigured r = true → rState r ≠ StateUnconfigured ∧ ObservationPoints r ≠ [] ∧ llen (ObservationPoints r) <= maxObservationPoints ∧
     Forall point_ok (ObservationPoints r) ∧ NoDup (map oID (ObservationPoints r))).

(** ** The validators decide it *)

Lemma text_iff s max : validateText s max = Ok tt ↔ text_ok max s.
Proof.
  unfold validateText, validateOptionalText, text_ok.
  rewrite !guard_ok, !orb_false_iff, negb_false_iff, bool_decide_eq_true, bool_decide_eq_false, Z.ltb_ge. naive_solver.
Qed.

Lemma optional_text_iff s max : s ≠ "" → validateOptionalText s max = Ok tt ↔ text_ok max s.
Proof. intros Hs. rewrite <- text_iff. unfold validateText. by rewrite bool_decide_eq_false_2. Qed.

Lemma key_inj d d' : dimension_ok d → dimension_ok d' → key d = key d' → d = d'.
Proof.
  unfold dimension_ok, validDimensionKind. rewrite !is_member. intros [Hk _] [Hk' _]. destruct d as [k v], d' as [k' v']. simpl in *.
  unfold key. simpl.
  repeat (apply elem_of_cons in Hk as [->|Hk]); try by apply not_elem_of_nil in Hk.
  all: repeat (apply elem_of_cons in Hk' as [->|Hk']); try by apply not_elem_of_nil in Hk'.
  all: cbv; first [discriminate|by intros [= ->]].
Qed.

Lemma keys_distinct l : Forall dimension_ok l → NoDup (map key l) ↔ NoDup l.
Proof.
  intros Hf. split; [apply NoDup_fmap_1|]. intros Hn. rewrite Forall_forall in Hf.
  induction Hn as [|d l Hd Hn IH]; [constructor|]. simpl. constructor.
  - rewrite list_elem_of_In, in_map_iff. intros (d' & E & Hd'%list_elem_of_In). apply key_inj in E; [|apply Hf; set_solver..].
    by subst.
  - apply IH. intros x Hx. apply Hf. by right.
Qed.

Lemma dimension_iff d :
  (guard? negb (validDimensionKind (Kind d)) else "contains invalid kind" in validateValue (Value d)) = Ok tt ∧ always d = Ok tt ↔
  dimension_ok d.
Proof.
  unfold always, validateValue, dimension_ok.
  rewrite !guard_ok, !orb_false_iff, !negb_false_iff, bool_decide_eq_true, bool_decide_eq_false, Z.ltb_ge. naive_solver.
Qed.

Lemma dimension_list_ok l ks : validateDimensionList l = Ok ks ↔ dimensions_ok l ∧ ks = reverse (map key l).
Proof.
  unfold validateDimensionList, dimensions_ok. rewrite guard_ok, Z.ltb_ge, each_once_ok. setoid_rewrite dimension_iff.
  split; [intros (? & Hf & Hn & ->)|intros ((? & Hf & Hn) & ->)]; rewrite keys_distinct in *; naive_solver.
Qed.

Lemma elem_of_keys d l : Forall dimension_ok l → dimension_ok d → key d ∈ reverse (map key l) ↔ d ∈ l.
Proof.
  intros Hl Hd. rewrite elem_of_reverse, list_elem_of_In, in_map_iff. setoid_rewrite <- list_elem_of_In. rewrite Forall_forall in Hl.
  split; [|eauto]. intros (d' & E & Hd'). apply key_inj in E; [by subst|auto|done].
Qed.

(** A loop that only checks. *)
Lemma for_each_unit {A} (body : A → result string unit) l :
  for_each (λ _ x, body x) l tt = Ok tt ↔ Forall (λ x, body x = Ok tt) l.
Proof.
  induction l as [|x l IH]; simpl; [split; [constructor|done]|]. rewrite res_bind_ok, Forall_cons, <- IH.
  split; [intros ([] & ? & ?)|intros []; exists tt]; done.
Qed.

Lemma scope_iff s : validateScope s = Ok tt ↔ scope_ok s.
Proof.
  unfold validateScope, scope_ok. rewrite res_bind_ok. setoid_rewrite res_bind_ok. setoid_rewrite res_bind_ok.
  setoid_rewrite dimension_list_ok.
  split.
  - intros (cs & [Hc ->] & vs & [Hv ->] & es & [He ->] & Hl). split_and!; [done..|]. intros d Hd.
    destruct Hc as (_ & Hc & _), Hv as (_ & Hv & _), He as (_ & He & _). assert (dimension_ok d) by (rewrite Forall_forall in He; auto).
    rewrite for_each_unit, Forall_forall in Hl. specialize (Hl (key d)). rewrite elem_of_keys in Hl by done. specialize (Hl Hd).
    rewrite !guard_ok, negb_false_iff, bool_decide_eq_true, bool_decide_eq_false, !elem_of_keys in Hl by done. naive_solver.
  - intros (Hc & Hv & He & Hd). eexists. split; [done|]. eexists. split; [done|]. eexists. split; [done|].
    rewrite for_each_unit, Forall_forall. intros k Hk. rewrite elem_of_reverse, list_elem_of_In, in_map_iff in Hk.
    destruct Hk as (d & <- & Hin%list_elem_of_In). destruct Hc as (_ & Hc & _), Hv as (_ & Hv & _), He as (_ & He & _).
    assert (dimension_ok d) by (rewrite Forall_forall in He; auto).
    rewrite !guard_ok, negb_false_iff, bool_decide_eq_true, bool_decide_eq_false, !elem_of_keys by done. naive_solver.
Qed.

Lemma sources_iff l : validateSources l = Ok tt ↔ sources_ok l.
Proof.
  unfold validateSources, sources_ok. rewrite guard_ok, Z.ltb_ge, each_once_some. do 2 apply and_iff_compat_l || apply and_iff_compat_r.
  apply Forall_iff. intros s. unfold source_ok. rewrite guard_unit, guard_ok, !orb_false_iff, !negb_false_iff, when_false.
  rewrite bool_decide_eq_true, negb_false_iff. destruct (decide (soState s = SourceCurrent)) as [E|E].
  - rewrite bool_decide_eq_true_2 by done. simpl. destruct (decide (soNextStep s = "")) as [En|En].
    + rewrite bool_decide_eq_true_2 by done. naive_solver.
    + rewrite bool_decide_eq_false_2 by done. simpl. rewrite optional_text_iff by done. naive_solver.
  - rewrite bool_decide_eq_false_2 by done. simpl. rewrite text_iff. naive_solver.
Qed.

Lemma directions_iff l : validateDirections l = Ok tt ↔ directions_ok l.
Proof.
  unfold validateDirections, directions_ok. rewrite guard_ok, Z.ltb_ge, each_once_some, map_id. do 2 apply and_iff_compat_l || apply and_iff_compat_r.
  apply Forall_iff. intros d. unfold always. rewrite guard_unit, negb_false_iff. naive_solver.
Qed.

Lemma window_iff w : validateWindow w = Ok tt ↔ window_ok w.
Proof.
  unfold validateWindow, window_ok. destruct (HasEvidence w); simpl; rewrite ?guard_ok, ?guard_unit, ?orb_false_iff, ?negb_false_iff; tauto.
Qed.

Lemma cadence_iff c : validateCadence c = Ok tt ↔ cadence_ok c.
Proof.
  destruct c as [m i d]. unfold validateCadence. simpl. rewrite guard_ok, orb_false_iff, !Z.ltb_ge. split.
  - intros [[Hi Hd] H]. destruct (member_of _ m) eqn:Em.
    + rewrite guard_unit, orb_false_iff, !negb_false_iff, !Z.eqb_eq in H. destruct H as [-> ->]. apply cadence_plain. by apply is_member.
    + case_bool_decide as Ep; [subst m; rewrite guard_unit, orb_false_iff, negb_false_iff, Z.eqb_eq, Z.leb_gt in H; destruct H as [? ->]; by apply cadence_periodic|].
      case_bool_decide as Eh; [|done]. subst m. rewrite !guard_ok, Z.leb_gt, when_false, Z.ltb_lt, Z.ltb_ge in H. apply cadence_hopping; lia.
  - inversion_clear 1; simpl; split_and!; try lia.
    + rewrite (proj2 (is_member _ _)) by done. done.
    + by rewrite (proj2 (Z.leb_gt _ _)) by done.
    + rewrite !guard_ok, Z.leb_gt, when_false, Z.ltb_lt, Z.ltb_ge. split_and!; [lia|lia|done].
Qed.

Lemma gap_iff g : validateGap g = Ok tt ↔ gap_ok g.
Proof.
  unfold validateGap, gap_ok. rewrite guard_ok, !check_ok, !text_iff, orb_false_iff, !negb_false_iff, res_bind_ok.
  setoid_rewrite dimension_list_ok. setoid_rewrite directions_iff. naive_solver.
Qed.

Lemma nonempty_false {A} (l : list A) : negb (llen l =? 0) = false ↔ l = [].
Proof. unfold llen. rewrite negb_false_iff, Z.eqb_eq. destruct l; simpl; naive_solver lia. Qed.

Lemma evidenced_iff p :
  (if negb (HasEvidence (Window p)) then
     guard? negb (llen (Verified (oScope p)) =? 0) || negb (llen (oDirections p) =? 0)
     else "verified scope or observed directions require an evidence window" in
     for_each (λ _ s, guard? (soState s == SourceCurrent) || Observed s
                      else "current or observed source requires an evidence window" in Ok tt) (oSources p) tt
   else Ok tt) = Ok tt ↔ evidenced p.
Proof.
  unfold evidenced. destruct (HasEvidence (Window p)); simpl; [naive_solver|].
  rewrite guard_ok, orb_false_iff, !nonempty_false, (for_each_unit (λ s, guard? (soState s == SourceCurrent) || Observed s else "current or observed source requires an evidence window" in Ok tt)).
  setoid_rewrite guard_unit. setoid_rewrite orb_false_iff. setoid_rewrite bool_decide_eq_false. naive_solver.
Qed.

Lemma point_iff p : validateObservationPoint p = Ok tt ↔ point_ok p.
Proof.
  unfold validateObservationPoint, point_ok.
  rewrite !guard_ok, !check_ok, evidenced_iff, !guard_ok, text_iff, scope_iff, sources_iff, directions_iff, window_iff, cadence_iff,
    each_once_some, !orb_false_iff, !negb_false_iff, when_false, negb_true_iff, !bool_decide_eq_false, negb_false_iff, Z.ltb_ge.
  setoid_rewrite gap_iff. unfold always.
  assert (H : Forall (λ x, gap_ok x ∧ @Ok string unit tt = Ok tt) (Gaps p) ↔ Forall gap_ok (Gaps p)) by (apply Forall_iff; intros; tauto).
  rewrite H. tauto.
Qed.

Lemma report_iff r : ValidateReport r = Ok tt ↔ report_ok r.
Proof.
  unfold ValidateReport, report_ok. rewrite !guard_ok, check_ok, text_iff, !negb_false_iff.
  destruct (rConfigured r); simpl.
  - rewrite !guard_ok, each_once_some, orb_false_iff, bool_decide_eq_false, empty_list, Z.ltb_ge. setoid_rewrite point_iff. unfold always.
    assert (H : Forall (λ x, point_ok x ∧ @Ok string unit tt = Ok tt) (ObservationPoints r) ↔ Forall point_ok (ObservationPoints r))
      by (apply Forall_iff; intros; tauto).
    rewrite H. pose proof (eq_refl true). assert (true = false → False) by done. tauto.
  - rewrite !guard_ok, nonempty_false, negb_false_iff, bool_decide_eq_true. pose proof (eq_refl false). assert (false = true → False) by done. tauto.
Qed.

(** C25: a coverage report is accepted exactly when it meets the contract.  Without a configuration it is
    unconfigured and empty.  Otherwise it has 1 to 32 distinct points, each of which claims as verified,
    current or observed only what evidence with a consistent window supports, expects only what was
    configured and not also verified, keeps lists bounded and free of duplicates, and gives its sources,
    gaps and cadence in the forms allowed; every text is present, trimmed and bounded. *)
Theorem coverage_report_spec r : ValidateReport r = Ok tt ↔ report_ok r.
Proof. apply report_iff. Qed.

(** A single point speaks for its capability. *)
Lemma single_point_iff r :
  ValidateSinglePointReport r = Ok tt ↔
  report_ok r ∧ (rConfigured r = true → ∃ p, ObservationPoints r = [p] ∧ rState r = oState p ∧ rReason r = oReason p ∧ rNextStep r = oNextStep p).
Proof.
  unfold ValidateSinglePointReport. rewrite check_ok, report_iff. apply and_iff_compat_l. destruct (rConfigured r); simpl; [|naive_solver].
  destruct (ObservationPoints r) as [|p [|]]; [naive_solver| |naive_solver].
  rewrite guard_unit, !orb_false_iff, !negb_false_iff, !bool_decide_eq_true. naive_solver.
Qed.

End Coverage.
