(* ===== verification/WatchScope.v ===== *)
(** * The enrolled network of Device Watch

    [devicewatch/scope.go] and [devicewatch/enrollment.go]: an interface is enrolled by its
    name, its index and its IP prefixes, and passive discovery goes on only while the
    interface still has them.  What the operating system reports of an interface is an
    argument; the letters and digits above ASCII ([unicode.IsLetter], [unicode.IsDigit]) and
    the JSON encoding of the stored binding are parameters. *)

From Stdlib Require Import Ascii.
From S2P Require Import Prelude Regex GoTime NetAddr NetText GoJSON Manifest Domain.

Module WatchScope.
Import JSON.

(** What [errors.Is] can tell apart. *)
Inductive err :=
| ScopeMismatch (text : string)
| UnsupportedInterface (text : string)
| Other (text : string).

Record ScopeBinding := mkBinding { InterfaceName : string; InterfaceIndex : Z; Prefixes : list string }.
Record InterfaceState := mkInterface { Name : string; Index : Z; Flags : Z; iPrefixes : list Prefix }.

(** [net.FlagUp], [net.FlagLoopback] and [net.FlagPointToPoint] *)
Definition FlagUp : Z := 1.
Definition FlagLoopback : Z := 4.
Definition FlagPointToPoint : Z := 8.
Definition MaxScopeCandidates : Z := 64.

(** ** Names *)

(** [unicode.IsControl] and [unicode.IsSpace] *)
Definition IsControl (r : Z) : bool := between 0 31 r || between 127 159 r.
Definition IsSpace (r : Z) : bool :=
  between 9 13 r || (r =? 32) || (r =? 133) || (r =? 160) || (r =? 5760) || between 8192 8202 r || (r =? 8232) || (r =? 8233) ||
  (r =? 8239) || (r =? 8287) || (r =? 12288).

Section Scope.
(** [unicode.IsLetter] or [unicode.IsDigit], above ASCII. *)
Context (letter_or_digit : Z → bool).

Definition IsLetterOrDigit (r : Z) : bool :=
  if r <? 128 then between 65 90 r || between 97 122 r || between 48 57 r else letter_or_digit r.

(** The loop over the runes; [first] is [index == 0]. *)
Definition name_rune (first : bool) (r : Z) : bool :=
  if IsControl r || IsSpace r then false
  else if first && negb (IsLetterOrDigit r) then false
  else IsLetterOrDigit r || (r =? 46) || (r =? 95) || (r =? 45) || (r =? 58).

Definition validateInterfaceName (value : string) : result err unit :=
  guard? (value == "") || (64 <? slen value) || (TrimSpace value != value) else Other "invalid interface name" in
  match Domain.runes (sbytes value) with
  | [] => Ok tt
  | r :: rs => guard? negb (name_rune true r && forallb (name_rune false) rs) else Other "invalid interface name" in Ok tt
  end.

Definition ValidateEnrollmentInterfaceName (value : string) : result err unit := validateInterfaceName value.

(** ** Interfaces and prefixes *)

Definition validateInterfaceState (state : InterfaceState) : result err unit :=
  check? validateInterfaceName (Name state) in
  guard? Index state <=? 0 else UnsupportedInterface "invalid interface index" in
  guard? Z.land (Flags state) FlagUp =? 0 else ScopeMismatch "interface is down" in
  guard? negb (Z.land (Flags state) FlagLoopback =? 0) || negb (Z.land (Flags state) FlagPointToPoint =? 0)
  else UnsupportedInterface "loopback and point-to-point interfaces are excluded" in
  Ok tt.

(** [netip.Prefix.IsValid] *)
Definition PrefixIsValid (p : Prefix) : bool :=
  IsValid (paddr p) && (0 <=? pbits p) && (pbits p <=? addr_bits (paddr p)).

Definition usablePrefix (p : Prefix) : bool :=
  if negb (PrefixIsValid p) then false
  else let a := paddr p in negb (IsUnspecified a) && negb (IsLoopback a) && negb (IsMulticast a).

Definition compactStrings (values : list string) : list string :=
  match values with
  | [] => []
  | v :: rest => foldl (λ out v, if bool_decide (last out = Some v) then out else out ++ [v]) [v] rest
  end.

(** One round of the loop: the texts so far, and whether one is not link-local. *)
Definition prefix_round (st : list string * bool) (prefix : Prefix) : result err (list string * bool) :=
  guard? negb (PrefixIsValid prefix) else UnsupportedInterface "interface prefix is invalid" in
  if negb (usablePrefix prefix) then Ok st
  else
    let masked := Masked prefix in
    Ok (st.1 ++ [PrefixString masked], st.2 || negb (IsLinkLocalUnicast (paddr masked))).

Definition canonicalUsablePrefixes (prefixes : list Prefix) : result err (list string * bool) :=
  let? st := for_each prefix_round prefixes ([], false) in
  let result := compactStrings (merge_sort String.le st.1) in
  guard? 32 <? llen result else UnsupportedInterface "interface exposes too many IP prefixes" in
  Ok (result, st.2).

(** ** Bindings *)

Definition binding_round (seen : list string) (raw : string) : result err (list string) :=
  match ParsePrefix raw with
  | None => Err (Other "invalid enrolled prefix")
  | Some prefix =>
      guard? negb (usablePrefix prefix) || (prefix != Masked prefix) else Other "invalid enrolled prefix" in
      let canonical := PrefixString prefix in
      guard? bool_decide (canonical ∈ seen) else Other "duplicate enrolled prefix" in
      Ok (canonical :: seen)
  end.

Definition ValidateScopeBinding (b : ScopeBinding) : result err unit :=
  check? validateInterfaceName (InterfaceName b) in
  guard? InterfaceIndex b <=? 0 else Other "device watch interface index must be positive" in
  guard? (llen (Prefixes b) =? 0) || (32 <? llen (Prefixes b)) else Other "device watch scope must contain between 1 and 32 prefixes" in
  check? for_each binding_round (Prefixes b) [] in
  Ok tt.

(** [inspect] is what the inspector answers for a name, [None] for a nil inspector. *)
Definition CaptureScopeBinding (inspect : option (string → result err InterfaceState)) (interfaceName : string)
  : result err ScopeBinding :=
  match inspect with
  | None => Err (Other "interface inspector is required")
  | Some inspect =>
      check? validateInterfaceName interfaceName in
      let? state := inspect interfaceName in
      check? validateInterfaceState state in
      let? (prefixes, hasNetworkPrefix) := canonicalUsablePrefixes (iPrefixes state) in
      guard? negb hasNetworkPrefix else UnsupportedInterface "interface has no non-link-local IP prefix" in
      Ok (mkBinding (Name state) (Index state) prefixes)
  end.

Definition ValidateCurrentScope (inspect : option (string → result err InterfaceState)) (b : ScopeBinding)
  : result err InterfaceState :=
  match inspect with
  | None => Err (Other "interface inspector is required")
  | Some inspect =>
      check? ValidateScopeBinding b in
      match inspect (InterfaceName b) with
      | Err _ => Err (ScopeMismatch "inspect enrolled interface")
      | Ok state =>
          check? validateInterfaceState state in
          guard? (Name state != InterfaceName b) || negb (Index state =? InterfaceIndex b)
          else ScopeMismatch "interface identity changed" in
          let? (current, hasNetworkPrefix) := canonicalUsablePrefixes (iPrefixes state) in
          let enrolled := merge_sort String.le (Prefixes b) in
          guard? negb hasNetworkPrefix || (current != enrolled) else ScopeMismatch "interface IP prefixes changed" in
          Ok state
      end
  end.

(** [address.WithZone("")] of an IPv6 address *)
Definition WithoutZone (a : Addr) : Addr := match a with V6 n _ => V6 n "" | _ => a end.

Definition AddressInScope (b : ScopeBinding) (address : Addr) : bool :=
  if negb (IsValid address) || IsUnspecified address || IsMulticast address || IsLoopback address then false
  else
    let candidate := if Is6 address then WithoutZone address else address in
    existsb (λ raw, match ParsePrefix raw with Some prefix => Contains prefix candidate | None => false end) (Prefixes b).

(** ** The operating system's interfaces *)

(** What [net.InterfaceByName] and [Addrs] give: [None] for an error; the addresses as texts. *)
Record systemInterface := mkSystem { sName : string; sIndex : Z; sFlags : Z; Addrs : option (list string) }.

(** [systemInterfaceInspector.Inspect]; [canceled] is [ctx.Err() != nil]. *)
Definition Inspect (canceled : bool) (interfaceByName : string → option systemInterface) (interfaceName : string)
  : result err InterfaceState :=
  guard? canceled else Other "context canceled" in
  match interfaceByName interfaceName with
  | None => Err (Other "inspect interface")
  | Some iface =>
      match Addrs iface with
      | None => Err (Other "read interface addresses")
      | Some addresses =>
          Ok (mkInterface (sName iface) (sIndex iface) (sFlags iface)
                (omap (λ a, Masked <$> ParsePrefix a) addresses))
      end
  end.

(** ** Candidates for enrollment *)

(** An interface as [net.Interfaces] lists it: index and name. *)
Definition iface_before (a b : Z * string) : Prop :=
  (if fst a =? fst b then string_ltb (snd b) (snd a) else fst b <? fst a) = false.
#[export] Instance iface_before_dec : RelDecision iface_before := λ a b, bool_eq_dec _ false.

(** The loop over the sorted interfaces; [canceled] lists what [ctx.Err()] says in each round. *)
Fixpoint candidates (inspect : string → result err InterfaceState) (canceled : list bool) (l : list (Z * string))
    (out : list ScopeBinding) : result err (list ScopeBinding * bool) :=
  match l with
  | [] => Ok (out, false)
  | iface :: l =>
      guard? default false (head canceled) else Other "context canceled" in
      match CaptureScopeBinding (Some inspect) (snd iface) with
      | Err _ => candidates inspect (tail canceled) l out
      | Ok binding =>
          if llen out =? MaxScopeCandidates then Ok (out, true) else candidates inspect (tail canceled) l (out ++ [binding])
      end
  end.

Definition scopeCandidatesFromInterfaces (inspect : option (string → result err InterfaceState)) (canceled : bool) (rounds : list bool)
    (interfaces : list (Z * string)) : result err (list ScopeBinding * bool) :=
  match inspect with
  | None => Err (Other "interface inspector is required")
  | Some inspect =>
      guard? canceled else Other "context canceled" in
      candidates inspect rounds (merge_sort iface_before interfaces) []
  end.

Definition ListScopeCandidates (inspect : option (string → result err InterfaceState)) (canceled : bool) (rounds : list bool)
    (interfaces : option (list (Z * string))) : result err (list ScopeBinding * bool) :=
  match interfaces with
  | None => Err (Other "list local interfaces")
  | Some interfaces => scopeCandidatesFromInterfaces inspect canceled rounds interfaces
  end.

(** ** Stored bindings *)

(** The stored metadata as [json.Unmarshal] reads it into [scopeMetadata], and as
    [json.Marshal] writes it. *)
Definition EncodeScopeMetadata (marshal : ScopeBinding → string) (b : ScopeBinding) : result err string :=
  check? ValidateScopeBinding b in Ok (marshal b).

Definition ParseScopeBinding (unmarshal : string → option (option ScopeBinding)) (scope : Domain.NetworkScope) : result err ScopeBinding :=
  match unmarshal (Domain.nsMetadata scope) with
  | None => Err (Other "decode device watch scope binding")
  | Some None => Err (Other "network scope has no device watch binding")
  | Some (Some binding) => check? ValidateScopeBinding binding in Ok binding
  end.

End Scope.

(** ** Prefixes are read back from their text *)

Lemma last_slash_none w : "/"%char ∉ w → last_slash w = None.
Proof.
  induction w as [|c w IH]; [done|]. intros H. cbn [last_slash]. rewrite IH by set_solver.
  rewrite bool_decide_eq_false_2; [done|]. intros ->. apply H. by left.
Qed.

Lemma last_slash_app u v : "/"%char ∉ v → last_slash (u ++ "/"%char :: v) = Some (u, v).
Proof.
  intros Hv. induction u as [|c u IH]; cbn [app last_slash]; [by rewrite last_slash_none|]. by rewrite IH.
Qed.

Lemma dec_bits n : 0 <= n < 256 → "/"%char ∉ dec n ∧ prefix_bits (dec n) = Some n.
Proof.
  intros Hn. assert (H : bool_decide ("/"%char ∉ dec n) && bool_decide (prefix_bits (dec n) = Some n) = true).
  { revert n Hn. refine (octet_cases _ _). vm_compute seq. simpl map. repeat constructor. }
  by rewrite andb_true_iff, !bool_decide_eq_true in H.
Qed.

Lemma ParsePrefix_PrefixString p :
  PrefixIsValid p = true → Zone (paddr p) = "" → well_formed_addr (paddr p) → ParsePrefix (PrefixString p) = Some p.
Proof.
  unfold PrefixIsValid. rewrite !andb_true_iff, !Z.leb_le. intros [[Hv H0] H1] Hz Hw.
  assert (Hb : 0 <= pbits p < 256) by (destruct (paddr p); simpl in *; lia). destruct (dec_bits _ Hb) as [Hs Hd].
  unfold ParsePrefix, PrefixString. rewrite String.list_ascii_of_string_of_list_ascii, last_slash_app by done.
  assert (Ha : parse_addr (addr_list (paddr p)) (addr_list (paddr p)) = Some (paddr p)).
  { pose proof (ParseAddr_AddrString (paddr p)) as H. unfold ParseAddr in H. rewrite AddrString_list in H. apply H; [|done].
    by intros E; rewrite E in Hv. }
  rewrite Ha, Hz, Hd. simpl. rewrite (proj2 (Z.ltb_ge _ _)) by lia. by destruct p.
Qed.

Lemma masked_valid p : PrefixIsValid p = true → PrefixIsValid (Masked p) = true.
Proof. by destruct p as [[|n|n z] k]. Qed.

Lemma masked_zone p : Zone (paddr p) = "" → Zone (paddr (Masked p)) = "".
Proof. by destruct p as [[|n|n z] k]. Qed.

Lemma mask_low_range w k n : 0 <= k <= w → 0 <= n < 2 ^ w → 0 <= mask_low w k n < 2 ^ w.
Proof.
  intros Hk Hn. unfold mask_low. rewrite Z.shiftl_mul_pow2, Z.shiftr_div_pow2 by lia.
  pose proof (Z.mod_pos_bound n (2 ^ (w - k)) ltac:(apply Z.pow_pos_nonneg; lia)). pose proof (Z.div_mod n (2 ^ (w - k)) ltac:(apply Z.pow_nonzero; lia)).
  pose proof (Z.div_pos n (2 ^ (w - k)) ltac:(lia) ltac:(apply Z.pow_pos_nonneg; lia)). nia.
Qed.

Lemma masked_wf p : PrefixIsValid p = true → well_formed_addr (paddr p) → well_formed_addr (paddr (Masked p)).
Proof.
  unfold PrefixIsValid. rewrite !andb_true_iff, !Z.leb_le. destruct p as [[|n|n z] k]; simpl; [done|..]; intros [[_ H0] H1] Hw;
    by apply mask_low_range.
Qed.

Lemma mask_low_idem w k n : 0 <= k <= w → mask_low w k (mask_low w k n) = mask_low w k n.
Proof. intros Hk. unfold mask_low. by rewrite Z.shiftr_shiftl_l, Z.sub_diag, Z.shiftl_0_r by lia. Qed.

Lemma masked_idem p : PrefixIsValid p = true → Masked (Masked p) = Masked p.
Proof.
  unfold PrefixIsValid. rewrite !andb_true_iff, !Z.leb_le. destruct p as [[|n|n z] k]; simpl; [done|..]; intros [[_ H0] H1];
    unfold Masked; simpl; by rewrite mask_low_idem.
Qed.

(** ** Sorting without repetitions *)

Lemma compact_invariant seen v rest :
  StronglySorted String.le (seen ++ v :: rest) →
  ∀ out, NoDup (out ++ [v]) ∧ StronglySorted String.le (out ++ [v]) ∧ (∀ x, x ∈ out ++ [v] ↔ x ∈ seen ++ [v]) →
  let l := foldl (λ out v, if bool_decide (last out = Some v) then out else out ++ [v]) (out ++ [v]) rest in
  NoDup l ∧ StronglySorted String.le l ∧ ∀ x, x ∈ l ↔ x ∈ seen ++ v :: rest.
Proof.
  revert seen v. induction rest as [|w rest IH]; intros seen v Hs out (Hn & Hso & He); [done|]. cbn [foldl].
  assert (Hassoc : seen ++ v :: w :: rest = (seen ++ [v]) ++ w :: rest) by by rewrite <- app_assoc.
  rewrite Hassoc in Hs |- *. rewrite last_snoc.
  assert (Hle : ∀ x, x ∈ seen ++ [v] → String.le x w).
  { intros x Hx. apply (StronglySorted_app_1_elem_of String.le _ _ x w Hs Hx). by left. }
  destruct (bool_decide_reflect (Some v = Some w)) as [[= ->]|Hvw].
  - apply (IH (seen ++ [w]) w Hs out). split_and!; [done..|]. intros x. rewrite He. set_solver.
  - assert (Hout : w ∉ out ++ [v]).
    { intros Hin. destruct (decide (v = w)) as [->|Hne]; [done|]. apply Hne. apply (anti_symm String.le).
      - apply Hle. apply elem_of_app. right. by left.
      - apply elem_of_app in Hin as [Hin| ->%list_elem_of_singleton]; [|done].
        apply (StronglySorted_app_1_elem_of String.le _ _ w v Hso Hin). by left. }
    apply (IH (seen ++ [v]) w Hs (out ++ [v])). split_and!.
    + apply NoDup_app. split_and!; [done| |apply NoDup_singleton]. by intros x Hx ->%list_elem_of_singleton.
    + apply StronglySorted_app. split_and!; [|done|repeat constructor]. intros x y Hx ->%list_elem_of_singleton. apply Hle. by apply He.
    + intros x. rewrite elem_of_app, He. symmetry. apply elem_of_app.
Qed.

Lemma compact_spec l :
  Sorted String.le l → NoDup (compactStrings l) ∧ Sorted String.le (compactStrings l) ∧ ∀ x, x ∈ compactStrings l ↔ x ∈ l.
Proof.
  intros Hs%(Sorted_StronglySorted String.le). destruct l as [|v rest]; [by repeat constructor|].
  destruct (compact_invariant [] v rest Hs []) as (Hn & Hso & He).
  - split_and!; [apply NoDup_singleton|repeat constructor|done].
  - split_and!; [done|by apply StronglySorted_Sorted|done].
Qed.

Lemma compact_sort l : NoDup (compactStrings (merge_sort String.le l)) ∧ (∀ x, x ∈ compactStrings (merge_sort String.le l) ↔ x ∈ l) ∧
  Sorted String.le (compactStrings (merge_sort String.le l)).
Proof.
  destruct (compact_spec (merge_sort String.le l)) as (Hn & Hs & He); [apply (Sorted_merge_sort String.le)|].
  split_and!; [done| |done]. intros x. by rewrite He, merge_sort_Permutation.
Qed.

(** A sorted list without repetitions is determined by its members. *)
Lemma compact_unique l l' :
  NoDup l' → (∀ x, x ∈ l ↔ x ∈ l') → compactStrings (merge_sort String.le l) = merge_sort String.le l'.
Proof.
  intros Hn He. destruct (compact_sort l) as (Hc & Hm & Hs). apply (Sorted_unique String.le); [done|apply (Sorted_merge_sort String.le)|].
  apply NoDup_Permutation; [done|by rewrite merge_sort_Permutation|]. intros x. by rewrite Hm, He, merge_sort_Permutation.
Qed.

(** ** What the checks say *)

Section Spec.
Context (letter_or_digit : Z → bool).

(** The texts of the networks of an interface, and whether one of them is more than a link. *)
Definition usable_texts (ps : list Prefix) : list string := map (λ p, PrefixString (Masked p)) (filter (λ p, usablePrefix p = true) ps).
Definition network (p : Prefix) : bool := usablePrefix p && negb (IsLinkLocalUnicast (paddr (Masked p))).

Lemma prefix_rounds ps st st' :
  for_each prefix_round ps st = Ok st' ↔
  Forall (λ p, PrefixIsValid p = true) ps ∧ st' = (st.1 ++ usable_texts ps, st.2 || existsb network ps).
Proof.
  revert st. induction ps as [|p ps IH]; intros [ts b]; cbn [for_each].
  { unfold usable_texts. rewrite filter_nil, app_nil_r, orb_false_r. split; [intros [= <-]; by split|by intros [_ ->]]. }
  rewrite res_bind_ok, Forall_cons. unfold prefix_round. setoid_rewrite guard_ok. setoid_rewrite negb_false_iff. setoid_rewrite IH.
  unfold usable_texts. rewrite filter_cons. cbn [existsb]. unfold network at 2. destruct (usablePrefix p) eqn:E; simpl.
  - split.
    + intros (t & [Hv [= <-]] & Hf & ->). simpl. by rewrite <- app_assoc, <- orb_assoc.
    + intros [[Hv Hf] ->]. eexists. split; [done|]. simpl. by rewrite <- app_assoc, <- orb_assoc.
  - naive_solver.
Qed.

Lemma canonical_prefixes ps cur net :
  canonicalUsablePrefixes ps = Ok (cur, net) ↔
  Forall (λ p, PrefixIsValid p = true) ps ∧ cur = compactStrings (merge_sort String.le (usable_texts ps)) ∧
  net = existsb network ps ∧ llen cur <= 32.
Proof.
  unfold canonicalUsablePrefixes. rewrite res_bind_ok. setoid_rewrite prefix_rounds. setoid_rewrite guard_ok. setoid_rewrite Z.ltb_ge.
  split; [intros (st & [Hf ->] & Hl & [= <- <-])|intros (Hf & -> & -> & Hl); eexists; split; [done|]]; done.
Qed.

Lemma and_iff_under (A B C : Prop) : (A → B ↔ C) → A ∧ B ↔ A ∧ C.
Proof. tauto. Qed.

(** An enrolled prefix: it is canonical and says something. *)
Definition enrolled (raw : string) (p : Prefix) : Prop := ParsePrefix raw = Some p ∧ usablePrefix p = true ∧ p = Masked p.

Lemma binding_rounds l seen seen' :
  for_each binding_round l seen = Ok seen' ↔
  ∃ ps, Forall2 enrolled l ps ∧ NoDup (map PrefixString ps) ∧ (∀ p, p ∈ ps → PrefixString p ∉ seen) ∧
    seen' = reverse (map PrefixString ps) ++ seen.
Proof.
  revert seen. induction l as [|raw l IH]; intros seen; cbn [for_each].
  { split; [intros [= <-]; exists []; split_and!; [done|constructor|set_solver|done]|]. intros (ps & ->%Forall2_nil_inv_l & _ & _ & ->). done. }
  rewrite res_bind_ok. unfold binding_round at 1. split.
  - intros (s & Hb & (ps & Hf & Hn & Hd & ->)%IH). destruct (ParsePrefix raw) as [p|] eqn:E; [|done].
    rewrite !guard_ok, orb_false_iff, !negb_false_iff, bool_decide_eq_true, bool_decide_eq_false in Hb. destruct Hb as ([Hu Hm] & Hs & [= <-]).
    exists (p :: ps). split_and!.
    + by constructor.
    + simpl. constructor; [|done]. rewrite list_elem_of_In, in_map_iff. intros (q & Eq & Hq%list_elem_of_In).
      apply (Hd q Hq). rewrite Eq. by left.
    + intros q [->|Hq]%elem_of_cons; [done|]. intros Hin. apply (Hd q Hq). by right.
    + simpl. by rewrite reverse_cons, <- app_assoc.
  - intros (ps & Hf & Hn & Hd & ->). apply Forall2_cons_inv_l in Hf as (p & ps' & (Hp & Hu & Hm) & Hf & ->). rewrite Hp.
    simpl in Hn. apply NoDup_cons in Hn as [Hnew Hn]. exists (PrefixString p :: seen). split.
    + rewrite !guard_ok, orb_false_iff, !negb_false_iff, bool_decide_eq_true, bool_decide_eq_false. split_and!; try done. apply Hd. by left.
    + apply IH. exists ps'. split_and!; [done..| |simpl; by rewrite reverse_cons, <- app_assoc]. intros q Hq [E|Hin]%elem_of_cons.
      * apply Hnew. rewrite <- E. rewrite list_elem_of_In, in_map_iff. exists q. by rewrite <- list_elem_of_In.
      * apply (Hd q); [by right|done].
Qed.

Definition binding_ok (b : ScopeBinding) : Prop :=
  validateInterfaceName letter_or_digit (InterfaceName b) = Ok tt ∧ 0 < InterfaceIndex b ∧ 1 <= llen (Prefixes b) <= 32 ∧
  ∃ ps, Forall2 enrolled (Prefixes b) ps ∧ NoDup (map PrefixString ps).

Lemma binding_iff b : ValidateScopeBinding letter_or_digit b = Ok tt ↔ binding_ok b.
Proof.
  unfold ValidateScopeBinding, binding_ok. rewrite Manifest.check_ok, !guard_ok, Manifest.only_ok, Z.leb_gt, orb_false_iff, Z.ltb_ge, Z.eqb_neq.
  setoid_rewrite binding_rounds. unfold llen. split.
  - intros (Hn & Hi & [? ?] & s & ps & Hf & Hd & _). split_and!; try done; [lia|]. eauto.
  - intros (Hn & Hi & [? ?] & ps & Hf & Hd). split_and!; try done; [lia|]. exists (reverse (map PrefixString ps) ++ []), ps. set_solver.
Qed.

Lemma enrolled_distinct l ps : Forall2 enrolled l ps → NoDup (map PrefixString ps) → NoDup l.
Proof.
  induction 1 as [|raw p l ps (Hp & _) Hf IH]; [constructor|]. simpl. rewrite !NoDup_cons. intros [Hnew Hn]. split; [|auto].
  intros [i Hi]%list_elem_of_lookup_1. destruct (Forall2_lookup_l _ _ _ _ _ Hf Hi) as (q & Hq & Hpq & _).
  apply Hnew. rewrite list_elem_of_In, in_map_iff. exists q. rewrite <- list_elem_of_In. split; [congruence|].
  by apply list_elem_of_lookup_2 in Hq.
Qed.

Lemma binding_distinct b : binding_ok b → NoDup (Prefixes b).
Proof. intros (_ & _ & _ & ps & Hf & Hn). by eapply enrolled_distinct. Qed.

Lemma elem_of_usable t ps : t ∈ usable_texts ps ↔ ∃ p, p ∈ ps ∧ usablePrefix p = true ∧ t = PrefixString (Masked p).
Proof.
  unfold usable_texts. rewrite list_elem_of_In, in_map_iff. setoid_rewrite <- list_elem_of_In. setoid_rewrite list_elem_of_filter. naive_solver.
Qed.

(** The interface is the enrolled one and has exactly the enrolled networks. *)
Definition current (b : ScopeBinding) (st : InterfaceState) : Prop :=
  validateInterfaceState letter_or_digit st = Ok tt ∧ Name st = InterfaceName b ∧ Index st = InterfaceIndex b ∧
  Forall (λ p, PrefixIsValid p = true) (iPrefixes st) ∧ existsb network (iPrefixes st) = true ∧
  ∀ t, t ∈ Prefixes b ↔ ∃ p, p ∈ iPrefixes st ∧ usablePrefix p = true ∧ t = PrefixString (Masked p).

Lemma current_iff inspect b st :
  ValidateCurrentScope letter_or_digit (Some inspect) b = Ok st ↔ binding_ok b ∧ inspect (InterfaceName b) = Ok st ∧ current b st.
Proof.
  unfold ValidateCurrentScope, current. rewrite Manifest.check_ok, binding_iff. apply and_iff_under. intros Hb.
  destruct (inspect (InterfaceName b)) as [st'|e]; [|naive_solver].
  rewrite Manifest.check_ok, guard_ok, res_bind_ok, orb_false_iff, !negb_false_iff, bool_decide_eq_true, Z.eqb_eq.
  setoid_rewrite <- elem_of_usable. split.
  - intros (Hs & [Hn Hi] & [cur net] & (Hf & -> & -> & Hl)%canonical_prefixes & Hg).
    rewrite guard_ok, orb_false_iff, !negb_false_iff, bool_decide_eq_true in Hg. destruct Hg as [[Hnet E] [= <-]].
    split_and!; try done. intros t. destruct (compact_sort (usable_texts (iPrefixes st'))) as (_ & Hm & _).
    by rewrite <- Hm, E, merge_sort_Permutation.
  - intros ([= <-] & Hs & Hn & Hi & Hf & Hnet & Hp). split_and!; [done..|].
    assert (E : compactStrings (merge_sort String.le (usable_texts (iPrefixes st'))) = merge_sort String.le (Prefixes b)).
    { apply compact_unique; [by apply binding_distinct|]. intros t. symmetry. apply Hp. }
    exists (compactStrings (merge_sort String.le (usable_texts (iPrefixes st'))), existsb network (iPrefixes st')). split.
    + apply canonical_prefixes. split_and!; try done. rewrite E. unfold llen. rewrite (Permutation_length (merge_sort_Permutation String.le _)).
      destruct Hb as (_ & _ & [_ ?] & _). done.
    + rewrite E, Hnet, bool_decide_eq_true_2 by done. done.
Qed.

(** [ValidateCurrentScope] accepts exactly when the stored binding is well formed and the interface the
    system reports under the enrolled name has the enrolled name and index, is up and neither loopback nor
    point to point, and has exactly the enrolled prefixes as its usable networks, one of them more than
    link-local: a changed network is never taken for the enrolled one, whatever the order of its prefixes. *)
Theorem current_scope_spec inspect b st :
  ValidateCurrentScope letter_or_digit (Some inspect) b = Ok st ↔ binding_ok b ∧ inspect (InterfaceName b) = Ok st ∧ current b st.
Proof. apply current_iff. Qed.

End Spec.

(** ** Enrollment *)

Lemma texts_enrolled l :
  (∀ t, t ∈ l → ∃ p, enrolled t p ∧ PrefixString p = t) → ∃ ps, Forall2 enrolled l ps ∧ map PrefixString ps = l.
Proof.
  induction l as [|t l IH]; intros H; [by exists []|]. destruct (H t) as (p & Hp & Et); [by left|].
  destruct IH as (ps & Hf & El); [intros u Hu; apply H; by right|]. exists (p :: ps). split; [by constructor|]. simpl. congruence.
Qed.

(** What the operating system reports is masked and well formed. *)
Lemma inspected_prefixes canceled byName name st :
  Inspect canceled byName name = Ok st →
  (∃ i, byName name = Some i ∧ Name st = sName i) ∧
  Forall (λ p, PrefixIsValid p = true ∧ Masked p = p ∧ Zone (paddr p) = "" ∧ well_formed_addr (paddr p)) (iPrefixes st).
Proof.
  unfold Inspect. rewrite guard_ok. intros [_ H]. destruct (byName name) as [i|] eqn:E; [|done]. destruct (Addrs i) as [l|]; [|done].
  injection H as <-. simpl. split; [by exists i|]. apply Forall_forall. intros p (a & _ & Ha)%list_elem_of_omap.
  destruct (ParsePrefix a) as [q|] eqn:Eq; [|done]. injection Ha as <-. destruct (ParsePrefix_wf _ _ Eq) as (Hn & Hz & Hw).
  assert (Hv : PrefixIsValid q = true).
  { pose proof (ParsePrefix_bits _ _ Eq). unfold PrefixIsValid. rewrite !andb_true_iff, !Z.leb_le. split; [|lia]. split; [|lia].
    by destruct (paddr q). }
  split_and!; [by apply masked_valid|by apply masked_idem|by apply masked_zone|by apply masked_wf].
Qed.

Section Enroll.
Context (letter_or_digit : Z → bool).

Lemma capture_ok inspect name b :
  CaptureScopeBinding letter_or_digit (Some inspect) name = Ok b →
  ∃ st, inspect name = Ok st ∧ validateInterfaceState letter_or_digit st = Ok tt ∧
    Forall (λ p, PrefixIsValid p = true) (iPrefixes st) ∧ existsb network (iPrefixes st) = true ∧
    b = mkBinding (Name st) (Index st) (compactStrings (merge_sort String.le (usable_texts (iPrefixes st)))) ∧ llen (Prefixes b) <= 32.
Proof.
  unfold CaptureScopeBinding. rewrite Manifest.check_ok, res_bind_ok. intros (_ & st & Hst & H). rewrite Manifest.check_ok, res_bind_ok in H.
  destruct H as (Hs & [cur net] & (Hf & -> & -> & Hl)%canonical_prefixes & Hg). rewrite guard_ok, negb_false_iff in Hg.
  destruct Hg as [Hnet [= <-]]. by exists st.
Qed.

Lemma captured_binding canceled byName name b :
  CaptureScopeBinding letter_or_digit (Some (Inspect canceled byName)) name = Ok b →
  (∀ n i, byName n = Some i → sName i = n) →
  binding_ok letter_or_digit b ∧ InterfaceName b = name ∧ ∃ st, Inspect canceled byName name = Ok st ∧ current letter_or_digit b st.
Proof.
  intros (st & Hst & Hs & Hv & Hnet & -> & Hl)%capture_ok Hname.
  destruct (inspected_prefixes _ _ _ _ Hst) as [(i & Hi & En) Hp]. rewrite Forall_forall in Hp.
  destruct (compact_sort (usable_texts (iPrefixes st))) as (Hn & Hm & _).
  assert (Hid : Name st = name) by (rewrite En; by apply Hname).
  assert (Htext : ∀ t, t ∈ compactStrings (merge_sort String.le (usable_texts (iPrefixes st))) → ∃ p, enrolled t p ∧ PrefixString p = t).
  { intros t (p & Hin & Hu & ->)%Hm%elem_of_usable. destruct (Hp p Hin) as (Hpv & Hpm & Hz & Hw). exists p. unfold enrolled.
    rewrite Hpm. split; [|done]. split_and!; [by apply ParsePrefix_PrefixString|done|done]. }
  destruct (texts_enrolled _ Htext) as (ps & Hf & Ht). split_and!; [|done|].
  - unfold validateInterfaceState in Hs. rewrite Manifest.check_ok, !guard_ok, Z.leb_gt in Hs. destruct Hs as (Hnm & Hi0 & _).
    split_and!; try done; [|exists ps; by rewrite Ht]. simpl. unfold llen.
    destruct (compactStrings _) as [|t l] eqn:Ec; [|simpl; lia]. exfalso. apply existsb_true_iff, Exists_exists in Hnet as (p & Hin & Hpn).
    unfold network in Hpn. rewrite andb_true_iff in Hpn. destruct Hpn as [Hu _]. apply (not_elem_of_nil (PrefixString (Masked p))), Hm, elem_of_usable. eauto.
  - exists st. split; [done|]. split_and!; try done. intros t. simpl. by rewrite Hm, elem_of_usable.
Qed.

(** C26: enrollment is stable.  What [CaptureScopeBinding] captures of an interface through the system
    inspector passes [ValidateScopeBinding], so it can be stored; read back it is the same binding; and
    while the interface does not change it stays current.  [net.InterfaceByName] answers with the name
    asked for, and the JSON text of this binding decodes to it. *)
Theorem enrollment_roundtrip canceled byName name b marshal unmarshal :
  (∀ n i, byName n = Some i → sName i = n) → unmarshal (marshal b) = Some (Some b) →
  CaptureScopeBinding letter_or_digit (Some (Inspect canceled byName)) name = Ok b →
  InterfaceName b = name ∧
  EncodeScopeMetadata letter_or_digit marshal b = Ok (marshal b) ∧
  (∀ scope, Domain.nsMetadata scope = marshal b → ParseScopeBinding letter_or_digit unmarshal scope = Ok b) ∧
  is_ok (ValidateCurrentScope letter_or_digit (Some (Inspect canceled byName)) b) = true.
Proof.
  intros Hname Hj Hc. destruct (captured_binding _ _ _ _ Hc Hname) as (Hb & Hn & st & Hst & Hcur).
  unfold EncodeScopeMetadata, ParseScopeBinding. rewrite (proj2 (binding_iff letter_or_digit b)) by done. split_and!; [done|done| |].
  - intros scope ->. rewrite Hj. simpl. by rewrite (proj2 (binding_iff letter_or_digit b)).
  - apply is_ok_true. exists st. apply current_iff. by rewrite Hn.
Qed.

End Enroll.

(** A laptop on a home network. *)
Definition home_interface : systemInterface := mkSystem "en0" 4 19 (Some ["192.168.1.20/24"; "fe80::1c2a:5/64"; "127.0.0.1/8"]).
Definition home_by_name (n : string) : option systemInterface := if n == "en0" then Some home_interface else None.
Definition home_binding : ScopeBinding := mkBinding "en0" 4 ["192.168.1.0/24"; "fe80::/64"].
Definition no_letters (r : Z) : bool := false.

Lemma enrollment_roundtrip_witness :
  EncodeScopeMetadata no_letters (λ _, "stored") home_binding = Ok "stored" ∧
  is_ok (ValidateCurrentScope no_letters (Some (Inspect false home_by_name)) home_binding) = true.
Proof.
  destruct (enrollment_roundtrip no_letters false home_by_name "en0" home_binding (λ _, "stored") (λ _, Some (Some home_binding)))
    as (_ & He & _ & Hc); [|done|vm_compute; reflexivity|by split].
  intros n i. unfold home_by_name. case_bool_decide as E; [|done]. by intros [= <-].
Defined.

Example address_in_scope :
  (AddressInScope home_binding (V4 3232235800), AddressInScope home_binding (V4 167772161)) = (true, false).
Proof. vm_compute. reflexivity. Qed.

(** ** Names and bytes *)

(** What follows the first byte of a sequence is above ASCII. *)
Lemma sequence_tail c r n :
  sequence (c :: r) = n → (n = 1%nat → c < 128) ∧ Forall (λ d, 128 <= d) (take (n - 1) r).
Proof.
  unfold sequence. destruct (Z.ltb_spec c 128); [intros <-; split; [done|simpl; constructor]|].
  destruct r as [|d r]; [intros <-; split; [done|constructor]|].
  destruct (between 194 223 c && continuation d) eqn:E2.
  { intros <-. split; [done|]. unfold continuation, between in E2. go_bool. simpl. repeat constructor. lia. }
  destruct r as [|e r]; [intros <-; split; [done|constructor]|].
  destruct (continuation e && _) eqn:E3.
  { intros <-. split; [done|]. unfold continuation, between in E3. simpl. go_bool. repeat constructor; [|lia].
    repeat match goal with H : _ ∨ _ |- _ => destruct H end; go_bool; lia. }
  destruct r as [|f r]; [intros <-; split; [done|constructor]|].
  destruct (continuation e && continuation f && _) eqn:E4; intros <-; (split; [done|]); simpl; [|constructor].
  unfold continuation, between in E4. go_bool. repeat constructor; [|lia|lia].
  repeat match goal with H : _ ∨ _ |- _ => destruct H end; go_bool; lia.
Qed.

Lemma runes_ascii b p : b < 128 → b ∈ p → b ∈ Domain.runes p.
Proof.
  intros Hb. remember (length p) as n eqn:En. revert p En. induction (lt_wf n) as [n _ IH]. intros [|c r] -> Hin; [by apply not_elem_of_nil in Hin|].
  destruct (sequence_tail c r _ eq_refl) as [H1 Hf]. cbn [Domain.runes].
  assert (Hrest : ∀ k l, r = k ++ l → b ∉ k → b ≠ c → b ∈ Domain.runes l).
  { intros k l -> Hk Hc. apply (IH (length l)); [simpl; rewrite length_app; lia|done|]. apply elem_of_cons in Hin as [?|Hin]; [done|].
    apply elem_of_app in Hin as [?|?]; done. }
  destruct (decide (b = c)) as [->|Hne].
  - assert (E : sequence (c :: r) = 1%nat) by (unfold sequence; by rewrite (proj2 (Z.ltb_lt _ _) Hb)). rewrite E. by left.
  - assert (Hlow : ∀ k, b ∈ k → Forall (λ d, 128 <= d) k → False) by (intros k Hk Hk'; rewrite Forall_forall in Hk'; apply Hk' in Hk; lia).
    destruct (sequence (c :: r)) as [|[|[|[|[|k]]]]]; destruct r as [|d [|e [|f r]]]; cbn [Nat.sub take] in Hf; right;
      first [apply (Hrest [] _ eq_refl); [apply not_elem_of_nil|done]|apply (Hrest [d] _ eq_refl); [intros Hk; by apply (Hlow _ Hk)|done]
            |apply (Hrest [d; e] _ eq_refl); [intros Hk; by apply (Hlow _ Hk)|done]
            |apply (Hrest [d; e; f] _ eq_refl); [intros Hk; by apply (Hlow _ Hk)|done]].
Qed.

Lemma name_plain letter_or_digit v :
  validateInterfaceName letter_or_digit v = Ok tt → v ≠ "" ∧ slen v <= 64 ∧ TrimSpace v = v ∧ ContainsAny [13%N; 10%N; 0%N] v = false.
Proof.
  unfold validateInterfaceName. rewrite guard_ok, !orb_false_iff, negb_false_iff, bool_decide_eq_true, bool_decide_eq_false, Z.ltb_ge.
  intros [[[He Hl] Ht] Hr]. split_and!; try done. unfold ContainsAny. apply existsb_false_iff, Forall_forall. intros c Hc.
  destruct (existsb _ _) eqn:E; [|done]. exfalso. simpl in E. rewrite !orb_true_iff, !N.eqb_eq in E.
  assert (Hin : byte_of c ∈ Domain.runes (sbytes v)).
  { apply runes_ascii; [unfold byte_of; naive_solver lia|]. unfold sbytes. rewrite list_elem_of_In. apply in_map. by rewrite <- list_elem_of_In. }
  assert (Hbad : ∀ b, name_rune letter_or_digit b (byte_of c) = false).
  { intros b. unfold name_rune, byte_of. by destruct E as [->|[->|[->|?]]]. }
  destruct (Domain.runes (sbytes v)) as [|r rs]; [by apply not_elem_of_nil in Hin|].
  rewrite Manifest.guard_unit, negb_false_iff, andb_true_iff, forallb_true_iff, Forall_forall in Hr. destruct Hr as [Hr Hrs].
  apply elem_of_cons in Hin as [E'|Hin]; [|apply Hrs in Hin]; rewrite ?E' in *; rewrite Hbad in *; done.
Qed.

End WatchScope.
