(* ===== verification/GatewaySession.v ===== *)
(** * The gateway session

    [localapi/gateway_projection.go]: what the consent exchange of the gateway check shows
    and returns.  Reviews and results are projected to the wire and validated on both
    sides.  The theorems connect the session with the run control: a review the control
    issues is delivered until it expires, and a result the control confirmed is never
    withheld. *)

From Stdlib Require Import Ascii.
From S2P Require Import Prelude Regex GoTime NetAddr NetText GatewayPlan RunControl RunResult GatewayRun Effects ConsentSession WatchScope GatewayControl GoJSON.

Module GatewaySession.
Import Gateway Session.

(** [api.GatewayPlanBudget] *)
Record PlanBudget := mkPlanBudget {
  bMaxAttempts : Z; MinIntervalMS : Z; AttemptTimeoutMS : Z; TotalTimeoutMS : Z;
  bPayloadBytes : Z; bMaxICMPRequestBytes : Z; bMaxConcurrentRuns : Z; MinRunIntervalMS : Z;
}.

Record GatewayCheckReview := mkGatewayCheckReview {
  rSchemaVersion : Z;
  Mode : string;
  GatewayRoleVerified : bool;
  Challenge : string;
  rProfile : string;
  rCreatedAt : Time;
  ExpiresAt : Time;
  rBinding : GatewayPlanBinding;
  rTarget : string;
  rSource : string;
  rBudget : PlanBudget;
}.

(** The measurement of a result has the fields of the audited one. *)
Record GatewayCheckResult := mkGatewayCheckResult {
  resSchemaVersion : Z;
  resReview : GatewayCheckReview;
  resRunID : string;
  resOutcome : string;
  FailureCode : string;
  resMeasurement : option Measurement;
}.

#[export] Instance PlanBudget_eq_dec : EqDecision PlanBudget.
Proof. solve_decision. Defined.
#[export] Instance GatewayCheckReview_eq_dec : EqDecision GatewayCheckReview.
Proof. solve_decision. Defined.

Definition parseGatewayAddress (raw : string) : option Addr :=
  match ValidateGatewayPreviewTarget raw with Ok _ => ParseAddr raw | Err _ => None end.

Definition Milliseconds (d : Duration) : Z := Z.quot d Millisecond.

Definition wireGatewayBudget (b : GatewayProbeBudget) : PlanBudget :=
  mkPlanBudget (MaxAttempts b) (Milliseconds (MinInterval b)) (Milliseconds (AttemptTimeout b)) (Milliseconds (TotalTimeout b))
    (PayloadBytes b) (MaxICMPRequestBytes b) (MaxConcurrentRuns b) (Milliseconds (MinRunInterval b)).

Section Projection.
Context (digest_bytes : Selection → string).
Local Notation package := (gatewayPackage digest_bytes).

Definition projectGatewayReview (r : Review (P := package)) (challenge : string) : GatewayCheckReview :=
  let s : Selection := review_selection r in
  let b := Binding (Plan s) in
  mkGatewayCheckReview 1 "experimental-one-shot" false challenge Profile (UTC (Round0 (CreatedAt (Plan s)))) (UTC (Round0 (review_expires r)))
    (mkGatewayPlanBinding (ScopeID b) (InterfaceName b) (InterfaceIndex b) (Prefixes b))
    (AddrString (GatewayPlan.Target (Plan s))) (AddrString (Source s)) (wireGatewayBudget (Budget (Plan s))).

Definition gatewayTime (t : Time) : bool := negb (IsZero t) && Equal (Unix0 (UnixNano t)) t.

Definition validateGatewayReview (r : GatewayCheckReview) (target : string) (now : Time) : bool :=
  if negb (rSchemaVersion r =? 1) || (Mode r != "experimental-one-shot") || GatewayRoleVerified r || (rProfile r != Profile) ||
     negb (MatchString gatewayChallenge (Challenge r)) || (rTarget r != target) || (rSource r == target) ||
     negb (gatewayTime (rCreatedAt r)) || negb (gatewayTime (ExpiresAt r)) || After (rCreatedAt r) now || negb (After (ExpiresAt r) now) ||
     negb (After (ExpiresAt r) (rCreatedAt r)) || (GatewayReviewLifetime <? Sub (ExpiresAt r) (rCreatedAt r))
  then false else
  match PreviewGatewayCheck (rBinding r) target (rCreatedAt r) with
  | Err _ => false
  | Ok plan =>
      if (wireGatewayBudget (Budget plan) != rBudget r) || (Prefixes (Binding plan) != Prefixes (rBinding r)) then false
      else is_ok (PreviewGatewayCheck (rBinding r) (rSource r) (rCreatedAt r))
  end.

Definition wire_measurement (s : Sample) : Measurement :=
  mkMeasurement (UTC (Round0 (sampleStartedAt s)))
    (if negb (IsZero (sampleCompletedAt s)) then Some (UTC (Round0 (sampleCompletedAt s))) else None)
    (sampleSendCalls s) (sampleAcceptedRequests s) (sampleReplies s) (sampleTimeouts s) (sampleComplete s) (sampleMeanRTT s).

Definition projectGatewayResult (review : GatewayCheckReview) (r : Result (P := package)) (err : option run_err) : GatewayCheckResult :=
  mkGatewayCheckResult 1 review (result_run r) (result_outcome r) (match err with Some e => errorCode e | None => "" end)
    (option_map wire_measurement (result_sample r)).

(** The measurement is structurally invalid or outside of the review. *)
Definition outside (m : option Measurement) (review : GatewayCheckReview) (now : Time) : bool :=
  match m with
  | Some m =>
      negb (validateMeasurement m now) || Before (StartedAt m) (rCreatedAt review) || negb (Before (StartedAt m) (ExpiresAt review)) ||
      match CompletedAt m with Some t => negb (Before t (ExpiresAt review)) | None => false end
  | None => false
  end.

Definition validateGatewayResult (r : GatewayCheckResult) (review : GatewayCheckReview) (now : Time) : bool :=
  if negb (resSchemaVersion r =? 1) || (resReview r != review) then false
  else if resOutcome r == "declined" then
    negb ((resRunID r != "") || is_some (resMeasurement r) || (FailureCode r != ""))
  else if negb (MatchString gatewayChallenge (resRunID r)) then false
  else if outside (resMeasurement r) review now then false
  else if resOutcome r == "completed" then (FailureCode r == "") && is_some_complete (resMeasurement r)
  else if resOutcome r == "canceled" then FailureCode r == "canceled"
  else if resOutcome r == "failed" then (FailureCode r == "execution_failed") && negb (is_some_complete (resMeasurement r))
  else if resOutcome r == "indeterminate" then (FailureCode r == "execution_failed") && negb (is_some (resMeasurement r))
  else if resOutcome r == "blocked" then
    ((FailureCode r == "precondition_failed") || (FailureCode r == "review_expired")) && negb (is_some (resMeasurement r))
  else false.

Lemma gateway_declined_valid w t : validateGatewayResult (mkGatewayCheckResult 1 w "" "declined" "" None) w t = true.
Proof. unfold validateGatewayResult. cbn. by rewrite bool_decide_eq_true_2. Qed.

Lemma gateway_challenge_valid w p t : validateGatewayReview w p t = true → MatchString gatewayChallenge (Challenge w) = true.
Proof. unfold validateGatewayReview. rewrite if_false_iff, !orb_false_iff, !negb_false_iff. intros [H _]. by apply H. Qed.

Definition gatewaySession : SessionPackage package := {|
  WireReview := GatewayCheckReview;
  WireResult := GatewayCheckResult;
  method := "network-quality.gateway-check";
  param_name := "target";
  param_ok := λ t, is_ok (ValidateGatewayPreviewTarget t);
  param_target := λ t, default AddrNone (parseGatewayAddress t) : @RunControl.Target package;
  challenge_of := Challenge;
  expires_of := ExpiresAt;
  project_review := projectGatewayReview;
  validate_review := validateGatewayReview;
  declined := λ w, mkGatewayCheckResult 1 w "" "declined" "" None;
  outcome_of := resOutcome;
  project_result := projectGatewayResult;
  validate_result := validateGatewayResult;
  operation_timeout := OperationTimeout;
  audit_timeout := AuditTimeout;
  response_limit := gatewayFrameLimit;
  request_timeout := 5 * Second;
  compares_outcome := false;
  challenge_project := λ _ _, eq_refl;
  challenge_valid := gateway_challenge_valid;
  declined_valid := gateway_declined_valid;
|}.

(** The server's and the client's side of the exchange. *)
Definition gatewayCheck := @check package gatewaySession.
Definition CheckGateway := @client package gatewaySession.

(** ** Reviews *)

Lemma gatewayTime_eq t : gatewayTime t = in_int64 (wall t).
Proof. apply validTime_eq. Qed.

(** Previews can be repeated on what they return. *)
Lemma preview_again b target now plan now' :
  PreviewGatewayCheck b target now = Ok plan → Forall (λ raw, slen raw <= 64) (Prefixes (Binding plan)) → clock_wf (UTC now') →
  PreviewGatewayCheck (Binding plan) target now' =
  Ok (mkGatewayCheckPlan (Binding plan) (GatewayPlan.Target plan) (UTC now') (Add (UTC now') GatewayReviewLifetime) gatewayBudget).
Proof.
  intros (m & ps & Hm & -> & Hp & (Hb1 & Hb2 & Hb3 & Hb4) & _ & (Hf & Hn) & Hex & ->)%preview_iff Hlen Hc. cbn [Binding Prefixes GatewayPlan.Target] in *.
  pose proof (merge_sort_Permutation String.le (map PrefixString ps)) as Hperm.
  destruct (Permutation_map_inv _ _ Hperm) as (ps' & Heq & Hps). apply preview_iff. exists m, ps'.
  assert (Hall : Forall (λ p, ParsePrefix (PrefixString p) = Some p ∧ prefix_accepted p ∧ host_of m p) ps).
  { apply Forall_forall. intros p [i Hi]%list_elem_of_lookup_1. destruct (Forall2_lookup_r _ _ _ _ _ Hf Hi) as (raw & _ & _ & Hr & Ha & Hh).
    split; [|done]. destruct (ParsePrefix_wf _ _ Hr) as (Hv & Hz & Hw). pose proof (ParsePrefix_bits _ _ Hr) as Hbits.
    apply WatchScope.ParsePrefix_PrefixString; [|done..]. unfold WatchScope.PrefixIsValid. rewrite !andb_true_iff, !Z.leb_le. split_and!; try lia. by destruct (paddr p). }
  split_and!; try (done || lia); cbn [ScopeID InterfaceName InterfaceIndex Prefixes].
  - unfold binding_wf. cbn [ScopeID InterfaceName InterfaceIndex Prefixes]. rewrite Heq, length_map, <- (Permutation_length Hps), <- (Forall2_length _ _ _ Hf). done.
  - rewrite Heq in Hlen |- *. split; [|by rewrite <- Hps]. rewrite Hps in Hall. apply Forall2_fmap_l, Forall_Forall2_diag.
    apply Forall_forall. intros p Hp'. rewrite Forall_forall in Hall. destruct (Hall p) as (? & ? & ?); [done|].
    split_and!; try done. rewrite Forall_forall in Hlen. apply Hlen, list_elem_of_fmap. by exists p.
  - by rewrite <- Hps.
  - do 2 f_equal. apply sort_strings_perm. by rewrite <- Heq.
Qed.

Lemma preview_time b target now plan now' :
  PreviewGatewayCheck b target now = Ok plan → clock_wf (UTC now') → is_ok (PreviewGatewayCheck b target now') = true.
Proof.
  intros (m & ps & Hm & Ht & Hp & Hb & _ & Hps & Hex & _)%preview_iff Hc. apply is_ok_true. eexists. apply preview_iff. exists m, ps. split_and!; done || lia.
Qed.

Lemma preview_short b target now plan : PreviewGatewayCheck b target now = Ok plan → Forall (λ raw, slen raw <= 64) (Prefixes b).
Proof.
  intros (m & ps & _ & _ & _ & _ & _ & [Hf _] & _)%preview_iff. eapply Forall2_Forall_l; [exact Hf|]. apply Forall_forall. naive_solver.
Qed.

(** The expiry [Prepare] gives a review. *)
Definition review_expiry (s : Selection) : Time :=
  if Before (RouteFreshUntil s) (ReviewExpiresAt (Plan s)) then RouteFreshUntil s else ReviewExpiresAt (Plan s).

Lemma review_valid s0 target now s tk challenge t :
  normalize s0 target now = Some s → canonical now → well_formed_addr target → well_formed_addr (Source s0) →
  validTime (review_expiry s) = true → wall now <= wall t < wall (review_expiry s) → MatchString gatewayChallenge challenge = true →
  validateGatewayReview (projectGatewayReview (mkReview (P := package) tk s (review_expiry s)) challenge) (AddrString target) t = true.
Proof.
  intros Hn Hc Ht Hs Hv Hw Hch. destruct (normalize_auditable _ _ _ _ Hn Ht Hs) as (_ & _ & _ & Htgt & _ & _ & Hsrc).
  unfold normalize in Hn. destruct (_ || _) eqn:E in Hn; [done|]. rewrite !orb_false_iff, !negb_false_iff in E. destruct_and! E.
  destruct (PreviewGatewayCheck _ (AddrString target) _) as [plan|] eqn:Ep; [|done]. destruct (_ || _) eqn:E' in Hn; [done|].
  destruct (PreviewGatewayCheck _ (AddrString (Source s0)) now) as [plan'|] eqn:Eq; [|done]. injection Hn as <-.
  pose proof Ep as (m & ps & _ & _ & _ & _ & Hclk & _ & _ & Hplan)%preview_iff.
  set (s := mkSelection plan _ _ _) in *. set (expires := review_expiry s) in *.
  assert (Hcr : CreatedAt plan = UTC (CreatedAt (Plan s0))) by by rewrite Hplan.
  assert (Hex : ReviewExpiresAt plan = Add (UTC (CreatedAt (Plan s0))) GatewayReviewLifetime) by by rewrite Hplan.
  assert (Hle : wall expires <= wall (CreatedAt plan) + GatewayReviewLifetime).
  { unfold expires, review_expiry. cbn [RouteFreshUntil Plan s]. rewrite Before_wall by (right; rewrite Hex; auto with cozy).
    rewrite Hex, Hcr. case_match; rewrite ?wall_Add in *; go_bool; lia. }
  assert (Hin : in_int64 (wall (CreatedAt (Plan s0))) = true) by by apply validTime_spec.
  rewrite After_wall in H6 by auto. apply validTime_spec in Hv. pose proof (preview_short _ _ _ _ Eq) as Hshort.
  unfold validateGatewayReview, projectGatewayReview. cbn [rSchemaVersion Mode GatewayRoleVerified rProfile Challenge rTarget rSource rCreatedAt ExpiresAt rBinding rBudget
    review_selection review_expires RunControl.Selection gatewayPackage].
  change (Plan s) with plan in *. change (Source s) with (Source s0) in *. rewrite Htgt, Hch, !gatewayTime_eq. cbn [wall UTC Round0 stripMono].
  rewrite Hv, !After_wall, Sub_wall by auto with cozy. cbn [wall UTC Round0 stripMono]. rewrite Hcr. cbn [wall UTC].
  rewrite Hin. rewrite (bool_decide_eq_false_2 _ Hsrc), !bool_decide_eq_true_2 by done.
  assert (Hb : mkGatewayPlanBinding (ScopeID (Binding plan)) (InterfaceName (Binding plan)) (InterfaceIndex (Binding plan)) (Prefixes (Binding plan)) = Binding plan)
    by by destruct (Binding plan).
  rewrite Hb, (preview_again _ _ _ _ _ Ep Hshort) by exact Hclk. cbn [Budget Binding]. rewrite (preview_time _ _ _ _ _ Eq) by exact Hclk.
  replace (Budget plan) with gatewayBudget by by rewrite Hplan. rewrite !bool_decide_eq_true_2 by done.
  rewrite Hcr in Hle. cbn [wall UTC] in Hle. apply Z.ltb_ge in H6.
  assert ((GatewayReviewLifetime <? int64_saturate (wall expires - wall (CreatedAt (Plan s0)))) = false) as ->
    by (apply Z.ltb_ge, saturate_le_iff; unfold GatewayReviewLifetime, min_int64, max_int64, Second in *; lia).
  assert ((wall t <? wall (CreatedAt (Plan s0))) = false) as -> by (apply Z.ltb_ge; lia).
  assert ((wall t <? wall expires) = true) as -> by (apply Z.ltb_lt; lia).
  assert ((wall (CreatedAt (Plan s0)) <? wall expires) = true) as -> by (apply Z.ltb_lt; lia).
  done.
Qed.

(** ** Results *)

Lemma wire_audit s : option_map wire_measurement s = auditMeasurement s.
Proof. destruct s as [s|]; [|done]. unfold wire_measurement. simpl. by destruct (IsZero _). Qed.

(** Only wall clocks matter for a canonical measurement. *)
Lemma validateMeasurement_UTC m t : canonical_measurement m → validateMeasurement m t = validateMeasurement m (UTC t).
Proof.
  intros [Hs He]. unfold validateMeasurement. rewrite !(After_wall (StartedAt m)), !validTime_eq by auto with cozy. destruct (CompletedAt m) as [e|] eqn:E; cbn [default is_some].
  - specialize (He e eq_refl). by rewrite !(After_wall e) by auto.
  - by rewrite !(Sub_wall _ (StartedAt m)) by auto.
Qed.

(** What an accepted terminal event says. *)
Lemma finished_event rid s t o r m :
  ValidateEvent (makeEvent digest_bytes rid s t "finished" o r m) = true →
  MatchString hexID rid = true ∧ (o = "completed" → is_some_complete (auditMeasurement m) = true) ∧
  ∀ mm, auditMeasurement m = Some mm → validateMeasurement mm t = true ∧ (o = "failed" → Complete mm = false).
Proof.
  unfold ValidateEvent, makeEvent. cbn [SchemaVersion RunID SelectionDigest EventProfile At EventScopeID EventInterfaceName
       EventInterfaceIndex EventTarget EventSource EventMeasurement State Outcome Reason].
  rewrite !if_false_iff. intros (H1 & _ & H2 & H3 & _). rewrite !orb_false_iff, !negb_false_iff in H1. split; [by apply H1|]. split.
  - intros ->. destruct (is_some_complete _); [done|discriminate H3].
  - intros mm Hm. rewrite Hm, !orb_false_iff in H2. destruct H2 as [[_ Hv] Hf]. split; [by apply negb_false_iff|].
    intros ->. destruct (Complete mm); [discriminate Hf|done].
Qed.

(** An accepted sample lies between the approval and the expiry. *)
Lemma sampled_within lower (p : pendingReview (P := package)) s :
  sampled_by lower p (Some s) → canonical (expiresAt p) →
  let m := wire_measurement s in
  lower <= wall (StartedAt m) < wall (expiresAt p) ∧ ∀ c, CompletedAt m = Some c → wall c < wall (expiresAt p).
Proof.
  intros (sample & err & fresh & started & returned & Hv & Hl & Hc & _) He. cbn [validate_sample gatewayPackage] in Hv. unfold validateSample in Hv.
  match type of Hv with (if ?b then _ else _) = _ => destruct b; [by destruct err|] end.
  match type of Hv with (if ?b then _ else _) = _ => destruct b eqn:E; [done|] end. injection Hv as <-.
  rewrite !orb_false_iff in E. destruct E as [[[[[[_ Hst] _] Hexp] Hcomp] _] _].
  rewrite Before_wall in Hst by auto. rewrite Before_wall in Hexp by auto. go_bool. unfold wire_measurement. cbn [StartedAt CompletedAt wall UTC Round0 stripMono].
  split; [lia|]. intros c. destruct (IsZero (sampleCompletedAt sample)); [done|]. intros [= <-]. cbn [negb andb] in Hcomp.
  rewrite Before_wall in Hcomp by auto. cbn [wall UTC Round0 stripMono]. go_bool. lia.
Qed.

Lemma sampled_fits lower upper (p : pendingReview (P := package)) s challenge t now :
  sampled_by lower p (Some s) → canonical (expiresAt p) → wall (CreatedAt (Plan (selection p))) <= lower →
  read lower upper t → upper <= wall now → validTime now = true → validateMeasurement (wire_measurement s) (UTC (Round0 t)) = true →
  outside (Some (wire_measurement s)) (projectGatewayReview (mkReview (ticket p) (selection p) (expiresAt p)) challenge) now = false.
Proof.
  intros Hs Hce Hlo [_ Ht] Hup Hnow Hv. destruct (sampled_within _ _ _ Hs Hce) as [Hst Hend]. set (m := wire_measurement s) in *.
  assert (Hcm : canonical_measurement m) by (apply (auditMeasurement_canonical (Some s)); symmetry; apply (wire_audit (Some s))).
  apply validateMeasurement_iff in Hv; [|done..]. unfold outside. rewrite validateMeasurement_UTC by done.
  rewrite (proj2 (validateMeasurement_iff m (UTC now) eq_refl Hcm)); [|eapply measurement_later; [exact Hv|by apply validTime_spec|cbn; lia]].
  unfold projectGatewayReview. cbn [rCreatedAt ExpiresAt review_selection review_expires]. rewrite !(Before_wall (StartedAt m)) by auto with cozy. cbn [wall UTC Round0 stripMono negb orb].
  change (RunControl.Selection) with Selection in *. rewrite (proj2 (Z.ltb_ge (wall (StartedAt m)) _)), (proj2 (Z.ltb_lt (wall (StartedAt m)) _)) by lia. cbn [negb orb].
  destruct (CompletedAt m) as [c|] eqn:Ec; [|done]. specialize (Hend c eq_refl). rewrite Before_wall by auto with cozy. cbn [wall UTC Round0 stripMono]. by rewrite (proj2 (Z.ltb_lt _ _)).
Qed.

Lemma result_valid lower upper (p : pendingReview (P := package)) challenge x now :
  canonical (expiresAt p) → wall (CreatedAt (Plan (selection p))) <= lower → upper <= wall now → validTime now = true →
  concluded lower upper p x → ∀ r, x.1 = Some r →
  let wire := projectGatewayReview (mkReview (ticket p) (selection p) (expiresAt p)) challenge in
  validateGatewayResult (projectGatewayResult wire r x.2) wire now = true.
Proof.
  intros Hce Hlo Hup Hnow Hcon r Hr wire. destruct (Hcon r Hr) as (reason & sampled & Hid & Hrep & (t & Ht & He) & Hs). clear Hcon Hr.
  apply finished_event in He as (Hrun & Hcomp & Hm). unfold validateGatewayResult, projectGatewayResult.
  cbn [resSchemaVersion resReview resRunID resOutcome FailureCode resMeasurement]. rewrite wire_audit, Hid.
  change (MatchString gatewayChallenge (runID p)) with (MatchString hexID (runID p)). rewrite Hrun, (bool_decide_eq_true_2 (wire = wire)) by done.
  assert (Hmeas : outside (auditMeasurement (result_sample r)) wire now = false).
  { destruct (result_sample r) as [s|]; [|done]. destruct sampled; [|done]. destruct Hs as [Hs|[=]]. rewrite <- (wire_audit (Some s)) in *.
    destruct (Hm _ eq_refl) as [Hv _]. by eapply sampled_fits. }
  rewrite Hmeas. clear Hmeas.
  destruct x as [y e]. cbn [snd] in *. inversion Hrep as [Ho Hre He|c sm Ho Hre He|Ho Hre He|Ho Hre He|Ho Hre He|Ho Hre He|Ho Hre He|Ho Hre He]; subst; rewrite <- Ho in *.
  all: try (rewrite Hs; reflexivity).
  - rewrite Hcomp by done. reflexivity.
  - reflexivity.
  - destruct (auditMeasurement (result_sample r)) as [m|] eqn:Em; [|reflexivity]. destruct (Hm m eq_refl) as [_ Hc]. cbn [is_some_complete]. by rewrite Hc.
Qed.

(** A review the control issues is delivered.  The wire form of the review of a normalized gateway
    selection, under any challenge of the session, passes the validation of both sides from its preparation
    until it expires. *)
Theorem gateway_review_delivered s0 target now s tk challenge t :
  normalize s0 target now = Some s → canonical now → well_formed_addr target → well_formed_addr (Source s0) →
  validTime (review_expiry s) = true → wall now <= wall t < wall (review_expiry s) → MatchString gatewayChallenge challenge = true →
  validateGatewayReview (projectGatewayReview (mkReview (P := package) tk s (review_expiry s)) challenge) (AddrString target) t = true.
Proof. apply review_valid. Qed.

(** A confirmed gateway result is delivered.  Whatever the control, its clock and collaborators do, a
    result of the run of an approved review projects to a wire result that the session's validator accepts
    at any later time: the outcome fits the failure code and the measurement lies within the review. *)
Theorem gateway_result_delivered lower upper i (p : pendingReview (P := package)) start challenge :
  canonical (expiresAt p) → wall (CreatedAt (Plan (selection p))) <= lower →
  post lower upper (run_body i p start) (λ x, ∀ r now, x.1 = Some r → upper <= wall now → validTime now = true →
    let wire := projectGatewayReview (mkReview (ticket p) (selection p) (expiresAt p)) challenge in
    validateGatewayResult (projectGatewayResult wire r x.2) wire now = true).
Proof.
  intros Hc Hl. eapply post_mono; [apply run_body_post|]. intros x Hx r now Hr Hu Hn. by eapply result_valid.
Qed.

End Projection.

(** ** An exchange *)

Module Home.
Import GatewayControl.
#[local] Existing Instance Effects.history.
#[local] Instance home_package : RunPackage := gatewayPackage digest0.
#[local] Instance home_session : SessionPackage home_package := gatewaySession digest0.

Definition home_review : Review := mkReview (ticket review) (selection review) (expiresAt review).
Definition challenge : string := EncodeToString (bytes 16).
Definition wire : GatewayCheckReview := projectGatewayReview digest0 home_review challenge.
Definition home_result : Result := mkResult (EncodeToString (bytes 16)) "completed" (Some (sample 61)).
Definition payload : list Z :=
  JSON.text "{'version':1,'id':'gateway-check','method':'network-quality.gateway-check','auth':'s','params':{'target':'192.168.1.1'}}" ++ [10].

(** The state of the world is the time, in seconds. *)
Definition server_world (s : Z) (g : list (@obs effect answer)) (e : effect) : answer e * Z :=
  match e return answer e * Z with
  | Buffered => (0, s)
  | GetControl | SetDeadline _ | WriteReview _ _ | WriteResult _ _ => (true, s)
  | CallPrepare _ => (Ok home_review, s)
  | CallRun _ _ => ((Some home_result, None), s + 4)
  | RandomBytes => (Some (bytes 16), s)
  | Now => (at_ s, s)
  | Ctx => (None, s)
  | ReadSlice => (Some (encode_decision challenge true), s)
  | CallDiscard _ | WriteError _ _ | Monitor | CloseJoin => (tt, s)
  end.

Definition server_run := drive server_world (check "gateway-check" payload) 61 [].
Definition server_trace := server_run.1.1.

Definition toy_response (f : list Z) : option Response := Some (mkResponse 1 "gateway-check" None f).
Definition toy_review (f : list Z) : option GatewayCheckReview := Some wire.
Definition toy_result (f : list Z) : option GatewayCheckResult := Some (projectGatewayResult digest0 wire home_result None).
Definition home_client := client toy_response toy_review toy_result 501 "gateway-check" true "192.168.1.1".

Definition client_world (s : Z) (g : list (@obs client_effect client_answer)) (e : client_effect) : client_answer e * Z :=
  match e return client_answer e * Z with
  | ParentErr | DecisionErr | CtxErr => (None, s)
  | LoadSecret => (Some "s", s)
  | Dial | SendRequest _ _ => (true, s)
  | SendDecision _ _ => (true, s + 4)
  | VerifyPeer => (Some (true, 501), s)
  | CNow => (at_ s, s)
  | CSetDeadline _ => (tt, s)
  | CRead => (Some [1], s)
  | Confirm _ => (Some true, s)
  end.
Definition client_run := drive client_world home_client 61 [].
Definition client_trace := client_run.1.1.

Lemma server_run_eq : drive server_world (check "gateway-check" payload) 61 [] = (server_trace, tt, server_run.2).
Proof. unfold server_trace, server_run. by destruct (drive server_world _ 61 []) as [[tr []] w]. Qed.
Lemma client_run_eq : drive client_world home_client 61 [] = (client_trace, client_run.1.2, client_run.2).
Proof. unfold client_trace, client_run. by destruct (drive client_world _ 61 []) as [[tr x] w]. Qed.
Example client_returned : is_ok client_run.1.2 = true.
Proof. vm_compute. reflexivity. Qed.

Definition frame_of (o : @obs effect answer) : option (list Z) :=
  match o with Obs e a => match e return answer e → option (list Z) with ReadSlice => λ f, f | _ => λ _, None end a end.
Definition frames (tr : list (@obs effect answer)) : list (list Z) := omap frame_of tr.
Definition decisions (tr : list (@obs client_effect client_answer)) : list (string * bool) :=
  omap (λ o, match o with Obs (SendDecision c b) _ => Some (c, b) | _ => None end) tr.

Lemma elem_of_frames tr f : Obs ReadSlice (Some f) ∈ tr → f ∈ frames tr.
Proof. intros H. apply list_elem_of_omap. by exists (Obs ReadSlice (Some f)). Qed.
Lemma elem_of_decisions tr c b : (c, b) ∈ decisions tr → ∃ sent, Obs (SendDecision c b) sent ∈ tr.
Proof. intros ([e a] & Ho & He)%list_elem_of_omap. destruct e; try done. injection He as -> ->. by exists a. Qed.

Lemma server_frames : frames server_trace = [encode_decision challenge true].
Proof. vm_compute. reflexivity. Qed.
Lemma client_decisions : decisions client_trace = [(challenge, true)].
Proof. vm_compute. reflexivity. Qed.

Lemma frames_sent frame :
  Obs ReadSlice (Some frame) ∈ server_trace → ∃ c b sent, Obs (SendDecision c b) sent ∈ client_trace ∧ frame = encode_decision c b.
Proof.
  intros H%elem_of_frames. rewrite server_frames in H. apply list_elem_of_singleton in H as ->.
  destruct (elem_of_decisions client_trace challenge true) as [sent Hs]; [rewrite client_decisions; apply list_elem_of_here|]. by exists challenge, true, sent.
Qed.

Lemma server_ran : ∃ tk consent a, Obs (CallRun tk consent) a ∈ server_trace.
Proof.
  assert (existsb is_run server_trace = true) as H by (vm_compute; reflexivity). apply existsb_true_iff, Exists_exists in H as ([e a] & Ho & He).
  destruct e; try done. by exists tk, consent, a.
Qed.

Lemma consent_gated_witness : every (lawful (default "" (requested payload))) [] server_trace.
Proof. exact (consent_gated "gateway-check" payload server_trace tt (drive_run _ _ _ _ _ _ _ server_run_eq)). Defined.

Lemma client_consents_witness :
  every (honest toy_response toy_review 501 "gateway-check" "192.168.1.1") [] client_trace ∧
  accepted client_trace client_run.1.2.
Proof. exact (client_consents toy_response toy_review toy_result 501 "gateway-check" true "192.168.1.1" _ _ (drive_run _ _ _ _ _ _ _ client_run_eq)). Defined.

Lemma consent_end_to_end_witness : ∃ id' wire w checked seen,
  Obs (WriteReview id' wire) true ∈ server_trace ∧ Obs (Confirm w) (Some true) ∈ client_trace ∧ challenge_of w = challenge_of wire ∧
  validate_review wire (default "" (requested payload)) checked = true ∧ validate_review w "192.168.1.1" seen = true.
Proof.
  destruct server_ran as (tk & consent & a & H).
  exact (consent_end_to_end toy_response toy_review toy_result 501 "gateway-check" "gateway-check" payload server_trace tt true "192.168.1.1" client_trace _ tk consent a
    (drive_run _ _ _ _ _ _ _ server_run_eq) (drive_run _ _ _ _ _ _ _ client_run_eq) frames_sent H).
Defined.

Lemma gateway_review_delivered_witness :
  validateGatewayReview (projectGatewayReview digest0 (mkReview (bytes 32) (selection review) (review_expiry (selection review))) challenge) "192.168.1.1" (at_ 75) = true.
Proof.
  apply (gateway_review_delivered digest0 (selected 60) target (at_ 60) (selection review) (bytes 32) challenge (at_ 75)).
  - vm_cast_no_check (eq_refl (Some (selection review))).
  - reflexivity.
  - split; [discriminate|reflexivity].
  - split; [discriminate|reflexivity].
  - vm_compute. reflexivity.
  - split; [apply Z.leb_le|apply Z.ltb_lt]; vm_compute; reflexivity.
  - vm_compute. reflexivity.
Defined.

Lemma gateway_result_delivered_witness :
  post (wall (at_ 60)) (wall (at_ 64)) (run_body 1 review (at_ 61)) (λ x, ∀ r now, x.1 = Some r → wall (at_ 64) <= wall now → validTime now = true →
    let wire := projectGatewayReview digest0 (mkReview (ticket review) (selection review) (expiresAt review)) challenge in
    validateGatewayResult (projectGatewayResult digest0 wire r x.2) wire now = true).
Proof.
  apply (gateway_result_delivered digest0 (wall (at_ 60)) (wall (at_ 64)) 1 review (at_ 61) challenge).
  - reflexivity.
  - apply Z.leb_le. vm_compute. reflexivity.
Defined.

End Home.
End GatewaySession.
