(* ===== verification/AddrPortText.v ===== *)
(** * Text of socket addresses

    [netip.ParseAddrPort] and [AddrPort.String] of the standard library, used by the
    settings and sessions of the resolver and HTTPS checks, and their round trip. *)

From Stdlib Require Import Ascii.
From S2P Require Import Prelude Regex NetAddr NetText ResolverWire.

Module AddrPortText.
Import Wire.

Definition colon : ascii := ":"%char.
Definition bracket : ascii := "["%char.
Definition close_bracket : ascii := "]"%char.

(** [bytealg.LastIndexByteString(s, ':')] splits the text into address and port. *)
Fixpoint last_colon (w : list ascii) : option (list ascii * list ascii) :=
  match w with
  | [] => None
  | c :: rest =>
      match last_colon rest with
      | Some (u, v) => Some (c :: u, v)
      | None => if c == colon then Some ([], rest) else None
      end
  end.

(** [strconv.ParseUint(port, 10, 16)] *)
Definition parse_port (w : list ascii) : option Z :=
  match w with
  | [] => None
  | _ => n ← decimal w 0; if 65535 <? n then None else Some n
  end.

(** The host, and whether it was written in brackets. *)
Definition split_host (w : list ascii) : option (list ascii * bool) :=
  match w with
  | [] => None
  | c :: rest =>
      if c == bracket then
        if bool_decide (last rest = Some close_bracket) then Some (removelast rest, true) else None
      else Some (w, false)
  end.

Definition ParseAddrPort (s : string) : option AddrPort :=
  '(host, port) ← last_colon (String.list_ascii_of_string s);
  '(host, six) ← split_host host;
  n ← parse_port port;
  a ← parse_addr host host;
  if (six && Is4 a) || (negb six && Is6 a) then None else Some (mkAddrPort a n).

Definition AddrPortString (e : AddrPort) : string :=
  match ap_addr e with
  | AddrNone => "invalid AddrPort"
  | V4 _ => String.string_of_list_ascii (addr_list (ap_addr e) ++ colon :: dec (ap_port e))
  | V6 _ _ => String.string_of_list_ascii (bracket :: addr_list (ap_addr e) ++ close_bracket :: colon :: dec (ap_port e))
  end.

Lemma last_colon_none w : colon ∉ w → last_colon w = None.
Proof.
  induction w as [|c w IH]; [done|]. intros H. cbn [last_colon]. rewrite IH by set_solver.
  rewrite bool_decide_eq_false_2; [done|]. set_solver.
Qed.
Lemma last_colon_app u v : colon ∉ v → last_colon (u ++ colon :: v) = Some (u, v).
Proof. intros Hv. induction u as [|c u IH]; cbn [app last_colon]; [by rewrite last_colon_none|by rewrite IH]. Qed.

Lemma digit_text d : 0 <= d < 10 → digit_value (hex_char d) = Some d ∧ hex_char d ≠ colon.
Proof.
  intros Hd. assert (Hc : d = 0 ∨ d = 1 ∨ d = 2 ∨ d = 3 ∨ d = 4 ∨ d = 5 ∨ d = 6 ∨ d = 7 ∨ d = 8 ∨ d = 9) by lia.
  by repeat destruct Hc as [->|Hc]; subst.
Qed.

(** The decimal digits of a number are read back as that number. *)
Lemma digits_text fuel n acc : 0 <= n < 10 ^ Z.of_nat fuel →
  ∃ w, digits_fuel fuel 10 n acc = w ++ acc ∧ colon ∉ w ∧ (n ≠ 0 → w ≠ []) ∧ ∀ r, decimal (w ++ r) 0 = decimal r n.
Proof.
  revert n acc. induction fuel as [|fuel IH]; intros n acc Hn; cbn [digits_fuel].
  { exists []. replace n with 0 by (cbn in Hn; lia). split_and!; [done|set_solver|done|done]. }
  rewrite Nat2Z.inj_succ, Z.pow_succ_r in Hn by lia. destruct (digit_text (n mod 10)) as [Hv Hc]; [apply Z.mod_pos_bound; lia|].
  pose proof (Z.div_mod n 10). destruct (Z.eqb_spec (n / 10) 0) as [Hz|Hz].
  - exists [hex_char (n mod 10)]. split_and!; [done|set_solver|done|]. intros r. cbn [app decimal]. rewrite Hv. f_equal. lia.
  - destruct (IH (n / 10) (hex_char (n mod 10) :: acc)) as (w & -> & Hw & _ & Hr).
    { split; [apply Z.div_pos; lia|apply Z.div_lt_upper_bound; lia]. }
    exists (w ++ [hex_char (n mod 10)]). rewrite <- app_assoc. split_and!; [done|set_solver|by destruct w|].
    intros r. rewrite <- app_assoc, Hr. cbn [app decimal]. rewrite Hv. f_equal. lia.
Qed.

Lemma port_text n : 0 <= n < 65536 → colon ∉ dec n ∧ parse_port (dec n) = Some n.
Proof.
  intros Hn. destruct (decide (n = 0)) as [->|H0]; [split; [by apply (bool_decide_eq_true_1 (colon ∉ dec 0))|done]|].
  destruct (digits_text 40 n []) as (w & Hw & Hc & Hne & Hr); [lia|]. rewrite app_nil_r in Hw. specialize (Hne H0).
  unfold dec. rewrite Hw. split; [done|]. specialize (Hr []). rewrite app_nil_r in Hr. unfold parse_port.
  destruct w; [done|]. rewrite Hr. cbn [decimal mbind option_bind]. case_match; [lia|done].
Qed.

Lemma string4_head n : ∃ c w, string4 n = c :: w ∧ c ≠ bracket.
Proof.
  unfold string4. pose proof (octet_range n 0) as Ho. generalize (octet n 0) Ho. intros o Hr.
  assert (H : forallb (λ o, match dec o with c :: _ => bool_decide (c ≠ bracket) | [] => false end) (seqZ 0 256) = true) by (vm_compute; reflexivity).
  apply forallb_true_iff in H. rewrite Forall_forall in H. specialize (H o). rewrite elem_of_seqZ in H. specialize (H ltac:(lia)).
  destruct (dec o) as [|c w]; [done|]. eexists c, _. split; [done|]. by go_bool.
Qed.

Lemma ParseAddrPort_String e :
  ap_addr e ≠ AddrNone → well_formed_addr (ap_addr e) → 0 <= ap_port e < 65536 → ParseAddrPort (AddrPortString e) = Some e.
Proof.
  destruct e as [a n]. cbn [ap_addr ap_port]. intros Ha Hw [Hc Hp]%port_text.
  pose proof (ParseAddr_AddrString a Ha Hw) as Hparse. unfold ParseAddr in Hparse. rewrite AddrString_list in Hparse.
  unfold ParseAddrPort, AddrPortString. cbn [ap_addr ap_port]. destruct a as [|m|m z]; [done|..]; rewrite String.list_ascii_of_string_of_list_ascii; cbn [addr_list] in *.
  - rewrite last_colon_app by done. cbn [mbind option_bind]. destruct (string4_head m) as (c & w & Hs & Hb). rewrite Hs in *. cbn [split_host].
    rewrite bool_decide_eq_false_2 by done. cbn [mbind option_bind]. rewrite Hp. cbn [mbind option_bind]. rewrite Hparse. done.
  - change (bracket :: string6 m z ++ close_bracket :: colon :: dec n) with ((bracket :: string6 m z) ++ [close_bracket] ++ colon :: dec n).
    rewrite app_assoc, last_colon_app by done. cbn [mbind option_bind app split_host]. rewrite bool_decide_eq_true_2 by done.
    rewrite last_snoc, bool_decide_eq_true_2 by done. cbn [mbind option_bind]. rewrite removelast_last, Hp. cbn [mbind option_bind]. rewrite Hparse. done.
Qed.

Example parse_refused_ports :
  map ParseAddrPort ["1.2.3.4"; "1.2.3.4:"; ":53"; "1.2.3.4:65536"; "[1.2.3.4]:53"; "::1:53"; "[::1:53"; "1.2.3.4:+5"] = repeat None 8.
Proof. vm_compute. reflexivity. Qed.

End AddrPortText.
