(* ===== verification/ResolverSession.v ===== *)
(** * The resolver session

    [localapi/resolver_projection.go], [resolver_session.go] and [resolver_client.go]: the
    reviews and results of the resolver check on the wire.  The exchange itself is that of
    [ConsentSession].  Validation rebuilds the plan from the wire and requires it to be the
    one that is shown. *)

From Stdlib Require Import Ascii.
From S2P Require Import Prelude Regex GoTime NetAddr NetText GatewayPlan Quality ResolverQuality ResolverWire ResolverPlan RunControl RunResult ResolverRun Effects ConsentSession GatewaySession AddrPortText CheckBinding.

Module ResolverSession.
Import Quality Resolver ResolverRun Session AddrPortText.
#[local] Existing Instance ResolverPlan.Plan_eq_dec.

(** The regular expression of a literal text. *)
Definition word (s : string) : regex := foldr (λ c r, RCat (RSet (λ d, bool_decide (d = c))) r) REps (String.list_ascii_of_string s).
Definition resolverSelectionID : regex := RCat (word "selection.") (hex_regex 32).
Definition ValidResolverSelectionID (id : string) : bool := MatchString resolverSelectionID id.

(** ** Wire data *)

Record SettingsParams := mkSettingsParams {
  pEndpoint : string; pName : string; pFamily : string; pTransport : string; pQueryType : string; pExpect : string; pDestinationScope : string;
}.

(** [api.ResolverPlanBudget] *)
Record PlanBudget := mkPlanBudget {
  bMaxSendCalls : Z; bMaxRequestBytes : Z; bMaxReplyBytes : Z; bMaxReceivedDatagrams : Z; bMaxReceiveCalls : Z;
  ExchangeTimeoutMS : Z; TotalTimeoutMS : Z; bMaxConcurrentRuns : Z; MinRunIntervalMS : Z;
}.

Record ResolverCheckReview := mkResolverCheckReview {
  wSchemaVersion : Z;
  Mode : string;
  Challenge : string;
  wProfile : string;
  wSelectionID : string;
  wResolverID : string;
  wQueryID : string;
  Settings : SettingsParams;
  wBinding : GatewayPlanBinding;
  wSensorID : string;
  wSource : string;
  wCreatedAt : Time;
  wExpiresAt : Time;
  wOutside : bool;
  wForward : bool;
  wBudget : PlanBudget;
}.

Record ResolverCheckResult := mkResolverCheckResult {
  resSchemaVersion : Z;
  resReview : ResolverCheckReview;
  resRunID : string;
  resOutcome : string;
  FailureCode : string;
  resMeasurement : option Measurement;
}.

#[export] Instance SettingsParams_eq_dec : EqDecision SettingsParams.
Proof. solve_decision. Defined.
#[export] Instance PlanBudget_eq_dec : EqDecision PlanBudget.
Proof. solve_decision. Defined.
#[export] Instance ResolverCheckReview_eq_dec : EqDecision ResolverCheckReview.
Proof. solve_decision. Defined.

Definition wireResolverBudget (b : ResolverPlan.Budget) : PlanBudget :=
  mkPlanBudget (ResolverPlan.MaxSendCalls b) (ResolverPlan.MaxRequestBytes b) (ResolverPlan.MaxReplyBytes b) (ResolverPlan.MaxReceivedDatagrams b)
    (ResolverPlan.MaxReceiveCalls b) (GatewaySession.Milliseconds (ResolverPlan.ExchangeTimeout b)) (GatewaySession.Milliseconds (ResolverPlan.TotalTimeout b))
    (ResolverPlan.MaxConcurrentRuns b) (GatewaySession.Milliseconds (ResolverPlan.MinRunInterval b)).

Definition projectResolverReview (r : Review (P := resolverPackage)) (challenge : string) : ResolverCheckReview :=
  let s : Selection := review_selection r in
  let d := ResolverPlan.review (sPlan s) in
  let c := ResolverPlan.dConfiguration d in
  let q := ResolverPlan.cSelection c in
  let b := ResolverPlan.bObserver (ResolverPlan.dBinding d) in
  mkResolverCheckReview 1 "experimental-one-shot" challenge (ResolverPlan.dProfile d) (SelectionID q) (ResolverID q) (QueryID q)
    (mkSettingsParams (AddrPortString (ResolverPlan.Endpoint c)) (ResolverPlan.cName c) (SelectionFamily q) (Transport q) (QueryType q) (Expect q) (ResolverPlan.Scope c))
    (mkGatewayPlanBinding (ScopeID b) (InterfaceName b) (InterfaceIndex b) (ResolverPlan.Prefixes (ResolverPlan.dBinding d))) (SensorID b)
    (AddrString (ResolverPlan.Source (ResolverPlan.dBinding d))) (ResolverPlan.CreatedAt d) (UTC (Round0 (review_expires r)))
    (ResolverPlan.OutsideEnrolledPrefixes d) (ResolverPlan.MayForwardUpstream d) (wireResolverBudget (ResolverPlan.dBudget d)).

Definition resolverWireSelection (r : ResolverCheckReview) : ResolverSelection :=
  let p := Settings r in
  mkResolverSelection (wSelectionID r) (wResolverID r) (wQueryID r) (pFamily p) (pTransport p) (pQueryType p) (pExpect p).

Definition resolverWireObserver (r : ResolverCheckReview) : Observer :=
  mkObserver (GatewayPlan.ScopeID (wBinding r)) (wSensorID r) (GatewayPlan.InterfaceName (wBinding r)) (GatewayPlan.InterfaceIndex (wBinding r)).

Section Session.
Context {Name : Type} (NewName : string → option Name) (Pack : Z → Name → Z → option (list Z)).

Definition validateResolverReview (r : ResolverCheckReview) (id : string) (now : Time) : bool :=
  if negb (wSchemaVersion r =? 1) || (Mode r != "experimental-one-shot") || (wProfile r != ResolverRun.Profile) || (wSelectionID r != id) ||
     negb (ValidResolverSelectionID id) || negb (MatchString gatewayChallenge (Challenge r)) || negb (GatewaySession.gatewayTime (wCreatedAt r)) ||
     negb (GatewaySession.gatewayTime (wExpiresAt r)) || After (wCreatedAt r) now || negb (Before now (wExpiresAt r)) || negb (After (wExpiresAt r) (wCreatedAt r)) ||
     (ResolverPlan.ReviewLifetime <? Sub (wExpiresAt r) (wCreatedAt r))
  then false else
  match ParseAddrPort (pEndpoint (Settings r)) with
  | None => false
  | Some endpoint =>
      if AddrPortString endpoint != pEndpoint (Settings r) then false else
      match ParseAddr (wSource r) with
      | None => false
      | Some source =>
          if AddrString source != wSource r then false else
          match ResolverPlan.New NewName Pack (ResolverPlan.mkBinding (resolverWireObserver r) (Prefixes (wBinding r)) source)
                  (ResolverPlan.mkConfiguration (resolverWireSelection r) endpoint (pName (Settings r)) (pDestinationScope (Settings r))) (wCreatedAt r) with
          | Err _ => false
          | Ok p =>
              let d := ResolverPlan.review p in
              negb ((wireResolverBudget (ResolverPlan.dBudget d) != wBudget r) || (ResolverPlan.cName (ResolverPlan.dConfiguration d) != pName (Settings r)) ||
                    (ResolverPlan.Prefixes (ResolverPlan.dBinding d) != Prefixes (wBinding r)) ||
                    negb (Bool.eqb (ResolverPlan.OutsideEnrolledPrefixes d) (wOutside r)) || negb (wForward r))
          end
      end
  end.

Definition projectResolverResult (review : ResolverCheckReview) (r : Result (P := resolverPackage)) (err : option run_err) : ResolverCheckResult :=
  mkResolverCheckResult 1 review (result_run r) (result_outcome r) (match err with Some e => errorCode e | None => "" end)
    (option_map (λ s : ResolverMeasurement, mkMeasurement (UTC (Round0 (StartedAt s))) (UTC (Round0 (CompletedAt s))) (Exchange s) (Request s) (Gap s) (Reply s) (ResponseTime s))
       (result_sample r)).

(** The reason a result is taken for; [None] where outcome, code and measurement do not
    fit. *)
Definition result_reason (r : ResolverCheckResult) : option string :=
  if resOutcome r == "completed" then if FailureCode r != "" then None else Some ""
  else if resOutcome r == "failed" then if FailureCode r != "execution_failed" then None else Some "execution-error"
  else if resOutcome r == "canceled" then if FailureCode r != "canceled" then None else Some "canceled"
  else if resOutcome r == "indeterminate" then
    if (FailureCode r != "execution_failed") || is_some (resMeasurement r) then None else Some "execution-panic"
  else if resOutcome r == "blocked" then
    if is_some (resMeasurement r) then None
    else if FailureCode r == "precondition_failed" then Some "preflight-unavailable"
    else if FailureCode r == "review_expired" then Some "review-expired" else None
  else None.

(** The measurement is outside of the review. *)
Definition outside (m : option Measurement) (review : ResolverCheckReview) : bool :=
  match m with
  | Some m => Before (aStartedAt m) (wCreatedAt review) || negb (Before (aStartedAt m) (wExpiresAt review)) ||
              (((aExchange m == DNSResponseReceived) || (aExchange m == DNSTimeout)) && negb (Before (aCompletedAt m) (wExpiresAt review)))
  | None => false
  end.

Definition validateResolverResult (r : ResolverCheckResult) (review : ResolverCheckReview) (now : Time) : bool :=
  if negb (resSchemaVersion r =? 1) || (resReview r != review) then false
  else if resOutcome r == "declined" then (resRunID r == "") && negb (is_some (resMeasurement r)) && (FailureCode r == "")
  else if negb (MatchString gatewayChallenge (resRunID r)) then false
  else match result_reason r with
       | None => false
       | Some reason =>
           if outside (resMeasurement r) review then false
           else ValidateEvent (mkEvent 1 (resRunID r) "finished" (resOutcome r) reason now ResolverRun.Profile (resolverWireSelection review)
                                 (resolverWireObserver review) (resMeasurement r))
       end.

Lemma resolver_declined_valid w t : validateResolverResult (mkResolverCheckResult 1 w "" "declined" "" None) w t = true.
Proof. unfold validateResolverResult. cbn. by rewrite bool_decide_eq_true_2. Qed.

Lemma resolver_challenge_valid w p t : validateResolverReview w p t = true → MatchString gatewayChallenge (Challenge w) = true.
Proof. unfold validateResolverReview. rewrite if_false_iff, !orb_false_iff, !negb_false_iff. intros [H _]. by apply H. Qed.

Definition resolverSession : SessionPackage resolverPackage := {|
  WireReview := ResolverCheckReview;
  WireResult := ResolverCheckResult;
  method := "network-quality.resolver-check";
  param_name := "selection_id";
  param_ok := ValidResolverSelectionID;
  param_target := λ id, id : @RunControl.Target resolverPackage;
  challenge_of := Challenge;
  expires_of := wExpiresAt;
  project_review := projectResolverReview;
  validate_review := validateResolverReview;
  declined := λ w, mkResolverCheckResult 1 w "" "declined" "" None;
  outcome_of := resOutcome;
  project_result := projectResolverResult;
  validate_result := validateResolverResult;
  operation_timeout := OperationTimeout;
  audit_timeout := AuditTimeout;
  response_limit := gatewayFrameLimit;
  request_timeout := 5 * Second;
  compares_outcome := true;
  challenge_project := λ _ _, eq_refl;
  challenge_valid := resolver_challenge_valid;
  declined_valid := resolver_declined_valid;
|}.

(** The server's and the client's side of the exchange. *)
Definition resolverCheck := @check resolverPackage resolverSession.
Definition CheckResolver := @client resolverPackage resolverSession.

End Session.
(** ** Events at later times *)

Lemma Sub_self t : Sub t t = 0.
Proof. unfold Sub. assert (∃ a, readings t t = (a, a)) as [a ->] by (unfold readings; destruct (mono t); eauto). by rewrite Z.sub_diag. Qed.

(** Against wall-clock times the monotonic reading of [now] does not matter. *)
Lemma single_UTC o now m :
  canonical (StartedAt m) → canonical (CompletedAt m) →
  ValidateResolverSnapshot (mkResolverSnapshot o now (StartedAt m) Second [Resolver.Selection m] [m]) =
  ValidateResolverSnapshot (mkResolverSnapshot o (UTC now) (StartedAt m) Second [Resolver.Selection m] [m]).
Proof.
  intros Hs Hc. unfold ValidateResolverSnapshot. cbn [SnapshotObserver AsOf WindowStart Freshness Selections Measurements for_each].
  unfold measurement_step. cbn [SnapshotObserver AsOf WindowStart Freshness Selections Measurements].
  rewrite !(After_wall (StartedAt m)), !(Sub_wall _ (StartedAt m)), !(After_wall (CompletedAt m)) by auto.
  unfold resolverTime. by rewrite !validTime_eq, !wall_Add.
Qed.

Lemma empty_UTC o now sels :
  ValidateResolverSnapshot (mkResolverSnapshot o now now Second sels []) =
  ValidateResolverSnapshot (mkResolverSnapshot o (UTC now) (UTC now) Second sels []).
Proof.
  unfold ValidateResolverSnapshot. cbn [SnapshotObserver AsOf WindowStart Freshness Selections Measurements for_each].
  rewrite !After_Before, !Before_irrefl, !Sub_self. unfold resolverTime. by rewrite !validTime_eq, !wall_Add.
Qed.

Lemma measurement_at m t now :
  canonical t → canonical (StartedAt m) → canonical (CompletedAt m) → validateMeasurement m t = true →
  wall t <= wall now → in_int64 (wall now + Second) = true → wall now - wall (StartedAt m) <= MaxWindow →
  validateMeasurement m now = true.
Proof.
  intros Ht Hs Hc (Hb & Hv)%validateMeasurement_split Hle Hn Hw. apply validateMeasurement_split. split; [done|]. unfold single in *.
  rewrite single_UTC by done. apply single_valid in Hv as (H1 & H2 & H3 & H4 & H5 & H6 & H7); [|done..].
  apply single_valid; [done..|]. split_and!; try done. by apply (window_later _ _ t).
Qed.

(** The last [switch] of [ValidateEvent] for terminal events. *)
Definition reason_fits (o r : string) (measured : bool) : bool :=
  if o == "completed" then (r == "") && measured
  else if o == "blocked" then negb measured && ((r == "preflight-unavailable") || (r == "selection-changed") || (r == "review-expired"))
  else if o == "canceled" then r == "canceled"
  else if o == "failed" then (r == "execution-error") || ((r == "measurement-invalid") && negb measured)
  else if o == "indeterminate" then (r == "execution-panic") && negb measured
  else false.

Definition measures (rid : string) (sel : ResolverSelection) (obs : Observer) (o : string) (t : Time) (m : option Measurement) : Prop :=
  match m with
  | Some m =>
      let x := sample m rid sel obs in
      ((o != "completed") && (o != "failed") && (o != "canceled")) = false ∧ validateMeasurement x t = true ∧ ((o == "completed") && negb (complete x)) = false
  | None => ValidateResolverSnapshot (mkResolverSnapshot obs t t Second [sel] []) = Ok tt
  end.

Lemma finished_iff rid o r t sel obs m :
  ValidateEvent (mkEvent 1 rid "finished" o r t ResolverRun.Profile sel obs m) = true ↔
  MatchString runPattern rid = true ∧ validTime t = true ∧ Transport sel = DNSUDP ∧ measures rid sel obs o t m ∧ reason_fits o r (is_some m) = true.
Proof.
  unfold ValidateEvent, event_sample. cbn [SchemaVersion RunID eProfile At eSelection eMeasurement eObserver State Outcome Reason].
  rewrite !if_false_iff, !negb_false_iff, !orb_false_iff, !negb_false_iff, bool_decide_eq_true.
  change (("finished" == "authorized") || ("finished" == "admitted")) with false. change ("finished" == "finished") with true. fold (reason_fits o r (is_some m)).
  assert (Hok : ∀ x, is_ok (ValidateResolverSnapshot x) = true ↔ ValidateResolverSnapshot x = Ok tt).
  { intros x. rewrite is_ok_true. split; [intros [[] ?]; done|eauto]. }
  unfold measures. destruct m as [m|]; rewrite ?Hok.
  - rewrite !orb_false_iff, !negb_false_iff. assert (Hs : validateMeasurement (sample m rid sel obs) t = true → ValidateResolverSnapshot (single (sample m rid sel obs) t) = Ok tt)
      by (intros [_ ?]%validateMeasurement_split; done).
    unfold single in Hs. cbn [is_some sample MeasuredBy StartedAt Resolver.Selection negb] in Hs |- *. rewrite bool_decide_eq_true. clear Hok.
    split; intros; destruct_and?; split_and!; auto.
  - rewrite bool_decide_eq_true. clear Hok. split; intros; destruct_and?; split_and!; auto.
Qed.

Lemma empty_at obs t now sel :
  canonical t → ValidateResolverSnapshot (mkResolverSnapshot obs t t Second [sel] []) = Ok tt → in_int64 (wall now) = true → in_int64 (wall now + Second) = true →
  ValidateResolverSnapshot (mkResolverSnapshot obs now now Second [sel] []) = Ok tt.
Proof.
  intros Ht Hv Hn Hl. rewrite empty_UTC. apply validate_iff in Hv as [Hctx Hsel _ _ _ _]. apply Forall_inv in Hsel.
  unfold context_ok in Hctx. cbn [SnapshotObserver AsOf WindowStart Freshness Selections Measurements] in *. apply negb_true_iff in Hctx. rewrite !orb_false_iff, !negb_false_iff in Hctx.
  apply empty_single; [by rewrite validTime_eq|done..| |done]. unfold observer_ok. destruct_and? Hctx. split; [done|by apply Z.ltb_ge].
Qed.

(** The wire carries the whole selection and observer. *)
Lemma wire_selection r challenge :
  resolverWireSelection (projectResolverReview r challenge) = ResolverPlan.cSelection (ResolverPlan.dConfiguration (ResolverPlan.review (sPlan (review_selection r)))).
Proof. unfold resolverWireSelection, projectResolverReview. cbn. by destruct (ResolverPlan.cSelection _). Qed.
Lemma wire_observer r challenge :
  resolverWireObserver (projectResolverReview r challenge) = ResolverPlan.bObserver (ResolverPlan.dBinding (ResolverPlan.review (sPlan (review_selection r)))).
Proof. unfold resolverWireObserver, projectResolverReview. cbn. by destruct (ResolverPlan.bObserver _). Qed.

(** ** Results are delivered *)

Lemma resolver_sampled_within lower (p : pendingReview (P := resolverPackage)) s :
  sampled_by lower p (Some s) → canonical (expiresAt p) →
  lower <= wall (StartedAt s) < wall (expiresAt p) ∧ (complete s = true → wall (CompletedAt s) < wall (expiresAt p)).
Proof.
  intros (x & err & fresh & started & returned & Hv & Hl & Hc & _) He. cbn [validate_sample resolverPackage] in Hv. unfold validateSample in Hv.
  match type of Hv with (if ?b then _ else _) = _ => destruct b; [by destruct err|] end.
  match type of Hv with (if ?b then _ else _) = _ => destruct b eqn:E; [done|] end. injection Hv as <-.
  rewrite !orb_false_iff in E. destruct E as [[[[[[_ Hst] _] Hexp] Hcomp] _] _].
  rewrite Before_wall in Hst by auto. rewrite Before_wall in Hexp by auto. go_bool. split; [lia|]. intros Hx. rewrite Hx in Hcomp.
  rewrite Before_wall in Hcomp by auto. go_bool. lia.
Qed.

Lemma measures_at lower rid sel obs o t now s :
  canonical t → (∀ x, s = Some x → lower <= wall (StartedAt x)) → measures rid sel obs o t (auditMeasurement s) →
  wall t <= wall now → in_int64 (wall now) = true → in_int64 (wall now + Second) = true → wall now - lower <= MaxWindow →
  measures rid sel obs o now (auditMeasurement s).
Proof.
  intros Ht Hl Hm Hle Hn Hn' Hw. destruct s as [x|]; cbn [auditMeasurement copySample measures] in *; [|by eapply empty_at].
  destruct Hm as (H1 & H2 & H3). split_and!; try done. specialize (Hl x eq_refl). eapply measurement_at; [exact Ht|done|done|exact H2|done..|]. cbn [sample StartedAt aStartedAt wall UTC Round0 stripMono]. lia.
Qed.

(** The projection has a reason for every report. *)
Lemma reported_reason wire o reason e sampled s rid measured :
  reports o reason e sampled → (if sampled then True else s = None) → measured = is_some (auditMeasurement s) →
  reason_fits o reason measured = true →
  ∃ reason', result_reason (mkResolverCheckResult 1 wire rid o (match e with Some e => errorCode e | None => "" end) (auditMeasurement s)) = Some reason' ∧
    reason_fits o reason' measured = true.
Proof.
  intros Hrep Hs -> Hfit. destruct Hrep; try (rewrite Hs in *); cbn in Hfit |- *; try (eexists; split; [reflexivity|done]).
Qed.

Lemma resolver_result_valid lower upper (p : pendingReview (P := resolverPackage)) challenge x now :
  canonical (expiresAt p) → wall (ResolverPlan.CreatedAt (ResolverPlan.review (sPlan (RunControl.selection p)))) <= lower →
  upper <= wall now → in_int64 (wall now + Second) = true → wall now - lower <= MaxWindow →
  concluded lower upper p x → ∀ r, x.1 = Some r →
  let wire := projectResolverReview (mkReview (ticket p) (RunControl.selection p) (expiresAt p)) challenge in
  validateResolverResult (projectResolverResult wire r x.2) wire now = true.
Proof.
  intros Hce Hlo Hup Hn Hw Hcon r Hr wire. destruct (Hcon r Hr) as (reason & sampled & Hid & Hrep & (t & Ht & He) & Hs). clear Hcon Hr.
  cbn [event_valid resolverPackage make_event] in He. unfold makeEvent in He. apply finished_iff in He as (Hrun & Hvt & Hudp & Hm & Hfit).
  set (d := ResolverPlan.review (sPlan (RunControl.selection p))) in *.
  assert (Haudit : option_map (λ s : ResolverMeasurement, mkMeasurement (UTC (Round0 (StartedAt s))) (UTC (Round0 (CompletedAt s))) (Exchange s) (Request s) (Gap s) (Reply s) (ResponseTime s))
    (result_sample r) = auditMeasurement (result_sample r)) by by destruct (result_sample r).
  unfold projectResolverResult. rewrite Haudit.
  assert (Hsample : ∀ s, result_sample r = Some s → sampled_by lower p (Some s)) by (intros s Es; rewrite Es in Hs; destruct sampled; [by destruct Hs|done]).
  destruct (reported_reason wire _ _ _ _ (result_sample r) (result_run r) (is_some (auditMeasurement (result_sample r))) Hrep) as (reason' & Hreason & Hfit'); [by destruct sampled|reflexivity|done|].
  assert (Hout : outside (auditMeasurement (result_sample r)) wire = false).
  { destruct (result_sample r) as [s|]; [|done]. destruct (resolver_sampled_within _ _ _ (Hsample s eq_refl) Hce) as [Hst Hend].
    cbn [auditMeasurement copySample outside aStartedAt aExchange aCompletedAt]. rewrite !Before_wall by auto with cozy.
    cbn [wire projectResolverReview wCreatedAt wExpiresAt review_selection review_expires]. fold d. cbn [wall UTC Round0 stripMono].
    rewrite (proj2 (Z.ltb_ge (wall (StartedAt s)) _)), (proj2 (Z.ltb_lt (wall (StartedAt s)) _)) by lia. cbn [negb orb].
    fold (complete s). destruct (complete s); [|done]. by rewrite (proj2 (Z.ltb_lt _ _)) by auto. }
  unfold validateResolverResult. rewrite Hreason. cbn [resSchemaVersion resReview resOutcome resRunID FailureCode resMeasurement].
  rewrite Hout, Hid, (wire_selection _ challenge : resolverWireSelection wire = _), (wire_observer _ challenge : resolverWireObserver wire = _). cbn [review_selection]. fold d. change (MatchString gatewayChallenge (runID p)) with (MatchString runPattern (runID p)). rewrite Hrun, (bool_decide_eq_true_2 (wire = wire)) by done.
  assert (bool_decide (result_outcome r = "declined") = false) as -> by by destruct Hrep.
  cbn [Z.eqb Pos.eqb negb orb]. apply finished_iff. rewrite validTime_eq in Hvt |- *. cbn [wall UTC Round0 stripMono] in Hvt.
  assert (Hnow : in_int64 (wall now) = true) by (destruct Ht; unfold in_int64, Second in *; go_bool; split; go_bool; lia).
  split_and!; try done. apply (measures_at lower _ _ _ _ (UTC (Round0 t))); try done.
  - intros s Es. apply (resolver_sampled_within lower p s); auto.
  - cbn. destruct Ht. lia.
Qed.

(** ** Reviews are delivered *)

Ltac every_ascii c := destruct c as [[] [] [] [] [] [] [] []]; reflexivity.

Lemma lower_idem c : lower_ascii (lower_ascii c) = lower_ascii c.
Proof. every_ascii c. Qed.
Lemma lower_dot c : bool_decide (lower_ascii c = "."%char) = bool_decide (c = "."%char).
Proof. every_ascii c. Qed.
Lemma lower_dash c : bool_decide (Some (lower_ascii c) = Some "-"%char) = bool_decide (Some c = Some "-"%char).
Proof. every_ascii c. Qed.
Lemma lower_label c : Wire.label_char (lower_ascii c) = Wire.label_char c.
Proof. every_ascii c. Qed.

Lemma ToLower_list s : String.list_ascii_of_string (ToLower s) = map lower_ascii (String.list_ascii_of_string s).
Proof. apply String.list_ascii_of_string_of_list_ascii. Qed.

Lemma ToLower_idem s : ToLower (ToLower s) = ToLower s.
Proof. unfold ToLower. rewrite String.list_ascii_of_string_of_list_ascii, map_map. f_equal. apply map_ext. apply lower_idem. Qed.

Lemma split_dots_lower w : Wire.split_dots (map lower_ascii w) = map (map lower_ascii) (Wire.split_dots w).
Proof.
  induction w as [|c w IH]; [done|]. cbn [map Wire.split_dots]. rewrite lower_dot, IH. destruct (c == "."%char); [done|].
  by destruct (Wire.split_dots w).
Qed.

Lemma valid_label_lower l : Wire.valid_label (map lower_ascii l) = Wire.valid_label l.
Proof.
  unfold Wire.valid_label, llen. rewrite length_map. f_equal; [|induction l as [|c l IH]; [done|]; cbn [map forallb]; by rewrite lower_label, IH].
  do 3 f_equal; [by destruct l as [|c l]; [|apply lower_dash]|]. rewrite fmap_last. destruct (last l) as [c|]; [apply lower_dash|done].
Qed.

Lemma validHostname_lower n : Wire.validHostname (ToLower n) = Wire.validHostname n.
Proof.
  unfold Wire.validHostname. rewrite ToLower_list, fmap_last. unfold slen. rewrite <- !list_ascii_length, ToLower_list, length_map.
  assert (Hl : bool_decide (lower_ascii <$> last (String.list_ascii_of_string n) = Some "."%char) = bool_decide (last (String.list_ascii_of_string n) = Some "."%char)).
  { destruct (last _) as [c|]; [|done]. every_ascii c. }
  rewrite Hl. destruct (_ || _); [done|]. assert (Hr : removelast (map lower_ascii (String.list_ascii_of_string n)) = map lower_ascii (removelast (String.list_ascii_of_string n))).
  { generalize (String.list_ascii_of_string n). intros w. induction w as [|c [|e w] IH]; [done..|]. cbn [map removelast] in *. by rewrite IH. }
  rewrite Hr, split_dots_lower. induction (Wire.split_dots _) as [|l ls IH]; [done|]. cbn [map forallb]. by rewrite valid_label_lower, IH.
Qed.

Lemma validate_sorted source target enrolled sorted member :
  Binding.Validate source target enrolled = Ok (sorted, member) → Binding.Validate source target sorted = Ok (sorted, member).
Proof.
  intros (ps & Hs & Ht & H4 & Hne & Hl & Hf & Hn & Hex & -> & ->)%Binding.validate_binding. apply Binding.validate_binding.
  pose proof (merge_sort_Permutation String.le enrolled) as Hp. destruct (Permutation_Forall2 (symmetry Hp) Hf) as (ps' & Hps & Hf').
  exists ps'. split_and!; try done; rewrite ?Hp; try lia.
  - by rewrite <- Hps.
  - by rewrite <- Hps.
  - symmetry. apply sort_strings_perm. by rewrite Hp.
  - apply eq_true_iff_eq. by rewrite !existsb_true_iff, Hps.
Qed.

Section Reviews.
Context {Name : Type} (NewName : string → option Name) (Pack : Z → Name → Z → option (list Z)).

Lemma question_lower c :
  ResolverPlan.question NewName Pack
    (ResolverPlan.mkConfiguration (ResolverPlan.cSelection c) (ResolverPlan.Endpoint c) (ToLower (ResolverPlan.cName c)) (ResolverPlan.Scope c)) =
  ResolverPlan.question NewName Pack c.
Proof. unfold ResolverPlan.question, Wire.NewQuery. cbn [ResolverPlan.Endpoint ResolverPlan.cName ResolverPlan.cSelection]. by rewrite validHostname_lower, ToLower_idem. Qed.

(** A plan can be built again from what it discloses. *)
Lemma new_again b c t p :
  ResolverPlan.New NewName Pack b c t = Ok p →
  let d := ResolverPlan.review p in ResolverPlan.New NewName Pack (ResolverPlan.dBinding d) (ResolverPlan.dConfiguration d) (ResolverPlan.CreatedAt d) = Ok p.
Proof.
  intros (prefixes & member & Hv & Hl & Hc & Ho & Hb & Hs & ->)%ResolverPlan.new_iff. cbn zeta.
  apply ResolverPlan.new_iff. exists prefixes, member. cbn [ResolverPlan.built ResolverPlan.review ResolverPlan.dBinding ResolverPlan.dConfiguration ResolverPlan.CreatedAt
    ResolverPlan.bObserver ResolverPlan.Source ResolverPlan.Prefixes ResolverPlan.Endpoint ResolverPlan.Scope]. split_and!; try done.
  - destruct Hc as [H1 H2 H3 H4 H5 H6]. constructor; try done. by rewrite (question_lower c).
  - by apply validate_sorted in Hb.
  - unfold ResolverPlan.built. cbn -[ToLower]. rewrite ToLower_idem. unfold ResolverPlan.request_bytes. by rewrite (question_lower c).
Qed.

(** The expiry [Prepare] gives a review. *)
Definition resolver_expiry (s : Selection) : Time :=
  let expires := ResolverPlan.ExpiresAt (ResolverPlan.review (sPlan s)) in
  if Before (RouteFreshUntil s) expires then RouteFreshUntil s else expires.

Lemma resolver_review_valid b c created s tk challenge t :
  ResolverPlan.New NewName Pack b c created = Ok (sPlan s) → well_formed_addr (Wire.ap_addr (ResolverPlan.Endpoint c)) → well_formed_addr (ResolverPlan.Source b) →
  ValidResolverSelectionID (SelectionID (ResolverPlan.cSelection c)) = true → validTime (resolver_expiry s) = true →
  wall created <= wall t < wall (resolver_expiry s) → MatchString gatewayChallenge challenge = true →
  validateResolverReview NewName Pack (projectResolverReview (mkReview (P := resolverPackage) tk s (resolver_expiry s)) challenge)
    (SelectionID (ResolverPlan.cSelection c)) t = true.
Proof.
  intros Hnew Hwe Hws Hid Hv Ht Hch. pose proof (new_again _ _ _ _ Hnew) as Hagain.
  apply ResolverPlan.new_iff in Hnew as (prefixes & member & Hcr & _ & Hc & _ & Hb & _ & Hp).
  set (expires := resolver_expiry s) in *.
  assert (Hle : wall expires <= wall created + ResolverPlan.ReviewLifetime).
  { unfold expires, resolver_expiry. rewrite Hp. cbn [ResolverPlan.review ResolverPlan.built ResolverPlan.ExpiresAt].
    rewrite Before_wall by (right; auto with cozy). case_match; rewrite ?wall_Add in *; cbn [wall UTC] in *; go_bool; lia. }
  destruct Hc as [_ _ _ [q Hq] Hel _].
  assert (Hport : Wire.ap_port (ResolverPlan.Endpoint c) = 53).
  { unfold ResolverPlan.question, Wire.NewQuery in Hq. destruct (_ || _) eqn:E in Hq; [done|]. rewrite !orb_false_iff, !negb_false_iff, Z.eqb_eq in E. by destruct_and? E. }
  apply validTime_spec in Hv. set (d := ResolverPlan.review (sPlan s)) in *.
  assert (Hd : ResolverPlan.dProfile d = ResolverRun.Profile ∧ ResolverPlan.cSelection (ResolverPlan.dConfiguration d) = ResolverPlan.cSelection c ∧
    ResolverPlan.Endpoint (ResolverPlan.dConfiguration d) = ResolverPlan.Endpoint c ∧ ResolverPlan.Source (ResolverPlan.dBinding d) = ResolverPlan.Source b ∧
    ResolverPlan.CreatedAt d = UTC created ∧ ResolverPlan.MayForwardUpstream d = true) by (unfold d; rewrite Hp; done).
  destruct Hd as (Hd1 & Hd2 & Hd3 & Hd4 & Hd5 & Hd6).
  assert (Hsrc : ResolverPlan.Source b ≠ AddrNone) by (apply Binding.validate_binding in Hb as (? & Hs & _); by destruct (ResolverPlan.Source b)).
  unfold validateResolverReview. rewrite wire_selection, wire_observer. unfold projectResolverReview.
  cbn [wSchemaVersion Mode wProfile wSelectionID wResolverID wQueryID Settings wBinding wSensorID wSource wCreatedAt wExpiresAt wOutside wForward wBudget Challenge
    pEndpoint pName pDestinationScope GatewayPlan.Prefixes review_selection review_expires].
  fold d. assert (Hds : ResolverPlan.review (sPlan s) = d) by done. clearbody d. clear Hp Hb.
  assert (Hbind : ResolverPlan.mkBinding (ResolverPlan.bObserver (ResolverPlan.dBinding d)) (ResolverPlan.Prefixes (ResolverPlan.dBinding d)) (ResolverPlan.Source b) =
    ResolverPlan.dBinding d) by (rewrite <- Hd4; by destruct (ResolverPlan.dBinding d)).
  assert (Hconf : ResolverPlan.mkConfiguration (ResolverPlan.cSelection c) (ResolverPlan.Endpoint c) (ResolverPlan.cName (ResolverPlan.dConfiguration d))
    (ResolverPlan.Scope (ResolverPlan.dConfiguration d)) = ResolverPlan.dConfiguration d) by (rewrite <- Hd2, <- Hd3; by destruct (ResolverPlan.dConfiguration d)).
  rewrite Hd1, Hd2, Hd3, Hd4, Hd6, Hid, Hch, ParseAddrPort_String, ParseAddr_AddrString by (done || rewrite ?Hport; lia || by destruct (Wire.ap_addr _)).
  rewrite Hbind, Hconf, Hagain, Hds, Hd5, !bool_decide_eq_true_2, Bool.eqb_reflx by done. unfold GatewaySession.gatewayTime. fold (validTime (UTC created)). fold (validTime (UTC (Round0 expires))).
  rewrite !validTime_eq, !After_wall, Before_wall, Sub_wall by auto with cozy. cbn [wall UTC Round0 stripMono]. rewrite Hcr, Hv.
  assert ((ResolverPlan.ReviewLifetime <? int64_saturate (wall expires - wall created)) = false) as ->
    by (apply Z.ltb_ge, saturate_le_iff; unfold ResolverPlan.ReviewLifetime, min_int64, max_int64, Second in *; lia).
  assert ((wall t <? wall created) = false) as -> by (apply Z.ltb_ge; lia).
  assert ((wall t <? wall expires) = true) as -> by (apply Z.ltb_lt; lia).
  assert ((wall created <? wall expires) = true) as -> by (apply Z.ltb_lt; lia).
  done.
Qed.

(** The wire form of a review, from its creation until it expires, passes the validation of both sides. *)
Theorem resolver_review_delivered b c created s tk challenge t :
  ResolverPlan.New NewName Pack b c created = Ok (sPlan s) → well_formed_addr (Wire.ap_addr (ResolverPlan.Endpoint c)) → well_formed_addr (ResolverPlan.Source b) →
  ValidResolverSelectionID (SelectionID (ResolverPlan.cSelection c)) = true → validTime (resolver_expiry s) = true →
  wall created <= wall t < wall (resolver_expiry s) → MatchString gatewayChallenge challenge = true →
  validateResolverReview NewName Pack (projectResolverReview (mkReview (P := resolverPackage) tk s (resolver_expiry s)) challenge)
    (SelectionID (ResolverPlan.cSelection c)) t = true.
Proof. apply resolver_review_valid. Qed.

(** A confirmed resolver result is delivered.  Whatever the control, its clock and collaborators do, a
    result of the run of an approved review projects to a wire result that the session's validator, which
    rebuilds the terminal event from the wire, accepts at any time of the following day. *)
Theorem resolver_result_delivered lower upper i (p : pendingReview (P := resolverPackage)) start challenge :
  canonical (expiresAt p) → wall (ResolverPlan.CreatedAt (ResolverPlan.review (sPlan (RunControl.selection p)))) <= lower →
  post lower upper (run_body i p start) (λ x, ∀ r now, x.1 = Some r → upper <= wall now <= lower + MaxWindow → in_int64 (wall now + Second) = true →
    let wire := projectResolverReview (mkReview (ticket p) (RunControl.selection p) (expiresAt p)) challenge in
    validateResolverResult (projectResolverResult wire r x.2) wire now = true).
Proof.
  intros Hc Hl. eapply post_mono; [apply run_body_post|]. intros x Hx r now Hr Hu Hn. eapply resolver_result_valid; [done|done|apply Hu|done|lia|done|done].
Qed.

End Reviews.

(** ** Examples *)

Definition home_id : string := "selection.0123456789abcdef0123456789abcdef".
Definition home_configuration : ResolverPlan.Configuration :=
  ResolverPlan.mkConfiguration (mkResolverSelection home_id "resolver.home" "query.home" FamilyIPv4 DNSUDP DNSQueryA DNSExpectAnswer)
    (Wire.mkAddrPort (V4 3232235777) 53) "Host.example." ResolverPlan.EnrolledPrefix.
Definition home_new := ResolverPlan.New Wire.checked_name Wire.pack_question (ResolverPlan.home_binding ResolverPlan.home_prefixes) home_configuration (Quality.clock 100).
Definition home_selection : Selection := mkSelection (ResolverPlan.plan_of home_new) (Quality.clock 100) (Add (Quality.clock 100) ResolverPlan.ReviewLifetime).
Definition home_pending : pendingReview (P := resolverPackage) :=
  mkPending (P := resolverPackage) "ticket" home_selection (resolver_expiry home_selection) (resolver_expiry home_selection) example_id.

Example home_review_delivered :
  validateResolverReview Wire.checked_name Wire.pack_question
    (projectResolverReview (mkReview (P := resolverPackage) "ticket" home_selection (resolver_expiry home_selection)) example_id) home_id (Quality.clock 110) = true.
Proof.
  apply (resolver_review_delivered Wire.checked_name Wire.pack_question (ResolverPlan.home_binding ResolverPlan.home_prefixes) home_configuration (Quality.clock 100)).
  - vm_compute. reflexivity.
  - split; [discriminate|reflexivity].
  - split; [discriminate|reflexivity].
  - vm_compute. reflexivity.
  - vm_compute. reflexivity.
  - split; [apply Z.leb_le|apply Z.ltb_lt]; vm_compute; reflexivity.
  - vm_compute. reflexivity.
Qed.

Lemma resolver_result_delivered_witness :
  post (wall (Quality.clock 100)) (wall (Quality.clock 106)) (run_body 1 home_pending (Quality.clock 101)) (λ x, ∀ r now, x.1 = Some r →
    wall (Quality.clock 106) <= wall now <= wall (Quality.clock 100) + MaxWindow → in_int64 (wall now + Second) = true →
    let wire := projectResolverReview (mkReview (ticket home_pending) (RunControl.selection home_pending) (expiresAt home_pending)) example_id in
    validateResolverResult (projectResolverResult wire r x.2) wire now = true).
Proof.
  apply (resolver_result_delivered (wall (Quality.clock 100)) (wall (Quality.clock 106)) 1 home_pending (Quality.clock 101) example_id).
  - reflexivity.
  - apply Z.leb_le. vm_compute. reflexivity.
Defined.

End ResolverSession.
