(* ===== verification/HTTPSSession.v ===== *)
(** * The HTTPS session

    [localapi/https_projection.go], [https_session.go], [https_frame.go] and
    [https_client.go]: the reviews and results of the HTTPS check on the wire.  The exchange
    is that of [ConsentSession].  Validation rebuilds the complete fixed profile, the request
    bytes and the privacy notes included, and requires the very review. *)

From Stdlib Require Import Ascii.
From S2P Require Import Prelude Regex GoTime NetAddr NetText GatewayPlan Quality ResolverWire ResolverQuality HTTPSQuality HTTPSPlan RunControl RunResult HTTPSRun Effects ConsentSession GatewaySession AddrPortText ResolverSession CheckBinding.

Module HTTPSSession.
Import Quality HTTPS HTTPSRun Session AddrPortText.
Import Resolver (resolverTime).

Definition httpsFrameLimit : Z := 64 * 1024.
Definition httpsSelectionID : regex := RCat (ResolverSession.word "https-selection.") (hex_regex 32).
Definition ValidHTTPSSelectionID (id : string) : bool := MatchString httpsSelectionID id.

(** ** Wire data *)

Record SettingsParams := mkSettingsParams {
  pEndpoint : string; pServerName : string; pRequestTarget : string; pFamily : string; pMethod : string; pExpectedStatus : Z; pDestinationPolicy : string;
}.

(** [api.HTTPSPlanBudget] *)
Record PlanBudget := mkPlanBudget {
  bMaxConnections : Z; bMaxRequests : Z; bMaxRetries : Z; bMaxRequestBytes : Z; bMaxResponseHeaderBytes : Z; bMaxTransportReadBytes : Z;
  bMaxTransportWriteBytes : Z; bMaxTransportReadCalls : Z; bMaxTransportWriteCalls : Z; ConnectTimeoutMS : Z; TLSHandshakeTimeoutMS : Z;
  ResponseHeaderTimeoutMS : Z; TotalTimeoutMS : Z; bMaxConcurrentRuns : Z; MinRunIntervalMS : Z;
}.

(** [api.HTTPSPlanPolicy] *)
Record PlanPolicy := mkPlanPolicy {
  pALPN : string; pTrustStore : string; pClientAuthentication : bool; pHTTPVersion : string; pMinTLSVersion : string; pMaxTLSVersion : string;
  pVerifyServerIdentity : bool; pFreshConnection : bool; pSessionResumption : bool; pEarlyData : bool; pUseProxy : bool; pResolveNames : bool;
  pFollowRedirects : bool; pReadResponseBody : bool;
}.

Record HTTPSCheckReview := mkHTTPSCheckReview {
  wSchemaVersion : Z;
  Mode : string;
  Challenge : string;
  wProfile : string;
  wSelectionID : string;
  wEndpointID : string;
  wRequestID : string;
  Settings : SettingsParams;
  wBinding : GatewayPlanBinding;
  wSensorID : string;
  wSource : string;
  wCreatedAt : Time;
  wExpiresAt : Time;
  wOutside : bool;
  wRouteObservedAt : Time;
  wRouteFreshUntil : Time;
  wPolicy : PlanPolicy;
  wRequestBytes : string;
  wPrivacy : list string;
  wBudget : PlanBudget;
}.

Record HTTPSCheckResult := mkHTTPSCheckResult {
  resSchemaVersion : Z;
  resReview : HTTPSCheckReview;
  resRunID : string;
  resOutcome : string;
  FailureCode : string;
  resMeasurement : option Measurement;
}.

#[export] Instance HTTPSSettingsParams_eq_dec : EqDecision SettingsParams.
Proof. solve_decision. Defined.
#[export] Instance HTTPSPlanBudget_eq_dec : EqDecision PlanBudget.
Proof. solve_decision. Defined.
#[export] Instance HTTPSPlanPolicy_eq_dec : EqDecision PlanPolicy.
Proof. solve_decision. Defined.
#[export] Instance HTTPSCheckReview_eq_dec : EqDecision HTTPSCheckReview.
Proof. solve_decision. Defined.

Definition wireHTTPSBudget (b : HTTPSPlan.Budget) : PlanBudget :=
  mkPlanBudget (HTTPSPlan.MaxConnections b) (HTTPSPlan.MaxRequests b) (HTTPSPlan.MaxRetries b) (HTTPSPlan.MaxRequestBytes b) (HTTPSPlan.MaxResponseHeaderBytes b)
    (HTTPSPlan.MaxTransportReadBytes b) (HTTPSPlan.MaxTransportWriteBytes b) (HTTPSPlan.MaxTransportReadCalls b) (HTTPSPlan.MaxTransportWriteCalls b)
    (GatewaySession.Milliseconds (HTTPSPlan.ConnectTimeout b)) (GatewaySession.Milliseconds (HTTPSPlan.TLSHandshakeTimeout b))
    (GatewaySession.Milliseconds (HTTPSPlan.ResponseHeaderTimeout b)) (GatewaySession.Milliseconds (HTTPSPlan.TotalTimeout b))
    (HTTPSPlan.MaxConcurrentRuns b) (GatewaySession.Milliseconds (HTTPSPlan.MinRunInterval b)).

(** [tls.VersionName]: the known versions, or four hexadecimal digits. *)
Definition VersionName (v : Z) : string :=
  if v =? 768 then "SSLv3" else if v =? 769 then "TLS 1.0" else if v =? 770 then "TLS 1.1" else if v =? 771 then "TLS 1.2" else if v =? 772 then "TLS 1.3"
  else "0x" +:+ String.string_of_list_ascii (map (λ i, HTTPSPlan.upper_hex (Z.land (Z.shiftr v (4 * i)) 15)) [3; 2; 1; 0]).

Definition wireHTTPSPolicy (b : HTTPSPlan.Policy) : PlanPolicy :=
  mkPlanPolicy (HTTPSPlan.ALPN b) (HTTPSPlan.TrustStore b) (HTTPSPlan.ClientAuthentication b) (HTTPSPlan.HTTPVersion b)
    (VersionName (HTTPSPlan.MinTLSVersion b)) (VersionName (HTTPSPlan.MaxTLSVersion b)) (HTTPSPlan.VerifyServerIdentity b) (HTTPSPlan.FreshConnection b)
    (HTTPSPlan.SessionResumption b) (HTTPSPlan.EarlyData b) (HTTPSPlan.UseProxy b) (HTTPSPlan.ResolveNames b) (HTTPSPlan.FollowRedirects b)
    (HTTPSPlan.ReadResponseBody b).

(** The request of an invalid plan is empty. *)
Definition projectHTTPSReview (r : Review (P := httpsPackage)) (challenge : string) : HTTPSCheckReview :=
  let s : Selection := review_selection r in
  let d := HTTPSPlan.review (sPlan s) in
  let c := HTTPSPlan.dConfiguration d in
  let q := HTTPSPlan.cSelection c in
  let b := HTTPSPlan.bObserver (HTTPSPlan.dBinding d) in
  mkHTTPSCheckReview 1 "experimental-one-shot" challenge (HTTPSPlan.dProfile d) (SelectionID q) (EndpointID q) (RequestID q)
    (mkSettingsParams (AddrPortString (HTTPSPlan.Endpoint c)) (HTTPSPlan.ServerName c) (HTTPSPlan.RequestTarget c) (SelectionFamily q) (SelectionMethod q)
       (ExpectedStatus q) (HTTPSPlan.DestinationPolicy c))
    (mkGatewayPlanBinding (ScopeID b) (InterfaceName b) (InterfaceIndex b) (HTTPSPlan.Prefixes (HTTPSPlan.dBinding d))) (SensorID b)
    (AddrString (HTTPSPlan.Source (HTTPSPlan.dBinding d))) (HTTPSPlan.CreatedAt d) (UTC (Round0 (review_expires r)))
    (HTTPSPlan.OutsideEnrolledPrefixes d) (UTC (Round0 (RouteObservedAt s))) (UTC (Round0 (RouteFreshUntil s))) (wireHTTPSPolicy (HTTPSPlan.dPolicy d))
    (match HTTPSPlan.RequestBytes (sPlan s) with Ok q => q | Err _ => "" end) (HTTPSPlan.Privacy d) (wireHTTPSBudget (HTTPSPlan.dBudget d)).

Definition httpsWireSelection (r : HTTPSCheckReview) : HTTPSSelection :=
  let p := Settings r in
  mkHTTPSSelection (wSelectionID r) (wEndpointID r) (wRequestID r) (pFamily p) (pMethod p) (pExpectedStatus p).

Definition httpsWireObserver (r : HTTPSCheckReview) : Observer :=
  mkObserver (GatewayPlan.ScopeID (wBinding r)) (wSensorID r) (GatewayPlan.InterfaceName (wBinding r)) (GatewayPlan.InterfaceIndex (wBinding r)).

Definition validateHTTPSReview (r : HTTPSCheckReview) (id : string) (now : Time) : bool :=
  if negb (wSchemaVersion r =? 1) || (Mode r != "experimental-one-shot") || (wProfile r != HTTPSRun.Profile) || (wSelectionID r != id) ||
     negb (ValidHTTPSSelectionID id) || negb (MatchString gatewayChallenge (Challenge r)) || negb (GatewaySession.gatewayTime now) ||
     negb (GatewaySession.gatewayTime (wCreatedAt r)) || negb (GatewaySession.gatewayTime (wExpiresAt r)) ||
     negb (GatewaySession.gatewayTime (wRouteObservedAt r)) || negb (GatewaySession.gatewayTime (wRouteFreshUntil r)) ||
     After (wCreatedAt r) now || negb (Before now (wExpiresAt r)) || negb (After (wExpiresAt r) (wCreatedAt r)) ||
     (HTTPSPlan.ReviewLifetime <? Sub (wExpiresAt r) (wCreatedAt r)) || After (wRouteObservedAt r) (wCreatedAt r) ||
     negb (Equal (wRouteFreshUntil r) (Add (wRouteObservedAt r) HTTPSPlan.ReviewLifetime)) || negb (Before now (wRouteFreshUntil r))
  then false else
  match ParseAddrPort (pEndpoint (Settings r)) with
  | None => false
  | Some endpoint =>
      if AddrPortString endpoint != pEndpoint (Settings r) then false else
      match ParseAddr (wSource r) with
      | None => false
      | Some source =>
          if AddrString source != wSource r then false else
          match HTTPSPlan.New (HTTPSPlan.mkBinding (httpsWireObserver r) (Prefixes (wBinding r)) source)
                  (HTTPSPlan.mkConfiguration (httpsWireSelection r) endpoint (pServerName (Settings r)) (pRequestTarget (Settings r)) (pDestinationPolicy (Settings r)))
                  (wCreatedAt r) with
          | Err _ => false
          | Ok p =>
              let expires := HTTPSPlan.ExpiresAt (HTTPSPlan.review p) in
              let expires := if Before (wRouteFreshUntil r) expires then wRouteFreshUntil r else expires in
              projectHTTPSReview (mkReview (P := httpsPackage) "" (mkSelection p (wRouteObservedAt r) (wRouteFreshUntil r)) expires) (Challenge r) == r
          end
      end
  end.

Definition projectHTTPSResult (review : HTTPSCheckReview) (r : Result (P := httpsPackage)) (err : option run_err) : HTTPSCheckResult :=
  mkHTTPSCheckResult 1 review (result_run r) (result_outcome r) (match err with Some e => errorCode e | None => "" end)
    (option_map (λ s : HTTPSMeasurement, mkMeasurement (UTC (Round0 (StartedAt s))) (UTC (Round0 (CompletedAt s))) (Exchange s) (Request s) (Gap s) (Stage s) (StatusCode s) (ResponseTime s))
       (result_sample r)).

(** The reason a result is taken for; [None] where outcome, code and measurement do not
    fit. *)
Definition result_reason (r : HTTPSCheckResult) : option string :=
  if resOutcome r == "completed" then if FailureCode r != "" then None else Some ""
  else if resOutcome r == "failed" then if FailureCode r != "execution_failed" then None else Some "execution-error"
  else if resOutcome r == "canceled" then if FailureCode r != "canceled" then None else Some "canceled"
  else if resOutcome r == "indeterminate" then
    if (FailureCode r != "execution_failed") || is_some (resMeasurement r) then None else Some "execution-panic"
  else if resOutcome r == "blocked" then
    if is_some (resMeasurement r) then None
    else if FailureCode r == "precondition_failed" then Some "preflight-unavailable"
    else if FailureCode r == "review_expired" then Some "review-expired" else None
  else None.

(** The measurement is outside of the review. *)
Definition outside (m : option Measurement) (review : HTTPSCheckReview) : bool :=
  match m with
  | Some m => Before (aStartedAt m) (wCreatedAt review) || negb (Before (aStartedAt m) (wExpiresAt review)) ||
              (((aExchange m == HTTPSResponseReceived) || (aExchange m == HTTPSTimeout)) && negb (Before (aCompletedAt m) (wExpiresAt review)))
  | None => false
  end.

Definition validateHTTPSResult (r : HTTPSCheckResult) (review : HTTPSCheckReview) (now : Time) : bool :=
  if negb (resSchemaVersion r =? 1) || (resReview r != review) then false
  else if resOutcome r == "declined" then (resRunID r == "") && negb (is_some (resMeasurement r)) && (FailureCode r == "")
  else if negb (MatchString gatewayChallenge (resRunID r)) then false
  else match result_reason r with
       | None => false
       | Some reason =>
           if outside (resMeasurement r) review then false
           else ValidateEvent (mkEvent 1 (resRunID r) "finished" (resOutcome r) reason now HTTPSRun.Profile (httpsWireSelection review)
                                 (httpsWireObserver review) (resMeasurement r))
       end.

Lemma https_declined_valid w t : validateHTTPSResult (mkHTTPSCheckResult 1 w "" "declined" "" None) w t = true.
Proof. unfold validateHTTPSResult. cbn. by rewrite bool_decide_eq_true_2. Qed.

Lemma https_challenge_valid w p t : validateHTTPSReview w p t = true → MatchString gatewayChallenge (Challenge w) = true.
Proof. unfold validateHTTPSReview. rewrite if_false_iff, !orb_false_iff, !negb_false_iff. intros [H _]. by apply H. Qed.

Definition httpsSession : SessionPackage httpsPackage := {|
  WireReview := HTTPSCheckReview;
  WireResult := HTTPSCheckResult;
  method := "network-quality.https-check";
  param_name := "selection_id";
  param_ok := ValidHTTPSSelectionID;
  param_target := λ id, id : @RunControl.Target httpsPackage;
  challenge_of := Challenge;
  expires_of := wExpiresAt;
  project_review := projectHTTPSReview;
  validate_review := validateHTTPSReview;
  declined := λ w, mkHTTPSCheckResult 1 w "" "declined" "" None;
  outcome_of := resOutcome;
  project_result := projectHTTPSResult;
  validate_result := validateHTTPSResult;
  operation_timeout := OperationTimeout;
  audit_timeout := AuditTimeout;
  response_limit := httpsFrameLimit;
  request_timeout := OperationTimeout + Second;
  compares_outcome := true;
  challenge_project := λ _ _, eq_refl;
  challenge_valid := https_challenge_valid;
  declined_valid := https_declined_valid;
|}.

(** The server's and the client's side of the exchange. *)
Definition httpsCheck := @check httpsPackage httpsSession.
Definition CheckHTTPS := @client httpsPackage httpsSession.

(** ** Events at later times *)

(** Against wall-clock times the monotonic reading of [now] does not matter. *)
Lemma https_single_UTC o now m :
  canonical (StartedAt m) → canonical (CompletedAt m) →
  ValidateHTTPSSnapshot (mkHTTPSSnapshot o now (StartedAt m) Second [HTTPS.Selection m] [m]) =
  ValidateHTTPSSnapshot (mkHTTPSSnapshot o (UTC now) (StartedAt m) Second [HTTPS.Selection m] [m]).
Proof.
  intros Hs Hc. unfold ValidateHTTPSSnapshot. cbn [SnapshotObserver AsOf WindowStart Freshness Selections Measurements for_each].
  unfold measurement_step. cbn [SnapshotObserver AsOf WindowStart Freshness Selections Measurements].
  rewrite !(After_wall (StartedAt m)), !(Sub_wall _ (StartedAt m)), !(After_wall (CompletedAt m)) by auto.
  unfold resolverTime. by rewrite !validTime_eq, !wall_Add.
Qed.

Lemma https_empty_UTC o now sels :
  ValidateHTTPSSnapshot (mkHTTPSSnapshot o now now Second sels []) =
  ValidateHTTPSSnapshot (mkHTTPSSnapshot o (UTC now) (UTC now) Second sels []).
Proof.
  unfold ValidateHTTPSSnapshot. cbn [SnapshotObserver AsOf WindowStart Freshness Selections Measurements for_each].
  rewrite !After_Before, !Before_irrefl, !ResolverSession.Sub_self. unfold resolverTime. by rewrite !validTime_eq, !wall_Add.
Qed.

Lemma https_measurement_at m t now :
  canonical t → canonical (StartedAt m) → canonical (CompletedAt m) → validateMeasurement m t = true →
  wall t <= wall now → in_int64 (wall now + Second) = true → wall now - wall (StartedAt m) <= MaxWindow →
  validateMeasurement m now = true.
Proof.
  intros Ht Hs Hc (Hb & Hv)%https_validateMeasurement_split Hle Hn Hw. apply https_validateMeasurement_split. split; [done|]. unfold single in *.
  rewrite https_single_UTC by done. apply https_single_valid in Hv as (H1 & H2 & H3 & H4 & H5 & H6 & H7); [|done..].
  apply https_single_valid; [done..|]. split_and!; try done. by apply (window_later _ _ t).
Qed.

(** The last [switch] of [ValidateEvent] for terminal events. *)
Definition reason_fits (o r : string) (measured : bool) : bool :=
  if o == "completed" then (r == "") && measured
  else if o == "blocked" then negb measured && ((r == "preflight-unavailable") || (r == "selection-changed") || (r == "review-expired"))
  else if o == "canceled" then r == "canceled"
  else if o == "failed" then (r == "execution-error") || ((r == "measurement-invalid") && negb measured)
  else if o == "indeterminate" then (r == "execution-panic") && negb measured
  else false.

Definition measures (rid : string) (sel : HTTPSSelection) (obs : Observer) (o : string) (t : Time) (m : option Measurement) : Prop :=
  match m with
  | Some m =>
      let x := sample m rid sel obs in
      ((o != "completed") && (o != "failed") && (o != "canceled")) = false ∧ validateMeasurement x t = true ∧ ((o == "completed") && negb (complete x)) = false
  | None => ValidateHTTPSSnapshot (mkHTTPSSnapshot obs t t Second [sel] []) = Ok tt
  end.

Lemma https_finished_iff rid o r t sel obs m :
  ValidateEvent (mkEvent 1 rid "finished" o r t HTTPSRun.Profile sel obs m) = true ↔
  MatchString runPattern rid = true ∧ validTime t = true ∧ measures rid sel obs o t m ∧ reason_fits o r (is_some m) = true.
Proof.
  unfold ValidateEvent, event_sample. cbn [SchemaVersion RunID eProfile At eSelection eMeasurement eObserver State Outcome Reason].
  rewrite !if_false_iff, !negb_false_iff, !orb_false_iff, !negb_false_iff.
  change (("finished" == "authorized") || ("finished" == "admitted")) with false. change ("finished" == "finished") with true. fold (reason_fits o r (is_some m)).
  assert (Hok : ∀ x, is_ok (ValidateHTTPSSnapshot x) = true ↔ ValidateHTTPSSnapshot x = Ok tt).
  { intros x. rewrite is_ok_true. split; [intros [[] ?]; done|eauto]. }
  unfold measures. destruct m as [m|]; rewrite ?Hok.
  - rewrite !orb_false_iff, !negb_false_iff. assert (Hs : validateMeasurement (sample m rid sel obs) t = true → ValidateHTTPSSnapshot (single (sample m rid sel obs) t) = Ok tt)
      by (intros [_ ?]%https_validateMeasurement_split; done).
    unfold single in Hs. cbn [is_some sample MeasuredBy StartedAt HTTPS.Selection negb] in Hs |- *. clear Hok.
    split; intros; destruct_and?; split_and!; auto.
  - clear Hok. split; intros; destruct_and?; split_and!; auto.
Qed.

Lemma https_empty_at obs t now sel :
  canonical t → ValidateHTTPSSnapshot (mkHTTPSSnapshot obs t t Second [sel] []) = Ok tt → in_int64 (wall now) = true → in_int64 (wall now + Second) = true →
  ValidateHTTPSSnapshot (mkHTTPSSnapshot obs now now Second [sel] []) = Ok tt.
Proof.
  intros Ht Hv Hn Hl. rewrite https_empty_UTC. apply https_validate_iff in Hv as [Hctx Hsel _ _ _ _]. apply Forall_inv in Hsel.
  unfold context_ok in Hctx. cbn [SnapshotObserver AsOf WindowStart Freshness Selections Measurements] in *. apply negb_true_iff in Hctx. rewrite !orb_false_iff, !negb_false_iff in Hctx.
  apply https_empty_single; [by rewrite validTime_eq|done..| |done]. unfold observer_ok. destruct_and? Hctx. split; [done|by apply Z.ltb_ge].
Qed.

(** The wire carries the whole selection and observer. *)
Lemma https_wire_selection r challenge :
  httpsWireSelection (projectHTTPSReview r challenge) = HTTPSPlan.cSelection (HTTPSPlan.dConfiguration (HTTPSPlan.review (sPlan (review_selection r)))).
Proof. unfold httpsWireSelection, projectHTTPSReview. cbn. by destruct (HTTPSPlan.cSelection _). Qed.
Lemma https_wire_observer r challenge :
  httpsWireObserver (projectHTTPSReview r challenge) = HTTPSPlan.bObserver (HTTPSPlan.dBinding (HTTPSPlan.review (sPlan (review_selection r)))).
Proof. unfold httpsWireObserver, projectHTTPSReview. cbn. by destruct (HTTPSPlan.bObserver _). Qed.

(** ** Results are delivered *)

Lemma https_sampled_within lower (p : pendingReview (P := httpsPackage)) s :
  sampled_by lower p (Some s) → canonical (expiresAt p) →
  lower <= wall (StartedAt s) < wall (expiresAt p) ∧ (complete s = true → wall (CompletedAt s) < wall (expiresAt p)).
Proof.
  intros (x & err & fresh & started & returned & Hv & Hl & Hc & _) He. cbn [validate_sample httpsPackage] in Hv. unfold validateSample in Hv.
  match type of Hv with (if ?b then _ else _) = _ => destruct b; [by destruct err|] end.
  match type of Hv with (if ?b then _ else _) = _ => destruct b eqn:E; [done|] end. injection Hv as <-.
  rewrite !orb_false_iff in E. destruct E as [[[[[[_ Hst] _] Hexp] Hcomp] _] _].
  rewrite Before_wall in Hst by auto. rewrite Before_wall in Hexp by auto. go_bool. split; [lia|]. intros Hx. rewrite Hx in Hcomp.
  rewrite Before_wall in Hcomp by auto. go_bool. lia.
Qed.

Lemma https_measures_at lower rid sel obs o t now s :
  canonical t → (∀ x, s = Some x → lower <= wall (StartedAt x)) → measures rid sel obs o t (auditMeasurement s) →
  wall t <= wall now → in_int64 (wall now) = true → in_int64 (wall now + Second) = true → wall now - lower <= MaxWindow →
  measures rid sel obs o now (auditMeasurement s).
Proof.
  intros Ht Hl Hm Hle Hn Hn' Hw. destruct s as [x|]; cbn [auditMeasurement copySample measures] in *; [|by eapply https_empty_at].
  destruct Hm as (H1 & H2 & H3). split_and!; try done. specialize (Hl x eq_refl). eapply https_measurement_at; [exact Ht|done|done|exact H2|done..|]. cbn [sample StartedAt aStartedAt wall UTC Round0 stripMono]. lia.
Qed.

(** The projection has a reason for every report. *)
Lemma https_reported_reason wire o reason e sampled s rid measured :
  reports o reason e sampled → (if sampled then True else s = None) → measured = is_some (auditMeasurement s) →
  reason_fits o reason measured = true →
  ∃ reason', result_reason (mkHTTPSCheckResult 1 wire rid o (match e with Some e => errorCode e | None => "" end) (auditMeasurement s)) = Some reason' ∧
    reason_fits o reason' measured = true.
Proof.
  intros Hrep Hs -> Hfit. destruct Hrep; try (rewrite Hs in *); cbn in Hfit |- *; try (eexists; split; [reflexivity|done]).
Qed.

Lemma https_result_valid lower upper (p : pendingReview (P := httpsPackage)) challenge x now :
  canonical (expiresAt p) → wall (HTTPSPlan.CreatedAt (HTTPSPlan.review (sPlan (RunControl.selection p)))) <= lower →
  upper <= wall now → in_int64 (wall now + Second) = true → wall now - lower <= MaxWindow →
  concluded lower upper p x → ∀ r, x.1 = Some r →
  let wire := projectHTTPSReview (mkReview (ticket p) (RunControl.selection p) (expiresAt p)) challenge in
  validateHTTPSResult (projectHTTPSResult wire r x.2) wire now = true.
Proof.
  intros Hce Hlo Hup Hn Hw Hcon r Hr wire. destruct (Hcon r Hr) as (reason & sampled & Hid & Hrep & (t & Ht & He) & Hs). clear Hcon Hr.
  cbn [event_valid httpsPackage make_event] in He. unfold makeEvent in He. apply https_finished_iff in He as (Hrun & Hvt & Hm & Hfit).
  set (d := HTTPSPlan.review (sPlan (RunControl.selection p))) in *.
  assert (Haudit : option_map (λ s : HTTPSMeasurement, mkMeasurement (UTC (Round0 (StartedAt s))) (UTC (Round0 (CompletedAt s))) (Exchange s) (Request s) (Gap s) (Stage s) (StatusCode s) (ResponseTime s))
    (result_sample r) = auditMeasurement (result_sample r)) by by destruct (result_sample r).
  unfold projectHTTPSResult. rewrite Haudit.
  assert (Hsample : ∀ s, result_sample r = Some s → sampled_by lower p (Some s)) by (intros s Es; rewrite Es in Hs; destruct sampled; [by destruct Hs|done]).
  destruct (https_reported_reason wire _ _ _ _ (result_sample r) (result_run r) (is_some (auditMeasurement (result_sample r))) Hrep) as (reason' & Hreason & Hfit'); [by destruct sampled|reflexivity|done|].
  assert (Hout : outside (auditMeasurement (result_sample r)) wire = false).
  { destruct (result_sample r) as [s|]; [|done]. destruct (https_sampled_within _ _ _ (Hsample s eq_refl) Hce) as [Hst Hend].
    cbn [auditMeasurement copySample outside aStartedAt aExchange aCompletedAt]. rewrite !Before_wall by auto with cozy.
    cbn [wire projectHTTPSReview wCreatedAt wExpiresAt review_selection review_expires]. fold d. cbn [wall UTC Round0 stripMono].
    rewrite (proj2 (Z.ltb_ge (wall (StartedAt s)) _)), (proj2 (Z.ltb_lt (wall (StartedAt s)) _)) by lia. cbn [negb orb].
    fold (complete s). destruct (complete s); [|done]. by rewrite (proj2 (Z.ltb_lt _ _)) by auto. }
  unfold validateHTTPSResult. rewrite Hreason. cbn [resSchemaVersion resReview resOutcome resRunID FailureCode resMeasurement].
  rewrite Hout, Hid, (https_wire_selection _ challenge : httpsWireSelection wire = _), (https_wire_observer _ challenge : httpsWireObserver wire = _). cbn [review_selection]. fold d. change (MatchString gatewayChallenge (runID p)) with (MatchString runPattern (runID p)). rewrite Hrun, (bool_decide_eq_true_2 (wire = wire)) by done.
  assert (bool_decide (result_outcome r = "declined") = false) as -> by by destruct Hrep.
  cbn [Z.eqb Pos.eqb negb orb]. apply https_finished_iff. rewrite validTime_eq in Hvt |- *. cbn [wall UTC Round0 stripMono] in Hvt.
  assert (Hnow : in_int64 (wall now) = true) by (destruct Ht; unfold in_int64, Second in *; go_bool; split; go_bool; lia).
  split_and!; try done. apply (https_measures_at lower _ _ _ _ (UTC (Round0 t))); try done.
  - intros s Es. apply (https_sampled_within lower p s); auto.
  - cbn. destruct Ht. lia.
Qed.


(** ** Reviews are delivered *)

Lemma lower_digit_value c : digit_value (lower_ascii c) = digit_value c.
Proof. ResolverSession.every_ascii c. Qed.

Lemma parse4_lower w v d a p : parse4 (map lower_ascii w) v d a p = parse4 w v d a p.
Proof.
  revert v d a p. induction w as [|c w IH]; intros v d a p; [done|]. cbn [map parse4]. rewrite lower_digit_value, ResolverSession.lower_dot.
  destruct (digit_value c); rewrite IH; [done|]. by destruct w.
Qed.

(** Without a colon or a percent sign, a text is parsed as an IPv4 address at most. *)
Lemma parse_addr_lower w full :
  Forall (λ c, Wire.label_char c || bool_decide (c = "."%char) = true) w →
  parse_addr (map lower_ascii w) (map lower_ascii full) = parse_addr w full.
Proof.
  induction 1 as [|c w Hc _ IH]; [done|]. cbn [map parse_addr]. rewrite ResolverSession.lower_dot. destruct (c == "."%char) eqn:Hd.
  - unfold parseIPv4. by rewrite parse4_lower.
  - assert (Hx : (lower_ascii c == ":"%char) = false ∧ (lower_ascii c == "%"%char) = false ∧ (c == ":"%char) = false ∧ (c == "%"%char) = false).
    { clear IH. revert Hc Hd. destruct c as [[] [] [] [] [] [] [] []]; vm_compute; done || auto. }
    destruct Hx as (-> & -> & -> & ->). exact IH.
Qed.

Lemma validServerName_lower n : HTTPSPlan.validServerName n = true → HTTPSPlan.validServerName (ToLower n) = true.
Proof.
  unfold HTTPSPlan.validServerName. rewrite !if_false_iff. intros (H1 & H2 & H3). rewrite ResolverSession.ToLower_list.
  assert (Hc : Forall (λ c, Wire.label_char c || bool_decide (c = "."%char) = true) (String.list_ascii_of_string n)).
  { apply Forall_forall. intros c [->|(l & Hl & Hcl)]%HTTPSPlan.split_dots_elem; [by rewrite orb_true_r|].
    rewrite forallb_true_iff, Forall_forall in H3. specialize (H3 l Hl). unfold Wire.valid_label in H3. apply andb_true_iff in H3 as [_ H3].
    rewrite forallb_true_iff, Forall_forall in H3. by rewrite (H3 c Hcl). }
  split_and!.
  - revert H1. unfold slen. rewrite <- !list_ascii_length, ResolverSession.ToLower_list, length_map, !orb_false_iff, !negb_false_iff, !bool_decide_eq_true.
    intros [? Hd]. split; [done|]. apply list_elem_of_fmap. by exists "."%char.
  - revert H2. unfold ParseAddr. by rewrite ResolverSession.ToLower_list, parse_addr_lower.
  - rewrite ResolverSession.split_dots_lower. rewrite forallb_true_iff in H3 |- *. apply Forall_fmap. eapply Forall_impl; [exact H3|].
    intros l Hl. cbn. by rewrite ResolverSession.valid_label_lower.
Qed.

Lemma https_new_again b c t p :
  HTTPSPlan.New b c t = Ok p →
  let d := HTTPSPlan.review p in HTTPSPlan.New (HTTPSPlan.dBinding d) (HTTPSPlan.dConfiguration d) (HTTPSPlan.CreatedAt d) = Ok p.
Proof.
  intros (prefixes & member & Hv & Hl & Hc & Ho & Hb & ->)%HTTPSPlan.https_new_iff. cbn zeta.
  apply HTTPSPlan.https_new_iff. exists prefixes, member. cbn [HTTPSPlan.built HTTPSPlan.review HTTPSPlan.dBinding HTTPSPlan.dConfiguration HTTPSPlan.CreatedAt
    HTTPSPlan.bObserver HTTPSPlan.Source HTTPSPlan.Prefixes HTTPSPlan.Endpoint HTTPSPlan.pinned]. split_and!; try done.
  - destruct Hc as [H1 H2 H3 H4 H5 H6 H7]. constructor; try done. by apply validServerName_lower.
  - by apply ResolverSession.validate_sorted in Hb.
  - unfold HTTPSPlan.built, HTTPSPlan.pinned. cbn -[ToLower HTTPSPlan.requestBytes]. by rewrite ResolverSession.ToLower_idem.
Qed.

(** The expiry [Prepare] gives a review. *)
Definition https_expiry (s : Selection) : Time :=
  let expires := HTTPSPlan.ExpiresAt (HTTPSPlan.review (sPlan s)) in
  if Before (RouteFreshUntil s) expires then RouteFreshUntil s else expires.

(** The route of a selection was observed at most a lifetime before its plan. *)
Definition route_ok (s : Selection) : Prop :=
  validTime (RouteObservedAt s) = true ∧ validTime (RouteFreshUntil s) = true ∧
  wall (RouteObservedAt s) <= wall (HTTPSPlan.CreatedAt (HTTPSPlan.review (sPlan s))) ∧
  wall (RouteFreshUntil s) = wall (RouteObservedAt s) + HTTPSPlan.ReviewLifetime.

(** The review that validation rebuilds. *)
Lemma https_reprojected s tk challenge :
  canonical (HTTPSPlan.ExpiresAt (HTTPSPlan.review (sPlan s))) →
  let r := projectHTTPSReview (mkReview (P := httpsPackage) tk s (https_expiry s)) challenge in
  let expires := HTTPSPlan.ExpiresAt (HTTPSPlan.review (sPlan s)) in
  projectHTTPSReview (mkReview (P := httpsPackage) "" (mkSelection (sPlan s) (wRouteObservedAt r) (wRouteFreshUntil r))
    (if Before (wRouteFreshUntil r) expires then wRouteFreshUntil r else expires)) challenge = r.
Proof.
  intros Hc r expires. unfold r, projectHTTPSReview. cbn [review_selection review_expires sPlan RouteObservedAt RouteFreshUntil wRouteObservedAt wRouteFreshUntil].
  f_equal. unfold https_expiry. fold expires. rewrite !Before_wall by auto. cbn [wall UTC Round0 stripMono]. by case_match.
Qed.

Lemma https_review_valid b c created s tk challenge t :
  HTTPSPlan.New b c created = Ok (sPlan s) → route_ok s → well_formed_addr (Wire.ap_addr (HTTPSPlan.Endpoint c)) → well_formed_addr (HTTPSPlan.Source b) →
  ValidHTTPSSelectionID (SelectionID (HTTPSPlan.cSelection c)) = true → validTime t = true → validTime (https_expiry s) = true →
  wall created <= wall t < wall (https_expiry s) → MatchString gatewayChallenge challenge = true →
  validateHTTPSReview (projectHTTPSReview (mkReview (P := httpsPackage) tk s (https_expiry s)) challenge) (SelectionID (HTTPSPlan.cSelection c)) t = true.
Proof.
  intros Hnew (Hro & Hrf & Hrc & Hre) Hwe Hws Hid Hvt Hv Ht Hch. pose proof (https_new_again _ _ _ _ Hnew) as Hagain.
  apply HTTPSPlan.https_new_iff in Hnew as (prefixes & member & Hcr & _ & Hc & _ & Hb & Hp). destruct Hc as [_ _ Hport Hel _ _ _].
  pose proof (https_reprojected s tk challenge) as Hproj. set (r := projectHTTPSReview _ challenge) in *. set (d := HTTPSPlan.review (sPlan s)) in *.
  assert (Hd : HTTPSPlan.Endpoint (HTTPSPlan.dConfiguration d) = HTTPSPlan.Endpoint c ∧ HTTPSPlan.Source (HTTPSPlan.dBinding d) = HTTPSPlan.Source b ∧
    HTTPSPlan.CreatedAt d = UTC created ∧ HTTPSPlan.ExpiresAt d = Add (UTC created) HTTPSPlan.ReviewLifetime) by (unfold d; rewrite Hp; done).
  destruct Hd as (Hd3 & Hd4 & Hd5 & Hd6). rewrite Hd6 in Hproj. specialize (Hproj eq_refl). cbn zeta in Hproj.
  assert (Hr : wSchemaVersion r = 1 ∧ Mode r = "experimental-one-shot" ∧ wProfile r = HTTPSRun.Profile ∧ wSelectionID r = SelectionID (HTTPSPlan.cSelection c) ∧
    Challenge r = challenge ∧ wCreatedAt r = UTC created ∧ wExpiresAt r = UTC (Round0 (https_expiry s)) ∧ wRouteObservedAt r = UTC (Round0 (RouteObservedAt s)) ∧
    wRouteFreshUntil r = UTC (Round0 (RouteFreshUntil s)) ∧ pEndpoint (Settings r) = AddrPortString (HTTPSPlan.Endpoint c) ∧ wSource r = AddrString (HTTPSPlan.Source b))
    by (unfold r, projectHTTPSReview; cbn [review_selection review_expires]; fold d; cbn; rewrite ?Hd3, ?Hd4; unfold d; rewrite Hp; done).
  assert (Hbind : HTTPSPlan.mkBinding (httpsWireObserver r) (Prefixes (wBinding r)) (HTTPSPlan.Source b) = HTTPSPlan.dBinding d)
    by (rewrite <- Hd4; unfold r; rewrite https_wire_observer; cbn; fold d; by destruct (HTTPSPlan.dBinding d)).
  assert (Hconf : HTTPSPlan.mkConfiguration (httpsWireSelection r) (HTTPSPlan.Endpoint c) (pServerName (Settings r)) (pRequestTarget (Settings r))
    (pDestinationPolicy (Settings r)) = HTTPSPlan.dConfiguration d) by (rewrite <- Hd3; unfold r; rewrite https_wire_selection; cbn; fold d; by destruct (HTTPSPlan.dConfiguration d)).
  assert (Hmin : wall (https_expiry s) <= wall created + HTTPSPlan.ReviewLifetime ∧ wall (https_expiry s) <= wall (RouteFreshUntil s)).
  { unfold https_expiry. fold d. rewrite Before_wall, Hd6, wall_Add by (right; rewrite Hd6; auto with cozy). cbn [wall UTC].
    destruct (wall (RouteFreshUntil s) <? _) eqn:E; rewrite ?wall_Add; cbn [wall UTC]; [apply Z.ltb_lt in E|apply Z.ltb_ge in E]; lia. }
  destruct Hr as (E1 & E2 & E3 & E4 & E5 & E6 & E7 & E8 & E9 & E10 & E11). unfold validateHTTPSReview. rewrite E10, E11.
  assert (Hne : Wire.ap_addr (HTTPSPlan.Endpoint c) ≠ AddrNone) by (intros E; by rewrite E in Hel).
  assert (Hsrc : HTTPSPlan.Source b ≠ AddrNone) by (apply Binding.validate_binding in Hb as (? & Hs & _); by destruct (HTTPSPlan.Source b)).
  rewrite ParseAddrPort_String; [|done|done|rewrite Hport; lia]. rewrite ParseAddr_AddrString by done.
  rewrite Hbind, Hconf, E6, <- Hd5, Hagain. fold d. rewrite Hd5, Hd6, E5, Hproj, !bool_decide_eq_true_2 by done.
  rewrite E1, E7, E8, E9, Hid, Hch, !GatewaySession.gatewayTime_eq. cbn [wall UTC Round0 stripMono].
  apply validTime_spec in Hro, Hrf, Hv, Hvt. rewrite Hro, Hrf, Hv, Hvt, Hcr, !After_wall, !Before_wall, Sub_wall, Equal_wall, wall_Add by auto with cozy. cbn [wall UTC Round0 stripMono].
  rewrite Hd5 in Hrc. cbn [wall UTC] in Hrc. apply if_false_iff. split; [|done].
  rewrite !orb_false_iff, !negb_false_iff. split_and!; try done; try (apply Z.ltb_ge || apply Z.ltb_lt || apply Z.eqb_eq; lia).
  apply Z.ltb_ge, saturate_le_iff; unfold HTTPSPlan.ReviewLifetime, min_int64, max_int64, Second in *; lia.
Qed.

(** The wire form of a review, from its creation until it expires, passes the validation of both sides. *)
Theorem https_review_delivered b c created s tk challenge t :
  HTTPSPlan.New b c created = Ok (sPlan s) → route_ok s → well_formed_addr (Wire.ap_addr (HTTPSPlan.Endpoint c)) → well_formed_addr (HTTPSPlan.Source b) →
  ValidHTTPSSelectionID (SelectionID (HTTPSPlan.cSelection c)) = true → validTime t = true → validTime (https_expiry s) = true →
  wall created <= wall t < wall (https_expiry s) → MatchString gatewayChallenge challenge = true →
  validateHTTPSReview (projectHTTPSReview (mkReview (P := httpsPackage) tk s (https_expiry s)) challenge) (SelectionID (HTTPSPlan.cSelection c)) t = true.
Proof. apply https_review_valid. Qed.

(** A confirmed HTTPS result is delivered. *)
Theorem https_result_delivered lower upper i (p : pendingReview (P := httpsPackage)) start challenge :
  canonical (expiresAt p) → wall (HTTPSPlan.CreatedAt (HTTPSPlan.review (sPlan (RunControl.selection p)))) <= lower →
  post lower upper (run_body i p start) (λ x, ∀ r now, x.1 = Some r → upper <= wall now <= lower + MaxWindow → in_int64 (wall now + Second) = true →
    let wire := projectHTTPSReview (mkReview (ticket p) (RunControl.selection p) (expiresAt p)) challenge in
    validateHTTPSResult (projectHTTPSResult wire r x.2) wire now = true).
Proof.
  intros Hc Hl. eapply post_mono; [apply run_body_post|]. intros x Hx r now Hr Hu Hn. eapply https_result_valid; [done|done|apply Hu|done|lia|done|done].
Qed.

(** ** An example *)

Definition home_id : string := "https-selection.0123456789abcdef0123456789abcdef".
Definition home_configuration : HTTPSPlan.Configuration :=
  HTTPSPlan.mkConfiguration (mkHTTPSSelection home_id "endpoint.home" "request.home" FamilyIPv4 "HEAD" 204)
    (Wire.mkAddrPort (V4 3325256724) 443) "Status.example" "/check?mode=1" HTTPSPlan.ExactEndpoint.
Definition home_new := HTTPSPlan.New (HTTPSPlan.home_binding HTTPSPlan.home_prefixes) home_configuration (Quality.clock 100).
Definition home_selection : Selection := mkSelection (HTTPSPlan.plan_of home_new) (Quality.clock 99) (Add (Quality.clock 99) HTTPSPlan.ReviewLifetime).

Example https_home_review_delivered :
  validateHTTPSReview (projectHTTPSReview (mkReview (P := httpsPackage) "ticket" home_selection (https_expiry home_selection)) example_id) home_id (Quality.clock 110) = true.
Proof.
  apply (https_review_delivered (HTTPSPlan.home_binding HTTPSPlan.home_prefixes) home_configuration (Quality.clock 100)).
  - vm_compute. reflexivity.
  - split; [vm_compute; reflexivity|]. split; [vm_compute; reflexivity|]. split; [apply Z.leb_le; vm_compute; reflexivity|vm_compute; reflexivity].
  - split; [discriminate|reflexivity].
  - split; [discriminate|reflexivity].
  - vm_compute. reflexivity.
  - vm_compute. reflexivity.
  - vm_compute. reflexivity.
  - split; [apply Z.leb_le|apply Z.ltb_lt]; vm_compute; reflexivity.
  - vm_compute. reflexivity.
Qed.

End HTTPSSession.
