(* ===== verification/HTTPSTransport.v ===== *)
(** * The HTTPS executor

    [httpsexchange/bounded.go] and [exchange.go], [httpstcp/candidate.go] and
    [measurement.go]: one connection of the reviewed plan, its TLS handshake, one request,
    the header of its response, and the measurement the run control gets.  The clock, the
    context, the route inspector and the socket are effects with arbitrary answers.  TLS is
    the standard library's: during each of its operations it reads and writes the bounded
    connection as it likes, finitely often, and then answers.  [http.ReadResponse] is a
    parameter.  The theorems bound what reaches the network, and show that the run control
    accepts the measurement and that the evidence of an attempted connection is kept. *)

From S2P Require Import Prelude Regex GoTime RunControl Quality ResolverQuality HTTPSQuality HTTPSPlan HTTPSRun Effects.

Module HTTPSTransport.
Import Quality HTTPS HTTPSRun.

(** ** Errors *)

(** The errors of [context], [httpstcp], [httpsexchange] and [httpsroute] that are told
    apart; [OutOfFuel] stands for a response loop without end, which is shown not to exist. *)
Inductive err : Type :=
| ECanceled | EDeadline
| ErrUnsupported | ErrUnavailable | ErrBinding | ErrPermission | ErrBusy
| XUnavailable | XBudget | XTLS | XProtocol | XTransport
| RouteUnsupported | RoutePermission
| OutOfFuel.

#[export] Instance https_err_eq_dec : EqDecision err.
Proof. solve_decision. Defined.

Definition ctx_error (e : ctx_err) : err :=
  match e with Canceled => ECanceled | DeadlineExceeded => EDeadline end.

(** An error value: what [errors.Is] finds in it, whether it is a [net.Error] that timed
    out, and whether it is an end of file or a [net.OpError]. *)
Record raw := mkRaw { is_ : err → bool; times_out : bool; broken : bool }.

(** An error of the list above as a value; [context.DeadlineExceeded] is a timeout. *)
Definition sentinel (e : err) : raw := mkRaw (λ k, k == e) (e == EDeadline) false.

(** [io.ErrNoProgress], [io.ErrShortWrite] *)
Definition io_error : raw := mkRaw (λ _, false) false false.

Definition safeError (e : raw) : err :=
  default ErrUnavailable
    (head (filter (λ k, is_ e k = true)
       [ECanceled; EDeadline; ErrBinding; ErrPermission; ErrUnsupported; ErrBusy; XBudget; XTLS; XProtocol; XTransport; XUnavailable])).

(** ** Effects *)

(** What TLS does with the connection under it. *)
Inductive io : Type := IORead (len : nat) | IOWrite (len : nat).

(** The fields of [tls.ConnectionState] that are looked at. *)
Record ConnectionState := mkConnectionState {
  HandshakeComplete : bool;
  VerifiedChains : Z;
  NegotiatedProtocol : string;
  DidResume : bool;
}.

(** An operation of TLS is two effects: what it does with the connection, and its answer. *)
Inductive effect : Type :=
| Now | Ctx | Acquire | Release
| Inspect (o : Observer) (prefixes : list string) (c : HTTPSPlan.Configuration)
| Open | SetDeadline (t : Time) | Close | ConnRead (len : Z) | ConnWrite (len : Z)
| Handshake | Handshaken | State | ClientWrite (p : string) | Written | ReadByte | ByteRead.

(** [Open] answers whether there is a connection, and the error. *)
Definition answer (e : effect) : Type :=
  match e with
  | Now => Time
  | Ctx => option ctx_err
  | Acquire => bool
  | Release | Close => unit
  | Inspect _ _ _ => result raw Selection
  | Open => bool * option raw
  | SetDeadline _ | Handshaken => option raw
  | ConnRead _ | ConnWrite _ | Written => Z * option raw
  | Handshake | ClientWrite _ | ReadByte => list io
  | State => ConnectionState
  | ByteRead => result raw Z
  end.

Local Notation prog := (@Effects.prog effect answer).
Local Notation "x <~ e ;; k" := (Do e (λ x, k)) (at level 60, e at next level, right associativity).
Local Notation "x <== p ;; k" := (bind p (λ x, k)) (at level 60, p at next level, right associativity).

(** ** The bounded connection *)

Record boundedConn := mkBoundedConn {
  readLeft : Z; writeLeft : Z; readCallsLeft : Z; writeCallsLeft : Z;
  readBytes : Z; writeBytes : Z; readCalls : Z; writeCalls : Z;
}.

Definition read_call (n : Z) (c : boundedConn) : boundedConn :=
  mkBoundedConn (readLeft c - n) (writeLeft c) (readCallsLeft c - 1) (writeCallsLeft c)
    (readBytes c + n) (writeBytes c) (readCalls c + 1) (writeCalls c).
Definition write_call (n : Z) (c : boundedConn) : boundedConn :=
  mkBoundedConn (readLeft c) (writeLeft c - n) (readCallsLeft c) (writeCallsLeft c - 1)
    (readBytes c) (writeBytes c + n) (readCalls c) (writeCalls c + 1).

(** [boundedConn.Read], of a slice of [len] bytes *)
Definition Read (c : boundedConn) (len : Z) : prog (Z * option raw * boundedConn) :=
  if len =? 0 then Ret (0, None, c)
  else if (readLeft c <=? 0) || (readCallsLeft c <=? 0) then Ret (0, Some (sentinel XBudget), c)
  else
    let len := Z.min len (readLeft c) in
    x <~ ConnRead len ;;
    let '(n, e) := (x : Z * option raw) in
    if (n <? 0) || (len <? n) then Ret (0, Some (sentinel XTransport), read_call 0 c)
    else if (n =? 0) && negb (is_some e) then Ret (0, Some io_error, read_call n c)
    else Ret (n, e, read_call n c).

Section Exchange.
(** [http.ReadResponse] of a header in answer to a method: the version and the status. *)
Context (ReadResponse : list Z → string → result raw (Z * Z * Z)).

Section OverConn.
(** The connection below: the state and the [Write] of a [net.Conn]. *)
Context {F : Type} (conn_write : F → Z → prog (Z * option raw * F)).

(** [boundedConn.Write], of [len] bytes *)
Definition Write (c : boundedConn) (f : F) (len : Z) : prog (Z * option raw * (boundedConn * F)) :=
  if len =? 0 then Ret (0, None, (c, f))
  else if (writeLeft c <? len) || (writeCallsLeft c <=? 0) then Ret (0, Some (sentinel XBudget), (c, f))
  else
    x <== conn_write f len ;;
    let '(n, e, f) := (x : Z * option raw * F) in
    if (n <? 0) || (len <? n) then Ret (0, Some (sentinel XTransport), (write_call 0 c, f))
    else Ret (n, (if (n <? len) && negb (is_some e) then Some io_error else e), (write_call n c, f)).

(** What TLS does with the connection in the course of one operation. *)
Fixpoint tls_io (ops : list io) (st : boundedConn * F) : prog (boundedConn * F) :=
  match ops with
  | [] => Ret st
  | IORead len :: ops => x <== Read st.1 (Z.of_nat len) ;; tls_io ops (x.2, st.2)
  | IOWrite len :: ops => x <== Write st.1 st.2 (Z.of_nat len) ;; tls_io ops x.2
  end.

(** ** One exchange *)

Record Result := mkResult {
  xStartedAt : Time; xCompletedAt : Time; ResponseReceivedAt : Time;
  xStage : HTTPSStage; xExchange : HTTPSExchange; xRequest : HTTPSRequestState; xStatusCode : Z;
  TransportReadBytes : Z; TransportWriteBytes : Z; TransportReadCalls : Z; TransportWriteCalls : Z;
  ResponseHeaderBytes : Z;
}.

Definition zeroResult : Result := mkResult zeroTime zeroTime zeroTime "" "" "" 0 0 0 0 0 0.

(** The assignments to the fields of the result. *)
Definition at_stage (s : HTTPSStage) (x : HTTPSExchange) (q : HTTPSRequestState) (r : Result) : Result :=
  mkResult (xStartedAt r) (xCompletedAt r) (ResponseReceivedAt r) s x q (xStatusCode r) (TransportReadBytes r) (TransportWriteBytes r) (TransportReadCalls r) (TransportWriteCalls r) (ResponseHeaderBytes r).
Definition exchanged (x : HTTPSExchange) (r : Result) : Result := at_stage (xStage r) x (xRequest r) r.
Definition between (s c : Time) (r : Result) : Result :=
  mkResult s c (ResponseReceivedAt r) (xStage r) (xExchange r) (xRequest r) (xStatusCode r) (TransportReadBytes r) (TransportWriteBytes r) (TransportReadCalls r) (TransportWriteCalls r) (ResponseHeaderBytes r).
Definition answered (t : Time) (status : Z) (r : Result) : Result :=
  mkResult (xStartedAt r) (xCompletedAt r) t (xStage r) (xExchange r) (xRequest r) status (TransportReadBytes r) (TransportWriteBytes r) (TransportReadCalls r) (TransportWriteCalls r) (ResponseHeaderBytes r).
Definition transported (c : boundedConn) (r : Result) : Result :=
  mkResult (xStartedAt r) (xCompletedAt r) (ResponseReceivedAt r) (xStage r) (xExchange r) (xRequest r) (xStatusCode r) (readBytes c) (writeBytes c) (readCalls c) (writeCalls c) (ResponseHeaderBytes r).
Definition headed (n : Z) (r : Result) : Result :=
  mkResult (xStartedAt r) (xCompletedAt r) (ResponseReceivedAt r) (xStage r) (xExchange r) (xRequest r) (xStatusCode r) (TransportReadBytes r) (TransportWriteBytes r) (TransportReadCalls r) (TransportWriteCalls r) (ResponseHeaderBytes r + n).

Definition out : Type := Result * (boundedConn * F) * option err.

(** The closure [fail]. *)
Definition fail (r : Result) (st : boundedConn * F) (cause : raw) (fallback : err) : prog out :=
  ctx <~ Ctx ;;
  let cause := match ctx with Some e => sentinel (ctx_error e) | None => cause end in
  Ret (if is_ cause ECanceled then (exchanged HTTPSIncomplete r, st, Some ECanceled)
       else if is_ cause EDeadline || times_out cause then (exchanged HTTPSTimeout r, st, Some EDeadline)
       else if is_ cause XBudget then (exchanged HTTPSIncomplete r, st, Some XBudget)
       else
         (exchanged (match fallback with XTLS => HTTPSTLSError | XProtocol => HTTPSProtocolError | _ => HTTPSTransportError end) r,
          st, Some fallback)).

Definition minTime (a b : Time) : Time := if Before a b then a else b.

(** [readHeader]; [remaining] counts the bytes that may still be read. *)
Fixpoint readHeader (remaining : nat) (header : list Z) (st : boundedConn * F) : prog (list Z * option raw * (boundedConn * F)) :=
  match remaining with
  | O => Ret (header, Some (sentinel XBudget), st)
  | S remaining =>
      ops <~ ReadByte ;;
      st <== tls_io ops st ;;
      x <~ ByteRead ;;
      match x with
      | Err e => Ret (header, Some e, st)
      | Ok ch =>
          let header := header ++ [ch] in
          let n := length header in
          if (ch =? 10) && ((n <? 2)%nat || negb (bool_decide (header !! (n - 2)%nat = Some 13))) then Ret (header, Some (sentinel XProtocol), st)
          else if (4 <=? n)%nat && bool_decide (drop (n - 4) header = [13; 10; 13; 10]) then Ret (header, None, st)
          else readHeader remaining header st
      end
  end.

Section Planned.
Context (plan : HTTPSPlan.Plan).
Local Notation d := (HTTPSPlan.review plan).
Local Notation budget := (HTTPSPlan.dBudget d).

(** The loop over informational responses up to the final one. *)
Fixpoint responses (fuel : nat) (deadline : Time) (r : Result) (st : boundedConn * F) : prog out :=
  match fuel with
  | O => Ret (r, st, Some OutOfFuel)
  | S fuel =>
      x <== readHeader (Z.to_nat (HTTPSPlan.MaxResponseHeaderBytes budget - ResponseHeaderBytes r)) [] st ;;
      let '(header, e, st) := (x : list Z * option raw * (boundedConn * F)) in
      let r := headed (llen header) r in
      match e with
      | Some e => fail r st e (if is_ e XProtocol then XProtocol else XTransport)
      | None =>
          receivedAt <~ Now ;;
          match ReadResponse header (SelectionMethod (HTTPSPlan.cSelection (HTTPSPlan.dConfiguration d))) with
          | Err e => fail r st e XProtocol
          | Ok (major, minor, status) =>
              if negb (major =? 1) || negb (minor =? 1) || (status <? 100) || (599 <? status) || (status =? 101) then fail r st (sentinel XProtocol) XProtocol
              else if status <? 200 then responses fuel deadline r st
              else
                ctx <~ Ctx ;;
                match ctx with
                | Some e => fail r st (sentinel (ctx_error e)) XTransport
                | None =>
                    now <~ Now ;;
                    if negb (Before now deadline) then fail r st (sentinel EDeadline) XTransport
                    else Ret (exchanged HTTPSResponseReceived (answered (UTC (Round0 receivedAt)) status r), st, None)
                end
          end
      end
  end.

(** The one request, after the handshake. *)
Definition request_once (deadline : Time) (request : string) (r : Result) (st : boundedConn * F) : prog out :=
  let r := at_stage HTTPSRequest (xExchange r) (xRequest r) r in
  now <~ Now ;;
  set <~ SetDeadline (minTime deadline (Add now (HTTPSPlan.ResponseHeaderTimeout budget))) ;;
  match set with
  | Some e => fail r st e XTransport
  | None =>
      ops <~ ClientWrite request ;;
      st <== tls_io ops st ;;
      x <~ Written ;;
      let '(n, e) := (x : Z * option raw) in
      let r := at_stage (xStage r) (xExchange r) (if n =? slen request then HTTPSRequestAccepted else HTTPSRequestUncertain) r in
      match e with
      | Some e => fail r st e XTransport
      | None =>
          if negb (n =? slen request) then fail r st io_error XTransport
          else responses (S (Z.to_nat (HTTPSPlan.MaxResponseHeaderBytes budget))) deadline r st
      end
  end.

(** The handshake, and what its state has to say. *)
Definition converse (start deadline : Time) (request : string) (r : Result) (st : boundedConn * F) : prog out :=
  set <~ SetDeadline (minTime deadline (Add start (HTTPSPlan.TLSHandshakeTimeout budget))) ;;
  match set with
  | Some e => fail r st e XTransport
  | None =>
      ops <~ Handshake ;;
      st <== tls_io ops st ;;
      shaken <~ Handshaken ;;
      match shaken with
      | Some e => fail r st e (if broken e then XTransport else XTLS)
      | None =>
          state <~ State ;;
          if negb (HandshakeComplete state) || (VerifiedChains state =? 0) || (NegotiatedProtocol state != HTTPSPlan.ALPN (HTTPSPlan.dPolicy d)) || DidResume state
          then fail r st (sentinel XTLS) XTLS
          else
            ctx <~ Ctx ;;
            match ctx with
            | Some e => fail r st (sentinel (ctx_error e)) XTransport
            | None => request_once deadline request r st
            end
      end
  end.

Definition fresh_wire : boundedConn :=
  mkBoundedConn (HTTPSPlan.MaxTransportReadBytes budget) (HTTPSPlan.MaxTransportWriteBytes budget)
    (HTTPSPlan.MaxTransportReadCalls budget) (HTTPSPlan.MaxTransportWriteCalls budget) 0 0 0 0.

(** [exchange]; [parent]: the deadline of the context, if it has one.  The deferred
    functions set the end and the counters of the result. *)
Definition exchange_body (parent : option Time) (f : F) : prog (Result * F * option err) :=
  start <~ Now ;;
  match parent with
  | None => Ret (zeroResult, f, Some XUnavailable)
  | Some parent =>
      if negb (HTTPSPlan.Current plan start) then Ret (zeroResult, f, Some XUnavailable)
      else
        ctx <~ Ctx ;;
        match ctx with
        | Some e => Ret (zeroResult, f, Some (ctx_error e))
        | None =>
            match HTTPSPlan.RequestBytes plan with
            | Err _ => Ret (zeroResult, f, Some XUnavailable)
            | Ok request =>
                let deadline := minTime parent (minTime (Add start (HTTPSPlan.TotalTimeout budget)) (HTTPSPlan.ExpiresAt d)) in
                started <~ Now ;;
                let r := between (UTC (Round0 started)) zeroTime (at_stage HTTPSTLS HTTPSIncomplete HTTPSRequestNotSent zeroResult) in
                x <== converse start deadline request r (fresh_wire, f) ;;
                let '(r, (wire, f), e) := (x : out) in
                completed <~ Now ;;
                Ret (transported wire (between (xStartedAt r) (UTC (Round0 completed)) r), f, e)
            end
        end
  end.

(** The deferred close of the connection is that of every path. *)
Definition exchange (present : bool) (parent : option Time) (f : F) : prog (Result * F * option err) :=
  if negb present then Ret (zeroResult, f, Some XUnavailable)
  else x <== exchange_body parent f ;; u <~ Close ;; Ret x.

End Planned.
End OverConn.

(** ** The candidate *)

Section Candidate.
Context (s : Selection).
Local Notation d := (HTTPSPlan.review (sPlan s)).
Local Notation budget := (HTTPSPlan.dBudget d).

(** The conditions of [verifyRoute] on a fresh inspection between two readings. *)
Definition route_changed (fresh : Selection) (start now : Time) : bool :=
  negb (HTTPSPlan.SameSelection (sPlan s) (sPlan fresh)) || negb (HTTPSPlan.Current (sPlan fresh) now) ||
  Before (RouteObservedAt fresh) start || After (RouteObservedAt fresh) now ||
  negb (Equal (RouteFreshUntil fresh) (Add (RouteObservedAt fresh) HTTPSPlan.ReviewLifetime)) ||
  negb (Before now (RouteFreshUntil fresh)) || negb (Before now (RouteFreshUntil s)) || negb (HTTPSPlan.Current (sPlan s) now).

Definition verifyRoute : prog (option raw) :=
  ctx <~ Ctx ;;
  match ctx with
  | Some e => Ret (Some (sentinel (ctx_error e)))
  | None =>
      start <~ Now ;;
      fresh <~ Inspect (HTTPSPlan.bObserver (HTTPSPlan.dBinding d)) (HTTPSPlan.Prefixes (HTTPSPlan.dBinding d)) (HTTPSPlan.dConfiguration d) ;;
      match fresh with
      | Err e =>
          Ret (Some (if is_ e RouteUnsupported then sentinel ErrUnsupported
                     else if is_ e RoutePermission then sentinel ErrPermission
                     else if is_ e ECanceled || is_ e EDeadline then e
                     else sentinel ErrBinding))
      | Ok fresh =>
          now <~ Now ;;
          if route_changed fresh start now then Ret (Some (sentinel ErrBinding))
          else ctx <~ Ctx ;; Ret (option_map (λ e, sentinel (ctx_error e)) ctx)
      end
  end.

(** [routeConn.Write]; [failure] is the field of the connection. *)
Definition route_write (failure : option raw) (len : Z) : prog (Z * option raw * option raw) :=
  match failure with
  | Some e => Ret (0, Some e, failure)
  | None =>
      v <== verifyRoute ;;
      match v with
      | Some e => Ret (0, Some e, Some e)
      | None =>
          x <~ ConnWrite len ;;
          let '(n, e) := (x : Z * option raw) in
          Ret (n, e, match e with Some e' => if is_ e' ErrBinding || is_ e' ErrPermission then e else None | None => None end)
      end
  end.

(** A connection that could not be opened. *)
Definition not_opened (r : Result) (e : err) : Result * option err :=
  let r := exchanged (if (e == ECanceled) || (e == ErrBinding) || (e == ErrUnsupported) || (e == ErrPermission) then HTTPSIncomplete else HTTPSConnectError) r in
  if (e == EDeadline) || times_out (sentinel e) then (exchanged HTTPSTimeout r, Some EDeadline) else (r, Some e).

(** On an open connection, to its deferred close. *)
Definition connected (deadline : Time) (r : Result) : prog (Result * option err) :=
  v <== verifyRoute ;;
  x <== match v with
        | Some e => Ret (r, Some (safeError e))
        | None =>
            x <== exchange route_write (sPlan s) true (Some deadline) None ;;
            let '(r, failure, e) := (x : Result * option raw * option err) in
            let r := if xStage r == "" then at_stage HTTPSTLS HTTPSIncomplete HTTPSRequestNotSent r else r in
            match failure with
            | Some f => Ret (answered (ResponseReceivedAt r) 0 (exchanged HTTPSIncomplete r), Some (safeError f))
            | None =>
                match e with
                | Some e => Ret (r, Some (safeError (sentinel e)))
                | None =>
                    v <== verifyRoute ;;
                    Ret (match v with
                         | Some e => (answered (ResponseReceivedAt r) 0 (exchanged HTTPSIncomplete r), Some (safeError e))
                         | None => (r, None)
                         end)
                end
            end
        end ;;
  u <~ Close ;;
  Ret (x : Result * option err).

(** The attempt to connect and what follows, to the deferred times of the result. *)
Definition attempt (deadline : Time) : prog (Result * option err) :=
  connectStarted <~ Now ;;
  let r := at_stage HTTPSConnect HTTPSIncomplete HTTPSRequestNotSent zeroResult in
  opened <~ Open ;;
  x <== match opened : bool * option raw with
        | (true, Some e) => u <~ Close ;; Ret (not_opened r (safeError e))
        | (false, Some e) => Ret (not_opened r (safeError e))
        | (false, None) => Ret (r, Some ErrUnavailable)
        | (true, None) => connected deadline r
        end ;;
  now <~ Now ;;
  let r := between (UTC (Round0 connectStarted)) (UTC (Round0 now)) x.1 in
  Ret (if xExchange r != HTTPSResponseReceived then answered zeroTime (xStatusCode r) r else r, x.2).

Definition unusable (start : Time) : bool :=
  negb (HTTPSPlan.Current (sPlan s) start) || IsZero (RouteObservedAt s) || After (RouteObservedAt s) (HTTPSPlan.CreatedAt d) ||
  negb (Equal (RouteFreshUntil s) (Add (RouteObservedAt s) HTTPSPlan.ReviewLifetime)) || negb (Before start (RouteFreshUntil s)).

(** The deadline of the whole attempt, [parent] being that of the caller. *)
Definition attempt_deadline (parent start : Time) : Time :=
  let deadline := Add start (HTTPSPlan.TotalTimeout budget) in
  let deadline := if Before (HTTPSPlan.ExpiresAt d) deadline then HTTPSPlan.ExpiresAt d else deadline in
  let deadline := if Before (RouteFreshUntil s) deadline then RouteFreshUntil s else deadline in
  minTime parent deadline.

(** [Candidate.Execute]; [present]: whether the candidate is complete. *)
Definition Execute (present : bool) (parent : option Time) : prog (Result * option err) :=
  if negb present then Ret (zeroResult, Some ErrUnavailable)
  else
    ctx <~ Ctx ;;
    match ctx with
    | Some e => Ret (zeroResult, Some (ctx_error e))
    | None =>
        match parent with
        | None => Ret (zeroResult, Some ErrBinding)
        | Some parent =>
            free <~ Acquire ;;
            if negb free then Ret (zeroResult, Some ErrBusy)
            else
              start <~ Now ;;
              x <== (if unusable start then Ret (zeroResult, Some ErrBinding)
                     else
                       v <== verifyRoute ;;
                       match v with
                       | Some e => Ret (zeroResult, Some (safeError e))
                       | None => attempt (attempt_deadline parent start)
                       end) ;;
              u <~ Release ;;
              Ret (x : Result * option err)
        end
    end.

End Candidate.

(** ** The measurement *)

Definition measurementID : regex := hex_regex 32.

Definition measurement_of (id : string) (s : Selection) (r : Result) (latency : option Duration) : HTTPSMeasurement :=
  let d := HTTPSPlan.review (sPlan s) in
  mkHTTPSMeasurement id (HTTPSPlan.cSelection (HTTPSPlan.dConfiguration d)) (HTTPSPlan.bObserver (HTTPSPlan.dBinding d))
    (xStartedAt r) (xCompletedAt r) (xStage r) (xExchange r) (xRequest r) GapNone (xStatusCode r) latency.

(** From the result of an exchange to normalized evidence. *)
Definition normalized (id : string) (s : Selection) (r : Result) (e : option err) : HTTPSMeasurement * option err :=
  if xStage r == "" then (zeroMeasurement, e)
  else
    let received := xExchange r == HTTPSResponseReceived in
    if received && (is_some e || IsZero (ResponseReceivedAt r) || Before (ResponseReceivedAt r) (xStartedAt r) || After (ResponseReceivedAt r) (xCompletedAt r))
    then (zeroMeasurement, Some ErrUnavailable)
    else
      let m := measurement_of id s r (if received then Some (Sub (ResponseReceivedAt r) (xStartedAt r)) else None) in
      if negb (is_ok (ValidateHTTPSSnapshot (mkHTTPSSnapshot (MeasuredBy m) (CompletedAt m) (StartedAt m) Second [HTTPS.Selection m] [m])))
      then (zeroMeasurement, Some ErrUnavailable)
      else (m, e).

Definition ExecuteHTTPS (present : bool) (parent : option Time) (id : string) (s : Selection) : prog (HTTPSMeasurement * option err) :=
  if negb (MatchString measurementID id) then Ret (zeroMeasurement, Some ErrBinding)
  else
    x <== Execute s present parent ;;
    Ret (normalized id s x.1 x.2).

End Exchange.

(** ** Runs *)

(** What a run did: connections opened; for each write to the connection the route that
    was inspected since the write before; reads and bytes; the TLS state seen last; and each
    request with the state by then. *)
Record ledger := mkLedger {
  opened : Z;
  writes : list (option Selection);
  reads : Z;
  bytes_read : Z;
  bytes_written : Z;
  tls : option ConnectionState;
  requests : list (string * option ConnectionState);
}.
Record ghost := mkGhost { last : Z; looked : option Selection; book : ledger }.
Definition ghost0 (last : Z) : ghost := mkGhost last None (mkLedger 0 [] 0 0 0 None []).

Definition within (len n : Z) : Z := if (n <? 0) || (len <? n) then 0 else n.

Definition recalled (b : ledger) (looked : option Selection) (e : effect) : answer e → ledger :=
  match e return answer e → ledger with
  | Open => λ _, mkLedger (opened b + 1) (writes b) (reads b) (bytes_read b) (bytes_written b) (tls b) (requests b)
  | ConnRead len => λ a, mkLedger (opened b) (writes b) (reads b + 1) (bytes_read b + within len a.1) (bytes_written b) (tls b) (requests b)
  | ConnWrite len => λ a, mkLedger (opened b) (writes b ++ [looked]) (reads b) (bytes_read b) (bytes_written b + within len a.1) (tls b) (requests b)
  | State => λ a, mkLedger (opened b) (writes b) (reads b) (bytes_read b) (bytes_written b) (Some a) (requests b)
  | ClientWrite p => λ _, mkLedger (opened b) (writes b) (reads b) (bytes_read b) (bytes_written b) (tls b) (requests b ++ [(p, tls b)])
  | _ => λ _, b
  end.

#[export] Instance recall : Remembers answer ghost := λ g e a,
  mkGhost (match e return answer e → Z with Now => λ t, wall t | _ => λ _, last g end a)
    (match e return answer e → option Selection with
     | Inspect _ _ _ => λ f, match f with Ok f => Some f | Err _ => None end
     | ConnWrite _ => λ _, None
     | _ => λ _, looked g
     end a)
    (recalled (book g) (looked g) e a).

Section Spec.
(** When [aligned] holds, the clock is steady and moves from reading to reading, up to an instant. *)
Context (aligned : Prop) (boot upper : Z).

Definition timely (g : ghost) (t : Time) : Prop := aligned → steady boot t ∧ last g < wall t <= upper.

Definition env (g : ghost) (e : effect) : answer e → Prop :=
  match e with Now => λ t, timely g t | _ => λ _, True end.

Context (ReadResponse : list Z → string → result raw (Z * Z * Z)).
Context (s : Selection) (request_size : Z).
Local Notation d := (HTTPSPlan.review (sPlan s)).
Hypothesis budget_fixed : HTTPSPlan.dBudget d = HTTPSPlan.planBudget request_size.

Definition after (g g' : ghost) : Prop := aligned → last g <= last g'.
(** A step that only looks. *)
Definition calm (g g' : ghost) : Prop := book g' = book g ∧ after g g'.

Definition agrees (f : Selection) : Prop := HTTPSPlan.SameSelection (sPlan s) (sPlan f) = true.
(** A write after an inspection that agrees with the reviewed plan. *)
Definition routed (w : option Selection) : Prop := ∃ f, w = Some f ∧ agrees f.

(** The clock has not gone back. *)
Ltac later :=
  let Ha := fresh in intros Ha;
  repeat match goal with H : timely _ _ |- _ => specialize (H Ha) | H : after _ _ |- _ => specialize (H Ha) | H : aligned → _ |- _ => specialize (H Ha) end;
  simpl in *; lia.

Lemma after_trans g g' g'' : after g g' → after g' g'' → after g g''.
Proof. intros H H'. later. Qed.

Lemma verifyRoute_wp g (Q : ghost → option raw → Prop) :
  (∀ g' v, calm g g' → (v = None → routed (looked g')) → Q g' v) → wp env (verifyRoute s) g Q.
Proof.
  intros H. unfold verifyRoute. cbn [wp env]. intros [e|] _; cbn [wp env]; [apply H; [split; [done|later]|done]|].
  intros start Hs [f|e] _; cbn [wp env]; [|apply H; [split; [done|later]|done]].
  intros now Hn. destruct (route_changed s f start now) eqn:E; cbn [wp env]; [apply H; [split; [done|later]|done]|].
  intros ctx _. apply H; [split; [done|later]|]. intros _. exists f. split; [done|].
  unfold route_changed in E. rewrite !orb_false_iff, !negb_false_iff in E. by apply E.
Qed.

(** The ledger and the counters of the bounded connection agree, within the budget. *)
Record tight (b : ledger) (c : boundedConn) : Prop := {
  ti_reads : reads b = readCalls c;
  ti_writes : llen (writes b) <= writeCalls c;
  ti_read : bytes_read b = readBytes c;
  ti_written : bytes_written b = writeBytes c;
  ti_read_calls : readCalls c + readCallsLeft c = 512 ∧ 0 <= readCallsLeft c;
  ti_write_calls : writeCalls c + writeCallsLeft c = 64 ∧ 0 <= writeCallsLeft c;
  ti_read_bytes : readBytes c + readLeft c = 131072 ∧ 0 <= readLeft c;
  ti_write_bytes : writeBytes c + writeLeft c = 32768 ∧ 0 <= writeLeft c;
  ti_routed : Forall routed (writes b);
}.

(** Work on the connection leaves the rest of the ledger alone. *)
Definition frame (b b' : ledger) : Prop := opened b' = opened b ∧ tls b' = tls b ∧ requests b' = requests b.

Definition worked (g : ghost) (c : boundedConn) (g' : ghost) : Prop := tight (book g') c ∧ frame (book g) (book g') ∧ after g g'.

Lemma worked_refl g c : tight (book g) c → worked g c g.
Proof. intros H. split_and!; [done|done|later]. Qed.
Lemma worked_trans g c g' c' g'' : worked g c g' → worked g' c' g'' → worked g c' g''.
Proof. unfold worked, frame. intros (_ & (-> & -> & ->) & H) (Ht & (-> & -> & ->) & H'). split_and!; try done. later. Qed.

Lemma Read_wp g c len (Q : ghost → Z * option raw * boundedConn → Prop) :
  tight (book g) c → (∀ g' n e c', worked g c' g' → Q g' (n, e, c')) → wp env (Read c (Z.of_nat len)) g Q.
Proof.
  intros Ht H. pose proof (worked_refl g c Ht) as Hs. unfold Read. destruct (_ =? 0); cbn [wp]; [by apply H|].
  destruct (_ || _) eqn:E; cbn [wp]; [by apply H|]. rewrite orb_false_iff, !Z.leb_gt in E. intros [n e] _. set (g1 := gstep _ _ _).
  assert (Hw : worked g (read_call (within (Z.min (Z.of_nat len) (readLeft c)) n) c) g1).
  { destruct Ht as [H1 H2 H3 H4 H5 H6 H7 H8 H9]. split; [|split; [done|later]].
    constructor; simpl; try done; try lia; unfold within; case_match eqn:Ew; try lia; rewrite orb_false_iff, !Z.ltb_ge in Ew; lia. }
  unfold within in Hw. destruct (_ || _); cbn [wp]; [by apply H|]. case_match; cbn [wp]; by apply H.
Qed.

Lemma route_write_wp g f len (Q : ghost → Z * option raw * option raw → Prop) :
  (∀ g' e f', calm g g' → Q g' (0, e, f')) →
  (∀ g' a w f', calm g g' → routed w → Q (gstep (mkGhost (last g') w (book g')) (ConnWrite len) a) (a.1, a.2, f')) →
  wp env (route_write s f len) g Q.
Proof.
  intros Hno Hyes. unfold route_write. destruct f as [f|]; cbn [wp]; [apply Hno; split; [done|later]|].
  apply wp_bind, verifyRoute_wp. intros g' [e|] Hc Hr; cbn [wp env]; [by apply Hno|]. specialize (Hr eq_refl).
  intros [n e] _. destruct g' as [l w b]. by apply (Hyes (mkGhost l w b) (n, e)).
Qed.

Lemma Write_wp g c f len (Q : ghost → Z * option raw * (boundedConn * option raw) → Prop) :
  tight (book g) c → (∀ g' n e c' f', worked g c' g' → Q g' (n, e, (c', f'))) → wp env (Write (route_write s) c f (Z.of_nat len)) g Q.
Proof.
  intros Ht H. pose proof (worked_refl g c Ht) as Hs. unfold Write. destruct (_ =? 0); cbn [wp]; [by apply H|].
  destruct (_ || _) eqn:E; cbn [wp]; [by apply H|]. rewrite orb_false_iff, Z.ltb_ge, Z.leb_gt in E.
  destruct Ht as [H1 H2 H3 H4 H5 H6 H7 H8 H9]. apply wp_bind, route_write_wp.
  - intros g' e f' [Hb Ha]. rewrite (proj2 (Z.ltb_ge (Z.of_nat len) 0)) by lia. cbn [wp Z.ltb Z.compare orb].
    apply H. split; [|split; [by rewrite Hb|done]]. rewrite Hb. constructor; simpl; try done; lia.
  - intros g' [n e] w f' [Hb Ha] Hw. cbn [fst snd]. set (g1 := gstep _ _ _).
    assert (Hk : worked g (write_call (within (Z.of_nat len) n) c) g1).
    { split; [|split; [unfold g1; simpl; by rewrite Hb|later]]. unfold g1. cbn [gstep recall recalled book looked]. rewrite Hb.
      constructor; simpl; try done; try lia; [unfold llen in *; rewrite length_app; simpl; lia| |apply Forall_app_2; [done|by apply Forall_singleton]].
      unfold within. case_match eqn:Ew; [lia|]. rewrite orb_false_iff, !Z.ltb_ge in Ew. lia. }
    unfold within in Hk. destruct (_ || _); cbn [wp]; by apply H.
Qed.

Lemma tls_io_wp ops g st (Q : ghost → boundedConn * option raw → Prop) :
  tight (book g) st.1 → (∀ g' st', worked g st'.1 g' → Q g' st') → wp env (tls_io (route_write s) ops st) g Q.
Proof.
  revert g st. induction ops as [|[len|len] ops IH]; intros g [c f] Ht H; cbn [tls_io wp].
  - apply H. by apply worked_refl.
  - apply wp_bind, Read_wp; [done|]. intros g' n e c' Hw. apply IH; [apply Hw|]. intros g'' st' Hw'. apply H. by eapply worked_trans.
  - apply wp_bind, Write_wp; [done|]. intros g' n e c' f' Hw. apply IH; [apply Hw|]. intros g'' st' Hw'. apply H. by eapply worked_trans.
Qed.

(** *** One exchange *)

(** The state of the connection that carries the request. *)
Definition identified (st : ConnectionState) : Prop :=
  HandshakeComplete st = true ∧ VerifiedChains st ≠ 0 ∧ NegotiatedProtocol st = HTTPSPlan.ALPN (HTTPSPlan.dPolicy d) ∧ DidResume st = false.

Definition request_bytes : string := HTTPSPlan.requestBytes (HTTPSPlan.dConfiguration d).

(** What was requested, and what is said of it. *)
Inductive told (b : ledger) : HTTPSRequestState → Prop :=
| told_nothing : requests b = [] → told b HTTPSRequestNotSent
| told_sent st q : requests b = [(request_bytes, Some st)] → identified st → q = HTTPSRequestAccepted ∨ q = HTTPSRequestUncertain → told b q.

(** What may be reported of an exchange without a response. *)
Definition failure (r : Result) : Prop :=
  xStage r = HTTPSConnect ∧ xRequest r = HTTPSRequestNotSent ∧ xExchange r ∈ [HTTPSIncomplete; HTTPSConnectError; HTTPSTimeout] ∨
  xStage r = HTTPSTLS ∧ xRequest r = HTTPSRequestNotSent ∧ xExchange r ∈ [HTTPSIncomplete; HTTPSTLSError; HTTPSTransportError; HTTPSTimeout] ∨
  xStage r = HTTPSRequest ∧ (xExchange r ∈ [HTTPSIncomplete; HTTPSTransportError; HTTPSTimeout] ∨ xExchange r = HTTPSProtocolError ∧ xRequest r = HTTPSRequestAccepted).

(** How an exchange that began after [t0] ends. *)
Inductive ended (t0 : Z) (g : ghost) : Result → option err → Prop :=
| ended_failed r e : failure r → told (book g) (xRequest r) → xStatusCode r = 0 → e ≠ OutOfFuel → ended t0 g r (Some e)
| ended_answered r t :
    xStage r = HTTPSRequest → xExchange r = HTTPSResponseReceived → xRequest r = HTTPSRequestAccepted → told (book g) HTTPSRequestAccepted →
    200 <= xStatusCode r <= 599 → ResponseReceivedAt r = UTC (Round0 t) → (aligned → t0 < wall t <= last g) → ended t0 g r None.

(** The failures that [fail] makes of a result. *)
Definition fails (r : Result) (fallback : err) : Prop :=
  ∀ x, x = HTTPSIncomplete ∨ x = HTTPSTimeout ∨ x = match fallback with XTLS => HTTPSTLSError | XProtocol => HTTPSProtocolError | _ => HTTPSTransportError end →
    failure (exchanged x r).

Definition answers (t0 : Z) (g : ghost) (g' : ghost) (x : Result * (boundedConn * option raw) * option err) : Prop :=
  let '(r, st, e) := x in tight (book g') st.1 ∧ opened (book g') = opened (book g) ∧ after g g' ∧ ended t0 g' r e.

Lemma fail_wp t0 g0 g r st cause fallback :
  fails r fallback → told (book g) (xRequest r) → xStatusCode r = 0 → fallback ≠ OutOfFuel →
  tight (book g) st.1 → opened (book g) = opened (book g0) → after g0 g →
  wp env (fail r st cause fallback) g (answers t0 g0).
Proof.
  intros Hf Ht Hs Hne Hti Ho Ha. unfold fail. cbn [wp env]. intros ctx _. set (g1 := gstep _ _ _).
  assert (Hd : ∀ x e, failure (exchanged x r) → e ≠ OutOfFuel → answers t0 g0 g1 (exchanged x r, st, Some e)).
  { intros x e Hx He. split_and!; [done|done|done|by apply ended_failed]. }
  repeat case_match; apply Hd; try done; apply Hf; auto.
Qed.

Lemma readHeader_wp remaining header g st (Q : ghost → list Z * option raw * (boundedConn * option raw) → Prop) :
  tight (book g) st.1 →
  (∀ g' header' e st', worked g st'.1 g' → (e = None → (length header < length header')%nat) → (length header ≤ length header')%nat → Q g' (header', e, st')) →
  wp env (readHeader (route_write s) remaining header st) g Q.
Proof.
  revert header g st. induction remaining as [|n IH]; intros header g st Ht H; cbn [readHeader wp env].
  { apply H; [by apply worked_refl|done|lia]. }
  intros ops _. apply wp_bind, tls_io_wp; [done|]. intros g1 st1 Hw. cbn [wp env]. intros [ch|e] _; cbn [wp].
  2: { apply H; [|done|lia]. eapply worked_trans; [|by apply worked_refl, Hw]. done. }
  set (g2 := gstep _ _ _). assert (Hw2 : worked g st1.1 g2) by done. pose proof (length_app header [ch]) as Hl. simpl in Hl.
  case_match; [by apply H; [|lia..]|]. case_match; [by apply H; [|lia..]|]. apply IH; [apply Hw2|].
  intros g' h' e st' Hw' Hlt Hle. apply H; [by eapply worked_trans|lia..].
Qed.

(** A request that was accepted and is not yet answered. *)
Definition awaiting (r : Result) : Prop := xStage r = HTTPSRequest ∧ xRequest r = HTTPSRequestAccepted ∧ xStatusCode r = 0.

Lemma awaiting_fails r e : awaiting r → e = XTransport ∨ e = XProtocol → fails r e.
Proof.
  intros (Hs & Hq & _) He x Hx. right. right. split; [done|]. destruct He as [->| ->], Hx as [->|[->| ->]]; simpl; (by left; set_solver) || by right.
Qed.

Lemma frame_told g c g' q : worked g c g' → told (book g) q → told (book g') q.
Proof. intros (_ & (_ & _ & Hr) & _). destruct 1 as [H|st q H Hi Hq]; [constructor|econstructor; [|done..]]; by rewrite Hr. Qed.

Lemma responses_wp t0 g0 fuel deadline r st g :
  awaiting r → (Z.to_nat (16384 - ResponseHeaderBytes r) < fuel)%nat → told (book g) HTTPSRequestAccepted →
  tight (book g) st.1 → opened (book g) = opened (book g0) → after g0 g → (aligned → t0 <= last g) →
  wp env (responses ReadResponse (route_write s) (sPlan s) fuel deadline r st) g (answers t0 g0).
Proof.
  revert r st g. induction fuel as [|fuel IH]; intros r st g Hr Hf Ht Hti Ho Ha H0; [lia|]. cbn [responses].
  rewrite budget_fixed. cbn [HTTPSPlan.planBudget HTTPSPlan.MaxResponseHeaderBytes].
  destruct (decide (0 < 16384 - ResponseHeaderBytes r)) as [Hpos|Hz].
  2: { replace (Z.to_nat (16384 - ResponseHeaderBytes r)) with 0%nat by lia. cbn [readHeader bind]. pose proof Hr as (_ & Hq & Hs).
       apply fail_wp; try done; [by apply awaiting_fails; [|left]|by simpl; rewrite Hq]. }
  apply wp_bind, readHeader_wp; [done|]. intros g1 header e st1 Hw Hlen _. set (r1 := headed _ _).
  assert (Hr1 : awaiting r1) by done. pose proof Hr1 as (_ & Hq & Hs).
  pose proof (frame_told _ _ _ _ Hw Ht) as Ht1. destruct Hw as (Hti1 & (Ho1 & _) & Ha1).
  assert (Hfail : ∀ g2 cause fallback, calm g1 g2 → fallback = XTransport ∨ fallback = XProtocol →
    wp env (fail r1 st1 cause fallback) g2 (answers t0 g0)).
  { intros g2 cause fallback [Hb Hl] Hfb. apply fail_wp; rewrite ?Hb, ?Hq; try done; [by apply awaiting_fails|by destruct Hfb as [->| ->]|congruence|].
    eapply after_trans; [|exact Hl]. by eapply after_trans. }
  destruct e as [e|]; cbn [wp env]; [apply Hfail; [split; [done|later]|case_match; auto]|].
  specialize (Hlen eq_refl). simpl in Hlen. intros at_ Hat. destruct (ReadResponse _ _) as [[[major minor] status]|e]; [|by apply Hfail; [split; [done|later]|right]].
  destruct (_ || _) eqn:Est; [by apply Hfail; [split; [done|later]|right]|]. rewrite !orb_false_iff, !Z.ltb_ge in Est.
  destruct (Z.ltb_spec status 200) as [Hlow|Hhigh].
  { apply IH; try done; [unfold r1, headed, llen in *; simpl; lia|by simpl; rewrite Ho1| |].
    - intros Haa. specialize (Ha Haa). specialize (Ha1 Haa). destruct (Hat Haa). simpl. lia.
    - intros Haa. specialize (H0 Haa). specialize (Ha1 Haa). destruct (Hat Haa). simpl. lia. }
  cbn [wp env]. intros [e|] _; [by apply Hfail; [split; [done|later]|left]|]. cbn [wp env]. intros now Hnow.
  destruct (Before now deadline); cbn [negb wp]; [|by apply Hfail; [split; [done|later]|left]].
  split_and!; [done|by simpl; rewrite Ho1| |].
  - intros Haa. specialize (Ha Haa). specialize (Ha1 Haa). destruct (Hat Haa), (Hnow Haa). simpl in *. lia.
  - eapply (ended_answered _ _ _ at_); try done; [apply Hr1|simpl; lia|]. intros Haa. specialize (H0 Haa). specialize (Ha1 Haa). destruct (Hat Haa), (Hnow Haa). simpl in *. lia.
Qed.

(** Nothing was requested yet, in a stage before the response. *)
Definition unsent (stage : HTTPSStage) (r : Result) : Prop := xStage r = stage ∧ xRequest r = HTTPSRequestNotSent ∧ xStatusCode r = 0.

Lemma request_once_wp t0 g0 deadline r st g :
  unsent HTTPSTLS r → ResponseHeaderBytes r = 0 → requests (book g) = [] → (∃ state, tls (book g) = Some state ∧ identified state) →
  tight (book g) st.1 → opened (book g) = opened (book g0) → after g0 g → (aligned → t0 <= last g) →
  wp env (request_once ReadResponse (route_write s) (sPlan s) deadline request_bytes r st) g (answers t0 g0).
Proof.
  intros (Hst & Hq & Hs) Hh Hreq (state & Htls & Hid) Hti Ho Ha H0. unfold request_once. cbn [wp env]. intros now Hnow [e|] _.
  { apply fail_wp; try done; [|simpl; rewrite Hq; by constructor|]; [|eapply after_trans; [exact Ha|later]].
    intros x Hx. right. right. split; [done|]. left. destruct Hx as [->|[->| ->]]; set_solver. }
  cbn [wp env]. intros ops _. set (g1 := gstep _ _ _).
  assert (Hti1 : tight (book g1) st.1) by by destruct Hti.
  assert (Ht1 : ∀ q, q = HTTPSRequestAccepted ∨ q = HTTPSRequestUncertain → told (book g1) q).
  { intros q. apply told_sent with state; [|done]. unfold g1. simpl. by rewrite Hreq, Htls. }
  assert (Ha1 : after g g1) by later.
  apply wp_bind, tls_io_wp; [done|]. intros g2 st2 Hw. cbn [wp env]. intros [n e] _.
  set (q := if n =? _ then HTTPSRequestAccepted else _). assert (Hqq : q = HTTPSRequestAccepted ∨ q = HTTPSRequestUncertain) by (unfold q; case_match; auto).
  pose proof (frame_told _ _ _ q Hw (Ht1 q Hqq)) as Ht2. destruct Hw as (Hti2 & (Ho2 & _) & Ha2).
  assert (Hg : after g0 g2) by (eapply after_trans; [exact Ha|]; by eapply after_trans).
  assert (Hfail : ∀ g3 cause, calm g2 g3 → wp env (fail (at_stage HTTPSRequest (xExchange r) q r) st2 cause XTransport) g3 (answers t0 g0)).
  { intros g3 cause [Hb Hl]. apply fail_wp; rewrite ?Hb; try done; [|by rewrite Ho2|by eapply after_trans].
    intros x Hx. right. right. split; [done|]. left. destruct Hx as [->|[->| ->]]; set_solver. }
  destruct e as [e|]; [apply Hfail; split; [done|later]|]. destruct (n =? slen request_bytes) eqn:En; cbn [negb]; [|apply Hfail; split; [done|later]].
  unfold q in *. rewrite budget_fixed. cbn [HTTPSPlan.planBudget HTTPSPlan.MaxResponseHeaderBytes].
  apply responses_wp; try done; [simpl; rewrite Hh; lia|by simpl; rewrite Ho2|]. intros Haa. specialize (H0 Haa). specialize (Ha1 Haa). specialize (Ha2 Haa). simpl. lia.
Qed.

Lemma converse_wp t0 g0 start deadline r st g :
  unsent HTTPSTLS r → ResponseHeaderBytes r = 0 → requests (book g) = [] →
  tight (book g) st.1 → opened (book g) = opened (book g0) → after g0 g → (aligned → t0 <= last g) →
  wp env (converse ReadResponse (route_write s) (sPlan s) start deadline request_bytes r st) g (answers t0 g0).
Proof.
  intros Hu Hh Hreq Hti Ho Ha H0. pose proof Hu as (Hst & Hq & Hs).
  assert (Hshape : ∀ fallback, fallback = XTLS ∨ fallback = XTransport → fails r fallback).
  { intros fallback Hfb x Hx. right. left. split; [done|]. split; [done|]. destruct Hfb as [->| ->], Hx as [->|[->| ->]]; set_solver. }
  assert (Hfail : ∀ g1 st1 cause fallback, tight (book g1) st1.1 → frame (book g) (book g1) → after g g1 → fallback = XTLS ∨ fallback = XTransport →
    wp env (fail r st1 cause fallback) g1 (answers t0 g0)).
  { intros g1 st1 cause fallback Ht1 (Ho1 & _ & Hr1) Ha1 Hfb. apply fail_wp; try done; [by apply Hshape|rewrite Hq; constructor; congruence|by destruct Hfb as [->| ->]|congruence|by eapply after_trans]. }
  unfold converse. cbn [wp env]. intros [e|] _; [apply Hfail; [done|done|later|by right]|]. cbn [wp env]. intros ops _.
  apply wp_bind, tls_io_wp; [done|]. intros g2 st2 (Ht2 & (Ho2 & Htl2 & Hr2) & Ha2). simpl in Ho2, Htl2, Hr2. cbn [wp env]. intros [e|] _.
  { apply Hfail; [done|done| |case_match; auto]. later. }
  cbn [wp env]. intros state _. set (g3 := gstep _ State state).
  assert (Ht3 : tight (book g3) st2.1) by by destruct Ht2. assert (Ha3 : after g g3) by later.
  assert (Hfail3 : ∀ g4 cause fallback, calm g3 g4 → fallback = XTLS ∨ fallback = XTransport → wp env (fail r st2 cause fallback) g4 (answers t0 g0)).
  { intros g4 cause fallback [Hb Hl] Hfb. apply fail_wp; rewrite ?Hb; try done; [by apply Hshape|rewrite Hq; apply told_nothing; simpl; congruence|by destruct Hfb as [->| ->]|simpl; congruence|].
    eapply after_trans; [exact Ha|]. by eapply after_trans. }
  destruct (_ || _) eqn:E; [apply Hfail3; [split; [done|later]|by left]|]. rewrite !orb_false_iff, !negb_false_iff in E.
  cbn [wp env]. intros [e|] _; [apply Hfail3; [split; [done|later]|by right]|].
  apply request_once_wp; try done; [simpl; congruence| |simpl; congruence|by eapply after_trans|].
  - exists state. split; [done|]. destruct E as [[[Hc Hv] Hp] Hres]. apply Z.eqb_neq in Hv. apply bool_decide_eq_true in Hp. done.
  - intros Haa. specialize (H0 Haa). specialize (Ha3 Haa). simpl in *. lia.
Qed.

Lemma ended_same t0 g g' r r' e :
  ended t0 g r e → book g' = book g → after g g' →
  xStage r' = xStage r → xExchange r' = xExchange r → xRequest r' = xRequest r → xStatusCode r' = xStatusCode r →
  (e = None → ResponseReceivedAt r' = ResponseReceivedAt r) → ended t0 g' r' e.
Proof.
  intros He Hb Ha Es Ex Eq Ec Et. destruct He as [r e Hf Ht Hs Hne|r t H1 H2 H3 H4 H5 H6 H7].
  - apply ended_failed; [unfold failure; by rewrite Es, Ex, Eq|by rewrite Hb, Eq|by rewrite Ec|done].
  - eapply (ended_answered _ _ _ t); rewrite ?Es, ?Ex, ?Eq, ?Ec, ?Et, ?Hb; try done. intros Haa. specialize (H7 Haa). specialize (Ha Haa). lia.
Qed.

Lemma ended_told t0 g r e : ended t0 g r e → told (book g) (xRequest r).
Proof. destruct 1 as [|r t _ _ Hq Ht]; [done|by rewrite Hq]. Qed.

(** A result whose route is not confirmed counts as incomplete. *)
Lemma ended_incomplete t0 g g' r e e' :
  ended t0 g r e → book g' = book g → e' ≠ OutOfFuel →
  ended t0 g' (answered (ResponseReceivedAt r) 0 (exchanged HTTPSIncomplete r)) (Some e').
Proof.
  intros He Hb Hne. pose proof (ended_told _ _ _ _ He) as Ht. apply ended_failed; [|by rewrite Hb|done|done].
  destruct He as [r e [(H1 & H2 & _)|[(H1 & H2 & _)|(H1 & _)]] _ _ _|r t H1 _ _ _ _ _ _].
  - left. split; [done|]. split; [done|set_solver].
  - right. left. split; [done|]. split; [done|set_solver].
  - right. right. split; [done|]. left. set_solver.
  - right. right. split; [done|]. left. set_solver.
Qed.

Lemma https_ctx_error_fuel e : ctx_error e ≠ OutOfFuel.
Proof. by destruct e. Qed.
Lemma https_safeError_fuel e : safeError e ≠ OutOfFuel.
Proof.
  unfold safeError. destruct (head _) as [k|] eqn:E; [|done]. simpl. intros ->.
  apply head_Some_elem_of, list_elem_of_filter in E as [_ E]. set_solver.
Qed.

(** The exchange is over, or did not begin. *)
Definition closed (t0 : Z) (g g' : ghost) (r : Result) (e : option err) : Prop :=
  (∃ c, tight (book g') c) ∧ opened (book g') = opened (book g) ∧ after g g' ∧
  (xStage r = "" ∧ xStatusCode r = 0 ∧ requests (book g') = [] ∧ (∃ e', e = Some e' ∧ e' ≠ OutOfFuel) ∨ ended t0 g' r e).

(** Before anything was read or written. *)
Definition untouched (b : ledger) : Prop := writes b = [] ∧ reads b = 0 ∧ bytes_read b = 0 ∧ bytes_written b = 0 ∧ requests b = [].

Lemma untouched_tight b : untouched b → tight b (fresh_wire (sPlan s)).
Proof.
  intros (Hw & Hr & Hbr & Hbw & _). unfold fresh_wire. rewrite budget_fixed. constructor; simpl; rewrite ?Hw, ?Hr, ?Hbr, ?Hbw; try done; lia.
Qed.

Lemma https_exchange_wp t0 parent g :
  untouched (book g) → (aligned → t0 <= last g) →
  wp env (exchange ReadResponse (route_write s) (sPlan s) true parent None) g (λ g' '(r, _, e), closed t0 g g' r e).
Proof.
  intros Hu H0. unfold exchange. cbn [negb]. apply wp_bind.
  assert (Hno : ∀ g' e, calm g g' → e ≠ OutOfFuel → closed t0 g g' zeroResult (Some e)).
  { intros g' e [Hb Ha] He. split; [eexists; rewrite Hb; by apply untouched_tight|]. rewrite Hb. split_and!; [done|done|]. left. split_and!; try done; [apply Hu|by eexists]. }
  assert (Hend : ∀ g' (x : Result * option raw * option err), closed t0 g g' x.1.1 x.2 → wp env (u <~ Close ;; Ret x) g' (λ g' '(r, _, e), closed t0 g g' r e)).
  { intros g' [[r f] e] H. cbn [wp env]. intros u _. destruct H as (Ht & Ho & Ha & H). split_and!; try done. destruct H as [H|H]; [by left|right].
    eapply ended_same; [exact H|done|later|done..]. }
  eapply wp_mono; [|intros g' x H; apply Hend; exact H].
  unfold exchange_body. cbn [wp env]. intros start Hstart. destruct parent as [parent|]; cbn [wp]; [|apply Hno; [split; [done|later]|done]].
  destruct (HTTPSPlan.Current _ _); cbn [negb wp env]; [|apply Hno; [split; [done|later]|done]].
  intros [e|] _; cbn [wp]; [apply Hno; [split; [done|later]|apply https_ctx_error_fuel]|].
  unfold HTTPSPlan.RequestBytes. destruct (bool_decide _); cbn [negb wp env]; [|apply Hno; [split; [done|later]|done]].
  intros started Hs. apply wp_bind. eapply wp_mono.
  { apply (converse_wp t0 g); try done; [apply Hu|by apply untouched_tight|later|]. later. }
  intros g' [[r [c f]] e] (Ht & Ho & Ha & He). cbn [wp env]. intros t Hnow. split_and!; [by eexists|done|later|]. right.
  eapply ended_same; [exact He|done|later|done..].
Qed.

(** *** The attempt to connect *)

Definition connecting : Result := at_stage HTTPSConnect HTTPSIncomplete HTTPSRequestNotSent zeroResult.

Lemma connecting_failed t0 g x e :
  untouched (book g) → x ∈ [HTTPSIncomplete; HTTPSConnectError; HTTPSTimeout] → e ≠ OutOfFuel → ended t0 g (exchanged x connecting) (Some e).
Proof. intros Hu Hx He. apply ended_failed; [by left|apply told_nothing, Hu|done|done]. Qed.

Definition left (t0 : Z) (g g' : ghost) (x : Result * option err) : Prop :=
  (∃ c, tight (book g') c) ∧ opened (book g') = opened (book g) ∧ after g g' ∧ ended t0 g' x.1 x.2.

Lemma connected_wp t0 deadline g :
  untouched (book g) → (aligned → t0 <= last g) → wp env (connected ReadResponse s deadline connecting) g (left t0 g).
Proof.
  intros Hu H0. unfold connected. apply wp_bind, verifyRoute_wp. intros g1 v [Hb Ha] _. apply wp_bind.
  eapply (wp_mono _ _ _ (left t0 g)).
  2: { intros g' [r e] (Ht & Ho & Ha' & He). cbn [wp env]. intros u _. split_and!; [done|done|later|]. eapply ended_same; [exact He|done|later|done..]. }
  destruct v as [e|]; cbn [wp].
  { split_and!; [eexists; rewrite Hb; by apply untouched_tight|by rewrite Hb|done|].
    apply (connecting_failed t0 g1 HTTPSIncomplete); [by rewrite Hb|set_solver|apply https_safeError_fuel]. }
  apply wp_bind. eapply wp_mono; [apply (https_exchange_wp t0); [by rewrite Hb|later]|]. intros g2 [[r f] e] (Ht & Ho & Ha2 & Hr).
  set (r1 := if bool_decide (xStage r = "") then _ else r).
  assert (He : ended t0 g2 r1 e).
  { destruct Hr as [(Hs & Hc & Hq & e' & -> & Hne)|He].
    - unfold r1. rewrite bool_decide_eq_true_2 by done. apply ended_failed; [|by apply told_nothing|done|done]. right. left. split_and!; [done|done|set_solver].
    - unfold r1. rewrite bool_decide_eq_false_2; [done|]. intros E. destruct He as [? ? [(E' & _)|[(E' & _)|(E' & _)]]|? ? E']; by rewrite E' in E. }
  clearbody r1. rewrite Hb in Ho. assert (Hg2 : after g g2) by later. destruct f as [f|]; cbn [wp].
  { split_and!; [done|done|done|]. eapply ended_incomplete; [exact He|done|apply https_safeError_fuel]. }
  destruct e as [e|]; cbn [wp].
  { split_and!; [done|done|done|]. inversion He as [? ? Hf Htold Hs Hne|]; subst. apply ended_failed; try done. apply https_safeError_fuel. }
  apply wp_bind, verifyRoute_wp. intros g3 v [Hb3 Ha3] _. cbn [wp]. unfold left. rewrite Hb3. split_and!; [done|done|later|].
  destruct v as [e|]; [eapply ended_incomplete; [exact He|done|apply https_safeError_fuel]|]. by eapply ended_same.
Qed.

(** What an attempt leaves behind. *)
Definition attempted (g g' : ghost) (x : Result * option err) : Prop :=
  ∃ t1 t2, (∃ c, tight (book g') c) ∧ opened (book g') = opened (book g) + 1 ∧
    xStartedAt x.1 = UTC (Round0 t1) ∧ xCompletedAt x.1 = UTC (Round0 t2) ∧ ended (wall t1) g' x.1 x.2 ∧
    (aligned → last g < wall t1 < wall t2 ∧ last g' = wall t2 ∧ wall t2 <= upper).

Lemma https_attempt_wp deadline g : untouched (book g) → wp env (attempt ReadResponse s deadline) g (attempted g).
Proof.
  intros Hu. unfold attempt. cbn [wp env]. intros t1 Ht1 [present e] _. fold connecting. set (g1 := gstep _ Open _).
  assert (Hu1 : untouched (book g1)) by done. apply wp_bind. eapply (wp_mono _ _ _ (left (wall t1) g1)).
  2: { intros g2 [r e'] (Ht & Ho & Ha & He). cbn [wp env fst snd]. intros t2 Ht2. exists t1, t2. split_and!.
       - by destruct Ht as [c Ht]; exists c.
       - by simpl; rewrite Ho.
       - cbn [fst]. by case_match.
       - cbn [fst]. by case_match.
       - cbn [fst snd]. eapply ended_same; [exact He|done|later|by case_match..|]. intros ->. inversion He; subst. cbn [between xExchange].
         rewrite bool_decide_eq_true_2 by done. done.
       - intros Haa. specialize (Ht1 Haa). specialize (Ht2 Haa). specialize (Ha Haa). simpl in *. lia. }
  assert (Hleft : ∀ g2 x e, book g2 = book g1 → after g1 g2 → x ∈ [HTTPSIncomplete; HTTPSConnectError; HTTPSTimeout] → e ≠ OutOfFuel → left (wall t1) g1 g2 (exchanged x connecting, Some e)).
  { intros g2 x e2 Hb Ha Hx He. split_and!; [eexists; rewrite Hb; by apply untouched_tight|by rewrite Hb|done|]. apply connecting_failed; [by rewrite Hb|done|done]. }
  assert (Hnot : ∀ g2 e, book g2 = book g1 → after g1 g2 → e ≠ OutOfFuel → left (wall t1) g1 g2 (not_opened connecting e)).
  { intros g2 e2 Hb Ha He. unfold not_opened.
    destruct (_ || times_out _); [apply (Hleft g2 HTTPSTimeout); try done; set_solver|apply Hleft; try done; case_match; set_solver]. }
  destruct present, e as [e|]; cbn [wp env].
  - intros u _. apply Hnot; [done|later|apply https_safeError_fuel].
  - apply connected_wp; [done|later].
  - apply Hnot; [done|later|apply https_safeError_fuel].
  - apply (Hleft _ HTTPSIncomplete); [done|later|set_solver|done].
Qed.

(** What [Execute] returns. *)
Definition executed (g g' : ghost) (x : Result * option err) : Prop :=
  (xStage x.1 = "" ∧ book g' = book g ∧ ∃ e, x.2 = Some e ∧ e ≠ OutOfFuel) ∨
  (∃ start g1, unusable s start = false ∧ timely g start ∧ attempted g1 g' x ∧ book g1 = book g ∧ (aligned → wall start <= last g1)).

Lemma Execute_wp present parent g : untouched (book g) → wp env (Execute ReadResponse s present parent) g (executed g).
Proof.
  intros Hu. assert (Hno : ∀ g' e, book g' = book g → e ≠ OutOfFuel → executed g g' (zeroResult, Some e)) by (intros g' e Hb He; left; split_and!; try done; by eexists).
  unfold Execute. destruct present; cbn [negb wp env]; [|by apply Hno]. intros [e|] _; cbn [wp]; [apply Hno; [done|apply https_ctx_error_fuel]|].
  destruct parent as [parent|]; cbn [wp env]; [|by apply Hno]. intros [] _; cbn [negb wp env]; [|by apply Hno]. intros start Hs. apply wp_bind.
  eapply (wp_mono _ _ _ (executed g)).
  2: { intros g' x Hx. cbn [wp env]. intros u _. destruct Hx as [(H1 & H2 & H3)|(st & g1 & H1 & H2 & (t1 & t2 & Ht & Ho & E1 & E2 & He & Hl) & H3 & H4)]; [by left|]. right.
       exists st, g1. split_and!; try done. exists t1, t2. split_and!; try done. eapply ended_same; [exact He|done|later|done..]. }
  destruct (unusable s start) eqn:E; cbn [wp]; [by apply Hno|]. apply wp_bind, verifyRoute_wp. intros g1 [e|] [Hb Ha] _; cbn [wp]; [apply Hno; [done|apply https_safeError_fuel]|].
  eapply wp_mono; [apply https_attempt_wp; by rewrite Hb|]. intros g2 x Hx. right. exists start, g1. by split_and!.
Qed.

End Spec.

(** ** What reaches the network *)

Lemma https_new_budget b c t p : HTTPSPlan.New b c t = Ok p → ∃ n, HTTPSPlan.dBudget (HTTPSPlan.review p) = HTTPSPlan.planBudget n.
Proof. intros (prefixes & member & _ & _ & _ & _ & _ & ->)%HTTPSPlan.https_new_iff. by eexists. Qed.

Lemma env_unaligned g tr : env_ok (env False 0 0) g tr.
Proof. revert g. induction tr as [|[e a] tr IH]; intros g; simpl; [done|]. split; [by destruct e|apply IH]. Qed.

(** Every write to the connection follows an inspection of its own that agrees with the
    plan, and reads and writes stay within the budget. *)
Definition modest (s : Selection) (b : ledger) : Prop :=
  opened b <= 1 ∧ reads b <= 512 ∧ llen (writes b) <= 64 ∧ bytes_read b <= 131072 ∧ bytes_written b <= 32768 ∧ Forall (routed s) (writes b).

Lemma tight_modest s b c : tight s b c → opened b = 1 → modest s b.
Proof. intros [H1 H2 H3 H4 H5 H6 H7 H8 H9] Ho. unfold modest. split_and!; try done; lia. Qed.

(** A measurement is made of the result, or none is. *)
Lemma normalized_cases id s r e :
  (xStage r = "" ∧ normalized id s r e = (zeroMeasurement, e)) ∨
  (xStage r ≠ "" ∧ normalized id s r e = (zeroMeasurement, Some ErrUnavailable)) ∨
  (xStage r ≠ "" ∧ ∃ l, normalized id s r e = (measurement_of id s r l, e)).
Proof.
  unfold normalized. destruct (bool_decide (xStage r = "")) eqn:E; [apply bool_decide_eq_true in E; by left|]. apply bool_decide_eq_false in E.
  right. case_match; [by left|]. case_match; [by left|]. right. split; [done|by eexists].
Qed.

Section Theorems.
Context (ReadResponse : list Z → string → result raw (Z * Z * Z)).
Local Notation execute := (ExecuteHTTPS ReadResponse).

Lemma ExecuteHTTPS_run aligned boot upper present parent id s n tr m e start :
  run (execute present parent id s) tr (m, e) → HTTPSPlan.dBudget (HTTPSPlan.review (sPlan s)) = HTTPSPlan.planBudget n →
  env_ok (env aligned boot upper) (ghost0 start) tr →
  let g := foldl observe (ghost0 start) tr in
  (m = zeroMeasurement ∧ e = Some ErrBinding ∧ book g = book (ghost0 start)) ∨
  (MatchString measurementID id = true ∧ ∃ x, executed aligned boot upper s (ghost0 start) g x ∧ (m, e) = normalized id s x.1 x.2).
Proof.
  intros Hr Hb Henv g. apply (wp_run (env aligned boot upper) _ _ _ (ghost0 start) (λ g x,
    (x.1 = zeroMeasurement ∧ x.2 = Some ErrBinding ∧ book g = book (ghost0 start)) ∨
    (MatchString measurementID id = true ∧ ∃ y, executed aligned boot upper s (ghost0 start) g y ∧ x = normalized id s y.1 y.2)) Hr); [|done].
  unfold ExecuteHTTPS. destruct (MatchString measurementID id); cbn [negb wp]; [|by left]. apply wp_bind.
  eapply wp_mono; [by apply (Execute_wp aligned boot upper ReadResponse s n Hb)|]. intros g' x Hx. cbn [wp]. right. split; [done|]. by exists x.
Qed.

(** C40: what the HTTPS executor may do.  Whatever the clock, the context, the route inspector, TLS, the
    server and the socket answer, [ExecuteHTTPS] ends; it opens at most one connection, on which it makes at
    most 512 reads of 131072 bytes and 64 writes of 32768 bytes, each write after an inspection of its own
    whose route agrees with the reviewed plan; it sends at most one request, the bytes of the reviewed plan,
    over a fresh connection with a verified identity and the agreed protocol, and the measurement says that
    nothing was sent exactly when nothing was; without an error a response was received. *)
Theorem https_exchange_bounded present parent id s b c t tr m e :
  run (execute present parent id s) tr (m, e) → HTTPSPlan.New b c t = Ok (sPlan s) →
  let g := book (foldl observe (ghost0 0) tr) in
  e ≠ Some OutOfFuel ∧ (e = None → Exchange m = HTTPSResponseReceived) ∧ modest s g ∧
  ((requests g = [] ∧ (m = zeroMeasurement ∨ Request m = HTTPSRequestNotSent)) ∨
   ∃ st, requests g = [(request_bytes s, Some st)] ∧ identified s st ∧ (m = zeroMeasurement ∨ Request m ≠ HTTPSRequestNotSent)).
Proof.
  intros Hr [n Hn]%https_new_budget g.
  assert (Hempty : ∀ b, b = book (ghost0 0) → modest s b ∧ requests b = []) by (intros ? ->; split; [unfold modest; split_and!; simpl; done || lia|done]).
  destruct (ExecuteHTTPS_run False 0 0 present parent id s n tr m e 0 Hr Hn (env_unaligned _ _)) as [(-> & -> & Hg)|(_ & [r e0] & Hx & Hm)]; cbn [fst snd] in *.
  { fold g in Hg. destruct (Hempty g Hg) as [Hmod Hq]. split_and!; try done. left. split; [done|by left]. }
  unfold executed, attempted in Hx. cbn [fst snd] in Hx. destruct Hx as [(Hst & Hg & e1 & -> & Hne)|(start & g1 & _ & _ & (t1 & t2 & [w Ht] & Ho & _ & _ & He & _) & Hb & _)]; cbn [fst snd] in *.
  { fold g in Hg. destruct (Hempty g Hg) as [Hmod Hq]. unfold normalized in Hm. rewrite bool_decide_eq_true_2 in Hm by done. injection Hm as -> ->.
    split_and!; try done; [congruence|]. left. split; [done|by left]. }
  rewrite Hb in Ho. fold g in Ht, Ho. pose proof (tight_modest _ _ _ Ht Ho) as Hmod. pose proof (ended_told _ _ _ _ _ _ He) as Htold. fold g in Htold.
  assert (Hreq : m = zeroMeasurement ∨ Request m = xRequest r).
  { destruct (normalized_cases id s r e0) as [[_ E]|[[_ E]|(_ & l & E)]]; rewrite E in Hm; injection Hm as -> ->; auto. }
  assert (Hres : e ≠ Some OutOfFuel ∧ (e = None → Exchange m = HTTPSResponseReceived)).
  { destruct (normalized_cases id s r e0) as [[Es E]|[[_ E]|(_ & l & E)]]; rewrite E in Hm; injection Hm as -> ->; [|done|].
    - exfalso. destruct He as [? ? [(E' & _)|[(E' & _)|(E' & _)]]|? ? E']; by rewrite E' in Es.
    - destruct He as [r e1 _ _ _ Hne|r t' _ Hx _ _ _ _ _]; [split; [congruence|done]|by split]. }
  destruct Hres as [Hf Hok]. split_and!; try done.
  inversion Htold as [Hq Eq|st q Hq Hid Hqq Eq]; subst.
  - left. split; [done|]. destruct Hreq as [->| ->]; auto.
  - right. exists st. split_and!; try done. destruct Hreq as [->| ->]; [by left|right]. destruct Hqq as [->| ->]; discriminate.
Qed.

(** ** The run control accepts the measurement *)

(** What [safeExecute] keeps of the executor's error. *)
Definition exec_of (e : err) : exec_err :=
  match e with ECanceled => ExecCanceled | EDeadline => ExecDeadline | _ => ExecOther end.

(** The latency that is reported. *)
Definition latency (r : Result) : option Duration :=
  if xExchange r == HTTPSResponseReceived then Some (Sub (ResponseReceivedAt r) (xStartedAt r)) else None.

Lemma ended_valid s t1 t2 g r e id :
  ended True s (wall t1) g r e → xStartedAt r = UTC (Round0 t1) → xCompletedAt r = UTC (Round0 t2) →
  wall t1 < wall t2 → last g = wall t2 → wall t2 - wall t1 < OperationTimeout →
  validateHTTPSMeasurement (measurement_of id s r (latency r)) = Ok tt ∧
  match latency r with Some l => 0 <= l < OperationTimeout | None => True end.
Proof.
  intros He E1 E2 Hlt Hl H8. unfold OperationTimeout, Second in *.
  assert (Hd : ∀ a, wall t1 <= wall a <= wall t2 → Sub (UTC (Round0 a)) (UTC (Round0 t1)) = wall a - wall t1).
  { intros a Ha. rewrite Sub_wall by auto with cozy. change (wall (UTC (Round0 a))) with (wall a). change (wall (UTC (Round0 t1))) with (wall t1).
    unfold int64_saturate, min_int64, max_int64. lia. }
  unfold validateHTTPSMeasurement, failure_stage, measurement_of, latency. cbn [HTTPS.Request Exchange Stage Gap StatusCode ResponseTime StartedAt CompletedAt].
  rewrite E1, E2. rewrite Hd by lia. rewrite After_wall by auto with cozy. change (wall (UTC (Round0 t2))) with (wall t2). change (wall (UTC (Round0 t1))) with (wall t1).
  rewrite (proj2 (Z.ltb_ge MaxCheckTime _)) by (unfold MaxCheckTime, Second; lia). apply Z.ltb_lt in Hlt as Hlt'. rewrite Hlt'.
  destruct He as [r e Hf Htold Hc Hne|r t Hs Hx Hq _ Hc Hr Ht].
  - rewrite Hc. assert (Hq : xRequest r = HTTPSRequestNotSent ∨ xRequest r = HTTPSRequestAccepted ∨ xRequest r = HTTPSRequestUncertain).
    { inversion Htold as [_ Eq|st q _ _ Hq Eq]; auto. }
    destruct Hf as [(Hs & Hn & Hx)|[(Hs & Hn & Hx)|(Hs & Hx)]]; rewrite Hs, ?Hn.
    + rewrite !elem_of_cons, elem_of_nil in Hx. destruct Hx as [->|[->|[->|[]]]]; done.
    + rewrite !elem_of_cons, elem_of_nil in Hx. destruct Hx as [->|[->|[->|[->|[]]]]]; done.
    + rewrite !elem_of_cons, elem_of_nil in Hx. destruct Hx as [[->|[->|[->|[]]]]|[-> ->]]; try done; by destruct Hq as [->|[->| ->]].
  - rewrite Hs, Hx, Hq, Hr. specialize (Ht I). rewrite Hd by lia. rewrite (proj2 (Z.ltb_ge (xStatusCode r) 200)), (proj2 (Z.ltb_ge 599 _)) by lia. simpl.
    rewrite (proj2 (Z.ltb_ge (wall t - wall t1) 0)), (proj2 (Z.ltb_ge (wall t2 - wall t1) _)) by lia. simpl. split; [done|lia].
Qed.

Lemma usable_times b c t s start :
  HTTPSPlan.New b c t = Ok (sPlan s) → unusable s start = false → in_int64 (wall start) = true ∧ wall (RouteObservedAt s) <= wall start.
Proof.
  intros (prefixes & member & _ & _ & _ & _ & _ & Hp)%HTTPSPlan.https_new_iff Hu. unfold unusable in Hu. rewrite !orb_false_iff, !negb_false_iff in Hu.
  destruct Hu as [[[[Hc _] Ha] _] _]. rewrite Hp in Hc, Ha. unfold HTTPSPlan.Current in Hc. rewrite !andb_true_iff, negb_true_iff in Hc. destruct Hc as [[[_ Hv] Hb] _].
  rewrite validTime_eq in Hv. split; [done|]. simpl in Hb, Ha. rewrite Before_wall in Hb by (right; done). rewrite After_wall in Ha by (right; done). simpl in *. go_bool. lia.
Qed.

(** The measurement of an attempt is built, and valid from its completion on. *)
Lemma attempt_kept s t1 t2 g r e id :
  ended True s (wall t1) g r e → xStartedAt r = UTC (Round0 t1) → xCompletedAt r = UTC (Round0 t2) →
  wall t1 < wall t2 → last g = wall t2 → wall t2 - wall t1 < OperationTimeout →
  in_int64 (wall t1) = true → in_int64 (wall t2 + Second) = true → MatchString measurementID id = true →
  is_ok (ValidateHTTPSSelection (HTTPSPlan.cSelection (HTTPSPlan.dConfiguration (HTTPSPlan.review (sPlan s))))) = true →
  observer_ok (HTTPSPlan.bObserver (HTTPSPlan.dBinding (HTTPSPlan.review (sPlan s)))) →
  let m := measurement_of id s r (latency r) in
  normalized id s r e = (m, e) ∧
  ∀ now, canonical now → wall t2 <= wall now → in_int64 (wall now + Second) = true → wall now - wall t1 <= MaxWindow → validateMeasurement m now = true.
Proof.
  intros He E1 E2 Hlt Hl H8 Hi1 Hi2 Hid Hsel Hobs m. destruct (ended_valid s t1 t2 g r e id He E1 E2 Hlt Hl H8) as [Hval Hlat]. fold m in Hval.
  assert (Hsnap : ∀ now, canonical now → wall t2 <= wall now → in_int64 (wall now + Second) = true → wall now - wall t1 <= MaxWindow → ValidateHTTPSSnapshot (single m now) = Ok tt).
  { intros now Hc Hn Hs Hw. apply https_single_valid; [done|unfold m; cbn [measurement_of StartedAt CompletedAt]; rewrite ?E1, ?E2; auto with cozy..|].
    split_and!; try done; [by apply hex_token|]. unfold m. cbn [measurement_of StartedAt CompletedAt]. rewrite E1, E2.
    unfold window_ok. change (wall (UTC (Round0 t1))) with (wall t1). change (wall (UTC (Round0 t2))) with (wall t2). split_and!; done || lia. }
  assert (Hi2' : in_int64 (wall t2) = true) by (unfold in_int64, Second in *; go_bool; split; go_bool; lia).
  split.
  - unfold normalized. rewrite bool_decide_eq_false_2 by (destruct He as [? ? [(E' & _)|[(E' & _)|(E' & _)]]|? ? E']; by rewrite E').
    assert (Hok : (xExchange r == HTTPSResponseReceived) && (is_some e || IsZero (ResponseReceivedAt r) || Before (ResponseReceivedAt r) (xStartedAt r) || After (ResponseReceivedAt r) (xCompletedAt r)) = false).
    { destruct He as [r e [(_ & _ & Hx)|[(_ & _ & Hx)|(_ & [Hx|[Hx _]])]] _ _ _|r t _ _ _ _ _ Hr Ht].
      1-4: rewrite bool_decide_eq_false_2; [done|]; intros E; rewrite E in Hx; first [discriminate|rewrite !elem_of_cons, elem_of_nil in Hx; repeat destruct Hx as [Hx|Hx]; done].
      apply andb_false_iff. right. specialize (Ht I). rewrite Hr, E1, E2, Before_wall, After_wall by auto with cozy.
      change (wall (UTC (Round0 t))) with (wall t). change (wall (UTC (Round0 t1))) with (wall t1). change (wall (UTC (Round0 t2))) with (wall t2).
      rewrite !orb_false_iff, !Z.ltb_ge. split_and!; [done| |lia|lia]. apply validTime_nonzero. rewrite validTime_eq. change (wall (UTC (Round0 t))) with (wall t).
      unfold in_int64, Second in *. go_bool. split; go_bool; lia. }
    rewrite Hok. fold (latency r). fold m. change (mkHTTPSSnapshot _ _ _ _ _ _) with (single m (CompletedAt m)). rewrite Hsnap; [done|..].
    all: unfold m; cbn [measurement_of CompletedAt]; rewrite E2. { auto with cozy. } { done. } { done. } change (wall (UTC (Round0 t2))) with (wall t2). unfold MaxWindow, Hour, Minute, OperationTimeout, Second in *. lia.
  - intros now Hc Hn Hs Hw. apply https_validateMeasurement_split. split; [|by apply Hsnap]. unfold bounds, m. cbn [measurement_of StartedAt CompletedAt Exchange ResponseTime].
    rewrite E1, E2, !validTime_eq, Sub_wall by auto with cozy. change (wall (UTC (Round0 t1))) with (wall t1). change (wall (UTC (Round0 t2))) with (wall t2). rewrite Hi1, Hi2'.
    rewrite (proj2 (Z.ltb_ge MaxCheckTime _)) by (unfold int64_saturate, min_int64, max_int64, MaxCheckTime, OperationTimeout, Second in *; lia). simpl.
    unfold latency in *. destruct (bool_decide _); [|done]. simpl. rewrite (proj2 (Z.leb_gt OperationTimeout _)); [done|lia].
Qed.

(** A steady clock that moves from reading to reading, from the admission to the return. *)
Definition admitted (boot : Z) (returned : Time) (g : ghost) (e : effect) : answer e → Prop := env True boot (wall returned) g e.

(** The run control accepts what the HTTPS executor returns, and no evidence is lost.  With a steady
    clock that moves between readings, for a plan made by [New] and a call that returns before the review
    expires and within the operation timeout, the measurement and error of [ExecuteHTTPS] pass
    [validateSample] for the very selection and run: as a measurement if a connection was attempted, and as
    none if not. *)
Theorem https_exchange_accepted present parent id s b c t boot started returned expires tr m e :
  run (execute present parent id s) tr (m, e) → env_ok (admitted boot returned) (ghost0 (wall started)) tr →
  HTTPSPlan.New b c t = Ok (sPlan s) → canonical started → canonical returned → canonical expires →
  wall returned - wall started < OperationTimeout → wall returned < wall expires → in_int64 (wall returned + Second) = true →
  validateSample m (option_map exec_of e) s id started returned expires =
    Some (if opened (book (foldl observe (ghost0 (wall started)) tr)) =? 0 then None else Some m).
Proof.
  intros Hr Henv Hnew Hcs Hcr Hce H8 Hx Hret. destruct (https_new_budget _ _ _ _ Hnew) as [n Hn]. pose proof (https_built_auditable _ _ _ _ Hnew) as [Hsel Hobs].
  assert (Hzero : ∀ g e', book g = book (ghost0 (wall started)) →
    validateSample zeroMeasurement (Some e') s id started returned expires = Some (if opened (book g) =? 0 then None else Some zeroMeasurement)).
  { intros g e' ->. unfold validateSample. by rewrite bool_decide_eq_true_2. }
  destruct (ExecuteHTTPS_run True boot (wall returned) present parent id s n tr m e (wall started) Hr Hn Henv) as [(-> & -> & Hg)|(Hid & [r e0] & Hy & Hm)]; [by apply Hzero|].
  unfold executed, attempted in Hy. cbn [fst snd] in Hy, Hm.
  destruct Hy as [(Hst & Hg & e1 & -> & Hne)|(start & g1 & Hu & Hstart & (t1 & t2 & _ & Ho & E1 & E2 & He & Hl) & Hb & Hs1)].
  { unfold normalized in Hm. rewrite bool_decide_eq_true_2 in Hm by done. injection Hm as -> ->. by apply Hzero. }
  set (g := foldl _ _ _) in *. rewrite Ho, Hb. cbn [ghost0 book opened Z.add Z.eqb].
  specialize (Hl I). specialize (Hs1 I). destruct (Hstart I) as [_ Hst]. destruct Hl as ((Hl1 & Hl2) & Hl3 & Hl4). simpl in Hst.
  destruct (usable_times _ _ _ _ _ Hnew Hu) as [Hi Hro].
  destruct (attempt_kept s t1 t2 g r e0 id He E1 E2 Hl2 Hl3) as [Hk Hv]; try done; [lia|unfold in_int64, Second in *; go_bool; split; go_bool; lia..|].
  rewrite Hk in Hm. injection Hm as -> ->.
  specialize (Hv returned Hcr Hl4 Hret). unfold validateSample. rewrite bool_decide_eq_false_2 by (intros [= E]; by rewrite E in Hid).
  rewrite Hv by (unfold MaxWindow, Hour, Minute, OperationTimeout, Second in *; lia). cbn [measurement_of ID HTTPS.Selection MeasuredBy StartedAt CompletedAt].
  rewrite E1, E2, !Before_wall by auto with cozy. change (wall (UTC (Round0 t1))) with (wall t1). change (wall (UTC (Round0 t2))) with (wall t2).
  match goal with |- (if ?b then _ else _) = _ => assert (b = false) as ->; [|done] end.
  rewrite !orb_false_iff, !negb_false_iff, !andb_false_iff, !negb_false_iff. split_and!; try (by apply bool_decide_eq_true_2); try (apply Z.ltb_lt || apply Z.ltb_ge; lia); try done.
  - right. apply Z.ltb_lt. lia.
  - destruct e0 as [e0|]; [left; by apply bool_decide_eq_false_2|right]. unfold complete, measurement_of. cbn [Exchange]. inversion He as [|? ? _ Hxr]; subst. by rewrite Hxr.
Qed.

End Theorems.
(** ** A run *)

(** A server that answers with one final header; the clock moves a millisecond at each
    reading.  The world is the time that passed and the bytes of the answer that are left. *)
Definition origin : Time := Quality.clock 101.
Definition home_at (t : Time) : Selection :=
  mkSelection (HTTPSPlan.plan_of (HTTPSPlan.New (HTTPSPlan.home_binding HTTPSPlan.home_prefixes) (HTTPSPlan.home_check "status.example") t)) t (Add t HTTPSPlan.ReviewLifetime).
Definition home : Selection := home_at (Quality.clock 100).

Definition home_header : list Z := [72; 84; 84; 80; 47; 49; 46; 49; 32; 50; 48; 52; 32; 13; 10; 13; 10].
Definition toy_response (header : list Z) (_ : string) : result raw (Z * Z * Z) :=
  match drop 9 header with
  | a :: b :: c :: _ => Ok (1, 1, (a - 48) * 100 + (b - 48) * 10 + (c - 48))
  | _ => Err io_error
  end.

Definition world (w : Z * list Z) (g : ghost) (e : effect) : answer e * (Z * list Z) :=
  let '(elapsed, rest) := w in
  match e return answer e * (Z * list Z) with
  | Now => (Add origin elapsed, (elapsed + Millisecond, rest))
  | Ctx => (None, w)
  | Acquire => (true, w)
  | Release => (tt, w)
  | Inspect _ _ _ => (Ok (home_at (Add origin elapsed)), w)
  | Open => ((true, None), w)
  | SetDeadline _ => (None, w)
  | Close => (tt, w)
  | ConnRead len => ((len, None), w)
  | ConnWrite len => ((len, None), w)
  | Handshake => ([IOWrite 200; IORead 1000; IOWrite 50], w)
  | Handshaken => (None, w)
  | State => (mkConnectionState true 1 "http/1.1" false, w)
  | ClientWrite p => ([IOWrite (String.length p)], w)
  | Written => ((slen (request_bytes home), None), w)
  | ReadByte => ([IORead 100], w)
  | ByteRead => match rest with ch :: rest => (Ok ch, (elapsed, rest)) | [] => (Err io_error, w) end
  end.

(** Time passes. *)
Definition passed (w w' : Z * list Z) : Prop := w.1 <= w'.1.
#[local] Instance passed_preorder : PreOrder passed.
Proof. split; [intros x|intros x y z]; unfold passed; lia. Qed.

Lemma https_world_later w g e : passed w (world w g e).2.
Proof. unfold passed. destruct w as [elapsed rest], e; simpl; try lia; [unfold Millisecond; lia|]. by destruct rest. Qed.

Lemma https_drive_admitted {R} (p : @Effects.prog effect answer R) w g tr x until_ returned :
  drive world p w g = (tr, x, until_) → last g < wall origin + w.1 → wall origin + until_.1 <= wall returned → env_ok (admitted 0 returned) g tr.
Proof.
  intros Hd Hg Hu. revert w g tr Hg Hd. induction p as [y|e k IH]; intros w g tr Hg; simpl; [by intros [= <- <- <-]|].
  pose proof (https_world_later w g e) as Hw. unfold passed in Hw. destruct (world w g e) as [a w'] eqn:Ew.
  destruct (drive _ _ _) as [[tr' x'] until'] eqn:E. intros [= <- <- <-].
  pose proof (drive_keeps world passed _ _ _ _ _ _ https_world_later E) as Hl. unfold passed in Hl.
  simpl in Hw. split.
  - destruct w as [elapsed rest]. unfold admitted. destruct e; simpl in Ew |- *; try done. injection Ew as <- <-. intros _. split; [by left|].
    rewrite wall_Add. change ((1700000000 + 101) * Second) with (wall origin). simpl in *. unfold Millisecond in *. lia.
  - apply (IH a w' (gstep g e a)); [|exact E]. destruct w as [elapsed rest]. destruct e; simpl in Ew, Hg |- *; try (simplify_eq; done).
    + injection Ew as <- <-. rewrite wall_Add. change ((1700000000 + 101) * Second) with (wall origin). simpl. unfold Millisecond. lia.
    + destruct rest; simplify_eq; done.
Qed.

Definition home_parent : option Time := Some (Quality.clock 108).
Definition home_execute := ExecuteHTTPS toy_response true home_parent example_id home.
Definition home_run := drive world home_execute (Millisecond, home_header) (ghost0 (wall origin)).
Definition home_trace := home_run.1.1.
Definition home_measurement : HTTPSMeasurement := home_run.1.2.1.

Lemma https_home_run_drive : home_run = drive world home_execute (Millisecond, home_header) (ghost0 (wall origin)).
Proof. reflexivity. Qed.

Lemma https_home_run_eq : drive world home_execute (Millisecond, home_header) (ghost0 (wall origin)) = (home_trace, (home_measurement, None), home_run.2).
Proof. rewrite <- https_home_run_drive. vm_compute. reflexivity. Qed.

Lemma https_home_new :
  HTTPSPlan.New (HTTPSPlan.home_binding HTTPSPlan.home_prefixes) (HTTPSPlan.home_check "status.example") (Quality.clock 100) = Ok (sPlan home).
Proof. vm_compute. reflexivity. Qed.

Lemma https_home_admitted : env_ok (admitted 0 (Quality.clock 102)) (ghost0 (wall origin)) home_trace.
Proof. apply (https_drive_admitted _ _ _ _ _ _ _ https_home_run_eq); vm_compute; [reflexivity|discriminate]. Qed.

Lemma https_exchange_bounded_witness :
  Exchange home_measurement = HTTPSResponseReceived ∧ modest home (book (foldl observe (ghost0 0) home_trace)) ∧
  llen (writes (book (foldl observe (ghost0 0) home_trace))) = 3 ∧ StatusCode home_measurement = 204.
Proof.
  destruct (https_exchange_bounded toy_response true home_parent example_id home _ _ _ home_trace home_measurement None
    (drive_run _ _ _ _ _ _ _ https_home_run_eq) https_home_new) as (_ & Hx & Hm & _).
  split; [exact (Hx eq_refl)|]. split; [exact Hm|]. split; vm_compute; reflexivity.
Defined.

Lemma https_exchange_accepted_witness :
  validateSample home_measurement None home example_id origin (Quality.clock 102) (Quality.clock 130) = Some (Some home_measurement).
Proof.
  refine (eq_trans (https_exchange_accepted toy_response true home_parent example_id home _ _ _ 0 origin (Quality.clock 102) (Quality.clock 130) home_trace home_measurement None
    (drive_run _ _ _ _ _ _ _ https_home_run_eq) https_home_admitted https_home_new _ _ _ _ _ _) _); by vm_compute.
Defined.

End HTTPSTransport.
