(* ===== verification/APIServer.v ===== *)
(** * The server of the local API

    [localapi/server.go] with the handlers of [adguard.go], [opnsense.go],
    [opnsense_neighbors.go], [resolver_settings.go], [https_settings.go], the three
    [*_history.go], [quality_diagnosis.go], [network_quality.go],
    [network_quality_plan.go] and [request.go]: one connection, from the identity of the
    peer to its one response.  The handler behind the server, the connection and the
    identity of the peer are effects with arbitrary answers; the decoding of JSON into
    structs is a parameter.  Of an error response the code is kept and not the text. *)

From Stdlib Require Import Ascii.
From S2P Require Import Prelude Regex GoTime GoJSON RunControl Effects ConsentSession ResolverSession HTTPSSession.

Module APIServer.
Import JSON Session.

Definition maxRequestBytes : Z := 64 * 1024.

Record Request := mkRequest { Version : Z; ID : string; Method : string; Auth : string; Params : list Z }.

Record PeerIdentity := mkPeerIdentity { UID : Z; Verified : bool }.

(** The errors of the handlers that the server tells apart. *)
Inductive api_err : Type :=
| ErrInvalidRead | ErrReadTargetNotFound | ErrInvalidMutation | ErrMutationTargetNotFound | ErrMutationPrecondition | ErrMutationConflict
| ErrGatewayPlanPrecondition
| ErrEndpoint | ErrTrust | ErrAlreadyConnected | ErrAuth | ErrVersion | ErrNotRunning | ErrNotConnected | ErrConnectionChanged
| ErrObservationScope | ErrObservationIngestion | ErrObservationAudit | ErrSecretStore | ErrUnavailable | ErrResponse.

(** An error of a handler, by what [errors.Is] finds in it; [ErrSecretStore] is any of the
    five errors of [secretstore]. *)
Definition raw := api_err → bool.

(** A [switch] over [errors.Is]. *)
Fixpoint code_of (table : list (list api_err * string)) (otherwise : string) (e : raw) : string :=
  match table with
  | [] => otherwise
  | (es, code) :: table => if existsb e es then code else code_of table otherwise e
  end.

(** The destinations of [decodeRequiredParams], and a decoded struct by its text fields. *)
Inductive struct : Type :=
| ArrivalAcknowledgeParams | DeviceDetailParams | DeviceLabelParams | DeviceMergeParams | DeviceUnmergeParams | DeviceSplitParams
| DeviceUnsplitParams | NetworkEnrollParams | NetworkRetireParams | GatewayPlanParams | AdGuardConnectParams | AdGuardCollectParams
| OPNsenseConnectParams | OPNsenseCollectParams.
Definition fields := string → option string.
Definition get (p : fields) (f : string) : string := default "" (p f).

(** The optional interfaces of the handler. *)
Inductive iface : Type :=
| StorageOverviewHandler | DiagnosticsPreviewHandler | DeviceHandler | DeviceWatchCoverageHandler | DeviceDetailHandler
| DeviceActivityHandler | ArrivalFindingsHandler | ArrivalAcknowledgeHandler | DeviceLabelHandler | DeviceIdentityHandler
| DeviceMergeListHandler | DeviceSplitHandler | NetworkHandler | NetworkEnrollHandler | NetworkRetireHandler
| DeviceWatchControlHandler | QualityDiagnosisHandler | GatewayHistoryHandler | ResolverHistoryHandler | HTTPSHistoryHandler
| ResolverSettingsHandler | HTTPSSettingsHandler | GatewayPlanHandler | LocalNetworkQualityHandler
| AdGuardHandler | OPNsenseHandler | OPNsenseNeighborHandler.

(** The calls of the handler. *)
Inductive call : Type :=
| Status | Health | Capabilities
| StorageOverview | DiagnosticsPreview | Devices | DeviceMerges | DeviceSplits | DeviceActivity | ArrivalFindings
| DeviceWatchCoverage | Networks | LocalNetworkQuality | QualityDiagnosis
| AcknowledgeArrivalFinding (p : fields) | DeviceDetail (p : fields) | LabelDevice (p : fields)
| MergeDevices (p : fields) | UnmergeDevices (p : fields) | SplitDeviceObservation (p : fields) | UnsplitDeviceObservation (p : fields)
| EnrollNetwork (p : fields) | RetireNetwork (p : fields) | EnableDeviceWatch | DisableDeviceWatch
| PreviewGatewayCheck (p : fields)
| GatewayHistory (run : string) | ResolverHistory (run : string) | HTTPSHistory (run : string)
| SaveResolver (p : list (string * content)) | ListResolvers | RetireResolver (id : string) | PreviewResolver (id : string)
| SaveHTTPS (p : list (string * content)) | ListHTTPSSettings | RetireHTTPS (id : string) | PreviewHTTPS (id : string)
| ConnectAdGuard (p : fields) | AdGuardStatus | DisconnectAdGuard | CollectAdGuard (p : fields)
| ConnectOPNsense (p : fields) | OPNsenseStatus | DisconnectOPNsense | CollectOPNsense (p : fields) | OPNsenseNeighbors.

(** The consent sessions take the connection over. *)
Inductive session : Type := GatewayCheck | ResolverCheck | HTTPSCheck.

Inductive read_err : Type := EOF | ReadFailed.

(** ** Effects *)

(** [Call] answers the error, if there is one; [Marshal] whether the result can be encoded. *)
Inductive effect : Type :=
| VerifyPeer | SetDeadline (d : Duration) | ReadBytes | Implements (i : iface) | Call (c : call) | Marshal
| Session (k : session) (payload : list Z) (r : Request)
| WriteError (id code : string) | WriteResult (id : string) | Close.

Definition answer (e : effect) : Type :=
  match e with
  | VerifyPeer => option PeerIdentity
  | ReadBytes => list Z * option read_err
  | Implements _ | Marshal => bool
  | Call _ => option raw
  | SetDeadline _ | Session _ _ _ | WriteError _ _ | WriteResult _ | Close => unit
  end.

Local Notation prog := (@Effects.prog effect answer).
Local Notation obs := (@Effects.obs effect answer).
Local Notation "x <~ e ;; k" := (Do e (λ x, k)) (at level 60, e at next level, right associativity).
Local Notation "x <== p ;; k" := (bind p (λ x, k)) (at level 60, p at next level, right associativity).

Section Server.
(** The session secret, the effective user, and the strict decoders of [encoding/json]. *)
Context (secret : string) (euid : Z) (decode_request : list Z → option Request) (decode_struct : struct → list Z → option fields).

(** ** Requests *)

Definition trimmed (raw : list Z) : string := TrimSpace (of_bytes raw).
Definition hasRequestParams (raw : list Z) : bool := trimmed raw != "".
Definition decodeRequiredParams (raw : list Z) (s : struct) : option fields :=
  if (trimmed raw == "") || (trimmed raw == "null") then None else decode_struct s (sbytes (trimmed raw)).

(** ** Answers *)

Definition reject (r : Request) (code : string) : prog unit := u <~ WriteError (ID r) code ;; Ret tt.

Definition respond (r : Request) : prog unit :=
  ok <~ Marshal ;;
  if negb ok then reject r "internal_error" else u <~ WriteResult (ID r) ;; Ret tt.

(** A call whose errors are answered by a table of codes. *)
Definition serve (r : Request) (c : call) (table : list (list api_err * string)) (otherwise : string) : prog unit :=
  e <~ Call c ;;
  match e with Some e => reject r (code_of table otherwise e) | None => respond r end.

(** The three calls that cannot fail. *)
Definition serve_total (r : Request) (c : call) : prog unit := e <~ Call c ;; respond r.

(** [rejectUnexpectedParams] *)
Definition no_params (r : Request) (k : prog unit) : prog unit := if hasRequestParams (Params r) then reject r "invalid_request" else k.

(** The type assertion on the handler. *)
Definition implemented (r : Request) (i : iface) (k : prog unit) : prog unit :=
  ok <~ Implements i ;; if negb ok then reject r "method_not_found" else k.

Definition required (r : Request) (s : struct) (ok : fields → bool) (k : fields → prog unit) : prog unit :=
  match decodeRequiredParams (Params r) s with
  | Some p => if ok p then k p else reject r "invalid_request"
  | None => reject r "invalid_request"
  end.

(** Methods that only a peer with a verified identity may call. *)
Definition verified (identity : PeerIdentity) (r : Request) (k : prog unit) : prog unit :=
  if negb (Verified identity) then reject r "unauthorized" else k.

(** A read without parameters that fails only internally. *)
Definition plain_read (r : Request) (i : iface) (c : call) : prog unit :=
  no_params r (implemented r i (serve r c [] "internal_error")).

(** ** The handlers of the integrations *)

Definition secret_codes : list (list api_err * string) :=
  [([ErrSecretStore], "precondition_failed"); ([ErrUnavailable; ErrResponse], "unavailable")].

(** [writeAdGuardError] *)
Definition adguard_codes : list (list api_err * string) :=
  [([ErrEndpoint], "invalid_request"); ([ErrAlreadyConnected], "conflict"); ([ErrAuth], "precondition_failed");
   ([ErrVersion], "precondition_failed"); ([ErrNotRunning], "precondition_failed"); ([ErrNotConnected], "precondition_failed");
   ([ErrConnectionChanged], "precondition_failed"); ([ErrObservationScope], "precondition_failed");
   ([ErrObservationIngestion], "unavailable"); ([ErrObservationAudit], "audit_unconfirmed")] ++ secret_codes.

(** [writeOPNsenseError] *)
Definition opnsense_codes : list (list api_err * string) :=
  [([ErrObservationAudit], "audit_unconfirmed"); ([ErrEndpoint; ErrTrust], "invalid_request"); ([ErrAlreadyConnected], "conflict");
   ([ErrAuth], "precondition_failed"); ([ErrVersion], "precondition_failed"); ([ErrNotConnected], "precondition_failed");
   ([ErrConnectionChanged], "precondition_failed"); ([ErrObservationScope], "precondition_failed");
   ([ErrObservationIngestion], "unavailable")] ++ secret_codes.

(** After the parameters: a longer deadline, and the call. *)
Definition integration (r : Request) (timeout : Duration) (c : call) (table : list (list api_err * string)) : prog unit :=
  u <~ SetDeadline timeout ;; serve r c table "internal_error".

Definition adguardRequestTimeout : Duration := 20 * Second.
Definition adguardCollectTimeout : Duration := 45 * Second.

Definition handleAdGuard (r : Request) : prog unit :=
  implemented r AdGuardHandler
    (if Method r == "adguard.connect" then
       required r AdGuardConnectParams (λ p, (get p "endpoint" != "") && Bool.eqb (get p "username" == "") (get p "password" == ""))
         (λ p, integration r adguardRequestTimeout (ConnectAdGuard p) adguard_codes)
     else if Method r == "adguard.collect" then
       required r AdGuardCollectParams (λ p, get p "scope_id" != "") (λ p, integration r adguardCollectTimeout (CollectAdGuard p) adguard_codes)
     else no_params r (integration r adguardRequestTimeout (if Method r == "adguard.status" then AdGuardStatus else DisconnectAdGuard) adguard_codes)).

Definition opnsenseRequestTimeout : Duration := 20 * Second.
Definition opnsenseCollectTimeout : Duration := 45 * Second.

Definition handleOPNsense (r : Request) : prog unit :=
  implemented r OPNsenseHandler
    (if Method r == "opnsense.connect" then
       required r OPNsenseConnectParams (λ p, (get p "endpoint" != "") && (get p "api_key" != "") && (get p "api_secret" != ""))
         (λ p, integration r opnsenseRequestTimeout (ConnectOPNsense p) opnsense_codes)
     else if Method r == "opnsense.collect" then
       required r OPNsenseCollectParams (λ p, (get p "scope_id" != "") && (get p "expected.endpoint" != "") && (get p "expected.interface.interface_name" != ""))
         (λ p, integration r opnsenseCollectTimeout (CollectOPNsense p) opnsense_codes)
     else no_params r (integration r opnsenseRequestTimeout (if Method r == "opnsense.status" then OPNsenseStatus else DisconnectOPNsense) opnsense_codes)).

Definition handleOPNsenseNeighbors (r : Request) : prog unit :=
  no_params r (implemented r OPNsenseNeighborHandler (u <~ SetDeadline (5 * Second) ;; serve r OPNsenseNeighbors [] "unavailable")).

(** ** Settings and histories *)

Definition text_of (name : string) (ms : list (string * content)) : string :=
  match member name ms with Some (VString s) => s | _ => "" end.

Definition settings_codes : list (list api_err * string) := [([ErrInvalidRead], "invalid_request")].

Definition resolver_fields : list (string * field) :=
  map (λ n, (n, FString)) ["endpoint"; "name"; "family"; "transport"; "query_type"; "expect"; "destination_scope"].
Definition https_fields : list (string * field) :=
  map (λ n, (n, FString)) ["endpoint"; "server_name"; "request_target"; "family"; "method"; "destination_policy"] ++ [("expected_status", FInt)].

(** The exact parameters of a settings method: the settings, a reference, or nothing. *)
Definition settings (r : Request) (save list_ retire plan : string) (saved : list (string * field)) (valid : string → bool)
    (Save : list (string * content) → call) (List : call) (Retire Plan : string → call) : prog unit :=
  let referenced := (Method r == retire) || (Method r == plan) in
  let fields := if Method r == save then saved else if referenced then [("selection_id", FString)] else [] in
  match decodeGatewayObject (Params r) fields with
  | None => reject r "invalid_request"
  | Some ms =>
      let id := text_of "selection_id" ms in
      if referenced && negb (valid id) then reject r "invalid_request"
      else
        serve r (if Method r == save then Save ms else if Method r == list_ then List else if Method r == retire then Retire id else Plan id)
          settings_codes "unavailable"
  end.

Definition resolverSettings (r : Request) : prog unit :=
  implemented r ResolverSettingsHandler
    (settings r "network-quality.resolver-save" "network-quality.resolver-list" "network-quality.resolver-retire" "network-quality.resolver-plan"
       resolver_fields ResolverSession.ValidResolverSelectionID SaveResolver ListResolvers RetireResolver PreviewResolver).

Definition httpsSettings (r : Request) : prog unit :=
  implemented r HTTPSSettingsHandler
    (settings r "network-quality.https-save" "network-quality.https-list" "network-quality.https-retire" "network-quality.https-plan"
       https_fields HTTPSSession.ValidHTTPSSelectionID SaveHTTPS ListHTTPSSettings RetireHTTPS PreviewHTTPS).

Definition read_codes : list (list api_err * string) := [([ErrInvalidRead], "invalid_request"); ([ErrReadTargetNotFound], "not_found")].

(** [gatewayrun.ValidRunID] and its like *)
Definition ValidRunID (id : string) : bool := MatchString (hex_regex 32) id.

(** [readGatewayHistory], [readResolverHistory], [readHTTPSHistory] *)
Definition read_history (r : Request) (i : iface) (History : string → call) : prog unit :=
  match (if llen (Params r) =? 0 then Some "" else
         ms ← decodeGatewayObject (Params r) [("run_id", FString)];
         let id := text_of "run_id" ms in if ValidRunID id then Some id else None) with
  | None => reject r "invalid_request"
  | Some run => implemented r i (serve r (History run) read_codes "internal_error")
  end.

Definition readQualityDiagnosis (r : Request) : prog unit :=
  if negb (llen (Params r) =? 0) then reject r "invalid_request"
  else implemented r QualityDiagnosisHandler (serve r QualityDiagnosis [([ErrReadTargetNotFound], "not_found")] "internal_error").

Definition readGatewayPlan (r : Request) : prog unit :=
  required r GatewayPlanParams (λ p, (get p "target" != "") && (slen (get p "target") <=? 15))
    (λ p, implemented r GatewayPlanHandler
       (serve r (PreviewGatewayCheck p) (read_codes ++ [([ErrGatewayPlanPrecondition], "precondition_failed")]) "internal_error")).

(** ** Devices and networks *)

Definition mutation_codes : list (list api_err * string) := [([ErrInvalidMutation], "invalid_request"); ([ErrMutationTargetNotFound], "not_found")].
Definition correction_codes : list (list api_err * string) := mutation_codes ++ [([ErrMutationConflict], "conflict")].
Definition control_codes : list (list api_err * string) :=
  [([ErrInvalidMutation], "invalid_request"); ([ErrMutationPrecondition], "precondition_failed"); ([ErrMutationConflict], "conflict")].

Definition acknowledge (r : Request) : prog unit :=
  implemented r ArrivalAcknowledgeHandler
    (required r ArrivalAcknowledgeParams (λ p, get p "finding_id" != "") (λ p, serve r (AcknowledgeArrivalFinding p) mutation_codes "internal_error")).

Definition device_detail (r : Request) : prog unit :=
  implemented r DeviceDetailHandler
    (required r DeviceDetailParams (λ p, get p "device_id" != "") (λ p, serve r (DeviceDetail p) read_codes "internal_error")).

Definition device_label (r : Request) : prog unit :=
  implemented r DeviceLabelHandler
    (required r DeviceLabelParams (λ p, (get p "device_id" != "") && is_some (p "label")) (λ p, serve r (LabelDevice p) mutation_codes "internal_error")).

Definition device_identity (r : Request) : prog unit :=
  implemented r DeviceIdentityHandler
    (if Method r == "device.merge" then
       required r DeviceMergeParams (λ p, (get p "source_device_id" != "") && (get p "target_device_id" != ""))
         (λ p, serve r (MergeDevices p) correction_codes "internal_error")
     else
       required r DeviceUnmergeParams (λ p, get p "source_device_id" != "") (λ p, serve r (UnmergeDevices p) correction_codes "internal_error")).

Definition device_split (r : Request) : prog unit :=
  implemented r DeviceSplitHandler
    (if Method r == "device.split" then
       required r DeviceSplitParams (λ p, (get p "source_device_id" != "") && (get p "observation_id" != ""))
         (λ p, serve r (SplitDeviceObservation p) correction_codes "internal_error")
     else
       required r DeviceUnsplitParams (λ p, get p "observation_id" != "") (λ p, serve r (UnsplitDeviceObservation p) correction_codes "internal_error")).

Definition network_enroll (r : Request) : prog unit :=
  implemented r NetworkEnrollHandler
    (required r NetworkEnrollParams (λ p, get p "interface_name" != "") (λ p, serve r (EnrollNetwork p) control_codes "internal_error")).

Definition network_retire (r : Request) : prog unit :=
  implemented r NetworkRetireHandler
    (required r NetworkRetireParams (λ p, get p "scope_id" != "") (λ p, serve r (RetireNetwork p) control_codes "internal_error")).

Definition device_watch (r : Request) : prog unit :=
  no_params r (implemented r DeviceWatchControlHandler
    (serve r (if Method r == "device-watch.enable" then EnableDeviceWatch else DisableDeviceWatch) control_codes "internal_error")).

(** ** The connection *)

(** The reads and the mutations that need no verified identity. *)
Definition dispatch_open (r : Request) : prog unit :=
  let m := Method r in
  if m == "status" then no_params r (serve_total r Status)
  else if m == "health" then no_params r (serve_total r Health)
  else if m == "storage.overview" then plain_read r StorageOverviewHandler StorageOverview
  else if m == "diagnostics.preview" then plain_read r DiagnosticsPreviewHandler DiagnosticsPreview
  else if m == "capabilities.list" then no_params r (serve_total r Capabilities)
  else if m == "devices.list" then plain_read r DeviceHandler Devices
  else if m == "device.merges" then plain_read r DeviceMergeListHandler DeviceMerges
  else if m == "device.splits" then plain_read r DeviceSplitHandler DeviceSplits
  else if m == "device.activity" then plain_read r DeviceActivityHandler DeviceActivity
  else if m == "findings.arrivals" then plain_read r ArrivalFindingsHandler ArrivalFindings
  else if m == "findings.arrival.acknowledge" then acknowledge r
  else if m == "device.detail" then device_detail r
  else if m == "device-watch.coverage" then plain_read r DeviceWatchCoverageHandler DeviceWatchCoverage
  else if m == "device.label" then device_label r
  else if (m == "device.merge") || (m == "device.unmerge") then device_identity r
  else if (m == "device.split") || (m == "device.unsplit") then device_split r
  else if m == "network-quality.gateway-plan" then readGatewayPlan r
  else if m == "network-quality.local" then plain_read r LocalNetworkQualityHandler LocalNetworkQuality
  else if m == "networks.list" then plain_read r NetworkHandler Networks
  else if m == "network.enroll" then network_enroll r
  else if m == "network.retire" then network_retire r
  else if (m == "device-watch.enable") || (m == "device-watch.disable") then device_watch r
  else reject r "method_not_found".

Definition one_in (m : string) (ms : list string) : bool := bool_decide (m ∈ ms).

Definition hand_over (k : session) (payload : list Z) (r : Request) : prog unit := u <~ Session k payload r ;; Ret tt.

(** The methods that need a verified identity. *)
Definition dispatch_verified (payload : list Z) (r : Request) : option (prog unit) :=
  let m := Method r in
  if one_in m ["adguard.connect"; "adguard.status"; "adguard.disconnect"; "adguard.collect"] then Some (handleAdGuard r)
  else if m == "opnsense.neighbors" then Some (handleOPNsenseNeighbors r)
  else if one_in m ["opnsense.connect"; "opnsense.status"; "opnsense.disconnect"; "opnsense.collect"] then Some (handleOPNsense r)
  else if m == "network-quality.https-check" then Some (hand_over HTTPSCheck payload r)
  else if m == "network-quality.resolver-check" then Some (hand_over ResolverCheck payload r)
  else if m == "network-quality.gateway-check" then Some (hand_over GatewayCheck payload r)
  else if m == "network-quality.diagnosis" then Some (readQualityDiagnosis r)
  else if m == "network-quality.resolver-history" then Some (read_history r ResolverHistoryHandler ResolverHistory)
  else if m == "network-quality.https-history" then Some (read_history r HTTPSHistoryHandler HTTPSHistory)
  else if m == "network-quality.gateway-history" then Some (read_history r GatewayHistoryHandler GatewayHistory)
  else if one_in m ["network-quality.https-save"; "network-quality.https-list"; "network-quality.https-retire"; "network-quality.https-plan"] then Some (httpsSettings r)
  else if one_in m ["network-quality.resolver-save"; "network-quality.resolver-list"; "network-quality.resolver-retire"; "network-quality.resolver-plan"] then Some (resolverSettings r)
  else None.

Definition dispatch (identity : PeerIdentity) (payload : list Z) (r : Request) : prog unit :=
  match dispatch_verified payload r with
  | Some p => verified identity r p
  | None => dispatch_open r
  end.

Definition anonymous (code : string) : prog unit := u <~ WriteError "" code ;; Ret tt.

(** [requestTimeout] *)
Definition requestTimeout : Duration := 5 * Second.

(** [handleConnContext], up to its deferred close *)
Definition converse : prog unit :=
  d <~ SetDeadline requestTimeout ;;
  peer <~ VerifyPeer ;;
  match peer with
  | None => anonymous "unauthorized"
  | Some identity =>
      if Verified identity && negb (UID identity =? euid) then anonymous "unauthorized"
      else
        x <~ ReadBytes ;;
        let '(payload, e) := (x : list Z * option read_err) in
        match e with
        | Some ReadFailed => anonymous "invalid_request"
        | _ =>
            if maxRequestBytes <? llen payload then anonymous "request_too_large"
            else match decode_request payload with
                 | None => anonymous "invalid_request"
                 | Some r =>
                     if Auth r != secret then reject r "unauthorized"
                     else if negb (Version r =? apiVersion) then reject r "version_mismatch"
                     else dispatch identity payload r
                 end
        end
  end.

Definition handleConn : prog unit := u <== converse ;; c <~ Close ;; Ret tt.

(** ** What a connection may do *)

(** The method that a call belongs to. *)
Definition call_method (c : call) : string :=
  match c with
  | Status => "status" | Health => "health" | Capabilities => "capabilities.list"
  | StorageOverview => "storage.overview" | DiagnosticsPreview => "diagnostics.preview" | Devices => "devices.list"
  | DeviceMerges => "device.merges" | DeviceSplits => "device.splits" | DeviceActivity => "device.activity" | ArrivalFindings => "findings.arrivals"
  | DeviceWatchCoverage => "device-watch.coverage" | Networks => "networks.list" | LocalNetworkQuality => "network-quality.local"
  | QualityDiagnosis => "network-quality.diagnosis"
  | AcknowledgeArrivalFinding _ => "findings.arrival.acknowledge" | DeviceDetail _ => "device.detail" | LabelDevice _ => "device.label"
  | MergeDevices _ => "device.merge" | UnmergeDevices _ => "device.unmerge"
  | SplitDeviceObservation _ => "device.split" | UnsplitDeviceObservation _ => "device.unsplit"
  | EnrollNetwork _ => "network.enroll" | RetireNetwork _ => "network.retire"
  | EnableDeviceWatch => "device-watch.enable" | DisableDeviceWatch => "device-watch.disable"
  | PreviewGatewayCheck _ => "network-quality.gateway-plan"
  | GatewayHistory _ => "network-quality.gateway-history" | ResolverHistory _ => "network-quality.resolver-history" | HTTPSHistory _ => "network-quality.https-history"
  | SaveResolver _ => "network-quality.resolver-save" | ListResolvers => "network-quality.resolver-list"
  | RetireResolver _ => "network-quality.resolver-retire" | PreviewResolver _ => "network-quality.resolver-plan"
  | SaveHTTPS _ => "network-quality.https-save" | ListHTTPSSettings => "network-quality.https-list"
  | RetireHTTPS _ => "network-quality.https-retire" | PreviewHTTPS _ => "network-quality.https-plan"
  | ConnectAdGuard _ => "adguard.connect" | AdGuardStatus => "adguard.status" | DisconnectAdGuard => "adguard.disconnect" | CollectAdGuard _ => "adguard.collect"
  | ConnectOPNsense _ => "opnsense.connect" | OPNsenseStatus => "opnsense.status" | DisconnectOPNsense => "opnsense.disconnect"
  | CollectOPNsense _ => "opnsense.collect" | OPNsenseNeighbors => "opnsense.neighbors"
  end.
Definition session_method (k : session) : string :=
  match k with
  | GatewayCheck => "network-quality.gateway-check" | ResolverCheck => "network-quality.resolver-check" | HTTPSCheck => "network-quality.https-check"
  end.

(** Calls that reach other systems, their settings or the evidence of active checks. *)
Definition privileged (c : call) : bool :=
  match c with
  | QualityDiagnosis | GatewayHistory _ | ResolverHistory _ | HTTPSHistory _ | SaveResolver _ | ListResolvers | RetireResolver _ | PreviewResolver _
  | SaveHTTPS _ | ListHTTPSSettings | RetireHTTPS _ | PreviewHTTPS _ | ConnectAdGuard _ | AdGuardStatus | DisconnectAdGuard | CollectAdGuard _
  | ConnectOPNsense _ | OPNsenseStatus | DisconnectOPNsense | CollectOPNsense _ | OPNsenseNeighbors => true
  | _ => false
  end.

(** Calls that name what they are about do name something. *)
Definition named (c : call) : Prop :=
  match c with
  | AcknowledgeArrivalFinding p => get p "finding_id" ≠ ""
  | DeviceDetail p => get p "device_id" ≠ ""
  | LabelDevice p => get p "device_id" ≠ "" ∧ p "label" ≠ None
  | MergeDevices p => get p "source_device_id" ≠ "" ∧ get p "target_device_id" ≠ ""
  | UnmergeDevices p => get p "source_device_id" ≠ ""
  | SplitDeviceObservation p => get p "source_device_id" ≠ "" ∧ get p "observation_id" ≠ ""
  | UnsplitDeviceObservation p => get p "observation_id" ≠ ""
  | EnrollNetwork p => get p "interface_name" ≠ ""
  | RetireNetwork p => get p "scope_id" ≠ ""
  | PreviewGatewayCheck p => get p "target" ≠ "" ∧ slen (get p "target") <= 15
  | GatewayHistory run | ResolverHistory run | HTTPSHistory run => run = "" ∨ ValidRunID run = true
  | RetireResolver id | PreviewResolver id => ResolverSession.ValidResolverSelectionID id = true
  | RetireHTTPS id | PreviewHTTPS id => HTTPSSession.ValidHTTPSSelectionID id = true
  | ConnectAdGuard p => get p "endpoint" ≠ "" ∧ (get p "username" = "" ↔ get p "password" = "")
  | CollectAdGuard p => get p "scope_id" ≠ ""
  | ConnectOPNsense p => get p "endpoint" ≠ "" ∧ get p "api_key" ≠ "" ∧ get p "api_secret" ≠ ""
  | CollectOPNsense p => get p "scope_id" ≠ "" ∧ get p "expected.endpoint" ≠ "" ∧ get p "expected.interface.interface_name" ≠ ""
  | _ => True
  end.

Definition total (c : call) : bool := match c with Status | Health | Capabilities => true | _ => false end.

(** Neither a call nor an answer. *)
Definition neutral (o : obs) : bool :=
  match o with Obs e _ => match e with VerifyPeer | SetDeadline _ | ReadBytes | Implements _ => true | _ => false end end.

(** What [dispatch] does for a request: it calls at most once and answers once. *)
Inductive tail (r : Request) (may : call → Prop) (over : session → Prop) : list obs → Prop :=
| tail_refused code : tail r may over [Obs (WriteError (ID r) code) tt]
| tail_failed c e code : may c → tail r may over [Obs (Call c) (Some e); Obs (WriteError (ID r) code) tt]
| tail_unencoded c e : may c → tail r may over [Obs (Call c) e; Obs Marshal false; Obs (WriteError (ID r) "internal_error") tt]
| tail_answered c e : may c → total c = true ∨ e = None → tail r may over [Obs (Call c) e; Obs Marshal true; Obs (WriteResult (ID r)) tt]
| tail_session k payload : over k → tail r may over [Obs (Session k payload r) tt].

(** Every run is of this shape, after steps that neither call nor answer. *)
Definition ends (r : Request) (may : call → Prop) (over : session → Prop) (before tr : list obs) : Prop :=
  ∃ setup end_, tr = before ++ setup ++ end_ ∧ forallb neutral setup = true ∧ tail r may over end_.
Definition tidy (r : Request) (may : call → Prop) (over : session → Prop) (p : prog unit) : Prop :=
  ∀ before, @wp _ _ _ history (λ _ _ _, True) _ p before (λ tr _, ends r may over before tr).

Section Tidy.
Context (r : Request) (may : call → Prop) (over : session → Prop).
Local Notation tidy := (tidy r may over).

Lemma tidy_step e k : (∀ a, neutral (Obs e a) = true) → (∀ a, tidy (k a)) → tidy (Do e k).
Proof.
  intros Hn Hk before a _. eapply wp_mono; [apply Hk|]. intros tr _ (setup & end_ & -> & Hs & Ht). exists (Obs e a :: setup), end_.
  split; [unfold gstep, history; by rewrite <- app_assoc|]. split; [cbn [forallb]; by rewrite Hn, Hs|done].
Qed.

Lemma tidy_tail before tr end_ : tr = before ++ end_ → tail r may over end_ → ends r may over before tr.
Proof. intros -> Ht. by exists [], end_. Qed.

Lemma tidy_reject code : tidy (reject r code).
Proof. intros before [] _. eapply tidy_tail; [done|]. constructor. Qed.

Lemma tidy_serve c table otherwise : may c → tidy (serve r c table otherwise).
Proof.
  intros Hc before. unfold serve. cbn [wp]. intros [e|] _; cbn [wp reject respond].
  - intros [] _. eapply tidy_tail; [unfold gstep, history; by rewrite <- !app_assoc|]. by constructor.
  - intros [] _ [] _; (eapply tidy_tail; [unfold gstep, history; by rewrite <- !app_assoc|]); [apply tail_answered; auto|by constructor].
Qed.

Lemma tidy_total c : may c → total c = true → tidy (serve_total r c).
Proof.
  intros Hc Ht before. unfold serve_total. cbn [wp respond]. intros e _ [] _; cbn [negb wp reject]; intros [] _;
    (eapply tidy_tail; [unfold gstep, history; by rewrite <- !app_assoc|]); [apply tail_answered; auto|by constructor].
Qed.

Lemma tidy_over k payload : over k → tidy (hand_over k payload r).
Proof. intros Hk before [] _. eapply tidy_tail; [done|]. by constructor. Qed.

Lemma tidy_no_params p : tidy p → tidy (no_params r p).
Proof. intros Hp. unfold no_params. case_match; [apply tidy_reject|done]. Qed.

Lemma tidy_implemented i p : tidy p → tidy (implemented r i p).
Proof. intros Hp. apply tidy_step; [done|]. intros []; [done|apply tidy_reject]. Qed.

Lemma tidy_required s ok k : (∀ p, ok p = true → tidy (k p)) → tidy (required r s ok k).
Proof. intros Hk. unfold required. destruct (decodeRequiredParams _ _) as [p|]; [|apply tidy_reject]. destruct (ok p) eqn:E; [by apply Hk|apply tidy_reject]. Qed.

Lemma tidy_integration timeout c table : may c → tidy (integration r timeout c table).
Proof. intros Hc. apply tidy_step; [done|]. intros _. by apply tidy_serve. Qed.

Lemma tidy_plain i c : may c → tidy (plain_read r i c).
Proof. intros Hc. by apply tidy_no_params, tidy_implemented, tidy_serve. Qed.

End Tidy.
(** A call for the method of the request, about something, by a peer who may. *)
Definition permitted (identity : PeerIdentity) (r : Request) (c : call) : Prop :=
  call_method c = Method r ∧ named c ∧ (privileged c = true → Verified identity = true).
Definition handed (identity : PeerIdentity) (r : Request) (k : session) : Prop := session_method k = Method r ∧ Verified identity = true.

(** The branches on the method, and the handlers below them. *)
Ltac branch := match goal with |- context [if ?b then _ else _] => let E := fresh "E" in destruct b eqn:E end.
Ltac handler := first
  [ apply tidy_reject | apply tidy_no_params | apply tidy_implemented | apply tidy_plain | apply tidy_serve | apply tidy_total
  | apply tidy_integration | apply tidy_over | (apply tidy_required; intros ? ?) ].
(** What the guards and the branches say of a call. *)
Ltac permit := first [done | unfold permitted, handed; cbn [call_method session_method privileged named]; try unfold one_in in *; go_bool; repeat split; try done; try congruence].

Lemma open_tidy identity r over : tidy r (permitted identity r) over (dispatch_open r).
Proof.
  unfold dispatch_open.
  cbv delta [acknowledge device_detail device_label device_identity device_split readGatewayPlan network_enroll network_retire device_watch]; cbv beta.
  repeat (branch; [repeat (handler || branch); permit|]).
  { intros E'. by rewrite E' in *. }
  1-3: match goal with H : _ ∨ _ |- _ => destruct H as [H|H]; [done|by apply bool_decide_eq_true_1 in H as ->] end.
  apply tidy_reject.
Qed.

Lemma history_tidy identity r over i History :
  (∀ run, call_method (History run) = Method r ∧ (named (History run) ↔ run = "" ∨ ValidRunID run = true)) → Verified identity = true →
  tidy r (permitted identity r) over (read_history r i History).
Proof.
  intros Hh Hv. unfold read_history.
  assert (Hserve : ∀ run, run = "" ∨ ValidRunID run = true → tidy r (permitted identity r) over (implemented r i (serve r (History run) read_codes "internal_error"))).
  { intros run Hr. apply tidy_implemented, tidy_serve. destruct (Hh run) as [Hm Hn]. split_and!; [done|by apply Hn|done]. }
  destruct (llen (Params r) =? 0); [apply Hserve; by left|]. destruct (decodeGatewayObject _ _) as [ms|]; cbn [mbind option_bind]; [|apply tidy_reject].
  destruct (ValidRunID _) eqn:E; [apply Hserve; by right|apply tidy_reject].
Qed.

Lemma settings_tidy identity r over save list_ retire plan saved valid Save List Retire Plan :
  Verified identity = true → Method r ∈ [save; list_; retire; plan] →
  (∀ ms, call_method (Save ms) = save ∧ named (Save ms)) → call_method List = list_ ∧ named List →
  (∀ id, call_method (Retire id) = retire ∧ (valid id = true → named (Retire id))) →
  (∀ id, call_method (Plan id) = plan ∧ (valid id = true → named (Plan id))) →
  tidy r (permitted identity r) over (settings r save list_ retire plan saved valid Save List Retire Plan).
Proof.
  intros Hv Hm Hsave Hlist Hretire Hplan. unfold settings. destruct (decodeGatewayObject _ _) as [ms|]; [|apply tidy_reject].
  destruct (_ && _) eqn:E; [apply tidy_reject|]. apply tidy_serve. set (id := text_of _ _) in *. rewrite !elem_of_cons, elem_of_nil in Hm. unfold permitted.
  assert (Hid : Method r = retire ∨ Method r = plan → valid id = true).
  { intros Hr. rewrite andb_false_iff, orb_false_iff, negb_false_iff in E. destruct E as [[E1 E2]|E]; [|done]. go_bool. naive_solver. }
  clear E. destruct (bool_decide_reflect (Method r = save)) as [->|H1]; [destruct (Hsave ms); naive_solver|].
  destruct (bool_decide_reflect (Method r = list_)) as [->|H2]; [destruct Hlist; naive_solver|].
  destruct (bool_decide_reflect (Method r = retire)) as [->|H3]; [destruct (Hretire id); naive_solver|destruct (Hplan id); naive_solver].
Qed.

Lemma both_empty (a b : string) : Bool.eqb (a == "") (b == "") = true → a = "" ↔ b = "".
Proof. intros H%eqb_prop. by rewrite <- (bool_decide_eq_true (a = "")), H, bool_decide_eq_true. Qed.

Lemma verified_tidy identity payload r p :
  Verified identity = true → dispatch_verified payload r = Some p → tidy r (permitted identity r) (handed identity r) p.
Proof.
  intros Hv. unfold dispatch_verified, handleAdGuard, handleOPNsenseNeighbors, handleOPNsense, readQualityDiagnosis, httpsSettings, resolverSettings.
  repeat (branch; [intros [= <-]|]); [..|done].
  all: repeat first [apply history_tidy; [intros run; split; [by go_bool|done]|done] | apply tidy_implemented, settings_tidy; [..|by intros; cbn; auto|by intros; cbn; auto|by intros; cbn; auto|by intros; cbn; auto] | handler | branch | apply tidy_step; [done|intros _]].
  all: try permit.
  1,2: match goal with H : _ = true |- _ => apply both_empty in H; apply H end.
  all: match goal with H : Method _ ∈ _ |- _ => rewrite !elem_of_cons, elem_of_nil in H; repeat (destruct H as [H|H]; [first [done|by rewrite H in *]|]); done end.
Qed.

Lemma dispatch_tidy identity payload r : tidy r (permitted identity r) (handed identity r) (dispatch identity payload r).
Proof.
  unfold dispatch. destruct (dispatch_verified payload r) as [p|] eqn:E; [|apply open_tidy]. unfold verified.
  destruct (Verified identity) eqn:Hv; cbn [negb]; [by eapply verified_tidy|apply tidy_reject].
Qed.

(** The peer and the request that the server has authenticated. *)
Record authentic (setup : list obs) (identity : PeerIdentity) (payload : list Z) (r : Request) : Prop := {
  au_peer : Obs VerifyPeer (Some identity) ∈ setup;
  au_user : Verified identity = true → UID identity = euid;
  au_read : ∃ e, Obs ReadBytes (payload, e) ∈ setup ∧ e ≠ Some ReadFailed;
  au_size : llen payload <= maxRequestBytes;
  au_request : decode_request payload = Some r;
  au_secret : Auth r = secret;
  au_version : Version r = apiVersion;
}.

(** How a connection ends: refused, or with the one call and the one answer of its request. *)
Inductive ending (setup : list obs) : list obs → Prop :=
| ending_refused id code : ending setup [Obs (WriteError id code) tt]
| ending_dispatched identity payload r end_ :
    authentic setup identity payload r → tail r (permitted identity r) (handed identity r) end_ → ending setup end_.

(** The three steps before the request is decoded. *)
Definition opening (identity : PeerIdentity) (payload : list Z) (e : option read_err) : list obs :=
  [Obs (SetDeadline requestTimeout) tt; Obs VerifyPeer (Some identity); Obs ReadBytes (payload, e)].

Lemma authentic_opening identity payload e r setup :
  Verified identity && negb (UID identity =? euid) = false → e ≠ Some ReadFailed → llen payload <= maxRequestBytes →
  decode_request payload = Some r → (Auth r != secret) = false → negb (Version r =? apiVersion) = false →
  authentic (opening identity payload e ++ setup) identity payload r.
Proof.
  intros Hu He Hl Hd Ha Hv. constructor; try done.
  - apply elem_of_app; left. unfold opening. rewrite !elem_of_cons. auto.
  - intros Hid. rewrite Hid in Hu. by apply Z.eqb_eq, negb_false_iff.
  - exists e. split; [|done]. apply elem_of_app; left. unfold opening. rewrite !elem_of_cons. auto.
  - by apply negb_false_iff, bool_decide_eq_true in Ha.
  - by apply Z.eqb_eq, negb_false_iff.
Qed.

(** A history that ends as a connection may. *)
Definition well_ended (tr : list obs) : Prop := ∃ setup end_, tr = setup ++ end_ ∧ forallb neutral setup = true ∧ ending setup end_.

Lemma refusal_ends before id code : forallb neutral before = true → well_ended (before ++ [Obs (WriteError id code) tt]).
Proof. intros Hb. exists before. eexists. split; [done|]. split; [done|constructor]. Qed.

Lemma dispatch_ends identity payload e r :
  (∀ setup, authentic (opening identity payload e ++ setup) identity payload r) →
  @wp _ _ _ history (λ _ _ _, True) _ (dispatch identity payload r) (opening identity payload e) (λ tr _, well_ended tr).
Proof.
  intros Ha. eapply wp_mono; [apply dispatch_tidy|]. intros tr _ (setup & end_ & -> & Hn & Ht). rewrite app_assoc.
  exists (opening identity payload e ++ setup), end_. split; [done|]. split; [by rewrite forallb_app, Hn|]. by eapply ending_dispatched.
Qed.

Lemma converse_ends : @wp _ _ _ history (λ _ _ _, True) _ converse [] (λ tr _, well_ended tr).
Proof.
  unfold converse. cbn [wp]. intros [] _ [identity|] _; [|intros [] _; by apply refusal_ends].
  destruct (Verified identity && _) eqn:Hu; [intros [] _; by apply refusal_ends|]. cbn [wp]. intros [payload e] _.
  change (gstep _ ReadBytes _) with (opening identity payload e). destruct e as [[]|] eqn:Ee; [|intros [] _; by apply refusal_ends|].
  all: destruct (Z.ltb_spec maxRequestBytes (llen payload)) as [|Hlen]; [intros [] _; by apply refusal_ends|].
  all: destruct (decode_request payload) as [r|] eqn:Hd; [|intros [] _; by apply refusal_ends].
  all: destruct (Auth r != secret) eqn:Ha; [intros [] _; by apply refusal_ends|].
  all: destruct (negb (Version r =? apiVersion)) eqn:Hver; [intros [] _; by apply refusal_ends|].
  all: apply dispatch_ends; intros setup; by apply authentic_opening.
Qed.

(** C39: A connection to the local API, whatever the handler, the peer and the wire do, ends
    in one way: after steps that neither call the handler nor answer, it is refused with
    one error response, or it makes at most one call of the handler and writes one answer
    (a result only when the call succeeded and was encoded), or it is handed over to one
    consent session; and then it is closed.  A call or a session happens only after the
    peer was identified (with the server's own user if the identity is verified), a
    request of at most 64 KiB was read and decoded, and its secret and version are the
    server's; the call belongs to the method of the request and names its target; and
    calls that reach other systems, their settings or the evidence of active checks, and
    the consent sessions, happen only for a verified identity. *)
Theorem api_gated tr u :
  run handleConn tr u → ∃ setup end_, tr = setup ++ end_ ++ [Obs Close tt] ∧ forallb neutral setup = true ∧ ending setup end_.
Proof.
  intros Hr. apply (history_run _ _ _ (λ tr _, ∃ setup end_, tr = setup ++ end_ ++ [Obs Close tt] ∧ forallb neutral setup = true ∧ ending setup end_) Hr). clear Hr tr u.
  unfold handleConn. apply wp_bind. eapply wp_mono; [apply converse_ends|].
  intros g _ (setup & end_ & -> & Hn & He). cbn [wp]. intros [] _. exists setup, end_. unfold gstep, history. by rewrite <- app_assoc.
Qed.

End Server.

(** ** A connection that asks for the state of the AdGuard integration *)

(** Requests without parameters, decoded by the object decoder of the sessions. *)
Definition sample_decode (payload : list Z) : option Request :=
  ms ← decodeGatewayObject payload [("version", FInt); ("id", FString); ("method", FString); ("auth", FString)];
  match member "version" ms with
  | Some (VInt v) => Some (mkRequest v (text_of "id" ms) (text_of "method" ms) (text_of "auth" ms) [])
  | _ => None
  end.

(** The text of a request, with quotes for its apostrophes. *)
Definition sample_payload : list Z :=
  map (λ c, if c =? 39 then 34 else c) (sbytes "{'version':1,'id':'7','method':'adguard.status','auth':'open sesame'}").

Definition sample_answers (w : unit) (g : list (@Effects.obs effect answer)) (e : effect) : answer e * unit :=
  (match e return answer e with
   | VerifyPeer => Some (mkPeerIdentity 501 true)
   | ReadBytes => (sample_payload, None)
   | Implements _ | Marshal => true
   | Call _ => None
   | SetDeadline _ | Session _ _ _ | WriteError _ _ | WriteResult _ | Close => tt
   end, w).

Definition sample_conn := handleConn "open sesame" 501 sample_decode (λ _ _, None).
Definition sample_trace : list (@Effects.obs effect answer) :=
  [Obs (SetDeadline (5 * Second)) tt; Obs VerifyPeer (Some (mkPeerIdentity 501 true)); Obs ReadBytes (sample_payload, None);
   Obs (Implements AdGuardHandler) true; Obs (SetDeadline (20 * Second)) tt; Obs (Call AdGuardStatus) None;
   Obs Marshal true; Obs (WriteResult "7") tt; Obs Close tt].

Lemma sample_conn_run : run sample_conn sample_trace tt.
Proof. apply (@drive_run _ _ _ _ history sample_answers _ _ tt [] _ _ tt). vm_compute. reflexivity. Qed.

Lemma api_gated_witness :
  ∃ setup end_, sample_trace = setup ++ end_ ++ [Obs Close tt] ∧ forallb neutral setup = true ∧ ending "open sesame" 501 sample_decode setup end_.
Proof. exact (api_gated "open sesame" 501 sample_decode (λ _ _, None) sample_trace tt sample_conn_run). Defined.

End APIServer.
