(* ===== verification/StorageHealth.v ===== *)
(** * Health of the store

    [storage/health.go], [storage/filesystem_capacity.go], [storage/ingestion_latency.go] and
    [storage/ingestion_health.go]: how full the database and its volume are, how long
    accepted evidence takes to become durable, and what the ingestion pipeline reports of
    itself.  The figures SQLite and the file system give are arguments. *)

From S2P Require Import Prelude GoTime.

Module StorageHealth.

Definition HealthState := string.
Definition HealthCurrent : HealthState := "current".
Definition HealthPressure : HealthState := "pressure".
Definition HealthAtQuota : HealthState := "at-quota".
Definition HealthFilesystemPressure : HealthState := "filesystem-pressure".
Definition HealthFilesystemFull : HealthState := "filesystem-full".

Definition FilesystemCapacityState := string.
Definition FilesystemCapacityUnavailable : FilesystemCapacityState := "unavailable".
Definition FilesystemCapacityCurrent : FilesystemCapacityState := "current".
Definition FilesystemCapacityPressure : FilesystemCapacityState := "pressure".
Definition FilesystemCapacityFull : FilesystemCapacityState := "full".

Definition filesystemPressureThresholdBytes : Z := Z.shiftl 128 20.

Record FilesystemCapacity := mkCapacity {
  Supported : bool; fState : FilesystemCapacityState; TotalBytes : Z; AvailableBytes : Z; PressureAtBytes : Z }.

Definition classifyFilesystemCapacity (supported : bool) (totalBytes availableBytes : Z) : FilesystemCapacity :=
  let capacity state := mkCapacity supported state totalBytes availableBytes filesystemPressureThresholdBytes in
  if negb supported then capacity FilesystemCapacityUnavailable
  else if (totalBytes <=? 0) || (availableBytes <? 0) || (totalBytes <? availableBytes) then capacity FilesystemCapacityUnavailable
  else if availableBytes =? 0 then capacity FilesystemCapacityFull
  else if availableBytes <=? filesystemPressureThresholdBytes then capacity FilesystemCapacityPressure
  else capacity FilesystemCapacityCurrent.

(** Division of signed integers truncates towards zero. *)
Definition classifyStorageHealth (usedBytes maxBytes : Z) : HealthState :=
  if maxBytes <=? 0 then HealthAtQuota
  else if maxBytes <=? usedBytes then HealthAtQuota
  else if maxBytes - Z.quot maxBytes 10 <=? usedBytes then HealthPressure
  else HealthCurrent.

Record Health := mkHealth {
  hState : HealthState; QuotaState : HealthState; DatabaseBytes : Z; UsedBytes : Z; ReusableBytes : Z; MaxBytes : Z;
  FilesystemState : FilesystemCapacityState; FilesystemSupported : bool; FilesystemTotalBytes : Z; FilesystemAvailableBytes : Z;
  FilesystemPressureAtBytes : Z }.

(** The four numbers SQLite is asked for. *)
Record pragmas := mkPragmas { pageCount : Z; freePages : Z; pageSize : Z; maxPages : Z }.

(** [Store.Health]: [answer] is [None] when a query fails, [filesystem] when the volume cannot
    be inspected.  Products of 64-bit integers wrap around. *)
Definition StoreHealth (available : bool) (answer : option pragmas) (filesystem : option FilesystemCapacity) : result string Health :=
  guard? negb available else "storage is unavailable" in
  match answer with
  | None => Err "read storage health"
  | Some q =>
      guard? (pageSize q <=? 0) || (maxPages q <=? 0) || (freePages q <? 0) || (pageCount q <? freePages q)
      else "storage quota metadata is invalid" in
      let allocated := int64_wrap (pageCount q * pageSize q) in
      let reusable := int64_wrap (freePages q * pageSize q) in
      let used := int64_wrap ((pageCount q - freePages q) * pageSize q) in
      let maxBytes := int64_wrap (maxPages q * pageSize q) in
      let quotaState := classifyStorageHealth used maxBytes in
      let filesystem := default (classifyFilesystemCapacity true 0 0) filesystem in
      let state :=
        if Supported filesystem then
          if fState filesystem == FilesystemCapacityFull then HealthFilesystemFull
          else if fState filesystem == FilesystemCapacityPressure then
            if quotaState != HealthAtQuota then HealthFilesystemPressure else quotaState
          else quotaState
        else quotaState in
      Ok (mkHealth state quotaState allocated used reusable maxBytes (fState filesystem) (Supported filesystem) (TotalBytes filesystem)
            (AvailableBytes filesystem) (PressureAtBytes filesystem))
  end.

(** ** Latency *)

Definition ingestionLatencyThreshold : Duration := 5 * Second.
Definition ingestionLatencyFreshnessWindow : Duration := Minute.
Definition ingestionSlowStreakThreshold : Z := 3.

Definition IngestionLatencyState := string.
Definition IngestionLatencyIdle : IngestionLatencyState := "idle".
Definition IngestionLatencyCurrent : IngestionLatencyState := "current".
Definition IngestionLatencyLagging : IngestionLatencyState := "lagging".

Record ingestionLatencySnapshot := mkSnapshot {
  lState : IngestionLatencyState; Threshold : Duration; lPending : Z; lOldestPendingAge : Duration; lLastDurableLatency : Duration;
  lLastQueueWait : Duration; lLastProcessingDuration : Duration; lLastCompletedAt : Time; lSlowStreak : Z }.

(** The receipts that are not complete, by the address of their state. *)
Record ingestionLatencyTracker := mkTracker {
  pending : gmap nat Time; lastDurableLatency : Duration; lastQueueWait : Duration; lastProcessingDuration : Duration;
  lastCompletedAt : Time; slowStreak : Z }.

Definition newIngestionLatencyTracker : ingestionLatencyTracker := mkTracker ∅ 0 0 0 zeroTime 0.

Definition nonNegativeDuration (value : Duration) : Duration := if value <? 0 then 0 else value.

(** [receipt] is [None] for a nil pointer. *)
Definition accept (t : ingestionLatencyTracker) (receipt : option nat) (at_ : Time) : ingestionLatencyTracker :=
  match receipt with
  | None => t
  | Some r => mkTracker (<[r := at_]> (pending t)) (lastDurableLatency t) (lastQueueWait t) (lastProcessingDuration t) (lastCompletedAt t) (slowStreak t)
  end.

(** The streak after the gap check, and after the new latency. *)
Definition next_streak (t : ingestionLatencyTracker) (completedAt : Time) (latency : Duration) : Z :=
  let streak :=
    if negb (IsZero (lastCompletedAt t)) then
      let gap := Sub completedAt (lastCompletedAt t) in
      if (gap <? 0) || (ingestionLatencyFreshnessWindow <? gap) then 0 else slowStreak t
    else slowStreak t in
  if ingestionLatencyThreshold <=? latency then streak + 1 else 0.

Definition complete (t : ingestionLatencyTracker) (receipt : nat) (acceptedAt startedAt completedAt : Time) (durable : bool)
  : ingestionLatencyTracker :=
  let waiting := delete receipt (pending t) in
  if negb durable
  then mkTracker waiting (lastDurableLatency t) (lastQueueWait t) (lastProcessingDuration t) (lastCompletedAt t) (slowStreak t)
  else
    let queueWait := nonNegativeDuration (Sub startedAt acceptedAt) in
    let processing := nonNegativeDuration (Sub completedAt startedAt) in
    let latency := nonNegativeDuration (Sub completedAt acceptedAt) in
    mkTracker waiting latency queueWait processing completedAt (next_streak t completedAt latency).

Definition oldest_age (now : Time) (waiting : gmap nat Time) : Duration :=
  foldl (λ oldest at_, let age := nonNegativeDuration (Sub now at_) in if oldest <? age then age else oldest) 0 (map snd (map_to_list waiting)).

Definition snapshot (t : option ingestionLatencyTracker) (now : Time) : ingestionLatencySnapshot :=
  match t with
  | None => mkSnapshot IngestionLatencyIdle ingestionLatencyThreshold 0 0 0 0 0 zeroTime 0
  | Some t =>
      let count := Z.of_nat (size (pending t)) in
      let oldest := oldest_age now (pending t) in
      let result state := mkSnapshot state ingestionLatencyThreshold count oldest (lastDurableLatency t) (lastQueueWait t)
                            (lastProcessingDuration t) (lastCompletedAt t) (slowStreak t) in
      if (0 <? count) && (ingestionLatencyThreshold <=? oldest) then result IngestionLatencyLagging
      else
        let state := if 0 <? count then IngestionLatencyCurrent else IngestionLatencyIdle in
        if negb (IsZero (lastCompletedAt t)) then
          let age := Sub now (lastCompletedAt t) in
          if (0 <=? age) && (age <=? ingestionLatencyFreshnessWindow) then
            if ingestionSlowStreakThreshold <=? slowStreak t then result IngestionLatencyLagging
            else if state == IngestionLatencyIdle then result IngestionLatencyCurrent
            else result state
          else result state
        else result state
  end.

(** ** The pipeline *)

Definition IngestionHealthState := string.
Definition IngestionHealthCurrent : IngestionHealthState := "current".
Definition IngestionHealthLagging : IngestionHealthState := "lagging".
Definition IngestionHealthBackpressure : IngestionHealthState := "backpressure".
Definition IngestionHealthWriteFailed : IngestionHealthState := "write-failed".
Definition IngestionHealthStorageFull : IngestionHealthState := "storage-full".
Definition IngestionHealthClosing : IngestionHealthState := "closing".
Definition IngestionHealthClosed : IngestionHealthState := "closed".

Definition IngestionFailureWriteFailed : string := "write-failed".
Definition IngestionFailureSQLiteFull : string := "sqlite-full".

Record IngestionStats := mkStats {
  Capacity : Z; Depth : Z; Accepted : Z; Processed : Z; Deduplicated : Z; Rejected : Z; Dropped : Z; Failed : Z;
  Closing : bool; Closed : bool }.

Record IngestionHealth := mkIngestionHealth {
  iState : IngestionHealthState; FailureClass : string; iCapacity : Z; iDepth : Z; QueuePressure : bool; iAccepted : Z; iProcessed : Z;
  iDropped : Z; iFailed : Z; LatencyState : IngestionLatencyState; LatencyThreshold : Duration; Pending : Z; OldestPendingAge : Duration;
  LastDurableLatency : Duration; LastQueueWait : Duration; LastProcessingDuration : Duration; LastCompletedAt : Time; SlowStreak : Z }.

(** A zero value with the given state, as [IngestionHealth{State: ...}]. *)
Definition zeroIngestionHealth (state : IngestionHealthState) (latency : IngestionLatencyState) : IngestionHealth :=
  mkIngestionHealth state "" 0 0 false 0 0 0 0 latency 0 0 0 0 0 0 zeroTime 0.

(** [Ingestor.Health] of what it reads under its locks: the counters, the latency snapshot and
    the episode flags. *)
Definition ingestion_health (stats : IngestionStats) (latency : ingestionLatencySnapshot) (overflowActive failureActive : bool)
    (failureClass : string) : IngestionHealth :=
  let state :=
    if Closed stats then IngestionHealthClosed
    else if Closing stats then IngestionHealthClosing
    else if failureActive && (failureClass == IngestionFailureSQLiteFull) then IngestionHealthStorageFull
    else if failureActive then IngestionHealthWriteFailed
    else if overflowActive then IngestionHealthBackpressure
    else if lState latency == IngestionLatencyLagging then IngestionHealthLagging
    else IngestionHealthCurrent in
  mkIngestionHealth state failureClass (Capacity stats) (Depth stats) ((0 <? Capacity stats) && (Capacity stats * 3 <=? Depth stats * 4))
    (Accepted stats) (Processed stats) (Dropped stats) (Failed stats) (lState latency) (Threshold latency) (lPending latency)
    (lOldestPendingAge latency) (lLastDurableLatency latency) (lLastQueueWait latency) (lLastProcessingDuration latency)
    (lLastCompletedAt latency) (lSlowStreak latency).

(** The extended result code of an error that carries one; [SQLITE_FULL] is 13. *)
Definition classifyIngestionFailure (code : option Z) : string :=
  match code with
  | Some c => if Z.land c 255 =? 13 then IngestionFailureSQLiteFull else IngestionFailureWriteFailed
  | None => IngestionFailureWriteFailed
  end.

End StorageHealth.
