(* ===== verification/Ingest.v ===== *)
(** * The ingestion queue

    [storage/ingestion.go]: submitters put evidence into a bounded queue, one worker makes it
    durable and publishes the outcome on the receipt, and [Close] lets the queue drain.  The
    model interleaves any number of submissions, the worker and the closing goroutine, one
    atomic section (a mutex section, a channel operation, a call of the sink) at a time.  The
    clock, the answers of the sink, the cancellation of contexts and the choice of a [select]
    are arbitrary; copying the values of an item is the identity here. *)

From S2P Require Import Prelude GoTime Manifest Domain StorageHealth.

Module Ingest.
Import Domain StorageHealth.

Definition DefaultIngestionCapacity : Z := 256.
Definition MaxIngestionCapacity : Z := 8192.
(** The capacity of [eventQueue]. *)
Definition eventCapacity : nat := 8.

Definition IngestionKind := string.
Definition IngestionObservation : IngestionKind := "observation".
Definition IngestionIdentityClaim : IngestionKind := "identity-claim".
Definition IngestionCoverage : IngestionKind := "coverage-sample".
Definition IngestionFinding : IngestionKind := "finding".
Definition IngestionAudit : IngestionKind := "audit-event".

Inductive ingestionItem :=
| ObservationItem (o : Observation) (checkpoint : option IngestionCheckpoint)
| ClaimItem (c : IdentityClaim)
| CoverageItem (s : CoverageSample)
| FindingItem (f : Finding)
| AuditItem (e : AuditEvent).

Definition kind (item : ingestionItem) : IngestionKind :=
  match item with
  | ObservationItem _ _ => IngestionObservation
  | ClaimItem _ => IngestionIdentityClaim
  | CoverageItem _ => IngestionCoverage
  | FindingItem _ => IngestionFinding
  | AuditItem _ => IngestionAudit
  end.

Record IngestionResult := mkResult { Kind : IngestionKind; Inserted : bool }.

(** An error of the sink: the result code it carries, if it is one of SQLite. *)
Definition sink_error := option Z.

(** What the sink answers; [ingestObservation] is [None] for a sink without it. *)
Record sink_answers := mkSink {
  ingestObservation : option (bool * option sink_error);
  InsertObservation : bool * option sink_error;
  SaveCheckpoint : option sink_error;
  insert : option sink_error;
}.

Definition process (sink : sink_answers) (item : ingestionItem) : IngestionResult * option sink_error :=
  match item with
  | ObservationItem _ checkpoint =>
      match ingestObservation sink with
      | Some (inserted, e) => (mkResult (kind item) inserted, e)
      | None =>
          let '(inserted, e) := InsertObservation sink in
          match e with
          | Some _ => (mkResult (kind item) inserted, e)
          | None => (mkResult (kind item) inserted, if is_some checkpoint then SaveCheckpoint sink else None)
          end
      end
  | _ => (mkResult (kind item) true, insert sink)
  end.

(** ** Items *)

Section Items.
Context (lower_or_digit : Z → bool).

Definition newObservationItem (o : Observation) (checkpoint : option IngestionCheckpoint) : result string ingestionItem :=
  check? ValidateObservation lower_or_digit o in
  match checkpoint with
  | None => Ok (ObservationItem o None)
  | Some c =>
      check? ValidateCheckpoint c in
      guard? (chSensorID c != obSensorID o) || (StreamID c != SourceStream o)
      else "observation checkpoint must match sensor_id and source_stream" in
      Ok (ObservationItem o (Some c))
  end.

(** What the five calls hand to [submit]: the item or the error that rejects it. *)
Definition SubmitObservation := newObservationItem.
Definition SubmitIdentityClaim (c : IdentityClaim) : result string ingestionItem :=
  check? ValidateIdentityClaim c in Ok (ClaimItem c).
Definition SubmitCoverageSample (s : CoverageSample) : result string ingestionItem :=
  check? ValidateCoverageSample lower_or_digit s in Ok (CoverageItem s).
Definition SubmitFinding (f : Finding) : result string ingestionItem :=
  check? ValidateFinding lower_or_digit f in Ok (FindingItem f).
Definition SubmitAuditEvent (e : AuditEvent) : result string ingestionItem :=
  check? ValidateAuditEvent lower_or_digit e in Ok (AuditItem e).

End Items.

(** ** The shared state *)

(** A receipt: whether [accepted] is closed, and the outcome once [ready] is closed. *)
Record receiptState := mkReceipt { accepted : bool; acceptedAt : Time; outcome : option (IngestionResult * option sink_error) }.

Record Ingestor := mkIngestor {
  capacity : nat;                          (* cap(i.queue) *)
  queue : list (nat * ingestionItem);      (* i.queue, oldest first *)
  queueClosed : bool;                      (* close(i.queue) *)
  eventQueue : list string;                (* i.eventQueue *)
  closing : bool;
  closed : bool;
  submitters : nat;                        (* the WaitGroup *)
  stats : IngestionStats;
  latency : ingestionLatencyTracker;
  overflowActive : bool;
  failureActive : bool;
  failureClass : string;
  receipts : gmap nat receiptState;        (* the heap of receipts *)
  next : nat;                              (* the next fresh address *)
  sent : list nat;                         (* every receipt sent to the queue, in order *)
  finished : list nat;                     (* every receipt made ready, in order *)
}.

Definition with_queue q s := mkIngestor (capacity s) q (queueClosed s) (eventQueue s) (closing s) (closed s) (submitters s) (stats s)
  (latency s) (overflowActive s) (failureActive s) (failureClass s) (receipts s) (next s) (sent s) (finished s).
Definition with_queueClosed b s := mkIngestor (capacity s) (queue s) b (eventQueue s) (closing s) (closed s) (submitters s) (stats s)
  (latency s) (overflowActive s) (failureActive s) (failureClass s) (receipts s) (next s) (sent s) (finished s).
Definition with_events e s := mkIngestor (capacity s) (queue s) (queueClosed s) e (closing s) (closed s) (submitters s) (stats s)
  (latency s) (overflowActive s) (failureActive s) (failureClass s) (receipts s) (next s) (sent s) (finished s).
Definition with_closing b s := mkIngestor (capacity s) (queue s) (queueClosed s) (eventQueue s) b (closed s) (submitters s) (stats s)
  (latency s) (overflowActive s) (failureActive s) (failureClass s) (receipts s) (next s) (sent s) (finished s).
Definition with_closed b s := mkIngestor (capacity s) (queue s) (queueClosed s) (eventQueue s) (closing s) b (submitters s) (stats s)
  (latency s) (overflowActive s) (failureActive s) (failureClass s) (receipts s) (next s) (sent s) (finished s).
Definition with_submitters n s := mkIngestor (capacity s) (queue s) (queueClosed s) (eventQueue s) (closing s) (closed s) n (stats s)
  (latency s) (overflowActive s) (failureActive s) (failureClass s) (receipts s) (next s) (sent s) (finished s).
Definition with_stats c s := mkIngestor (capacity s) (queue s) (queueClosed s) (eventQueue s) (closing s) (closed s) (submitters s) c
  (latency s) (overflowActive s) (failureActive s) (failureClass s) (receipts s) (next s) (sent s) (finished s).
Definition with_latency t s := mkIngestor (capacity s) (queue s) (queueClosed s) (eventQueue s) (closing s) (closed s) (submitters s) (stats s)
  t (overflowActive s) (failureActive s) (failureClass s) (receipts s) (next s) (sent s) (finished s).
Definition with_overflow b s := mkIngestor (capacity s) (queue s) (queueClosed s) (eventQueue s) (closing s) (closed s) (submitters s) (stats s)
  (latency s) b (failureActive s) (failureClass s) (receipts s) (next s) (sent s) (finished s).
Definition with_failure b c s := mkIngestor (capacity s) (queue s) (queueClosed s) (eventQueue s) (closing s) (closed s) (submitters s) (stats s)
  (latency s) (overflowActive s) b c (receipts s) (next s) (sent s) (finished s).
Definition with_receipts m s := mkIngestor (capacity s) (queue s) (queueClosed s) (eventQueue s) (closing s) (closed s) (submitters s) (stats s)
  (latency s) (overflowActive s) (failureActive s) (failureClass s) m (next s) (sent s) (finished s).
Definition with_next n s := mkIngestor (capacity s) (queue s) (queueClosed s) (eventQueue s) (closing s) (closed s) (submitters s) (stats s)
  (latency s) (overflowActive s) (failureActive s) (failureClass s) (receipts s) n (sent s) (finished s).
Definition with_sent l s := mkIngestor (capacity s) (queue s) (queueClosed s) (eventQueue s) (closing s) (closed s) (submitters s) (stats s)
  (latency s) (overflowActive s) (failureActive s) (failureClass s) (receipts s) (next s) l (finished s).
Definition with_finished l s := mkIngestor (capacity s) (queue s) (queueClosed s) (eventQueue s) (closing s) (closed s) (submitters s) (stats s)
  (latency s) (overflowActive s) (failureActive s) (failureClass s) (receipts s) (next s) (sent s) l.

(** [newIngestor]: the shared state, and the worker is started. *)
Definition newIngestor (present : bool) (size : Z) : result string Ingestor :=
  guard? negb present else "ingestion sink is required" in
  let size := if size =? 0 then DefaultIngestionCapacity else size in
  guard? (size <? 1) || (MaxIngestionCapacity <? size) else "ingestion capacity must be between 1 and 8192" in
  Ok (mkIngestor (Z.to_nat size) [] false [] false false 0 (mkStats size 0 0 0 0 0 0 0 false false) newIngestionLatencyTracker
        false false "" ∅ 0 [] []).

(** [Stats] and [Health] *)
Definition Stats (s : Ingestor) : IngestionStats :=
  let c := stats s in
  mkStats (Capacity c) (llen (queue s)) (Accepted c) (Processed c) (Deduplicated c) (Rejected c) (Dropped c) (Failed c) (closing s) (closed s).
Definition Health (s : Ingestor) (now : Time) : IngestionHealth :=
  ingestion_health (Stats s) (snapshot (Some (latency s)) (UTC now)) (overflowActive s) (failureActive s) (failureClass s).

(** ** Sections under a mutex *)

Definition count_accepted (c : IngestionStats) : IngestionStats :=
  mkStats (Capacity c) (Depth c) (Accepted c + 1) (Processed c) (Deduplicated c) (Rejected c) (Dropped c) (Failed c) (Closing c) (Closed c).
Definition count_rejected (c : IngestionStats) : IngestionStats :=
  mkStats (Capacity c) (Depth c) (Accepted c) (Processed c) (Deduplicated c) (Rejected c + 1) (Dropped c) (Failed c) (Closing c) (Closed c).
Definition count_dropped (c : IngestionStats) : IngestionStats :=
  mkStats (Capacity c) (Depth c) (Accepted c) (Processed c) (Deduplicated c) (Rejected c) (Dropped c + 1) (Failed c) (Closing c) (Closed c).
Definition count_failed (c : IngestionStats) : IngestionStats :=
  mkStats (Capacity c) (Depth c) (Accepted c) (Processed c) (Deduplicated c) (Rejected c) (Dropped c) (Failed c + 1) (Closing c) (Closed c).
Definition count_processed (r : IngestionResult) (c : IngestionStats) : IngestionStats :=
  mkStats (Capacity c) (Depth c) (Accepted c) (Processed c + 1)
    (if (Kind r == IngestionObservation) && negb (Inserted r) then Deduplicated c + 1 else Deduplicated c)
    (Rejected c) (Dropped c) (Failed c) (Closing c) (Closed c).

Definition noteAccepted (s : Ingestor) : Ingestor := with_stats (count_accepted (stats s)) s.
Definition noteRejected (s : Ingestor) : Ingestor := with_stats (count_rejected (stats s)) s.

(** [recordEpisode]: a full event queue drops the event. *)
Definition recordEpisode (event : string) (s : Ingestor) : Ingestor :=
  if (length (eventQueue s) <? eventCapacity)%nat then with_events (eventQueue s ++ [event]) s else s.

Definition beginSubmit (s : Ingestor) : option Ingestor :=
  if closing s || closed s then None else Some (with_submitters (S (submitters s)) s).

Definition maybeEndOverflowEpisode (s : Ingestor) : Ingestor :=
  if (capacity s / 2 <? length (queue s))%nat then s else with_overflow false s.

(** The item enters the queue with a fresh receipt. *)
Definition send (item : ingestionItem) (s : Ingestor) : Ingestor :=
  let r := next s in
  with_sent (sent s ++ [r]) (with_next (S r)
    (with_receipts (<[r := mkReceipt false zeroTime None]> (receipts s)) (with_queue (queue s ++ [(r, item)]) s))).

Definition update_receipt (r : nat) (f : receiptState → receiptState) (s : Ingestor) : Ingestor :=
  with_receipts (alter f r (receipts s)) s.

(** ** A submission *)

Inductive submit_error := Rejected_ | ContextEnded | IngestorClosed | QueueFull | Backpressure.

(** Where a submission is: after validation, [submit], [markAccepted], [noteDropped] and the
    deferred [submitters.Done]. *)
Inductive pc :=
| Entering (v : result string ingestionItem) (nonBlocking : bool)
| Checking (item : ingestionItem) (nonBlocking : bool)
| Beginning (item : ingestionItem) (nonBlocking : bool)
| Sending (item : ingestionItem) (nonBlocking : bool)
| Stamping (r : nat)
| Counting (r : nat)
| Opening (r : nat)
| DropCounting (e : submit_error)
| DropEpisode (e : submit_error)
| DropRecording (e : submit_error)
| Leaving (res : result submit_error nat)
| Returned (res : result submit_error nat)
| Panicked.

(** What the environment decides in a step: whether the context has ended (and the [select]
    takes that case), the clock, which ready case the worker takes and what the sink answers. *)
Record env := mkEnv { ended : bool; now : Time; takeEvent : bool; sink : sink_answers }.

Definition submit_step (e : env) (s : Ingestor) (p : pc) : option (Ingestor * pc) :=
  match p with
  | Entering (Err _) _ => Some (noteRejected s, Returned (Err Rejected_))
  | Entering (Ok item) nonBlocking => Some (s, Checking item nonBlocking)
  | Checking item nonBlocking =>
      if ended e && negb nonBlocking then Some (s, Returned (Err ContextEnded)) else Some (s, Beginning item nonBlocking)
  | Beginning item nonBlocking =>
      match beginSubmit s with
      | None => Some (s, Returned (Err IngestorClosed))
      | Some s => Some (s, Sending item nonBlocking)
      end
  | Sending item nonBlocking =>
      if ended e && negb nonBlocking then Some (s, DropCounting Backpressure)
      else if queueClosed s then Some (s, Panicked)
      else if (length (queue s) <? capacity s)%nat then Some (send item s, Stamping (next s))
      else if nonBlocking then Some (s, DropCounting QueueFull)
      else None
  | Stamping r =>
      let at_ := UTC (now e) in
      Some (with_latency (accept (latency s) (Some r) at_)
              (update_receipt r (λ c, mkReceipt (accepted c) at_ (outcome c)) s), Counting r)
  | Counting r => Some (noteAccepted s, Opening r)
  | Opening r => Some (update_receipt r (λ c, mkReceipt true (acceptedAt c) (outcome c)) s, Leaving (Ok r))
  | DropCounting err => Some (with_stats (count_dropped (stats s)) s, DropEpisode err)
  | DropEpisode err =>
      if overflowActive s then Some (s, Leaving (Err err)) else Some (with_overflow true s, DropRecording err)
  | DropRecording err => Some (recordEpisode "ingestion-backpressure" s, Leaving (Err err))
  | Leaving res => Some (with_submitters (pred (submitters s)) s, Returned res)
  | Returned _ | Panicked => None
  end.

(** ** The worker *)

Inductive worker_pc :=
| Waiting
| Held (r : nat) (item : ingestionItem)
| Working (r : nat) (item : ingestionItem) (startedAt : Time)
| Completing (r : nat) (startedAt completedAt : Time) (res : IngestionResult) (err : option sink_error)
| Noting (r : nat) (res : IngestionResult) (err : option sink_error)
| NotingEpisode (r : nat) (res : IngestionResult) (err : option sink_error)
| RecordingFailure (r : nat) (res : IngestionResult) (err : option sink_error)
| Publishing (r : nat) (res : IngestionResult) (err : option sink_error)
| Ending
| Draining
| Finishing
| Done.

Definition worker_step (e : env) (s : Ingestor) (w : worker_pc) : option (Ingestor * worker_pc) :=
  match w with
  | Waiting =>
      match takeEvent e, eventQueue s with
      | true, _ :: events => Some (with_events events s, Waiting)
      | _, _ =>
          match queue s with
          | (r, item) :: rest => Some (with_queue rest s, Held r item)
          | [] => if queueClosed s then Some (s, Draining) else None
          end
      end
  | Held r item =>
      match receipts s !! r with
      | Some c => if accepted c then Some (s, Working r item (UTC (now e))) else None
      | None => None
      end
  | Working r item startedAt =>
      let '(res, err) := process (sink e) item in Some (s, Completing r startedAt (UTC (now e)) res err)
  | Completing r startedAt completedAt res err =>
      match receipts s !! r with
      | Some c => Some (with_latency (complete (latency s) r (acceptedAt c) startedAt completedAt (negb (is_some err))) s, Noting r res err)
      | None => None
      end
  | Noting r res err =>
      Some (with_stats (match err with Some _ => count_failed (stats s) | None => count_processed res (stats s) end) s, NotingEpisode r res err)
  | NotingEpisode r res err =>
      match err with
      | None => Some (with_failure false "" s, Publishing r res err)
      | Some code =>
          Some (with_failure true (classifyIngestionFailure code) s,
                if failureActive s then Publishing r res err else RecordingFailure r res err)
      end
  | RecordingFailure r res err => Some (recordEpisode "ingestion-write-failed" s, Publishing r res err)
  | Publishing r res err =>
      Some (with_finished (finished s ++ [r]) (update_receipt r (λ c, mkReceipt (accepted c) (acceptedAt c) (Some (res, err))) s), Ending)
  | Ending => Some (maybeEndOverflowEpisode s, Waiting)
  | Draining => match eventQueue s with _ :: events => Some (with_events events s, Draining) | [] => Some (s, Finishing) end
  | Finishing => Some (with_closed true s, Done)
  | Done => None
  end.

(** ** The system *)

Record system := mkSystem { ingestor : Ingestor; threads : list pc; worker : worker_pc }.

(** A step that needs no new call: of a submission, of the worker, or of the goroutine that
    waits for the submitters and closes the queue. *)
Inductive internal : system → system → Prop :=
| step_submit e s before p after w s' p' :
    submit_step e s p = Some (s', p') →
    internal (mkSystem s (before ++ p :: after) w) (mkSystem s' (before ++ p' :: after) w)
| step_worker e s ts w s' w' :
    worker_step e s w = Some (s', w') → internal (mkSystem s ts w) (mkSystem s' ts w')
| step_drained s ts w :
    closing s = true → queueClosed s = false → submitters s = O →
    internal (mkSystem s ts w) (mkSystem (with_queueClosed true s) ts w).

(** A new submission, and the first call of [Close] (later calls only wait). *)
Inductive arrival : system → system → Prop :=
| arrive_submit s ts w v nonBlocking : arrival (mkSystem s ts w) (mkSystem s (ts ++ [Entering v nonBlocking]) w)
| arrive_close s ts w : arrival (mkSystem s ts w) (mkSystem (with_closing true s) ts w).

Definition step (s t : system) : Prop := internal s t ∨ arrival s t.

Definition initial (s : system) : Prop := ∃ size i, newIngestor true size = Ok i ∧ s = mkSystem i [] Waiting.
Definition reachable (s : system) : Prop := ∃ s0, initial s0 ∧ rtc step s0 s.

(** ** Counting submissions *)

Fixpoint count (f : pc → bool) (l : list pc) : nat :=
  match l with [] => 0 | p :: l => (if f p then 1 else 0) + count f l end.

Lemma count_app f l l' : count f (l ++ l') = (count f l + count f l')%nat.
Proof. induction l as [|p l IH]; simpl; [done|]. rewrite IH. lia. Qed.

Definition inflight (p : pc) : bool :=
  match p with
  | Sending _ _ | Stamping _ | Counting _ | Opening _ | DropCounting _ | DropEpisode _ | DropRecording _ | Leaving _ => true
  | _ => false
  end.
(** Sent, but not counted yet. *)
Definition uncounted (p : pc) : bool := match p with Stamping _ | Counting _ => true | _ => false end.
Definition panicked (p : pc) : bool := match p with Panicked => true | _ => false end.
(** The receipt a submission has sent but not opened. *)
Definition marking (p : pc) : option nat := match p with Stamping r | Counting r | Opening r => Some r | _ => None end.

(** The receipt the worker holds: at all, before it waits for [accepted], before the latency is
    taken; and whether its outcome is counted but not published. *)
Definition held (w : worker_pc) : list nat :=
  match w with
  | Held r _ | Working r _ _ | Completing r _ _ _ _ | Noting r _ _ | NotingEpisode r _ _ | RecordingFailure r _ _ | Publishing r _ _ => [r]
  | _ => []
  end.
Definition unopened (w : worker_pc) : list nat := match w with Held r _ => [r] | _ => [] end.
Definition timed (w : worker_pc) : list nat := match w with Held r _ | Working r _ _ | Completing r _ _ _ _ => [r] | _ => [] end.
Definition counted (w : worker_pc) : Z :=
  match w with NotingEpisode _ _ _ | RecordingFailure _ _ _ | Publishing _ _ _ => 1 | _ => 0 end.
Definition drained (w : worker_pc) : bool := match w with Draining | Finishing | Done => true | _ => false end.
Definition is_done (w : worker_pc) : bool := match w with Done => true | _ => false end.

Definition ids (s : Ingestor) : list nat := map fst (queue s).

Record inv (s : Ingestor) (ts : list pc) (w : worker_pc) : Prop := {
  i_submitters : submitters s = count inflight ts;
  i_closed : queueClosed s = true → closing s = true ∧ submitters s = O;
  i_panic : count panicked ts = O;
  i_capacity : (1 ≤ capacity s)%nat ∧ (length (queue s) ≤ capacity s)%nat;
  i_fifo : sent s = finished s ++ held w ++ ids s;
  i_fresh : NoDup (sent s) ∧ ∀ r, r ∈ sent s → (r < next s)%nat;
  i_receipts : ∀ r, r ∈ sent s → is_Some (receipts s !! r);
  i_accepted : llen (sent s) = Accepted (stats s) + Z.of_nat (count uncounted ts);
  i_processed : Processed (stats s) + Failed (stats s) = llen (finished s) + counted w;
  i_drained : drained w = true → queueClosed s = true ∧ queue s = [];
  i_done : closed s = is_done w;
  i_outcome : ∀ r c, receipts s !! r = Some c → outcome c ≠ None ↔ r ∈ finished s;
  i_distinct : NoDup (omap marking ts);
  i_marking : ∀ r, r ∈ omap marking ts → r ∈ unopened w ++ ids s ∧ ∃ c, receipts s !! r = Some c ∧ accepted c = false;
  i_waiting : ∀ r, r ∈ unopened w ++ ids s → r ∈ omap marking ts ∨ ∃ c, receipts s !! r = Some c ∧ accepted c = true;
  i_pending : ∀ r, is_Some (pending (latency s) !! r) → r ∈ timed w ++ ids s;
}.

Lemma inv_initial size i : newIngestor true size = Ok i → inv i [] Waiting.
Proof.
  unfold newIngestor. simpl. rewrite guard_ok, orb_false_iff, !Z.ltb_ge. intros [[H1 _] [= <-]].
  constructor; simpl; try done; try set_solver.
  - split; lia.
  - split; [constructor|set_solver].
  - constructor.
  - intros r [? H]. by rewrite lookup_empty in H.
Qed.

(** A change that leaves the fields of the invariant alone. *)
Definition same (s s' : Ingestor) : Prop :=
  submitters s' = submitters s ∧ queueClosed s' = queueClosed s ∧ closing s' = closing s ∧ capacity s' = capacity s ∧ queue s' = queue s ∧
  sent s' = sent s ∧ finished s' = finished s ∧ next s' = next s ∧ receipts s' = receipts s ∧ latency s' = latency s ∧ closed s' = closed s ∧
  Accepted (stats s') = Accepted (stats s) ∧ Processed (stats s') = Processed (stats s) ∧ Failed (stats s') = Failed (stats s).

Lemma inv_same s s' ts w : same s s' → inv s ts w → inv s' ts w.
Proof.
  intros (E1 & E2 & E3 & E4 & E5 & E6 & E7 & E8 & E9 & E10 & E11 & E12 & E13 & E14) H. unfold ids in *.
  constructor; unfold ids; rewrite ?E1, ?E2, ?E3, ?E4, ?E5, ?E6, ?E7, ?E8, ?E9, ?E10, ?E11, ?E12, ?E13, ?E14; apply H.
Qed.

(** A submission moves between places the invariant does not tell apart. *)
Lemma inv_move s l p p' l' w :
  inv s (l ++ p :: l') w → inflight p' = inflight p → uncounted p' = uncounted p → panicked p' = false → panicked p = false → marking p' = marking p →
  inv s (l ++ p' :: l') w.
Proof.
  intros H E1 E2 E3 E4 E5. destruct H. assert (Em : omap marking (l ++ p' :: l') = omap marking (l ++ p :: l')).
  { rewrite !omap_app. simpl. by rewrite E5. }
  constructor; rewrite ?Em; try done.
  - rewrite i_submitters0, !count_app. simpl. by rewrite E1.
  - rewrite count_app in *. simpl in *. rewrite E3. rewrite E4 in i_panic0. done.
  - rewrite i_accepted0, !count_app. simpl. by rewrite E2.
Qed.

Lemma recordEpisode_same e s : same s (recordEpisode e s).
Proof. unfold recordEpisode. by destruct (_ <? _)%nat. Qed.

(** ** A submission preserves the invariant *)

Lemma inv_begin s l item b l' w :
  inv s (l ++ Beginning item b :: l') w → closing s = false → inv (with_submitters (S (submitters s)) s) (l ++ Sending item b :: l') w.
Proof.
  intros [] Hc. constructor; simpl; rewrite ?omap_app, ?count_app in *; simpl in *; try done; [lia|]. intros Hq. destruct (i_closed0 Hq). congruence.
Qed.

Lemma inv_leave s l res l' w :
  inv s (l ++ Leaving res :: l') w → inv (with_submitters (pred (submitters s)) s) (l ++ Returned res :: l') w.
Proof.
  intros []. constructor; simpl; rewrite ?omap_app, ?count_app in *; simpl in *; try done; [lia|]. intros Hq. destruct (i_closed0 Hq). split; [done|lia].
Qed.

Lemma inv_count s l r l' w : inv s (l ++ Counting r :: l') w → inv (noteAccepted s) (l ++ Opening r :: l') w.
Proof. intros []. constructor; simpl; rewrite ?omap_app, ?count_app in *; simpl in *; try done. lia. Qed.

Lemma inv_send s l item b l' w :
  inv s (l ++ Sending item b :: l') w → (length (queue s) < capacity s)%nat → inv (send item s) (l ++ Stamping (next s) :: l') w.
Proof.
  intros [] Hroom. unfold ids in *. destruct i_fresh0 as [Hn Hlt].
  assert (Hold : ∀ r, r ∈ sent s → r ≠ next s) by (intros r Hr ->; apply Hlt in Hr; lia).
  assert (Hmem : ∀ r, r ∈ unopened w ++ map fst (queue s) → r ∈ sent s).
  { intros r. rewrite i_fifo0, !elem_of_app. intros [Hr|Hr]; [|auto]. right. left. destruct w; set_solver. }
  assert (Hmem' : ∀ r, r ∈ timed w ++ map fst (queue s) → r ∈ sent s).
  { intros r. rewrite i_fifo0, !elem_of_app. intros [Hr|Hr]; [|auto]. right. left. destruct w; set_solver. }
  constructor; unfold ids; simpl; rewrite ?omap_app, ?count_app, ?map_app in *; simpl in *; try done.
  - rewrite length_app. simpl. lia.
  - rewrite i_fifo0, <- !app_assoc. done.
  - split; [apply NoDup_app; split_and!; [done| |apply NoDup_singleton]|].
    + intros r Hr ->%list_elem_of_singleton. by apply Hold in Hr.
    + intros r [Hr| ->%list_elem_of_singleton]%elem_of_app; [apply Hlt in Hr|]; lia.
  - intros r [Hr| ->%list_elem_of_singleton]%elem_of_app; [|by rewrite lookup_insert_eq].
    rewrite lookup_insert_ne by (intros <-; by apply Hold in Hr). auto.
  - unfold llen in *. rewrite length_app. simpl. lia.
  - intros Hd. destruct (i_drained0 Hd) as [Hq _]. destruct (i_closed0 Hq). lia.
  - intros r c. destruct (decide (r = next s)) as [->|Hne].
    + rewrite lookup_insert_eq. intros [= <-]. simpl. split; [done|]. intros Hf. exfalso. apply (Hold (next s)); [|done].
      rewrite i_fifo0. set_solver.
    + rewrite lookup_insert_ne by done. apply i_outcome0.
  - rewrite NoDup_app in *. destruct i_distinct0 as (H1 & H2 & H3). simpl.
    assert (Hf : ∀ r, r ∈ omap marking l ∨ r ∈ omap marking l' → r ≠ next s).
    { intros r Hr. apply Hold, Hmem. apply i_marking0. rewrite elem_of_app. done. }
    split_and!; [done| |constructor; [|done]].
    + intros r Hr [->|Hr']%elem_of_cons; [by apply (Hf (next s)); [left|]|by apply (H2 r)].
    + intros Hr. by apply (Hf (next s)); [right|].
  - intros r. rewrite elem_of_app, elem_of_cons. intros Hr. destruct (decide (r = next s)) as [->|Hne].
    + split; [set_solver|]. rewrite lookup_insert_eq. by eexists.
    + destruct (i_marking0 r) as [Hw (c & Hc & Ha)]; [rewrite elem_of_app; naive_solver|]. split; [set_solver|].
      rewrite lookup_insert_ne by done. eauto.
  - intros r. rewrite app_assoc, elem_of_app, list_elem_of_singleton. intros [Hr| ->]; [|left; rewrite elem_of_app, elem_of_cons; auto].
    destruct (i_waiting0 r Hr) as [Hm|(c & Hc & Ha)]; [left; rewrite elem_of_app, elem_of_cons in *; naive_solver|]. right. exists c.
    rewrite lookup_insert_ne by (intros <-; by apply (Hold (next s)); [apply Hmem|]). done.
  - intros r Hr. rewrite app_assoc, elem_of_app. left. by apply i_pending0.
Qed.

Lemma inv_stamp s l r l' w at_ :
  inv s (l ++ Stamping r :: l') w →
  inv (with_latency (accept (latency s) (Some r) at_) (update_receipt r (λ c, mkReceipt (accepted c) at_ (outcome c)) s)) (l ++ Counting r :: l') w.
Proof.
  intros []. unfold ids in *.
  assert (Hr : r ∈ unopened w ++ map fst (queue s)) by (apply i_marking0; rewrite omap_app; simpl; set_solver).
  constructor; unfold ids; simpl; rewrite ?omap_app, ?count_app in *; simpl in *; try done.
  - intros q Hq. rewrite lookup_alter_is_Some. auto.
  - intros q c. rewrite lookup_alter_Some. intros [(-> & c0 & Hc & ->)|[Hne Hc]]; [apply (i_outcome0 _ _ Hc)|by apply (i_outcome0 _ _ Hc)].
  - intros q Hq. destruct (i_marking0 q Hq) as [Hw (c & Hc & Ha)]. split; [done|]. setoid_rewrite lookup_alter_Some.
    destruct (decide (q = r)) as [->|Hne]; [|eauto 10]. exists (mkReceipt (accepted c) at_ (outcome c)). simpl. eauto 10.
  - intros q Hq. destruct (i_waiting0 q Hq) as [Hm|(c & Hc & Ha)]; [by left|right]. setoid_rewrite lookup_alter_Some.
    destruct (decide (q = r)) as [->|Hne]; [|eauto 10]. exists (mkReceipt (accepted c) at_ (outcome c)). simpl. eauto 10.
  - intros q [x Hx]. apply lookup_insert_Some in Hx as [[<- _]|[_ Hx]]; [|apply i_pending0; eauto].
    rewrite elem_of_app in *. destruct w; set_solver.
Qed.

Lemma inv_open s l r l' w :
  inv s (l ++ Opening r :: l') w →
  inv (update_receipt r (λ c, mkReceipt true (acceptedAt c) (outcome c)) s) (l ++ Leaving (Ok r) :: l') w.
Proof.
  intros []. unfold ids in *. constructor; unfold ids; simpl; rewrite ?omap_app, ?count_app in *; simpl in *; try done.
  - intros q Hq. rewrite lookup_alter_is_Some. auto.
  - intros q c. rewrite lookup_alter_Some. intros [(-> & c0 & Hc & ->)|[Hne Hc]]; [apply (i_outcome0 _ _ Hc)|by apply (i_outcome0 _ _ Hc)].
  - rewrite NoDup_app in *. destruct i_distinct0 as (H1 & H2 & [_ H3]%NoDup_cons). split_and!; [done| |done]. intros q Hq Hq'.
    apply (H2 q Hq). by right.
  - rewrite NoDup_app in i_distinct0. destruct i_distinct0 as (_ & H2 & [H3 _]%NoDup_cons). intros q Hq. assert (q ≠ r).
    { intros ->. apply elem_of_app in Hq as [Hq|Hq]; [|done]. apply (H2 r Hq). by left. }
    destruct (i_marking0 q) as [Hw (c & Hc & Ha)]; [rewrite elem_of_app, elem_of_cons in *; naive_solver|]. split; [done|].
    exists c. rewrite lookup_alter_ne by done. done.
  - intros q Hq. destruct (decide (q = r)) as [->|Hne].
    + right. destruct (i_marking0 r) as [_ (c & Hc & _)]; [rewrite elem_of_app, elem_of_cons; auto|].
      exists (mkReceipt true (acceptedAt c) (outcome c)). rewrite lookup_alter_Some. split; [left; eauto|done].
    + rewrite lookup_alter_ne by done. destruct (i_waiting0 q Hq) as [Hm|Hm]; [left|by right].
      rewrite elem_of_app, elem_of_cons in *. naive_solver.
Qed.

Lemma inv_submit e s l p l' w s' p' :
  inv s (l ++ p :: l') w → submit_step e s p = Some (s', p') → inv s' (l ++ p' :: l') w.
Proof.
  intros H Hs. destruct p; simpl in Hs.
  - destruct v; injection Hs as <- <-.
    + by eapply inv_move.
    + apply (inv_same s); [done|]. by eapply inv_move.
  - destruct (_ && _); injection Hs as <- <-; by eapply inv_move.
  - unfold beginSubmit in Hs. destruct (closing s) eqn:Ec; simpl in Hs; [injection Hs as <- <-; by eapply inv_move|].
    destruct (closed s); injection Hs as <- <-; [by eapply inv_move|]. by eapply inv_begin.
  - destruct (_ && _); [injection Hs as <- <-; by eapply inv_move|].
    destruct (queueClosed s) eqn:Eq.
    { exfalso. destruct (i_closed _ _ _ H Eq) as [_ Hz]. pose proof (i_submitters _ _ _ H) as Hc. rewrite count_app in Hc. simpl in Hc. lia. }
    destruct (Nat.ltb_spec (length (queue s)) (capacity s)); [injection Hs as <- <-; by eapply inv_send|].
    destruct nonBlocking; [injection Hs as <- <-; by eapply inv_move|done].
  - injection Hs as <- <-. by apply inv_stamp.
  - injection Hs as <- <-. by apply inv_count.
  - injection Hs as <- <-. by apply inv_open.
  - injection Hs as <- <-. apply (inv_same s); [done|]. by eapply inv_move.
  - destruct (overflowActive s); injection Hs as <- <-; [by eapply inv_move|]. apply (inv_same s); [done|]. by eapply inv_move.
  - injection Hs as <- <-. apply (inv_same s); [apply recordEpisode_same|]. by eapply inv_move.
  - injection Hs as <- <-. by apply inv_leave.
  - done.
  - done.
Qed.

(** ** The worker preserves it *)

(** The worker moves between places the invariant does not tell apart. *)
Lemma inv_go s ts w w' :
  inv s ts w → held w' = held w → unopened w' = unopened w → timed w' = timed w → counted w' = counted w → drained w' = drained w →
  is_done w' = is_done w → inv s ts w'.
Proof. intros [] E1 E2 E3 E4 E5 E6. constructor; rewrite ?E1, ?E2, ?E3, ?E4, ?E5, ?E6; done. Qed.

Lemma inv_take s ts r item rest :
  inv s ts Waiting → queue s = (r, item) :: rest → inv (with_queue rest s) ts (Held r item).
Proof.
  intros [] Eq. unfold ids in *. rewrite Eq in *. simpl in *. constructor; unfold ids; simpl in *; try done. destruct i_capacity0. split; [done|lia].
Qed.

Lemma inv_pass s ts r item c at_ :
  inv s ts (Held r item) → receipts s !! r = Some c → accepted c = true → inv s ts (Working r item at_).
Proof.
  intros [] Hc Ha. unfold ids in *. constructor; unfold ids; simpl in *; try done.
  - intros q Hq. destruct (i_marking0 q Hq) as [Hw (c' & Hc' & Ha')]. split; [|eauto]. apply elem_of_cons in Hw as [->|Hw]; [|done].
    rewrite Hc in Hc'. injection Hc' as <-. congruence.
  - intros q Hq. apply i_waiting0. by right.
Qed.

Lemma inv_complete s ts r st ct res err t :
  inv s ts (Completing r st ct res err) → (∀ q, pending t !! q = delete r (pending (latency s)) !! q) → inv (with_latency t s) ts (Noting r res err).
Proof.
  intros [] Ht. unfold ids in *. constructor; unfold ids; simpl in *; try done. intros q [x Hx]. rewrite Ht, lookup_delete_Some in Hx.
  destruct Hx as [Hne Hx]. destruct (proj1 (elem_of_cons _ _ _) (i_pending0 q (ex_intro _ x Hx))) as [->|Hq]; done.
Qed.

Lemma inv_note s ts r res err c :
  inv s ts (Noting r res err) → Accepted c = Accepted (stats s) → Processed c + Failed c = Processed (stats s) + Failed (stats s) + 1 →
  inv (with_stats c s) ts (NotingEpisode r res err).
Proof. intros [] Ea Ep. unfold ids in *. constructor; unfold ids; simpl in *; try done; [by rewrite Ea|lia]. Qed.

Lemma inv_publish s ts r res err :
  inv s ts (Publishing r res err) →
  inv (with_finished (finished s ++ [r]) (update_receipt r (λ c, mkReceipt (accepted c) (acceptedAt c) (Some (res, err))) s)) ts Ending.
Proof.
  intros []. unfold ids in *. constructor; unfold ids; simpl in *; try done.
  - by rewrite <- app_assoc.
  - intros q Hq. rewrite lookup_alter_is_Some. auto.
  - unfold llen in *. rewrite length_app. simpl. lia.
  - intros q c. rewrite lookup_alter_Some, elem_of_app, list_elem_of_singleton. intros [(-> & c0 & Hc & ->)|[Hne Hc]]; [simpl; naive_solver|].
    rewrite (i_outcome0 _ _ Hc). naive_solver.
  - intros q Hq. destruct (i_marking0 q Hq) as [Hw (c & Hc & Ha)]. split; [done|]. setoid_rewrite lookup_alter_Some.
    destruct (decide (q = r)) as [->|Hne]; [|eauto 10]. exists (mkReceipt (accepted c) (acceptedAt c) (Some (res, err))). simpl. eauto 10.
  - intros q Hq. destruct (i_waiting0 q Hq) as [Hm|(c & Hc & Ha)]; [by left|right]. setoid_rewrite lookup_alter_Some.
    destruct (decide (q = r)) as [->|Hne]; [|eauto 10]. exists (mkReceipt (accepted c) (acceptedAt c) (Some (res, err))). simpl. eauto 10.
Qed.

Lemma inv_worker e s ts w s' w' : inv s ts w → worker_step e s w = Some (s', w') → inv s' ts w'.
Proof.
  intros H Hs. destruct w; simpl in Hs.
  - assert (Hq : match queue s with (r, item) :: rest => Some (with_queue rest s, Held r item)
                 | [] => if queueClosed s then Some (s, Draining) else None end = Some (s', w') → inv s' ts w').
    { destruct (queue s) as [|[r item] rest] eqn:Eq; [|intros [= <- <-]; by apply inv_take].
      destruct (queueClosed s) eqn:Ec; [|done]. intros [= <- <-]. destruct H. constructor; simpl in *; done. }
    destruct (takeEvent e), (eventQueue s); try by apply Hq. injection Hs as <- <-. by apply (inv_same s).
  - destruct (receipts s !! r) as [c|] eqn:Ec; [|done]. destruct (accepted c) eqn:Ea; [|done]. injection Hs as <- <-. by eapply inv_pass.
  - destruct (process _ _) as [res err]. injection Hs as <- <-. by eapply inv_go.
  - destruct (receipts s !! r) as [c|] eqn:Ec; [|done]. injection Hs as <- <-. eapply inv_complete; [done|]. intros q. unfold complete.
    by destruct (negb _).
  - injection Hs as <- <-. apply inv_note; [done|by destruct err|]. destruct err; simpl; lia.
  - destruct err as [code|]; injection Hs as <- <-; (apply (inv_same s); [done|]); [destruct (failureActive s)|]; by eapply inv_go.
  - injection Hs as <- <-. apply (inv_same s); [apply recordEpisode_same|]. by eapply inv_go.
  - injection Hs as <- <-. by apply inv_publish.
  - injection Hs as <- <-. apply (inv_same s); [by unfold maybeEndOverflowEpisode; destruct (_ <? _)%nat|]. by eapply inv_go.
  - destruct (eventQueue s); injection Hs as <- <-; [by eapply inv_go|]. by apply (inv_same s).
  - injection Hs as <- <-. destruct H. constructor; simpl in *; done.
  - done.
Qed.

Lemma inv_step s ts w s' ts' w' : inv s ts w → step (mkSystem s ts w) (mkSystem s' ts' w') → inv s' ts' w'.
Proof.
  intros H [Hi|Ha].
  - inversion Hi; subst; [by eapply inv_submit|by eapply inv_worker|]. destruct H. constructor; simpl; try done. intros Hd. by destruct (i_drained0 Hd).
  - inversion Ha; subst.
    + destruct H. constructor; rewrite ?count_app, ?omap_app; simpl; rewrite ?Nat.add_0_r, ?app_nil_r; done.
    + destruct H. constructor; simpl; try done. intros Hq. split; [done|]. by apply i_closed0.
Qed.

Lemma reachable_inv y : reachable y → inv (ingestor y) (threads y) (worker y).
Proof.
  intros (y0 & (size & i & Hi & ->) & Hr). revert Hr. apply (rtc_ind_r (λ y, inv (ingestor y) (threads y) (worker y))).
  - simpl. by eapply inv_initial.
  - intros [s ts w] [s' ts' w'] _ Hst IH. by eapply inv_step.
Qed.

(** C27: the queue loses nothing and keeps its order, under every interleaving of submissions, worker and
    [Close]: no send ever meets a closed channel, the queue stays within its capacity, the outcomes
    published are those of a prefix of what was sent, in that order and once each; the counters agree with
    them; the latency tracker holds only receipts that are still under way; and once the ingestor is closed
    every accepted item has its outcome, was processed or failed, and nothing is left pending. *)
Theorem ingest_invariant y :
  reachable y →
  let s := ingestor y in
  Panicked ∉ threads y ∧ (length (queue s) ≤ capacity s)%nat ∧ NoDup (sent s) ∧ finished s `prefix_of` sent s ∧
  (∀ r c, receipts s !! r = Some c → outcome c ≠ None ↔ r ∈ finished s) ∧
  Processed (stats s) + Failed (stats s) <= llen (sent s) ∧
  (∀ r, is_Some (pending (latency s) !! r) → r ∈ sent s ∧ r ∉ finished s) ∧
  (closed s = true → queue s = [] ∧ finished s = sent s ∧ pending (latency s) = ∅ ∧
     Accepted (stats s) = llen (sent s) ∧ Processed (stats s) + Failed (stats s) = Accepted (stats s)).
Proof.
  intros Hr%reachable_inv. destruct y as [s ts w]. simpl in *. destruct Hr.
  assert (Htimed : ∀ r, r ∈ timed w ++ ids s → r ∈ held w ++ ids s) by (intros r; rewrite !elem_of_app; destruct w; set_solver).
  assert (Hsum : Processed (stats s) + Failed (stats s) <= llen (sent s)).
  { rewrite i_processed0, i_fifo0. unfold llen. rewrite !length_app. destruct w; simpl; lia. }
  destruct i_fresh0 as [Hn Hlt]. rewrite i_fifo0 in Hn. split_and!; try done.
  - intros Hp. apply list_elem_of_split in Hp as (l & l' & ->). rewrite count_app in i_panic0. simpl in i_panic0. lia.
  - by destruct i_capacity0.
  - by rewrite i_fifo0.
  - rewrite i_fifo0. by eexists.
  - intros r H%i_pending0%Htimed. rewrite i_fifo0. rewrite NoDup_app in Hn. destruct Hn as (_ & Hd & _). split; [set_solver|].
    intros Hf. by apply (Hd r Hf).
  - intros Hc. rewrite i_done0 in Hc. destruct w; try done. destruct (i_drained0 eq_refl) as [Hq Hempty].
    destruct (i_closed0 Hq) as [_ Hz]. unfold ids in *. rewrite Hempty in *. simpl in *. rewrite app_nil_r in *.
    assert (Hu : count uncounted ts = O).
    { rewrite Hz in i_submitters0. clear -i_submitters0. induction ts as [|p ts IH]; [done|]. simpl in *. destruct p; simpl in *; try lia; auto. }
    rewrite Hu in i_accepted0. split_and!; try done; [|lia|rewrite i_fifo0 in i_accepted0; lia]. apply map_empty. intros r.
    destruct (pending (latency s) !! r) as [x|] eqn:E; [|done]. destruct (not_elem_of_nil r). apply i_pending0. eauto.
Qed.

(** ** Closing ends

    Whatever happens next, as long as no new call arrives: [P] holds now, or some step is
    possible and it is inevitable after every possible step. *)
Inductive inevitably (P : system → Prop) (y : system) : Prop :=
| inevitable_now : P y → inevitably P y
| inevitable_later : (∃ y', internal y y') → (∀ y', internal y y' → inevitably P y') → inevitably P y.

(** The work left in a submission, in the worker and in the queues. *)
Definition submit_rank (p : pc) : nat :=
  match p with
  | Entering _ _ => 20 | Checking _ _ => 19 | Beginning _ _ => 18 | Sending _ _ => 17
  | Stamping _ => 4 | Counting _ => 3 | Opening _ => 2
  | DropCounting _ => 5 | DropEpisode _ => 4 | DropRecording _ => 3
  | Leaving _ => 1 | Returned _ | Panicked => 0
  end.
Definition worker_rank (w : worker_pc) : nat :=
  match w with
  | Held _ _ => 15 | Working _ _ _ => 14 | Completing _ _ _ _ _ => 13 | Noting _ _ _ => 12 | NotingEpisode _ _ _ => 11
  | RecordingFailure _ _ _ => 10 | Publishing _ _ _ => 8 | Ending => 7 | Waiting => 4 | Draining => 3 | Finishing => 1 | Done => 0
  end.
Definition shared_rank (s : Ingestor) : nat :=
  12 * length (queue s) + length (eventQueue s) + (if queueClosed s then 0 else 1).
Definition rank (y : system) : nat :=
  sum_list_with submit_rank (threads y) + worker_rank (worker y) + shared_rank (ingestor y).

Lemma recordEpisode_rank e s : (shared_rank (recordEpisode e s) ≤ shared_rank s + 1)%nat.
Proof. unfold recordEpisode, shared_rank. destruct (_ <? _)%nat; simpl; [rewrite length_app; simpl|]; lia. Qed.

Lemma submit_rank_decreases e s p s' p' :
  submit_step e s p = Some (s', p') → (submit_rank p' + shared_rank s' < submit_rank p + shared_rank s)%nat.
Proof.
  destruct p; simpl; try done.
  - destruct v; intros [= <- <-]; unfold shared_rank; simpl; lia.
  - destruct (_ && _); intros [= <- <-]; simpl; lia.
  - unfold beginSubmit. destruct (_ || _); intros [= <- <-]; unfold shared_rank; simpl; lia.
  - destruct (_ && _); [intros [= <- <-]; simpl; lia|]. destruct (queueClosed s) eqn:Eq; [intros [= <- <-]; simpl; lia|].
    destruct (_ <? _)%nat; [intros [= <- <-]; unfold shared_rank; simpl; rewrite length_app; simpl; lia|].
    destruct nonBlocking; [intros [= <- <-]; simpl; lia|done].
  - intros [= <- <-]. unfold shared_rank. simpl. lia.
  - intros [= <- <-]. unfold shared_rank. simpl. lia.
  - intros [= <- <-]. unfold shared_rank. simpl. lia.
  - intros [= <- <-]. unfold shared_rank. simpl. lia.
  - destruct (overflowActive s); intros [= <- <-]; unfold shared_rank; simpl; lia.
  - intros [= <- <-]. pose proof (recordEpisode_rank "ingestion-backpressure" s). simpl. lia.
  - intros [= <- <-]. unfold shared_rank. simpl. lia.
Qed.

Lemma worker_rank_decreases e s w s' w' :
  worker_step e s w = Some (s', w') → (worker_rank w' + shared_rank s' < worker_rank w + shared_rank s)%nat.
Proof.
  destruct w; simpl; try done.
  - destruct (takeEvent e), (eventQueue s) as [|x l] eqn:Ee; try (intros [= <- <-]; unfold shared_rank; rewrite Ee; simpl; lia);
      destruct (queue s) as [|[r item] rest] eqn:Eq; try (intros [= <- <-]; unfold shared_rank; rewrite Eq; simpl; lia);
      destruct (queueClosed s); intros [= <- <-]; simpl; lia.
  - destruct (receipts s !! r) as [c|]; [|done]. destruct (accepted c); [|done]. intros [= <- <-]. simpl. lia.
  - destruct (process _ _). intros [= <- <-]. simpl. lia.
  - destruct (receipts s !! r) as [c|]; [|done]. intros [= <- <-]. unfold shared_rank. simpl. lia.
  - intros [= <- <-]. unfold shared_rank. simpl. lia.
  - destruct err; intros [= <- <-]; [destruct (failureActive s)|]; unfold shared_rank; simpl; lia.
  - intros [= <- <-]. pose proof (recordEpisode_rank "ingestion-write-failed" s). simpl. lia.
  - intros [= <- <-]. unfold shared_rank. simpl. lia.
  - intros [= <- <-]. unfold maybeEndOverflowEpisode, shared_rank. destruct (_ <? _)%nat; simpl; lia.
  - destruct (eventQueue s) as [|x l] eqn:Ee; intros [= <- <-]; unfold shared_rank; rewrite ?Ee; simpl; lia.
  - intros [= <- <-]. unfold shared_rank. simpl. lia.
Qed.

Lemma rank_decreases y y' : internal y y' → (rank y' < rank y)%nat.
Proof.
  destruct 1 as [e s l p l' w s' p' Hs|e s ts w s' w' Hw|s ts w _ Hq _]; unfold rank; simpl.
  - apply submit_rank_decreases in Hs. rewrite !sum_list_with_app. simpl. lia.
  - apply worker_rank_decreases in Hw. lia.
  - unfold shared_rank. simpl. rewrite Hq. lia.
Qed.

Definition quiet_sink : sink_answers := mkSink None (true, None) None None.
Definition quiet (ends takes : bool) : env := mkEnv ends zeroTime takes quiet_sink.

Lemma inflight_steps s p :
  inflight p = true → (length (queue s) < capacity s)%nat ∨ marking p ≠ None → ∃ s' p', submit_step (quiet false false) s p = Some (s', p').
Proof.
  destruct p; simpl; try done; intros _ H; try (by eauto); [|destruct (overflowActive s); eauto].
  destruct (queueClosed s); [eauto|]. destruct H as [H|H]; [|done]. rewrite (proj2 (Nat.ltb_lt _ _) H). eauto.
Qed.

Lemma count_positive f ts : (0 < count f ts)%nat → ∃ l p l', ts = l ++ p :: l' ∧ f p = true.
Proof.
  induction ts as [|q ts IH]; simpl; [lia|]. destruct (f q) eqn:E; [intros _; by exists [], q, ts|].
  intros (l & p & l' & -> & Hp)%IH. by exists (q :: l), p, l'.
Qed.

(** A closing ingestor that is not closed can always go on. *)
Lemma closing_progress s ts w : inv s ts w → closing s = true → closed s = false → ∃ y', internal (mkSystem s ts w) y'.
Proof.
  intros H Hc Hd. assert (Hgo : ∀ e s' w', worker_step e s w = Some (s', w') → ∃ y', internal (mkSystem s ts w) y') by (intros; eexists; by eapply step_worker).
  rewrite (i_done _ _ _ H) in Hd. destruct w; try (by apply (Hgo (quiet false false) _ _ eq_refl)); try done.
  - destruct (queue s) as [|[r item] rest] eqn:Eq; [|eapply (Hgo (quiet false false)); simpl; by rewrite Eq].
    destruct (queueClosed s) eqn:Ec; [eapply (Hgo (quiet false false)); simpl; by rewrite Eq, Ec|].
    destruct (decide (submitters s = O)) as [Ez|Ez]; [eexists; by eapply step_drained|].
    rewrite (i_submitters _ _ _ H) in Ez. destruct (count_positive inflight ts) as (l & p & l' & -> & Hp); [lia|].
    destruct (inflight_steps s p Hp) as (s' & p' & Hs); [left; rewrite Eq; apply (i_capacity _ _ _ H)|]. eexists. by eapply step_submit.
  - destruct (i_waiting _ _ _ H r) as [Hm|(c & Hr & Ha)]; [by left| |eapply (Hgo (quiet false false)); simpl; by rewrite Hr, Ha].
    apply list_elem_of_omap in Hm as (p & Hp & Em). apply list_elem_of_split in Hp as (l & l' & ->).
    destruct (inflight_steps s p) as (s' & p' & Hs); [by destruct p|right; congruence|]. eexists. by eapply step_submit.
  - destruct (process quiet_sink item) as [res err] eqn:E. eapply (Hgo (quiet false false)). simpl. by rewrite E.
  - destruct (i_receipts _ _ _ H r) as [c Hr]; [rewrite (i_fifo _ _ _ H); set_solver|]. eapply (Hgo (quiet false false)). simpl. by rewrite Hr.
  - destruct err; by apply (Hgo (quiet false false) _ _ eq_refl).
  - destruct (eventQueue s) eqn:Ee; eapply (Hgo (quiet false false)); simpl; by rewrite Ee.
Qed.

Lemma closing_stays y y' : internal y y' → closing (ingestor y) = true → closing (ingestor y') = true.
Proof.
  destruct 1 as [e s l p l' w s' p' Hs|e s ts w s' w' Hw|]; simpl; [| |done].
  - revert Hs. destruct p; simpl; try done.
    + by destruct v; intros [= <- <-].
    + by destruct (_ && _); intros [= <- <-].
    + unfold beginSubmit. by destruct (_ || _); intros [= <- <-].
    + destruct (_ && _); [by intros [= <- <-]|]. destruct (queueClosed s); [by intros [= <- <-]|]. destruct (_ <? _)%nat; [by intros [= <- <-]|].
      destruct nonBlocking; [by intros [= <- <-]|done].
    + by intros [= <- <-].
    + by intros [= <- <-].
    + by intros [= <- <-].
    + by intros [= <- <-].
    + by destruct (overflowActive s); intros [= <- <-].
    + unfold recordEpisode. by destruct (_ <? _)%nat; intros [= <- <-].
    + by intros [= <- <-].
  - revert Hw. destruct w; simpl; try done.
    + by destruct (takeEvent e), (eventQueue s), (queue s) as [|[]], (queueClosed s); intros [= <- <-].
    + destruct (receipts s !! r) as [c|]; [|done]. destruct (accepted c); [by intros [= <- <-]|done].
    + destruct (process _ _). by intros [= <- <-].
    + destruct (receipts s !! r); [by intros [= <- <-]|done].
    + by intros [= <- <-].
    + by destruct err; intros [= <- <-].
    + unfold recordEpisode. by destruct (_ <? _)%nat; intros [= <- <-].
    + by intros [= <- <-].
    + unfold maybeEndOverflowEpisode. by destruct (_ <? _)%nat; intros [= <- <-].
    + by destruct (eventQueue s); intros [= <- <-].
    + by intros [= <- <-].
Qed.

Lemma close_inevitable P y :
  reachable y → closing (ingestor y) = true → (∀ z, reachable z → closed (ingestor z) = true → P z) → inevitably P y.
Proof.
  intros Hr Hc HP. remember (rank y) as n eqn:En. revert y Hr Hc En. induction (lt_wf n) as [n _ IH]. intros y Hr Hc ->.
  destruct (closed (ingestor y)) eqn:Ed; [by apply inevitable_now, HP|]. apply inevitable_later.
  - destruct y as [s ts w]. by apply closing_progress; [apply (reachable_inv _ Hr)|..].
  - intros y' Hy. assert (Hr' : reachable y') by (destruct Hr as (y0 & H0 & H1); exists y0; split; [done|]; eapply rtc_r; [done|by left]).
    apply (IH (rank y')); [by apply rank_decreases|done|by eapply closing_stays|done].
Qed.

(** C28: [Close] completes.  From every reachable state in which [Close] has been called, and whatever
    submissions are under way, the system cannot get stuck and comes, in every order of its steps and
    without a further call, to a state in which the ingestor is closed with an empty queue and an outcome
    published for every item ever sent. *)
Theorem close_completes y :
  reachable y → closing (ingestor y) = true →
  inevitably (λ z, closed (ingestor z) = true ∧ queue (ingestor z) = [] ∧ finished (ingestor z) = sent (ingestor z)) y.
Proof.
  intros Hr Hc. apply close_inevitable; [done..|]. intros z Hz%reachable_inv Hd. destruct z as [s ts w]. simpl in *.
  destruct Hz. rewrite i_done0 in Hd. destruct w; try done. destruct (i_drained0 eq_refl) as [_ Hq]. unfold ids in *. rewrite Hq in *.
  simpl in *. rewrite app_nil_r in i_fifo0. rewrite i_done0. done.
Qed.

(** ** A submission that is made durable, and the close after it *)

Definition sample_event : AuditEvent :=
  mkAudit "audit.one" "gateway-run" "controller" (mkTime (1800000000 * Second) None "") 1 "{}" RetentionAudit.
Definition only_ascii (r : Z) : bool := false.

Example sample_accepted : SubmitAuditEvent only_ascii sample_event = Ok (AuditItem sample_event).
Proof. vm_compute. reflexivity. Qed.

(** One step, with the state after it computed. *)
Ltac submits :=
  match goal with
  | |- rtc step (mkSystem ?s [?p] ?w) _ =>
      let r := eval vm_compute in (submit_step (quiet false false) s p) in
      match r with
      | Some (?s', ?p') => apply (rtc_l step _ (mkSystem s' [p'] w)); [left; apply (step_submit (quiet false false) s [] p [] w s' p'); reflexivity|]
      end
  end.
Ltac works :=
  match goal with
  | |- rtc step (mkSystem ?s ?ts ?w) _ =>
      let r := eval vm_compute in (worker_step (quiet false false) s w) in
      match r with
      | Some (?s', ?w') => apply (rtc_l step _ (mkSystem s' ts w')); [left; apply (step_worker (quiet false false) s ts w s' w'); reflexivity|]
      end
  end.

Definition sample_ingestor : Ingestor :=
  mkIngestor 2 [] false [] false false 0 (mkStats 2 0 0 0 0 0 0 0 false false) newIngestionLatencyTracker false false "" ∅ 0 [] [].

(** What is left of the state after the run, in brief. *)
Definition brief (y : system) : bool * bool * bool * list nat * list nat :=
  (closing (ingestor y), queueClosed (ingestor y), closed (ingestor y), sent (ingestor y), finished (ingestor y)).

Lemma sample_run : ∃ y, reachable y ∧ brief y = (true, false, false, [0%nat], [0%nat]) ∧ Accepted (stats (ingestor y)) = 1.
Proof.
  eexists. split.
  - exists (mkSystem sample_ingestor [] Waiting). split; [by exists 2, sample_ingestor|].
    eapply rtc_l; [right; apply (arrive_submit _ _ _ (Ok (AuditItem sample_event)) false)|]. cbn [app].
    do 8 submits. do 8 works. eapply rtc_l; [right; apply arrive_close|]. apply rtc_refl.
  - split; reflexivity.
Qed.

Lemma ingest_invariant_witness : ∃ y, reachable y ∧ finished (ingestor y) `prefix_of` sent (ingestor y) ∧ Panicked ∉ threads y.
Proof.
  destruct sample_run as (y & Hr & _). exists y. split; [exact Hr|]. destruct (ingest_invariant y Hr) as (Hp & _ & _ & Hf & _). split; [exact Hf|exact Hp].
Defined.

Lemma close_completes_witness :
  ∃ y, reachable y ∧ inevitably (λ z, closed (ingestor z) = true ∧ queue (ingestor z) = [] ∧ finished (ingestor z) = sent (ingestor z)) y.
Proof.
  destruct sample_run as (y & Hr & Hb & _). exists y. split; [exact Hr|]. apply (close_completes y Hr). unfold brief in Hb. congruence.
Defined.

End Ingest.
