(* ===== verification/WatchHealth.v ===== *)
(** * Operational health of Device Watch

    [devicewatch/operational_health.go]: the health of the sensor, of the ingestion pipeline
    and of the database as Device Watch reports them. *)

From S2P Require Import Prelude GoTime StorageHealth.

Module WatchHealth.

Definition coverageFreshnessWindow : Duration := 3 * Minute.
Definition coverageFutureTolerance : Duration := Minute.

Definition OperationalState := string.
Definition OperationalCurrent : OperationalState := "current".
Definition OperationalStarting : OperationalState := "starting".
Definition OperationalDegraded : OperationalState := "degraded".
Definition OperationalStale : OperationalState := "stale".
Definition OperationalDisconnected : OperationalState := "disconnected".
Definition OperationalUnavailable : OperationalState := "unavailable".

Record SensorHealth := mkSensor {
  sState : OperationalState; Running : bool; LastAttemptAt : Time; LastSuccessfulAt : Time; LastErrorClass : string; sNextStep : string }.

(** The health of the pipeline keeps the figures of the ingestor. *)
Record PipelineHealth := mkPipeline { pState : OperationalState; pReason : string; figures : StorageHealth.IngestionHealth; pNextStep : string }.
Record DatabaseHealth := mkDatabase { dState : OperationalState; dReason : string; volume : option StorageHealth.Health; dNextStep : string }.
Record OperationalHealth := mkOperational { Sensor : SensorHealth; Pipeline : PipelineHealth; Database : DatabaseHealth }.

(** What [RuntimeState] says of the sensor. *)
Record RuntimeState := mkRuntime { rRunning : bool; rLastAttemptAt : Time; rLastSuccessfulAt : Time; rLastErrorClass : string }.

Definition sensorErrorNextStep (reason : string) : string :=
  if (reason == "scope-mismatch") || (reason == "unsupported-interface")
  then "Return to the enrolled network or re-enroll the intended local interface before trusting Device Watch coverage."
  else if reason == "source-unavailable" then "Check local ARP/NDP neighbor-table access on the enrolled Mac."
  else if reason == "permission-required"
  then "Review the local controller's permission to read this Mac's neighbor tables, then retry Device Watch collection."
  else if reason == "source-oversized" then "Inspect local neighbor-table behavior before increasing any collection limits."
  else if reason == "canceled" then "Confirm the controller is awake and Device Watch is still enabled."
  else "Inspect local Device Watch diagnostics and restore successful collection before trusting current coverage.".

Definition sensorHealth (runtime : option RuntimeState) (now : Time) : SensorHealth :=
  match runtime with
  | None =>
      mkSensor OperationalUnavailable false zeroTime zeroTime ""
        "Use Device Watch only on a platform with a supported passive runtime."
  | Some state =>
      let health st next := mkSensor st (rRunning state) (UTC (rLastAttemptAt state)) (UTC (rLastSuccessfulAt state)) (rLastErrorClass state) next in
      if negb (rRunning state)
      then health OperationalDisconnected "Restart Device Watch and confirm the enrolled network is still available."
      else if rLastErrorClass state != "" then health OperationalDegraded (sensorErrorNextStep (rLastErrorClass state))
      else if IsZero (rLastAttemptAt state) || IsZero (rLastSuccessfulAt state)
      then health OperationalStarting "Wait for the first Device Watch collection to complete."
      else if After (rLastSuccessfulAt state) (Add now coverageFutureTolerance)
      then health OperationalDegraded "Correct the controller clock before relying on sensor timestamps."
      else if coverageFreshnessWindow <? Sub now (rLastSuccessfulAt state)
      then health OperationalStale "Wake or reconnect the enrolled Mac and confirm Device Watch is still running."
      else health OperationalCurrent ""
  end.

Definition pipelineHealth (h : StorageHealth.IngestionHealth) : PipelineHealth :=
  let state := StorageHealth.iState h in
  let degraded reason next := mkPipeline OperationalDegraded reason h next in
  if state == StorageHealth.IngestionHealthCurrent then
    if StorageHealth.QueuePressure h
    then mkPipeline OperationalCurrent "queue-pressure" h
           "Queue utilization is high, but measured accepted-to-durable latency remains within the current lag threshold."
    else mkPipeline OperationalCurrent "" h ""
  else if state == StorageHealth.IngestionHealthLagging
  then degraded "latency" "Restore ingestion throughput; accepted evidence is taking too long to reach durable storage."
  else if state == StorageHealth.IngestionHealthBackpressure
  then degraded "backpressure" "Restore ingestion throughput; some evidence has been dropped while the queue was saturated."
  else if state == StorageHealth.IngestionHealthStorageFull
  then degraded "sqlite-full" "SQLite rejected a write as full. Free the limiting database or host-volume capacity shown below, then wait for a successful collection to prove write recovery."
  else if state == StorageHealth.IngestionHealthWriteFailed
  then degraded "write-failed" "Restore controller storage writes before trusting newly collected evidence."
  else if state == StorageHealth.IngestionHealthClosing
  then degraded "closing" "Allow controller shutdown to complete before evaluating coverage."
  else if state == StorageHealth.IngestionHealthClosed
  then mkPipeline OperationalDisconnected "closed" h "Restart the controller before relying on new Device Watch evidence."
  else degraded "unknown" "Inspect ingestion diagnostics before trusting new Device Watch evidence.".

Definition databaseHealth (h : StorageHealth.Health) : DatabaseHealth :=
  let state := StorageHealth.hState h in
  let degraded reason next := mkDatabase OperationalDegraded reason (Some h) next in
  if state == StorageHealth.HealthCurrent then
    if StorageHealth.FilesystemSupported h && (StorageHealth.FilesystemState h == StorageHealth.FilesystemCapacityUnavailable)
    then degraded "filesystem-unknown" "Check the controller state-directory volume before relying on filesystem-capacity health."
    else mkDatabase OperationalCurrent "" (Some h) ""
  else if state == StorageHealth.HealthPressure
  then degraded "quota-pressure" "Review retention and storage growth before the Cozy SOC database reaches its configured quota."
  else if state == StorageHealth.HealthAtQuota
  then degraded "quota-reached" "Free Cozy SOC database capacity before relying on new evidence writes."
  else if state == StorageHealth.HealthFilesystemPressure
  then degraded "filesystem-pressure" "Free space on the volume containing the Cozy SOC state directory before available write headroom is exhausted."
  else if state == StorageHealth.HealthFilesystemFull
  then degraded "filesystem-full" "Free space on the volume containing the Cozy SOC state directory before relying on new evidence writes."
  else degraded "unknown" "Inspect controller storage health before relying on new evidence writes.".

(** [LifecycleDriver.OperationalHealth]: [runtime] is [None] without a runtime, [store] without
    a store; the store may fail. *)
Definition driver_health (runtime : option (RuntimeState * StorageHealth.IngestionHealth)) (store : option (result string StorageHealth.Health))
    (now : Time) : result string OperationalHealth :=
  let now := UTC now in
  let '(sensor, pipeline) :=
    match runtime with
    | Some (state, ingestion) => (sensorHealth (Some state) now, pipelineHealth ingestion)
    | None => (sensorHealth None now, pipelineHealth (StorageHealth.zeroIngestionHealth StorageHealth.IngestionHealthClosed ""))
    end in
  match store with
  | Some (Err e) => Err e
  | Some (Ok health) => Ok (mkOperational sensor pipeline (databaseHealth health))
  | None =>
      Ok (mkOperational sensor pipeline
            (mkDatabase OperationalUnavailable "storage-unavailable" None "Restart the controller before relying on Device Watch storage health."))
  end.

(** ** What the health says *)

(** A sensor is current exactly when it runs, its last collection succeeded, and that was at
    most three minutes ago and not more than a minute ahead of the clock. *)
Lemma sensor_current runtime now :
  sState (sensorHealth runtime now) = OperationalCurrent ↔
  ∃ r, runtime = Some r ∧ rRunning r = true ∧ rLastErrorClass r = "" ∧ IsZero (rLastAttemptAt r) = false ∧
    IsZero (rLastSuccessfulAt r) = false ∧ After (rLastSuccessfulAt r) (Add now coverageFutureTolerance) = false ∧
    Sub now (rLastSuccessfulAt r) <= coverageFreshnessWindow.
Proof.
  unfold sensorHealth. destruct runtime as [r|]; [|naive_solver]. split.
  - intros H. exists r. destruct (rRunning r); simpl in H; [|done]. case_bool_decide; simpl in H; [|done].
    destruct (IsZero (rLastAttemptAt r)); [done|]. destruct (IsZero (rLastSuccessfulAt r)); [done|]. simpl in H.
    destruct (After _ _); [done|]. destruct (Z.ltb_spec coverageFreshnessWindow (Sub now (rLastSuccessfulAt r))); [done|]. done.
  - intros (r' & [= <-] & -> & -> & -> & -> & -> & H). simpl. by rewrite (proj2 (Z.ltb_ge _ _) H).
Qed.

Lemma pipeline_current h : pState (pipelineHealth h) = OperationalCurrent ↔ StorageHealth.iState h = StorageHealth.IngestionHealthCurrent.
Proof.
  unfold pipelineHealth. case_bool_decide; [destruct (StorageHealth.QueuePressure h); done|]. split; [|done].
  repeat case_bool_decide; done.
Qed.

Lemma database_current h :
  dState (databaseHealth h) = OperationalCurrent ↔
  StorageHealth.hState h = StorageHealth.HealthCurrent ∧
  ¬ (StorageHealth.FilesystemSupported h = true ∧ StorageHealth.FilesystemState h = StorageHealth.FilesystemCapacityUnavailable).
Proof.
  unfold databaseHealth. case_bool_decide as E.
  - destruct (StorageHealth.FilesystemSupported h); simpl; [case_bool_decide; naive_solver|naive_solver].
  - split; [|naive_solver]. repeat case_bool_decide; done.
Qed.

End WatchHealth.
