(* ===== verification/WatchCoverage.v ===== *)
(** * Coverage of Device Watch

    [devicewatch/coverage_report.go], [coverage.go], [coverage_operational.go],
    [coverage_contract.go] and [presence.go]: from the latest retained sample and the
    operational health to the report a user sees, as a coverage contract and as verification
    signals.  The decoding of the stored JSON evidence into its record is a parameter, so what
    is proved holds for whatever it yields. *)

From Stdlib Require Import Ascii.
From S2P Require Import Prelude Regex GoTime Manifest Domain Lifecycle Coverage WatchScope StorageHealth WatchHealth.

Module WatchCoverage.
Import WatchHealth.

Definition CapabilityID : string := "device-watch".
Definition MaxNeighborEntries : Z := 4096.
Definition defaultCollectionInterval : Duration := Minute.
Definition presenceFreshWindow : Duration := 3 * Minute.
Definition deviceWatchObservationPointID : string := "device-watch.local-neighbor-cache".

Definition NeighborMethod := string.
Definition MethodARPCache : NeighborMethod := "arp-cache".
Definition MethodNDPCache : NeighborMethod := "ndp-cache".

Definition CoverageState := string.
Definition CoverageUnverified : CoverageState := "unverified".
Definition CoverageActiveLimited : CoverageState := "active-limited".
Definition CoverageDegraded : CoverageState := "degraded".
Definition CoverageStale : CoverageState := "stale".
Definition CoverageDisconnected : CoverageState := "disconnected".

Definition CoverageSourceState := string.
Definition CoverageSourceCurrent : CoverageSourceState := "current".
Definition CoverageSourcePermission : CoverageSourceState := "permission-required".
Definition CoverageSourceUnavailable : CoverageSourceState := "unavailable".
Definition CoverageSourceStale : CoverageSourceState := "stale".
Definition CoverageSourceMissing : CoverageSourceState := "missing".
Definition CoverageSourceUnknown : CoverageSourceState := "unknown".

Record CoverageSourceDetail := mkDetail {
  cID : string; AddressFamily : string; cState : CoverageSourceState; cObserved : bool; AvailableAtLastSample : bool; cNextStep : string }.
Record CoverageBlindSpot := mkBlindSpot { bID : string; bSummary : string; bDetail : string; bNextStep : string }.
Record CoverageReport := mkCoverageReport {
  rScopeID : string; rSensorID : string; rInterfaceName : string; rCState : CoverageState; rCReason : string; rHasEvidence : bool;
  EvidenceAt : Time; rFreshUntil : Time; NeighborsInScope : Z; rSources : list CoverageSourceDetail; BlindSpots : list CoverageBlindSpot;
  rCNextStep : string }.

(** The stored evidence. *)
Record coverageEvidenceSource := mkEvidenceSource { Method : NeighborMethod; Available : bool; PermissionRequired : bool }.
Record coverageEvidence := mkEvidence {
  eSchemaVersion : Z; eInterface : string; eSources : list coverageEvidenceSource; eNeighborsInScope : Z; ObservationsInserted : Z;
  ObservationsDeduplicated : Z; WholeNetworkTrafficVisible : bool; Limitations : list string }.

(** ** Sources and blind spots *)

Definition missingCoverageSources : list CoverageSourceDetail :=
  [mkDetail MethodARPCache "ipv4" CoverageSourceMissing false false
     "Wait for a successful Device Watch collection before judging IPv4 neighbor visibility.";
   mkDetail MethodNDPCache "ipv6" CoverageSourceMissing false false
     "Wait for a successful Device Watch collection before judging IPv6 neighbor visibility."].

Definition unknownCoverageSources : list CoverageSourceDetail :=
  [mkDetail MethodARPCache "ipv4" CoverageSourceUnknown false false
     "Do not rely on IPv4 source health until valid coverage evidence is produced.";
   mkDetail MethodNDPCache "ipv6" CoverageSourceUnknown false false
     "Do not rely on IPv6 source health until valid coverage evidence is produced."].

Definition coverageSourceDetail (method : NeighborMethod) (family : string) (source : coverageEvidenceSource) (observed : bool)
  : CoverageSourceDetail :=
  let detail state next := mkDetail method family state observed (Available source) next in
  if Available source then detail CoverageSourceCurrent ""
  else if PermissionRequired source
  then detail CoverageSourcePermission "Review the local controller's permission to read this Mac's neighbor table, then retry Device Watch collection."
  else if method == MethodARPCache
  then detail CoverageSourceUnavailable "Check that the enrolled Mac can read its ARP neighbor table for IPv4 visibility."
  else detail CoverageSourceUnavailable "Check that the enrolled Mac can read its NDP neighbor table for IPv6 visibility.".

(** The map keeps the last source of a method; a missing one is the zero value. *)
Definition source_of (method : NeighborMethod) (sources : list coverageEvidenceSource) : coverageEvidenceSource :=
  default (mkEvidenceSource "" false false) (last (filter (λ s, Method s = method) sources)).
Definition currentCoverageSources (sources : list coverageEvidenceSource) : list CoverageSourceDetail :=
  [coverageSourceDetail MethodARPCache "ipv4" (source_of MethodARPCache sources) true;
   coverageSourceDetail MethodNDPCache "ipv6" (source_of MethodNDPCache sources) true].

Definition hasUnavailableCoverageSource (sources : list CoverageSourceDetail) : bool :=
  existsb (λ s, (cState s == CoverageSourceUnavailable) || (cState s == CoverageSourcePermission)) sources.
Definition hasPermissionCoverageSource (sources : list CoverageSourceDetail) : bool :=
  existsb (λ s, cState s == CoverageSourcePermission) sources.

Definition deviceWatchBlindSpots : list CoverageBlindSpot :=
  [mkBlindSpot "host-neighbor-cache-only" "Only peers recently resolved by this Mac can appear"
     "A passive ARP/NDP cache is not a complete inventory of every device on the LAN."
     "Treat an unseen device as unknown rather than absent or safe.";
   mkBlindSpot "isolated-segments-not-observed" "Client-isolated devices and other VLANs/subnets may be absent"
     "Device Watch observes the enrolled local link from this Mac; it does not cross isolation or infer visibility from another segment."
     "Use an observation point inside isolated segments when broader device visibility is required.";
   mkBlindSpot "no-traffic-monitoring" "Device Watch does not observe other devices' traffic"
     "ARP/NDP neighbor evidence does not show internet uploads, east-west flows, packet contents, or application behavior."
     "Use Traffic Watch when packet or flow visibility is needed; do not infer traffic coverage from Device Watch."].

(** ** Evidence *)

Definition coverageStatusConsistent (status : string) (sources : list coverageEvidenceSource) : bool :=
  let available := llen (filter (λ s, Available s = true) sources) in
  if status == "partial" then 0 <? available else if status == "unavailable" then available =? 0 else false.

Definition source_round (version : Z) (seen : list NeighborMethod) (s : coverageEvidenceSource) : result string (list NeighborMethod) :=
  guard? (Method s != MethodARPCache) && (Method s != MethodNDPCache) else "unsupported Device Watch coverage source" in
  guard? bool_decide (Method s ∈ seen) else "duplicate Device Watch coverage source" in
  guard? PermissionRequired s && ((version =? 1) || Available s) else "invalid Device Watch coverage permission state" in
  Ok (Method s :: seen).

Section Report.
Context (letter_or_digit : Z → bool) (decode : string → option coverageEvidence).

Definition decodeCoverageEvidence (raw : string) : result string coverageEvidence :=
  match decode raw with
  | None => Err "decode Device Watch coverage evidence"
  | Some e =>
      guard? negb (eSchemaVersion e =? 1) && negb (eSchemaVersion e =? 2) else "unsupported Device Watch coverage evidence schema" in
      guard? negb (is_ok (WatchScope.ValidateEnrollmentInterfaceName letter_or_digit (eInterface e))) else "invalid Device Watch coverage interface" in
      guard? (eNeighborsInScope e <? 0) || (MaxNeighborEntries <? eNeighborsInScope e) || (ObservationsInserted e <? 0) ||
             (MaxNeighborEntries <? ObservationsInserted e) || (ObservationsDeduplicated e <? 0) ||
             (MaxNeighborEntries <? ObservationsDeduplicated e) ||
             negb (ObservationsInserted e + ObservationsDeduplicated e =? eNeighborsInScope e)
      else "invalid Device Watch coverage counters" in
      guard? WholeNetworkTrafficVisible e else "Device Watch coverage cannot claim whole-network traffic visibility" in
      guard? (llen (Limitations e) =? 0) || (8 <? llen (Limitations e)) else "invalid Device Watch coverage limitations" in
      guard? existsb (λ l, (l == "") || (512 <? slen l) || (TrimSpace l != l)) (Limitations e) else "invalid Device Watch coverage limitation" in
      guard? negb (llen (eSources e) =? 2) else "Device Watch coverage must report both neighbor sources" in
      let? seen := for_each (source_round (eSchemaVersion e)) (eSources e) [] in
      guard? negb (bool_decide (MethodARPCache ∈ seen)) || negb (bool_decide (MethodNDPCache ∈ seen))
      else "Device Watch coverage is missing a required neighbor source" in
      Ok e
  end.

Definition first_report (scopeID : string) : CoverageReport :=
  mkCoverageReport scopeID "" "" CoverageUnverified "no-evidence" false zeroTime zeroTime 0 missingCoverageSources deviceWatchBlindSpots
    "Wait for the first Device Watch collection; if evidence does not appear, confirm the enrolled Mac is awake and Device Watch is enabled.".

(** Every source in one state, as the loops over [report.Sources] set them. *)
Definition all_sources (state : CoverageSourceState) (next : string) (l : list CoverageSourceDetail) : list CoverageSourceDetail :=
  map (λ s, mkDetail (cID s) (AddressFamily s) state (cObserved s) (AvailableAtLastSample s) next) l.

(** The rest of [CurrentCoverage], with a sample. *)
Definition sampled_report (scopeID : string) (sample : Domain.CoverageSample) (now : Time) : CoverageReport :=
  let at_ := UTC (Domain.EndedAt sample) in
  let freshUntil := Add at_ coverageFreshnessWindow in
  let report iface state reason neighbors sources next :=
    mkCoverageReport scopeID (Domain.coSensorID sample) iface state reason true at_ freshUntil neighbors sources deviceWatchBlindSpots next in
  let invalid := report "" CoverageDegraded "invalid-evidence" 0 unknownCoverageSources
                   "Restart the controller; if invalid Device Watch evidence persists, inspect local diagnostics before trusting coverage state." in
  match decodeCoverageEvidence (Domain.coEvidence sample) with
  | Err _ => invalid
  | Ok evidence =>
      if negb (Domain.coSchemaVersion sample =? eSchemaVersion evidence) || negb (coverageStatusConsistent (Domain.coStatus sample) (eSources evidence))
      then invalid
      else
        let sources := currentCoverageSources (eSources evidence) in
        let report := report (eInterface evidence) in
        let now := UTC now in
        if After at_ (Add now coverageFutureTolerance)
        then report CoverageDegraded "clock-skew" (eNeighborsInScope evidence)
               (all_sources CoverageSourceUnknown "Correct the controller clock before relying on this source timestamp." sources)
               "Correct the controller clock before relying on Device Watch freshness."
        else if coverageFreshnessWindow <? Sub now at_
        then report CoverageStale "stale-evidence" (eNeighborsInScope evidence)
               (all_sources CoverageSourceStale "Wake or reconnect the enrolled Mac and confirm Device Watch is still enabled on this network." sources)
               "Wake or reconnect the enrolled Mac and confirm Device Watch is still enabled on the enrolled network."
        else if Domain.coStatus sample == "partial" then
          if hasUnavailableCoverageSource sources
          then report CoverageDegraded "source-partial" (eNeighborsInScope evidence) sources
                 (if hasPermissionCoverageSource sources
                  then "Review the local controller's neighbor-table permissions, then retry Device Watch collection."
                  else "Restore the unavailable neighbor source if dual-stack device visibility matters; Device Watch remains limited even when both sources are current.")
          else report CoverageActiveLimited "fresh-limited" (eNeighborsInScope evidence) sources
                 "Use Traffic Watch rather than Device Watch when packet or flow visibility is required."
        else if Domain.coStatus sample == "unavailable"
        then report CoverageDegraded "source-unavailable" (eNeighborsInScope evidence) sources
               (if hasPermissionCoverageSource sources
                then "Review the local controller's neighbor-table permissions, then retry Device Watch collection."
                else "Check local ARP/NDP neighbor-table access on the enrolled Mac and confirm the interface still matches the enrolled network.")
        else report CoverageUnverified "no-evidence" (eNeighborsInScope evidence) sources (rCNextStep (first_report scopeID))
  end.

(** [reader] is [None] for a nil reader; it answers with a sample, with none, or fails. *)
Definition CurrentCoverage (reader : option (result string (option Domain.CoverageSample))) (scopeID : string) (now : Time)
  : result string CoverageReport :=
  match reader with
  | None | Some (Ok None) => Ok (first_report scopeID)
  | Some (Err e) => Err e
  | Some (Ok (Some sample)) => Ok (sampled_report scopeID sample now)
  end.

End Report.

(** ** Verification signals *)

Definition signal_of (report : CoverageReport) : Lifecycle.VerificationSignal :=
  let signal status message := Lifecycle.mkSignal "observation-freshness" status message in
  if rCState report == CoverageActiveLimited
  then signal Lifecycle.SignalFresh "fresh passive neighbor-cache coverage evidence is available"
  else if rCState report == CoverageStale
  then signal Lifecycle.SignalStale "latest Device Watch coverage sample is older than the freshness window"
  else if rCState report == CoverageDegraded
  then signal Lifecycle.SignalFailed
         (if rCReason report == "source-partial" then "one or more current passive neighbor sources are unavailable"
          else if rCReason report == "source-unavailable" then "current passive neighbor sources are unavailable"
          else if rCReason report == "clock-skew" then "latest Device Watch coverage sample is ahead of the controller clock"
          else "latest Device Watch coverage evidence is invalid")
  else signal Lifecycle.SignalMissing "no retained Device Watch coverage sample is available".

Definition coverageVerificationSignal (report : result string CoverageReport) : result string Lifecycle.VerificationSignal :=
  let? report := report in Ok (signal_of report).

Definition sensorVerificationSignal (h : SensorHealth) : Lifecycle.VerificationSignal :=
  let signal status message := Lifecycle.mkSignal "sensor-operational" status message in
  if sState h == OperationalCurrent then signal Lifecycle.SignalFresh ""
  else if sState h == OperationalStarting then signal Lifecycle.SignalMissing "Device Watch has not completed its first collection"
  else if sState h == OperationalStale
  then signal Lifecycle.SignalStale "Device Watch has not completed a successful collection within the freshness window"
  else signal Lifecycle.SignalFailed "Device Watch sensor runtime is not currently healthy".

Definition pipelineVerificationSignal (h : PipelineHealth) : Lifecycle.VerificationSignal :=
  if pState h == OperationalCurrent then Lifecycle.mkSignal "ingestion-health" Lifecycle.SignalFresh ""
  else Lifecycle.mkSignal "ingestion-health" Lifecycle.SignalFailed "Device Watch ingestion pipeline is degraded".

Definition databaseVerificationSignal (h : DatabaseHealth) : Lifecycle.VerificationSignal :=
  if dState h == OperationalCurrent then Lifecycle.mkSignal "storage-health" Lifecycle.SignalFresh ""
  else Lifecycle.mkSignal "storage-health" Lifecycle.SignalFailed "Device Watch storage capacity is degraded".

(** ** The contract *)

Definition EffectiveCoverage (report : CoverageReport) (operational : OperationalHealth) : CoverageState * string * string :=
  let sensor := sState (Sensor operational) in
  let next := sNextStep (Sensor operational) in
  let pipeline := Pipeline operational in
  let database := Database operational in
  if sensor == OperationalDisconnected then (CoverageDisconnected, "sensor-disconnected", next)
  else if sensor == OperationalStale then (CoverageStale, "sensor-stale", next)
  else if (sensor == OperationalDegraded) || (sensor == OperationalUnavailable) then (CoverageDegraded, "sensor-degraded", next)
  else if sensor == OperationalStarting then (CoverageUnverified, "sensor-starting", next)
  else if pState pipeline != OperationalCurrent then
    if (pReason pipeline == "sqlite-full") && (dState database != OperationalCurrent)
    then (CoverageDegraded, "storage-" +:+ dReason database, dNextStep database)
    else (CoverageDegraded, "ingestion-" +:+ pReason pipeline, pNextStep pipeline)
  else if dState database != OperationalCurrent then (CoverageDegraded, "storage-" +:+ dReason database, dNextStep database)
  else (rCState report, rCReason report, rCNextStep report).

Definition addressFamilyDimension (family : string) : option Coverage.Dimension :=
  if (family == "ipv4") || (family == "ipv6") then Some (Coverage.mkDimension Coverage.DimensionAddressFamily family) else None.

(** The loop over the sources: verified, expected and the number of current families. *)
Definition scope_round (st : list Coverage.Dimension * list Coverage.Dimension * Z) (source : CoverageSourceDetail)
  : list Coverage.Dimension * list Coverage.Dimension * Z :=
  let '(verified, expected, currentFamilies) := st in
  match addressFamilyDimension (AddressFamily source) with
  | None => st
  | Some d =>
      if cState source == CoverageSourceCurrent then (verified ++ [d], expected, currentFamilies + 1)
      else (verified, expected ++ [d], currentFamilies)
  end.

Definition deviceWatchCoverageScope (report : CoverageReport) : Coverage.Scope :=
  let network := Coverage.mkDimension Coverage.DimensionNetwork (rScopeID report) in
  let ipv4 := Coverage.mkDimension Coverage.DimensionAddressFamily "ipv4" in
  let ipv6 := Coverage.mkDimension Coverage.DimensionAddressFamily "ipv6" in
  let iface := if rInterfaceName report != "" then [Coverage.mkDimension Coverage.DimensionInterface (rInterfaceName report)] else [] in
  let '(verified, expected, currentFamilies) := foldl scope_round ([], [], 0) (rSources report) in
  if 0 <? currentFamilies
  then Coverage.mkScope ([network; ipv4; ipv6] ++ iface) (verified ++ network :: iface) expected
  else Coverage.mkScope ([network; ipv4; ipv6] ++ iface) verified (expected ++ network :: iface).

Definition sharedSourceState (state : CoverageSourceState) : Coverage.SourceState :=
  if state == CoverageSourceCurrent then Coverage.SourceCurrent
  else if state == CoverageSourceUnavailable then Coverage.SourceUnavailable
  else if state == CoverageSourcePermission then Coverage.SourcePermissionRequired
  else if state == CoverageSourceStale then Coverage.SourceStale
  else if state == CoverageSourceMissing then Coverage.SourceExpectedUnverified
  else Coverage.SourceUnknown.

Definition sharedDeviceWatchGap (b : CoverageBlindSpot) : Coverage.Gap :=
  let gap kind directions := Coverage.mkGap (bID b) kind (bSummary b) (bDetail b) (bNextStep b) [] directions in
  if bID b == "host-neighbor-cache-only" then gap "observation-point-limited" []
  else if bID b == "isolated-segments-not-observed" then gap "scope-not-observed" []
  else if bID b == "no-traffic-monitoring"
  then gap "direction-not-observed" [Coverage.DirectionIngress; Coverage.DirectionEgress; Coverage.DirectionEastWest]
  else gap "known-exclusion" [].

Definition contract_source (s : CoverageSourceDetail) : Coverage.Source :=
  Coverage.mkSource (cID s) "neighbor-cache" (sharedSourceState (cState s)) true (cObserved s) (cNextStep s).

Definition contract (report : CoverageReport) (operational : OperationalHealth) : Coverage.Report :=
  let '(state, reason, nextStep) := EffectiveCoverage report operational in
  let window := if rHasEvidence report then Coverage.mkWindow true (EvidenceAt report) (EvidenceAt report) (rFreshUntil report)
                else Coverage.mkWindow false zeroTime zeroTime zeroTime in
  let point := Coverage.mkPoint deviceWatchObservationPointID "host-neighbor-cache" (rSensorID report) state reason
                 (deviceWatchCoverageScope report) (map contract_source (rSources report)) [] window
                 (Coverage.mkCadence Coverage.CadencePeriodic defaultCollectionInterval 0)
                 (map sharedDeviceWatchGap (BlindSpots report)) nextStep in
  Coverage.mkReport CapabilityID true state reason [point] nextStep.

Definition CoverageContract (report : CoverageReport) (operational : OperationalHealth) : result string Coverage.Report :=
  check? Coverage.ValidateSinglePointReport (contract report operational) in Ok (contract report operational).

Definition UnconfiguredCoverageContract : Coverage.Report :=
  Coverage.mkReport CapabilityID false Coverage.StateUnconfigured "not-configured" []
    "Enroll a home network and enable Device Watch before evaluating its coverage.".

(** ** Presence *)

Definition PresenceVisible : string := "visible".
Definition PresenceUncertain : string := "uncertain".
(** What [storage.DeviceEvidenceSummary] says of a device. *)
Record DeviceEvidenceSummary := mkSummary { smDevice : Domain.Device; smFirstSeen : Time; smLastSeen : Time }.
Record DevicePresence := mkPresence { prID : string; prUserLabel : string; FirstSeen : Time; LastSeen : Time; prState : string }.
Record PresencePage := mkPage { pgScopeID : string; AsOf : Time; Devices : list DevicePresence; NextID : string }.

Definition PresenceFromEvidence (summary : DeviceEvidenceSummary) (asOf : Time) : DevicePresence :=
  let age := Sub (UTC asOf) (smLastSeen summary) in
  mkPresence (Domain.deID (smDevice summary)) (Domain.UserLabel (smDevice summary)) (smFirstSeen summary) (smLastSeen summary)
    (if (0 <=? age) && (age <=? presenceFreshWindow) then PresenceVisible else PresenceUncertain).

(** [reader] answers a query by scope, time, cursor and limit; [clock] is [time.Now]. *)
Definition ListPresence (reader : option (string → Time → string → Z → result string (list DeviceEvidenceSummary * string))) (clock : Time)
    (scopeID : string) (asOf : Time) (afterID : string) (limit : Z) : result string PresencePage :=
  match reader with
  | None => Err "device presence reader is required"
  | Some reader =>
      let asOf := if IsZero asOf then UTC clock else UTC asOf in
      let? (devices, nextID) := reader scopeID asOf afterID limit in
      Ok (mkPage scopeID asOf (map (λ s, PresenceFromEvidence s asOf) devices) nextID)
  end.

(** ** Every report is one the contract accepts *)

Lemma check_text s max : Coverage.validateText s max = Ok tt → Coverage.text_ok max s.
Proof. apply Coverage.text_iff. Qed.

(** Texts and tokens of the source are checked by computation. *)
Ltac constant := first [apply check_text; vm_compute; reflexivity|vm_compute; reflexivity].

Definition speaks (reason next : string) : Prop := Coverage.validToken reason = true ∧ Coverage.text_ok Coverage.maxNextStepLength next.

(** One of the two sources: a current one was observed and needs no advice. *)
Definition source_wf (method family : string) (evidence : bool) (s : CoverageSourceDetail) : Prop :=
  cID s = method ∧ AddressFamily s = family ∧
  (if cState s == CoverageSourceCurrent then cObserved s = true ∧ evidence = true ∧ cNextStep s = ""
   else Coverage.text_ok Coverage.maxNextStepLength (cNextStep s) ∧ (evidence = false → cObserved s = false)).

Definition value_ok (v : string) : Prop := Coverage.validateValue v = Ok tt.

Record report_wf (r : CoverageReport) : Prop := {
  w_state : rCState r ∈ [CoverageUnverified; CoverageActiveLimited; CoverageDegraded; CoverageStale];
  w_speaks : speaks (rCReason r) (rCNextStep r);
  w_scope : value_ok (rScopeID r);
  w_sensor : rSensorID r ≠ "" → Coverage.validToken (rSensorID r) = true;
  w_iface : rInterfaceName r ≠ "" → value_ok (rInterfaceName r);
  w_sources : ∃ a b, rSources r = [a; b] ∧ source_wf MethodARPCache "ipv4" (rHasEvidence r) a ∧ source_wf MethodNDPCache "ipv6" (rHasEvidence r) b;
  w_blind : BlindSpots r = deviceWatchBlindSpots;
  w_times : rHasEvidence r = true → zero_wall < wall (EvidenceAt r) ∧ rFreshUntil r = Add (EvidenceAt r) coverageFreshnessWindow ∧
            canonical (EvidenceAt r);
}.

Section Wf.
Context (letter_or_digit : Z → bool) (decode : string → option coverageEvidence).

Lemma detail_wf method family s :
  (method = MethodARPCache ∧ family = "ipv4") ∨ (method = MethodNDPCache ∧ family = "ipv6") →
  source_wf method family true (coverageSourceDetail method family s true).
Proof.
  intros [[-> ->]|[-> ->]]; unfold coverageSourceDetail, source_wf; destruct (Available s), (PermissionRequired s); simpl; split_and!; try done; constant.
Qed.

Lemma all_wf method family state next s :
  source_wf method family true s → state ≠ CoverageSourceCurrent → Coverage.text_ok Coverage.maxNextStepLength next →
  source_wf method family true (mkDetail (cID s) (AddressFamily s) state (cObserved s) (AvailableAtLastSample s) next).
Proof. intros (H1 & H2 & _) Hs Hn. unfold source_wf. simpl. by rewrite bool_decide_eq_false_2. Qed.

Lemma decoded_interface raw e :
  decodeCoverageEvidence letter_or_digit decode raw = Ok e → WatchScope.validateInterfaceName letter_or_digit (eInterface e) = Ok tt.
Proof.
  unfold decodeCoverageEvidence. destruct (decode raw) as [e'|]; [|done]. rewrite !guard_ok. intros (_ & Hi & _ & _ & _ & _ & _ & H).
  rewrite res_bind_ok in H. destruct H as (seen & _ & H). rewrite guard_ok in H. destruct H as [_ [= <-]].
  rewrite negb_false_iff, is_ok_true in Hi. by destruct Hi as [[] ?].
Qed.

Lemma interface_value v : WatchScope.validateInterfaceName letter_or_digit v = Ok tt → value_ok v.
Proof.
  intros (He & Hl & Ht & Hc)%WatchScope.name_plain. unfold value_ok, Coverage.validateValue.
  rewrite Manifest.guard_unit, !orb_false_iff, negb_false_iff, bool_decide_eq_true, bool_decide_eq_false, Z.ltb_ge.
  split_and!; try done. unfold Coverage.maxValueLength. lia.
Qed.

Lemma first_wf scopeID : value_ok scopeID → report_wf (first_report scopeID).
Proof.
  intros Hs. constructor; simpl; try (by left); try done.
  eexists _, _. split; [done|]. unfold source_wf. simpl. split_and!; try done; constant.
Qed.

Lemma sampled_wf scopeID sample now :
  value_ok scopeID → Coverage.validToken (Domain.coSensorID sample) = true → zero_wall < wall (Domain.EndedAt sample) →
  report_wf (sampled_report letter_or_digit decode scopeID sample now).
Proof.
  intros Hs Ht Hw.
  assert (Hmk : ∀ iface state reason n sources next, (iface ≠ "" → value_ok iface) →
    state ∈ [CoverageUnverified; CoverageActiveLimited; CoverageDegraded; CoverageStale] → speaks reason next →
    (∃ a b, sources = [a; b] ∧ source_wf MethodARPCache "ipv4" true a ∧ source_wf MethodNDPCache "ipv6" true b) →
    report_wf (mkCoverageReport scopeID (Domain.coSensorID sample) iface state reason true (UTC (Domain.EndedAt sample))
      (Add (UTC (Domain.EndedAt sample)) coverageFreshnessWindow) n sources deviceWatchBlindSpots next)) by (intros; constructor; simpl; done).
  assert (Hunknown : ∃ a b, unknownCoverageSources = [a; b] ∧ source_wf MethodARPCache "ipv4" true a ∧ source_wf MethodNDPCache "ipv6" true b).
  { eexists _, _. split; [done|]. unfold source_wf. simpl. split_and!; try done; constant. }
  unfold sampled_report. destruct (decodeCoverageEvidence _ _ _) as [e|] eqn:Ee;
    [|apply Hmk; [done|set_solver|split; constant|done]].
  destruct (_ || _); [apply Hmk; [done|set_solver|split; constant|done]|].
  assert (Hi : eInterface e ≠ "" → value_ok (eInterface e)) by (intros _; eapply interface_value, decoded_interface; exact Ee).
  pose proof (detail_wf MethodARPCache "ipv4" (source_of MethodARPCache (eSources e)) (or_introl (conj eq_refl eq_refl))) as Ha.
  pose proof (detail_wf MethodNDPCache "ipv6" (source_of MethodNDPCache (eSources e)) (or_intror (conj eq_refl eq_refl))) as Hb.
  assert (Hall : ∀ state next, state ≠ CoverageSourceCurrent → Coverage.text_ok Coverage.maxNextStepLength next →
    ∃ a b, all_sources state next (currentCoverageSources (eSources e)) = [a; b] ∧ source_wf MethodARPCache "ipv4" true a ∧ source_wf MethodNDPCache "ipv6" true b).
  { intros state next Hne Hn. eexists _, _. split; [reflexivity|]. split; by apply all_wf. }
  assert (Hcur : ∃ a b, currentCoverageSources (eSources e) = [a; b] ∧ source_wf MethodARPCache "ipv4" true a ∧ source_wf MethodNDPCache "ipv6" true b)
    by (eexists _, _; split; [reflexivity|]; done).
  destruct (After _ _); [apply Hmk; [done|set_solver|split; constant|apply Hall; [done|constant]]|].
  destruct (_ <? _); [apply Hmk; [done|set_solver|split; constant|apply Hall; [done|constant]]|].
  case_bool_decide.
  - destruct (hasUnavailableCoverageSource _); (apply Hmk; [done|set_solver| |done]); [|split; constant].
    destruct (hasPermissionCoverageSource _); split; constant.
  - case_bool_decide; (apply Hmk; [done|set_solver| |done]); [|split; constant].
    destruct (hasPermissionCoverageSource _); split; constant.
Qed.

Lemma current_wf reader scopeID now r :
  CurrentCoverage letter_or_digit decode reader scopeID now = Ok r → value_ok scopeID →
  (∀ sample, reader = Some (Ok (Some sample)) → Coverage.validToken (Domain.coSensorID sample) = true ∧ zero_wall < wall (Domain.EndedAt sample)) →
  report_wf r.
Proof.
  intros H Hs Hr. destruct reader as [[[sample|]|e]|]; simpl in H; [|by injection H as <-; apply first_wf|done|by injection H as <-; apply first_wf].
  injection H as <-. destruct (Hr sample eq_refl). by apply sampled_wf.
Qed.

End Wf.

(** ** The health of the parts speaks too *)

Lemma sensor_speaks runtime now :
  let h := sensorHealth runtime now in
  sState h = OperationalCurrent ∨
  sState h ∈ [OperationalStarting; OperationalDegraded; OperationalStale; OperationalDisconnected; OperationalUnavailable] ∧
  Coverage.text_ok Coverage.maxNextStepLength (sNextStep h).
Proof.
  unfold sensorHealth. destruct runtime as [r|]; [|right; split; [set_solver|constant]].
  destruct (rRunning r); simpl; [|right; split; [set_solver|constant]].
  case_bool_decide; simpl; [|right; split; [set_solver|unfold sensorErrorNextStep; repeat destruct (_ || _); repeat destruct (_ == _); constant]].
  destruct (_ || _); simpl; [right; split; [set_solver|constant]|]. destruct (After _ _); simpl; [right; split; [set_solver|constant]|].
  destruct (_ <? _); simpl; [right; split; [set_solver|constant]|by left].
Qed.

Lemma pipeline_speaks h :
  let p := pipelineHealth h in pState p = OperationalCurrent ∨ speaks ("ingestion-" +:+ pReason p) (pNextStep p).
Proof.
  unfold pipelineHealth. destruct (_ == StorageHealth.IngestionHealthCurrent); [left; by destruct (StorageHealth.QueuePressure h)|]. right.
  repeat match goal with |- context [if ?b then _ else _] => destruct b end; split; constant.
Qed.

Lemma database_speaks h :
  let d := databaseHealth h in dState d = OperationalCurrent ∨ speaks ("storage-" +:+ dReason d) (dNextStep d).
Proof.
  unfold databaseHealth.
  repeat match goal with |- context [if ?b then _ else _] => destruct b end; simpl; first [by left|right; split; constant].
Qed.

Definition report_states : list CoverageState := [CoverageUnverified; CoverageActiveLimited; CoverageDegraded; CoverageStale; CoverageDisconnected].

Lemma effective_speaks runtime store now op r :
  driver_health runtime store now = Ok op → report_wf r →
  let '(state, reason, next) := EffectiveCoverage r op in state ∈ report_states ∧ speaks reason next.
Proof.
  intros Hop Hr.
  assert (Hp : (∃ run t, Sensor op = sensorHealth run t) ∧ (∃ h, Pipeline op = pipelineHealth h) ∧
               (dState (Database op) = OperationalCurrent ∨ speaks ("storage-" +:+ dReason (Database op)) (dNextStep (Database op)))).
  { unfold driver_health in Hop. cbv zeta in Hop. destruct runtime as [[st ing]|], store as [[h|]|]; try done;
      apply (f_equal (λ x, match x with Ok a => a | Err _ => op end)) in Hop; cbv beta iota in Hop; rewrite <- Hop; cbn [Sensor Pipeline Database];
      (split_and!; [eexists _, _; reflexivity|eexists; reflexivity|]); first [apply database_speaks|right; split; constant]. }
  destruct Hp as ((run & t & Hs) & (h & Hpi) & Hd). unfold EffectiveCoverage. rewrite Hs, Hpi. clear Hop Hs Hpi.
  pose proof (sensor_speaks run t) as Hss. pose proof (pipeline_speaks h) as Hps. simpl in Hss, Hps.
  unfold report_states. destruct Hss as [Ecur|[Hin Htext]].
  - rewrite Ecur. cbn -[pipelineHealth]. destruct (pState (pipelineHealth h) == OperationalCurrent) eqn:Ep; simpl.
    + destruct (dState (Database op) == OperationalCurrent) eqn:Ed; simpl.
      * split; [pose proof (w_state _ Hr); set_solver|apply Hr].
      * go_bool. destruct Hd as [?|Hd]; [done|]. split; [set_solver|done].
    + go_bool. destruct Hps as [?|Hps]; [done|]. destruct (_ && _) eqn:E; [|split; [set_solver|done]].
      go_bool. destruct Hd as [?|Hd]; [done|]. split; [set_solver|done].
  - repeat (apply elem_of_cons in Hin as [Hin|Hin]); [..|by apply not_elem_of_nil in Hin]; rewrite Hin; cbn -[sensorHealth];
      (split; [set_solver|]; split; [constant|done]).
Qed.

(** ** The contract is accepted *)

Lemma value_dimension k v : Coverage.validDimensionKind k = true → value_ok v → Coverage.dimension_ok (Coverage.mkDimension k v).
Proof.
  unfold value_ok, Coverage.validateValue, Coverage.dimension_ok.
  rewrite Manifest.guard_unit, !orb_false_iff, negb_false_iff, bool_decide_eq_true, bool_decide_eq_false, Z.ltb_ge. simpl. tauto.
Qed.

Lemma family_dimension f : f = "ipv4" ∨ f = "ipv6" → Coverage.dimension_ok (Coverage.mkDimension Coverage.DimensionAddressFamily f).
Proof. intros [-> | ->]; apply value_dimension; done. Qed.

Definition network_dimension (r : CoverageReport) : Coverage.Dimension := Coverage.mkDimension Coverage.DimensionNetwork (rScopeID r).
Definition family (f : string) : Coverage.Dimension := Coverage.mkDimension Coverage.DimensionAddressFamily f.
Definition interface_dimension (r : CoverageReport) : list Coverage.Dimension :=
  if rInterfaceName r != "" then [Coverage.mkDimension Coverage.DimensionInterface (rInterfaceName r)] else [].

(** A family is verified exactly when its source is current, the network and the interface when one is. *)
Lemma scope_of r a b :
  rSources r = [a; b] → AddressFamily a = "ipv4" → AddressFamily b = "ipv6" →
  deviceWatchCoverageScope r =
    let link := network_dimension r :: interface_dimension r in
    let all := [network_dimension r; family "ipv4"; family "ipv6"] ++ interface_dimension r in
    match cState a == CoverageSourceCurrent, cState b == CoverageSourceCurrent with
    | true, true => Coverage.mkScope all ([family "ipv4"; family "ipv6"] ++ link) []
    | true, false => Coverage.mkScope all ([family "ipv4"] ++ link) [family "ipv6"]
    | false, true => Coverage.mkScope all ([family "ipv6"] ++ link) [family "ipv4"]
    | false, false => Coverage.mkScope all [] ([family "ipv4"; family "ipv6"] ++ link)
    end.
Proof.
  intros Es Ea Eb. unfold deviceWatchCoverageScope. rewrite Es. cbn [foldl]. unfold scope_round. rewrite Ea, Eb.
  cbn [addressFamilyDimension]. unfold addressFamilyDimension. simpl.
  by destruct (bool_decide (cState a = _)), (bool_decide (cState b = _)).
Qed.

(** The interface, when there is one, is one dimension of its own kind. *)
Lemma interface_dimension_ok r :
  report_wf r →
  Forall Coverage.dimension_ok (interface_dimension r) ∧ NoDup (interface_dimension r) ∧ (length (interface_dimension r) ≤ 1)%nat ∧
  ∀ d, d ∈ interface_dimension r → Coverage.Kind d = Coverage.DimensionInterface.
Proof.
  intros Hr. unfold interface_dimension. case_bool_decide as E; simpl; [split_and!; [constructor|constructor|lia|set_solver]|].
  split_and!; [constructor; [|constructor]|apply NoDup_singleton|lia|by intros d ->%list_elem_of_singleton].
  apply value_dimension; [done|]. by apply (w_iface _ Hr).
Qed.

(** Families in front of the link they are seen on. *)
Definition families_ok (pre : list Coverage.Dimension) : Prop := pre ⊆+ [family "ipv4"; family "ipv6"].

Lemma families_facts pre :
  families_ok pre → NoDup pre ∧ Forall Coverage.dimension_ok pre ∧ (length pre ≤ 2)%nat ∧
  ∀ d, d ∈ pre → Coverage.Kind d = Coverage.DimensionAddressFamily.
Proof.
  intros H. assert (Hnd : NoDup [family "ipv4"; family "ipv6"]) by (repeat constructor; set_solver).
  assert (Hin : ∀ d, d ∈ pre → d = family "ipv4" ∨ d = family "ipv6").
  { intros d Hd. apply (elem_of_submseteq _ _ _ Hd) in H. set_solver. }
  split_and!; [| |by apply submseteq_length in H|].
  - apply submseteq_Permutation in H as [k Hp]. rewrite Hp in Hnd. by apply NoDup_app in Hnd as [? _].
  - apply Forall_forall. intros d [-> | ->]%Hin; apply family_dimension; auto.
  - by intros d [-> | ->]%Hin.
Qed.

Lemma families_dimensions pre : families_ok pre → Coverage.dimensions_ok pre.
Proof. intros (Hn & Hf & Hl & _)%families_facts. split_and!; [|done|done]. unfold llen, Coverage.maxDimensions. lia. Qed.

Lemma link_dimensions r pre :
  report_wf r → families_ok pre → Coverage.dimensions_ok (pre ++ network_dimension r :: interface_dimension r).
Proof.
  intros Hr (Hn & Hf & Hl & Hk)%families_facts. destruct (interface_dimension_ok r Hr) as (Hfi & Hni & Hli & Hki). split_and!.
  - unfold llen, Coverage.maxDimensions. rewrite length_app. simpl. lia.
  - apply Forall_app. split; [done|]. constructor; [|done]. apply value_dimension; [done|apply Hr].
  - apply NoDup_app. split_and!; [done| |constructor; [by intros Hd%Hki|done]].
    intros d Hd [->|Hd']%elem_of_cons; [by apply Hk in Hd|]. apply Hk in Hd. apply Hki in Hd'. by rewrite Hd in Hd'.
Qed.

Lemma configured_dimensions r :
  report_wf r → Coverage.dimensions_ok ([network_dimension r; family "ipv4"; family "ipv6"] ++ interface_dimension r).
Proof.
  intros Hr. destruct (link_dimensions r [family "ipv4"; family "ipv6"] Hr (reflexivity _)) as (Hl & Hf & Hn).
  assert (Hp : [family "ipv4"; family "ipv6"] ++ network_dimension r :: interface_dimension r
               ≡ₚ [network_dimension r; family "ipv4"; family "ipv6"] ++ interface_dimension r) by (symmetry; apply Permutation_middle).
  unfold Coverage.dimensions_ok, llen in *. by rewrite <- Hp.
Qed.

(** What is expected was configured, and is not verified as well. *)
Lemma family_elsewhere r d pre :
  report_wf r → d ∈ [family "ipv4"; family "ipv6"] → d ∉ pre →
  d ∈ [network_dimension r; family "ipv4"; family "ipv6"] ++ interface_dimension r ∧ d ∉ pre ++ network_dimension r :: interface_dimension r.
Proof.
  intros Hr Hd Hpre. destruct (interface_dimension_ok r Hr) as (_ & _ & _ & Hk). split; [set_solver|].
  assert (Hkd : Coverage.Kind d = Coverage.DimensionAddressFamily) by (by apply elem_of_cons in Hd as [->|Hd%list_elem_of_singleton]; [|subst]).
  intros [Hd'|[->|Hd']%elem_of_cons]%elem_of_app; [done|done|]. apply Hk in Hd'. by rewrite Hkd in Hd'.
Qed.

Lemma scope_wf r : report_wf r → Coverage.scope_ok (deviceWatchCoverageScope r).
Proof.
  intros Hr. destruct (w_sources _ Hr) as (a & b & Es & (_ & Ea & _) & (_ & Eb & _)). rewrite (scope_of r a b) by done.
  assert (H4 : families_ok [family "ipv4"]) by (apply submseteq_cons_l; exists [family "ipv6"]; split; [done|apply submseteq_nil_l]).
  assert (H6 : families_ok [family "ipv6"]) by (apply submseteq_cons_r; by left).
  assert (H46 : families_ok [family "ipv4"; family "ipv6"]) by (unfold families_ok; reflexivity).
  assert (H0 : families_ok []) by apply submseteq_nil_l. pose proof (configured_dimensions r Hr) as Hc.
  cbv zeta. destruct (cState a == _), (cState b == _); unfold Coverage.scope_ok; cbn [Coverage.Configured Coverage.Verified Coverage.ExpectedUnverified];
    (split_and!; [done|first [by apply link_dimensions|by apply families_dimensions]|first [by apply families_dimensions|by apply link_dimensions]|]);
    intros d Hd.
  - by apply not_elem_of_nil in Hd.
  - apply list_elem_of_singleton in Hd as ->. apply family_elsewhere; [done|set_solver|by intros ?%list_elem_of_singleton].
  - apply list_elem_of_singleton in Hd as ->. apply family_elsewhere; [done|set_solver|by intros ?%list_elem_of_singleton].
  - split; [set_solver|apply not_elem_of_nil].
Qed.

Lemma contract_sources_wf r : report_wf r → Coverage.sources_ok (map contract_source (rSources r)).
Proof.
  intros Hr. destruct (w_sources _ Hr) as (a & b & -> & Ha & Hb). simpl.
  assert (Hs : ∀ method f s, source_wf method f (rHasEvidence r) s → Coverage.validToken method = true → Coverage.source_ok (contract_source s)).
  { intros method f s (Hid & _ & Hs) Ht. unfold Coverage.source_ok, contract_source. simpl. rewrite Hid. split; [done|]. split; [done|].
    case_bool_decide as E.
    - destruct Hs as (-> & _ & ->). rewrite E. split_and!; [done|done|]. by intros [?|?].
    - destruct Hs as [Hs _]. split_and!; [|intros Hc|done].
      + unfold sharedSourceState. by repeat case_bool_decide.
      + exfalso. apply E. revert Hc. unfold sharedSourceState. by repeat case_bool_decide. }
  split_and!; [done| |].
  - constructor; [by eapply Hs|]. constructor; [by eapply Hs|constructor].
  - destruct Ha as (Ha & _), Hb as (Hb & _). cbn. rewrite Ha, Hb. repeat constructor; set_solver.
Qed.

Lemma contract_gaps_wf :
  llen (map sharedDeviceWatchGap deviceWatchBlindSpots) <= Coverage.maxGaps ∧
  Forall Coverage.gap_ok (map sharedDeviceWatchGap deviceWatchBlindSpots) ∧ NoDup (map Coverage.gID (map sharedDeviceWatchGap deviceWatchBlindSpots)).
Proof.
  split; [done|]. split; [|simpl; repeat constructor; set_solver].
  assert (H : ∀ g, Coverage.validateGap g = Ok tt → Coverage.gap_ok g) by (intros g; apply Coverage.gap_iff).
  do 3 (constructor; [apply H; vm_compute; reflexivity|]). constructor.
Qed.

(** Without evidence no source was observed, so nothing is verified. *)
Lemma contract_evidenced r : report_wf r → rHasEvidence r = false →
  Coverage.Verified (deviceWatchCoverageScope r) = [] ∧
  Forall (λ s, Coverage.soState s ≠ Coverage.SourceCurrent ∧ Coverage.Observed s = false) (map contract_source (rSources r)).
Proof.
  intros Hr He. destruct (w_sources _ Hr) as (a & b & Es & Ha & Hb). rewrite (scope_of r a b) by (first [done|apply Ha|apply Hb]). rewrite Es.
  assert (Hn : ∀ method f s, source_wf method f (rHasEvidence r) s → cState s ≠ CoverageSourceCurrent ∧ cObserved s = false).
  { intros method f s (_ & _ & Hs). rewrite He in Hs. case_bool_decide; [by destruct Hs as (_ & ? & _)|]. naive_solver. }
  destruct (Hn _ _ _ Ha) as [Ha1 Ha2], (Hn _ _ _ Hb) as [Hb1 Hb2]. rewrite !bool_decide_eq_false_2 by done.
  assert (Hc : ∀ st, st ≠ CoverageSourceCurrent → sharedSourceState st ≠ Coverage.SourceCurrent).
  { intros st Hst. unfold sharedSourceState. by repeat case_bool_decide. }
  split; [done|]. simpl. constructor; [split; [by apply Hc|done]|]. constructor; [split; [by apply Hc|done]|constructor].
Qed.

Lemma contract_accepted runtime store now op r :
  driver_health runtime store now = Ok op → report_wf r → CoverageContract r op = Ok (contract r op).
Proof.
  intros Hop Hr. unfold CoverageContract. rewrite Manifest.check_ok. split; [|done]. apply Coverage.single_point_iff.
  pose proof (effective_speaks runtime store now op r Hop Hr) as He. unfold contract.
  destruct (EffectiveCoverage r op) as [[state reason] next]. destruct He as [Hs [Ht Hn]].
  assert (Hstate : Coverage.validState state = true ∧ state ≠ Coverage.StateUnconfigured).
  { unfold report_states in Hs. repeat (apply elem_of_cons in Hs as [->|Hs]; [done|]). by apply not_elem_of_nil in Hs. }
  destruct Hstate as [Hvs Hne]. split; [|intros _; eexists; split; [reflexivity|done]].
  assert (Hw : Coverage.window_ok (if rHasEvidence r then Coverage.mkWindow true (EvidenceAt r) (EvidenceAt r) (rFreshUntil r)
                                   else Coverage.mkWindow false zeroTime zeroTime zeroTime)).
  { destruct (rHasEvidence r) eqn:E; [|done]. destruct (w_times _ Hr E) as (Hz & -> & Hc). unfold Coverage.window_ok, IsZero. simpl.
    rewrite Before_irrefl, Before_wall, wall_Add by auto with cozy. assert (0 < coverageFreshnessWindow) by done.
    rewrite !Z.eqb_neq, Z.ltb_ge. lia. }
  unfold Coverage.report_ok. cbn [Coverage.CapabilityID Coverage.rState Coverage.rReason Coverage.rNextStep Coverage.rConfigured Coverage.ObservationPoints].
  split_and!; try done. intros _. split_and!; [done|done|done| |apply NoDup_singleton]. constructor; [|constructor].
  unfold Coverage.point_ok. cbn [Coverage.oID Coverage.oPKind Coverage.SensorID Coverage.oState Coverage.oReason Coverage.oNextStep Coverage.oScope
    Coverage.oSources Coverage.oDirections Coverage.Window Coverage.oCadence Coverage.Gaps].
  rewrite (w_blind _ Hr). destruct contract_gaps_wf as (Hg1 & Hg2 & Hg3).
  split_and!; try done; [apply Hr|by apply scope_wf|by apply contract_sources_wf|split_and!; [done|constructor|constructor]| |by apply Coverage.cadence_periodic].
  unfold Coverage.evidenced. cbn [Coverage.Window Coverage.oScope Coverage.oDirections Coverage.oSources].
  intros Hf. destruct (contract_evidenced r Hr) as [H1 H2]; [by destruct (rHasEvidence r)|]. done.
Qed.

(** ** What active-limited takes *)

Section Active.
Context (letter_or_digit : Z → bool) (decode : string → option coverageEvidence).

(** Evidence that decodes reports each neighbor source once. *)
Lemma decoded_sources raw e :
  decodeCoverageEvidence letter_or_digit decode raw = Ok e →
  ∃ a b, eSources e = [a; b] ∧
    (Method a = MethodARPCache ∧ Method b = MethodNDPCache ∨ Method a = MethodNDPCache ∧ Method b = MethodARPCache).
Proof.
  unfold decodeCoverageEvidence. destruct (decode raw) as [e'|]; [|done]. rewrite !guard_ok. intros (_ & _ & _ & _ & _ & _ & Hl & H).
  rewrite res_bind_ok in H. destruct H as (seen & Hs & H). rewrite guard_ok in H. destruct H as [_ [= <-]].
  rewrite negb_false_iff, Z.eqb_eq in Hl. destruct (eSources e') as [|a [|b [|]]]; try (unfold llen in Hl; simpl in Hl; lia). exists a, b. split; [done|].
  simpl in Hs. rewrite res_bind_ok in Hs. destruct Hs as (s1 & H1 & Hs). rewrite res_bind_ok in Hs. destruct Hs as (s2 & H2 & _).
  unfold source_round in H1, H2. rewrite !guard_ok in H1, H2. destruct H1 as (Ha & _ & _ & [= <-]), H2 as (Hb & Hn & _ & _).
  rewrite bool_decide_eq_false, list_elem_of_singleton in Hn. rewrite !andb_false_iff, !negb_false_iff, !bool_decide_eq_true in Ha, Hb. clear -Ha Hb Hn.
  destruct Ha as [Ha|Ha], Hb as [Hb|Hb]; rewrite Ha, Hb in *; naive_solver.
Qed.

Lemma both_available a b :
  (Method a = MethodARPCache ∧ Method b = MethodNDPCache ∨ Method a = MethodNDPCache ∧ Method b = MethodARPCache) →
  hasUnavailableCoverageSource (currentCoverageSources [a; b]) = false ↔ Available a = true ∧ Available b = true.
Proof.
  assert (Hd : ∀ m f s, hasUnavailableCoverageSource [coverageSourceDetail m f s true] = false ↔ Available s = true).
  { intros m f s. unfold hasUnavailableCoverageSource, coverageSourceDetail. simpl. destruct (Available s); [done|].
    destruct (PermissionRequired s); [done|]. by destruct (m == MethodARPCache). }
  assert (Hc : ∀ x y, hasUnavailableCoverageSource [x; y] = false ↔ hasUnavailableCoverageSource [x] = false ∧ hasUnavailableCoverageSource [y] = false).
  { intros x y. unfold hasUnavailableCoverageSource. cbn [existsb]. rewrite !orb_false_iff. tauto. }
  intros Hm. unfold currentCoverageSources. rewrite Hc, !Hd. unfold source_of. rewrite !filter_cons, !filter_nil.
  destruct Hm as [[-> ->]|[-> ->]]; simpl; tauto.
Qed.

Lemma report_active scopeID sample now :
  rCState (sampled_report letter_or_digit decode scopeID sample now) = CoverageActiveLimited ↔
  ∃ e, decodeCoverageEvidence letter_or_digit decode (Domain.coEvidence sample) = Ok e ∧ Domain.coSchemaVersion sample = eSchemaVersion e ∧
    Domain.coStatus sample = "partial" ∧ wall (Domain.EndedAt sample) <= wall now + coverageFutureTolerance ∧
    int64_saturate (wall now - wall (Domain.EndedAt sample)) <= coverageFreshnessWindow ∧ Forall (λ s, Available s = true) (eSources e).
Proof.
  unfold sampled_report. destruct (decodeCoverageEvidence _ _ _) as [e|] eqn:Ee; [|split; [done|naive_solver]].
  destruct (decoded_sources _ _ Ee) as (a & b & Es & Hm). rewrite After_wall, Sub_wall, wall_Add by auto with cozy.
  change (wall (UTC ?t)) with (wall t). rewrite Es.
  assert (Hall : Forall (λ s, Available s = true) [a; b] ↔ Available a = true ∧ Available b = true).
  { rewrite !Forall_cons, Forall_nil. tauto. }
  split.
  - intros H. exists e. rewrite Es, Hall. destruct (_ || _) eqn:E1; [done|]. go_bool.
    destruct (Z.ltb_spec (wall now + coverageFutureTolerance) (wall (Domain.EndedAt sample))); [done|].
    destruct (Z.ltb_spec coverageFreshnessWindow (int64_saturate (wall now - wall (Domain.EndedAt sample)))); [done|].
    case_bool_decide; [|by case_bool_decide]. destruct (hasUnavailableCoverageSource _) eqn:Eu; [done|]. rewrite both_available in Eu by done. done.
  - intros (e' & [= <-] & Hv & Hs & Hf & Ha & Hav). rewrite Es, Hall in Hav. rewrite Hv, Hs, Z.eqb_refl.
    rewrite (proj2 (Z.ltb_ge _ _) Hf), (proj2 (Z.ltb_ge _ _) Ha), (proj2 (both_available a b Hm) Hav).
    unfold coverageStatusConsistent. destruct Hav as [Ha1 Hb1]. rewrite !filter_cons, Ha1, Hb1. done.
Qed.

End Active.

(** What the whole of the contract's state rests on. *)
Lemma effective_active runtime store now op r :
  driver_health runtime store now = Ok op →
  fst (fst (EffectiveCoverage r op)) = CoverageActiveLimited ↔
  sState (Sensor op) = OperationalCurrent ∧ pState (Pipeline op) = OperationalCurrent ∧ dState (Database op) = OperationalCurrent ∧
  rCState r = CoverageActiveLimited.
Proof.
  intros Hop.
  assert (Hs : sState (Sensor op) ∈ [OperationalCurrent; OperationalStarting; OperationalDegraded; OperationalStale; OperationalDisconnected; OperationalUnavailable]).
  { assert (∃ run t, Sensor op = sensorHealth run t) as (run & t & ->).
    { unfold driver_health in Hop. cbv zeta in Hop. destruct runtime as [[st ing]|], store as [[h|]|]; try done;
        apply (f_equal (λ x, match x with Ok a => a | Err _ => op end)) in Hop; cbv beta iota in Hop; rewrite <- Hop; eexists _, _; reflexivity. }
    destruct (sensor_speaks run t) as [-> | [Hin _]]; [by left|by right]. }
  unfold EffectiveCoverage. repeat (apply elem_of_cons in Hs as [Hs|Hs]); [..|by apply not_elem_of_nil in Hs]; rewrite Hs; simpl; try (split; [done|by intros []]).
  destruct (decide (pState (Pipeline op) = OperationalCurrent)) as [Ep|Ep].
  - rewrite (bool_decide_eq_true_2 _ Ep). simpl. destruct (decide (dState (Database op) = OperationalCurrent)) as [Ed|Ed].
    + rewrite (bool_decide_eq_true_2 _ Ed). simpl. tauto.
    + rewrite (bool_decide_eq_false_2 _ Ed). simpl. split; [done|tauto].
  - rewrite (bool_decide_eq_false_2 _ Ep). simpl. destruct (_ && _); simpl; (split; [done|tauto]).
Qed.

Lemma contract_state r op : Coverage.rState (contract r op) = fst (fst (EffectiveCoverage r op)).
Proof. unfold contract. by destruct (EffectiveCoverage r op) as [[? ?] ?]. Qed.

Lemma healthy_runtime runtime store now op :
  driver_health runtime store now = Ok op →
  sState (Sensor op) = OperationalCurrent ∧ pState (Pipeline op) = OperationalCurrent ↔
  ∃ state ingestion, runtime = Some (state, ingestion) ∧ StorageHealth.iState ingestion = StorageHealth.IngestionHealthCurrent ∧
    rRunning state = true ∧ rLastErrorClass state = "" ∧ IsZero (rLastAttemptAt state) = false ∧ IsZero (rLastSuccessfulAt state) = false ∧
    wall (rLastSuccessfulAt state) <= wall now + coverageFutureTolerance ∧
    int64_saturate (wall now - wall (rLastSuccessfulAt state)) <= coverageFreshnessWindow.
Proof.
  intros Hop.
  assert (He : (Sensor op, Pipeline op) = match runtime with
    | Some (state, ingestion) => (sensorHealth (Some state) (UTC now), pipelineHealth ingestion)
    | None => (sensorHealth None (UTC now), pipelineHealth (StorageHealth.zeroIngestionHealth StorageHealth.IngestionHealthClosed "")) end).
  { unfold driver_health in Hop. cbv zeta in Hop. destruct runtime as [[st ing]|], store as [[h|]|]; try done;
      apply (f_equal (λ x, match x with Ok a => a | Err _ => op end)) in Hop; cbv beta iota in Hop; by rewrite <- Hop. }
  destruct runtime as [[state ingestion]|]; apply pair_equal_spec in He as [-> ->]; rewrite sensor_current, pipeline_current; [|naive_solver].
  split.
  - intros ((state' & [= <-] & Hrun & Herr & Hz1 & Hz2 & Hf & Ha) & Hi). exists state, ingestion.
    rewrite After_wall, wall_Add, Z.ltb_ge in Hf by auto with cozy. rewrite Sub_wall in Ha by auto with cozy. done.
  - intros (state' & ingestion' & [= <- <-] & Hi & Hrun & Herr & Hz1 & Hz2 & Hf & Ha). split; [|done]. exists state.
    rewrite After_wall, wall_Add, Z.ltb_ge by auto with cozy. rewrite Sub_wall by auto with cozy. done.
Qed.

Lemma healthy_database runtime store now op :
  driver_health runtime store now = Ok op →
  dState (Database op) = OperationalCurrent ↔
  ∃ h, store = Some (Ok h) ∧ StorageHealth.hState h = StorageHealth.HealthCurrent ∧
    ¬ (StorageHealth.FilesystemSupported h = true ∧ StorageHealth.FilesystemState h = StorageHealth.FilesystemCapacityUnavailable).
Proof.
  intros Hop.
  assert (He : match store with Some (Ok h) => Database op = databaseHealth h | _ => dState (Database op) = OperationalUnavailable end).
  { unfold driver_health in Hop. cbv zeta in Hop. destruct runtime as [[st ing]|], store as [[h|]|]; try done;
      apply (f_equal (λ x, match x with Ok a => a | Err _ => op end)) in Hop; cbv beta iota in Hop; by rewrite <- Hop. }
  destruct store as [[h|]|]; [rewrite He, database_current; naive_solver|rewrite He; naive_solver..].
Qed.

(** The coverage contract of Device Watch is always one the shared model accepts.  Whatever the
    latest sample, the runtime, the ingestion queue and the store say, for a scope id that is a valid
    value and a retained sample with a sensor token and a time after year 1, the report made of them
    passes [ValidateSinglePointReport], so the user always gets a report and never an error. *)
Theorem coverage_contract_valid letter_or_digit decode reader scopeID now runtime store later r op :
  CurrentCoverage letter_or_digit decode reader scopeID now = Ok r → driver_health runtime store later = Ok op →
  Coverage.validateValue scopeID = Ok tt →
  (∀ sample, reader = Some (Ok (Some sample)) →
     Coverage.validToken (Domain.coSensorID sample) = true ∧ zero_wall < wall (Domain.EndedAt sample)) →
  CoverageContract r op = Ok (contract r op).
Proof. intros Hr Hop Hs Hsample. eapply contract_accepted; [done|]. by eapply current_wf. Qed.

(** C29: Device Watch claims active (limited) coverage exactly when everything behind it is current: the
    runtime runs without an error and succeeded at most three minutes ago, the ingestion queue and the
    database are healthy, and the latest retained sample decodes, is of the version it says, is partial,
    no more than a minute ahead and no more than three minutes old, with both neighbor sources available. *)
Theorem active_limited_sound letter_or_digit decode reader scopeID now runtime store later r op :
  CurrentCoverage letter_or_digit decode reader scopeID now = Ok r → driver_health runtime store later = Ok op →
  Coverage.rState (contract r op) = CoverageActiveLimited ↔
  (∃ state ingestion, runtime = Some (state, ingestion) ∧ StorageHealth.iState ingestion = StorageHealth.IngestionHealthCurrent ∧
    rRunning state = true ∧ rLastErrorClass state = "" ∧ IsZero (rLastAttemptAt state) = false ∧ IsZero (rLastSuccessfulAt state) = false ∧
    wall (rLastSuccessfulAt state) <= wall later + coverageFutureTolerance ∧
    int64_saturate (wall later - wall (rLastSuccessfulAt state)) <= coverageFreshnessWindow) ∧
  (∃ h, store = Some (Ok h) ∧ StorageHealth.hState h = StorageHealth.HealthCurrent ∧
    ¬ (StorageHealth.FilesystemSupported h = true ∧ StorageHealth.FilesystemState h = StorageHealth.FilesystemCapacityUnavailable)) ∧
  ∃ sample e, reader = Some (Ok (Some sample)) ∧ decodeCoverageEvidence letter_or_digit decode (Domain.coEvidence sample) = Ok e ∧
    Domain.coSchemaVersion sample = eSchemaVersion e ∧ Domain.coStatus sample = "partial" ∧
    wall (Domain.EndedAt sample) <= wall now + coverageFutureTolerance ∧
    int64_saturate (wall now - wall (Domain.EndedAt sample)) <= coverageFreshnessWindow ∧ Forall (λ s, Available s = true) (eSources e).
Proof.
  intros Hr Hop. rewrite contract_state, (effective_active runtime store later op r Hop). rewrite <- Logic.and_assoc.
  rewrite (healthy_runtime _ _ _ _ Hop), (healthy_database _ _ _ _ Hop). do 2 apply and_iff_compat_l.
  destruct reader as [[[sample|]|?]|]; simpl in Hr; try done; injection Hr as <-; [|split; [done|naive_solver]..].
  rewrite report_active. naive_solver.
Qed.

(** A healthy runtime over both sources. *)
Definition sample_evidence : coverageEvidence :=
  mkEvidence 2 "en0" [mkEvidenceSource MethodARPCache true false; mkEvidenceSource MethodNDPCache true false] 3 1 2 false ["cache only"].
Definition sample_sample : Domain.CoverageSample :=
  Domain.mkCoverage "c1" "home" "sensor-1" CapabilityID "partial" (mkTime (zero_wall + 10 * Second) None "") (mkTime (zero_wall + 20 * Second) None "") 2 "{}" "routine".
Definition sample_now : Time := mkTime (zero_wall + 60 * Second) None "".
Definition sample_runtime : RuntimeState * StorageHealth.IngestionHealth :=
  (mkRuntime true (mkTime (zero_wall + 20 * Second) None "") (mkTime (zero_wall + 20 * Second) None "") "",
   StorageHealth.zeroIngestionHealth StorageHealth.IngestionHealthCurrent "").
Definition sample_store : StorageHealth.Health :=
  StorageHealth.mkHealth StorageHealth.HealthCurrent StorageHealth.HealthCurrent 0 0 0 0 "" false 0 0 0.
Definition ascii_letters (c : Z) : bool := (97 <=? c) && (c <=? 122) || (48 <=? c) && (c <=? 57).

Lemma coverage_contract_valid_witness :
  ∃ r op, CurrentCoverage ascii_letters (λ _, Some sample_evidence) (Some (Ok (Some sample_sample))) "home" sample_now = Ok r ∧
    driver_health (Some sample_runtime) (Some (Ok sample_store)) sample_now = Ok op ∧ CoverageContract r op = Ok (contract r op).
Proof.
  eexists _, _. split; [reflexivity|]. split; [reflexivity|].
  eapply (coverage_contract_valid ascii_letters (λ _, Some sample_evidence) (Some (Ok (Some sample_sample))) "home" sample_now
    (Some sample_runtime) (Some (Ok sample_store)) sample_now); [reflexivity|reflexivity|vm_compute; reflexivity|].
  intros sample [= <-]. split; [vm_compute; reflexivity|simpl; unfold Second; lia].
Defined.

Lemma active_limited_sound_witness :
  ∃ r op, CurrentCoverage ascii_letters (λ _, Some sample_evidence) (Some (Ok (Some sample_sample))) "home" sample_now = Ok r ∧
    driver_health (Some sample_runtime) (Some (Ok sample_store)) sample_now = Ok op ∧
    Coverage.rState (contract r op) = CoverageActiveLimited.
Proof.
  eexists _, _. split; [reflexivity|]. split; [reflexivity|].
  apply (active_limited_sound ascii_letters (λ _, Some sample_evidence) (Some (Ok (Some sample_sample))) "home" sample_now
    (Some sample_runtime) (Some (Ok sample_store)) sample_now); [reflexivity|reflexivity|].
  split; [|split].
  - eexists _, _. split; [reflexivity|]. vm_compute. repeat split; discriminate.
  - eexists. split; [reflexivity|]. split; [reflexivity|]. by intros [? _].
  - eexists _, sample_evidence. split; [reflexivity|]. split; [vm_compute; reflexivity|]. split; [reflexivity|]. split; [reflexivity|].
    split; [vm_compute; discriminate|]. split; [vm_compute; discriminate|]. repeat constructor.
Defined.

End WatchCoverage.
