(* ===== verification/Neighbors.v ===== *)
(** * Neighbor tables

    [devicewatch/neighbor.go] and [snapshot_darwin.go]: the texts of [arp] and [ndp] to a list
    of neighbors without duplicates, and the snapshot made of both.  [sort.Slice] may order
    elements of equal keys either way, so it is any function that sorts by the key; the output
    of the two commands is an argument.  A slice expression whose bounds are out of order
    panics; a call that panics is [None]. *)

From Stdlib Require Import Ascii.
From S2P Require Import Prelude Regex GoTime NetAddr NetText Domain WatchScope WatchCoverage.

Module Neighbors.
Import WatchCoverage.

Definition MaxSnapshotBytes : Z := 1048576.
Definition maxSnapshotLine : Z := 4096.

Inductive snapshot_error :=
| SnapshotUnavailable
| SnapshotPermission
| SnapshotTooLarge
| ParseFailed
| ContextEnded
| InvalidName
| UtilityFailed.

#[export] Instance snapshot_error_eq_dec : EqDecision snapshot_error.
Proof. solve_decision. Defined.

Record Neighbor := mkNeighbor { nAddress : Addr; nHardware : list Z; nInterface : string; nMethod : NeighborMethod; nState : string }.
Record SourceStatus := mkStatus { sMethod : NeighborMethod; sAvailable : bool; sPermission : bool }.
Record Snapshot := mkSnapshot { CapturedAt : Time; snInterface : string; snNeighbors : list Neighbor; snSources : list SourceStatus }.

#[export] Instance Neighbor_eq_dec : EqDecision Neighbor.
Proof. solve_decision. Defined.

(** ** Text *)

Definition chars : string → list ascii := String.list_ascii_of_string.
Definition text : list ascii → string := String.string_of_list_ascii.
Definition newline : ascii := "010"%char.

(** [bufio.ScanLines]: a last line needs no newline, and one carriage return is dropped. *)
Fixpoint split_lines (w : list ascii) : list (list ascii) :=
  match w with
  | [] => []
  | c :: rest =>
      if c == newline then [] :: split_lines rest
      else match split_lines rest with [] => [[c]] | l :: ls => (c :: l) :: ls end
  end.
Definition dropCR (l : list ascii) : list ascii := if last l == Some "013"%char then removelast l else l.

(** The scanner stops with an error at the first line that does not fit into its buffer. *)
Fixpoint scan (ls : list (list ascii)) : list (list ascii) * bool :=
  match ls with
  | [] => ([], false)
  | l :: rest => if maxSnapshotLine <=? llen l then ([], true) else let '(ts, failed) := scan rest in (dropCR l :: ts, failed)
  end.

(** [strings.Index] *)
Fixpoint index_from (i : Z) (p w : list ascii) : Z :=
  match strip_prefix p w with
  | Some _ => i
  | None => match w with [] => -1 | _ :: rest => index_from (i + 1) p rest end
  end.
Definition Index (p w : list ascii) : Z := index_from 0 p w.

(** [w[a:b]]; the bounds must be in order and within the text. *)
Definition slice (a b : Z) (w : list ascii) : option (list ascii) :=
  if (0 <=? a) && (a <=? b) && (b <=? llen w) then Some (take (Z.to_nat (b - a)) (drop (Z.to_nat a) w)) else None.

(** [strings.Fields]: each round removes a space or moves one byte to the field. *)
Fixpoint fields_fuel (fuel : nat) (w field : list ascii) : list (list ascii) :=
  let flush := match field with [] => [] | _ => [field] end in
  match fuel with
  | O => flush
  | S fuel =>
      match w with
      | [] => flush
      | c :: rest =>
          match strip_any space_encodings w with
          | Some v => flush ++ fields_fuel fuel v []
          | None => fields_fuel fuel rest (field ++ [c])
          end
      end
  end.
Definition Fields (w : list ascii) : list (list ascii) := fields_fuel (length w) w [].

(** [strings.Split] at one character. *)
Fixpoint Split (e : ascii) (w : list ascii) : list (list ascii) :=
  match w with
  | [] => [[]]
  | c :: rest => if c == e then [] :: Split e rest else match Split e rest with [] => [[c]] | l :: ls => (c :: l) :: ls end
  end.

(** [strings.EqualFold] with a text whose letters fold only among ASCII letters. *)
Definition EqualFold (w : list ascii) (s : string) : bool := map lower_ascii w == chars s.

(** [strings.HasPrefix(strings.ToLower(line), s)]: besides its capital, [i] is the lower case of
    U+0130 (bytes 196 176). *)
Fixpoint has_lower_prefix (s w : list ascii) : bool :=
  match s, w with
  | [], _ => true
  | c :: s, d :: rest =>
      if lower_ascii d == c then has_lower_prefix s rest
      else match rest with
           | e :: rest => (c == "i"%char) && (d == "196"%char) && (e == "176"%char) && has_lower_prefix s rest
           | [] => false
           end
  | _ :: _, [] => false
  end.

(** ** Rows *)

(** One octet: one or two hexadecimal digits. *)
Definition octet_of (w : list ascii) : option Z :=
  match w with
  | [a] => hex_value a
  | [a; b] => x ← hex_value a; y ← hex_value b; Some (x * 16 + y)
  | _ => None
  end.

Definition parseMacOSLinkLayerAddress (w : list ascii) : option (list Z) :=
  let octets := Split ":" w in if negb (llen octets =? 6) then None else mapM octet_of octets.

(** What a line is: no row of the table, a row, or a slice expression that panics. *)
Inductive row := Skip | Row (n : Neighbor) | Panics.

Definition arp_row (interfaceName : string) (token : list ascii) : row :=
  let line := TrimSpace_list token in
  let left := Index ["("%char] line in
  let right := Index [")"%char] line in
  let at_ := Index (chars " at ") line in
  let on := Index (chars " on ") line in
  if (left <? 0) || (right <=? left) || (at_ <=? right) || (on <=? at_) then Skip
  else
    match slice (left + 1) right line, slice (at_ + 4) on line, slice (on + 4) (llen line) line with
    | Some addressText, Some hardwareText, Some interfaceText =>
        match Fields hardwareText, Fields interfaceText with
        | hardware :: _, iface :: _ =>
            if text iface != interfaceName then Skip
            else if EqualFold hardware "(incomplete)" || EqualFold hardware "incomplete" then Skip
            else
              match ParseAddr (text addressText), parseMacOSLinkLayerAddress hardware with
              | Some address, Some bytes => if negb (Is4 address) then Skip else Row (mkNeighbor address bytes interfaceName MethodARPCache "")
              | _, _ => Skip
              end
        | _, _ => Skip
        end
    | _, _, _ => Panics
    end.

Definition ndp_row (interfaceName : string) (token : list ascii) : row :=
  let line := TrimSpace_list token in
  if has_lower_prefix (chars "neighbor ") line then Skip
  else
    match Fields line with
    | address :: hardware :: iface :: more =>
        if text iface != interfaceName then Skip
        else
          match ParseAddr (text address), parseMacOSLinkLayerAddress hardware with
          | Some address, Some bytes =>
              if negb (Is6 address) then Skip
              else
                let state := match more with _ :: s :: _ => if llen s <=? 16 then text s else "" | _ => "" end in
                Row (mkNeighbor address bytes interfaceName MethodNDPCache state)
          | _, _ => Skip
          end
    | _ => Skip
    end.

(** ** Duplicates *)

Definition nul : string := String.String "000" "".
Definition neighborKey (n : Neighbor) : string :=
  nMethod n +:+ nul +:+ nInterface n +:+ nul +:+ AddrString (nAddress n) +:+ nul +:+ ToLower (Domain.MACString (nHardware n)).

(** [sort.Slice] by the key: some order of the elements with increasing keys. *)
Class Sorts (sort : list Neighbor → list Neighbor) : Prop := {
  sorts_perm l : sort l ≡ₚ l;
  sorts_sorted l : StronglySorted String.le (map neighborKey (sort l));
}.

Definition dedup_round (st : list Neighbor * string) (n : Neighbor) : list Neighbor * string :=
  let '(out, previous) := st in
  let key := neighborKey n in
  if (0 <? llen out) && (key == previous) then st else (out ++ [n], key).

Section Sort.
Context (sort : list Neighbor → list Neighbor).

Definition deduplicateNeighbors (neighbors : list Neighbor) : list Neighbor := fst (foldl dedup_round ([], "") (sort neighbors)).

(** ** Tables *)

(** One line; the loop ends with an error, or with [None] when it panics. *)
Definition row_round (row_of : list ascii → row) (neighbors : list Neighbor) (token : list ascii)
  : result (option snapshot_error) (list Neighbor) :=
  match row_of token with
  | Skip => Ok neighbors
  | Row n => guard? MaxNeighborEntries <? llen (neighbors ++ [n]) else Some SnapshotTooLarge in Ok (neighbors ++ [n])
  | Panics => Err None
  end.

Definition parse_table (row_of : list ascii → row) (data : string) : option (result snapshot_error (list Neighbor)) :=
  if MaxSnapshotBytes <? slen data then Some (Err SnapshotTooLarge)
  else
    let '(tokens, failed) := scan (split_lines (chars data)) in
    match for_each (row_round row_of) tokens [] with
    | Err None => None
    | Err (Some e) => Some (Err e)
    | Ok neighbors => Some (if failed then Err ParseFailed else Ok (deduplicateNeighbors neighbors))
    end.

Definition parseARP (data interfaceName : string) : option (result snapshot_error (list Neighbor)) := parse_table (arp_row interfaceName) data.
Definition parseNDP (data interfaceName : string) : option (result snapshot_error (list Neighbor)) := parse_table (ndp_row interfaceName) data.

(** ** The snapshot *)

(** [snapshotFailure] carries the state of the sources. *)
Inductive snapshot_failure :=
| Plain (e : snapshot_error)
| Failure (sources : list SourceStatus) (cause : snapshot_error).

(** What a command gives: its neighbors and the state of its source. *)
Definition source_of_run (method : NeighborMethod) (parse : string → option (result snapshot_error (list Neighbor))) (run : result snapshot_error string)
  : option (list Neighbor * SourceStatus) :=
  match run with
  | Ok output =>
      r ← parse output;
      Some match r with
           | Ok neighbors => (neighbors, mkStatus method true false)
           | Err _ => ([], mkStatus method false false)
           end
  | Err e => Some ([], mkStatus method false (e == SnapshotPermission))
  end.

Definition too_large (run : result snapshot_error string) : bool := match run with Err SnapshotTooLarge => true | _ => false end.

(** The end of [Snapshot], from what both commands gave. *)
Definition both_sources (capturedAt : Time) (interfaceName : string) (arps ndps : list Neighbor) (arpStatus ndpStatus : SourceStatus)
  : result snapshot_failure Snapshot :=
  guard? negb (sAvailable arpStatus) && negb (sAvailable ndpStatus)
  else Failure [arpStatus; ndpStatus] (if sPermission arpStatus && sPermission ndpStatus then SnapshotPermission else SnapshotUnavailable) in
  guard? MaxNeighborEntries <? llen (arps ++ ndps) else Plain SnapshotTooLarge in
  Ok (mkSnapshot capturedAt interfaceName (deduplicateNeighbors (arps ++ ndps)) [arpStatus; ndpStatus]).

(** [arp] and [ndp] are what the commands answer, [ended] and [ended'] whether the context is
    done after each. *)
Definition take_snapshot (letter_or_digit : Z → bool) (clock : Time) (arp ndp : result snapshot_error string) (ended ended' : bool)
    (interfaceName : string) : option (result snapshot_failure Snapshot) :=
  if negb (is_ok (WatchScope.validateInterfaceName letter_or_digit interfaceName)) then Some (Err (Plain InvalidName))
  else if too_large arp then Some (Err (Plain SnapshotTooLarge))
  else
    '(arps, arpStatus) ← source_of_run MethodARPCache (λ out, parseARP out interfaceName) arp;
    if ended then Some (Err (Plain ContextEnded))
    else if too_large ndp then Some (Err (Plain SnapshotTooLarge))
    else
      '(ndps, ndpStatus) ← source_of_run MethodNDPCache (λ out, parseNDP out interfaceName) ndp;
      Some (if ended' then Err (Plain ContextEnded) else both_sources (UTC clock) interfaceName arps ndps arpStatus ndpStatus).

End Sort.

(** [boundedBuffer.Write]: all of [p] or nothing. *)
Definition bounded_write (limit : Z) (buffer p : list ascii) : result snapshot_error (list ascii) :=
  guard? limit - llen buffer <? llen p else SnapshotTooLarge in Ok (buffer ++ p).

(** ** Removing duplicates *)

#[export] Instance key_le_dec : RelDecision (λ x y, String.le (neighborKey x) (neighborKey y)).
Proof. intros x y. apply _. Defined.

(** A merge sort is one such sort. *)
Definition merge_sorts : list Neighbor → list Neighbor := merge_sort (λ x y, String.le (neighborKey x) (neighborKey y)).

Lemma sorted_keys l : StronglySorted (λ x y, String.le (neighborKey x) (neighborKey y)) l → StronglySorted String.le (map neighborKey l).
Proof.
  induction 1 as [|x l Hl IH Hx]; simpl; constructor; [done|]. rewrite Forall_forall. intros k Hk.
  rewrite list_elem_of_In, in_map_iff in Hk. destruct Hk as (y & <- & Hy%list_elem_of_In). rewrite Forall_forall in Hx. by apply Hx.
Qed.

#[export] Instance merge_sorts_sorts : Sorts merge_sorts.
Proof.
  split; intros l; [apply merge_sort_Permutation|]. apply sorted_keys. apply StronglySorted_merge_sort.
  - intros x y z. apply (transitivity (R := String.le)).
  - intros x y. destruct (total String.le (neighborKey x) (neighborKey y)); auto.
Qed.

Lemma StronglySorted_snoc (l : list string) x : StronglySorted String.le l → (∀ y, y ∈ l → String.le y x) → StronglySorted String.le (l ++ [x]).
Proof.
  intros Hs Hx. induction Hs as [|y l Hl IH Hy]; simpl; [constructor; constructor|]. constructor; [apply IH; set_solver|].
  apply Forall_app. split; [done|]. constructor; [apply Hx; set_solver|constructor].
Qed.

Lemma sorted_last (l : list string) m x : StronglySorted String.le l → last l = Some m → x ∈ l → String.le x m.
Proof.
  intros Hs Hl Hx. apply last_Some in Hl as [l' ->]. apply elem_of_app in Hx as [Hx|Hx%list_elem_of_singleton]; [|by subst].
  eapply StronglySorted_app_1_elem_of; [done|done|set_solver].
Qed.

(** What the loop over a sorted list has done so far: one neighbor for each key seen, in order. *)
Record deduplicated (seen out : list Neighbor) (previous : string) : Prop := {
  d_distinct : NoDup (map neighborKey out);
  d_sorted : StronglySorted String.le (map neighborKey out);
  d_from : out `sublist_of` seen;
  d_all : ∀ n, n ∈ seen → neighborKey n ∈ map neighborKey out;
  d_last : out = [] ∨ last (map neighborKey out) = Some previous;
}.

Lemma elem_of_neighbor_keys l k : k ∈ map neighborKey l ↔ ∃ n, n ∈ l ∧ neighborKey n = k.
Proof. rewrite list_elem_of_In, in_map_iff. setoid_rewrite <- list_elem_of_In. naive_solver. Qed.

Lemma dedup_step seen out previous n :
  deduplicated seen out previous → (∀ m, m ∈ seen → String.le (neighborKey m) (neighborKey n)) →
  deduplicated (seen ++ [n]) (dedup_round (out, previous) n).1 (dedup_round (out, previous) n).2.
Proof.
  intros [Hn Hs Hsub Hall Hl] Hle.
  assert (Hle' : ∀ k, k ∈ map neighborKey out → String.le k (neighborKey n)).
  { intros k (m & Hm & <-)%elem_of_neighbor_keys. apply Hle. eapply elem_of_sublist; [|done]. done. }
  unfold dedup_round. destruct ((0 <? llen out) && (neighborKey n == previous)) eqn:E; simpl.
  - go_bool. destruct Hl as [-> |Hl]; [done|]. constructor; try done; [by apply sublist_inserts_r| |by right].
    intros k [Hk| ->%list_elem_of_singleton]%elem_of_app; [by apply Hall|]. rewrite H0. by apply last_Some_elem_of.
  - assert (Hnew : neighborKey n ∉ map neighborKey out).
    { intros Hin. destruct Hl as [-> |Hl]; [by apply not_elem_of_nil in Hin|].
      rewrite (proj2 (Z.ltb_lt _ _)) in E by (destruct out; [done|unfold llen; simpl; lia]). simpl in E. apply bool_decide_eq_false_1 in E. apply E.
      apply (anti_symm String.le); [by eapply sorted_last|]. apply Hle'. by apply last_Some_elem_of. }
    constructor; rewrite ?map_app; simpl.
    + apply NoDup_app. split_and!; [done|set_solver|apply NoDup_singleton].
    + by apply StronglySorted_snoc.
    + by apply sublist_app.
    + intros k [Hk| ->%list_elem_of_singleton]%elem_of_app; apply elem_of_app; [left; by apply Hall|right; by left].
    + right. by rewrite last_snoc.
Qed.

Lemma dedup_loop rest : ∀ seen out previous,
  deduplicated seen out previous → StronglySorted String.le (map neighborKey (seen ++ rest)) →
  ∃ out' previous', foldl dedup_round (out, previous) rest = (out', previous') ∧ deduplicated (seen ++ rest) out' previous'.
Proof.
  induction rest as [|n rest IH]; intros seen out previous Hd Hs; cbn [foldl]; [rewrite app_nil_r; eauto|].
  apply (dedup_step _ _ _ n) in Hd.
  - destruct (dedup_round (out, previous) n) as [out1 previous1]. destruct (IH (seen ++ [n]) out1 previous1 Hd) as (out' & previous' & ? & ?);
      [by rewrite <- app_assoc|]. rewrite <- app_assoc in *. eauto.
  - intros m Hm. rewrite map_app in Hs. eapply StronglySorted_app_1_elem_of; [exact Hs|apply elem_of_neighbor_keys; eauto|simpl; set_solver].
Qed.

(** One neighbor for each key, by increasing key, whatever the sort. *)
Lemma dedup_spec sort `{!Sorts sort} l :
  let out := deduplicateNeighbors sort l in
  NoDup (map neighborKey out) ∧ StronglySorted String.le (map neighborKey out) ∧ (∀ n, n ∈ out → n ∈ l) ∧
  (∀ n, n ∈ l → ∃ n', n' ∈ out ∧ neighborKey n' = neighborKey n) ∧ llen out <= llen l.
Proof.
  unfold deduplicateNeighbors. destruct (dedup_loop (sort l) [] [] "") as (out & previous & -> & [Hn Hs Hsub Hall _]); simpl.
  - constructor; simpl; [constructor|constructor|done|set_solver|by left].
  - apply sorts_sorted.
  - simpl in *. split_and!; [done|done| | |].
    + intros n Hin. rewrite <- (sorts_perm (sort := sort) l). eapply elem_of_sublist; done.
    + intros n Hin. apply elem_of_neighbor_keys, Hall. by rewrite sorts_perm.
    + unfold llen. apply sublist_length in Hsub. rewrite (Permutation_length (sorts_perm (sort := sort) l)) in Hsub. lia.
Qed.

(** ** Tables *)

(** The lines of a table, and whether the scanner reads them all. *)
Definition table_lines (data : string) : list (list ascii) := split_lines (chars data).
Definition readable (data : string) : Prop :=
  slen data <= MaxSnapshotBytes ∧ Forall (λ l, llen l < maxSnapshotLine) (table_lines data).
Definition row_neighbor (r : row) : option Neighbor := match r with Row n => Some n | _ => None end.
Definition table_rows (row_of : list ascii → row) (data : string) : list Neighbor :=
  omap (λ t, row_neighbor (row_of t)) (map dropCR (table_lines data)).
(** No line makes the parser panic. *)
Definition harmless (row_of : list ascii → row) (data : string) : Prop := Forall (λ t, row_of t ≠ Panics) (map dropCR (table_lines data)).

Lemma scan_short ls : Forall (λ l, llen l < maxSnapshotLine) ls → scan ls = (map dropCR ls, false).
Proof.
  induction 1 as [|l ls Hl _ IH]; [done|]. cbn [scan]. rewrite (proj2 (Z.leb_gt _ _) Hl), IH. done.
Qed.

Lemma scan_done ls : snd (scan ls) = false → Forall (λ l, llen l < maxSnapshotLine) ls.
Proof.
  induction ls as [|l ls IH]; [constructor|]. cbn [scan]. destruct (Z.leb_spec maxSnapshotLine (llen l)); [done|].
  destruct (scan ls) as [ts failed]. simpl. intros ->. constructor; [done|]. by apply IH.
Qed.

Lemma rows_from row_of tokens : ∀ seen, llen seen <= MaxNeighborEntries →
  ∀ l, for_each (row_round row_of) tokens seen = Ok l ↔
    l = seen ++ omap (λ t, row_neighbor (row_of t)) tokens ∧ llen l <= MaxNeighborEntries ∧ Forall (λ t, row_of t ≠ Panics) tokens.
Proof.
  induction tokens as [|t tokens IH]; intros seen Hseen l; simpl.
  - rewrite app_nil_r. split; [intros [= <-]|intros [-> _]]; done.
  - unfold row_round. rewrite Forall_cons. destruct (row_of t) as [|n|]; simpl; [rewrite IH by done; naive_solver| |naive_solver].
    destruct (Z.ltb_spec MaxNeighborEntries (llen (seen ++ [n]))) as [Hlt|Hge]; simpl.
    + split; [done|]. intros [-> [Hl _]]. exfalso. unfold llen in *. rewrite !length_app in *. simpl in *. lia.
    + rewrite IH by done. rewrite <- app_assoc. naive_solver.
Qed.

Lemma table_ok sort row_of data out :
  parse_table sort row_of data = Some (Ok out) ↔
  readable data ∧ harmless row_of data ∧ llen (table_rows row_of data) <= MaxNeighborEntries ∧ out = deduplicateNeighbors sort (table_rows row_of data).
Proof.
  unfold parse_table, readable, harmless, table_rows, table_lines. destruct (Z.ltb_spec MaxSnapshotBytes (slen data)) as [Hsize|Hsize]; [split; [done|lia]|]. split.
  - destruct (scan (split_lines (chars data))) as [tokens failed] eqn:Es. intros H.
    destruct (for_each _ tokens []) as [rows|[e|]] eqn:Hrows; [|done..]. destruct failed; [done|]. injection H as <-.
    pose proof (scan_done (split_lines (chars data))) as Hd. rewrite Es in Hd. specialize (Hd eq_refl).
    rewrite (scan_short _ Hd) in Es. injection Es as <-. apply rows_from in Hrows as (-> & Hl & Hp); done.
  - intros ([_ Hlines] & Hp & Hl & ->). rewrite (scan_short _ Hlines).
    assert (Hrows : for_each (row_round row_of) (map dropCR (split_lines (chars data))) [] =
      Ok (omap (λ t, row_neighbor (row_of t)) (map dropCR (split_lines (chars data))))) by (by apply rows_from).
    by rewrite Hrows.
Qed.

(** ** Rows *)

Definition hardware_ok (bs : list Z) : Prop := Forall (λ b, 0 <= b < 256) bs ∧ length bs = 6%nat.

Lemma octet_of_range w b : octet_of w = Some b → 0 <= b < 256.
Proof.
  destruct w as [|a [|c [|]]]; simpl; try done.
  - intros H%hex_value_range. lia.
  - intros (x & Hx%hex_value_range & (y & Hy%hex_value_range & [= <-])%bind_Some)%bind_Some. lia.
Qed.

Lemma hardware_range w bs : parseMacOSLinkLayerAddress w = Some bs → hardware_ok bs.
Proof.
  unfold parseMacOSLinkLayerAddress. destruct (Z.eqb_spec (llen (Split ":" w)) 6) as [El|]; [|done]. simpl. intros H%mapM_Some.
  split; [|apply Forall2_length in H; unfold llen in El; lia]. apply Forall_forall. intros b Hb. apply list_elem_of_lookup in Hb as [i Hi].
  destruct (Forall2_lookup_r _ _ _ _ _ H Hi) as (o & _ & Ho). by eapply octet_of_range.
Qed.

Lemma arp_row_sound iface t n :
  arp_row iface t = Row n →
  nInterface n = iface ∧ nMethod n = MethodARPCache ∧ nState n = "" ∧ hardware_ok (nHardware n) ∧ ∃ a, nAddress n = V4 a ∧ 0 <= a < 2 ^ 32.
Proof.
  unfold arp_row. cbv zeta. destruct (_ || _ || _ || _); [done|]. destruct (slice _ _ _); [|done]. destruct (slice _ _ _); [|done].
  destruct (slice _ _ _); [|done]. destruct (Fields _) as [|hw ?]; [done|]. destruct (Fields _) as [|i ?]; [done|].
  destruct (_ != _); [done|]. destruct (_ || _); [done|]. destruct (ParseAddr _) as [a|] eqn:Ea; [|done].
  destruct (parseMacOSLinkLayerAddress hw) as [bs|] eqn:Eb; [|done]. destruct a as [|a|]; try done. intros [= <-]. simpl.
  split_and!; try done; [by eapply hardware_range|]. exists a. split; [done|]. by eapply ParseAddr_V4_range.
Qed.

Lemma ndp_row_sound iface t n :
  ndp_row iface t = Row n →
  nInterface n = iface ∧ nMethod n = MethodNDPCache ∧ slen (nState n) <= 16 ∧ hardware_ok (nHardware n) ∧ Is6 (nAddress n) = true ∧
  well_formed_addr (nAddress n).
Proof.
  unfold ndp_row. cbv zeta. destruct (has_lower_prefix _ _); [done|]. destruct (Fields _) as [|a [|hw [|i more]]]; try done.
  destruct (_ != _); [done|]. destruct (ParseAddr _) as [addr|] eqn:Ea; [|done]. destruct (parseMacOSLinkLayerAddress hw) as [bs|] eqn:Eb; [|done].
  destruct (Is6 addr) eqn:E6; [|done]. simpl. intros [= <-]. simpl.
  split_and!; try done; [|by eapply hardware_range|by apply parse_addr_wf in Ea as [_ ?]].
  destruct more as [|? [|s ?]]; try done. destruct (Z.leb_spec (llen s) 16) as [Hs|]; [|done]. unfold slen, text.
  rewrite <- list_ascii_length, String.list_ascii_of_string_of_list_ascii. done.
Qed.

(** ** Keys *)

Lemma append_inj (u v u' v' : string) : String.length u = String.length u' → u +:+ v = u' +:+ v' → u = u' ∧ v = v'.
Proof.
  revert u'. induction u as [|c u IH]; intros [|c' u'] Hl; simpl in *; try done.
  intros [= -> H]. destruct (IH u') as [-> ->]; [lia|done|]. done.
Qed.

(** A text without NUL ends at the first NUL. *)
Lemma until_nul u u' v v' :
  "000"%char ∉ chars u → "000"%char ∉ chars u' → u +:+ nul +:+ v = u' +:+ nul +:+ v' → u = u' ∧ v = v'.
Proof.
  unfold chars, nul. revert u'. induction u as [|c u IH]; intros [|c' u'] Hu Hu'; simpl in *.
  - intros H. injection H as H. done.
  - intros H. injection H as Hc _. exfalso. apply Hu'. rewrite <- Hc. by left.
  - intros H. injection H as Hc _. exfalso. apply Hu. rewrite Hc. by left.
  - intros H. injection H as -> H. destruct (IH u') as [-> ->]; [set_solver|set_solver|done|done].
Qed.

Definition plain4 (c : ascii) : bool := is_digit c || (c == "."%char).

Lemma string4_plain n : Forall (λ c, plain4 c = true) (string4 n).
Proof.
  assert (Hd : ∀ o, 0 <= o < 256 → Forall (λ c, plain4 c = true) (dec o)).
  { intros o Ho. apply forallb_true_iff. revert o Ho. refine (octet_cases _ _). vm_compute seq. simpl map. repeat constructor. }
  unfold string4. repeat first [apply Forall_app; split|apply Forall_cons; split|apply Hd, octet_range|done].
Qed.

Lemma V4_no_nul n : "000"%char ∉ chars (AddrString (V4 n)).
Proof.
  unfold chars. rewrite AddrString_list. simpl. intros Hin. pose proof (string4_plain n) as Hp. rewrite Forall_forall in Hp.
  by specialize (Hp _ Hin).
Qed.

Lemma hardware_inj bs bs' :
  hardware_ok bs → hardware_ok bs' → ToLower (Domain.MACString bs) = ToLower (Domain.MACString bs') → bs = bs'.
Proof.
  intros [Hb Hl] [Hb' Hl']. assert (Hm : Domain.mac_ok bs) by (split; [done|by unfold llen; rewrite Hl]).
  assert (Hm' : Domain.mac_ok bs') by (split; [done|by unfold llen; rewrite Hl']).
  rewrite !Domain.ToLower_text by done. intros H. apply (f_equal Domain.ParseMAC) in H. rewrite !Domain.ParseMAC_text in H by done. congruence.
Qed.

(** Rows of one ARP table with the same key are the same. *)
Lemma arp_key_inj iface t t' n n' : arp_row iface t = Row n → arp_row iface t' = Row n' → neighborKey n = neighborKey n' → n = n'.
Proof.
  intros (Ei & Em & Es & Hh & a & Ea & Ha)%arp_row_sound (Ei' & Em' & Es' & Hh' & a' & Ea' & Ha')%arp_row_sound.
  destruct n as [ad hw i m st], n' as [ad' hw' i' m' st']. unfold neighborKey. simpl in *. subst.
  intros H. apply append_inj in H as [_ H]; [|done]. apply append_inj in H as [_ H]; [|done]. apply append_inj in H as [_ H]; [|done].
  apply append_inj in H as [_ H]; [|done]. apply until_nul in H as [H1 H2]; [|apply V4_no_nul..].
  apply AddrString_V4_inj in H1; [|done..]. apply hardware_inj in H2; [|done..]. by subst.
Qed.

Lemma elem_of_rows row_of data n : n ∈ table_rows row_of data ↔ ∃ t, t ∈ map dropCR (table_lines data) ∧ row_of t = Row n.
Proof.
  unfold table_rows. rewrite list_elem_of_omap. unfold row_neighbor. split; intros (t & Ht & E); exists t; (split; [done|]).
  - destruct (row_of t); naive_solver.
  - by rewrite E.
Qed.

(** What a parsed ARP table holds: exactly the rows it has, once each, by increasing key. *)
Lemma arp_table sort `{!Sorts sort} data iface out :
  parseARP sort data iface = Some (Ok out) →
  (∀ n, n ∈ out ↔ ∃ t, t ∈ map dropCR (table_lines data) ∧ arp_row iface t = Row n) ∧
  NoDup (map neighborKey out) ∧ StronglySorted String.le (map neighborKey out) ∧ llen out <= MaxNeighborEntries.
Proof.
  unfold parseARP. rewrite table_ok. intros (_ & _ & Hl & ->). destruct (dedup_spec sort (table_rows (arp_row iface) data)) as (Hn & Hs & Hin & Hall & Hlen).
  split_and!; [|done|done|lia]. intros n. rewrite <- elem_of_rows. split; [by apply Hin|]. intros Hrow.
  destruct (Hall n Hrow) as (n' & Hn' & Hk). apply Hin in Hn' as Hrow'. apply elem_of_rows in Hrow as (t & _ & Ht), Hrow' as (t' & _ & Ht').
  by rewrite <- (arp_key_inj iface t' t n' n).
Qed.

(** ** The listing [arp] prints *)

(** Bytes without a leading zero, as macOS prints them. *)
Fixpoint mac_short (bs : list Z) : list ascii :=
  match bs with [] => [] | [b] => hex b | b :: rest => hex b ++ ":"%char :: mac_short rest end.

Definition arp_line (n : Neighbor) : list ascii :=
  chars "? (" ++ addr_list (nAddress n) ++ chars ") at " ++ mac_short (nHardware n) ++ chars " on " ++ chars (nInterface n) ++ chars " ifscope [ethernet]".
Definition arp_listing (ns : list Neighbor) : string := text (concat (map (λ n, arp_line n ++ [newline]) ns)).

(** An entry of the ARP table: an IPv4 address, six bytes, an interface name of visible ASCII
    characters. *)
Definition visible (c : ascii) : bool := (33 <=? byte_of c) && (byte_of c <=? 126).
Definition arp_entry (n : Neighbor) : Prop :=
  (∃ a, nAddress n = V4 a ∧ 0 <= a < 2 ^ 32) ∧ hardware_ok (nHardware n) ∧ nMethod n = MethodARPCache ∧ nState n = "" ∧
  nInterface n ≠ "" ∧ slen (nInterface n) <= 64 ∧ Forall (λ c, visible c = true) (chars (nInterface n)).

Lemma index_skip i c p u w : Forall (λ d, d ≠ c) u → index_from i (c :: p) (u ++ w) = index_from (i + llen u) (c :: p) w.
Proof.
  intros Hu. revert i. induction Hu as [|d u Hd _ IH]; intros i; simpl; [by rewrite Z.add_0_r|].
  rewrite bool_decide_eq_false_2 by done. rewrite IH. unfold llen. simpl. f_equal. lia.
Qed.

Lemma index_step i p c w : strip_prefix p (c :: w) = None → index_from i p (c :: w) = index_from (i + 1) p w.
Proof. intros H. simpl. by rewrite H. Qed.

Lemma index_here i p w : index_from i p (p ++ w) = i.
Proof.
  assert (H : strip_prefix p (p ++ w) = Some w) by (induction p as [|c p IH]; simpl; [done|]; by rewrite bool_decide_eq_true_2).
  destruct (p ++ w); simpl; by rewrite H.
Qed.

Lemma slice_mid u v w a b : a = llen u → b = llen u + llen v → slice a b (u ++ v ++ w) = Some v.
Proof.
  intros -> ->. unfold slice.
  assert (Hb : (0 <=? llen u) && (llen u <=? llen u + llen v) && (llen u + llen v <=? llen (u ++ v ++ w)) = true).
  { rewrite !andb_true_iff, !Z.leb_le. unfold llen. rewrite !length_app. lia. }
  rewrite Hb. f_equal. unfold llen. rewrite Nat2Z.id, drop_app_length. replace (Z.to_nat _) with (length v) by lia. apply take_app_length.
Qed.

Lemma visible_no_space c w : visible c = true → strip_any space_encodings (c :: w) = None.
Proof. destruct c as [[] [] [] [] [] [] [] []]; intros H; (discriminate H || reflexivity). Qed.

Lemma fields_word u w field : Forall (λ c, visible c = true) u → ∀ f, fields_fuel (length u + f) (u ++ w) field = fields_fuel f w (field ++ u).
Proof.
  intros Hu f. revert field. induction Hu as [|c u Hc _ IH]; intros field; [by rewrite app_nil_r|].
  cbn [length app Nat.add fields_fuel]. rewrite (visible_no_space c (u ++ w) Hc), IH, <- app_assoc. done.
Qed.

Lemma Fields_word u : Forall (λ c, visible c = true) u → u ≠ [] → Fields u = [u].
Proof.
  intros Hu Hne. unfold Fields. pose proof (fields_word u [] [] Hu 0) as H. rewrite Nat.add_0_r, app_nil_r in H. rewrite H. by destruct u.
Qed.

Lemma Fields_first u w : Forall (λ c, visible c = true) u → u ≠ [] → ∃ l, Fields (u ++ " "%char :: w) = u :: l.
Proof.
  intros Hu Hne. unfold Fields. rewrite length_app, fields_word by done. cbn [length fields_fuel].
  change (strip_any space_encodings (" "%char :: w)) with (Some w). destruct u; [done|]. eexists. reflexivity.
Qed.

(** ** Hardware addresses *)

Definition hex_low (c : ascii) : bool := is_digit c || in_range "a" "f" c.

Lemma hex_low_text b : 0 <= b < 256 → Forall (λ c, hex_low c = true) (hex b) ∧ octet_of (hex b) = Some b ∧ hex b ≠ [].
Proof.
  intros Hb.
  assert (H : forallb hex_low (hex b) && bool_decide (octet_of (hex b) = Some b) && negb (bool_decide (hex b = [])) = true).
  { revert b Hb. refine (octet_cases _ _). vm_compute seq. simpl map. repeat constructor. }
  rewrite !andb_true_iff, forallb_true_iff, negb_true_iff, bool_decide_eq_true, bool_decide_eq_false in H. tauto.
Qed.

Lemma Split_word e u : Forall (λ c, c ≠ e) u → Split e u = [u].
Proof. induction 1 as [|c u Hc _ IH]; simpl; [done|]. by rewrite bool_decide_eq_false_2, IH. Qed.

Lemma Split_app e u w : Forall (λ c, c ≠ e) u → Split e (u ++ e :: w) = u :: Split e w.
Proof.
  induction 1 as [|c u Hc _ IH]; simpl; [by rewrite bool_decide_eq_true_2|]. by rewrite bool_decide_eq_false_2, IH.
Qed.

Lemma hex_low_colon u : Forall (λ c, hex_low c = true) u → Forall (λ c, c ≠ ":"%char) u.
Proof. intros Hu. eapply Forall_impl; [exact Hu|]. by intros c Hc ->. Qed.

Lemma Split_mac b bs : Forall (λ b, 0 <= b < 256) (b :: bs) → Split ":" (mac_short (b :: bs)) = map hex (b :: bs).
Proof.
  revert b. induction bs as [|c bs IH]; intros b Hb; apply Forall_cons in Hb as [Hb Hbs]; destruct (hex_low_text b Hb) as (Hh & _ & _).
  - cbn [mac_short map]. by apply Split_word, hex_low_colon.
  - change (mac_short (b :: c :: bs)) with (hex b ++ ":"%char :: mac_short (c :: bs)). rewrite Split_app by (by apply hex_low_colon).
    by rewrite IH.
Qed.

Lemma mac_short_parse bs : hardware_ok bs → parseMacOSLinkLayerAddress (mac_short bs) = Some bs.
Proof.
  intros [Hb Hl]. destruct bs as [|b bs]; [done|]. unfold parseMacOSLinkLayerAddress. rewrite Split_mac by done.
  unfold llen. rewrite length_map, Hl. simpl negb. cbv iota. apply mapM_Some, Forall2_fmap_l, Forall_Forall2_diag.
  eapply Forall_impl; [exact Hb|]. intros o Ho. by apply hex_low_text.
Qed.

Lemma mac_short_chars bs : Forall (λ b, 0 <= b < 256) bs → Forall (λ c, hex_low c || (c == ":"%char) = true) (mac_short bs).
Proof.
  induction 1 as [|b bs Hb Hbs IH]; [constructor|].
  assert (Hh : Forall (λ c, hex_low c || (c == ":"%char) = true) (hex b)).
  { destruct (hex_low_text b Hb) as (Hh & _ & _). eapply Forall_impl; [exact Hh|]. intros c Hc. simpl. by rewrite Hc. }
  destruct bs as [|c bs]; [done|]. change (mac_short (b :: c :: bs)) with (hex b ++ ":"%char :: mac_short (c :: bs)).
  apply Forall_app. split; [done|]. by constructor.
Qed.

Lemma mac_short_head bs : hardware_ok bs → ∃ c w, mac_short bs = c :: w ∧ hex_low c = true.
Proof.
  intros [Hb Hl]. destruct bs as [|b bs]; [done|]. apply Forall_cons in Hb as [Hb _]. destruct (hex_low_text b Hb) as (Hh & _ & Hne).
  destruct (hex b) as [|c w] eqn:E; [done|]. apply Forall_cons in Hh as [Hc _]. destruct bs as [|b' bs]; [exists c, w; cbn [mac_short]; by rewrite E|].
  exists c. eexists. split; [|done]. change (mac_short (b :: b' :: bs)) with (hex b ++ ":"%char :: mac_short (b' :: bs)). by rewrite E.
Qed.

(** ** A line is read back *)

Lemma trim_line w : TrimSpace_list ("?"%char :: w ++ ["]"%char]) = "?"%char :: w ++ ["]"%char].
Proof.
  unfold TrimSpace_list. cbv zeta.
  assert (H1 : trim_fuel (length ("?"%char :: w ++ ["]"%char])) space_encodings ("?"%char :: w ++ ["]"%char]) = "?"%char :: w ++ ["]"%char]).
  { cbn [length trim_fuel]. by change (strip_any space_encodings ("?"%char :: w ++ ["]"%char])) with (@None (list ascii)). }
  rewrite H1. change (rev ("?"%char :: w ++ ["]"%char])) with (rev (w ++ ["]"%char]) ++ ["?"%char]). rewrite rev_app_distr. cbn [rev app length].
  cbn [trim_fuel]. change (strip_any (map (@rev ascii) space_encodings) ("]"%char :: rev w ++ ["?"%char])) with (@None (list ascii)).
  cbn [rev]. rewrite rev_app_distr, rev_involutive. done.
Qed.

Section Line.
Context (n : Neighbor) (Hn : arp_entry n).

Definition addr_part : list ascii := addr_list (nAddress n).
Definition mac_part : list ascii := mac_short (nHardware n).
Definition after_on : list ascii := chars (nInterface n) ++ chars " ifscope [ethernet]".

Lemma line_parts : arp_line n = chars "? (" ++ addr_part ++ chars ") at " ++ mac_part ++ chars " on " ++ after_on.
Proof. done. Qed.

Lemma addr_plain : Forall (λ c, plain4 c = true) addr_part.
Proof using Hn. destruct Hn as ((a & Ha & _) & _). unfold addr_part. rewrite Ha. apply string4_plain. Qed.

Lemma plain4_not c d : plain4 c = true → plain4 d = false → c ≠ d.
Proof. intros Hc Hd ->. by rewrite Hc in Hd. Qed.

Lemma addr_without d : plain4 d = false → Forall (λ c, c ≠ d) addr_part.
Proof using Hn. intros Hd. eapply Forall_impl; [exact addr_plain|]. intros c Hc. by eapply plain4_not. Qed.

Lemma mac_chars : Forall (λ c, hex_low c || (c == ":"%char) = true) mac_part.
Proof using Hn. destruct Hn as (_ & [Hb _] & _). by apply mac_short_chars. Qed.

Lemma mac_visible : Forall (λ c, visible c = true) mac_part.
Proof using Hn.
  eapply Forall_impl; [exact mac_chars|]. intros c. destruct c as [[] [] [] [] [] [] [] []]; intros H; (discriminate H || reflexivity).
Qed.

Lemma mac_no_space : Forall (λ c, c ≠ " "%char) mac_part.
Proof using Hn. eapply Forall_impl; [exact mac_visible|]. by intros c Hc ->. Qed.

Lemma line_left : Index ["("%char] (arp_line n) = 2.
Proof. done. Qed.

Lemma line_right : Index [")"%char] (arp_line n) = 3 + llen addr_part.
Proof using Hn.
  rewrite line_parts. unfold Index. rewrite index_skip by (repeat constructor; done). rewrite index_skip by (by apply addr_without).
  change (chars ") at ") with ([")"%char] ++ chars " at "). rewrite <- app_assoc, index_here. done.
Qed.

Lemma line_at : Index (chars " at ") (arp_line n) = 4 + llen addr_part.
Proof using Hn.
  rewrite line_parts. unfold Index. change (chars " at ") with (" "%char :: chars "at ").
  change (index_from 0 (" "%char :: chars "at ") (chars "? (" ++ addr_part ++ chars ") at " ++ mac_part ++ chars " on " ++ after_on))
    with (index_from 3 (" "%char :: chars "at ") (addr_part ++ chars ") at " ++ mac_part ++ chars " on " ++ after_on)).
  rewrite index_skip by (by apply addr_without). change (chars ") at ") with ([")"%char] ++ chars " at "). rewrite <- app_assoc.
  rewrite index_skip by (repeat constructor; done). change (" "%char :: chars "at ") with (chars " at "). rewrite index_here. unfold llen. simpl. lia.
Qed.

Lemma line_on : Index (chars " on ") (arp_line n) = 8 + llen addr_part + llen mac_part.
Proof using Hn.
  rewrite line_parts. unfold Index. change (chars " on ") with (" "%char :: chars "on ").
  change (index_from 0 (" "%char :: chars "on ") (chars "? (" ++ addr_part ++ chars ") at " ++ mac_part ++ (" "%char :: chars "on ") ++ after_on))
    with (index_from 3 (" "%char :: chars "on ") (addr_part ++ chars ") at " ++ mac_part ++ (" "%char :: chars "on ") ++ after_on)).
  rewrite index_skip by (by apply addr_without). destruct (mac_short_head (nHardware n)) as (c & w & Ec & Hc); [apply Hn|].
  change mac_part with (mac_short (nHardware n)). pose proof mac_no_space as Hs. unfold mac_part in Hs. rewrite Ec in *.
  assert (Hstep : ∀ i rest, index_from i (" "%char :: chars "on ") (chars ") at " ++ (c :: w) ++ rest) = index_from (i + 5) (" "%char :: chars "on ") ((c :: w) ++ rest)).
  { intros i rest.
    change (index_from i (" "%char :: chars "on ") (chars ") at " ++ (c :: w) ++ rest))
      with (index_from (i + 1 + 1 + 1 + 1) (" "%char :: chars "on ") (" "%char :: (c :: w) ++ rest)).
    rewrite index_step; [f_equal; lia|]. cbn. assert (Hco : ("o"%char == c) = false)
      by (destruct c as [[] [] [] [] [] [] [] []]; (discriminate Hc || reflexivity)). by rewrite Hco. }
  rewrite Hstep, index_skip by done. change (" "%char :: chars "on ") with (chars " on "). rewrite index_here. unfold llen. simpl. lia.
Qed.

Lemma line_trim : TrimSpace_list (arp_line n) = arp_line n.
Proof.
  assert (Hw : ∃ w, arp_line n = "?"%char :: w ++ ["]"%char]).
  { exists (chars " (" ++ addr_part ++ chars ") at " ++ mac_part ++ chars " on " ++ chars (nInterface n) ++ chars " ifscope [ethernet").
    rewrite line_parts. unfold after_on. rewrite <- !app_assoc. simpl. do 3 f_equal. }
  destruct Hw as [w ->]. apply trim_line.
Qed.

Lemma interface_word : Forall (λ c, visible c = true) (chars (nInterface n)) ∧ chars (nInterface n) ≠ [].
Proof using Hn. destruct Hn as (_ & _ & _ & _ & Hne & _ & Hv). split; [done|]. by destruct (nInterface n). Qed.

Lemma text_chars s : text (chars s) = s.
Proof. apply String.string_of_list_ascii_of_string. Qed.

Lemma line_slices :
  slice (2 + 1) (3 + llen addr_part) (arp_line n) = Some addr_part ∧
  slice (4 + llen addr_part + 4) (8 + llen addr_part + llen mac_part) (arp_line n) = Some mac_part ∧
  slice (8 + llen addr_part + llen mac_part + 4) (llen (arp_line n)) (arp_line n) = Some after_on.
Proof.
  rewrite line_parts. split_and!.
  - apply slice_mid; unfold llen; simpl; lia.
  - replace (chars "? (" ++ addr_part ++ chars ") at " ++ mac_part ++ chars " on " ++ after_on)
      with ((chars "? (" ++ addr_part ++ chars ") at ") ++ mac_part ++ chars " on " ++ after_on) by (by rewrite <- !app_assoc).
    apply slice_mid; unfold llen; rewrite !length_app; simpl; lia.
  - replace (chars "? (" ++ addr_part ++ chars ") at " ++ mac_part ++ chars " on " ++ after_on)
      with ((chars "? (" ++ addr_part ++ chars ") at " ++ mac_part ++ chars " on ") ++ after_on ++ []) by (by rewrite app_nil_r, <- !app_assoc).
    apply slice_mid; unfold llen; rewrite !length_app; simpl; lia.
Qed.

Lemma line_complete : EqualFold mac_part "(incomplete)" || EqualFold mac_part "incomplete" = false.
Proof using Hn.
  destruct (mac_short_head (nHardware n)) as (c & w & Ec & Hc); [apply Hn|]. unfold mac_part. rewrite Ec. unfold EqualFold.
  cbn [map chars String.list_ascii_of_string]. rewrite orb_false_iff, !bool_decide_eq_false.
  destruct c as [[] [] [] [] [] [] [] []]; (discriminate Hc || by split).
Qed.

Lemma line_row iface : arp_row iface (arp_line n) = if nInterface n == iface then Row n else Skip.
Proof using Hn.
  unfold arp_row. cbv zeta. rewrite line_trim, line_left, line_right, line_at, line_on. destruct line_slices as (-> & -> & ->).
  assert (Hcond : (2 <? 0) || (3 + llen addr_part <=? 2) || (4 + llen addr_part <=? 3 + llen addr_part) ||
                  (8 + llen addr_part + llen mac_part <=? 4 + llen addr_part) = false).
  { unfold llen. rewrite !orb_false_iff, Z.ltb_ge, !Z.leb_gt. lia. }
  rewrite Hcond. destruct interface_word as [Hv Hne]. destruct (mac_short_head (nHardware n)) as (c & w & Ec & Hc); [apply Hn|].
  rewrite Fields_word by (first [exact mac_visible|unfold mac_part; by rewrite Ec]).
  destruct (Fields_first (chars (nInterface n)) (chars "ifscope [ethernet]") Hv Hne) as [l Hl]. unfold after_on.
  change (chars " ifscope [ethernet]") with (" "%char :: chars "ifscope [ethernet]"). rewrite Hl, text_chars, line_complete.
  destruct (decide (nInterface n = iface)) as [Hi|Hi]; [|by rewrite (bool_decide_eq_false_2 _ Hi)]. rewrite (bool_decide_eq_true_2 _ Hi). simpl negb. cbv iota.
  unfold addr_part. destruct Hn as ((a & Ha & Har) & Hh & Hm & Hs & _). rewrite Ha.
  change (text (addr_list (V4 a))) with (AddrString (V4 a)). rewrite ParseAddr_V4 by done.
  unfold mac_part. rewrite mac_short_parse by done. simpl. f_equal. destruct n; simpl in *. by subst.
Qed.

End Line.

(** ** The whole listing *)

Lemma split_lines_app l w : Forall (λ c, c ≠ newline) l → split_lines (l ++ newline :: w) = l :: split_lines w.
Proof.
  induction 1 as [|c l Hc _ IH]; cbn [app split_lines]; [by rewrite bool_decide_eq_true_2|]. rewrite bool_decide_eq_false_2 by done. by rewrite IH.
Qed.

Lemma split_listing ls : Forall (Forall (λ c, c ≠ newline)) ls → split_lines (concat (map (λ l, l ++ [newline]) ls)) = ls.
Proof. induction 1 as [|l ls Hl _ IH]; [done|]. simpl. rewrite <- app_assoc. simpl. rewrite split_lines_app by done. by rewrite IH. Qed.

Lemma line_chars n : arp_entry n → Forall (λ c, c ≠ newline) (arp_line n).
Proof.
  intros Hn. rewrite line_parts. repeat (apply Forall_app; split).
  - by repeat constructor.
  - by apply addr_without.
  - by repeat constructor.
  - eapply Forall_impl; [exact (mac_visible n Hn)|]. by intros c Hc ->.
  - by repeat constructor.
  - eapply Forall_impl; [apply (interface_word n Hn)|]. by intros c Hc ->.
  - by repeat constructor.
Qed.

Lemma line_length n : arp_entry n → llen (arp_line n) <= 160.
Proof.
  intros Hn. destruct Hn as ((a & Ha & _) & [Hb Hl] & _ & _ & _ & Hs & _). unfold arp_line. rewrite Ha. unfold llen. rewrite !length_app.
  assert (H1 : (length (addr_list (V4 a)) ≤ 15)%nat) by (rewrite <- AddrString_list, list_ascii_length; apply AddrString_V4_length).
  assert (H2 : (length (mac_short (nHardware n)) ≤ 17)%nat).
  { assert (Hh : ∀ b, 0 <= b < 256 → (length (hex b) ≤ 2)%nat).
    { intros b H. destruct (hex_low_text b H) as (_ & Ho & _). destruct (hex b) as [|? [|? [|]]]; cbn [length]; [lia..|discriminate Ho]. }
    destruct (nHardware n) as [|b0 [|b1 [|b2 [|b3 [|b4 [|b5 [|]]]]]]]; try (simpl in Hl; lia). rewrite !Forall_cons in Hb. destruct_and! Hb.
    cbn [mac_short]. repeat (rewrite length_app; cbn [length]).
    repeat match goal with H : _ ∧ _ |- _ => destruct H end.
    pose proof (Hh b0); pose proof (Hh b1); pose proof (Hh b2); pose proof (Hh b3); pose proof (Hh b4); pose proof (Hh b5). lia. }
  assert (H3 : Z.of_nat (length (chars (nInterface n))) <= 64) by (unfold chars; rewrite list_ascii_length; exact Hs).
  simpl length at 1. cbn [chars String.list_ascii_of_string length]. lia.
Qed.

Lemma line_dropCR n : dropCR (arp_line n) = arp_line n.
Proof.
  unfold dropCR. rewrite line_parts. unfold after_on. change (chars " ifscope [ethernet]") with (chars " ifscope [ethernet" ++ ["]"%char]).
  rewrite !app_assoc, last_snoc. done.
Qed.

Lemma listing_lines ns : Forall arp_entry ns → table_lines (arp_listing ns) = map arp_line ns.
Proof.
  intros Hns. unfold table_lines, arp_listing, chars, text. rewrite String.list_ascii_of_string_of_list_ascii, <- (map_map arp_line (λ l, l ++ [newline])).
  apply split_listing, Forall_fmap. eapply Forall_impl; [exact Hns|]. intros n Hn. by apply line_chars.
Qed.

Lemma listing_length ns : Forall arp_entry ns → slen (arp_listing ns) <= 161 * llen ns.
Proof.
  intros Hns. unfold slen, arp_listing, text. rewrite <- list_ascii_length, String.list_ascii_of_string_of_list_ascii.
  induction Hns as [|n ns Hn _ IH]; [done|]. cbn [map concat]. apply line_length in Hn. unfold llen in *. rewrite !length_app. simpl length in *. lia.
Qed.

Lemma listing_readable ns : Forall arp_entry ns → llen ns <= MaxNeighborEntries → readable (arp_listing ns).
Proof.
  intros Hns Hl. pose proof (listing_length ns Hns) as Hlen. split; [unfold MaxNeighborEntries, MaxSnapshotBytes in *; lia|].
  rewrite listing_lines by done. apply Forall_fmap. eapply Forall_impl; [exact Hns|]. intros n Hn. simpl. apply line_length in Hn.
  unfold maxSnapshotLine. lia.
Qed.

Lemma listing_rows iface ns : Forall arp_entry ns → table_rows (arp_row iface) (arp_listing ns) = filter (λ n, nInterface n = iface) ns.
Proof.
  intros Hns. unfold table_rows. rewrite listing_lines, map_map by done.
  induction Hns as [|n ns Hn _ IH]; [done|]. cbn [map omap list_omap]. rewrite line_dropCR, line_row by done. rewrite filter_cons.
  case_bool_decide; destruct (decide _); try done. cbn [row_neighbor]. f_equal. exact IH.
Qed.

Lemma listing_harmless iface ns : Forall arp_entry ns → harmless (arp_row iface) (arp_listing ns).
Proof.
  intros Hns. unfold harmless. rewrite listing_lines, map_map, Forall_map by done. eapply Forall_impl; [exact Hns|]. intros n Hn.
  rewrite line_dropCR, line_row by done. by case_bool_decide.
Qed.

(** ** What the tables give *)





(** C31: what [arp] prints is read back.  For every table of at most 4096 entries on any interfaces, the
    listing macOS prints of it, with its hardware addresses without leading zeros, is read as exactly the
    entries of the interface asked for. *)
Theorem arp_roundtrip sort iface ns :
  Sorts sort → Forall arp_entry ns → llen ns <= MaxNeighborEntries →
  ∃ out, parseARP sort (arp_listing ns) iface = Some (Ok out) ∧ NoDup (map neighborKey out) ∧
    ∀ n, n ∈ out ↔ n ∈ ns ∧ nInterface n = iface.
Proof.
  intros Hsort Hns Hl.
  assert (Ho : ∃ out, parseARP sort (arp_listing ns) iface = Some (Ok out)).
  { unfold parseARP. setoid_rewrite table_ok. eexists. split_and!; [by apply listing_readable|by apply listing_harmless| |done]. rewrite listing_rows by done.
    etrans; [|exact Hl]. unfold llen. apply inj_le, length_filter. }
  destruct Ho as [out Ho]. exists out. destruct (arp_table sort _ _ _ Ho) as (Hin & Hn & _). split_and!; try done. intros n.
  rewrite Hin, <- elem_of_rows, listing_rows, list_elem_of_filter by done. tauto.
Qed.

Definition sample_neighbor (last : Z) : Neighbor := mkNeighbor (V4 (3232235776 + last)) [102; 101; 116; 104; 0; last] "en0" MethodARPCache "".

Lemma sample_entry : arp_entry (sample_neighbor 43).
Proof.
  split_and!; [eexists; split; [reflexivity|lia]|split; [|done]; repeat constructor; lia|done|done|done|done|].
  repeat constructor.
Qed.


Lemma arp_roundtrip_witness :
  ∃ out, parseARP merge_sorts (arp_listing [sample_neighbor 43]) "en0" = Some (Ok out) ∧ NoDup (map neighborKey out) ∧
    ∀ n, n ∈ out ↔ n ∈ [sample_neighbor 43] ∧ nInterface n = "en0".
Proof. apply arp_roundtrip; [apply merge_sorts_sorts|constructor; [apply sample_entry|constructor]|unfold MaxNeighborEntries, llen; simpl; lia]. Defined.

(** The rows of the package's own tests. *)
Example arp_rows_test :
  map (arp_row "en0") (map chars ["? (192.168.1.1) at aa:bb:cc:dd:ee:ff on en0 ifscope [ethernet]"; "? (192.168.1.20) at (incomplete) on en0 ifscope [ethernet]";
    "? (10.0.0.1) at 12:34:56:78:9a:bc on en1 ifscope [ethernet]"; "malformed row"]) =
  [Row (mkNeighbor (V4 3232235777) [170; 187; 204; 221; 238; 255] "en0" MethodARPCache ""); Skip; Skip; Skip].
Proof. vm_compute. reflexivity. Qed.

(** The space after [at] is also the space before [on]: the bounds of the hardware address are out of order. *)
Example arp_panics : parseARP merge_sorts "? (192.168.1.1) at on en0" "en0" = None.
Proof. vm_compute. reflexivity. Qed.

Example ndp_rows_test :
  map (ndp_row "en0") (map chars ["Neighbor                             Linklayer Address  Netif Expire    S Flags";
    "fe80::1%en0                         aa:bb:cc:dd:ee:ff en0 23h59m S R"; "fe80::2%en1 22:33:44:55:66:77 en1 10m S"; "fe80::3%en0 (incomplete) en0 expired N"]) =
  [Skip; Row (mkNeighbor (V6 338288524927261089654018896841347694593 "en0") [170; 187; 204; 221; 238; 255] "en0" MethodNDPCache "S"); Skip; Skip].
Proof. vm_compute. reflexivity. Qed.

(** A snapshot tells of both sources, one of which was read. *)
Lemma snapshot_sources sort letter_or_digit clock arp ndp ended ended' iface s :
  take_snapshot sort letter_or_digit clock arp ndp ended ended' iface = Some (Ok s) →
  CapturedAt s = UTC clock ∧ snInterface s = iface ∧
  ∃ a b, snSources s = [a; b] ∧ sMethod a = MethodARPCache ∧ sMethod b = MethodNDPCache ∧ sAvailable a || sAvailable b = true.
Proof.
  assert (Hm : ∀ m parse run l st, source_of_run m parse run = Some (l, st) → sMethod st = m).
  { intros m parse [out|e] l st; simpl; [|by intros [= <- <-]]. destruct (parse out) as [[ns|e]|]; simpl; [by intros [= <- <-]..|done]. }
  unfold take_snapshot. destruct (negb _); [done|]. destruct (too_large arp); [done|].
  destruct (source_of_run MethodARPCache _ _) as [[arps a]|] eqn:Ea; [|done]. simpl. destruct ended; [done|]. destruct (too_large ndp); [done|].
  destruct (source_of_run MethodNDPCache _ _) as [[ndps b]|] eqn:Eb; [|done]. simpl. destruct ended'; [done|].
  apply Hm in Ea, Eb. unfold both_sources. intros [= H]. rewrite !guard_ok in H. destruct H as (Hav & _ & [= <-]). simpl.
  split_and!; try done. exists a, b. split_and!; try done. by destruct (sAvailable a), (sAvailable b).
Qed.

End Neighbors.
