(* ===== verification/Collector.v ===== *)
(** * Collection

    [devicewatch/collector.go]: one collection reads a snapshot of the neighbors, hands one
    observation for each neighbor of the enrolled network to the evidence sink and then one
    coverage sample.  The sink answers by what it was handed before; SHA-256 and the Unicode
    classes are parameters.  A collection whose snapshotter panics is [None]. *)

From Stdlib Require Import Ascii.
From S2P Require Import Prelude Regex GoTime NetAddr NetText RunControl GoJSON ConsentSession GoMarshal Manifest Domain Lifecycle Coverage WatchScope WatchHealth WatchCoverage Neighbors.

Module Collector.
Import WatchHealth WatchCoverage Neighbors.

Definition observationBucket : Duration := Minute.

(** An error as the sentinel errors [errors.Is] finds in it. *)
Inductive cause := Canceled | Mismatch | Unsupported | Permission | Unavailable | TooLarge.

#[export] Instance cause_eq_dec : EqDecision cause.
Proof. solve_decision. Defined.

Definition error := list cause.

Definition scope_cause (e : WatchScope.err) : error :=
  match e with
  | WatchScope.ScopeMismatch _ => [Mismatch]
  | WatchScope.UnsupportedInterface _ => [Unsupported]
  | WatchScope.Other _ => []
  end.
Definition snapshot_cause (e : snapshot_error) : error :=
  match e with
  | SnapshotUnavailable => [Unavailable]
  | SnapshotPermission => [Permission]
  | SnapshotTooLarge => [TooLarge]
  | ContextEnded => [Canceled]
  | ParseFailed | InvalidName | UtilityFailed => []
  end.
Definition failure_cause (f : snapshot_failure) : error := match f with Plain e | Failure _ e => snapshot_cause e end.

Record neighborObservationPayload := mkPayload {
  pSchemaVersion : Z; pAddress : string; pHardware : string; pInterface : string; pFamily : string; pMethod : string; pState : string }.

(** What the sink is handed. *)
Inductive put := PutObservation (o : Domain.Observation) | PutCoverage (c : Domain.CoverageSample).

Record CollectionResult := mkResult { crCapturedAt : Time; Visible : Z; Inserted : Z; Deduplicated : Z; crSources : list SourceStatus }.
Definition zeroResult : CollectionResult := mkResult zeroTime 0 0 0 [].

(** A collection ends with its result, its error and everything handed to the sink. *)
Definition collected : Type := CollectionResult * option error * list put.

(** The sink's answer to a put after those before it: whether it was inserted.  [now] are the
    readings of the clock, in the order the code takes them. *)
Record Collector := mkCollector {
  snapshotter : string → option (result snapshot_failure Snapshot);
  inspector : string → result WatchScope.err WatchScope.InterfaceState;
  sink : list put → put → result error bool;
  now : nat → Time }.

Definition NewCollector (snapshotter : option (string → option (result snapshot_failure Snapshot)))
    (inspector : option (string → result WatchScope.err WatchScope.InterfaceState)) (sink : option (list put → put → result error bool))
    (clock : nat → Time) : result string Collector :=
  match snapshotter, inspector, sink with
  | None, _, _ => Err "device watch snapshotter is required"
  | _, None, _ => Err "device watch interface inspector is required"
  | _, _, None => Err "device watch evidence sink is required"
  | Some s, Some i, Some k => Ok (mkCollector s i k clock)
  end.

Definition hasAvailableSource (sources : list SourceStatus) : bool := existsb sAvailable sources.

Definition usableHardwareAddr (address : list Z) : bool :=
  match address with
  | [] => false
  | b :: _ => if negb (llen address =? 6) || negb (Z.land b 1 =? 0) then false else negb (forallb (λ b, b =? 0) address)
  end.

(** [%d] *)
Definition itoa (z : Z) : string := text (if z <? 0 then "-"%char :: dec (- z) else dec z).
Definition Unix (t : Time) : Z := wall t / Second.

Definition method_le (x y : SourceStatus) : Prop := String.le (sMethod x) (sMethod y).
#[export] Instance method_le_dec : RelDecision method_le.
Proof. intros x y. apply _. Defined.

Definition evidence_limitations : list string :=
  ["passive neighbor caches include only peers the host has recently resolved on the local link";
   "client isolation, other VLANs, and devices behind other observation points may be absent";
   "a successful neighbor snapshot does not provide whole-network traffic visibility"].

(** ** The JSON of an observation and of a sample *)

Definition number (z : Z) : JSON.json := JSON.JNumber (JSON.sbytes (itoa z)).

(** The map literal of [buildNeighborObservation]. *)
Definition payload_map (p : neighborObservationPayload) : list (string * JSON.json) :=
  [("schema_version", number (pSchemaVersion p)); ("address", Marshal.text_value (pAddress p)); ("hardware_address", Marshal.text_value (pHardware p));
   ("interface", Marshal.text_value (pInterface p)); ("family", Marshal.text_value (pFamily p)); ("method", Marshal.text_value (pMethod p));
   ("state", Marshal.text_value (pState p))].
Definition marshal_payload (p : neighborObservationPayload) : string := Marshal.marshal_map (payload_map p).

(** The map literals of [putCoverage]. *)
Definition source_map (s : coverageEvidenceSource) : list (string * JSON.json) :=
  [("method", Marshal.text_value (Method s)); ("available", JSON.JBool (Available s)); ("permission_required", JSON.JBool (PermissionRequired s))].
Definition evidence_map (e : coverageEvidence) : list (string * JSON.json) :=
  [("schema_version", number (eSchemaVersion e)); ("interface", Marshal.text_value (eInterface e));
   ("sources", JSON.JArray (map (λ s, Marshal.map_value (source_map s)) (eSources e))); ("neighbors_in_scope", number (eNeighborsInScope e));
   ("observations_inserted", number (ObservationsInserted e)); ("observations_deduplicated", number (ObservationsDeduplicated e));
   ("whole_network_traffic_visible", JSON.JBool (WholeNetworkTrafficVisible e)); ("limitations", JSON.JArray (map Marshal.text_value (Limitations e)))].
Definition marshal_evidence (e : coverageEvidence) : string := Marshal.marshal_map (evidence_map e).

Section Collect.
Context (lower_or_digit letter_or_digit : Z → bool) (sha256 : string → string) (sort : list Neighbor → list Neighbor).

Definition stableDigest (parts : list string) : string :=
  EncodeToString (text (take 16 (chars (sha256 (foldr (λ part rest, part +:+ nul +:+ rest) "" parts))))).

Definition buildNeighborObservation (scopeID sensorID : string) (capturedAt : Time) (n : Neighbor) : result string Domain.Observation :=
  let family := if Is4 (nAddress n) then "ipv4" else "ipv6" in
  let capturedAt := UTC capturedAt in
  let bucket := Truncate capturedAt observationBucket in
  let mac := ToLower (Domain.MACString (nHardware n)) in
  let sourceKey := stableDigest ["neighbor-v1"; scopeID; sensorID; nInterface n; nMethod n; AddrString (nAddress n); mac; itoa (Unix bucket)] in
  let payload := marshal_payload (mkPayload 1 (AddrString (nAddress n)) mac (nInterface n) family (nMethod n) (nState n)) in
  let observation := Domain.mkObservation ("obs.dw." +:+ sourceKey) scopeID sensorID "device-neighbor-seen" "device-watch-neighbors" sourceKey
                       sourceKey (Some capturedAt) capturedAt 1 None ("device-watch:" +:+ nMethod n) payload Domain.RetentionStandard in
  check? Domain.ValidateObservation lower_or_digit observation in Ok observation.

(** The sources as evidence, by method; a source that is available needs no permission. *)
Definition evidence_sources (sources : list SourceStatus) : list coverageEvidenceSource :=
  map (λ s, mkEvidenceSource (sMethod s) (sAvailable s) (sPermission s && negb (sAvailable s))) (merge_sort method_le sources).

Definition coverage_sample (scopeID sensorID : string) (binding : WatchScope.ScopeBinding) (snapshot : Snapshot)
    (visible inserted deduplicated : Z) (status : string) (now1 now2 : Time) : Domain.CoverageSample :=
  let evidence := mkEvidence 2 (WatchScope.InterfaceName binding) (evidence_sources (snSources snapshot)) visible inserted deduplicated false evidence_limitations in
  let capturedAt := UTC (CapturedAt snapshot) in
  let capturedAt := if IsZero capturedAt then UTC now1 else capturedAt in
  let coverageIDTime := UTC now2 in
  Domain.mkCoverage
    ("coverage.dw." +:+ stableDigest ["coverage-v1"; scopeID; sensorID; WatchScope.InterfaceName binding; itoa (UnixNano capturedAt); itoa (UnixNano coverageIDTime)])
    scopeID sensorID CapabilityID status capturedAt capturedAt 2 (marshal_evidence evidence) Domain.RetentionShort.

Definition putCoverage (c : Collector) (scopeID sensorID : string) (binding : WatchScope.ScopeBinding) (snapshot : Snapshot)
    (visible inserted deduplicated : Z) (status : string) (history : list put) : option error * list put :=
  let coverage := coverage_sample scopeID sensorID binding snapshot visible inserted deduplicated status (now c 1%nat) (now c 2%nat) in
  match Domain.ValidateCoverageSample lower_or_digit coverage with
  | Err _ => (Some [], history)
  | Ok _ =>
      (match sink c history (PutCoverage coverage) with Err e => Some e | Ok _ => None end, history ++ [PutCoverage coverage])
  end.

(** The loop over the neighbors; it stops at the first error. *)
Fixpoint put_all (c : Collector) (scopeID sensorID : string) (capturedAt : Time) (neighbors : list Neighbor) (r : CollectionResult)
    (history : list put) : collected :=
  match neighbors with
  | [] => (r, None, history)
  | n :: rest =>
      match buildNeighborObservation scopeID sensorID capturedAt n with
      | Err _ => (r, Some [], history)
      | Ok observation =>
          let history' := history ++ [PutObservation observation] in
          match sink c history (PutObservation observation) with
          | Err e => (r, Some e, history')
          | Ok inserted =>
              let r := if inserted then mkResult (crCapturedAt r) (Visible r) (Inserted r + 1) (Deduplicated r) (crSources r)
                       else mkResult (crCapturedAt r) (Visible r) (Inserted r) (Deduplicated r + 1) (crSources r) in
              put_all c scopeID sensorID capturedAt rest r history'
          end
      end
  end.

Definition in_scope (binding : WatchScope.ScopeBinding) (n : Neighbor) : bool :=
  (nInterface n == WatchScope.InterfaceName binding) && WatchScope.AddressInScope binding (nAddress n) && usableHardwareAddr (nHardware n).

(** The sources of a snapshot that failed. *)
Definition failed_sources (f : snapshot_failure) : list SourceStatus :=
  match f with
  | Failure sources _ => sources
  | Plain e => let permission := e == SnapshotPermission in [mkStatus MethodARPCache false permission; mkStatus MethodNDPCache false permission]
  end.

(** [ended] is [ctx.Err() != nil] when the collection starts. *)
Definition CollectOnce (collector : option Collector) (ended : bool) (scopeID sensorID : string) (binding : WatchScope.ScopeBinding) : option collected :=
  match collector with
  | None => Some (zeroResult, Some [], [])
  | Some c =>
      if ended then Some (zeroResult, Some [Canceled], [])
      else
        match WatchScope.ValidateCurrentScope letter_or_digit (Some (inspector c)) binding with
        | Err e => Some (zeroResult, Some (scope_cause e), [])
        | Ok _ =>
            taken ← snapshotter c (WatchScope.InterfaceName binding);
            Some match taken with
            | Err failure =>
                let snapshot := mkSnapshot (UTC (now c 0%nat)) (WatchScope.InterfaceName binding) [] (failed_sources failure) in
                let '(err, history) := putCoverage c scopeID sensorID binding snapshot 0 0 0 "unavailable" [] in
                (zeroResult, Some (failure_cause failure ++ default [] err), history)
            | Ok snapshot =>
                if snInterface snapshot != WatchScope.InterfaceName binding then (zeroResult, Some [Mismatch], [])
                else if MaxNeighborEntries <? llen (snNeighbors snapshot) then (zeroResult, Some [TooLarge], [])
                else
                  let capturedAt := if IsZero (CapturedAt snapshot) then UTC (now c 0%nat) else CapturedAt snapshot in
                  let snapshot := mkSnapshot capturedAt (snInterface snapshot) (snNeighbors snapshot) (snSources snapshot) in
                  let neighbors := deduplicateNeighbors sort (filter (λ n, in_scope binding n = true) (snNeighbors snapshot)) in
                  let result := mkResult (UTC capturedAt) (llen neighbors) 0 0 (snSources snapshot) in
                  let '(result, err, history) := put_all c scopeID sensorID capturedAt neighbors result [] in
                  match err with
                  | Some e => (result, Some e, history)
                  | None =>
                      let status := if hasAvailableSource (snSources snapshot) then "partial" else "unavailable" in
                      let '(err, history) := putCoverage c scopeID sensorID binding snapshot (Visible result) (Inserted result) (Deduplicated result) status history in
                      (result, err, history)
                  end
            end
        end
  end.

End Collect.

(** [runtimeErrorClass] *)
Definition has (c : cause) (e : error) : bool := bool_decide (c ∈ e).
Definition runtimeErrorClass (e : error) : string :=
  if has Canceled e then "canceled"
  else if has Mismatch e then "scope-mismatch"
  else if has Unsupported e then "unsupported-interface"
  else if has Permission e then "permission-required"
  else if has Unavailable e then "source-unavailable"
  else if has TooLarge e then "source-oversized"
  else "collection-error".

(** ** What the sink is handed *)

Section Sound.
Context (lower_or_digit letter_or_digit : Z → bool) (sha256 : string → string).

Notation build := (buildNeighborObservation lower_or_digit sha256).
Notation sample_of := (coverage_sample sha256).

Lemma build_valid scopeID sensorID at_ n o : build scopeID sensorID at_ n = Ok o → Domain.ValidateObservation lower_or_digit o = Ok tt.
Proof. unfold buildNeighborObservation. rewrite Manifest.check_ok. by intros [? [= <-]]. Qed.

(** The loop hands over the observations of a prefix of the neighbors, of all without an error,
    and counts each once. *)
Lemma put_all_spec c scopeID sensorID at_ ns : ∀ r history r' err puts,
  put_all lower_or_digit sha256 c scopeID sensorID at_ ns r history = (r', err, puts) →
  ∃ os, puts = history ++ map PutObservation os ∧ Forall2 (λ n o, build scopeID sensorID at_ n = Ok o) (take (length os) ns) os ∧
    Visible r' = Visible r ∧ crCapturedAt r' = crCapturedAt r ∧ Inserted r <= Inserted r' ∧ Deduplicated r <= Deduplicated r' ∧
    Inserted r' + Deduplicated r' <= Inserted r + Deduplicated r + llen os ∧
    (err = None → length os = length ns ∧ Inserted r' + Deduplicated r' = Inserted r + Deduplicated r + llen os).
Proof.
  induction ns as [|n ns IH]; intros r history r' err puts; cbn [put_all].
  { intros [= <- <- <-]. exists []. rewrite app_nil_r. unfold llen. simpl. split_and!; first [done|lia|by constructor|intros _; lia]. }
  destruct (build scopeID sensorID at_ n) as [o|] eqn:Eb.
  2:{ intros [= <- <- <-]. exists []. rewrite app_nil_r. unfold llen. simpl. split_and!; first [done|lia|by constructor|intros _; lia]. }
  destruct (sink c history (PutObservation o)) as [inserted|e].
  - intros H. apply IH in H as (os & -> & Hf & Hv & Hc & Hi & Hd & Hs & Hn). exists (o :: os). rewrite <- app_assoc. simpl.
    unfold llen in *. simpl length. destruct inserted; simpl in *; (split_and!; first [done|lia|by constructor|intros [? ?]%Hn; lia]).
  - intros [= <- <- <-]. exists [o]. unfold llen. simpl. split_and!; first [done|lia|by repeat constructor].
Qed.

Lemma putCoverage_spec c scopeID sensorID b snap v i d status history err puts :
  putCoverage lower_or_digit sha256 c scopeID sensorID b snap v i d status history = (err, puts) →
  (puts = history ∧ err ≠ None) ∨
  ∃ s, s = sample_of scopeID sensorID b snap v i d status (now c 1) (now c 2) ∧ puts = history ++ [PutCoverage s] ∧
    Domain.ValidateCoverageSample lower_or_digit s = Ok tt.
Proof.
  unfold putCoverage. cbv zeta. destruct (Domain.ValidateCoverageSample _ _) as [[]|] eqn:E; intros [= <- <-]; [|by left].
  right. eexists. split_and!; done.
Qed.

(** A collection that hands anything over is on the enrolled network. *)
Definition on_network (c : Collector) (b : WatchScope.ScopeBinding) : Prop :=
  is_ok (WatchScope.ValidateCurrentScope letter_or_digit (Some (inspector c)) b) = true.

(** When the snapshot was taken. *)
Definition captured (c : Collector) (snapshot : Snapshot) : Time := if IsZero (CapturedAt snapshot) then UTC (now c 0) else CapturedAt snapshot.

(** A neighbor on the enrolled network. *)
Record enrolled (b : WatchScope.ScopeBinding) (snapshot : Snapshot) (n : Neighbor) : Prop := {
  en_seen : n ∈ snNeighbors snapshot;
  en_interface : nInterface n = WatchScope.InterfaceName b;
  en_address : WatchScope.AddressInScope b (nAddress n) = true;
  en_hardware : usableHardwareAddr (nHardware n) = true;
}.

(** Observations of neighbors of the snapshot on the enrolled network, one for each key; of all of them
    without an error. *)
Definition observes (c : Collector) (scopeID sensorID : string) (b : WatchScope.ScopeBinding) (err : option error) (os : list Domain.Observation) : Prop :=
  ∃ snapshot ns, snapshotter c (WatchScope.InterfaceName b) = Some (Ok snapshot) ∧
    Forall2 (λ n o, build scopeID sensorID (captured c snapshot) n = Ok o ∧ Domain.ValidateObservation lower_or_digit o = Ok tt) ns os ∧
    NoDup (map neighborKey ns) ∧ Forall (enrolled b snapshot) ns ∧
    (err = None → ∀ n, enrolled b snapshot n → neighborKey n ∈ map neighborKey ns).

(** The counts of a collection and the sample it ends with. *)
Definition completes (c : Collector) (scopeID sensorID : string) (b : WatchScope.ScopeBinding) (r : CollectionResult) (os : list Domain.Observation)
    (cs : list Domain.CoverageSample) : Prop :=
  ∃ snapshot, snapshotter c (WatchScope.InterfaceName b) = Some (Ok snapshot) ∧ Visible r = llen os ∧ 0 <= Inserted r ∧ 0 <= Deduplicated r ∧
    Inserted r + Deduplicated r = Visible r ∧
    cs = [sample_of scopeID sensorID b (mkSnapshot (captured c snapshot) (snInterface snapshot) (snNeighbors snapshot) (snSources snapshot))
            (Visible r) (Inserted r) (Deduplicated r) (if hasAvailableSource (snSources snapshot) then "partial" else "unavailable") (now c 1) (now c 2)].

(** Everything a collection hands over, and when. *)
Record account (collector : option Collector) (ended : bool) (scopeID sensorID : string) (b : WatchScope.ScopeBinding)
    (r : CollectionResult) (err : option error) (puts : list put) (os : list Domain.Observation) (cs : list Domain.CoverageSample) : Prop := {
  a_order : puts = map PutObservation os ++ map PutCoverage cs;
  a_once : (length cs ≤ 1)%nat;
  a_bounded : llen os <= MaxNeighborEntries;
  a_samples : Forall (λ s, Domain.ValidateCoverageSample lower_or_digit s = Ok tt) cs;
  a_observes : os ≠ [] ∨ err = None → ∃ c, collector = Some c ∧ observes c scopeID sensorID b err os;
  a_network : puts ≠ [] ∨ err = None → ended = false ∧ ∃ c, collector = Some c ∧ on_network c b;
  a_completes : err = None → ∃ c, collector = Some c ∧ completes c scopeID sensorID b r os cs;
}.

Lemma account_none collector ended scopeID sensorID b r e : account collector ended scopeID sensorID b r (Some e) [] [] [].
Proof. constructor; first [done|simpl; lia|by intros [?|?]]. Qed.

(** The neighbors that the loop goes through. *)
Lemma enrolled_filter b snapshot n : n ∈ filter (λ n, in_scope b n = true) (snNeighbors snapshot) ↔ enrolled b snapshot n.
Proof.
  rewrite list_elem_of_filter. unfold in_scope. rewrite !andb_true_iff, bool_decide_eq_true. split.
  - intros [[[? ?] ?] ?]. by constructor.
  - intros []. tauto.
Qed.

Lemma put_observes sort `{!Sorts sort} c scopeID sensorID b snapshot os err :
  snapshotter c (WatchScope.InterfaceName b) = Some (Ok snapshot) →
  let ns := deduplicateNeighbors sort (filter (λ n, in_scope b n = true) (snNeighbors snapshot)) in
  Forall2 (λ n o, build scopeID sensorID (captured c snapshot) n = Ok o) (take (length os) ns) os →
  (err = None → length os = length ns) → observes c scopeID sensorID b err os.
Proof.
  intros Hs ns Hf Hall. destruct (dedup_spec sort (filter (λ n, in_scope b n = true) (snNeighbors snapshot))) as (Hn & _ & Hin & Hkeys & _). fold ns in Hn, Hin, Hkeys.
  exists snapshot, (take (length os) ns). split_and!; [done| | | |].
  - eapply Forall2_impl; [exact Hf|]. intros n o Hb. split; [done|]. exact (build_valid _ _ _ _ _ Hb).
  - rewrite <- firstn_map. rewrite <- (take_drop (length os) (map neighborKey ns)) in Hn. by apply NoDup_app in Hn as [? _].
  - apply Forall_take, Forall_forall. intros n Hi. by apply enrolled_filter, Hin.
  - intros He n (n' & Hn' & Hk)%enrolled_filter%Hkeys. rewrite (Hall He), firstn_all. apply elem_of_neighbor_keys. eauto.
Qed.

Lemma collection_spec sort `{!Sorts sort} collector ended scopeID sensorID b r err puts :
  CollectOnce lower_or_digit letter_or_digit sha256 sort collector ended scopeID sensorID b = Some (r, err, puts) →
  ∃ os cs, account collector ended scopeID sensorID b r err puts os cs.
Proof.
  assert (Hnone : ∀ r' e, Some (r', Some e, []) = Some (r, err, puts) → ∃ os cs, account collector ended scopeID sensorID b r err puts os cs).
  { intros r' e [= <- <- <-]. exists [], []. apply account_none. }
  unfold CollectOnce. destruct collector as [c|]; [|by apply Hnone]. destruct ended; [by apply Hnone|].
  destruct (WatchScope.ValidateCurrentScope _ _ _) as [st|e] eqn:Escope; [|by apply Hnone].
  assert (Hon : on_network c b) by (unfold on_network; by rewrite Escope).
  destruct (snapshotter c _) as [[snapshot|f]|] eqn:Esnap; cbn [mbind option_bind]; [| |done].
  - destruct (_ != _); [by apply Hnone|]. destruct (Z.ltb_spec MaxNeighborEntries (llen (snNeighbors snapshot))) as [|Hmax]; [by apply Hnone|].
    cbv zeta. cbn [CapturedAt snInterface snNeighbors snSources]. fold (captured c snapshot).
    destruct (put_all _ _ _ _ _ _ _ _ _) as [[r1 err1] h1] eqn:Eall.
    apply put_all_spec in Eall as (os & Eh & Hf & Hv & _ & Hi & Hd & Hs & Hn). simpl in *.
    destruct (dedup_spec sort (filter (λ n, in_scope b n = true) (snNeighbors snapshot))) as (_ & _ & _ & _ & Hlen).
    assert (Hb : llen os <= MaxNeighborEntries).
    { apply Forall2_length in Hf. rewrite length_take in Hf.
      pose proof (length_filter (λ n, in_scope b n = true) (snNeighbors snapshot)). unfold llen in *. lia. }
    assert (Hos : ∀ e, (e = None → err1 = None) → observes c scopeID sensorID b e os).
    { intros e He. eapply (put_observes sort); [done|exact Hf|]. intros [? _]%He%Hn. done. }
    destruct err1 as [e|].
    + intros [= <- <- <-]. exists os, []. constructor; rewrite ?app_nil_r; first [done|simpl; lia|by constructor|eauto].
    + destruct (putCoverage _ _ _ _ _ _ _ _ _ _ _) as [e history] eqn:Ep. intros [= <- <- <-]. apply putCoverage_spec in Ep.
      destruct (Hn eq_refl) as [Hl Hsum]. destruct Ep as [[-> He]|(s & Es & -> & Hval)].
      * exists os, []. constructor; rewrite ?app_nil_r; first [done|simpl; lia|by constructor|eauto].
      * exists os, [s]. constructor; [by rewrite Eh|done|done|by constructor|eauto|eauto|].
        intros _. exists c. split; [done|]. exists snapshot. rewrite Hv in *. unfold llen in *. rewrite Es. split_and!; first [done|lia].
  - destruct (putCoverage _ _ _ _ _ _ _ _ _ _ _) as [e history] eqn:Ep. intros [= <- <- <-]. apply putCoverage_spec in Ep.
    destruct Ep as [[-> _]|(s & _ & -> & Hs)].
    + exists [], []. apply account_none.
    + exists [], [s]. constructor; first [done|by constructor|by intros [?|?]|eauto].
Qed.

(** C32: a collection that returns hands over only what it may, whatever the snapshot, the clock and the
    answers of the sink: first observations, then at most one coverage sample, all of them valid; at most
    4096 observations, each of a neighbor of the snapshot on the enrolled interface with an address in the
    enrolled prefixes and a usable hardware address, and at most one for each method, interface, address
    and hardware address (the key of a neighbor); nothing at all unless the interface is still the
    enrolled network.  Without an error every such neighbor was observed under its key, each observation
    was counted once, as inserted or as a duplicate, and the sample says so. *)
Theorem collect_sound sort collector ended scopeID sensorID b r err puts :
  Sorts sort →
  CollectOnce lower_or_digit letter_or_digit sha256 sort collector ended scopeID sensorID b = Some (r, err, puts) →
  ∃ os cs, account collector ended scopeID sensorID b r err puts os cs.
Proof. intros Hs. apply (collection_spec sort). Qed.

End Sound.

(** ** A collection at home *)

Definition home_clock : Time := mkTime (1700000000 * Second) None "Local".
Definition home_arp : result snapshot_error string := Ok (arp_listing [sample_neighbor 43]).
Definition home_snapshot : Snapshot :=
  mkSnapshot (UTC home_clock) "en0" [sample_neighbor 43] [mkStatus MethodARPCache true false; mkStatus MethodNDPCache false true].
(** A sink that takes everything. *)
Definition home_collector : Collector :=
  mkCollector (λ _, Some (Ok home_snapshot)) (WatchScope.Inspect false WatchScope.home_by_name) (λ _ _, Ok true) (λ _, home_clock).
Definition no_digest (s : string) : string := "0123456789abcdef0123456789abcdef".
Definition home_collection : option collected :=
  CollectOnce WatchScope.no_letters WatchScope.no_letters no_digest merge_sorts (Some home_collector) false "home" "sensor.dw.1" WatchScope.home_binding.

Lemma home_collected : ∃ puts, home_collection = Some (mkResult (UTC home_clock) 1 1 0 (snSources home_snapshot), None, puts).
Proof. eexists. vm_compute. reflexivity. Qed.

Lemma collect_sound_witness :
  ∃ r puts os cs, home_collection = Some (r, None, puts) ∧
    account WatchScope.no_letters WatchScope.no_letters no_digest (Some home_collector) false "home" "sensor.dw.1"
      WatchScope.home_binding r None puts os cs.
Proof.
  destruct home_collected as [puts Hc]. destruct (collect_sound WatchScope.no_letters WatchScope.no_letters no_digest
    merge_sorts (Some home_collector) false "home" "sensor.dw.1" WatchScope.home_binding _ _ _ merge_sorts_sorts Hc) as (os & cs & H).
  exists (mkResult (UTC home_clock) 1 1 0 (snSources home_snapshot)), puts, os, cs. split; [exact Hc|exact H].
Defined.

(** The texts the sink is handed. *)
Example home_texts :
  map (λ p, match p with PutObservation o => Domain.obPayload o | PutCoverage c => Domain.coEvidence c end)
    match home_collection with Some (_, _, puts) => take 1 puts | None => [] end =
  [JSON.of_bytes (JSON.text "{'address':'192.168.1.43','family':'ipv4','hardware_address':'66:65:74:68:00:2b','interface':'en0','method':'arp-cache','schema_version':1,'state':''}")].
Proof. vm_compute. reflexivity. Qed.

End Collector.
