(* ===== verification/Reconcile.v ===== *)
(** * Reconciliation

    [devicewatch/reconcile.go]: an observation of a neighbor becomes two identity claims, a device
    and the links between them.  The reader and the store answer as they may; SHA-256 is a
    parameter. *)

From Stdlib Require Import Ascii.
From S2P Require Import Prelude GoFloat Regex GoTime NetAddr NetText RunControl GoJSON ConsentSession GoMarshal Manifest Domain Coverage WatchScope WatchCoverage Neighbors Collector.

Module Reconcile.
Import Domain Neighbors Collector.

Definition macContinuityHorizon : Duration := 7 * 24 * Hour.
Definition claimValidity : Duration := 10 * Minute.
Definition arrivalCoverageMaxGap : Duration := 3 * Minute.

Record ReconciliationResult := mkReconciled { rrDeviceID : string; rrCreated : bool; rrAmbiguous : bool; rrClaims : Z }.
Record ReconciliationPlan := mkPlan { pResult : ReconciliationResult; NewDevice : option Device; pClaims : list IdentityClaim; pLinks : list DeviceClaimLink }.

(** [float64] constants *)
Definition hundredths (n : Z) : float64 := float_div (float_of_int n) (float_of_int 100).

(** The text with its apostrophes as quotation marks. *)
Definition quotes (s : string) : string := text (map (λ c, if c == "'"%char then "034"%char else c) (chars s)).
Definition arrival_payload : string := quotes "{'identity_authority':'inferred','interpretation':'newly-observed-identity'}".

Definition device_reader : Type := string → ClaimKind → string → Time → Time → result string (list Device).

(** The tags of [neighborObservationPayload], and [json.Unmarshal] into it. *)
Definition payload_fields : list (string * Marshal.kind) :=
  [("schema_version", Marshal.KInt); ("address", Marshal.KString); ("hardware_address", Marshal.KString); ("interface", Marshal.KString);
   ("family", Marshal.KString); ("method", Marshal.KString); ("state", Marshal.KString)].
Definition payload_of_fields (s : string → option Session.content) : neighborObservationPayload :=
  mkPayload (Marshal.int_field s "schema_version") (Marshal.text_field s "address") (Marshal.text_field s "hardware_address")
    (Marshal.text_field s "interface") (Marshal.text_field s "family") (Marshal.text_field s "method") (Marshal.text_field s "state").
Definition unmarshal_payload (raw : string) : option neighborObservationPayload :=
  payload_of_fields <$> Marshal.unmarshal_struct payload_fields raw.

Section Plan.
Context (lower_or_digit : Z → bool) (sha256 : string → string).

Definition decodeNeighborIdentity (raw : string) : result string (neighborObservationPayload * Addr * list Z) :=
  match unmarshal_payload raw with
  | None => Err "decode neighbor identity observation"
  | Some payload =>
      guard? negb (pSchemaVersion payload =? 1) || (pInterface payload == "") || (pMethod payload == "")
      else "neighbor identity observation has invalid metadata" in
      match ParseAddr (pAddress payload) with
      | None => Err "neighbor identity observation has invalid IP address"
      | Some address =>
          guard? negb (IsValid address) || IsMulticast address || IsUnspecified address || IsLoopback address
          else "neighbor identity observation has invalid IP address" in
          let address := if Is6 address then WatchScope.WithoutZone address else address in
          guard? ((pFamily payload == "ipv4") && negb (Is4 address)) || ((pFamily payload == "ipv6") && negb (Is6 address))
          else "neighbor identity observation address family mismatch" in
          guard? (pFamily payload != "ipv4") && (pFamily payload != "ipv6") else "neighbor identity observation has invalid address family" in
          match ParseMAC (pHardware payload) with
          | None => Err "neighbor identity observation has invalid hardware address"
          | Some hardware =>
              guard? negb (llen hardware =? 6) || negb (Z.land (default 0 (head hardware)) 1 =? 0)
              else "neighbor identity observation has invalid hardware address" in
              guard? forallb (λ b, b =? 0) hardware else "neighbor identity observation has zero hardware address" in
              Ok (payload, address, hardware)
          end
      end
  end.

Definition observed_at (o : Observation) : Time := UTC (default (IngestedAt o) (SourceTime o)).

Definition mac_claim (o : Observation) (hardware : list Z) : IdentityClaim :=
  let macValue := ToLower (MACString hardware) in
  mkClaim ("claim.dw.mac." +:+ stableDigest sha256 ["mac-claim-v1"; obID o; macValue]) (obScopeID o) ClaimMAC macValue (observed_at o)
    (Some (Add (observed_at o) claimValidity)) (Some (hundredths (if negb (Z.land (default 0 (head hardware)) 2 =? 0) then 75 else 90)))
    (obSensorID o) (obID o) RetentionStandard.

Definition ip_claim (o : Observation) (address : Addr) : IdentityClaim :=
  let ipValue := AddrString address in
  mkClaim ("claim.dw.ip." +:+ stableDigest sha256 ["ip-claim-v1"; obID o; ipValue]) (obScopeID o) (if Is4 address then ClaimIPv4 else ClaimIPv6) ipValue
    (observed_at o) (Some (Add (observed_at o) claimValidity)) (Some (hundredths 65)) (obSensorID o) (obID o) RetentionStandard.

Definition link_id (deviceID claimID : string) : string := "link.dw." +:+ stableDigest sha256 ["link-v1"; deviceID; claimID].

Definition plan_link (o : Observation) (deviceID reason suffix : string) (c : IdentityClaim) : DeviceClaimLink :=
  mkLink (link_id deviceID (clID c)) deviceID (clID c) (observed_at o) (Some (Add (observed_at o) claimValidity)) (clConfidence c)
    LinkInferred (reason +:+ ":" +:+ suffix) (obID o) (observed_at o).

(** The decision, by the devices the MAC address was seen on lately. *)
Definition decide_plan (o : Observation) (mac ip : IdentityClaim) (candidates : list Device) : ReconciliationPlan :=
  let finish device created reason :=
    mkPlan (mkReconciled (deID device) (is_some created) false 2) created [mac; ip]
      [plan_link o (deID device) reason "mac" mac; plan_link o (deID device) reason "ip" ip] in
  match candidates with
  | [] =>
      let device := mkDevice ("device.dw." +:+ stableDigest sha256 ["device-v1"; obScopeID o; obID o; clValue mac]) "" (observed_at o) None in
      finish device (Some device) "device-watch:new-mac-candidate"
  | [device] => finish device None "device-watch:recent-mac-continuity"
  | _ => mkPlan (mkReconciled "" false true 2) None [mac; ip] []
  end.

Definition PlanReconciliation (reader : option device_reader) (o : Observation) : result string ReconciliationPlan :=
  match reader with
  | None => Err "device watch identity reader is required"
  | Some reader =>
      guard? obKind o != "device-neighbor-seen" else "unsupported device watch observation kind" in
      check? ValidateObservation lower_or_digit o in
      let? (_, address, hardware) := decodeNeighborIdentity (obPayload o) in
      let mac := mac_claim o hardware in
      let ip := ip_claim o address in
      let? candidates := reader (obScopeID o) ClaimMAC (clValue mac) (Add (observed_at o) (- macContinuityHorizon)) (observed_at o) in
      Ok (decide_plan o mac ip candidates)
  end.

(** ** Writing the plan *)

Inductive write := EnsureClaim (c : IdentityClaim) | EnsureDevice (d : Device) | EnsureLink (l : DeviceClaimLink).

(** The store reads devices and answers each write, after those before it, with the identifier
    it keeps the record under. *)
Record IdentityStore := mkStore { find_devices : device_reader; ensure : list write → write → result string string }.

Definition written : Type := ReconciliationResult * option string * list write.
Definition zeroReconciled : ReconciliationResult := mkReconciled "" false false 0.

(** The claims, and the identifiers the store gave them. *)
Fixpoint write_claims (store : IdentityStore) (claims : list IdentityClaim) (resolved : gmap string string) (history : list write)
  : result string (gmap string string) * list write :=
  match claims with
  | [] => (Ok resolved, history)
  | c :: rest =>
      let history' := history ++ [EnsureClaim c] in
      match ensure store history (EnsureClaim c) with
      | Err e => (Err e, history')
      | Ok id => write_claims store rest (<[clID c := id]> resolved) history'
      end
  end.

Definition resolve_link (resolved : gmap string string) (l : DeviceClaimLink) : DeviceClaimLink :=
  let claimID := default "" (resolved !! ClaimID l) in
  mkLink (link_id (liDeviceID l) claimID) (liDeviceID l) claimID (ValidFrom l) (liValidUntil l) (liConfidence l) (Authority l) (liReason l)
    (EvidenceObservationID l) (liCreatedAt l).

Fixpoint write_links (store : IdentityStore) (resolved : gmap string string) (links : list DeviceClaimLink) (history : list write) : option string * list write :=
  match links with
  | [] => (None, history)
  | l :: rest =>
      let w := EnsureLink (resolve_link resolved l) in
      match ensure store history w with
      | Err e => (Some e, history ++ [w])
      | Ok _ => write_links store resolved rest (history ++ [w])
      end
  end.

Definition ReconcileObservation (store : option IdentityStore) (o : Observation) : written :=
  match store with
  | None => (zeroReconciled, Some "device watch reconciler is unavailable", [])
  | Some store =>
      match PlanReconciliation (Some (find_devices store)) o with
      | Err e => (zeroReconciled, Some e, [])
      | Ok plan =>
          match write_claims store (pClaims plan) ∅ [] with
          | (Err e, history) => (zeroReconciled, Some e, history)
          | (Ok resolved, history) =>
              let claims := llen (pClaims plan) in
              let ambiguous := rrAmbiguous (pResult plan) in
              let '(err, created, history) :=
                match NewDevice plan with
                | None => (None, false, history)
                | Some d =>
                    match ensure store history (EnsureDevice d) with
                    | Err e => (Some e, false, history ++ [EnsureDevice d])
                    | Ok _ => (None, true, history ++ [EnsureDevice d])
                    end
                end in
              match err with
              | Some e => (mkReconciled "" false ambiguous claims, Some e, history)
              | None =>
                  let '(err, history) := write_links store resolved (pLinks plan) history in
                  (mkReconciled (rrDeviceID (pResult plan)) created ambiguous claims, err, history)
              end
          end
      end
  end.

(** ** Batches *)

Record EvidenceBatchPlan := mkBatch { bNewDevice : option Device; bClaims : list IdentityClaim; bLinks : list DeviceClaimLink; ArrivalFinding : option Finding }.

(** [continuous] is [HasContinuousDeviceWatchCoverage]. *)
Definition PlanBatchEvidence (reader : device_reader) (continuous : string → string → Time → Duration → result string bool) (o : Observation)
  : result string EvidenceBatchPlan :=
  let? plan := PlanReconciliation (Some reader) o in
  match NewDevice plan with
  | None => Ok (mkBatch None (pClaims plan) (pLinks plan) None)
  | Some device =>
      let? c := continuous (obScopeID o) (obSensorID o) (IngestedAt o) arrivalCoverageMaxGap in
      if negb c then Ok (mkBatch (Some device) (pClaims plan) (pLinks plan) None)
      else
        Ok (mkBatch (Some device) (pClaims plan) (pLinks plan)
          (Some (mkFinding ("finding.dw.arrival." +:+ stableDigest sha256 ["arrival-v1"; obScopeID o; obID o; deID device]) (obScopeID o)
             "device-watch-arrival" "1" "new-device" "informational" None (deCreatedAt device) (IngestedAt o) 1
             arrival_payload (Some [obID o]) (obRetention o))))
  end.

End Plan.

(** ** Identifiers *)

Definition id_char (c : ascii) : bool := lower_digit c || one_of "._:-" c.

Lemma id_valid c s : is_lower c = true → Forall (λ d, id_char d = true) (chars s) → slen s <= 127 → validateID (String.String c s) = Ok tt.
Proof.
  intros Hc Hs Hl. unfold validateID, idPattern. rewrite Manifest.guard_unit, negb_false_iff, matches_spec. cbn [denote].
  exists [c], (chars s). split; [done|]. split; [by exists c|]. refine (proj2 (denote_rep_set id_char 0 127 (chars s)) _). unfold chars. rewrite list_ascii_length.
  unfold slen in Hl. split; [lia|done].
Qed.

(** Half a SHA-256 digest is thirty-two hexadecimal digits. *)
Definition hashes (sha256 : string → string) : Prop := ∀ s, String.length (sha256 s) = 32%nat.

Lemma digest_text sha256 parts : hashes sha256 →
  String.length (stableDigest sha256 parts) = 32%nat ∧ Forall (λ c, hex_digit c = true) (chars (stableDigest sha256 parts)).
Proof.
  intros Hh. apply hex_regex_spec. unfold stableDigest. apply (EncodeToString_hex _ 16). unfold text.
  rewrite <- list_ascii_length, String.list_ascii_of_string_of_list_ascii, length_take. unfold chars. rewrite list_ascii_length, Hh. done.
Qed.

Lemma chars_app s t : chars (s +:+ t) = chars s ++ chars t.
Proof. unfold chars. induction s as [|c s IH]; [done|]. change (String.String c s +:+ t) with (String.String c (s +:+ t)). simpl. by rewrite IH. Qed.

Lemma digest_id sha256 c s parts :
  hashes sha256 → is_lower c = true → forallb id_char (chars s) = true → slen s <= 90 →
  validateID (String.String c s +:+ stableDigest sha256 parts) = Ok tt.
Proof.
  intros Hh Hc Hs Hl. destruct (digest_text sha256 parts Hh) as [Hlen Hhex]. change (String.String c s +:+ ?t) with (String.String c (s +:+ t)).
  apply id_valid; [done| |].
  - rewrite chars_app. apply Forall_app. split; [by apply forallb_true_iff|].
    eapply Forall_impl; [exact Hhex|]. intros d. destruct d as [[] [] [] [] [] [] [] []]; intros H; (discriminate H || reflexivity).
  - unfold slen in *. rewrite <- list_ascii_length. change (String.list_ascii_of_string ?t) with (chars t). rewrite chars_app, length_app.
    unfold chars. rewrite !list_ascii_length. lia.
Qed.

(** ** Plans are valid *)

Section Valid.
Context (lower_or_digit : Z → bool) (sha256 : string → string) (Hsha : hashes sha256).

(** What decoding leaves: an address without zone and six usable bytes. *)
Lemma decode_identity raw payload address hardware :
  decodeNeighborIdentity raw = Ok (payload, address, hardware) →
  (Is4 address = true ∨ Is6 address = true) ∧ Zone address = "" ∧ well_formed_addr address ∧ hardware_ok hardware ∧
  usableHardwareAddr hardware = true.
Proof.
  unfold decodeNeighborIdentity. destruct (unmarshal_payload raw) as [p|]; [|done]. rewrite guard_ok. intros [_ H].
  destruct (ParseAddr (pAddress p)) as [a|] eqn:Ea; [|done]. rewrite guard_ok in H. destruct H as [_ H]. cbv zeta in H.
  rewrite !guard_ok in H. destruct H as (_ & _ & H). destruct (ParseMAC (pHardware p)) as [hw|] eqn:Em; [|done]. rewrite !guard_ok in H.
  destruct H as (Hl & Hz & [= <- <- <-]). apply parse_addr_wf in Ea as [Hn Hw]. apply ParseMAC_ok in Em as [Hb _].
  rewrite orb_false_iff, !negb_false_iff, Z.eqb_eq in Hl. destruct Hl as [Hl Hbit].
  split_and!.
  - destruct a; simpl; tauto.
  - by destruct a.
  - by destruct a.
  - split; [done|]. unfold llen in Hl. lia.
  - destruct hw as [|b hw]; [done|]. unfold usableHardwareAddr. change (Z.land b 1 =? 0 = true) in Hbit. rewrite Hl, Hbit, Hz. done.
Qed.

Lemma claim_value_mac hardware : hardware_ok hardware →
  NormalizeClaimValue ClaimMAC (ToLower (MACString hardware)) = Ok (ToLower (MACString hardware)).
Proof using.
  intros [Hb Hl]. assert (Hm : mac_ok hardware) by (split; [done|by unfold llen; rewrite Hl]).
  unfold NormalizeClaimValue. simpl. by rewrite ToLower_text, ParseMAC_text, ToLower_text.
Qed.

Lemma claim_value_ip address : Is4 address = true ∨ Is6 address = true → well_formed_addr address →
  NormalizeClaimValue (if Is4 address then ClaimIPv4 else ClaimIPv6) (AddrString address) = Ok (AddrString address).
Proof using.
  intros Hf Hw. assert (Hp : ParseAddr (AddrString address) = Some address) by (apply ParseAddr_AddrString; [by destruct address; destruct Hf|done]).
  destruct address as [|n|n z]; [by destruct Hf|..]; unfold NormalizeClaimValue; rewrite Hp; reflexivity.
Qed.

(** The fields of an observation a plan is made of. *)
Lemma observation_ids o : ValidateObservation lower_or_digit o = Ok tt →
  validateID (obID o) = Ok tt ∧ validateID (obScopeID o) = Ok tt ∧ validateID (obSensorID o) = Ok tt ∧ IsZero (IngestedAt o) = false.
Proof using.
  unfold ValidateObservation. rewrite Manifest.check_ok. intros [Hids H]. rewrite Coverage.for_each_unit, !Forall_cons in Hids.
  rewrite !Manifest.check_ok, guard_ok in H. tauto.
Qed.

Lemma observed_canonical o : canonical (observed_at o).
Proof using. done. Qed.

Lemma valid_until o : follows (Some (Add (observed_at o) claimValidity)) (observed_at o) = true.
Proof using.
  unfold follows. rewrite Before_wall by (right; done). rewrite wall_Add, negb_true_iff, Z.ltb_ge. unfold claimValidity, Minute, Second. lia.
Qed.

Lemma confidence_ok n : n = 65 ∨ n = 75 ∨ n = 90 → validateConfidence (Some (hundredths n)) = Ok tt.
Proof using. intros [->|[->| ->]]; vm_compute; reflexivity. Qed.

Lemma mac_claim_valid o hardware :
  ValidateObservation lower_or_digit o = Ok tt → IsZero (observed_at o) = false → hardware_ok hardware →
  ValidateIdentityClaim (mac_claim sha256 o hardware) = Ok tt.
Proof using Hsha.
  intros (Ho & Hs & Hn & _)%observation_ids Hz Hh. unfold ValidateIdentityClaim, mac_claim. cbn [clID clScopeID SourceSensorID SourceObservationID
    clObservedAt clValidUntil clKind clValue clConfidence clRetention].
  rewrite (digest_id _ _ _ _ Hsha) by done. rewrite Hs, Hn, Hz, valid_until, claim_value_mac by done. cbn [res_bind negb].
  unfold optionalID. rewrite Ho. destruct (obID o != ""); cbn [res_bind]; rewrite confidence_ok by (destruct (negb _); tauto); done.
Qed.

Lemma ip_claim_valid o address :
  ValidateObservation lower_or_digit o = Ok tt → IsZero (observed_at o) = false → Is4 address = true ∨ Is6 address = true → well_formed_addr address →
  ValidateIdentityClaim (ip_claim sha256 o address) = Ok tt.
Proof using Hsha.
  intros (Ho & Hs & Hn & _)%observation_ids Hz Hf Hw. unfold ValidateIdentityClaim, ip_claim. cbn [clID clScopeID SourceSensorID SourceObservationID
    clObservedAt clValidUntil clKind clValue clConfidence clRetention].
  rewrite (digest_id _ _ _ _ Hsha) by done. rewrite Hs, Hn, Hz, valid_until, claim_value_ip by done. cbn [res_bind negb].
  unfold optionalID. rewrite Ho. destruct (obID o != ""); cbn [res_bind]; rewrite confidence_ok by tauto; done.
Qed.

Lemma claim_fields c : ValidateIdentityClaim c = Ok tt → validateID (clID c) = Ok tt ∧ validateConfidence (clConfidence c) = Ok tt.
Proof using.
  unfold ValidateIdentityClaim. rewrite !Manifest.check_ok, !guard_ok, res_bind_ok. setoid_rewrite Manifest.check_ok.
  intros [Hid H]. skip 5 in H. destruct H as (v & _ & Hc & _). done.
Qed.

Definition link_reasons : list (string * string) :=
  [("device-watch:new-mac-candidate", "mac"); ("device-watch:new-mac-candidate", "ip"); ("device-watch:recent-mac-continuity", "mac");
   ("device-watch:recent-mac-continuity", "ip")].

Lemma plan_link_valid o deviceID reason suffix c :
  ValidateObservation lower_or_digit o = Ok tt → IsZero (observed_at o) = false → validateID deviceID = Ok tt → ValidateIdentityClaim c = Ok tt →
  (reason, suffix) ∈ link_reasons → ValidateDeviceClaimLink (plan_link sha256 o deviceID reason suffix c) = Ok tt.
Proof using Hsha.
  intros (Ho & _)%observation_ids Hz Hd [Hid Hconf]%claim_fields Hr.
  unfold ValidateDeviceClaimLink, plan_link, link_id. cbn [liID liDeviceID ClaimID EvidenceObservationID ValidFrom liValidUntil liConfidence Authority liReason].
  cbn [for_each]. rewrite (digest_id _ _ _ _ Hsha) by done. rewrite Hd, Hid, Hz, valid_until, Hconf. cbn [res_bind negb].
  unfold optionalID. rewrite Ho.
  assert (Hopaque : validateOpaque (reason +:+ ":" +:+ suffix) 512 = Ok tt).
  { unfold link_reasons in Hr. repeat (apply elem_of_cons in Hr as [[= -> ->]|Hr]; [vm_compute; reflexivity|]). by apply not_elem_of_nil in Hr. }
  rewrite Hopaque. by destruct (obID o != "").
Qed.

(** A plan in terms of the devices the address was seen on: its claims are valid and of this
    observation; with several devices nothing is decided, else both claims are linked to the one
    device, or to a new one. *)
Record valid_plan (o : Observation) (candidates : list Device) (plan : ReconciliationPlan) : Prop := {
  v_claims : Forall (λ c, ValidateIdentityClaim c = Ok tt ∧ SourceObservationID c = obID o ∧ clScopeID c = obScopeID o ∧ SourceSensorID c = obSensorID o)
               (pClaims plan);
  v_kinds : ∃ kind, (kind = ClaimIPv4 ∨ kind = ClaimIPv6) ∧ map clKind (pClaims plan) = [ClaimMAC; kind];
  v_distinct : NoDup (map clID (pClaims plan));
  v_device : ∀ d, NewDevice plan = Some d → ValidateDevice d = Ok tt;
  v_links : Forall (λ l, ValidateDeviceClaimLink l = Ok tt ∧ liDeviceID l = rrDeviceID (pResult plan) ∧ Authority l = LinkInferred) (pLinks plan);
  v_decision : match candidates with
               | [] => ∃ d, NewDevice plan = Some d ∧ pResult plan = mkReconciled (deID d) true false 2 ∧ map ClaimID (pLinks plan) = map clID (pClaims plan)
               | [d] => NewDevice plan = None ∧ pResult plan = mkReconciled (deID d) false false 2 ∧ map ClaimID (pLinks plan) = map clID (pClaims plan)
               | _ => NewDevice plan = None ∧ pLinks plan = [] ∧ pResult plan = mkReconciled "" false true 2
               end;
}.

Lemma claim_ids_distinct o hardware address : clID (mac_claim sha256 o hardware) ≠ clID (ip_claim sha256 o address).
Proof using. intros H. cbn [mac_claim ip_claim clID] in H. apply (f_equal chars) in H. rewrite !chars_app in H. discriminate H. Qed.

Lemma decided_valid o mac ip candidates :
  ValidateObservation lower_or_digit o = Ok tt → IsZero (observed_at o) = false → ValidateIdentityClaim mac = Ok tt → ValidateIdentityClaim ip = Ok tt →
  Forall (λ d, validateID (deID d) = Ok tt) candidates →
  let plan := decide_plan sha256 o mac ip candidates in
  (∀ d, NewDevice plan = Some d → ValidateDevice d = Ok tt) ∧
  Forall (λ l, ValidateDeviceClaimLink l = Ok tt ∧ liDeviceID l = rrDeviceID (pResult plan) ∧ Authority l = LinkInferred) (pLinks plan).
Proof using Hsha.
  intros Ho Hz Hm Hi Hc.
  assert (Hd : validateID ("device.dw." +:+ stableDigest sha256 ["device-v1"; obScopeID o; obID o; clValue mac]) = Ok tt) by (by apply digest_id).
  destruct candidates as [|d [|d' candidates]]; cbn [decide_plan NewDevice pLinks pResult rrDeviceID].
  - split.
    + intros d [= <-]. unfold ValidateDevice. cbn [deID UserLabel deCreatedAt deRetiredAt]. rewrite Hd, Hz. done.
    + repeat constructor; try done; apply plan_link_valid; first [done|unfold link_reasons; set_solver].
  - apply Forall_cons in Hc as [Hc _]. split; [done|]. repeat constructor; try done; apply plan_link_valid; first [done|unfold link_reasons; set_solver].
  - split; [done|constructor].
Qed.

Lemma plan_spec reader o plan :
  PlanReconciliation lower_or_digit sha256 (Some reader) o = Ok plan → IsZero (observed_at o) = false →
  (∀ scope kind value since until ds, reader scope kind value since until = Ok ds → Forall (λ d, validateID (deID d) = Ok tt) ds) →
  ∃ payload address hardware candidates, decodeNeighborIdentity (obPayload o) = Ok (payload, address, hardware) ∧
    reader (obScopeID o) ClaimMAC (ToLower (MACString hardware)) (Add (observed_at o) (- macContinuityHorizon)) (observed_at o) = Ok candidates ∧
    valid_plan o candidates plan.
Proof using Hsha.
  intros H Hz Hreader. unfold PlanReconciliation in H. rewrite guard_ok in H. destruct H as [_ H]. rewrite Manifest.check_ok in H. destruct H as [Ho H].
  rewrite res_bind_ok in H. destruct H as ([[payload address] hardware] & Hdec & H). rewrite res_bind_ok in H. destruct H as (candidates & Hr & [= <-]).
  exists payload, address, hardware, candidates. split; [done|]. split; [done|].
  destruct (decode_identity _ _ _ _ Hdec) as (Hf & _ & Hw & Hh & _).
  pose proof (mac_claim_valid o hardware Ho Hz Hh) as Hm. pose proof (ip_claim_valid o address Ho Hz Hf Hw) as Hi.
  destruct (decided_valid o _ _ candidates Ho Hz Hm Hi (Hreader _ _ _ _ _ _ Hr)) as [Hdev Hlinks].
  assert (Hclaims : pClaims (decide_plan sha256 o (mac_claim sha256 o hardware) (ip_claim sha256 o address) candidates) =
    [mac_claim sha256 o hardware; ip_claim sha256 o address]) by (by destruct candidates as [|? [|]]).
  constructor; try done; rewrite ?Hclaims.
  - repeat constructor; done.
  - exists (if Is4 address then ClaimIPv4 else ClaimIPv6). split; [by destruct (Is4 address); auto|done].
  - cbn [map]. constructor; [|apply NoDup_singleton]. rewrite list_elem_of_singleton. apply claim_ids_distinct.
  - destruct candidates as [|? [|]]; cbn [decide_plan NewDevice pResult pLinks pClaims]; [eexists|..]; done.
Qed.

End Valid.

(** What reconciliation plans is valid.  For an observation that is accepted, at a time, and devices
    with valid identifiers, the plan holds a MAC and an IP claim with distinct identifiers, both valid and
    of this observation; for an address seen on several devices lately it decides nothing; otherwise it
    links both claims, as inferred, to the one device they were seen on, or to a new valid device, and
    every link is valid.  The devices are those of the observation's own scope and MAC address in the
    week before it. *)
Theorem plan_valid lower_or_digit sha256 reader o plan :
  hashes sha256 → PlanReconciliation lower_or_digit sha256 (Some reader) o = Ok plan → IsZero (observed_at o) = false →
  (∀ scope kind value since until ds, reader scope kind value since until = Ok ds → Forall (λ d, validateID (deID d) = Ok tt) ds) →
  ∃ payload address hardware candidates, decodeNeighborIdentity (obPayload o) = Ok (payload, address, hardware) ∧
    reader (obScopeID o) ClaimMAC (ToLower (MACString hardware)) (Add (observed_at o) (- macContinuityHorizon)) (observed_at o) = Ok candidates ∧
    valid_plan o candidates plan.
Proof. intros Hs. by apply plan_spec. Qed.

(** ** What is collected is reconciled *)

(** A payload whose texts need no escapes is read back, key by key. *)
Lemma payload_read p :
  pSchemaVersion p = 1 → Forall Marshal.verbatim_text [pAddress p; pHardware p; pInterface p; pFamily p; pMethod p; pState p] →
  unmarshal_payload (marshal_payload p) = Some p.
Proof.
  destruct p as [v a h i f m st]. simpl. intros -> Hp. rewrite !Forall_cons in Hp. destruct Hp as (Ha & Hh & Hi & Hf & Hm & Hs & _).
  unfold unmarshal_payload, marshal_payload.
  assert (Hk : ∀ k, forallb Marshal.verbatim (JSON.sbytes k) = true → Marshal.verbatim_text k) by (intros k; apply forallb_true_iff).
  rewrite (Marshal.unmarshal_flat payload_fields _ (JSON.sbytes "address", Marshal.text_value a)
    [(JSON.sbytes "family", Marshal.text_value f); (JSON.sbytes "hardware_address", Marshal.text_value h); (JSON.sbytes "interface", Marshal.text_value i);
     (JSON.sbytes "method", Marshal.text_value m); (JSON.sbytes "schema_version", JSON.JNumber [49]); (JSON.sbytes "state", Marshal.text_value st)]).
  - assert (Hr : ∀ a h i f m st : list Z, payload_of_fields <$> Marshal.store_members payload_fields
      [(JSON.sbytes "address", JSON.JString a); (JSON.sbytes "family", JSON.JString f); (JSON.sbytes "hardware_address", JSON.JString h);
       (JSON.sbytes "interface", JSON.JString i); (JSON.sbytes "method", JSON.JString m); (JSON.sbytes "schema_version", JSON.JNumber [49]);
       (JSON.sbytes "state", JSON.JString st)] (λ _, None) =
      Some (mkPayload 1 (JSON.of_bytes a) (JSON.of_bytes h) (JSON.of_bytes i) (JSON.of_bytes f) (JSON.of_bytes m) (JSON.of_bytes st))) by reflexivity.
    unfold Marshal.text_value. rewrite Hr, !JSON.of_sbytes. done.
  - reflexivity.
  - repeat (apply Forall_cons; split); try apply Forall_nil_2; first [apply Marshal.flat_text; [by apply Hk|done]|by apply Marshal.flat_one, Hk].
Qed.

Lemma mac_verbatim bs : hardware_ok bs → Marshal.verbatim_text (ToLower (MACString bs)).
Proof.
  intros [Hb Hl]. rewrite ToLower_text by (split; [done|by unfold llen; rewrite Hl]). unfold Marshal.verbatim_text, JSON.sbytes, MACString.
  rewrite String.list_ascii_of_string_of_list_ascii. clear Hl. apply Forall_map.
  assert (Hh : ∀ d, 0 <= d < 16 → Marshal.verbatim (byte_of (hex_char d)) = true).
  { intros d Hd%hex_char_digit. revert Hd. generalize (hex_char d). intros c. destruct c as [[] [] [] [] [] [] [] []]; intros H; (discriminate H || reflexivity). }
  induction Hb as [|b bs Hb _ IH]; [constructor|]. cbn [mac_text].
  constructor; [apply Hh; split; [apply Z.div_pos; lia|apply Z.div_lt_upper_bound; lia]|].
  constructor; [apply Hh, Z.mod_pos_bound; lia|]. destruct bs; [constructor|]. by constructor.
Qed.

Section Compose.
Context (lower_or_digit : Z → bool) (sha256 : string → string).

Definition payload_of (n : Neighbor) : neighborObservationPayload :=
  mkPayload 1 (AddrString (nAddress n)) (ToLower (MACString (nHardware n))) (nInterface n) (if Is4 (nAddress n) then "ipv4" else "ipv6") (nMethod n) (nState n).
Definition identity_address (a : Addr) : Addr := if Is6 a then WatchScope.WithoutZone a else a.

Lemma build_fields scopeID sensorID at_ n o :
  buildNeighborObservation lower_or_digit sha256 scopeID sensorID at_ n = Ok o →
  ValidateObservation lower_or_digit o = Ok tt ∧ obKind o = "device-neighbor-seen" ∧ obPayload o = marshal_payload (payload_of n) ∧ obScopeID o = scopeID ∧
  observed_at o = UTC at_ ∧ IngestedAt o = UTC at_.
Proof. unfold buildNeighborObservation. cbv zeta. rewrite Manifest.check_ok. by intros [? [= <-]]. Qed.

(** A neighbor as the tables give it: a well-formed address, six bytes, a named interface and method, and
    texts that JSON writes without escapes. *)
Record tabled (n : Neighbor) : Prop := {
  tb_address : well_formed_addr (nAddress n);
  tb_hardware : hardware_ok (nHardware n);
  tb_interface : nInterface n ≠ "";
  tb_method : nMethod n ≠ "";
  tb_texts : Forall Marshal.verbatim_text [AddrString (nAddress n); nInterface n; nMethod n; nState n];
}.

Lemma tabled_read n : tabled n → unmarshal_payload (marshal_payload (payload_of n)) = Some (payload_of n).
Proof.
  intros [_ Hh _ _ Ht]. rewrite !Forall_cons in Ht. destruct Ht as (Ha & Hi & Hm & Hs & _). apply payload_read; [done|].
  cbn [payload_of pAddress pHardware pInterface pFamily pMethod pState]. pose proof (mac_verbatim _ Hh).
  repeat (apply Forall_cons; split); try done. apply forallb_true_iff. by destruct (Is4 (nAddress n)).
Qed.

(** The addresses of a neighbor in scope are those the reconciler accepts. *)
Lemma in_scope_decodes b n :
  WatchScope.AddressInScope b (nAddress n) = true → usableHardwareAddr (nHardware n) = true → tabled n →
  decodeNeighborIdentity (marshal_payload (payload_of n)) = Ok (payload_of n, identity_address (nAddress n), nHardware n).
Proof.
  intros Hs Hu Ht. unfold decodeNeighborIdentity. rewrite (tabled_read n Ht). destruct Ht as [Hw Hh Hi Hm _].
  cbn [payload_of pSchemaVersion pInterface pMethod pAddress pFamily pHardware]. rewrite (bool_decide_eq_false_2 _ Hi), (bool_decide_eq_false_2 _ Hm).
  cbn [Z.eqb negb orb Pos.eqb]. unfold WatchScope.AddressInScope in Hs. destruct (_ || _ || _ || _) eqn:Eb; [done|]. rewrite !orb_false_iff in Eb.
  destruct Eb as [[[Hv Hun] Hmu] Hlo]. rewrite ParseAddr_AddrString by (first [done|by intros E; rewrite E in Hv]). rewrite Hv, Hun, Hmu, Hlo. cbn [orb].
  assert (Hp : ParseMAC (ToLower (MACString (nHardware n))) = Some (nHardware n)).
  { destruct Hh as [Hb Hl]. assert (mac_ok (nHardware n)) by (split; [done|by unfold llen; rewrite Hl]). by rewrite ToLower_text, ParseMAC_text. }
  unfold usableHardwareAddr in Hu. destruct (nHardware n) as [|byte hw] eqn:Ehw; [done|]. destruct (_ || _) eqn:Ehb in Hu; [done|].
  rewrite orb_false_iff in Ehb. destruct Ehb as [Hlen Hbit]. rewrite negb_true_iff in Hu.
  destruct (nAddress n) as [|a|a z]; [done|..]; cbn [Is4 Is6 identity_address WatchScope.WithoutZone]; rewrite Hp; cbn [head];
    change (default 0 (Some byte)) with byte; rewrite Hlen, Hbit, Hu; reflexivity.
Qed.

(** C33: every neighbor a collection takes in is one the reconciler plans for.  The map that the collector
    writes as JSON is read back by the tags of the reconciler's struct: for a neighbor in scope, as the
    tables give it (a well-formed address, six bytes, a named interface and method, texts without
    characters that JSON escapes), whenever the collector builds its observation and the reader answers,
    the observation gives a plan, made for the moment of the snapshot, that claims exactly this neighbor's
    hardware address and its IP address without the zone. *)
Theorem collected_reconciles b scopeID sensorID at_ n o reader candidates :
  buildNeighborObservation lower_or_digit sha256 scopeID sensorID at_ n = Ok o → in_scope b n = true → tabled n →
  reader scopeID ClaimMAC (ToLower (MACString (nHardware n))) (Add (UTC at_) (- macContinuityHorizon)) (UTC at_) = Ok candidates →
  ∃ plan, PlanReconciliation lower_or_digit sha256 (Some reader) o = Ok plan ∧
    map clKind (pClaims plan) = [ClaimMAC; if Is4 (nAddress n) then ClaimIPv4 else ClaimIPv6] ∧
    map clValue (pClaims plan) = [ToLower (MACString (nHardware n)); AddrString (identity_address (nAddress n))] ∧
    Forall (λ c, clObservedAt c = UTC at_ ∧ SourceObservationID c = obID o) (pClaims plan) ∧ IsZero (observed_at o) = false.
Proof.
  intros (Ho & Hk & Hp & Hs & Hat & Hing)%build_fields Hin Ht Hr. unfold in_scope in Hin. rewrite !andb_true_iff in Hin.
  destruct Hin as [[_ Hscope] Hu]. destruct (observation_ids lower_or_digit o Ho) as (_ & _ & _ & Hz).
  exists (decide_plan sha256 o (mac_claim sha256 o (nHardware n)) (ip_claim sha256 o (identity_address (nAddress n))) candidates). split_and!.
  - unfold PlanReconciliation. rewrite Hk, Ho, Hp, (in_scope_decodes b n Hscope Hu Ht), Hat, Hs. cbn [res_bind clValue mac_claim]. by rewrite Hr.
  - destruct candidates as [|? [|]], (nAddress n); done.
  - by destruct candidates as [|? [|]].
  - destruct candidates as [|? [|]]; cbn [decide_plan pClaims]; repeat constructor; done.
  - rewrite Hat, <- Hing. done.
Qed.

End Compose.

(** ** Links follow the store *)

(** Every write was accepted by the store, or the last one was refused. *)
Definition accepted (store : IdentityStore) (ws : list write) : Prop :=
  ∀ before w after, ws = before ++ w :: after → is_ok (ensure store before w) = true.
Definition refused (store : IdentityStore) (e : string) (ws : list write) : Prop :=
  ∃ before w, ws = before ++ [w] ∧ accepted store before ∧ ensure store before w = Err e.

Lemma accepted_nil store : accepted store [].
Proof. by intros []. Qed.

Lemma accepted_snoc store ws w id : accepted store ws → ensure store ws w = Ok id → accepted store (ws ++ [w]).
Proof.
  intros Hws Hw before x after E. destruct after as [|y after _] using rev_ind.
  - apply app_inj_tail in E as [<- <-]. by rewrite Hw.
  - rewrite app_comm_cons, app_assoc in E. apply app_inj_tail in E as [-> _]. by eapply Hws.
Qed.

Lemma refused_snoc store ws w e : accepted store ws → ensure store ws w = Err e → refused store e (ws ++ [w]).
Proof. intros ? ?. by exists ws, w. Qed.

(** What the loop over the links writes, after writes that were accepted. *)
Lemma write_links_spec sha256 store resolved links : ∀ history err ws,
  accepted store history → write_links sha256 store resolved links history = (err, ws) →
  let all := history ++ map EnsureLink (map (resolve_link sha256 resolved) links) in
  match err with None => ws = all ∧ accepted store ws | Some e => refused store e ws ∧ ws `prefix_of` all end.
Proof.
  induction links as [|l links IH]; intros history err ws Hh; cbn [write_links map]; [intros [= <- <-]; by rewrite app_nil_r|].
  destruct (ensure store history _) as [id|e] eqn:E.
  - intros H. apply IH in H; [|by eapply accepted_snoc]. cbv zeta in *. rewrite <- app_assoc in H. done.
  - intros [= <- <-]. split; [by apply refused_snoc|]. apply prefix_app. eexists. reflexivity.
Qed.

(** The claims of a plan are one of the MAC address and one of the IP address. *)
Lemma plan_claims lower_or_digit sha256 reader o plan :
  PlanReconciliation lower_or_digit sha256 (Some reader) o = Ok plan →
  ∃ hw ad ds, plan = decide_plan sha256 o (mac_claim sha256 o hw) (ip_claim sha256 o ad) ds.
Proof.
  intros Ep. unfold PlanReconciliation in Ep. rewrite guard_ok, Manifest.check_ok, res_bind_ok in Ep. destruct Ep as (_ & _ & [[p ad] hw] & _ & Ep).
  rewrite res_bind_ok in Ep. destruct Ep as (ds & _ & [= <-]). eauto.
Qed.

(** The writes of a plan whose claims the store keeps under [id1] and [id2]. *)
Definition relink (sha256 : string → string) (l : DeviceClaimLink) (id : string) : DeviceClaimLink :=
  mkLink (link_id sha256 (liDeviceID l) id) (liDeviceID l) id (ValidFrom l) (liValidUntil l) (liConfidence l) (Authority l) (liReason l)
    (EvidenceObservationID l) (liCreatedAt l).
Definition plan_writes (sha256 : string → string) (plan : ReconciliationPlan) (id1 id2 : string) : list write :=
  map EnsureClaim (pClaims plan) ++ (match NewDevice plan with Some d => [EnsureDevice d] | None => [] end) ++
  map EnsureLink (zip_with (relink sha256) (pLinks plan) [id1; id2]).

Lemma resolved_links sha256 o mac ip ds id1 id2 :
  clID mac ≠ clID ip → let plan := decide_plan sha256 o mac ip ds in
  map (resolve_link sha256 (<[clID ip := id2]> (<[clID mac := id1]> ∅))) (pLinks plan) = zip_with (relink sha256) (pLinks plan) [id1; id2].
Proof.
  intros Hne plan. unfold plan. destruct ds as [|d [|]]; [..|done]; cbn [decide_plan pLinks map zip_with]; unfold resolve_link; cbn [ClaimID plan_link];
    rewrite lookup_insert_ne, !lookup_insert_eq by done; done.
Qed.

Lemma reconcile_spec lower_or_digit sha256 store o r err ws :
  ReconcileObservation lower_or_digit sha256 (Some store) o = (r, err, ws) →
  match PlanReconciliation lower_or_digit sha256 (Some (find_devices store)) o with
  | Err e => err = Some e ∧ ws = []
  | Ok plan => ∃ mac ip id1 id2, pClaims plan = [mac; ip] ∧
      (ws = [EnsureClaim mac] ∨ ensure store [] (EnsureClaim mac) = Ok id1) ∧
      (ws `prefix_of` [EnsureClaim mac; EnsureClaim ip] ∧ err ≠ None ∨ ensure store [EnsureClaim mac] (EnsureClaim ip) = Ok id2) ∧
      match err with
      | None => accepted store ws ∧ ws = plan_writes sha256 plan id1 id2 ∧
          r = mkReconciled (rrDeviceID (pResult plan)) (is_some (NewDevice plan)) (rrAmbiguous (pResult plan)) 2
      | Some e => refused store e ws ∧ ws `prefix_of` plan_writes sha256 plan id1 id2
      end
  end.
Proof.
  unfold ReconcileObservation. destruct (PlanReconciliation _ _ _ _) as [plan|] eqn:Ep; [|by intros [= <- <- <-]].
  apply plan_claims in Ep as (hw & ad & ds & ->). set (mac := mac_claim sha256 o hw). set (ip := ip_claim sha256 o ad). set (plan := decide_plan _ _ _ _ _).
  assert (Hne : clID mac ≠ clID ip) by apply claim_ids_distinct.
  assert (Hc : pClaims plan = [mac; ip]) by (by destruct ds as [|? [|]]). unfold plan_writes. rewrite Hc. cbn [write_claims map app].
  pose proof (accepted_nil store) as H0.
  destruct (ensure store [] (EnsureClaim mac)) as [id1|e] eqn:E1.
  2:{ intros [= <- <- <-]. exists mac, ip, "", "". split; [done|]. split; [by left|]. split; [left; split; [by exists [EnsureClaim ip]|done]|].
      split; [by apply (refused_snoc store [])|]. eexists. reflexivity. }
  pose proof (accepted_snoc _ _ _ _ H0 E1) as H1. cbn [app] in H1.
  destruct (ensure store [EnsureClaim mac] (EnsureClaim ip)) as [id2|e] eqn:E2.
  2:{ intros [= <- <- <-]. exists mac, ip, id1, "". split; [done|]. split; [by right|]. split; [by left|].
      split; [by apply (refused_snoc store [EnsureClaim mac])|]. eexists. reflexivity. }
  pose proof (accepted_snoc _ _ _ _ H1 E2) as H2. cbn [app] in H2. intros H. exists mac, ip, id1, id2. split; [done|]. split; [by right|]. split; [by right|].
  pose proof (resolved_links sha256 o mac ip ds id1 id2 Hne) as Hlinks. cbv zeta in Hlinks. fold plan in Hlinks. rewrite <- Hlinks.
  change (EnsureClaim mac :: EnsureClaim ip :: ?t) with ([EnsureClaim mac; EnsureClaim ip] ++ t).
  destruct (NewDevice plan) as [d|] eqn:Ed.
  - destruct (ensure store [EnsureClaim mac; EnsureClaim ip] (EnsureDevice d)) as [x|e] eqn:E3.
    + destruct (write_links _ _ _ _ _) as [er h] eqn:El. injection H as <- <- <-. apply write_links_spec in El; [|by eapply accepted_snoc].
      cbv zeta in El. rewrite <- app_assoc in El. destruct er; [done|]. destruct El. split_and!; done.
    + injection H as <- <- <-. split; [by apply (refused_snoc store [EnsureClaim mac; EnsureClaim ip])|]. eexists. reflexivity.
  - destruct (write_links _ _ _ _ _) as [er h] eqn:El. injection H as <- <- <-. apply write_links_spec in El; [|done].
    cbv zeta in El. destruct er; [done|]. destruct El. split_and!; done.
Qed.

(** C34: reconciliation writes in an order that never leaves a link without its ends, whatever the store
    answers.  It writes nothing when no plan can be made.  Otherwise its writes are the claim of the MAC
    address, the claim of the IP address, the new device if there is one and then the links, each link
    naming the identifier under which the store keeps its claim, even when that is not the planned one,
    with its own identifier derived from it; and it stops at the first write that the store refuses and
    returns that error.  So no device is written before both claims were accepted, and no link before
    both claims and the new device were.  Without an error all of them were accepted and the result names
    the device of the plan. *)
Theorem reconcile_links_resolved lower_or_digit sha256 store o r err ws :
  ReconcileObservation lower_or_digit sha256 (Some store) o = (r, err, ws) →
  match PlanReconciliation lower_or_digit sha256 (Some (find_devices store)) o with
  | Err e => err = Some e ∧ ws = []
  | Ok plan => ∃ mac ip id1 id2, pClaims plan = [mac; ip] ∧
      (ws = [EnsureClaim mac] ∨ ensure store [] (EnsureClaim mac) = Ok id1) ∧
      (ws `prefix_of` [EnsureClaim mac; EnsureClaim ip] ∧ err ≠ None ∨ ensure store [EnsureClaim mac] (EnsureClaim ip) = Ok id2) ∧
      match err with
      | None => accepted store ws ∧ ws = plan_writes sha256 plan id1 id2 ∧
          r = mkReconciled (rrDeviceID (pResult plan)) (is_some (NewDevice plan)) (rrAmbiguous (pResult plan)) 2
      | Some e => refused store e ws ∧ ws `prefix_of` plan_writes sha256 plan id1 id2
      end
  end.
Proof. apply reconcile_spec. Qed.

(** ** A new device at home *)

Definition no_devices : device_reader := λ _ _ _ _ _, Ok [].
Definition home_observation : Observation :=
  match buildNeighborObservation WatchScope.no_letters no_digest "home" "sensor.dw.1" home_clock (sample_neighbor 43) with
  | Ok o => o
  | Err _ => mkObservation "" "" "" "" "" "" "" None zeroTime 0 None "" "" ""
  end.
Definition home_plan : result string ReconciliationPlan :=
  PlanReconciliation WatchScope.no_letters no_digest (Some no_devices) home_observation.
(** A store that keeps every claim under a name of its own, and one that refuses the second claim. *)
Definition home_store : IdentityStore := mkStore no_devices (λ history _, Ok (if llen history =? 0 then "claim.first" else "claim.next")).
Definition full_store : IdentityStore := mkStore no_devices (λ history _, if llen history =? 1 then Err "disk full" else Ok "claim.first").

Lemma plan_valid_witness : ∃ plan, home_plan = Ok plan ∧ valid_plan home_observation [] plan.
Proof.
  destruct home_plan as [plan|] eqn:E; [|vm_compute in E; discriminate]. exists plan. split; [reflexivity|].
  destruct (plan_valid WatchScope.no_letters no_digest no_devices home_observation plan) as (p & a & h & ds & _ & Hr & Hv).
  - intros x. reflexivity.
  - exact E.
  - vm_compute. reflexivity.
  - intros ? ? ? ? ? ds [= <-]. constructor.
  - injection Hr as <-. exact Hv.
Defined.

Lemma sample_tabled : tabled (sample_neighbor 43).
Proof.
  constructor; [split; [vm_compute; discriminate|vm_compute; reflexivity]|split; [repeat constructor; lia|reflexivity]|discriminate|discriminate|].
  constructor; [|constructor; [|constructor; [|constructor; [|constructor]]]]; unfold Marshal.verbatim_text; apply forallb_true_iff; vm_compute; reflexivity.
Qed.

Lemma collected_reconciles_witness :
  ∃ plan, home_plan = Ok plan ∧ map clValue (pClaims plan) = ["66:65:74:68:00:2b"; "192.168.1.43"].
Proof.
  destruct (collected_reconciles WatchScope.no_letters no_digest WatchScope.home_binding "home" "sensor.dw.1" home_clock
    (sample_neighbor 43) home_observation no_devices []) as (plan & Hp & _ & Hc & _).
  - vm_compute. reflexivity.
  - vm_compute. reflexivity.
  - exact sample_tabled.
  - reflexivity.
  - exists plan. split; [exact Hp|]. rewrite Hc. vm_compute. reflexivity.
Defined.

(** A store that refuses the claim of the IP address is handed nothing more. *)
Lemma reconcile_links_resolved_witness :
  ∃ r ws, ReconcileObservation WatchScope.no_letters no_digest (Some full_store) home_observation = (r, Some "disk full", ws) ∧
    llen ws = 2 ∧ refused full_store "disk full" ws.
Proof.
  destruct (ReconcileObservation WatchScope.no_letters no_digest (Some full_store) home_observation) as [[r err] ws] eqn:E.
  assert (Hr : err = Some "disk full" ∧ llen ws = 2) by (vm_compute in E; injection E as <- <- <-; repeat split).
  destruct Hr as (-> & Hl). pose proof (reconcile_links_resolved _ _ _ _ _ _ _ E) as H.
  destruct (PlanReconciliation _ _ _ _) as [plan|e] eqn:Ep in H; [|vm_compute in Ep; discriminate].
  destruct H as (mac & ip & id1 & id2 & _ & _ & _ & Href & _). exists r, ws. split; [reflexivity|]. split; [exact Hl|exact Href].
Defined.

Example home_reconciled :
  match ReconcileObservation WatchScope.no_letters no_digest (Some home_store) home_observation with
  | (r, None, ws) => (rrCreated r, map (λ w, match w with EnsureClaim _ => "claim" | EnsureDevice _ => "device" | EnsureLink l => ClaimID l end) ws)
  | _ => (false, [])
  end = (true, ["claim"; "claim"; "device"; "claim.first"; "claim.next"]).
Proof. vm_compute. reflexivity. Qed.

End Reconcile.
