(* ===== verification/WatchDriver.v ===== *)
(** * The lifecycle driver of Device Watch

    [devicewatch/lifecycle.go] and [EnabledScopeID] of [runtime.go]: what the capability's driver
    answers to the lifecycle engine.  The operating system, the store and the runtime answer as
    they may. *)

From stdpp Require Import gmap.
From S2P Require Import Prelude GoBytes GoJSON GoTime Manifest Capability Domain Lifecycle Coverage WatchScope StorageHealth WatchHealth WatchCoverage.

Module WatchDriver.
Import Manifest Capability Lifecycle WatchHealth WatchCoverage.

Inductive store_error := NetworkScopeNotFound | StoreError (what : string).

(** What the driver reads: the platform, the network scopes, the interfaces, the latest samples,
    the runtime with its queue, and the store. *)
Record world := mkWorld {
  platform : string;
  get_scope : string → result store_error Domain.NetworkScope;
  interfaces : string → result WatchScope.err WatchScope.InterfaceState;
  latest : string → result string (option Domain.CoverageSample);
  runtime : option (RuntimeState * StorageHealth.IngestionHealth);
  store_health : result string StorageHealth.Health }.

Definition scopeIDFromConfiguration (configuration : Configuration) : result string string :=
  match Values configuration !! "network_scope_id" with
  | None => Err "device watch configuration has no network_scope_id"
  | Some raw =>
      match decode_string raw with
      | Err _ => Err "device watch configuration has invalid network_scope_id"
      | Ok scopeID => guard? scopeID == "" else "device watch configuration has invalid network_scope_id" in Ok scopeID
      end
  end.

(** The scope to run on, of the first configuration of the capability. *)
Fixpoint EnabledScopeID (configurations : list Configuration) : result string (option string) :=
  match configurations with
  | [] => Ok None
  | c :: rest =>
      if nID c != CapabilityID then EnabledScopeID rest
      else if nDesired c != DesiredEnabled then Ok None
      else
        match Values c !! "network_scope_id" with
        | None => Err "enabled device watch has no network_scope_id"
        | Some raw =>
            match decode_string raw with
            | Err _ => Err "enabled device watch has invalid network_scope_id"
            | Ok scopeID => guard? scopeID == "" else "enabled device watch has invalid network_scope_id" in Ok (Some scopeID)
            end
        end
  end.

Section Driver.
Context (letter_or_digit : Z → bool) (unmarshal_scope : string → option (option WatchScope.ScopeBinding))
  (decode : string → option coverageEvidence).

Definition pass (id : string) : PreflightCheck := mkCheck id CheckPass true "".
Definition fail (id message : string) : PreflightCheck := mkCheck id CheckFail true message.

Definition Preflight (w : world) (request : DriverRequest) : result string PreflightReport :=
  if qAction request == ActionDisable then Ok [pass "runtime-disable"]
  else if platform w != "darwin" then Ok [fail "platform-supported" "passive Device Watch runtime is not supported on this platform"]
  else
    let checks := [pass "platform-supported"] in
    match scopeIDFromConfiguration (qConfiguration request) with
    | Err _ => Ok (checks ++ [fail "scope-configured" "Device Watch requires an enrolled network scope"])
    | Ok scopeID =>
        let checks := checks ++ [pass "scope-configured"] in
        match get_scope w scopeID with
        | Err NetworkScopeNotFound => Ok (checks ++ [fail "scope-enrolled" "enrolled Device Watch network scope is unavailable"])
        | Err (StoreError e) => Err e
        | Ok scope =>
            match WatchScope.ParseScopeBinding letter_or_digit unmarshal_scope scope with
            | Err _ => Ok (checks ++ [fail "scope-enrolled" "enrolled Device Watch scope is invalid"])
            | Ok binding =>
                let checks := checks ++ [pass "scope-enrolled"] in
                match WatchScope.ValidateCurrentScope letter_or_digit (Some (interfaces w)) binding with
                | Err _ => Ok (checks ++ [fail "scope-current" "enrolled network no longer matches the current interface"])
                | Ok _ => Ok (checks ++ [pass "scope-current"])
                end
            end
        end
    end.

(** Whether the scope of a configuration is enrolled and current. *)
Definition scope_status (w : world) (scope : Domain.NetworkScope) : SignalStatus :=
  match WatchScope.ParseScopeBinding letter_or_digit unmarshal_scope scope with
  | Ok binding => if is_ok (WatchScope.ValidateCurrentScope letter_or_digit (Some (interfaces w)) binding) then SignalFresh else SignalMissing
  | Err _ => SignalMissing
  end.

Definition Verify (w : world) (request : DriverRequest) (clock : Time) : result string VerificationReport :=
  let now := UTC clock in
  let? operational := driver_health (runtime w) (Some (store_health w)) now in
  let missing := mkSignal "observation-freshness" SignalMissing "no current Device Watch coverage evidence is available" in
  let? (scopeStatus, observation) :=
    match scopeIDFromConfiguration (qConfiguration request) with
    | Err _ => Ok (SignalMissing, missing)
    | Ok scopeID =>
        match get_scope w scopeID with
        | Ok scope =>
            let? signal := coverageVerificationSignal (CurrentCoverage letter_or_digit decode (Some (latest w scopeID)) scopeID now) in
            Ok (scope_status w scope, signal)
        | Err NetworkScopeNotFound => Ok (SignalMissing, missing)
        | Err (StoreError e) => Err e
        end
    end in
  Ok [mkSignal "network-scope-enrolled" scopeStatus ""; observation; sensorVerificationSignal (Sensor operational);
      pipelineVerificationSignal (Pipeline operational); databaseVerificationSignal (Database operational)].

End Driver.

(** ** Execute *)

(** What the runtime answers: whether it runs and on which scope, and the results of [Start] and
    [Stop]. *)
Record control := mkControl {
  running : bool; running_scope : string; start : string → result string unit; stop : bool * option string }.

(** The step, its error, and the scope [Start] was asked for. *)
Definition Execute (c : option control) (action : LifecycleAction) (request : DriverRequest) : result string StepResult * list string :=
  if action == ActionEnable then
    match c with
    | None => (Err "device watch passive runtime is unsupported on this platform", [])
    | Some c =>
        match scopeIDFromConfiguration (qConfiguration request) with
        | Err e => (Err e, [])
        | Ok scopeID =>
            if running c then
              if running_scope c == scopeID then (Ok (mkStep false None), [])
              else (Err "device watch runtime is active for a different scope", [])
            else
              match start c scopeID with
              | Err e => (Err e, [scopeID])
              | Ok _ => (Ok (mkStep true None), [scopeID])
              end
        end
    end
  else if action == ActionDisable then
    match c with
    | None => (Ok (mkStep false None), [])
    | Some c => (match stop c with (_, Some e) => Err e | (changed, None) => Ok (mkStep changed None) end, [])
    end
  else (Err "device watch lifecycle does not execute", []).

(** ** What a ready preflight says *)

Section Theorems.
Context (letter_or_digit : Z → bool) (unmarshal_scope : string → option (option WatchScope.ScopeBinding)).

(** The enrolled network of a configuration is the current one. *)
Definition enrolled_here (w : world) (c : Configuration) : Prop :=
  ∃ scopeID scope binding, scopeIDFromConfiguration c = Ok scopeID ∧ get_scope w scopeID = Ok scope ∧
    WatchScope.ParseScopeBinding letter_or_digit unmarshal_scope scope = Ok binding ∧
    is_ok (WatchScope.ValidateCurrentScope letter_or_digit (Some (interfaces w)) binding) = true.

Lemma preflight_cases w request report :
  Preflight letter_or_digit unmarshal_scope w request = Ok report → qAction request ≠ ActionDisable →
  validatePreflightReport report = Ok tt ∧ (Ready report = true ↔ platform w = "darwin" ∧ enrolled_here w (qConfiguration request)).
Proof.
  intros H Ha. unfold Preflight in H. rewrite (bool_decide_eq_false_2 _ Ha) in H. unfold enrolled_here.
  destruct (decide (platform w = "darwin")) as [Ep|Ep].
  2:{ rewrite (bool_decide_eq_false_2 _ Ep) in H. injection H as <-. split; [vm_compute; reflexivity|]. split; [done|]. by intros []. }
  rewrite (bool_decide_eq_true_2 _ Ep) in H. cbv zeta in H. simpl negb in H. cbv iota in H.
  destruct (scopeIDFromConfiguration _) as [scopeID|]; [|injection H as <-; split; [vm_compute; reflexivity|]; split; [done|]; by intros [_ (? & ? & ? & ? & ? & ? & _)]; congruence].
  destruct (get_scope w scopeID) as [scope|[|e]] eqn:Es; [|injection H as <-; split; [vm_compute; reflexivity|]; split; [done|]; by intros [_ (? & ? & ? & ? & ? & ? & _)]; congruence|done].
  destruct (WatchScope.ParseScopeBinding _ _ _) as [binding|] eqn:Eb; [|injection H as <-; split; [vm_compute; reflexivity|]; split; [done|]; by intros [_ (? & ? & ? & ? & ? & ? & _)]; congruence].
  destruct (WatchScope.ValidateCurrentScope _ _ _) as [st|] eqn:Ec; injection H as <-; (split; [vm_compute; reflexivity|]); split; try done.
  - intros _. split; [done|]. exists scopeID, scope, binding. by rewrite Ec.
  - intros [_ (? & ? & ? & [= <-] & E & E' & Hc)]. rewrite Es in E. injection E as <-. rewrite Eb in E'. injection E' as <-. by rewrite Ec in Hc.
Qed.

(** The answer of the preflight does not depend on when the scope was retired. *)
Lemma preflight_ignores_retirement w w' request :
  platform w' = platform w → interfaces w' = interfaces w →
  (∀ id, match get_scope w id, get_scope w' id with
         | Ok s, Ok s' => Domain.nsMetadata s = Domain.nsMetadata s'
         | Err e, Err e' => e = e'
         | _, _ => False
         end) →
  Preflight letter_or_digit unmarshal_scope w request = Preflight letter_or_digit unmarshal_scope w' request.
Proof.
  intros Hp Hi Hs. unfold Preflight. rewrite Hp, Hi. destruct (_ == ActionDisable); [done|]. destruct (_ != _); [done|].
  destruct (scopeIDFromConfiguration _) as [id|]; [|done]. specialize (Hs id).
  destruct (get_scope w id) as [s|e], (get_scope w' id) as [s'|e']; try done; [|by subst].
  unfold WatchScope.ParseScopeBinding. by rewrite Hs.
Qed.

End Theorems.

(** ** What the engine makes of the signals *)

Lemma signal_ids report : gID (signal_of report) = "observation-freshness".
Proof. unfold signal_of. cbv zeta. by repeat destruct (_ == _). Qed.

Definition signal_wf (s : VerificationSignal) : Prop :=
  gStatus s ∈ [SignalFresh; SignalMissing; SignalStale; SignalFailed] ∧ validMessage (gMessage s) = Ok tt.

Lemma signal_of_wf report : signal_wf (signal_of report).
Proof.
  unfold signal_of, signal_wf. cbv zeta. repeat match goal with |- context [if ?b then _ else _] => destruct b end;
    (split; [simpl; set_solver|vm_compute; reflexivity]).
Qed.

Lemma health_signals_wf s p d : signal_wf (sensorVerificationSignal s) ∧ signal_wf (pipelineVerificationSignal p) ∧ signal_wf (databaseVerificationSignal d).
Proof.
  unfold sensorVerificationSignal, pipelineVerificationSignal, databaseVerificationSignal, signal_wf. cbv zeta.
  split_and!; repeat match goal with |- context [if ?b then _ else _] => destruct b end; first [simpl; set_solver|vm_compute; reflexivity].
Qed.

(** A report of the five signals. *)
Definition five (st : SignalStatus) (obs : VerificationSignal) (op : OperationalHealth) : VerificationReport :=
  [mkSignal "network-scope-enrolled" st ""; obs; sensorVerificationSignal (Sensor op); pipelineVerificationSignal (Pipeline op);
   databaseVerificationSignal (Database op)].

Lemma health_ids op :
  gID (sensorVerificationSignal (Sensor op)) = "sensor-operational" ∧ gID (pipelineVerificationSignal (Pipeline op)) = "ingestion-health" ∧
  gID (databaseVerificationSignal (Database op)) = "storage-health".
Proof.
  unfold sensorVerificationSignal, pipelineVerificationSignal, databaseVerificationSignal. cbv zeta.
  split_and!; by repeat match goal with |- context [if ?b then _ else _] => destruct b end.
Qed.

Lemma five_valid st obs op :
  st = SignalFresh ∨ st = SignalMissing → gID obs = "observation-freshness" → signal_wf obs →
  validateVerificationReport (five st obs op) = Ok tt ∧ map gID (five st obs op) = VerificationSignals (Health device_watch).
Proof.
  intros Hst Hid Hobs. destruct (health_ids op) as (Hs & Hp & Hd). destruct (health_signals_wf (Sensor op) (Pipeline op) (Database op)) as (Ws & Wp & Wd).
  assert (Hids : map gID (five st obs op) = VerificationSignals (Health device_watch)) by (cbn [five map gID]; by rewrite Hid, Hs, Hp, Hd).
  split; [|done]. unfold validateVerificationReport. rewrite each_once_some, Hids. split; [|apply NoDup_ListNoDup; vm_compute; repeat constructor; set_solver].
  assert (Hone : ∀ s, signal_wf s → validateID (gID s) = Ok tt →
    validateID (gID s) = Ok tt ∧ (guard? negb (member_of [SignalFresh; SignalMissing; SignalStale; SignalFailed] (gStatus s))
      else "unknown verification signal status" in validMessage (gMessage s)) = Ok tt).
  { intros s [Hs1 Hs2] Hi. split; [done|]. rewrite guard_ok, negb_false_iff, is_member. done. }
  unfold five. repeat constructor; apply Hone; try done; rewrite ?Hid, ?Hs, ?Hp, ?Hd; try (vm_compute; reflexivity).
  split; [simpl; destruct Hst as [-> | ->]; set_solver|done].
Qed.

(** All five are fresh exactly when everything behind them is current. *)
Lemma five_verified st obs op :
  st = SignalFresh ∨ st = SignalMissing → gID obs = "observation-freshness" → signal_wf obs →
  (∃ v, evaluateVerification device_watch (five st obs op) = Ok v) ∧
  (evaluateVerification device_watch (five st obs op) = Ok VerificationVerified ↔
   st = SignalFresh ∧ gStatus obs = SignalFresh ∧ sState (Sensor op) = OperationalCurrent ∧ pState (Pipeline op) = OperationalCurrent ∧
   dState (Database op) = OperationalCurrent).
Proof.
  intros Hst Hid Hobs. destruct (five_valid st obs op Hst Hid Hobs) as [Hv Hids].
  assert (Hdecl : Forall (λ g, gID g ∈ VerificationSignals (Health device_watch)) (five st obs op)).
  { apply Forall_forall. intros g Hg. rewrite <- Hids. rewrite list_elem_of_In, in_map_iff. exists g. by rewrite <- list_elem_of_In. }
  split; [eexists; apply evaluate_iff; [done|]; split; [done|]; by apply verdict_amounts|].
  rewrite evaluate_iff by done. transitivity (Forall (λ g, gStatus g = SignalFresh) (five st obs op)).
  - split.
    + intros [_ Ha]. inversion Ha as [| | |Hf Hs Hall]. apply Forall_forall. intros g Hg.
      destruct (Hall (gID g)) as (g' & Hg' & Eid & Es); [by rewrite Forall_forall in Hdecl; apply Hdecl|].
      destruct (valid_verification _ Hv) as [Hn _]. apply list_elem_of_lookup in Hg as [i Hi], Hg' as [j Hj].
      assert (i = j) as ->; [|congruence]. eapply NoDup_lookup; [exact Hn|rewrite list_lookup_fmap, Hi; done|rewrite list_lookup_fmap, Hj; simpl; by rewrite Eid].
    + intros Hf. split; [done|]. rewrite Forall_forall in Hf. apply amounts_verified.
      * intros id (g & Hg & _ & E). apply Hf in Hg. by rewrite E in Hg.
      * intros id (g & Hg & _ & E). apply Hf in Hg. by rewrite E in Hg.
      * intros id Hin. rewrite <- Hids, list_elem_of_In, in_map_iff in Hin. destruct Hin as (g & Eg & Hg%list_elem_of_In). exists g. auto.
  - unfold five. rewrite !Forall_cons, Forall_nil. cbn [gStatus].
    assert (Hsen : gStatus (sensorVerificationSignal (Sensor op)) = SignalFresh ↔ sState (Sensor op) = OperationalCurrent).
    { unfold sensorVerificationSignal. cbv zeta. case_bool_decide as E; [done|]. repeat case_bool_decide; done. }
    assert (Hpip : gStatus (pipelineVerificationSignal (Pipeline op)) = SignalFresh ↔ pState (Pipeline op) = OperationalCurrent).
    { unfold pipelineVerificationSignal. by case_bool_decide. }
    assert (Hdat : gStatus (databaseVerificationSignal (Database op)) = SignalFresh ↔ dState (Database op) = OperationalCurrent).
    { unfold databaseVerificationSignal. by case_bool_decide. }
    rewrite Hsen, Hpip, Hdat. tauto.
Qed.

Section Verified.
Context (letter_or_digit : Z → bool) (unmarshal_scope : string → option (option WatchScope.ScopeBinding))
  (decode : string → option coverageEvidence).

Lemma signal_fresh r : gStatus (signal_of r) = SignalFresh ↔ rCState r = CoverageActiveLimited.
Proof. unfold signal_of. cbv zeta. case_bool_decide as E; [done|]. split; [|done]. by repeat case_bool_decide. Qed.

(** The coverage report of the configured scope is active. *)
Definition covered_here (w : world) (c : Configuration) (clock : Time) : Prop :=
  ∃ scopeID r, scopeIDFromConfiguration c = Ok scopeID ∧
    CurrentCoverage letter_or_digit decode (Some (latest w scopeID)) scopeID (UTC clock) = Ok r ∧ rCState r = CoverageActiveLimited.

Lemma verify_five w request clock report :
  Verify letter_or_digit unmarshal_scope decode w request clock = Ok report →
  ∃ st obs op, report = five st obs op ∧ driver_health (runtime w) (Some (store_health w)) (UTC clock) = Ok op ∧
    (st = SignalFresh ∨ st = SignalMissing) ∧ gID obs = "observation-freshness" ∧ signal_wf obs ∧
    (st = SignalFresh ∧ gStatus obs = SignalFresh ↔ enrolled_here letter_or_digit unmarshal_scope w (qConfiguration request) ∧ covered_here w (qConfiguration request) clock).
Proof.
  unfold Verify. cbv zeta. rewrite res_bind_ok. intros (op & Hop & H). rewrite res_bind_ok in H. destruct H as ([st obs] & Hs & [= <-]).
  exists st, obs, op. split; [done|]. split; [done|]. unfold enrolled_here, covered_here.
  assert (Hmissing : (SignalMissing, mkSignal "observation-freshness" SignalMissing "no current Device Watch coverage evidence is available") = (st, obs) →
    (¬ enrolled_here letter_or_digit unmarshal_scope w (qConfiguration request)) →
    (st = SignalFresh ∨ st = SignalMissing) ∧ gID obs = "observation-freshness" ∧ signal_wf obs ∧
    (st = SignalFresh ∧ gStatus obs = SignalFresh ↔ enrolled_here letter_or_digit unmarshal_scope w (qConfiguration request) ∧ covered_here w (qConfiguration request) clock)).
  { intros [= <- <-] Hn. split_and!; [by right|done|split; [simpl; set_solver|vm_compute; reflexivity]|]. split; [by intros [? _]|]. by intros [? _]. }
  destruct (scopeIDFromConfiguration _) as [scopeID|] eqn:Eid.
  - destruct (get_scope w scopeID) as [scope|[|e]] eqn:Es; [|injection Hs as H1 H2|done].
    + rewrite res_bind_ok in Hs. destruct Hs as (signal & Hsig & [= <- <-]). unfold coverageVerificationSignal in Hsig. rewrite res_bind_ok in Hsig.
      destruct Hsig as (r & Hr & [= <-]). split_and!; [|apply signal_ids|apply signal_of_wf|].
      { unfold scope_status. destruct (WatchScope.ParseScopeBinding _ _ _); [destruct (is_ok _)|]; auto. }
      rewrite signal_fresh. unfold scope_status. split.
      * intros [Hst Hact]. split; [|exists scopeID, r; done]. destruct (WatchScope.ParseScopeBinding _ _ scope) as [b|] eqn:Eb; [|done].
        destruct (is_ok _) eqn:Ec; [|done]. exists scopeID, scope, b. done.
      * intros [(? & ? & b & [= <-] & E & Hb & Hc) (? & r' & [= <-] & Hr' & Hact)]. rewrite Es in E. injection E as <-. rewrite Hb, Hc.
        rewrite Hr in Hr'. injection Hr' as <-. done.
    + rewrite <- Eid. apply Hmissing; [congruence|]. intros (? & ? & ? & E & E' & _). rewrite Eid in E. injection E as <-. by rewrite Es in E'.
  - rewrite <- Eid. apply Hmissing; [congruence|]. intros (? & ? & ? & E & _). by rewrite Eid in E.
Qed.

End Verified.

(** The driver's preflight is an honest forecast.  Whatever it is asked and answered, for every action
    but disabling its report is one the engine accepts, and it is ready exactly on macOS, with a configured
    scope that is enrolled, whose stored binding is valid and which is the network the interface is on now. *)
Theorem preflight_ready_iff letter_or_digit unmarshal_scope w request report :
  Preflight letter_or_digit unmarshal_scope w request = Ok report → qAction request ≠ ActionDisable →
  validatePreflightReport report = Ok tt ∧
  (Ready report = true ↔ platform w = "darwin" ∧ enrolled_here letter_or_digit unmarshal_scope w (qConfiguration request)).
Proof. apply preflight_cases. Qed.

(** C35: Device Watch is verified exactly when it works.  The report the driver gives for verification is
    always one the engine accepts and evaluates, under the capability's own manifest; and the engine calls
    the capability verified if and only if the enrolled network is the current one, its coverage is active,
    and the sensor, the ingestion queue and the database are all current. *)
Theorem verify_verified letter_or_digit unmarshal_scope decode w request clock report :
  Verify letter_or_digit unmarshal_scope decode w request clock = Ok report →
  validateVerificationReport report = Ok tt ∧ (∃ v, evaluateVerification device_watch report = Ok v) ∧
  (evaluateVerification device_watch report = Ok VerificationVerified ↔
   enrolled_here letter_or_digit unmarshal_scope w (qConfiguration request) ∧ covered_here letter_or_digit decode w (qConfiguration request) clock ∧
   ∃ op, driver_health (runtime w) (Some (store_health w)) (UTC clock) = Ok op ∧ sState (Sensor op) = OperationalCurrent ∧
     pState (Pipeline op) = OperationalCurrent ∧ dState (Database op) = OperationalCurrent).
Proof.
  intros (st & obs & op & -> & Hop & Hst & Hid & Hw & Hiff)%verify_five. destruct (five_valid st obs op Hst Hid Hw) as [Hv _].
  destruct (five_verified st obs op Hst Hid Hw) as [Hex Hall]. split; [done|]. split; [done|]. rewrite Hall. setoid_rewrite Hop. naive_solver.
Qed.

(** ** Device Watch at home *)

Definition home_scope : Domain.NetworkScope := Domain.mkScope "home" "lan" sample_now None "{}".
Definition home_configuration : Configuration := mkConfiguration CapabilityID OwnershipBuiltin DesiredEnabled {["network_scope_id" := JSON.of_bytes [34; 104; 111; 109; 101; 34]]}.
Definition home_request (action : LifecycleAction) : DriverRequest := mkRequest device_watch home_configuration OwnershipBuiltin action.
Definition home_world : world :=
  mkWorld "darwin" (λ _, Ok home_scope) (WatchScope.Inspect false WatchScope.home_by_name) (λ _, Ok (Some sample_sample)) (Some sample_runtime) (Ok sample_store).

Lemma preflight_ready_iff_witness :
  ∃ report, Preflight WatchScope.no_letters (λ _, Some (Some WatchScope.home_binding)) home_world (home_request ActionEnable) = Ok report ∧
    enrolled_here WatchScope.no_letters (λ _, Some (Some WatchScope.home_binding)) home_world home_configuration.
Proof.
  eexists. split; [vm_compute; reflexivity|].
  apply (preflight_ready_iff WatchScope.no_letters (λ _, Some (Some WatchScope.home_binding)) home_world (home_request ActionEnable)
    [pass "platform-supported"; pass "scope-configured"; pass "scope-enrolled"; pass "scope-current"]); [vm_compute; reflexivity|vm_compute; discriminate|reflexivity].
Defined.

Lemma verify_verified_witness :
  ∃ report, Verify ascii_letters (λ _, Some (Some WatchScope.home_binding)) (λ _, Some sample_evidence) home_world (home_request ActionVerify) sample_now = Ok report ∧
    evaluateVerification device_watch report = Ok VerificationVerified ∧
    covered_here ascii_letters (λ _, Some sample_evidence) home_world home_configuration sample_now.
Proof.
  destruct (Verify ascii_letters (λ _, Some (Some WatchScope.home_binding)) (λ _, Some sample_evidence) home_world (home_request ActionVerify) sample_now)
    as [report|] eqn:E; [|vm_compute in E; discriminate].
  exists report. split; [reflexivity|]. assert (Hv : evaluateVerification device_watch report = Ok VerificationVerified).
  { vm_compute in E. injection E as <-. vm_compute. reflexivity. }
  split; [exact Hv|]. destruct (verify_verified _ _ _ _ _ _ _ E) as (_ & _ & Hiff). apply Hiff in Hv as (_ & Hc & _). exact Hc.
Defined.

End WatchDriver.
