(* ===== verification/WatchRuntime.v ===== *)
(** * The runtime of Device Watch

    [devicewatch/runtime.go]: any number of calls of [Start] and [Stop] and the goroutines that
    [Start] leaves behind, interleaved between the sections of the mutex.  The store, the
    interfaces, the clock, the contexts and the collections answer as they may. *)

From stdpp Require Import gmap.
From S2P Require Import Prelude GoTime Domain WatchScope WatchHealth WatchCoverage Neighbors Collector.

Module WatchRuntime.
Import WatchHealth Collector.

Definition collectionTimeout : Duration := 20 * Second.

(** [newRuntime]: what it requires, and the interval. *)
Definition newRuntime (store ingestor atomic sources : bool) (interval : Duration) : result string Duration :=
  guard? negb store || negb ingestor else "device watch runtime requires storage and ingestion" in
  guard? negb atomic else "device watch runtime requires atomic batch evidence ingestion" in
  guard? negb sources else "device watch runtime requires interface and snapshot sources" in
  guard? (interval <=? 0) || (interval <? 10 * Second) || (10 * Minute <? interval) else "device watch collection interval is outside safe bounds" in
  Ok interval.

(** [RuntimeState]: what operational health reads, and the rest. *)
Record State := mkState { health : RuntimeState; stScopeID : string; stSensorID : string; StartedAt : Time; LastVisible : Z }.
Definition zeroState : State := mkState (mkRuntime false zeroTime zeroTime "") "" "" zeroTime 0.

(** The guarded fields.  The goroutine of each [Start] is known by the number of its [done]
    channel; [canceled] and [finished] are the contexts cancelled and the channels closed. *)
Record Runtime := mkRT {
  started : bool; done_ : option nat; state : State; next : nat; canceled : gset nat; finished : gset nat }.
Definition newRT : Runtime := mkRT false None zeroState 0 ∅ ∅.

(** ** Start *)

(** What [Start] reads and writes besides the runtime; the clock is read twice. *)
Record env := mkEnv {
  get_scope : string → result string Domain.NetworkScope;
  interfaces : string → result WatchScope.err WatchScope.InterfaceState;
  ensure_sensor : Domain.Sensor → result string unit;
  clock : Time;
  clock' : Time }.

Inductive start_pc :=
| Checking (scopeID : string)
| Preparing (scopeID : string)
| Committing (scopeID sensorID : string) (startedAt : Time)
| StartReturned (res : result string nat).

Section Start.
Context (letter_or_digit : Z → bool) (sha256 : string → string) (unmarshal_scope : string → option (option WatchScope.ScopeBinding))
  (marshal_metadata : WatchScope.ScopeBinding → string).

Definition sensor_id (scopeID : string) (b : WatchScope.ScopeBinding) : string :=
  "sensor.dw." +:+ stableDigest sha256 ["sensor-v1"; scopeID; WatchScope.InterfaceName b; itoa (WatchScope.InterfaceIndex b)].

(** From the scope to the registered sensor. *)
Definition prepare (e : env) (scopeID : string) : result string (string * Time) :=
  let? scope := get_scope e scopeID in
  guard? (match Domain.nsRetiredAt scope with Some t => negb (After t (UTC (clock e))) | None => false end) else "device watch network scope is retired" in
  match WatchScope.ParseScopeBinding letter_or_digit unmarshal_scope scope with
  | Err _ => Err "invalid scope binding"
  | Ok binding =>
      match WatchScope.ValidateCurrentScope letter_or_digit (Some (interfaces e)) binding with
      | Err _ => Err "scope is not current"
      | Ok _ =>
          let sensorID := sensor_id scopeID binding in
          let startedAt := UTC (clock' e) in
          check? ensure_sensor e (Domain.mkSensor sensorID scopeID "desktop-neighbor-cache" "builtin" startedAt (marshal_metadata binding)) in
          Ok (sensorID, startedAt)
      end
  end.

(** One section of [Start]; the last one leaves a goroutine behind. *)
Definition start_step (e : env) (rt : Runtime) (p : start_pc) : option (Runtime * start_pc * option (nat * string)) :=
  match p with
  | Checking scopeID =>
      if started rt then Some (rt, StartReturned (Err "device watch runtime is already started"), None) else Some (rt, Preparing scopeID, None)
  | Preparing scopeID =>
      match prepare e scopeID with
      | Err what => Some (rt, StartReturned (Err what), None)
      | Ok (sensorID, startedAt) => Some (rt, Committing scopeID sensorID startedAt, None)
      end
  | Committing scopeID sensorID startedAt =>
      if started rt then Some (rt, StartReturned (Err "device watch runtime is already started"), None)
      else
        let g := next rt in
        Some (mkRT true (Some g) (mkState (mkRuntime true zeroTime zeroTime "") scopeID sensorID startedAt 0) (S g) (canceled rt) (finished rt),
              StartReturned (Ok g), Some (g, scopeID))
  | StartReturned _ => None
  end.

End Start.

(** ** Stop *)

Inductive stop_pc :=
| Reading
| Cancelling (g : nat)
| Joining (g : nat)
| StopReturned (changed : bool) (joined : option nat).

(** [ended] is the end of the caller's context while it waits. *)
Definition stop_step (ended : bool) (rt : Runtime) (p : stop_pc) : option (Runtime * stop_pc) :=
  match p with
  | Reading => match started rt, done_ rt with
               | true, Some g => Some (rt, Cancelling g)
               | true, None => Some (rt, StopReturned true None)
               | false, _ => Some (rt, StopReturned false None)
               end
  | Cancelling g => Some (mkRT (started rt) (done_ rt) (state rt) (next rt) ({[g]} ∪ canceled rt) (finished rt), Joining g)
  | Joining g => if bool_decide (g ∈ finished rt) then Some (rt, StopReturned true (Some g)) else if ended then Some (rt, StopReturned true None) else None
  | StopReturned _ _ => None
  end.

(** ** The goroutine *)

Inductive loop_pc := Collecting | Waiting | Exiting | Closing | Gone.

(** The section in which [collect] records its outcome. *)
Definition record_collection (attemptAt : Time) (r : CollectionResult) (err : option error) (s : State) : State :=
  let h := health s in
  match err with
  | None => mkState (mkRuntime (rRunning h) attemptAt (UTC (crCapturedAt r)) "") (stScopeID s) (stSensorID s) (StartedAt s) (Visible r)
  | Some e => mkState (mkRuntime (rRunning h) attemptAt (rLastSuccessfulAt h) (runtimeErrorClass e)) (stScopeID s) (stSensorID s) (StartedAt s) (LastVisible s)
  end.

Definition with_state (s : State) (rt : Runtime) : Runtime := mkRT (started rt) (done_ rt) s (next rt) (canceled rt) (finished rt).

(** What a goroutine meets: the outcome of a collection, and which case of [select] is taken. *)
Record turn := mkTurn { attempt : Time; outcome : CollectionResult * option error; tick : bool }.

Definition loop_step (t : turn) (rt : Runtime) (g : nat) (p : loop_pc) : option (Runtime * loop_pc) :=
  match p with
  | Collecting => let '(r, err) := outcome t in Some (with_state (record_collection (UTC (attempt t)) r err (state rt)) rt, Waiting)
  | Waiting => if tick t then Some (rt, Collecting) else if bool_decide (g ∈ canceled rt) then Some (rt, Exiting) else None
  | Exiting =>
      if bool_decide (done_ rt = Some g)
      then Some (mkRT false None (mkState (let h := health (state rt) in mkRuntime false (rLastAttemptAt h) (rLastSuccessfulAt h) (rLastErrorClass h))
                                   (stScopeID (state rt)) (stSensorID (state rt)) (StartedAt (state rt)) (LastVisible (state rt)))
                   (next rt) (canceled rt) (finished rt), Closing)
      else Some (rt, Closing)
  | Closing => Some (mkRT (started rt) (done_ rt) (state rt) (next rt) (canceled rt) ({[g]} ∪ finished rt), Gone)
  | Gone => None
  end.

(** ** Everything together *)

(** The goroutines by the number of their channel, with the scope each was started for. *)
Record system := mkSys { rt : Runtime; starts : list start_pc; stops : list stop_pc; loops : gmap nat (string * loop_pc) }.

Definition spawn (new : option (nat * string)) (loops : gmap nat (string * loop_pc)) : gmap nat (string * loop_pc) :=
  match new with Some (g, scopeID) => <[g := (scopeID, Collecting)]> loops | None => loops end.

Section System.
Context (letter_or_digit : Z → bool) (sha256 : string → string) (unmarshal_scope : string → option (option WatchScope.ScopeBinding))
  (marshal_metadata : WatchScope.ScopeBinding → string).

Inductive step : system → system → Prop :=
| step_call_start r ss ps ls scopeID : step (mkSys r ss ps ls) (mkSys r (ss ++ [Checking scopeID]) ps ls)
| step_call_stop r ss ps ls : step (mkSys r ss ps ls) (mkSys r ss (ps ++ [Reading]) ls)
| step_start e r before p after ps ls r' p' new :
    start_step letter_or_digit sha256 unmarshal_scope marshal_metadata e r p = Some (r', p', new) →
    step (mkSys r (before ++ p :: after) ps ls) (mkSys r' (before ++ p' :: after) ps (spawn new ls))
| step_stop ended r ss before p after ls r' p' :
    stop_step ended r p = Some (r', p') → step (mkSys r ss (before ++ p :: after) ls) (mkSys r' ss (before ++ p' :: after) ls)
| step_loop t r ss ps ls g scopeID p r' p' :
    ls !! g = Some (scopeID, p) → loop_step t r g p = Some (r', p') → step (mkSys r ss ps ls) (mkSys r' ss ps (<[g := (scopeID, p')]> ls)).

Definition initial : system := mkSys newRT [] [] ∅.
Definition reachable (y : system) : Prop := rtc step initial y.

(** ** One goroutine at a time *)

(** A goroutine that collects, or may still record what it collected. *)
Definition live (p : loop_pc) : bool := match p with Collecting | Waiting | Exiting => true | Closing | Gone => false end.

(** The channel a call of [Stop] holds or has seen closed. *)
Definition holds (p : stop_pc) : option nat := match p with Cancelling g | Joining g => Some g | _ => None end.
Definition joined (p : stop_pc) : option nat := match p with StopReturned _ (Some g) => Some g | _ => None end.

Record inv (r : Runtime) (ps : list stop_pc) (ls : gmap nat (string * loop_pc)) : Prop := {
  i_fresh : ∀ g, is_Some (ls !! g) → (g < next r)%nat;
  i_live : ∀ g scopeID p, ls !! g = Some (scopeID, p) → live p = true → started r = true ∧ done_ r = Some g ∧ stScopeID (state r) = scopeID;
  i_started : started r = true → ∃ g scopeID p, done_ r = Some g ∧ ls !! g = Some (scopeID, p) ∧ live p = true;
  i_stopped : started r = false → done_ r = None;
  i_running : rRunning (health (state r)) = started r;
  i_finished : ∀ g, g ∈ finished r → ∃ scopeID, ls !! g = Some (scopeID, Gone);
  i_joined : ∀ p g, p ∈ ps → joined p = Some g → g ∈ finished r;
}.

Lemma rt_inv_initial : inv newRT [] ∅.
Proof. constructor; first [done|by intros g [? ?]|intros; set_solver]. Qed.

(** A runtime that only differs in what was cancelled. *)
Lemma inv_cancel r ps ls c : inv r ps ls → inv (mkRT (started r) (done_ r) (state r) (next r) c (finished r)) ps ls.
Proof. intros []. by constructor. Qed.

Lemma inv_stops r ps ps' ls : inv r ps ls → (∀ p g, p ∈ ps' → joined p = Some g → g ∈ finished r) → inv r ps' ls.
Proof. intros [] H. by constructor. Qed.

Lemma inv_start e r p r' p' new ps ls :
  inv r ps ls → start_step letter_or_digit sha256 unmarshal_scope marshal_metadata e r p = Some (r', p', new) → inv r' ps (spawn new ls).
Proof.
  intros Hi H. destruct p; cbn [start_step] in H.
  - destruct (started r); injection H as <- <- <-; done.
  - destruct (prepare _ _ _ _ _ _) as [[sensorID at_]|]; injection H as <- <- <-; done.
  - destruct (started r) eqn:Es; injection H as <- <- <-; [done|]. destruct Hi as [Hf Hl _ Hd _ Hfin Hj]. cbn [spawn].
    assert (Hnew : ls !! next r = None) by (apply eq_None_not_Some; intros Hs%Hf; lia).
    constructor; simpl; try done.
    + intros g Hg. destruct (decide (g = next r)) as [->|]; [lia|]. rewrite lookup_insert_ne in Hg by done. apply Hf in Hg. lia.
    + intros g sc p Hg Hp. destruct (decide (g = next r)) as [->|Hne]; [rewrite lookup_insert_eq in Hg; by injection Hg as <- <-|].
      rewrite lookup_insert_ne in Hg by done. destruct (Hl g sc p Hg Hp) as [? _]. congruence.
    + intros _. eexists _, _, Collecting. split; [done|]. by rewrite lookup_insert_eq.
    + intros g Hg. destruct (Hfin g Hg) as [sc Hsc]. exists sc. rewrite lookup_insert_ne by congruence. done.
  - done.
Qed.

Lemma inv_stop ended r before p after r' p' ls :
  inv r (before ++ p :: after) ls → stop_step ended r p = Some (r', p') → inv r' (before ++ p' :: after) ls.
Proof.
  intros Hi H. assert (Hrest : ∀ q g, q ∈ before ++ after → joined q = Some g → g ∈ finished r) by (intros q g Hq; apply (i_joined _ _ _ Hi); set_solver).
  assert (Hmove : ∀ q, (∀ g, joined q = Some g → g ∈ finished r) → inv r (before ++ q :: after) ls).
  { intros q Hq. eapply inv_stops; [exact Hi|]. intros x g Hx. rewrite elem_of_app, elem_of_cons in Hx.
    destruct Hx as [Hx|[->|Hx]]; [apply Hrest; set_solver|apply Hq|apply Hrest; set_solver]. }
  destruct p; cbn [stop_step] in H.
  - destruct (started r); [destruct (done_ r)|]; injection H as <- <-; by apply Hmove.
  - injection H as <- <-. apply inv_cancel. by apply Hmove.
  - case_bool_decide as E; [|destruct ended; [|done]]; injection H as <- <-; apply Hmove; [|done]. intros g' [= <-]. done.
  - done.
Qed.

Lemma inv_loop t r ps ls g scopeID p r' p' :
  inv r ps ls → ls !! g = Some (scopeID, p) → loop_step t r g p = Some (r', p') → inv r' ps (<[g := (scopeID, p')]> ls).
Proof.
  intros [Hf Hl Hs Hst Hr Hfin Hj] Hg H.
  assert (Hfresh : ∀ q g', is_Some (<[g := (scopeID, q)]> ls !! g') → (g' < next r)%nat).
  { intros q g' H'. destruct (decide (g' = g)) as [->|]; [apply Hf; eauto|]. rewrite lookup_insert_ne in H' by done. by apply Hf. }
  assert (Hgone : p ≠ Gone → ∀ q g', g' ∈ finished r → ∃ sc, <[g := (scopeID, q)]> ls !! g' = Some (sc, Gone)).
  { intros Hp q g' H'. destruct (Hfin g' H') as [sc Hsc]. exists sc. rewrite lookup_insert_ne; [done|]. intros <-. congruence. }
  assert (Hother : live p = true → ∀ g' sc q, g' ≠ g → ls !! g' = Some (sc, q) → live q = false).
  { intros Hp g' sc q Hne Hq. destruct (live q) eqn:Eq; [|done]. destruct (Hl g scopeID p Hg Hp) as (_ & E & _), (Hl g' sc q Hq Eq) as (_ & E' & _). congruence. }
  assert (Hstay : live p = true → ∀ q st', live q = true → stScopeID st' = stScopeID (state r) → rRunning (health st') = rRunning (health (state r)) →
    p ≠ Gone → inv (with_state st' r) ps (<[g := (scopeID, q)]> ls)).
  { intros Hp q st' Hq Hsc Hrun Hne. destruct (Hl g scopeID p Hg Hp) as (E1 & E2 & E3). constructor; simpl; try done.
    - apply Hfresh.
    - intros g' sc x Hx Hlx. destruct (decide (g' = g)) as [->|Hne']; [rewrite lookup_insert_eq in Hx; injection Hx as <- <-; rewrite Hsc; done|].
      rewrite lookup_insert_ne in Hx by done. by rewrite (Hother Hp g' sc x) in Hlx.
    - intros _. exists g, scopeID, q. by rewrite lookup_insert_eq.
    - by rewrite Hrun.
    - by apply Hgone. }
  destruct p; cbn [loop_step] in H.
  - destruct (outcome t) as [res err]. injection H as <- <-. apply Hstay; try done; by destruct err.
  - destruct (tick t); [|case_bool_decide; [|done]]; injection H as <- <-; replace r with (with_state (state r) r) by (by destruct r); by apply Hstay.
  - destruct (Hl g scopeID Exiting Hg eq_refl) as (E1 & E2 & E3). rewrite bool_decide_eq_true_2 in H by done. injection H as <- <-.
    constructor; simpl; try done; [apply Hfresh| |by apply Hgone].
    intros g' sc x Hx Hlx. destruct (decide (g' = g)) as [->|Hne']; [rewrite lookup_insert_eq in Hx; by injection Hx as <- <-|].
    rewrite lookup_insert_ne in Hx by done. by rewrite (Hother eq_refl g' sc x) in Hlx.
  - injection H as <- <-. constructor; simpl; try done.
    + apply Hfresh.
    + intros g' sc x Hx Hlx. destruct (decide (g' = g)) as [->|Hne']; [rewrite lookup_insert_eq in Hx; by injection Hx as <- <-|].
      rewrite lookup_insert_ne in Hx by done. by apply (Hl g' sc x).
    + intros Hst'. destruct (Hs Hst') as (g' & sc & x & Hd & Hx & Hlx). exists g', sc, x. split; [done|]. split; [|done].
      rewrite lookup_insert_ne; [done|]. intros <-. rewrite Hg in Hx. by injection Hx as <- <-.
    + intros g' [->%elem_of_singleton|Hg']%elem_of_union; [exists scopeID; by rewrite lookup_insert_eq|by apply Hgone].
    + intros q g' Hq Hjq. apply elem_of_union. right. by eapply Hj.
  - done.
Qed.

Lemma rt_reachable_inv y : reachable y → inv (rt y) (stops y) (loops y).
Proof.
  revert y. apply (rtc_ind_r (λ y, inv (rt y) (stops y) (loops y))); [apply rt_inv_initial|]. intros y z _ Hstep Hi. destruct Hstep; simpl in *.
  - done.
  - eapply inv_stops; [exact Hi|]. intros p g [Hp|Hp%list_elem_of_singleton]%elem_of_app; [by apply (i_joined _ _ _ Hi)|by subst].
  - by eapply inv_start.
  - by eapply inv_stop.
  - by eapply inv_loop.
Qed.

(** C36: Device Watch collects in one place at a time.  For any number of overlapping calls of [Start] and
    [Stop]: at most one goroutine may still collect or record; there is one exactly when the runtime says it
    runs, and the state shown is that of its scope, never that of a goroutine started before; and when
    [Stop] reports that it has joined a goroutine, that one has ended and never acts again. *)
Theorem runtime_exclusive y :
  reachable y →
  rRunning (health (state (rt y))) = started (rt y) ∧
  (started (rt y) = true ↔ ∃ g scopeID p, loops y !! g = Some (scopeID, p) ∧ live p = true) ∧
  (∀ g scopeID p, loops y !! g = Some (scopeID, p) → live p = true → done_ (rt y) = Some g ∧ stScopeID (state (rt y)) = scopeID) ∧
  (∀ g g' s s' p p', loops y !! g = Some (s, p) → loops y !! g' = Some (s', p') → live p = true → live p' = true → g = g') ∧
  (∀ p g, p ∈ stops y → joined p = Some g → ∃ scopeID, loops y !! g = Some (scopeID, Gone) ∧ ∀ t r, loop_step t r g Gone = None).
Proof.
  intros [Hf Hl Hs Hst Hr Hfin Hj]%rt_reachable_inv. split; [done|]. split; [|split; [|split]].
  - split; [intros H; destruct (Hs H) as (g & sc & p & _ & ? & ?); eauto|]. intros (g & sc & p & Hg & Hp). by destruct (Hl g sc p Hg Hp).
  - intros g sc p Hg Hp. by destruct (Hl g sc p Hg Hp) as (_ & ? & ?).
  - intros g g' s s' p p' Hg Hg' Hp Hp'. destruct (Hl g s p Hg Hp) as (_ & E & _), (Hl g' s' p' Hg' Hp') as (_ & E' & _). congruence.
  - intros p g Hp Hjg. destruct (Hfin g (Hj p g Hp Hjg)) as [sc Hsc]. exists sc. done.
Qed.

End System.

(** ** A start, a collection and a stop *)

Definition home_env : env :=
  mkEnv (λ _, Ok (Domain.mkScope "home" "lan" home_clock None "{}")) (WatchScope.Inspect false WatchScope.home_by_name) (λ _, Ok tt) home_clock home_clock.

Lemma runtime_exclusive_witness :
  ∃ y, reachable WatchScope.no_letters no_digest (λ _, Some (Some WatchScope.home_binding)) (λ _, "{}") y ∧
    rRunning (health (state (rt y))) = started (rt y) ∧ started (rt y) = true ∧ stScopeID (state (rt y)) = "home".
Proof.
  assert (H : ∃ y, reachable WatchScope.no_letters no_digest (λ _, Some (Some WatchScope.home_binding)) (λ _, "{}") y ∧ started (rt y) = true ∧
    stScopeID (state (rt y)) = "home").
  { eexists. split.
    - unfold reachable, initial. eapply rtc_l; [apply (step_call_start _ _ _ _ _ _ _ _ "home")|].
      eapply rtc_l; [apply (step_start _ _ _ _ home_env _ [] (Checking "home") []); reflexivity|].
      eapply rtc_l; [apply (step_start _ _ _ _ home_env _ [] (Preparing "home") []); vm_compute; reflexivity|].
      eapply rtc_l; [eapply (step_start _ _ _ _ home_env _ [] _ []); reflexivity|]. apply rtc_refl.
    - split; reflexivity. }
  destruct H as (y & Hy & Hs & Hsc). exists y. split; [exact Hy|]. split; [|split; [exact Hs|exact Hsc]].
  apply (runtime_exclusive _ _ _ _ y Hy).
Defined.

End WatchRuntime.
